(* ===== verification/_CoqProject ===== *)
-Q . S2P
Prelude.v
CRuntime.v
Decimal.v
Hash.v
HashFacts.v
Array.v
RbShape.v
Rbtree.v
RbtreeZip.v
RbtreeIns.v
RbtreeSearch.v
RbtreeDel.v
RbtreeFacts.v
Engine.v
RbtreeProps.v
Protocol.v
Server.v
EpollServer.v
Coro.v
Ntyco.v
NtycoSocket.v
NtycoFacts.v
NtycoSleep.v
NtycoRun.v
NtycoServer.v
NtycoSim.v
NtycoSystem.v
BsdQueue.v
BsdTree.v
BsdTreeZip.v
BsdTreeIns.v
BsdTreeSearch.v
BsdTreeDel.v
BsdProps.v
Testcase.v
KvProps.v
NtycoProps.v
IkcpData.v
Ikcp.v
IkcpCodec.v
IkcpRecv.v
IkcpSend.v
IkcpAck.v
IkcpInput.v
IkcpFlush.v
IkcpTimer.v
IkcpApi.v
IkcpLink.v
IkcpSystem.v
IkcpBytes.v
KcpProps.v
Tunnel.v
MemPool.v
KvClient.v
Session.v
Gateway.v
GatewayInv.v
GatewaySafe.v
GatewayRun.v
GatewayLoop.v
GatewaySystem.v
GatewaySteps.v
GatewayProps.v
Client.v
Echo.v
LoadTest.v
LoadProps.v
ClientFacts.v
ClientProps.v
