(* ===== verification/Prelude.v ===== *)
(** * game_accelerator: a verification of the key-value store, the KCP
    transport, the gateway and the tunnel client

    The program relays the UDP traffic of game clients.  A client
    (src/client) registers with the gateway (src/gateway) over plain UDP, gets a
    conversation number, and then talks KCP (src/third_party/kcp) with it, in
    packets of the tunnel protocol (src/common).  CONNECT names a route; the
    gateway looks the route's address up in a key-value store (src/kv_store)
    over TCP and relays DATA to the game server found there.  The store answers
    SET, GET, DEL and MOD lines from one of three engines, behind a coroutine or
    an epoll server.  A load test and an echo server drive the whole chain, a
    test client the store.

    ** Files, and what they model

    - [Prelude]: faults, the state-and-fault monad [prog], total correctness
      [safe], machine integers ([u32], [i32], ...), tactics ([run], [b2p]) and
      the hint databases [ga] and [ga_run].
    - [CRuntime]: [malloc]/[free] with an arbitrary failure pattern, arbitrary
      stale contents and a count of live blocks; C strings, [strcmp],
      [strtok], [snprintf].  [Decimal]: decimal texts and their values.
    - [RbShape]: red-black trees as values, with their invariant at a focus,
      shared by the tree engine and the scheduler's trees.
    - [Hash] (hash.c), facts in [HashFacts]; [Array] (kvstore_array.c);
      [Rbtree] (kvstore_rbtree.c) at the level of pointers into a heap of nodes,
      facts in [RbtreeZip] (trees, contexts and the heap), [RbtreeIns],
      [RbtreeSearch], [RbtreeDel] and [RbtreeFacts].
    - [Engine]: the engine interface of kv_store.c as a type class [KvEngine]
      with its laws [KvLaws], and an instance for each engine.
    - [Protocol]: the tokenizer, the command parser and the reply buffer of
      kv_store.c; [kv_step] is the contract of the command language.
    - [Server]: one iteration of [server_reader] and the interleaving of
      readers (ntyco_entry.c).  [EpollServer]: the epoll build (epoll_entry.c),
      from start-up to the event loop, with [estep], what it promises for an
      event.  [Testcase]: the test client (testcase.c), from its options to the
      rates it reports, over a [link] to the server whose calls may fail, be cut
      short and deliver in pieces.
    - [Coro]: programs that give up the processor and leave the rest of
      themselves behind.  [Ntyco]: nty_coroutine.c, nty_schedule.c and
      nty_epoll.c.  [NtycoSocket]: nty_socket.c.  [NtycoServer]: ntyco_entry.c
      and [main] of kv_store.c under the scheduler, and the same server without
      coroutines.  Facts in [NtycoFacts] (the library's state, waiting and
      waking), [NtycoSleep], [NtycoRun] (resuming, the parts of a round),
      [NtycoSim] (what a woken coroutine does) and [NtycoSystem] (batches,
      rounds, start-up).
    - [BsdQueue], [BsdTree]: the tail queue of nty_queue.h and the red-black
      trees of nty_tree.h, at the level of their links.  Facts in [BsdQueue],
      [BsdTreeZip] (trees in the links), [BsdTreeIns], [BsdTreeSearch] and
      [BsdTreeDel].
    - [IkcpData], [Ikcp]: ikcp.c and ikcp.h.  Facts in [IkcpCodec] (headers),
      [IkcpRecv], [IkcpSend], [IkcpAck], [IkcpInput], [IkcpFlush],
      [IkcpTimer], [IkcpApi] (sequences of calls), [IkcpLink] (what two ends
      know of each other), [IkcpSystem] (two ends and a network that loses,
      repeats and reorders), [IkcpBytes] (memory and queue bounds).
    - [Tunnel]: tunnel_protocol.h and net_utils.cpp.  [MemPool]: mem_pool.h.
      [KvClient]: kv_client.cpp.
    - [Session]: session.cpp, kcp_session.cpp, session_manager.cpp and the
      timer of event_loop.cpp.  [Gateway]: gateway.cpp and event_loop.cpp.
      Facts in [GatewayInv] (the invariant), [GatewaySafe], [GatewayRun],
      [GatewayLoop] (every handler keeps it and does not fault),
      [GatewaySystem] (start-up, arrivals and rounds) and [GatewaySteps] (what
      single steps do).
    - [Client]: tunnel_client.cpp and main.cpp of the client, facts in
      [ClientFacts].  [LoadTest]: load_test.cpp.  [Echo]: udp_echo_server.cpp.
    - [KvProps], [NtycoProps], [BsdProps], [RbtreeProps], [KcpProps],
      [GatewayProps], [ClientProps], [LoadProps]: the properties, each with an
      example that applies it.

    ** How the code is modelled

    A program is a function from a state to a result and a state, or to a fault:
    a null dereference, the use of an indeterminate value or of freed memory, an
    access outside a buffer, a failed assertion, a deadlock.  The state is a
    record per component; [world] adds the allocator.  Integers are [Z] with
    their wrap-around written out.  Lists stand for the intrusive queues of KCP
    and for the chains of the hash table; the red-black trees, the scheduler's
    queue and the packet pool keep their pointers.  The scheduler itself works
    with lists, which [BsdProps] shows the links to implement.  A [Session *] is
    a conversation number, and following one whose session was erased is a
    fault.  So is a coroutine an address in a heap of its own; its saved context
    and stack are the rest of its program, and what the shared stack holds is
    tracked as far as the code reads it.  System calls take their results from
    the state, as arbitrary functions of the number of calls made or as
    arbitrary inputs, so a theorem that does not restrict them holds for every
    network.  The stream sockets of the store's servers and of the test client
    take as many bytes of a [send] as the system says; the datagrams of the
    gateway and the tunnel clients are recorded as handed to [sendto], whose
    result that code ignores, so nothing is claimed about their arrival.

    ** What is shown

    - The store: each engine refines a finite map, for every pattern of failed
      allocations where the code handles them; the tree stays a balanced
      red-black tree and is searched in logarithmic time; the tokenizer equals
      a reference splitting; every request the contract covers is answered as
      the contract says, by any engine that keeps the laws, over any
      interleaving of connections; what lies outside faults, and how.  The epoll
      build serves the same contract from its start, event by event, a reply
      being sent as far as the one [send] takes it; the test client passes
      against the server over a link without errors, and stops at an error.
    - The coroutine server: from the start of [ntyco_entry], and with the hash
      engine from the start of [main], with memory and a start-up that succeed
      and [epoll_wait] interrupted at most, for any batches of events, partial
      writes and errors that leave it its descriptors, the scheduler, the hooked
      sockets and the readers do what a server without coroutines does, without
      a fault and without a leak; requests the contract covers are answered as
      it says, through all the layers and over partial writes; going to sleep ends
      and the scheduler does not oversleep.  The queue and tree macros below it
      implement the lists of its model, keep the trees balanced and find, insert
      and remove in them without a fault.
    - KCP, with memory that does not run out: two ends of a conversation in
      message mode and with the default MTU, under any calls and any losses,
      repetitions and delays of datagrams: each receives the messages the other
      sent, whole, once and in order; what has not arrived at one end is still
      in the send buffer of the other, and when an end has nothing left to send
      or to be acknowledged, every byte it accepted is at the other end.  Encode
      and decode are inverse; fragmentation and reassembly; arbitrary input
      bytes are harmless; a flush respects the MTU and the windows; a session
      of any calls that do not lower the MTU, streaming mode included, does not
      overrun the output buffer and frees what it allocated.
    - The gateway, with memory that does not run out: from its start, for any
      datagrams and any batches of events, no fault and no leak, every pool block returned, the tables consistent;
      strangers have no effect; registration is idempotent; DATA that fits a pool
      block is handed to [sendto] unchanged; teardown and the idle sweep do exactly what they should; a
      route resolves end to end through the server and the engine.
    - The client: a run, with one message or with lines of input, ends and
      leaves neither memory nor descriptors behind; its registration and the gateway's agree on a fresh conversation.  The load
      test keeps to its cap of messages under way and recognises its echoes; the
      echo server returns every datagram unchanged to its sender.
    - Defects, as theorems about the code as it is: a lost unlock, unset memory,
      malformed requests, leaks of the tree, failed accepts and a descriptor read
      from another coroutine's frame, fresh sessions taken for idle, messages
      that block their session, a packet buffer that is too small, errors of
      [recv] taken for lengths, short sends taken for whole ones, a buffer
      overrun after the MTU was lowered, and what failed allocations and other
      errors of [epoll_wait] do ([input_without_memory],
      [register_without_memory], [connect_without_memory], [ntyco_aborts]).

    ** Bounds and fuel

    Loops whose end is not structural take a bound, and running out of it is the
    fault [OutOfFuel], which the theorems exclude: the tree's loops get two more
    than the number of nodes, [conv_loop] one more than the number of sessions,
    the datagram loops one more than the number of datagrams waiting,
    [message_loop] one more than the number of segments, the reading loop of
    [KVClient] [1000 * R + 1] rounds and the client's waiting loop
    [3000 * R + 1], where [R] system calls take at least a millisecond
    ([paced]).  A loop of a coroutine is left waiting in every iteration, so its
    bound is on how often it is woken: two more than the events of the run are
    enough; the loops of the scheduler get one more than the length of the queue
    they work off; those of the tree macros one more than the number of entries.
    The loops of the load test, which end by deadlines, take their bound as an
    argument.  KCP's queues are bounded by the bytes that came in, and these
    by 2^31, below which its 32-bit lengths do not wrap; the same bound holds for
    the segments and the calls of a run of two ends.

    ** Not modelled

    - Of the queue and tree headers of the coroutine library, the splay trees,
      the singly linked lists and tail queues and the LIST macros: the program
      only initialises a LIST and tests whether it is empty.  The library's
      assembly context switch, which the configuration does not compile, and the
      search for the C library's functions with [dlsym].
    - KCP's log, its allocator hook and pluggable congestion control
      ([ikcp_setcc]); the program uses none of them.
    - Log output, socket options and code between [#if 0] and [#endif]. *)

From stdpp Require Export base tactics option list list_numbers numbers gmap strings.
From Stdlib Require Export ZArith Lia.

(** ** Scope and hint databases of the development *)

Declare Scope ga_scope.
Delimit Scope ga_scope with ga.

Create HintDb ga discriminated.
Create Rewrite HintDb ga_run.

#[global] Open Scope Z_scope.

(** ** C runtime faults

    A C program that dereferences a null pointer, reads an indeterminate
    value, trips an [assert] or locks a mutex it already holds has no further
    behaviour.  The model stops with the reason. *)
Inductive fault :=
  | NullDeref
  | UninitRead
  | UseAfterFree
  | OutOfBounds
  | DivByZero
  | AssertFail
  | Deadlock
  (** a node linked into a queue or tree that holds it, or unlinked from one
      that does not *)
  | BadLink
  (** not a behaviour of the program: a loop ran more often than the bound
      its model was given *)
  | OutOfFuel.

#[global] Instance fault_eq_dec : EqDecision fault.
Proof. solve_decision. Defined.

Inductive result (A : Type) :=
  | Ok (a : A)
  | Err (f : fault).
Arguments Ok {A} _.
Arguments Err {A} _.

Lemma Ok_inj {A B} (a a' : A) (b b' : B) : Ok (a, b) = Ok (a', b') → a = a' ∧ b = b'.
Proof. by intros [= -> ->]. Qed.

#[global] Instance result_ret : MRet result := λ A a, Ok a.
#[global] Instance result_bind : MBind result := λ A B k m,
  match m with Ok a => k a | Err e => Err e end.

(** ** State-and-fault monad *)

Definition prog (S A : Type) : Type := S → result (A * S).

#[global] Instance prog_ret {S} : MRet (prog S) := λ A a s, Ok (a, s).
#[global] Instance prog_bind {S} : MBind (prog S) := λ A B k m s,
  match m s with
  | Ok (a, s') => k a s'
  | Err e => Err e
  end.

Definition stop {S A} (e : fault) : prog S A := λ _, Err e.

(** Code that may fail but touches no state. *)
Definition lift {S A} (r : result A) : prog S A := λ s, match r with Ok x => Ok (x, s) | Err e => Err e end.

Section prog_laws.
Context {S A B : Type}.
Implicit Types (m : prog S A) (k : A → prog S B) (s : S).

Lemma bind_Ok m k s a s' : m s = Ok (a, s') → (m ≫= k) s = k a s'.
Proof. intros E. unfold mbind, prog_bind. by rewrite E. Qed.

Lemma bind_Err m k s e : m s = Err e → (m ≫= k) s = Err e.
Proof. intros E. unfold mbind, prog_bind. by rewrite E. Qed.

Lemma bind_inv m k s b s'' :
  (m ≫= k) s = Ok (b, s'') → ∃ a s', m s = Ok (a, s') ∧ k a s' = Ok (b, s'').
Proof.
  unfold mbind, prog_bind. destruct (m s) as [[a s']|e] eqn:E; [eauto|done].
Qed.

Lemma ret_run (a : A) s : (mret a : prog S A) s = Ok (a, s).
Proof. done. Qed.
End prog_laws.

Lemma bind_run {S A B} (m : prog S A) (k : A → prog S B) s :
  (m ≫= k) s = match m s with Ok (a, s') => k a s' | Err e => Err e end.
Proof. done. Qed.

(** ** Total correctness

    [safe m s Q]: [m] runs to its end from [s], without a fault, and [Q] holds
    of the result. *)
Section safe.
Context {S : Type}.

Definition safe {A} (m : prog S A) (s : S) (Q : A → S → Prop) : Prop :=
  ∃ x s', m s = Ok (x, s') ∧ Q x s'.

Lemma safe_ret {A} (x : A) s (Q : A → S → Prop) : Q x s → safe (mret x) s Q.
Proof. intros H. by exists x, s. Qed.

Lemma safe_bind {A B} (m : prog S A) (f : A → prog S B) s Q :
  safe m s (λ x s', safe (f x) s' Q) → safe (m ≫= f) s Q.
Proof. intros (x & s' & H1 & y & s'' & H2 & HQ). exists y, s''. split; [|done]. by rewrite (bind_Ok _ _ _ _ _ H1). Qed.

Lemma safe_mono {A} (m : prog S A) s (P Q : A → S → Prop) :
  safe m s P → (∀ x s', P x s' → Q x s') → safe m s Q.
Proof. intros (x & s' & H & HP) HPQ. exists x, s'. auto. Qed.

Lemma lift_safe {A} (r : result A) x s (Q : A → S → Prop) : r = Ok x → Q x s → safe (lift r) s Q.
Proof. intros -> H. by exists x, s. Qed.
End safe.

Lemma stop_run {S A} e (s : S) : (stop e : prog S A) s = Err e.
Proof. done. Qed.

#[export] Hint Rewrite @bind_run @ret_run @stop_run : ga_run.

(** [run] steps a goal that executes a monadic program, using the equations
    of the [ga_run] database. *)
Ltac run := repeat (progress (autorewrite with ga_run; cbn beta iota)).
Ltac run_in H := repeat (progress (autorewrite with ga_run in H; cbn beta iota in H)).

(** [brk] splits on the boolean or option test the goal is stuck on. *)
Ltac brk :=
  match goal with
  | |- context [if ?b then _ else _] => destruct b eqn:?
  | |- context [match ?x with _ => _ end] => destruct x eqn:?
  end.

(** Boolean comparisons to propositions, everywhere. *)
Ltac b2p :=
  repeat match goal with
  | H : (_ && _)%bool = true |- _ => apply andb_prop in H; destruct H
  | H : (_ || _)%bool = false |- _ => apply orb_false_elim in H; destruct H
  | H : negb _ = true |- _ => apply negb_true_iff in H
  | H : negb _ = false |- _ => apply negb_false_iff in H
  | H : (_ =? _) = true |- _ => apply Z.eqb_eq in H
  | H : (_ =? _) = false |- _ => apply Z.eqb_neq in H
  | H : (_ <? _) = true |- _ => apply Z.ltb_lt in H
  | H : (_ <? _) = false |- _ => apply Z.ltb_ge in H
  | H : (_ <=? _) = true |- _ => apply Z.leb_le in H
  | H : (_ <=? _) = false |- _ => apply Z.leb_gt in H
  end.

(** ** Pointers that may be null *)

Definition null {A} (p : option A) : bool := match p with Some _ => false | None => true end.

Lemma null_Some {A} (a : A) : null (Some a) = false.
Proof. done. Qed.

(** ** Machine integers

    A [w]-bit unsigned value is a [Z] in [0, 2^w); arithmetic wraps. *)

Definition u8 (z : Z) : Z := z mod 2 ^ 8.
Definition u16 (z : Z) : Z := z mod 2 ^ 16.
Definition u32 (z : Z) : Z := z mod 2 ^ 32.
Definition u64 (z : Z) : Z := z mod 2 ^ 64.

(** Conversion to a signed 32-bit [int] (gcc: reduction modulo 2^32). *)
Definition i64 (z : Z) : Z := (z + 2 ^ 63) mod 2 ^ 64 - 2 ^ 63.
Definition i32 (z : Z) : Z := (z + 2 ^ 31) mod 2 ^ 32 - 2 ^ 31.

Lemma u32_range z : 0 ≤ u32 z < 2 ^ 32.
Proof. apply Z.mod_pos_bound. lia. Qed.

Lemma u32_small z : 0 ≤ z < 2 ^ 32 → u32 z = z.
Proof. apply Z.mod_small. Qed.

Lemma i32_range z : - 2 ^ 31 ≤ i32 z < 2 ^ 31.
Proof. unfold i32. pose proof (Z.mod_pos_bound (z + 2^31) (2^32)). lia. Qed.

Lemma i32_small z : - 2 ^ 31 ≤ z < 2 ^ 31 → i32 z = z.
Proof. intros. unfold i32. rewrite Z.mod_small by lia. lia. Qed.

Lemma u32_u32 z : u32 (u32 z) = u32 z.
Proof. apply Z.mod_mod. lia. Qed.

(** [lia] with division and remainder by constants. *)
Ltac dlia := Z.div_mod_to_equations; lia.

Lemma pow2_mod5 j : 0 ≤ j → 2 ^ j mod 5 ≠ 0.
Proof.
  revert j. apply natlike_ind; [done|]. intros j Hj IH. rewrite Z.pow_succ_r by done. dlia.
Qed.

(** ** Lists *)

Section list_facts.
Context {A : Type}.
Implicit Types l : list A.

Lemma lookup_insert_cases l i j (x y : A) :
  <[i:=x]> l !! j = Some y →
  (i = j ∧ y = x ∧ (i < length l)%nat) ∨ (i ≠ j ∧ l !! j = Some y).
Proof.
  intros H. destruct (decide (i = j)) as [->|Hne].
  - assert (j < length l)%nat.
    { apply lookup_lt_Some in H. by rewrite length_insert in H. }
    rewrite list_lookup_insert_eq in H by done. left. naive_solver.
  - rewrite list_lookup_insert_ne in H by done. by right.
Qed.

Lemma sum_list_insert (f : A → nat) l i x y :
  l !! i = Some x →
  (sum_list_with f (<[i:=y]> l) + f x = sum_list_with f l + f y)%nat.
Proof.
  revert i. induction l as [|z l IH]; intros [|i] H; simplify_eq/=; [lia|].
  specialize (IH i H). lia.
Qed.

Lemma sum_list_replicate (f : A → nat) n x :
  sum_list_with f (replicate n x) = (n * f x)%nat.
Proof. induction n; simpl; lia. Qed.

Lemma elem_of_concat (ls : list (list A)) x : x ∈ concat ls ↔ ∃ l, x ∈ l ∧ l ∈ ls.
Proof.
  rewrite list_elem_of_In, in_concat.
  split; intros (l & ? & ?); exists l; rewrite !list_elem_of_In in *; auto.
Qed.
End list_facts.

(** ** Record update

    [r <| f := v |>] is [r] with field [f] set to [v].  A [Setter] for a field
    is built from the record's eta-expansion. *)
Class Setter {R T : Type} (p : R → T) := upd : (T → T) → R → R.

Notation "r <| p := v |>" := (upd (p := p) (λ _, v) r)
  (at level 12, left associativity, p at level 0, v at level 99,
   format "r  <| p  :=  v |>").

Ltac build_setter eta p :=
  let e := eval pattern p in eta in
  match e with
  | ?g _ => let t := eval cbv beta in (λ f r, g (λ r', f (p r')) r) in exact t
  end.
