(* ===== verification/CRuntime.v ===== *)
(** * The C runtime the key-value store uses

    Heap allocation ([malloc]/[free] behind [kvstore_malloc]/[kvstore_free]),
    NUL-terminated strings, [strcmp], [strtok] and [snprintf], as far as the
    sources call them. *)

From S2P Require Import Prelude.

(** ** Allocator

    Whether the [n]-th call to [malloc] succeeds, and whether the block it
    hands out happens to be filled with zero bytes, is up to the platform:
    both are arbitrary functions carried by the state.  [al_live] counts the
    blocks that are allocated and not yet freed. *)
Record alloc := Alloc {
  al_ok : nat → bool;
  al_zero : nat → bool;
  al_calls : nat;
  al_live : Z;
}.

(** The state of a program: one component's data and the allocator. *)
Record world (E : Type) := World { w_eng : E; w_al : alloc }.
Arguments World {E} _ _.
Arguments w_eng {E} _.
Arguments w_al {E} _.

Section memory.
Context {E : Type}.

Definition get_eng : prog (world E) E := λ w, Ok (w_eng w, w).
Definition put_eng (e : E) : prog (world E) unit :=
  λ w, Ok (tt, World e (w_al w)).

(* src/kv_store/kv_store.c kvstore_malloc *)
(** [Some z]: a fresh block, zero filled when [z]; [None]: NULL. *)
Definition kvstore_malloc : prog (world E) (option bool) := λ w,
  let a := w_al w in
  let n := al_calls a in
  if al_ok a n
  then Ok (Some (al_zero a n),
           World (w_eng w) (Alloc (al_ok a) (al_zero a) (S n) (al_live a + 1)))
  else Ok (None, World (w_eng w) (Alloc (al_ok a) (al_zero a) (S n) (al_live a))).

(* src/kv_store/kv_store.c kvstore_free *)
(** Freeing a non-null block; [free(NULL)] is the caller's [mret tt]. *)
Definition kvstore_free : prog (world E) unit := λ w,
  let a := w_al w in
  Ok (tt, World (w_eng w) (Alloc (al_ok a) (al_zero a) (al_calls a) (al_live a - 1))).

(** [kvstore_free(p)] for a pointer that may be null. *)
Definition free_ptr {A} (p : option A) : prog (world E) unit :=
  match p with Some _ => kvstore_free | None => mret tt end.
End memory.

(** Every allocation from here on succeeds. *)
Definition al_total (a : alloc) : Prop := ∀ n, (al_calls a ≤ n)%nat → al_ok a n = true.

(** An allocator that never fails and zero-fills. *)
Definition al_good : alloc := Alloc (λ _, true) (λ _, true) 0 0.
(** An allocator that always fails. *)
Definition al_none : alloc := Alloc (λ _, false) (λ _, false) 0 0.
(** An allocator that never fails and hands out blocks with stale contents. *)
Definition al_stale : alloc := Alloc (λ _, true) (λ _, false) 0 0.

Definition al_next (a : alloc) (d : Z) : alloc :=
  Alloc (al_ok a) (al_zero a) (S (al_calls a)) (al_live a + d).
Definition al_dec (a : alloc) : alloc :=
  Alloc (al_ok a) (al_zero a) (al_calls a) (al_live a - 1).

Lemma al_total_next a d : al_total a → al_total (al_next a d).
Proof. intros H n Hn. apply H. simpl in Hn. lia. Qed.

Lemma al_total_dec a : al_total a → al_total (al_dec a).
Proof. intros H n Hn. by apply H. Qed.

Lemma al_good_total : al_total al_good.
Proof. by intros n _. Qed.

Lemma al_stale_total : al_total al_stale.
Proof. by intros n _. Qed.

#[export] Hint Resolve al_total_next al_total_dec al_good_total al_stale_total : ga.

Section memory_lemmas.
Context {E : Type}.
Implicit Types (e : E) (a : alloc).

Lemma malloc_Some e a :
  al_ok a (al_calls a) = true →
  kvstore_malloc (World e a) = Ok (Some (al_zero a (al_calls a)), World e (al_next a 1)).
Proof. intros H. unfold kvstore_malloc. simpl. by rewrite H. Qed.

Lemma malloc_None e a :
  al_ok a (al_calls a) = false →
  kvstore_malloc (World e a) = Ok (None, World e (al_next a 0)).
Proof.
  intros H. unfold kvstore_malloc, al_next. simpl. rewrite H, Z.add_0_r. done.
Qed.

Lemma malloc_total e a :
  al_total a →
  kvstore_malloc (World e a) = Ok (Some (al_zero a (al_calls a)), World e (al_next a 1)).
Proof. intros H. apply malloc_Some. by apply H. Qed.

Lemma get_eng_run e a : get_eng (World e a) = Ok (e, World e a).
Proof. done. Qed.

Lemma put_eng_run e e' a : put_eng e' (World e a) = Ok (tt, World e' a).
Proof. done. Qed.

Lemma free_run e a : kvstore_free (World e a) = Ok (tt, World e (al_dec a)).
Proof. done. Qed.
End memory_lemmas.

#[export] Hint Rewrite @get_eng_run @put_eng_run @free_run : ga_run.

(** ** Strings

    A byte is a [Z]; the value of a [char *] is the list of the bytes before
    its terminating NUL. *)

Definition cstr := list Z.

(** The value of a [char *] stored in a table: NULL, a live string, or a
    pointer whose block has been freed. *)
Inductive vptr := VNull | VStr (s : cstr) | VFreed.

(** [kvstore_free] of such a pointer: freeing twice is undefined. *)
Definition free_vptr {E} (p : vptr) : prog (world E) unit :=
  match p with
  | VNull => mret tt
  | VStr _ => kvstore_free
  | VFreed => stop UseAfterFree
  end.

(** A byte string without an embedded NUL: what a C string can hold. *)
Definition cstr_ok (s : cstr) : Prop := Forall (λ b, 1 ≤ b < 256) s.

#[global] Instance cstr_ok_dec s : Decision (cstr_ok s).
Proof. unfold cstr_ok. apply _. Defined.

(** Literals: the bytes of an ASCII string. *)
Fixpoint str (s : string) : cstr :=
  match s with
  | EmptyString => []
  | String c s => Z.of_N (Ascii.N_of_ascii c) :: str s
  end.

Definition strlen (s : cstr) : Z := Z.of_nat (length s).

(** [strcmp]: the sign of the first difference, bytes compared as
    [unsigned char], a missing byte being the terminating 0. *)
Fixpoint strcmp (a b : cstr) : Z :=
  match a, b with
  | [], [] => 0
  | [], _ :: _ => -1
  | _ :: _, [] => 1
  | x :: a', y :: b' => if x <? y then -1 else if y <? x then 1 else strcmp a' b'
  end.

Lemma strcmp_eq a b : strcmp a b = 0 ↔ a = b.
Proof.
  revert b. induction a as [|x a IH]; intros [|y b]; simpl; try done.
  destruct (x <? y) eqn:E1; [split; b2p; [lia|intros; simplify_eq; lia]|].
  destruct (y <? x) eqn:E2; [split; b2p; [lia|intros; simplify_eq; lia]|].
  b2p. rewrite IH. split; [intros ->; f_equal; lia|by intros [= -> ->]].
Qed.

Lemma strcmp_refl a : strcmp a a = 0.
Proof. by apply strcmp_eq. Qed.

Lemma strcmp_eqb a b : (strcmp a b =? 0) = bool_decide (a = b).
Proof.
  case_bool_decide as E; [by apply Z.eqb_eq, strcmp_eq|].
  apply Z.eqb_neq. by rewrite strcmp_eq.
Qed.

Lemma strcmp_antisym a b : strcmp a b = - strcmp b a.
Proof.
  revert b. induction a as [|x a IH]; intros [|y b]; simpl; try done.
  destruct (x <? y) eqn:E1, (y <? x) eqn:E2; b2p; try lia. apply IH.
Qed.

Lemma strcmp_lt_trans a b c : strcmp a b < 0 → strcmp b c < 0 → strcmp a c < 0.
Proof.
  revert b c. induction a as [|x a IH]; intros [|y b] [|z c]; simpl; try lia.
  destruct (x <? y) eqn:E1, (y <? x) eqn:E2, (y <? z) eqn:E3, (z <? y) eqn:E4,
    (x <? z) eqn:E5, (z <? x) eqn:E6; b2p; try lia. apply IH.
Qed.
