(* ===== verification/Decimal.v ===== *)
(** * Decimal numbers

    What [%d] prints, and the digits of it as [strtoul] reads them. *)

From stdpp Require Import pretty.
From S2P Require Import Prelude CRuntime.

(** ** Printing *)

Lemma str_String c s : str (String c s) = Z.of_N (Ascii.N_of_ascii c) :: str s.
Proof. done. Qed.

Definition digit (b : Z) : Prop := 48 ≤ b ≤ 57.

Lemma pretty_char_digit (x : N) : (x < 10)%N → digit (Z.of_N (Ascii.N_of_ascii (pretty_N_char x))).
Proof.
  intros H. unfold digit.
  assert (x ∈ [0; 1; 2; 3; 4; 5; 6; 7; 8; 9]%N) as Hx.
  { rewrite !elem_of_cons. lia. }
  rewrite !elem_of_cons in Hx. destruct_or? Hx; subst; try (vm_compute; split; discriminate).
  by apply elem_of_nil in Hx.
Qed.

Lemma pretty_go_digits x s : Forall digit (str s) → Forall digit (str (pretty_N_go x s)).
Proof.
  revert s. induction (N.lt_wf_0 x) as [x _ IH]; intros s Hs.
  destruct (decide (0 < x)%N) as [Hx|Hx].
  - rewrite pretty_N_go_step by done. apply IH.
    + apply N.div_lt; lia.
    + rewrite str_String. constructor; [|done]. apply pretty_char_digit. by apply N.mod_lt.
  - assert (x = 0%N) as -> by lia. by rewrite pretty_N_go_0.
Qed.

Lemma pretty_go_length x s k :
  (x < 10 ^ N.of_nat k)%N → (length (str (pretty_N_go x s)) ≤ k + length (str s))%nat.
Proof.
  revert x s. induction k as [|k IH]; intros x s Hx.
  - change (10 ^ N.of_nat 0)%N with 1%N in Hx. assert (x = 0%N) as -> by lia.
    by rewrite pretty_N_go_0.
  - destruct (decide (0 < x)%N) as [Hp|Hp].
    + rewrite pretty_N_go_step by done. etrans; [apply IH|rewrite str_String; simpl; lia].
      rewrite Nat2N.inj_succ, N.pow_succ_r' in Hx. apply N.Div0.div_lt_upper_bound. lia.
    + assert (x = 0%N) as -> by lia. rewrite pretty_N_go_0. lia.
Qed.

Lemma str_inj s t : str s = str t → s = t.
Proof.
  revert t. induction s as [|c s IH]; intros [|d t]; try done. rewrite !str_String.
  intros [= Hc Hs]. apply N2Z.inj in Hc. apply (f_equal Ascii.ascii_of_N) in Hc.
  rewrite !Ascii.ascii_N_embedding in Hc. subst. f_equal. by apply IH.
Qed.

(** [%u] *)
Definition show_dec (n : Z) : cstr := str (pretty (Z.to_N n)).

Lemma show_dec_digits n : Forall digit (show_dec n).
Proof.
  unfold show_dec, pretty, pretty_N. case_decide as Hi.
  - repeat constructor; unfold digit; simpl; lia.
  - apply pretty_go_digits. constructor.
Qed.

(** ** Reading *)

Definition is_digit (b : Z) : bool := (48 <=? b) && (b <=? 57).

Lemma is_digit_digit b : is_digit b = true ↔ digit b.
Proof. unfold is_digit, digit. rewrite andb_true_iff, !Z.leb_le. done. Qed.

Lemma is_digit_dec x : 0 ≤ x < 10 → is_digit (48 + x) = true.
Proof. intros H. apply is_digit_digit. unfold digit. lia. Qed.

Fixpoint digits_value (s : cstr) (acc : Z) : Z :=
  match s with
  | b :: s' => if is_digit b then digits_value s' (acc * 10 + (b - 48)) else acc
  | [] => acc
  end.

Lemma pretty_char_value (x : N) :
  (x < 10)%N → Z.of_N (Ascii.N_of_ascii (pretty_N_char x)) = 48 + Z.of_N x.
Proof.
  intros H. assert (x ∈ [0; 1; 2; 3; 4; 5; 6; 7; 8; 9]%N) as Hx by (rewrite !elem_of_cons; lia).
  rewrite !elem_of_cons in Hx. destruct_or? Hx; subst; try reflexivity. by apply elem_of_nil in Hx.
Qed.

Lemma pretty_go_value x s : digits_value (str (pretty_N_go x s)) 0 = digits_value (str s) (Z.of_N x).
Proof.
  revert s. induction (N.lt_wf_0 x) as [x _ IH]; intros s.
  destruct (decide (0 < x)%N) as [Hx|Hx].
  - rewrite pretty_N_go_step by done. rewrite IH by (apply N.div_lt; lia).
    rewrite str_String, pretty_char_value by (by apply N.mod_lt). cbn [digits_value].
    rewrite is_digit_dec by (rewrite N2Z.inj_mod; by apply Z.mod_pos_bound). f_equal.
    rewrite N2Z.inj_div, N2Z.inj_mod. change (Z.of_N 10) with 10. dlia.
  - assert (x = 0%N) as -> by lia. by rewrite pretty_N_go_0.
Qed.

Lemma show_dec_value n : 0 ≤ n → digits_value (show_dec n) 0 = n.
Proof.
  intros Hn. unfold show_dec, pretty, pretty_N. case_decide as Hi; [transitivity 0; [reflexivity|lia]|].
  rewrite pretty_go_value. cbn [digits_value str]. lia.
Qed.

Lemma show_dec_nonempty n : ∃ b s, show_dec n = b :: s ∧ digit b.
Proof.
  pose proof (show_dec_digits n) as H. destruct (show_dec n) as [|b s] eqn:E; [|exists b, s; by inversion H].
  exfalso. destruct (decide (0 ≤ n)) as [Hn|Hn].
  - unfold show_dec, pretty, pretty_N in E. case_decide as Hi; [done|].
    rewrite pretty_N_go_step in E by lia.
    assert (∀ x s, s ≠ [] → ∀ s', str s' = s → str (pretty_N_go x s') ≠ []) as Hne.
    { clear. intros x. induction (N.lt_wf_0 x) as [x _ IH]. intros s Hs s' <-.
      destruct (decide (0 < x)%N) as [Hx|Hx].
      - rewrite pretty_N_go_step by done. eapply IH; [apply N.div_lt; lia| |reflexivity]. done.
      - assert (x = 0%N) as -> by lia. by rewrite pretty_N_go_0. }
    eapply Hne; [..|exact E]; [|reflexivity]. done.
  - unfold show_dec in E. replace (Z.to_N n) with 0%N in E by lia. done.
Qed.

Lemma show_dec_length n k : 0 ≤ n < 10 ^ Z.of_nat k → (1 ≤ k)%nat → (length (show_dec n) ≤ k)%nat.
Proof.
  intros Hn Hk. unfold show_dec, pretty, pretty_N. case_decide as Hi; [simpl; lia|].
  etrans; [apply (pretty_go_length _ _ k)|simpl; lia].
  apply N2Z.inj_lt. rewrite Z2N.id, N2Z.inj_pow, nat_N_Z by lia. simpl. lia.
Qed.

(** ** Reading numbers *)

Definition is_space (b : Z) : bool := ((9 <=? b) && (b <=? 13)) || (b =? 32).

Fixpoint skip_spaces (s : cstr) : cstr :=
  match s with
  | b :: s' => if is_space b then skip_spaces s' else s
  | [] => []
  end.

(** [strtoul(s, nullptr, 10)]: white space, a sign, digits; saturating. *)
Definition strtoul (s : cstr) : Z :=
  let s := skip_spaces s in
  let neg := match s with b :: _ => b =? 45 | [] => false end in
  let s := match s with b :: s' => if (b =? 45) || (b =? 43) then s' else s | [] => [] end in
  let v := digits_value s 0 in
  if 2 ^ 64 <=? v then 2 ^ 64 - 1 else if neg then u64 (- v) else v.

(** [atoi(s)]: [strtol] cut to an [int]; saturating in 64 bits first. *)
Definition atoi (s : cstr) : Z :=
  let s := skip_spaces s in
  let neg := match s with b :: _ => b =? 45 | [] => false end in
  let s := match s with b :: s' => if (b =? 45) || (b =? 43) then s' else s | [] => [] end in
  let v := digits_value s 0 in
  i32 (if neg then Z.max (- v) (- 2 ^ 63) else Z.min v (2 ^ 63 - 1)).
