(* ===== verification/HashFacts.v ===== *)
(** * Correctness of the hash engine

    The invariant of the table, the refinement of every operation of [Hash.v]
    to a finite map, for an arbitrary allocator, and the accounting of the
    heap blocks the table owns. *)

From S2P Require Import Prelude CRuntime Hash.

(** ** Placement *)

Definition place (n : Z) (k : cstr) : nat := Z.to_nat (foldl hash_step 5381 k mod n).

Lemma hash_step_range h c : 0 ≤ hash_step h c < 2 ^ 32.
Proof. apply u32_range. Qed.

Lemma hash_fold_range k : 0 ≤ foldl hash_step 5381 k < 2 ^ 32.
Proof.
  destruct k as [|c k _] using rev_ind; [simpl; lia|].
  rewrite foldl_snoc. apply hash_step_range.
Qed.

(** The sizes the table goes through: 1024 doubled, within [int]. *)
Definition good_size (n : Z) : Prop := ∃ j, 10 ≤ j ≤ 30 ∧ n = 2 ^ j.

Lemma good_size_bounds n : good_size n → 2 ^ 10 ≤ n ≤ 2 ^ 30.
Proof. intros (j & Hj & ->). split; apply Z.pow_le_mono_r; lia. Qed.

Lemma good_size_init : good_size MAX_TABLE_SIZE.
Proof. exists 10. split; [lia|done]. Qed.

Lemma good_size_double n : good_size n → n < 2 ^ 30 → good_size (n * 2).
Proof.
  intros (j & Hj & ->) H. exists (j + 1). rewrite Z.pow_add_r by lia.
  apply Z.pow_lt_mono_r_iff in H; [|lia..]. split; lia.
Qed.

Lemma hash_run k n w :
  0 < n < 2 ^ 31 → _hash (Some k) n w = Ok (Z.of_nat (place n k), w).
Proof.
  intros Hn. unfold _hash. rewrite u32_small by lia.
  destruct (n =? 0) eqn:E; b2p; [lia|].
  pose proof (Z.mod_pos_bound (foldl hash_step 5381 k) n).
  unfold place. rewrite Z2Nat.id by lia. rewrite i32_small by lia. done.
Qed.

Lemma place_lt n k : 0 < n → (place n k < Z.to_nat n)%nat.
Proof.
  intros. unfold place. pose proof (Z.mod_pos_bound (foldl hash_step 5381 k) n). lia.
Qed.

(** ** The invariant *)

Definition kv (x : hashnode_t) : cstr * option cstr := (hkey x, hvalue x).

(** Blocks a node owns: itself, its key, and its value if it has one. *)
Definition node_blocks (x : hashnode_t) : Z := 2 + (if null (hvalue x) then 0 else 1).
Definition blocks (l : list hashnode_t) : Z := foldr (λ x, Z.add (node_blocks x)) 0 l.

Record table_ok (n : Z) (cs : list (list hashnode_t)) : Prop := {
  tok_len : length cs = Z.to_nat n;
  tok_place : ∀ i c x, cs !! i = Some c → x ∈ c → place n (hkey x) = i;
  tok_keys : NoDup (hkey <$> concat cs);
}.

(** The abstract contents: key to value, [None] standing for the NULL value a
    failed overwrite leaves behind. *)
Definition contents (l : list hashnode_t) : gmap cstr (option cstr) := list_to_map (kv <$> l).

(** [hrep base b w m]: state [w] is a well-formed table with contents [m]
    and lock state [b], and apart from [base] blocks owned elsewhere every
    live heap block belongs to it. *)
Definition hrep (base : Z) (b : bool) (w : hw) (m : gmap cstr (option cstr)) : Prop :=
  ∃ cs, nodes (w_eng w) = Table (Chain <$> cs) ∧
    good_size (max_slots (w_eng w)) ∧
    table_ok (max_slots (w_eng w)) cs ∧
    count (w_eng w) = Z.of_nat (length (concat cs)) ∧
    lock (w_eng w) = b ∧
    m = contents (concat cs) ∧
    al_live (w_al w) = base + 1 + blocks (concat cs).

(** ** Chains and permutations *)

Lemma concat_split {A} (cs : list (list A)) i c :
  cs !! i = Some c →
  ∃ rest, concat cs ≡ₚ c ++ rest ∧ ∀ c', concat (<[i:=c']> cs) ≡ₚ c' ++ rest.
Proof.
  intros H. exists (concat (take i cs) ++ concat (drop (S i) cs)).
  assert (i < length cs)%nat as Hi by (by eapply lookup_lt_Some).
  assert (∀ x, concat (take i cs ++ x :: drop (S i) cs)
               ≡ₚ x ++ concat (take i cs) ++ concat (drop (S i) cs)) as Hp.
  { intros x. rewrite concat_app. simpl. rewrite !app_assoc.
    by rewrite (Permutation_app_comm (concat _) x). }
  split; [by rewrite <- Hp, take_drop_middle|].
  intros c'. by rewrite <- Hp, <- insert_take_drop.
Qed.

Lemma blocks_app l1 l2 : blocks (l1 ++ l2) = blocks l1 + blocks l2.
Proof. induction l1; simpl; lia. Qed.

#[global] Instance blocks_proper : Proper ((≡ₚ) ==> (=)) blocks.
Proof. induction 1; simpl; lia. Qed.

Lemma contents_perm l1 l2 : NoDup (hkey <$> l1) → l1 ≡ₚ l2 → contents l1 = contents l2.
Proof.
  intros Hd Hp. unfold contents. apply list_to_map_proper; [|by rewrite Hp].
  rewrite <- list_fmap_compose. by erewrite list_fmap_ext; [exact Hd|].
Qed.

Lemma contents_lookup l k x :
  NoDup (hkey <$> l) → x ∈ l → hkey x = k → contents l !! k = Some (hvalue x).
Proof.
  intros Hd Hx <-. apply elem_of_list_to_map_1.
  - rewrite <- list_fmap_compose. by erewrite list_fmap_ext; [exact Hd|].
  - by apply (list_elem_of_fmap_2 kv).
Qed.

Lemma contents_None l k : k ∉ hkey <$> l → contents l !! k = None.
Proof.
  intros H. apply not_elem_of_list_to_map_1.
  rewrite <- list_fmap_compose. by erewrite list_fmap_ext; [exact H|].
Qed.

Lemma contents_cons x l : contents (x :: l) = <[hkey x := hvalue x]> (contents l).
Proof. done. Qed.

Lemma contents_size l : NoDup (hkey <$> l) → size (contents l) = length l.
Proof.
  induction l as [|x l IH]; [done|]. intros [Hx Hd]%NoDup_cons.
  rewrite contents_cons, map_size_insert_None by by apply contents_None.
  simpl. by rewrite IH.
Qed.

Lemma find_chain_None k c : k ∉ hkey <$> c → find_chain k c = None.
Proof.
  induction c as [|x c IH]; [done|]. rewrite fmap_cons, not_elem_of_cons.
  intros [Hne Hc]. simpl. rewrite strcmp_eqb, bool_decide_eq_false_2 by done. auto.
Qed.

Lemma find_chain_Some k l1 x l2 :
  k ∉ hkey <$> l1 → hkey x = k → find_chain k (l1 ++ x :: l2) = Some x.
Proof.
  intros Hk Hx. induction l1 as [|y l1 IH]; simpl.
  - by rewrite Hx, strcmp_refl.
  - rewrite fmap_cons, not_elem_of_cons in Hk. destruct Hk.
    rewrite strcmp_eqb, bool_decide_eq_false_2 by done. auto.
Qed.

(** A chain either misses a key or splits at its first node with it. *)
Lemma chain_cases k (c : list hashnode_t) :
  k ∉ hkey <$> c ∨ ∃ l1 x l2, c = l1 ++ x :: l2 ∧ hkey x = k ∧ k ∉ hkey <$> l1.
Proof.
  induction c as [|y c IH]; [left; apply not_elem_of_nil|].
  destruct (decide (hkey y = k)) as [<-|Hne].
  { right. exists [], y, c. split_and!; [done..|apply not_elem_of_nil]. }
  destruct IH as [Hn|(l1 & x & l2 & -> & Hx & Hn)].
  - left. rewrite fmap_cons, not_elem_of_cons. naive_solver.
  - right. exists (y :: l1), x, l2. rewrite fmap_cons, not_elem_of_cons. naive_solver.
Qed.

Section at_slot.
Context (n : Z) (cs : list (list hashnode_t)) (Hok : table_ok n cs) (Hn : 0 < n).

Lemma slot_exists k : ∃ c, cs !! place n k = Some c.
Proof.
  apply lookup_lt_is_Some. rewrite (tok_len _ _ Hok). by apply place_lt.
Qed.

(** A key that is somewhere in the table is in its own chain. *)
Lemma key_in_slot k c : cs !! place n k = Some c → k ∈ hkey <$> concat cs → k ∈ hkey <$> c.
Proof.
  intros Hc (x & -> & Hx)%list_elem_of_fmap.
  apply elem_of_concat in Hx as (c' & Hx & Hc').
  apply list_elem_of_lookup in Hc' as [i Hi].
  pose proof (tok_place _ _ Hok _ _ _ Hi Hx) as Hp. subst i.
  rewrite Hc in Hi. simplify_eq. by apply (list_elem_of_fmap_2 hkey).
Qed.

(** Replacing a chain by one whose keys belong to the slot. *)
Lemma table_ok_write i c c' :
  cs !! i = Some c →
  (∀ x, x ∈ c' → place n (hkey x) = i) →
  NoDup (hkey <$> concat (<[i:=c']> cs)) →
  table_ok n (<[i:=c']> cs).
Proof.
  intros Hc Hp Hd. split; [by rewrite length_insert, (tok_len _ _ Hok)| |done].
  intros j d x Hj Hx. destruct (lookup_insert_cases _ _ _ _ _ Hj) as [(<- & -> & _)|[? Hj']].
  - by apply Hp.
  - by eapply tok_place.
Qed.
End at_slot.

(** ** Table accesses *)

Lemma upd_run f e a : upd f (World e a) = Ok (tt, World (f e) a).
Proof. unfold upd. by run. Qed.

#[export] Hint Rewrite upd_run : ga_run.

Lemma lookup_chains (cs : list (list hashnode_t)) i c :
  cs !! i = Some c → (Chain <$> cs) !! i = Some (Chain c).
Proof. intros H. by rewrite list_lookup_fmap, H. Qed.

Lemma read_slot_run e a cs i c :
  nodes e = Table (Chain <$> cs) → cs !! i = Some c →
  read_slot (Z.of_nat i) (World e a) = Ok (c, World e a).
Proof.
  intros Hn Hc. unfold read_slot, table. run. rewrite Hn. run.
  by rewrite Nat2Z.id, (lookup_chains _ _ _ Hc).
Qed.

Lemma write_slot_run e a cs i c' :
  nodes e = Table (Chain <$> cs) →
  write_slot (Z.of_nat i) c' (World e a) =
  Ok (tt, World (set_nodes (Table (Chain <$> <[i:=c']> cs)) e) a).
Proof.
  intros Hn. unfold write_slot, table. run. rewrite Hn. run.
  by rewrite Nat2Z.id, list_fmap_insert.
Qed.

(** ** Resizing *)

Lemma move_chain_run n c new w :
  0 < n < 2 ^ 31 → table_ok n new → NoDup (hkey <$> c ++ concat new) →
  ∃ new', move_chain n c new w = Ok (new', w) ∧ table_ok n new' ∧
    concat new' ≡ₚ c ++ concat new.
Proof.
  intros Hn. revert new. induction c as [|x c IH]; intros new Hok Hd; [by exists new|].
  simpl. destruct (slot_exists n new Hok (proj1 Hn) (hkey x)) as [hd Hhd].
  rewrite (bind_Ok _ _ _ _ _ (hash_run (hkey x) n w Hn)). rewrite Nat2Z.id, Hhd.
  destruct (concat_split _ _ _ Hhd) as (rest & Hp & Hp').
  specialize (Hp' (x :: hd)).
  assert (concat (<[place n (hkey x):=x :: hd]> new) ≡ₚ x :: concat new) as Hq
    by (by rewrite Hp', Hp).
  destruct (IH (<[place n (hkey x):=x :: hd]> new)) as (new' & Hrun & Hok' & Hp'').
  - apply (table_ok_write n new Hok _ hd); [done| |].
    + intros y [->|Hy]%elem_of_cons; [done|]. by eapply tok_place.
    + rewrite Hq. simpl in *. rewrite fmap_app in Hd.
      apply NoDup_cons in Hd as [Hx Hd]. apply NoDup_app in Hd as (_ & _ & Hd).
      apply NoDup_cons. split; [|done]. rewrite elem_of_app in Hx. naive_solver.
  - by rewrite Hq, <- Permutation_middle.
  - exists new'. split_and!; [done..|]. by rewrite Hp'', Hq, <- Permutation_middle.
Qed.

Lemma move_slots_run n cs new w :
  0 < n < 2 ^ 31 → table_ok n new → NoDup (hkey <$> concat cs ++ concat new) →
  ∃ new', move_slots n (Chain <$> cs) new w = Ok (new', w) ∧ table_ok n new' ∧
    concat new' ≡ₚ concat cs ++ concat new.
Proof.
  intros Hn. revert new. induction cs as [|c cs IH]; intros new Hok Hd; [by exists new|].
  simpl in *. rewrite <- app_assoc in Hd.
  assert (c ++ concat cs ++ concat new ≡ₚ concat cs ++ (c ++ concat new)) as Hsw.
  { rewrite !app_assoc. by rewrite (Permutation_app_comm c). }
  destruct (move_chain_run n c new w Hn Hok) as (n1 & Hr1 & Hok1 & Hp1).
  { rewrite Hsw, fmap_app in Hd. by apply NoDup_app in Hd as (_ & _ & Hd). }
  rewrite (bind_Ok _ _ _ _ _ Hr1).
  destruct (IH n1 Hok1) as (n2 & Hr2 & Hok2 & Hp2).
  { by rewrite Hp1, <- Hsw. }
  exists n2. split_and!; [done..|]. by rewrite Hp2, Hp1, <- Hsw, app_assoc.
Qed.

Lemma table_ok_empty n : table_ok n (replicate (Z.to_nat n) []).
Proof.
  assert (concat (replicate (Z.to_nat n) []) = ([] : list hashnode_t)) as E
    by (induction (Z.to_nat n); simpl; auto).
  split; [by rewrite length_replicate| |by rewrite E; constructor].
  intros i c x [-> _]%lookup_replicate Hx. by apply not_elem_of_nil in Hx.
Qed.

Lemma concat_empty n : concat (replicate n []) = ([] : list hashnode_t).
Proof. induction n; simpl; auto. Qed.

(** Growing the table keeps its contents; a failed allocation leaves the
    table as it was. *)
Lemma resize_rep base b w m :
  hrep base b w m → max_slots (w_eng w) < 2 ^ 30 →
  ∃ r w', resize_hashtable (Some tt) w = Ok (r, w') ∧ hrep base b w' m ∧
    count (w_eng w') = count (w_eng w) ∧
    (al_total (w_al w) → al_total (w_al w') ∧
      max_slots (w_eng w') = max_slots (w_eng w) * 2).
Proof.
  destruct w as [e a]. intros (cs & Hn & Hsz & Hok & Hct & Hlk & Hm & Hlv) Hlt. simpl in *.
  pose proof (good_size_bounds _ Hsz) as Hb.
  pose proof (tok_len _ _ Hok) as Hlen.
  unfold resize_hashtable. cbn [null]. run.
  destruct (al_ok a (al_calls a)) eqn:Ea.
  2:{ rewrite (malloc_None e a Ea). run.
      eexists _, _. split; [done|]. split; [|split; [done|]].
      - exists cs. split_and!; try done. simpl. lia.
      - intros Ht. rewrite (Ht (al_calls a)) in Ea by lia. done. }
  rewrite (malloc_Some e a Ea). unfold table. run. rewrite Hn. run.
  rewrite take_ge by (rewrite length_fmap; lia).
  destruct (move_slots_run (max_slots e * 2) cs
    (replicate (Z.to_nat (max_slots e * 2)) []) (World e (al_next a 1)))
    as (cs' & Hr & Hok' & Hp); [lia|apply table_ok_empty| |].
  { rewrite concat_empty, app_nil_r. by apply tok_keys in Hok. }
  rewrite concat_empty, app_nil_r in Hp. rewrite Hr. run.
  eexists _, _. split; [done|]. split; [|split; [done|]].
  - exists cs'. simpl. split_and!; try done.
    + by apply good_size_double.
    + by rewrite Hct, Hp.
    + subst m. apply contents_perm; [|done]. by apply tok_keys in Hok.
    + rewrite Hp. lia.
  - intros Ht. split; [|done]. by repeat apply al_total_dec || apply al_total_next.
Qed.

(** ** The chain scans *)

Lemma overwrite_miss k v c w :
  k ∉ hkey <$> c → overwrite_chain k v c w = Ok (None, w).
Proof.
  induction c as [|x c IH]; [done|]. rewrite fmap_cons, not_elem_of_cons.
  intros [Hne Hc]. simpl. rewrite strcmp_eqb, bool_decide_eq_false_2 by done.
  run. rewrite (IH Hc). by run.
Qed.

(** [put]'s overwrite: the old value block is freed before the new one is
    allocated. *)
Lemma overwrite_hit k v l1 x l2 e a :
  hkey x = k → k ∉ hkey <$> l1 →
  let a0 := if null (hvalue x) then a else al_dec a in
  overwrite_chain k v (l1 ++ x :: l2) (World e a) =
  if al_ok a (al_calls a)
  then Ok (Some (0, l1 ++ Node k (Some v) :: l2), World e (al_next a0 1))
  else Ok (Some (-1, l1 ++ Node k None :: l2), World e (al_next a0 0)).
Proof.
  intros Hx Hk a0. induction l1 as [|y l1 IH]; simpl.
  - rewrite Hx, strcmp_refl. simpl. unfold a0, free_ptr.
    destruct (hvalue x); run; cbn [null];
      (destruct (al_ok a (al_calls a)) eqn:Ea;
       [rewrite malloc_Some|rewrite malloc_None]; run; done).
  - rewrite fmap_cons, not_elem_of_cons in Hk. destruct Hk as [Hne Hk].
    rewrite strcmp_eqb, bool_decide_eq_false_2 by done.
    run. rewrite (IH Hk). by destruct (al_ok a (al_calls a)).
Qed.

Lemma modify_miss k v c w :
  k ∉ hkey <$> c → modify_chain k v c w = Ok (None, w).
Proof.
  induction c as [|x c IH]; [done|]. rewrite fmap_cons, not_elem_of_cons.
  intros [Hne Hc]. simpl. rewrite strcmp_eqb, bool_decide_eq_false_2 by done.
  run. rewrite (IH Hc). by run.
Qed.

Lemma modify_hit k v l1 x l2 e a :
  hkey x = k → k ∉ hkey <$> l1 →
  let a0 := if null (hvalue x) then a else al_dec a in
  modify_chain k v (l1 ++ x :: l2) (World e a) =
  if al_ok a (al_calls a)
  then Ok (Some (l1 ++ Node k (Some v) :: l2), World e (al_next a0 1))
  else Err AssertFail.
Proof.
  intros Hx Hk a0. induction l1 as [|y l1 IH]; simpl.
  - rewrite Hx, strcmp_refl. simpl. unfold a0, free_ptr.
    destruct (hvalue x); run; cbn [null];
      (destruct (al_ok a (al_calls a)) eqn:Ea;
       [rewrite malloc_Some|rewrite malloc_None]; run; done).
  - rewrite fmap_cons, not_elem_of_cons in Hk. destruct Hk as [Hne Hk].
    rewrite strcmp_eqb, bool_decide_eq_false_2 by done.
    run. rewrite (IH Hk). by destruct (al_ok a (al_calls a)).
Qed.

Lemma unlink_miss k cur c : k ∉ hkey <$> c → unlink_after k cur c = None.
Proof.
  revert cur. induction c as [|x c IH]; [done|]. intros cur.
  rewrite fmap_cons, not_elem_of_cons. intros [Hne Hc]. simpl.
  rewrite strcmp_eqb, bool_decide_eq_false_2 by done. by rewrite IH.
Qed.

Lemma unlink_hit k cur l1 x l2 :
  hkey x = k → k ∉ hkey <$> l1 →
  unlink_after k cur (l1 ++ x :: l2) = Some (x, cur :: l1 ++ l2).
Proof.
  intros Hx. revert cur. induction l1 as [|y l1 IH]; intros cur Hk; simpl.
  - by rewrite Hx, strcmp_refl.
  - rewrite fmap_cons, not_elem_of_cons in Hk. destruct Hk as [Hne Hk].
    rewrite strcmp_eqb, bool_decide_eq_false_2 by done. by rewrite IH.
Qed.

(** ** Opening the representation at a key *)

(** The chain [c] of key [k] may be replaced: whatever is written there, with
    the count and the allocator adjusted, gives a well-formed table again. *)
Definition can_write base e k cs (c rest : list hashnode_t) : Prop :=
  ∀ c' b' ct' a',
    (∀ x, x ∈ c' → x ∈ c ∨ hkey x = k) →
    NoDup (hkey <$> c' ++ rest) →
    ct' = Z.of_nat (length (c' ++ rest)) →
    al_live a' = base + 1 + blocks (c' ++ rest) →
    hrep base b'
      (World (HT (Table (Chain <$> <[place (max_slots e) k:=c']> cs)) (max_slots e) ct' b') a')
      (contents (c' ++ rest)).

(** What a well-formed table looks like from key [k]: its chain [c], the
    other nodes [rest], and what replacing the chain does. *)
Lemma hrep_open base b e a m k :
  hrep base b (World e a) m →
  ∃ cs c rest,
    let i := place (max_slots e) k in
    nodes e = Table (Chain <$> cs) ∧ cs !! i = Some c ∧
    0 < max_slots e < 2 ^ 31 ∧ lock e = b ∧
    count e = Z.of_nat (length (c ++ rest)) ∧
    m = contents (c ++ rest) ∧ NoDup (hkey <$> c ++ rest) ∧
    k ∉ hkey <$> rest ∧
    al_live a = base + 1 + blocks (c ++ rest) ∧
    can_write base e k cs c rest.
Proof.
  intros (cs & Hn & Hsz & Hok & Hct & Hlk & Hm & Hlv). simpl in *.
  pose proof (good_size_bounds _ Hsz) as Hb.
  assert (0 < max_slots e) as Hpos by lia.
  destruct (slot_exists _ _ Hok Hpos k) as [c Hc].
  destruct (concat_split _ _ _ Hc) as (rest & Hp & Hp').
  pose proof (tok_keys _ _ Hok) as Hd.
  exists cs, c, rest. split_and!; try done; try lia.
  - by rewrite Hct, Hp.
  - subst m. by apply contents_perm.
  - by rewrite <- Hp.
  - intros Hk. assert (k ∈ hkey <$> c) as Hk'.
    { eapply key_in_slot; [done..|]. rewrite Hp, fmap_app, elem_of_app. by right. }
    rewrite Hp, fmap_app in Hd. apply NoDup_app in Hd as (_ & Hd & _). by eapply Hd.
  - by rewrite Hlv, Hp.
  - intros c' b' ct' a' Hin Hd' Hct' Hlv'. specialize (Hp' c').
    assert (NoDup (hkey <$> concat (<[place (max_slots e) k:=c']> cs))) as Hd2
      by (by rewrite Hp').
    eexists. simpl. split_and!; [done|done| |by rewrite Hp'|done| |by rewrite Hp'].
    + eapply table_ok_write; [done|exact Hc| |done].
      intros x [Hx|<-]%Hin; [by eapply tok_place|done].
    + symmetry. by apply contents_perm.
Qed.

Lemma keys_middle l1 x l2 :
  NoDup (hkey <$> l1 ++ x :: l2) → NoDup (hkey <$> l1 ++ l2) ∧ hkey x ∉ hkey <$> l1 ++ l2.
Proof.
  intros Hd. rewrite <- Permutation_middle in Hd. by apply NoDup_cons in Hd as [? ?].
Qed.

Lemma contents_replace l1 x l2 o :
  NoDup (hkey <$> l1 ++ x :: l2) →
  contents (l1 ++ Node (hkey x) o :: l2) = <[hkey x := o]> (contents (l1 ++ x :: l2)).
Proof.
  intros Hd.
  assert (NoDup (hkey <$> l1 ++ Node (hkey x) o :: l2)) as Hd'
    by (rewrite fmap_app, fmap_cons in *; done).
  rewrite (contents_perm (l1 ++ x :: l2) (x :: l1 ++ l2)) by (done || by rewrite Permutation_middle).
  rewrite (contents_perm _ (Node (hkey x) o :: l1 ++ l2) Hd') by (by rewrite Permutation_middle).
  rewrite !contents_cons. simpl. by rewrite insert_insert_eq.
Qed.

Lemma contents_remove l1 x l2 :
  NoDup (hkey <$> l1 ++ x :: l2) →
  contents (l1 ++ l2) = delete (hkey x) (contents (l1 ++ x :: l2)).
Proof.
  intros Hd. destruct (keys_middle _ _ _ Hd) as [_ Hx].
  rewrite (contents_perm (l1 ++ x :: l2) (x :: l1 ++ l2)) by (done || by rewrite Permutation_middle).
  rewrite contents_cons, delete_insert_eq, delete_id; [done|]. by apply contents_None.
Qed.

Lemma contents_middle l1 x l2 :
  NoDup (hkey <$> l1 ++ x :: l2) → contents (l1 ++ x :: l2) !! hkey x = Some (hvalue x).
Proof.
  intros Hd. apply contents_lookup; [done| |done]. rewrite elem_of_app, elem_of_cons. auto.
Qed.

(** ** The operations *)

(** The load test in exact arithmetic, for every table size the engine
    reaches: the rounding of 0.7 never changes its outcome. *)
Lemma over_load_exact n ct :
  good_size n → over_load ct n = (7 * n <? 10 * (ct + 1)).
Proof.
  intros Hn. pose proof (good_size_bounds _ Hn) as Hb. destruct Hn as (j & Hj & ->).
  unfold over_load. apply eq_bool_prop_intro. rewrite !Is_true_true, !Z.ltb_lt.
  pose proof (pow2_mod5 j). assert (7 * 2 ^ j ≠ 10 * (ct + 1)) by dlia. lia.
Qed.

Lemma find_chain_rest k c rest :
  NoDup (hkey <$> c ++ rest) → k ∉ hkey <$> rest →
  hvalue <$> find_chain k c = contents (c ++ rest) !! k.
Proof.
  intros Hd Hk. destruct (chain_cases k c) as [Hn|(l1 & x & l2 & -> & Hx & Hn)].
  - rewrite find_chain_None by done. symmetry. apply contents_None.
    rewrite fmap_app, elem_of_app. naive_solver.
  - rewrite (find_chain_Some k l1 x l2) by done. rewrite <- app_assoc in *. simpl in *.
    rewrite <- Hx. by rewrite contents_middle.
Qed.

Lemma lock_run e a : lock e = false → mutex_lock (World e a) = Ok (tt, World (set_lock true e) a).
Proof. intros H. unfold mutex_lock. run. by rewrite H. Qed.

Lemma lock_stuck e a : lock e = true → mutex_lock (World e a) = Err Deadlock.
Proof. intros H. unfold mutex_lock. run. by rewrite H. Qed.

Lemma unlock_run e a : mutex_unlock (World e a) = Ok (tt, World (set_lock false e) a).
Proof. unfold mutex_unlock. by run. Qed.

#[export] Hint Rewrite unlock_run : ga_run.

Lemma set_lock_id e b : lock e = b → set_lock b e = e.
Proof. intros <-. by destruct e. Qed.

(** [get] returns the value of the key and changes nothing. *)
Lemma get_run base w m k :
  hrep base false w m →
  get_kv_hashtable (Some tt) (Some k) w = Ok (mjoin (m !! k), w).
Proof.
  destruct w as [e a]. intros H.
  destruct (hrep_open _ _ _ _ _ k H)
    as (cs & c & rest & Hn & Hc & Hb & Hl & _ & Hm & Hd & Hk & _ & _).
  unfold get_kv_hashtable. run. rewrite hash_run by done. run.
  rewrite lock_run by done. run. rewrite (read_slot_run _ _ cs _ c) by done. run.
  pose proof (find_chain_rest k c rest Hd Hk) as Hf. rewrite <- Hm in Hf. rewrite <- Hf.
  assert (set_lock false (set_lock true e) = e) as E by (destruct e; by simplify_eq/=).
  destruct (find_chain k c) as [x|] eqn:Ef; run; by rewrite E.
Qed.

Lemma hrep_lock base b b' e a m :
  hrep base b (World e a) m → hrep base b' (World (set_lock b' e) a) m.
Proof. intros (cs & Hn & Hsz & Hok & Hct & Hlk & Hm & Hlv). exists cs. by split_and!. Qed.

Lemma hrep_size base b w m : hrep base b w m → Z.of_nat (size m) = count (w_eng w).
Proof.
  intros (cs & _ & _ & Hok & Hct & _ & -> & _). rewrite contents_size; [done|].
  by apply tok_keys in Hok.
Qed.

(** The load-factor bound: at most 70% of the slots. *)
Definition load_ok (h : hashtable_t) : Prop := 10 * count h ≤ 7 * max_slots h.

(** The first step of [put]: grow the table if it is over the load limit. *)
Lemma put_grow base b e a m :
  hrep base b (World e a) m → Z.of_nat (size m) < 2 ^ 29 →
  ∃ r w1,
    (if over_load (count e) (max_slots e) then resize_hashtable (Some tt) else mret 0)
      (World e a) = Ok (r, w1) ∧
    hrep base b w1 m ∧
    (al_total a → al_total (w_al w1) ∧
      (load_ok e → 10 * (count (w_eng w1) + 1) ≤ 7 * max_slots (w_eng w1))).
Proof.
  intros H Hs. pose proof (hrep_size _ _ _ _ H) as Hc. simpl in Hc.
  assert (good_size (max_slots e)) as Hg by (by destruct H as (? & ? & ? & ?)).
  pose proof (good_size_bounds _ Hg) as Hb.
  rewrite over_load_exact by done. destruct (7 * max_slots e <? 10 * (count e + 1)) eqn:E; b2p.
  - destruct (resize_rep _ _ _ _ H) as (r & w1 & Hr & H1 & Hct & Ht); simpl in *; [lia|].
    exists r, w1. split_and!; [done..|]. intros Ha. destruct (Ht Ha) as [Ha1 Hmx].
    split; [done|]. unfold load_ok. rewrite Hct, Hmx. lia.
  - exists 0, (World e a). split_and!; [done..|]. intros Ha. split; [done|]. simpl. lia.
Qed.

Lemma create_node_run k v e a :
  (∃ a', _create_node k v (World e a) = Ok (Some (Node k (Some v)), World e a') ∧
     al_live a' = al_live a + 3 ∧ (al_total a → al_total a')) ∨
  (∃ a', _create_node k v (World e a) = Ok (None, World e a') ∧
     al_live a' = al_live a ∧ ~ al_total a).
Proof.
  unfold _create_node. run.
  destruct (al_ok a (al_calls a)) eqn:E1.
  2:{ rewrite malloc_None by done. run. right. eexists. split; [done|]. split; [simpl; lia|].
      intros Ht. by rewrite (Ht (al_calls a)) in E1. }
  rewrite malloc_Some by done. run.
  destruct (al_ok a (S (al_calls a))) eqn:E2.
  2:{ rewrite malloc_None by done. run. right. eexists. split; [done|]. split; [simpl; lia|].
      intros Ht. rewrite (Ht (S (al_calls a))) in E2 by lia. done. }
  rewrite malloc_Some by done. run.
  destruct (al_ok a (S (S (al_calls a)))) eqn:E3.
  2:{ rewrite malloc_None by done. run. right. eexists. split; [done|]. split; [simpl; lia|].
      intros Ht. rewrite (Ht (S (S (al_calls a)))) in E3 by lia. done. }
  rewrite malloc_Some by done. run. left. eexists. split; [done|]. split; [simpl; lia|].
  auto with ga.
Qed.

(** What [put] can do, for an arbitrary allocator: store the value; lose the
    old value of a present key and report -1; or dereference the NULL that a
    failed [_create_node] returns, for an absent key. *)
Definition put_outcome base w m k v (r : result (Z * hw)) : Prop :=
  match r with
  | Ok (ret, w') =>
      (ret = 0 ∧ hrep base false w' (<[k := Some v]> m) ∧
       (al_total (w_al w) → al_total (w_al w') ∧
          (load_ok (w_eng w) → load_ok (w_eng w')))) ∨
      (ret = -1 ∧ is_Some (m !! k) ∧ ~ al_total (w_al w) ∧
       hrep base false w' (<[k := None]> m))
  | Err e => e = NullDeref ∧ m !! k = None ∧ ~ al_total (w_al w)
  end.

(** Replacing the value of a node of the chain. *)
Lemma put_replace k c rest l1 x l2 o :
  c = l1 ++ x :: l2 → hkey x = k → NoDup (hkey <$> c ++ rest) →
  NoDup (hkey <$> (l1 ++ Node k o :: l2) ++ rest) ∧
  contents ((l1 ++ Node k o :: l2) ++ rest) = <[k := o]> (contents (c ++ rest)) ∧
  length ((l1 ++ Node k o :: l2) ++ rest) = length (c ++ rest) ∧
  blocks ((l1 ++ Node k o :: l2) ++ rest) =
    blocks (c ++ rest) + node_blocks (Node k o) - node_blocks x ∧
  (∀ y, y ∈ l1 ++ Node k o :: l2 → y ∈ c ∨ hkey y = k).
Proof.
  intros -> <- Hd. rewrite <- !app_assoc in *. simpl in *. split_and!.
  - rewrite fmap_app, fmap_cons in *. done.
  - by apply contents_replace.
  - rewrite !length_app. done.
  - rewrite !blocks_app. simpl. lia.
  - intros y. rewrite !elem_of_app, !elem_of_cons. naive_solver.
Qed.

(** Linking a node for an absent key. *)
Lemma link_new_correct base e a m k v cs c rest :
  nodes e = Table (Chain <$> cs) → m = contents (c ++ rest) →
  k ∉ hkey <$> c ++ rest → NoDup (hkey <$> c ++ rest) →
  count e = Z.of_nat (length (c ++ rest)) → al_live a = base + 1 + blocks (c ++ rest) →
  can_write base e k cs c rest →
  match link_new_node (Z.of_nat (place (max_slots e) k)) k v c (World e a) with
  | Ok (ret, w') => ret = 0 ∧ hrep base false w' (<[k := Some v]> m) ∧
      (al_total a → al_total (w_al w')) ∧
      count (w_eng w') = count e + 1 ∧ max_slots (w_eng w') = max_slots e
  | Err f => f = NullDeref ∧ ~ al_total a
  end.
Proof.
  intros Hn -> Hkn Hd Hct Hlv Hclose. unfold link_new_node. run.
  destruct (create_node_run k v e a) as [(a2 & Hcr & Hlv2 & Ht2)|(a2 & Hcr & _ & Ht2)];
    rewrite Hcr; run; [|done].
  rewrite (write_slot_run _ _ cs) by done. run. split_and!; [done| |done..].
  change (<[k := Some v]> (contents (c ++ rest))) with
    (contents ((Node k (Some v) :: c) ++ rest)).
  apply Hclose.
  - intros y [->|Hy]%elem_of_cons; auto.
  - simpl. by apply NoDup_cons.
  - simpl in *. lia.
  - simpl in *. unfold node_blocks at 1. simpl. lia.
Qed.

Lemma overwrite_live x a d :
  al_live (al_next (if null (hvalue x) then a else al_dec a) d)
  = al_live a + d - (node_blocks x - 2).
Proof. unfold node_blocks. destruct (hvalue x); simpl; lia. Qed.

Lemma put_correct base w m k v :
  hrep base false w m → Z.of_nat (size m) < 2 ^ 29 →
  put_outcome base w m k v (put_kv_hashtable (Some tt) (Some k) (Some v) w).
Proof.
  destruct w as [e a]. intros H Hs.
  assert (lock e = false) as Hl by (by destruct H as (? & ? & ? & ? & ? & ? & ?)).
  unfold put_kv_hashtable. run. rewrite lock_run by done. run.
  destruct (put_grow _ _ _ _ _ (hrep_lock _ _ true _ _ _ H) Hs) as (r0 & [e1 a1] & Hr & H1 & Ht).
  cbn [set_lock count max_slots] in Hr |- *. rewrite Hr. run. clear Hr.
  destruct (hrep_open _ _ _ _ _ k H1)
    as (cs & c & rest & Hn & Hc & Hb & Hl1 & Hct & -> & Hd & Hk & Hlv & Hclose).
  rewrite hash_run by done. run. rewrite (read_slot_run _ _ cs _ c) by done. run.
  destruct (chain_cases k c) as [Hk'|(l1 & x & l2 & -> & Hx & Hk')].
  - assert (k ∉ hkey <$> c ++ rest) as Hkn by (rewrite fmap_app, elem_of_app; tauto).
    rewrite overwrite_miss by done. run.
    pose proof (link_new_correct _ _ _ _ k v _ _ _ Hn eq_refl Hkn Hd Hct Hlv Hclose) as Hlink.
    destruct (link_new_node _ _ _ _ _) as [[ret w']|f]; simpl in *.
    + destruct Hlink as (-> & Hrep & Hat & Hc' & Hmx). left. split_and!; [done..|].
      intros Ha. destruct (Ht Ha) as [Ha1 Hld]. split; [auto|].
      unfold load_ok in *. rewrite Hc', Hmx. exact Hld.
    + destruct Hlink as [-> Hna]. split_and!; [done|by apply contents_None|]. naive_solver.
  - rewrite overwrite_hit by done.
    destruct (al_ok a1 (al_calls a1)) eqn:Ea; run; rewrite (write_slot_run _ _ cs) by done; run;
      [left|right]; (split; [done|]).
    + destruct (put_replace k _ rest l1 x l2 (Some v) eq_refl Hx Hd) as (Hd2 & <- & Hlen & Hbl & Hin).
      split; [apply Hclose; [done..|simpl; by rewrite Hct, Hlen|]|].
      * rewrite overwrite_live, Hbl, Hlv. unfold node_blocks at 2. simpl. lia.
      * intros Ha. destruct (Ht Ha) as [Ha1 Hld]. simpl in *.
        split; [destruct (null (hvalue x)); auto with ga|]. unfold load_ok in *. simpl in *. lia.
    + destruct (put_replace k _ rest l1 x l2 None eq_refl Hx Hd) as (Hd2 & <- & Hlen & Hbl & Hin).
      split_and!.
      * exists (hvalue x). rewrite <- app_assoc in *. rewrite <- Hx. by apply contents_middle.
      * intros Ha. destruct (Ht Ha) as [Ha1 _]. simpl in Ha1. by rewrite (Ha1 (al_calls a1)) in Ea.
      * apply Hclose; [done..|simpl; by rewrite Hct, Hlen|].
        rewrite overwrite_live, Hbl, Hlv. unfold node_blocks at 2. simpl. lia.
Qed.

Lemma free_node_run x e a :
  free_node x (World e a) = Ok (tt, World e
    (al_dec (if null (hvalue x) then al_dec a else al_dec (al_dec a)))).
Proof. unfold free_node, free_ptr. run. by destruct (hvalue x); run. Qed.

(** Unlinking the node of a present key and freeing its three blocks. *)
Lemma remove_node_correct base e a k cs l1 x l2 rest :
  hkey x = k → NoDup (hkey <$> (l1 ++ x :: l2) ++ rest) →
  count e = Z.of_nat (length ((l1 ++ x :: l2) ++ rest)) →
  al_live a = base + 1 + blocks ((l1 ++ x :: l2) ++ rest) →
  can_write base e k cs (l1 ++ x :: l2) rest →
  let a' := al_dec (if null (hvalue x) then al_dec a else al_dec (al_dec a)) in
  let e' := HT (Table (Chain <$> <[place (max_slots e) k:=l1 ++ l2]> cs))
               (max_slots e) (count e - 1) false in
  hrep base false (World e' a') (delete k (contents ((l1 ++ x :: l2) ++ rest))) ∧
  (al_total a → al_total a') ∧ (load_ok e → load_ok e').
Proof.
  intros Hx Hd Hct Hlv Hclose a' e'. rewrite <- app_assoc in *. simpl in *. split_and!.
  - rewrite <- Hx, <- contents_remove, app_assoc by done. apply Hclose.
    + intros y. rewrite !elem_of_app, !elem_of_cons. naive_solver.
    + rewrite <- app_assoc. by apply keys_middle in Hd as [??].
    + rewrite Hct, !length_app. simpl. rewrite !length_app. lia.
    + rewrite !blocks_app in *. simpl in *. rewrite !blocks_app in *.
      unfold a', node_blocks in *. destruct (hvalue x); simpl in *; lia.
  - intros Ha. unfold a'. destruct (null (hvalue x)); auto with ga.
  - unfold load_ok. simpl. lia.
Qed.

(** Deleting a present key. *)
Lemma delete_present base w m k :
  hrep base false w m → is_Some (m !! k) →
  ∃ w', delete_kv_hashtable (Some tt) (Some k) w = Ok (0, w') ∧
    hrep base false w' (delete k m) ∧
    (al_total (w_al w) → al_total (w_al w')) ∧ (load_ok (w_eng w) → load_ok (w_eng w')).
Proof.
  destruct w as [e a]. intros H Hp.
  destruct (hrep_open _ _ _ _ _ k H)
    as (cs & c & rest & Hn & Hc & Hb & Hl & Hct & -> & Hd & Hk & Hlv & Hclose).
  unfold delete_kv_hashtable. run. rewrite hash_run by done. run.
  rewrite lock_run by done. run. rewrite (read_slot_run _ _ cs _ c) by done. run.
  destruct (chain_cases k c) as [Hk'|(l1 & x & l2 & -> & Hx & Hk')].
  { rewrite contents_None in Hp; [by destruct Hp|]. rewrite fmap_app, elem_of_app. tauto. }
  pose proof (remove_node_correct _ _ _ _ _ _ _ _ _ Hx Hd Hct Hlv Hclose) as Hfin.
  destruct l1 as [|y l1]; simpl.
  - rewrite Hx, strcmp_refl. simpl. run. rewrite (write_slot_run _ _ cs) by done. run.
    rewrite free_node_run. run. eexists. split; [done|]. exact Hfin.
  - rewrite fmap_cons, not_elem_of_cons in Hk'. destruct Hk' as [Hne Hk'].
    rewrite strcmp_eqb, bool_decide_eq_false_2 by done.
    rewrite (unlink_hit k y l1 x l2) by done.
    run. rewrite (write_slot_run _ _ cs) by done. run.
    rewrite free_node_run. run. eexists. split; [done|]. exact Hfin.
Qed.

(** Deleting an absent key answers -1 and keeps the contents, but when the
    key's chain is empty the mutex stays locked. *)
Lemma delete_absent base w m k :
  hrep base false w m → m !! k = None →
  ∃ w', delete_kv_hashtable (Some tt) (Some k) w = Ok (-1, w') ∧
    (w' = w ∨ w' = World (set_lock true (w_eng w)) (w_al w)) ∧
    (read_slot (Z.of_nat (place (max_slots (w_eng w)) k)) w = Ok ([], w) →
       lock (w_eng w') = true).
Proof.
  destruct w as [e a]. intros H Hp.
  destruct (hrep_open _ _ _ _ _ k H)
    as (cs & c & rest & Hn & Hc & Hb & Hl & Hct & -> & Hd & Hk & Hlv & _).
  unfold delete_kv_hashtable. run. rewrite hash_run by done. run.
  rewrite lock_run by done. run. rewrite !(read_slot_run _ _ cs _ c) by done. run.
  assert (set_lock false (set_lock true e) = e) as E by (destruct e; by simplify_eq/=).
  destruct (chain_cases k c) as [Hk'|(l1 & x & l2 & -> & Hx & Hk')].
  2:{ rewrite <- app_assoc in *. simpl in *. subst k. by rewrite contents_middle in Hp. }
  destruct c as [|y c]; [eexists; split; [done|]; simpl; auto|].
  rewrite fmap_cons, not_elem_of_cons in Hk'. destruct Hk' as [Hne Hk'].
  rewrite strcmp_eqb, bool_decide_eq_false_2 by done. rewrite unlink_miss by done. run.
  rewrite E. exists (World e a). naive_solver.
Qed.

(** [MOD] ignores the lock. *)
Lemma modify_correct base b w m k v :
  hrep base b w m →
  match kvs_hash_modify (Some tt) (Some k) (Some v) w with
  | Ok (ret, w') =>
      (ret = 0 ∧ is_Some (m !! k) ∧ hrep base b w' (<[k := Some v]> m) ∧
       (al_total (w_al w) → al_total (w_al w')) ∧ (load_ok (w_eng w) → load_ok (w_eng w'))) ∨
      (ret = -1 ∧ m !! k = None ∧ w' = w)
  | Err f => f = AssertFail ∧ is_Some (m !! k) ∧ ~ al_total (w_al w)
  end.
Proof.
  destruct w as [e a]. intros H.
  destruct (hrep_open _ _ _ _ _ k H)
    as (cs & c & rest & Hn & Hc & Hb & Hl & Hct & -> & Hd & Hk & Hlv & Hclose).
  unfold kvs_hash_modify. run. rewrite hash_run by done. run.
  rewrite (read_slot_run _ _ cs _ c) by done. run.
  destruct (chain_cases k c) as [Hk'|(l1 & x & l2 & -> & Hx & Hk')].
  { rewrite modify_miss by done. run. right. split_and!; try done.
    apply contents_None. rewrite fmap_app, elem_of_app. tauto. }
  rewrite modify_hit by done.
  assert (is_Some (contents ((l1 ++ x :: l2) ++ rest) !! k)) as Hpres.
  { exists (hvalue x). rewrite <- app_assoc in *. rewrite <- Hx. by apply contents_middle. }
  destruct (al_ok a (al_calls a)) eqn:Ea; run.
  - rewrite (write_slot_run _ _ cs) by done. run. left.
    destruct (put_replace k _ rest l1 x l2 (Some v) eq_refl Hx Hd) as (Hd2 & <- & Hlen & Hbl & Hin).
    destruct e as [ns mx ct lk]; simpl in *. subst lk. split_and!; [done..| |  |done].
    + apply Hclose; [done..|by rewrite Hct, Hlen|].
      rewrite overwrite_live, Hbl, Hlv. unfold node_blocks at 2. simpl. lia.
    + intros Ha. simpl. destruct (null (hvalue x)); auto with ga.
  - split_and!; [done..|]. intros Ha. simpl in Ha. by rewrite (Ha (al_calls a)) in Ea.
Qed.

(** With the mutex held every locking operation blocks for ever. *)
Lemma locked_stuck e a k v :
  0 < max_slots e < 2 ^ 31 → lock e = true →
  put_kv_hashtable (Some tt) (Some k) (Some v) (World e a) = Err Deadlock ∧
  get_kv_hashtable (Some tt) (Some k) (World e a) = Err Deadlock ∧
  delete_kv_hashtable (Some tt) (Some k) (World e a) = Err Deadlock.
Proof.
  intros Hb Hl. unfold put_kv_hashtable, get_kv_hashtable, delete_kv_hashtable. run.
  rewrite !hash_run by done. run. by rewrite !lock_stuck by done.
Qed.

(** ** Creation and destruction *)

Lemma init_zeroed e a :
  al_ok a (al_calls a) = true → al_zero a (al_calls a) = true →
  ∃ w', init_hashtable (Some tt) (World e a) = Ok (0, w') ∧
    hrep (al_live a) false w' ∅ ∧ load_ok (w_eng w') ∧ (al_total a → al_total (w_al w')).
Proof.
  intros Hok Hz. unfold init_hashtable. cbn [null]. run. rewrite malloc_Some, Hz by done. run.
  eexists. split; [done|]. split; [|split; [done|simpl; auto with ga]].
  exists (replicate (Z.to_nat MAX_TABLE_SIZE) []).
  pose proof (concat_empty (Z.to_nat MAX_TABLE_SIZE)) as Hce. split_and!.
  - cbn [w_eng nodes set_lock set_count set_max set_nodes]. by rewrite fmap_replicate.
  - apply good_size_init.
  - apply table_ok_empty.
  - by rewrite Hce.
  - done.
  - by rewrite Hce.
  - rewrite Hce. simpl. lia.
Qed.

(** Without zeroed memory the first look at any slot reads an indeterminate
    pointer. *)
Lemma init_stale e a k :
  al_ok a (al_calls a) = true → al_zero a (al_calls a) = false →
  ∃ w', init_hashtable (Some tt) (World e a) = Ok (0, w') ∧
    get_kv_hashtable (Some tt) (Some k) w' = Err UninitRead.
Proof.
  intros Hok Hz. unfold init_hashtable. cbn [null]. run. rewrite malloc_Some, Hz by done. run.
  eexists. split; [done|]. unfold get_kv_hashtable. run.
  pose proof (place_lt MAX_TABLE_SIZE k ltac:(done)) as Hp.
  cbn [max_slots set_lock set_count set_max]. rewrite hash_run by done. run.
  rewrite lock_run by done. run. unfold read_slot, table. run.
  cbn [nodes set_nodes set_lock set_count set_max]. run. rewrite Nat2Z.id.
  by rewrite lookup_replicate_2.
Qed.

Lemma dest_chain_run c e a :
  ∃ a', dest_chain c (World e a) = Ok (tt, World e a') ∧
    al_live a' = al_live a - Z.of_nat (length c).
Proof.
  revert a. induction c as [|x c IH]; intros a; simpl; [exists a; split; [done|lia]|].
  run. destruct (IH (al_dec a)) as (a' & -> & Hl). exists a'. split; [done|]. simpl in *. lia.
Qed.

(** The destruction loop, started at slot [i] with [n] slots to go. *)
Lemma dest_slots_run n i e a cs :
  nodes e = Table (Chain <$> cs) → length cs = (i + n)%nat →
  ∃ e' a', dest_slots i n (World e a) = Ok (tt, World e' a') ∧
    al_live a' = al_live a - Z.of_nat (length (concat (drop i cs))).
Proof.
  revert i e a cs. induction n as [|n IH]; intros i e a cs Hn Hlen; simpl.
  - exists e, a. split; [done|]. rewrite drop_ge by lia. simpl. lia.
  - destruct (lookup_lt_is_Some_2 cs i) as [c Hc]; [lia|]. run.
    rewrite (read_slot_run _ _ cs _ c) by done. run.
    destruct (dest_chain_run c e a) as (a1 & -> & Hl1). run.
    rewrite (write_slot_run _ _ cs) by done. run.
    destruct (IH (S i) (set_nodes (Table (Chain <$> <[i:=[]]> cs)) e) a1 (<[i:=[]]> cs))
      as (e' & a' & -> & Hl); [done|rewrite length_insert; lia|].
    exists e', a'. split; [done|]. rewrite Hl, Hl1.
    rewrite (drop_S cs c i Hc). simpl. rewrite length_app.
    rewrite drop_insert_lt by lia. lia.
Qed.

Lemma dest_correct base b w m :
  hrep base b w m →
  ∃ w', dest_hashtable (Some tt) w = Ok (tt, w') ∧ nodes (w_eng w') = FreedTable ∧
    al_live (w_al w') = base + (al_live (w_al w) - base - 1 - Z.of_nat (size m)).
Proof.
  destruct w as [e a]. intros H. pose proof (hrep_size _ _ _ _ H) as Hs.
  destruct H as (cs & Hn & Hsz & Hok & Hct & Hlk & Hm & Hlv). simpl in *.
  unfold dest_hashtable. cbn [null]. run.
  destruct (dest_slots_run (Z.to_nat (max_slots e)) 0 e a cs) as (e' & a' & -> & Hl);
    [done|by rewrite (tok_len _ _ Hok)|].
  run. eexists. split; [done|]. split; [done|]. simpl. rewrite drop_0 in Hl. lia.
Qed.
