(* ===== verification/Array.v ===== *)
(** * The array engine of the key-value store (src/kv_store/kvstore_array.c)

    A table of 1024 (key, value) pairs with a high-water mark; deletions
    leave holes that later insertions reuse.  Operations as written, the
    invariant of the high-water mark, and the refinement to a finite map. *)

From S2P Require Import Prelude CRuntime.

(* src/kv_store/kv_store.h:76-76 KVS_ARRAY_SIZE *)
Definition KVS_ARRAY_SIZE : nat := 1024.

(* src/kv_store/kv_store.h:64-67 kvs_array_item *)
Record kvs_array_item := Item { key : option cstr; value : vptr }.

Definition empty_item : kvs_array_item := Item None VNull.

(** [array_table]: NULL, freed, or the 1024 items. *)
Inductive atable := ANull | AFreed | ATable (l : list kvs_array_item).

(* src/kv_store/kv_store.h:69-72 array_t *)
Record array_t := Arr { array_table : atable; array_idx : nat }.

(* src/kv_store/kvstore_array.c:4-4 array *)
Definition array0 : array_t := Arr ANull 0.

Abbreviation aw := (world array_t).
Abbreviation aprog := (prog (world array_t)).
Abbreviation handle := (option unit).

Definition items_of : aprog (list kvs_array_item) :=
  a ← get_eng;
  match array_table a with
  | ANull => stop NullDeref
  | AFreed => stop UseAfterFree
  | ATable l => mret l
  end.

(** [arr->array_table[idx] = it] *)
Definition write_item (idx : nat) (it : kvs_array_item) : aprog unit :=
  l ← items_of;
  a ← get_eng;
  put_eng (Arr (ATable (<[idx := it]> l)) (array_idx a)).

(* src/kv_store/kvstore_array.c kvstore_array_create *)
Definition kvstore_array_create (arr : handle) : aprog Z :=
  if null arr then mret (-1) else
  p ← kvstore_malloc;
  a ← get_eng;
  match p with
  | None => _ ← put_eng (Arr ANull (array_idx a)); mret (-1)
  | Some _ =>
      (* memset(arr->array_table, 0, ...) *)
      _ ← put_eng (Arr (ATable (replicate KVS_ARRAY_SIZE empty_item)) 0);
      mret 0
  end.

(* src/kv_store/kvstore_array.c kvstore_array_destory *)
Definition kvstore_array_destory (arr : handle) : aprog unit :=
  if null arr then mret tt else
  a ← get_eng;
  match array_table a with
  | ANull => mret tt
  | AFreed => stop UseAfterFree
  | ATable _ => _ ← kvstore_free; put_eng (Arr AFreed (array_idx a))
  end.

(** [while (idx < KVS_ARRAY_SIZE && arr->array_table[idx].key != NULL) idx++;] *)
Fixpoint first_hole (l : list kvs_array_item) (idx : nat) : nat :=
  match l with
  | [] => idx
  | it :: l' => if null (key it) then idx else first_hole l' (S idx)
  end.

(* src/kv_store/kvstore_array.c:29-54 kvstore_array_set *)
Definition kvstore_array_set (arr : handle) (k v : option cstr) : aprog Z :=
  match k, v, arr with
  | Some k, Some v, Some _ =>
      l ← items_of;
      let idx := first_hole l 0 in
      if bool_decide (idx = KVS_ARRAY_SIZE) then mret (-1) else
      kcopy ← kvstore_malloc;
      match kcopy with
      | None => mret (-1)
      | Some _ =>
          vcopy ← kvstore_malloc;
          match vcopy with
          | None => _ ← kvstore_free; mret (-1)
          | Some _ =>
              _ ← write_item idx (Item (Some k) (VStr v));
              a ← get_eng;
              _ ← (if bool_decide (idx = array_idx a)
                   then put_eng (Arr (array_table a) (S (array_idx a))) else mret tt);
              mret 0
          end
      end
  | _, _, _ => mret (-1)
  end.

(** The loop [get], [delete] and [modify] share: the first item below the
    high-water mark whose key is not NULL and compares equal. *)
Fixpoint array_scan (k : cstr) (l : list kvs_array_item) (idx : nat)
    : option (nat * kvs_array_item) :=
  match l with
  | [] => None
  | it :: l' =>
      match key it with
      | None => array_scan k l' (S idx)
      | Some k' => if strcmp k' k =? 0 then Some (idx, it) else array_scan k l' (S idx)
      end
  end.

(* src/kv_store/kvstore_array.c:82-89 kvstore_array_get *)
(** The code checks neither pointer: [key == NULL] faults at the first
    occupied item. *)
Definition kvstore_array_get (arr : handle) (k : option cstr) : aprog vptr :=
  match arr with
  | None => stop NullDeref
  | Some _ =>
      a ← get_eng;
      if bool_decide (array_idx a = 0%nat) then mret VNull else
      l ← items_of;
      match k with
      | None =>
          if forallb (λ it, null (key it)) (take (array_idx a) l) then mret VNull
          else stop NullDeref
      | Some k =>
          match array_scan k (take (array_idx a) l) 0 with
          | Some (_, it) => mret (value it)
          | None => mret VNull
          end
      end
  end.

(* src/kv_store/kvstore_array.c:105-118 kvstore_array_delete *)
Definition kvstore_array_delete (arr : handle) (k : option cstr) : aprog Z :=
  match k, arr with
  | Some k, Some _ =>
      a ← get_eng;
      if bool_decide (array_idx a = 0%nat) then mret 1 else
      l ← items_of;
      match array_scan k (take (array_idx a) l) 0 with
      | Some (idx, it) =>
          _ ← free_vptr (value it);
          _ ← kvstore_free;
          _ ← write_item idx empty_item;
          mret 0
      | None => mret 1
      end
  | _, _ => mret (-1)
  end.

(* src/kv_store/kvstore_array.c:143-157 kvstore_array_modify *)
(** When the new value cannot be allocated the item keeps its freed
    pointer. *)
Definition kvstore_array_modify (arr : handle) (k v : option cstr) : aprog Z :=
  match arr, k, v with
  | Some _, Some k, Some v =>
      a ← get_eng;
      if bool_decide (array_idx a = 0%nat) then mret 1 else
      l ← items_of;
      match array_scan k (take (array_idx a) l) 0 with
      | Some (idx, it) =>
          _ ← free_vptr (value it);
          _ ← write_item idx (Item (key it) (match value it with VNull => VNull | _ => VFreed end));
          vcopy ← kvstore_malloc;
          match vcopy with
          | None => mret (-1)
          | Some _ =>
              _ ← write_item idx (Item (key it) (VStr v));
              mret 0
          end
      | None => mret 1
      end
  | _, _, _ => mret (-1)
  end.

(** ** Invariant and abstraction *)

Definition pair_of (it : kvs_array_item) : option (cstr * vptr) :=
  k ← key it; Some (k, value it).

Definition pairs (l : list kvs_array_item) : list (cstr * vptr) := omap pair_of l.
Arguments pairs : simpl never.

(** Blocks owned by an item: its key, and its value unless it was freed. *)
Definition pair_blocks (p : cstr * vptr) : Z :=
  1 + match p.2 with VStr _ => 1 | _ => 0 end.
Definition ablocks (l : list (cstr * vptr)) : Z := foldr (λ p, Z.add (pair_blocks p)) 0 l.

(** [arep base w m]: a well-formed array holding the pairs of [m]. Keys are
    unique, everything at or above the high-water mark is a hole. *)
Definition arep (base : Z) (w : aw) (m : gmap cstr vptr) : Prop :=
  ∃ l, array_table (w_eng w) = ATable l ∧
    length l = KVS_ARRAY_SIZE ∧
    (array_idx (w_eng w) ≤ KVS_ARRAY_SIZE)%nat ∧
    drop (array_idx (w_eng w)) l =
      replicate (KVS_ARRAY_SIZE - array_idx (w_eng w)) empty_item ∧
    NoDup (pairs l).*1 ∧
    m = list_to_map (pairs l) ∧
    al_live (w_al w) = base + 1 + ablocks (pairs l).

(** ** Facts about the scans *)

Lemma pairs_app l1 l2 : pairs (l1 ++ l2) = pairs l1 ++ pairs l2.
Proof. apply omap_app. Qed.

Lemma pairs_empty n : pairs (replicate n empty_item) = [].
Proof. induction n; [done|]. by rewrite replicate_S. Qed.

Lemma pairs_cons_Some k v l : pairs (Item (Some k) v :: l) = (k, v) :: pairs l.
Proof. done. Qed.

Lemma pairs_cons_None it l : key it = None → pairs (it :: l) = pairs l.
Proof. intros H. unfold pairs. simpl. unfold pair_of at 1. by rewrite H. Qed.

(** Writing an item over a hole, or a hole over an item. *)
Lemma pairs_middle l1 k v l2 it :
  key it = None →
  pairs (l1 ++ Item (Some k) v :: l2) ≡ₚ (k, v) :: pairs (l1 ++ it :: l2).
Proof.
  intros H. rewrite !pairs_app, pairs_cons_Some, pairs_cons_None by done.
  by rewrite Permutation_middle.
Qed.

Lemma ablocks_app l1 l2 : ablocks (l1 ++ l2) = ablocks l1 + ablocks l2.
Proof. induction l1; simpl; lia. Qed.

#[global] Instance ablocks_proper : Proper ((≡ₚ) ==> (=)) ablocks.
Proof. induction 1; simpl; lia. Qed.

Definition occupied (it : kvs_array_item) : Prop := is_Some (key it).

Lemma pairs_le l : (length (pairs l) ≤ length l)%nat.
Proof.
  induction l as [|[[k|] v] l IH]; [done| |].
  - rewrite pairs_cons_Some. cbn [length]. lia.
  - rewrite pairs_cons_None by done. cbn [length]. lia.
Qed.

Lemma pairs_full l : Forall occupied l → length (pairs l) = length l.
Proof.
  induction 1 as [|[[k|] v] l [? Hk] _ IH]; [done| |done].
  rewrite pairs_cons_Some. simpl. by rewrite IH.
Qed.

Lemma first_hole_cases l i :
  (first_hole l i = (i + length l)%nat ∧ Forall occupied l) ∨
  ∃ l1 it l2, l = l1 ++ it :: l2 ∧ key it = None ∧ Forall occupied l1 ∧
    first_hole l i = (i + length l1)%nat.
Proof.
  revert i. induction l as [|[[k|] v] l IH]; intros i; simpl; [left; auto| |].
  - destruct (IH (S i)) as [[-> Hl]|(l1 & it & l2 & -> & Hk & Hl & ->)].
    + left. split; [lia|]. constructor; [|done]. by exists k.
    + right. exists (Item (Some k) v :: l1), it, l2. simpl.
      split_and!; [done..| |lia]. constructor; [|done]. by exists k.
  - right. exists [], (Item None v), l. split_and!; try done; simpl; lia.
Qed.

Lemma array_scan_cases k l i :
  (array_scan k l i = None ∧ k ∉ (pairs l).*1) ∨
  ∃ l1 v l2, l = l1 ++ Item (Some k) v :: l2 ∧ k ∉ (pairs l1).*1 ∧
    array_scan k l i = Some ((i + length l1)%nat, Item (Some k) v).
Proof.
  revert i. induction l as [|[[k'|] v] l IH]; intros i; cbn [array_scan key].
  - left. split; [done|apply not_elem_of_nil].
  - rewrite strcmp_eqb. destruct (decide (k' = k)) as [->|Hne].
    + rewrite bool_decide_eq_true_2 by done. right. exists [], v, l.
      rewrite Nat.add_0_r. split_and!; [done|apply not_elem_of_nil|done].
    + rewrite bool_decide_eq_false_2, pairs_cons_Some by done.
      destruct (IH (S i)) as [[-> Hn]|(l1 & v' & l2 & -> & Hn & ->)].
      * left. split; [done|]. rewrite fmap_cons, not_elem_of_cons. auto.
      * right. exists (Item (Some k') v :: l1), v', l2. rewrite pairs_cons_Some.
        rewrite fmap_cons, not_elem_of_cons.
        split_and!; [done|auto|auto|cbn [length]; f_equal; f_equal; lia].
  - rewrite pairs_cons_None by done.
    destruct (IH (S i)) as [[-> Hn]|(l1 & v' & l2 & -> & Hn & ->)]; [left; auto|].
    right. exists (Item None v :: l1), v', l2. rewrite pairs_cons_None by done.
    split_and!; [done|done|]. cbn [length]. f_equal; f_equal; lia.
Qed.

(** ** Opening the representation at a key *)

Lemma items_run e a l : array_table e = ATable l → items_of (World e a) = Ok (l, World e a).
Proof. intros H. unfold items_of. run. by rewrite H. Qed.

Lemma write_item_run e a l i it :
  array_table e = ATable l →
  write_item i it (World e a) = Ok (tt, World (Arr (ATable (<[i:=it]> l)) (array_idx e)) a).
Proof. intros H. unfold write_item. run. rewrite (items_run _ _ _ H). by run. Qed.

Lemma insert_middle {A} (l1 : list A) x l2 y : <[length l1 := y]> (l1 ++ x :: l2) = l1 ++ y :: l2.
Proof. by rewrite insert_app_r_alt, Nat.sub_diag by lia. Qed.

(** Every occupied item is below the high-water mark, so the scans that stop
    there see the whole table. *)
Lemma arep_scan base e a m k :
  arep base (World e a) m →
  (m !! k = None ∧
     (array_idx e = 0%nat ∨ ∃ l, array_table e = ATable l ∧ array_scan k (take (array_idx e) l) 0 = None)) ∨
  ∃ l1 v l2, array_table e = ATable (l1 ++ Item (Some k) v :: l2) ∧ (length l1 < array_idx e)%nat ∧
    m !! k = Some v ∧ k ∉ (pairs l1 ++ pairs l2).*1 ∧
    array_scan k (take (array_idx e) (l1 ++ Item (Some k) v :: l2)) 0 = Some (length l1, Item (Some k) v).
Proof.
  intros (l & Ht & Hlen & Hi & Hdr & Hd & -> & _). simpl in *.
  rewrite <- (take_drop (array_idx e) l) in Hd, Ht |- *. rewrite Hdr in *.
  rewrite !pairs_app, !pairs_empty, !app_nil_r in *.
  assert (length (take (array_idx e) l) = array_idx e) as Htl by (rewrite length_take; lia).
  set (t := take (array_idx e) l) in *. clearbody t.
  destruct (array_scan_cases k t 0) as [[Hs Hn]|(l1 & v & l2 & -> & Hn & Hs)].
  - left. split; [by apply not_elem_of_list_to_map_1|]. right. eexists. split; [done|].
    by rewrite take_app_length'.
  - right. exists l1, v, (l2 ++ replicate (KVS_ARRAY_SIZE - array_idx e) empty_item).
    rewrite <- Htl, app_comm_cons, app_assoc, take_app_length, !length_app in *. simpl.
    split_and!; [done|lia| | |done].
    + apply elem_of_list_to_map_1; [done|]. rewrite pairs_app, pairs_cons_Some.
      rewrite elem_of_app, elem_of_cons. auto.
    + rewrite pairs_app, pairs_empty, app_nil_r. rewrite pairs_app, pairs_cons_Some in Hd.
      rewrite <- Permutation_middle in Hd. by apply NoDup_cons in Hd as [? ?].
Qed.

(** Building the representation back after the item at [length l1] changed. *)
Lemma arep_write base l1 it l2 idx a m :
  length (l1 ++ it :: l2) = KVS_ARRAY_SIZE → (length l1 < idx ≤ KVS_ARRAY_SIZE)%nat →
  drop idx (l1 ++ it :: l2) = replicate (KVS_ARRAY_SIZE - idx) empty_item →
  NoDup (pairs (l1 ++ it :: l2)).*1 →
  m = list_to_map (pairs (l1 ++ it :: l2)) →
  al_live a = base + 1 + ablocks (pairs (l1 ++ it :: l2)) →
  arep base (World (Arr (ATable (l1 ++ it :: l2)) idx) a) m.
Proof. intros. eexists. simpl. split_and!; try done; lia. Qed.

Lemma drop_past {A} (l1 : list A) x y l2 n :
  (length l1 < n)%nat → drop n (l1 ++ x :: l2) = drop n (l1 ++ y :: l2).
Proof.
  intros H. rewrite !drop_app_ge by lia.
  destruct (n - length l1)%nat as [|j] eqn:E; [lia|]. done.
Qed.

Lemma pairs_size l :
  NoDup (pairs l).*1 → size (list_to_map (pairs l) : gmap cstr vptr) = length (pairs l).
Proof. intros. rewrite <- length_map_to_list. by rewrite map_to_list_to_map. Qed.

(** [get] returns the value pointer of the key. *)
Lemma array_get_run base w m k :
  arep base w m →
  kvstore_array_get (Some tt) (Some k) w = Ok (default VNull (m !! k), w).
Proof.
  destruct w as [e a]. intros H. unfold kvstore_array_get. run.
  destruct (arep_scan _ _ _ _ k H) as [[-> Hs]|(l1 & v & l2 & Ht & Hi & -> & _ & Hs)].
  - case_bool_decide as E; run; [done|]. destruct Hs as [|(l & Ht & Hs)]; [done|].
    rewrite (items_run _ _ _ Ht). run. by rewrite Hs.
  - rewrite bool_decide_eq_false_2 by lia. run. rewrite (items_run _ _ _ Ht). run. by rewrite Hs.
Qed.

(** The first hole is never past the high-water mark. *)
Lemma hole_below l1 it l2 i n :
  Forall occupied l1 → drop i (l1 ++ it :: l2) = replicate n empty_item → (length l1 ≤ i)%nat.
Proof.
  intros Ho Hdr. destruct (decide (length l1 ≤ i)%nat) as [|Hgt]; [done|exfalso].
  destruct (lookup_lt_is_Some_2 l1 i) as [x Hx]; [lia|].
  assert (replicate n empty_item !! 0%nat = Some x) as Hr.
  { rewrite <- Hdr, lookup_drop, Nat.add_0_r. by rewrite lookup_app_l by lia. }
  apply lookup_replicate in Hr as [-> _].
  by destruct (Forall_lookup_1 _ _ _ _ Ho Hx) as [? [=]].
Qed.

(** Storing a fresh pair in the first hole keeps the invariant. *)
Lemma arep_fill base l1 it l2 idx a k v :
  length (l1 ++ it :: l2) = KVS_ARRAY_SIZE → key it = None → Forall occupied l1 →
  (idx ≤ KVS_ARRAY_SIZE)%nat →
  drop idx (l1 ++ it :: l2) = replicate (KVS_ARRAY_SIZE - idx) empty_item →
  NoDup (pairs (l1 ++ it :: l2)).*1 → k ∉ (pairs (l1 ++ it :: l2)).*1 →
  al_live a = base + 1 + ablocks (pairs (l1 ++ it :: l2)) + 2 →
  arep base
    (World (Arr (ATable (l1 ++ Item (Some k) (VStr v) :: l2))
      (if bool_decide (length l1 = idx) then S idx else idx)) a)
    (<[k := VStr v]> (list_to_map (pairs (l1 ++ it :: l2)))).
Proof.
  intros Hlen Hit Ho Hi Hdr Hd Hk Hlv.
  pose proof (hole_below _ _ _ _ _ Ho Hdr) as Hle.
  pose proof (pairs_middle l1 k (VStr v) l2 it Hit) as Hp.
  rewrite length_app in Hlen. simpl in Hlen.
  assert (NoDup (pairs (l1 ++ Item (Some k) (VStr v) :: l2)).*1) as Hd'.
  { rewrite Hp, fmap_cons. by apply NoDup_cons. }
  exists (l1 ++ Item (Some k) (VStr v) :: l2). cbn [w_eng w_al array_table array_idx]. split_and!.
  - done.
  - rewrite length_app. done.
  - case_bool_decide; lia.
  - case_bool_decide as E.
    + rewrite (drop_past l1 _ it) by lia.
      replace (S idx) with (idx + 1)%nat by lia. rewrite <- drop_drop, Hdr.
      rewrite drop_replicate. f_equal. lia.
    + by rewrite (drop_past l1 _ it) by lia.
  - done.
  - symmetry. rewrite <- list_to_map_cons. by apply list_to_map_proper.
  - rewrite Hp. simpl. unfold pair_blocks at 1. simpl. lia.
Qed.

(** A fresh key goes to the first hole; the table is full at 1024 keys, and
    an allocation failure leaves the contents alone. *)
(** [x] has been put into the first item that had no key, the other items are
    as before, and the high-water mark covers it. *)
Definition filled_hole (e e' : array_t) (x : kvs_array_item) : Prop :=
  ∃ l i it, array_table e = ATable l ∧ l !! i = Some it ∧ key it = None ∧
    (∀ j it', (j < i)%nat → l !! j = Some it' → is_Some (key it')) ∧
    array_table e' = ATable (<[i := x]> l) ∧
    array_idx e' = (if bool_decide (i = array_idx e) then S (array_idx e) else array_idx e).

Lemma array_set_fresh base w m k v :
  arep base w m → m !! k = None →
  ∃ r w', kvstore_array_set (Some tt) (Some k) (Some v) w = Ok (r, w') ∧
    ((r = 0 ∧ (size m < KVS_ARRAY_SIZE)%nat ∧ arep base w' (<[k := VStr v]> m) ∧
      (al_total (w_al w) → al_total (w_al w')) ∧ filled_hole (w_eng w) (w_eng w') (Item (Some k) (VStr v))) ∨
     (r = -1 ∧ arep base w' m ∧ (al_total (w_al w) → size m = KVS_ARRAY_SIZE) ∧ w_eng w' = w_eng w)).
Proof.
  destruct w as [e a]. intros H Hm.
  destruct H as (l & Ht & Hlen & Hi & Hdr & Hd & -> & Hlv). cbn [w_eng w_al] in *.
  rewrite pairs_size by done. unfold kvstore_array_set. run. rewrite (items_run _ _ _ Ht). run.
  destruct (first_hole_cases l 0) as [[-> Hfull]|(l1 & it & l2 & -> & Hit & Ho & ->)].
  { rewrite bool_decide_eq_true_2 by lia. eexists _, _. split; [done|]. right.
    apply pairs_full in Hfull. split_and!; [done| |lia|done]. exists l. by split_and!. }
  pose proof Hlen as Hlen'. rewrite length_app in Hlen'. cbn [length] in Hlen'.
  rewrite bool_decide_eq_false_2 by lia. run.
  assert (∀ a', al_live a' = al_live a →
    arep base (World e a') (list_to_map (pairs (l1 ++ it :: l2)))) as Hsame.
  { intros a' Ha'. exists (l1 ++ it :: l2). cbn [w_eng w_al]. split_and!; try done. lia. }
  destruct (al_ok a (al_calls a)) eqn:E1.
  2:{ rewrite malloc_None by done. run. eexists _, _. split; [done|]. right.
      split_and!; [done|apply Hsame; simpl; lia| |done]. intros Hat. by rewrite (Hat (al_calls a)) in E1. }
  rewrite malloc_Some by done. run. destruct (al_ok a (S (al_calls a))) eqn:E2.
  2:{ rewrite malloc_None by done. run. eexists _, _. split; [done|]. right.
      split_and!; [done|apply Hsame; simpl; lia| |done].
      intros Hat. rewrite (Hat (S (al_calls a))) in E2 by lia. done. }
  rewrite malloc_Some by done. run. rewrite (write_item_run _ _ _ _ _ Ht). run.
  cbn [array_idx array_table]. rewrite Nat.add_0_l, insert_middle.
  exists 0, (World (Arr (ATable (l1 ++ Item (Some k) (VStr v) :: l2))
    (if bool_decide (length l1 = array_idx e) then S (array_idx e) else array_idx e))
    (al_next (al_next a 1) 1)).
  split; [by case_bool_decide; run|]. left. split_and!; [done| | | |].
  - rewrite pairs_app, pairs_cons_None, length_app by done.
    pose proof (pairs_le l1). pose proof (pairs_le l2). lia.
  - apply arep_fill; try done; [|simpl; lia]. by apply not_elem_of_list_to_map.
  - simpl. auto with ga.
  - exists (l1 ++ it :: l2), (length l1), it. cbn [w_eng array_table array_idx]. split_and!; try done.
    + apply list_lookup_middle. done.
    + intros j x Hj Hx. rewrite lookup_app_l in Hx by done.
      apply list_elem_of_lookup_2 in Hx. rewrite Forall_forall in Ho. by apply Ho.
    + by rewrite insert_middle.
Qed.

(** Deleting: 1 for an absent key; a present key's item becomes a hole. *)
Lemma array_delete_run base w m k :
  arep base w m →
  match m !! k with
  | None => kvstore_array_delete (Some tt) (Some k) w = Ok (1, w)
  | Some VFreed => kvstore_array_delete (Some tt) (Some k) w = Err UseAfterFree
  | Some _ => ∃ w', kvstore_array_delete (Some tt) (Some k) w = Ok (0, w') ∧
      arep base w' (delete k m) ∧ (al_total (w_al w) → al_total (w_al w'))
  end.
Proof.
  destruct w as [e a]. intros H. unfold kvstore_array_delete. run.
  destruct (arep_scan _ _ _ _ k H) as [[-> Hs]|(l1 & v & l2 & Ht & Hi & Hm & Hk & Hs)].
  { case_bool_decide as E; run; [done|]. destruct Hs as [|(l & Ht & Hs)]; [done|].
    rewrite (items_run _ _ _ Ht). run. by rewrite Hs. }
  rewrite Hm. rewrite bool_decide_eq_false_2 by lia. run. rewrite (items_run _ _ _ Ht). run.
  rewrite Hs. cbn [value].
  destruct H as (l & Ht' & Hlen & Hix & Hdr & Hd & -> & Hlv). cbn [w_eng w_al] in *.
  rewrite Ht in Ht'. simplify_eq.
  pose proof (pairs_middle l1 k v l2 empty_item eq_refl) as Hp.
  assert (∀ a', al_live a' = al_live a - pair_blocks (k, v) →
    arep base (World (Arr (ATable (l1 ++ empty_item :: l2)) (array_idx e)) a')
      (delete k (list_to_map (pairs (l1 ++ Item (Some k) v :: l2))))) as Hrep.
  { intros a' Ha'. pose proof Hd as Hd0. rewrite Hp, fmap_cons in Hd. apply NoDup_cons in Hd as [Hk' Hd].
    apply arep_write; try done.
    - rewrite length_app in *. done.
    - by rewrite (drop_past l1 _ (Item (Some k) v)) by lia.
    - rewrite (list_to_map_proper _ _ Hd0 Hp).
      rewrite list_to_map_cons, delete_insert_eq, delete_id; [done|].
      by apply not_elem_of_list_to_map_1.
    - rewrite Ha', Hlv, Hp. simpl. lia. }
  destruct v; unfold free_vptr; run; try done; rewrite (write_item_run _ _ _ _ _ Ht); run;
    rewrite insert_middle; (eexists; split; [done|]; split;
    [apply Hrep; unfold pair_blocks; simpl; lia|simpl; auto with ga]).
Qed.

(** Modifying: 1 for an absent key; when the new copy cannot be allocated the
    item is left with a freed pointer. *)
Lemma array_modify_run base w m k v :
  arep base w m →
  match m !! k with
  | None => kvstore_array_modify (Some tt) (Some k) (Some v) w = Ok (1, w)
  | Some VFreed => kvstore_array_modify (Some tt) (Some k) (Some v) w = Err UseAfterFree
  | Some old => ∃ r w', kvstore_array_modify (Some tt) (Some k) (Some v) w = Ok (r, w') ∧
      ((r = 0 ∧ arep base w' (<[k := VStr v]> m) ∧ (al_total (w_al w) → al_total (w_al w'))) ∨
       (r = -1 ∧ ~ al_total (w_al w) ∧
        arep base w' (<[k := match old with VNull => VNull | _ => VFreed end]> m)))
  end.
Proof.
  destruct w as [e a]. intros H. unfold kvstore_array_modify. run.
  destruct (arep_scan _ _ _ _ k H) as [[-> Hs]|(l1 & v0 & l2 & Ht & Hi & Hm & Hk & Hs)].
  { case_bool_decide as E; run; [done|]. destruct Hs as [|(l & Ht & Hs)]; [done|].
    rewrite (items_run _ _ _ Ht). run. by rewrite Hs. }
  rewrite Hm. rewrite bool_decide_eq_false_2 by lia. run. rewrite (items_run _ _ _ Ht). run.
  rewrite Hs. cbn [value key].
  destruct H as (l & Ht' & Hlen & Hix & Hdr & Hd & -> & Hlv). cbn [w_eng w_al] in *.
  rewrite Ht in Ht'. simplify_eq.
  assert (∀ v1 a', al_live a' = al_live a - pair_blocks (k, v0) + pair_blocks (k, v1) →
    arep base (World (Arr (ATable (l1 ++ Item (Some k) v1 :: l2)) (array_idx e)) a')
      (<[k := v1]> (list_to_map (pairs (l1 ++ Item (Some k) v0 :: l2))))) as Hrep.
  { intros v1 a' Ha'. pose proof (pairs_middle l1 k v0 l2 empty_item eq_refl) as Hp0.
    pose proof (pairs_middle l1 k v1 l2 empty_item eq_refl) as Hp1.
    assert (NoDup (pairs (l1 ++ Item (Some k) v1 :: l2)).*1) as Hd1.
    { rewrite Hp0 in Hd. rewrite Hp1. done. }
    apply arep_write; try done.
    - rewrite length_app in *. done.
    - by rewrite (drop_past l1 _ (Item (Some k) v0)) by lia.
    - rewrite (list_to_map_proper _ _ Hd Hp0), (list_to_map_proper _ _ Hd1 Hp1).
      rewrite !list_to_map_cons. by rewrite insert_insert_eq.
    - rewrite Ha', Hlv, Hp0, Hp1. simpl. lia. }
  destruct v0; unfold free_vptr; run; try done; rewrite (write_item_run _ _ _ _ _ Ht); run;
    rewrite insert_middle; destruct (al_ok a (al_calls a)) eqn:E1.
  all: try (rewrite malloc_None by done; run; eexists _, _; split; [done|]; right;
    split_and!; [done| |apply Hrep; unfold pair_blocks; simpl; lia];
    intros Hat; by rewrite (Hat (al_calls a)) in E1).
  all: rewrite malloc_Some by done; run; erewrite write_item_run by done; run; rewrite insert_middle;
    eexists _, _; split; [done|]; left; split_and!; [done| |simpl; auto with ga];
    apply Hrep; unfold pair_blocks; simpl; lia.
Qed.

Lemma array_create_run e a :
  al_ok a (al_calls a) = true →
  ∃ w', kvstore_array_create (Some tt) (World e a) = Ok (0, w') ∧
    arep (al_live a) w' ∅ ∧ (al_total a → al_total (w_al w')).
Proof.
  intros Hok. unfold kvstore_array_create. cbn [null]. run. rewrite malloc_Some by done. run.
  eexists. split; [done|]. split; [|simpl; auto with ga].
  exists (replicate KVS_ARRAY_SIZE empty_item). cbn [w_eng w_al array_table array_idx].
  rewrite pairs_empty. split_and!; try done; [lia|constructor|simpl; lia].
Qed.

Lemma full_occupied l : length (pairs l) = length l → Forall occupied l.
Proof.
  induction l as [|[[k|] v] l IH]; [constructor| |].
  - rewrite pairs_cons_Some. cbn [length]. intros [= H]. constructor; [by exists k|auto].
  - rewrite pairs_cons_None by done. cbn [length]. pose proof (pairs_le l). lia.
Qed.

Lemma first_hole_app l it l2 i :
  Forall occupied l → key it = None → first_hole (l ++ it :: l2) i = (i + length l)%nat.
Proof.
  intros Hl Hit. revert i. induction Hl as [|[[k|] v] l [? Hk] _ IH]; intros i; simpl; [|..|done].
  - rewrite Hit. simpl. lia.
  - rewrite IH. lia.
Qed.

Lemma array_scan_app k l l' i r :
  array_scan k l i = Some r → array_scan k (l ++ l') i = Some r.
Proof.
  revert i. induction l as [|[[k'|] v] l IH]; intros i; simpl; [done| |apply IH].
  destruct (strcmp k' k =? 0); [done|apply IH].
Qed.

(** [SET] of a key that is already there adds a second item: when the array
    has no hole the new item comes last, and a lookup keeps answering the
    old one. *)
Lemma array_set_shadow base w m k v v0 :
  arep base w m → m !! k = Some v0 → al_total (w_al w) → (size m < KVS_ARRAY_SIZE)%nat →
  array_idx (w_eng w) = size m →
  ∃ w', kvstore_array_set (Some tt) (Some k) (Some v) w = Ok (0, w') ∧
    kvstore_array_get (Some tt) (Some k) w' = Ok (v0, w').
Proof.
  destruct w as [e a]. intros H Hm Hat Hsz Hidx. cbn [w_eng w_al] in *.
  destruct (arep_scan _ _ _ _ k H) as [[? _]|(l1 & v1 & l2 & Ht & Hi & Hm1 & _ & Hs)]; [by simplify_eq|].
  rewrite Hm in Hm1. injection Hm1 as <-.
  destruct H as (l & Ht' & Hlen & Hix & Hdr & Hd & -> & _). cbn [w_eng w_al] in *.
  rewrite Ht in Ht'. injection Ht' as Hl. rewrite Hl in Ht, Hs. clear Hl Hi.
  set (h := array_idx e) in *. rewrite pairs_size in * by done.
  destruct (KVS_ARRAY_SIZE - h)%nat as [|n] eqn:En; [lia|].
  assert (length (take h l) = h) as Htl by (rewrite length_take; lia).
  assert (Forall occupied (take h l)) as Hocc.
  { apply full_occupied. rewrite <- (take_drop h l) in Hidx.
    rewrite Hdr, pairs_app, pairs_empty, app_nil_r in Hidx. lia. }
  assert (l = take h l ++ empty_item :: replicate n empty_item) as Hl.
  { by rewrite <- (take_drop h l) at 1; rewrite Hdr. }
  unfold kvstore_array_set. run. rewrite (items_run _ _ _ Ht). run.
  assert (first_hole l 0 = h) as -> by (rewrite Hl, first_hole_app by done; lia).
  rewrite bool_decide_eq_false_2 by lia. run.
  rewrite malloc_total by done. run. rewrite malloc_total by auto with ga. run.
  rewrite (write_item_run _ _ _ _ _ Ht). run.
  rewrite bool_decide_eq_true_2 by done. run. eexists. split; [done|].
  unfold kvstore_array_get. run. rewrite bool_decide_eq_false_2 by done. run.
  erewrite items_run by done. run. cbn [array_idx array_table].
  rewrite (take_S_r _ h (Item (Some k) (VStr v))) by (by rewrite list_lookup_insert_eq by lia).
  rewrite take_insert_ge by lia. by rewrite (array_scan_app _ _ _ _ _ Hs).
Qed.
