(* ===== verification/RbShape.v ===== *)
(** * Red-black trees as values

    The shape two parts of the program share, whatever their nodes hold: the
    engine of src/kv_store/kvstore_rbtree.c ([Rbtree]) and the trees of the
    coroutine scheduler, which the macros of src/kv_store/Ntyco/nty_tree.h
    generate ([BsdTree]).  A tree, the path to a node in it, its contents in
    order, and the red-black invariant at a focus. *)

From S2P Require Import Prelude.

(** ** Directions and colours *)

Inductive dir := L | R.

#[global] Instance dir_eq_dec : EqDecision dir.
Proof. solve_decision. Defined.

Definition opp (d : dir) : dir := match d with L => R | R => L end.

Lemma opp_opp d : opp (opp d) = d.
Proof. by destruct d. Qed.

Inductive col := Red | Black.

#[global] Instance col_eq_dec : EqDecision col.
Proof. solve_decision. Defined.

Definition is_red (c : col) : bool := match c with Red => true | Black => false end.

(** ** Trees and contexts *)

Inductive tree (A : Type) := Leaf | T (c : col) (l : tree A) (e : A) (r : tree A).
Arguments Leaf {A}.
Arguments T {A} _ _ _ _.

(** A step of the path: the hole is on side [f_dir], the sibling opposite. *)
Record frame (A : Type) := Fr { f_dir : dir; f_col : col; f_ent : A; f_sib : tree A }.
Arguments Fr {A} _ _ _ _.
Arguments f_dir {A} _.
Arguments f_col {A} _.
Arguments f_ent {A} _.
Arguments f_sib {A} _.

Section shape.
Context {A : Type}.
Implicit Types (t l r sib : tree A) (ctx : list (frame A)) (e : A) (c : col) (d : dir).

(** [a] on side [d], [b] on the other. *)
Definition mk (d : dir) (c : col) (e : A) (a b : tree A) : tree A :=
  match d with L => T c a e b | R => T c b e a end.

Fixpoint plug ctx t : tree A :=
  match ctx with [] => t | f :: ctx' => plug ctx' (mk (f_dir f) (f_col f) (f_ent f) t (f_sib f)) end.

Definition root_col t : col := match t with Leaf => Black | T c _ _ _ => c end.

(** The colour of the parent of the focus. *)
Definition head_col ctx : col := match ctx with [] => Black | f :: _ => f_col f end.

Lemma mk_opp d c e x1 x2 : mk (opp d) c e x1 x2 = mk d c e x2 x1.
Proof. by destruct d. Qed.

Lemma root_col_mk d c e x1 x2 : root_col (mk d c e x1 x2) = c.
Proof. by destruct d. Qed.

(** A tree that is not a leaf, seen from a direction. *)
Lemma tree_mk d t : t ≠ Leaf → ∃ c e x1 x2, t = mk d c e x1 x2.
Proof.
  destruct t as [|c l e r]; [done|]. intros _. destruct d; [by exists c, e, l, r|by exists c, e, r, l].
Qed.

Lemma plug_app ctx1 ctx2 t : plug (ctx1 ++ ctx2) t = plug ctx2 (plug ctx1 t).
Proof. revert t. induction ctx1 as [|f ctx1 IH]; intros t; [done|]. cbn [app plug]. apply IH. Qed.

(** ** Contents in order *)

Fixpoint elems t : list A :=
  match t with Leaf => [] | T _ l e r => elems l ++ e :: elems r end.

(** Everything before and after the hole. *)
Fixpoint cpre ctx : list A :=
  match ctx with
  | [] => []
  | f :: ctx' => cpre ctx' ++ match f_dir f with L => [] | R => elems (f_sib f) ++ [f_ent f] end
  end.
Fixpoint cpost ctx : list A :=
  match ctx with
  | [] => []
  | f :: ctx' => match f_dir f with L => f_ent f :: elems (f_sib f) | R => [] end ++ cpost ctx'
  end.

Lemma elems_plug ctx t t' : elems t = elems t' → elems (plug ctx t) = elems (plug ctx t').
Proof.
  revert t t'. induction ctx as [|[d c e sib] ctx IH]; intros t t' H; [done|].
  cbn [plug]. apply IH. destruct d; simpl; by rewrite H.
Qed.

Lemma elems_plug_split ctx t : elems (plug ctx t) = cpre ctx ++ elems t ++ cpost ctx.
Proof.
  revert t. induction ctx as [|[d c e sib] ctx IH]; intros t; cbn [plug cpre cpost f_dir f_ent f_sib].
  - by rewrite app_nil_r.
  - rewrite IH. destruct d; simpl; rewrite <- ?app_assoc; done.
Qed.

Lemma left_spine ctx : Forall (λ f, f_dir f = L) ctx → cpre ctx = [].
Proof. induction 1 as [|[] ctx Hf _ IH]; [done|]. cbn in Hf. subst. cbn. by rewrite IH. Qed.

(** Any element can be brought into focus. *)
Lemma focus_on t e : e ∈ elems t → ∃ ctx c l r, plug ctx (T c l e r) = t.
Proof.
  induction t as [|c l IHl y r IHr]; cbn [elems]; [set_solver|].
  intros [Hx|[->|Hx]%elem_of_cons]%elem_of_app.
  - destruct (IHl Hx) as (ctx & c' & l' & r' & H). exists (ctx ++ [Fr L c y r]), c', l', r'. by rewrite plug_app, H.
  - by exists [], c, l, r.
  - destruct (IHr Hx) as (ctx & c' & l' & r' & H). exists (ctx ++ [Fr R c y l]), c', l', r'. by rewrite plug_app, H.
Qed.

(** ** The red-black invariant *)

(** [rb t n]: no red node has a red child and every path holds [n] black
    nodes. *)
Inductive rb : tree A → nat → Prop :=
  | rb_leaf : rb Leaf 0
  | rb_black l e r n : rb l n → rb r n → rb (T Black l e r) (S n)
  | rb_red l e r n : rb l n → rb r n → root_col l = Black → root_col r = Black → rb (T Red l e r) n.

(** A red node needs a black parent; the root is not red. *)
Definition under_black ctx : Prop :=
  match ctx with [] => False | f :: _ => f_col f = Black end.

(** The context completes a tree of black height [n]. *)
Fixpoint crb ctx (n : nat) : Prop :=
  match ctx with
  | [] => True
  | Fr _ Black _ sib :: ctx' => rb sib n ∧ crb ctx' (S n)
  | Fr _ Red _ sib :: ctx' => rb sib n ∧ root_col sib = Black ∧ under_black ctx' ∧ crb ctx' n
  end.

Definition good ctx t (n : nat) : Prop :=
  crb ctx n ∧ rb t n ∧ (root_col t = Red → under_black ctx).

Lemma rb_mk_black d e x1 x2 n : rb (mk d Black e x1 x2) (S n) ↔ rb x1 n ∧ rb x2 n.
Proof. destruct d; simpl; (split; [inversion_clear 1; done|intros []; by constructor]). Qed.

Lemma rb_mk_red d e x1 x2 n :
  rb (mk d Red e x1 x2) n ↔ rb x1 n ∧ rb x2 n ∧ root_col x1 = Black ∧ root_col x2 = Black.
Proof. destruct d; simpl; (split; [inversion_clear 1; done|intros (?&?&?&?); by constructor]). Qed.

Lemma rb_black_height d e x1 x2 n : rb (mk d Black e x1 x2) n → ∃ m, n = S m.
Proof. destruct d; simpl; inversion 1; eauto. Qed.

Lemma rb_S_node t n : rb t (S n) → t ≠ Leaf.
Proof. by inversion 1. Qed.

Lemma crb_sib d c p sib ctx n : crb (Fr d c p sib :: ctx) n → rb sib n.
Proof. destruct c; cbn [crb]; tauto. Qed.

Lemma good_up ctx d c e sib t n : good (Fr d c e sib :: ctx) t n → ∃ m, good ctx (mk d c e t sib) m.
Proof.
  intros (Hc & Ht & Hr). destruct c; cbn [crb] in Hc.
  - destruct Hc as (Hs & Hb & Hu & Hc). exists n. split_and!; [done| |done].
    apply rb_mk_red. split_and!; try done. destruct (root_col t); [|done]. by specialize (Hr eq_refl).
  - destruct Hc as (Hs & Hc). exists (S n). split_and!; [done|by apply rb_mk_black|].
    rewrite root_col_mk. done.
Qed.

Lemma good_down ctx d c e sib t n : good ctx (mk d c e t sib) n → ∃ m, good (Fr d c e sib :: ctx) t m.
Proof.
  intros (Hc & Ht & Hr). rewrite root_col_mk in Hr. destruct c.
  - apply rb_mk_red in Ht as (H1 & H2 & H3 & H4). exists n. split_and!; [|done|by rewrite H3].
    cbn [crb]. auto.
  - destruct (rb_black_height _ _ _ _ _ Ht) as [m ->]. apply rb_mk_black in Ht as [H1 H2].
    exists m. split_and!; [|done|done]. cbn [crb]. done.
Qed.

Lemma good_plug ctx t n : good ctx t n → ∃ m, good [] (plug ctx t) m.
Proof.
  revert t n. induction ctx as [|[d c e sib] ctx IH]; intros t n Hg; [by exists n|].
  destruct (good_up _ _ _ _ _ _ _ Hg) as [m Hm]. by apply IH in Hm.
Qed.

Lemma good_unplug ctx1 ctx2 t n : good ctx2 (plug ctx1 t) n → ∃ m, good (ctx1 ++ ctx2) t m.
Proof.
  revert t n. induction ctx1 as [|[d c e sib] ctx1 IH]; intros t n Hg; [by exists n|].
  cbn [plug f_dir f_col f_ent f_sib] in Hg. apply IH in Hg as [m Hm]. by apply good_down in Hm.
Qed.

Lemma good_rename ctx c l e e' r n : good ctx (T c l e r) n → good ctx (T c l e' r) n.
Proof.
  intros (Hc & Ht & Hr). split_and!; [done| |done]. inversion Ht; subst; by constructor.
Qed.

(** A node with at most one child gives way to that child. *)
Definition only_child l r : tree A := match l with Leaf => r | _ => l end.

Lemma unlink_rb ctx c l e r n :
  good ctx (T c l e r) n → l = Leaf ∨ r = Leaf →
  match c with
  | Red => good ctx (only_child l r) n
  | Black => ∃ m, crb ctx (S m) ∧ rb (only_child l r) m
  end.
Proof.
  intros (Hc & Ht & Hr) Hor. destruct c.
  - apply (rb_mk_red L) in Ht as (H1 & H2 & H3 & H4). destruct l; cbn [only_child]; split_and!; try done; congruence.
  - destruct (rb_black_height L _ _ _ _ Ht) as [m ->]. apply (rb_mk_black L) in Ht as [H1 H2].
    exists m. split; [done|]. by destruct l.
Qed.

Definition blacken t : tree A := match t with Leaf => Leaf | T _ l e r => T Black l e r end.

Lemma blacken_mk d c e x1 x2 : blacken (mk d c e x1 x2) = mk d Black e x1 x2.
Proof. by destruct d. Qed.

(** A repair stops here, and blackening the focus finishes it. *)
Definition settled_at ctx t : Prop :=
  (ctx = [] ∨ root_col t = Red) ∧ ∃ m, good ctx (blacken t) m.

(** ** Height *)

Fixpoint height t : nat :=
  match t with Leaf => 0 | T _ l _ r => S (height l `max` height r) end.

Lemma rb_size t n : rb t n → (2 ^ n ≤ S (length (elems t)))%nat.
Proof.
  induction 1 as [|l e r n Hl IHl Hr IHr|l e r n Hl IHl Hr IHr _ _]; simpl; [lia|..];
    rewrite length_app; simpl; lia.
Qed.

Lemma rb_height t n :
  rb t n → (height t ≤ 2 * n + match root_col t with Red => 1 | Black => 0 end)%nat.
Proof.
  induction 1 as [|l e r n Hl IHl Hr IHr|l e r n Hl IHl Hr IHr Hcl Hcr]; simpl; [lia|..].
  - destruct (root_col l), (root_col r); lia.
  - rewrite Hcl, Hcr in *. lia.
Qed.

(** No path is longer than twice the logarithm of the number of keys. *)
Lemma rb_balanced t n :
  rb t n → root_col t = Black → (height t ≤ 2 * Nat.log2 (S (length (elems t))))%nat.
Proof.
  intros H Hc. pose proof (rb_size t n H) as Hs. pose proof (rb_height t n H) as Hh. rewrite Hc in Hh.
  apply Nat.log2_le_mono in Hs. rewrite Nat.log2_pow2 in Hs by lia. lia.
Qed.
End shape.

(** Two arrangements of the same nodes, by cases on the directions. *)
Ltac same_elems := simpl; repeat (rewrite <- app_assoc; simpl); reflexivity.
