(* ===== verification/Rbtree.v ===== *)
(** * The red-black tree engine (src/kv_store/kvstore_rbtree.c): data and code

    Nodes live in a heap indexed by address; every pointer of the source is an
    address, 0 being NULL.  A field that [malloc] left indeterminate is [None],
    and reading it is a fault.  Loops carry a bound of two more than the number
    of nodes, which the proofs show is never reached. *)

From S2P Require Import Prelude CRuntime.

(* src/kv_store/kvstore_rbtree.c:10-10 RED *)
Definition RED : Z := 1.
(* src/kv_store/kvstore_rbtree.c:11-11 BLACK *)
Definition BLACK : Z := 2.

Definition loc := N.
Definition NULL : loc := 0%N.

(* src/kv_store/kvstore_rbtree.c:26-35 rbtree_node *)
Record rbtree_node := RbNode {
  n_color : option Z;
  n_right : option loc;
  n_left : option loc;
  n_parent : option loc;
  n_key : option vptr;
  n_value : option vptr;
}.

(* src/kv_store/kvstore_rbtree.c:37-42 rbtree *)
(** With the heap its pointers point into. *)
Record rbtree := Rbtree {
  t_root : loc;
  t_nil : loc;
  t_count : Z;
  t_heap : gmap loc rbtree_node;
}.

(* src/kv_store/kvstore_rbtree.c:510-510 Tree *)
Definition Tree0 : rbtree := Rbtree NULL NULL 0 ∅.

Abbreviation rprog := (prog (world rbtree)).

(** ** Field access *)

Definition set_color c n := RbNode (Some c) (n_right n) (n_left n) (n_parent n) (n_key n) (n_value n).
Definition set_right p n := RbNode (n_color n) (Some p) (n_left n) (n_parent n) (n_key n) (n_value n).
Definition set_left p n := RbNode (n_color n) (n_right n) (Some p) (n_parent n) (n_key n) (n_value n).
Definition set_parent p n := RbNode (n_color n) (n_right n) (n_left n) (Some p) (n_key n) (n_value n).
Definition set_key k n := RbNode (n_color n) (n_right n) (n_left n) (n_parent n) (Some k) (n_value n).
Definition set_value v n := RbNode (n_color n) (n_right n) (n_left n) (n_parent n) (n_key n) (Some v).

(** [p->f] *)
Definition rd {A} (p : loc) (f : rbtree_node → option A) : rprog A := λ w,
  if N.eqb p NULL then Err NullDeref else
  match t_heap (w_eng w) !! p with
  | None => Err UseAfterFree
  | Some n => match f n with None => Err UninitRead | Some a => Ok (a, w) end
  end.

Definition with_heap (h : gmap loc rbtree_node) (t : rbtree) : rbtree :=
  Rbtree (t_root t) (t_nil t) (t_count t) h.

(** [p->f = v] for the field update [g] *)
Definition wr (p : loc) (g : rbtree_node → rbtree_node) : rprog unit := λ w,
  if N.eqb p NULL then Err NullDeref else
  match t_heap (w_eng w) !! p with
  | None => Err UseAfterFree
  | Some n => Ok (tt, World (with_heap (<[p := g n]> (t_heap (w_eng w))) (w_eng w)) (w_al w))
  end.

Definition get_root : rprog loc := t ← get_eng; mret (t_root t).
Definition get_nil : rprog loc := t ← get_eng; mret (t_nil t).
Definition set_root (p : loc) : rprog unit :=
  t ← get_eng; put_eng (Rbtree p (t_nil t) (t_count t) (t_heap t)).
Definition set_count (n : Z) : rprog unit :=
  t ← get_eng; put_eng (Rbtree (t_root t) (t_nil t) n (t_heap t)).

(** [p->key] as a string for [strcmp]. *)
Definition rd_key (p : loc) : rprog cstr :=
  k ← rd p n_key;
  match k with VStr s => mret s | VNull => stop NullDeref | VFreed => stop UseAfterFree end.

(** Fields of a block [malloc] just handed out. *)
Definition blank (zero : bool) : rbtree_node :=
  if zero then RbNode (Some 0) (Some NULL) (Some NULL) (Some NULL) (Some VNull) (Some VNull)
  else RbNode None None None None None None.

(** [malloc(sizeof(rbtree_node))]: the address or NULL. *)
Definition malloc_node : rprog loc := λ w,
  match kvstore_malloc w with
  | Ok (Some z, w') =>
      let p := N.of_nat (S (al_calls (w_al w))) in
      Ok (p, World (with_heap (<[p := blank z]> (t_heap (w_eng w'))) (w_eng w')) (w_al w'))
  | Ok (None, w') => Ok (NULL, w')
  | Err e => Err e
  end.

(** [kvstore_free(node)] *)
Definition free_node (p : loc) : rprog unit :=
  if N.eqb p NULL then mret tt else
  t ← get_eng;
  match t_heap t !! p with
  | None => stop UseAfterFree
  | Some _ => _ ← put_eng (with_heap (delete p (t_heap t)) t); kvstore_free
  end.

(** The bound of every loop. *)
Definition fuel_of (t : rbtree) : nat := S (S (size (t_heap t))).

(** ** Minimum, maximum, successor *)

(** [while (x->left != T->nil) x = x->left;] and its mirror image *)
Fixpoint descend (side : rbtree_node → option loc) (fuel : nat) (x : loc) : rprog loc :=
  match fuel with
  | O => stop OutOfFuel
  | S fuel' =>
      c ← rd x side;
      nil ← get_nil;
      if N.eqb c nil then mret x else descend side fuel' c
  end.

(* src/kv_store/kvstore_rbtree.c rbtree_mini *)
Definition rbtree_mini (x : loc) : rprog loc :=
  t ← get_eng; descend n_left (fuel_of t) x.

(* src/kv_store/kvstore_rbtree.c rbtree_maxi *)
Definition rbtree_maxi (x : loc) : rprog loc :=
  t ← get_eng; descend n_right (fuel_of t) x.

(** [while ((y != T->nil) && (x == y->right)) { x = y; y = y->parent; } return y;] *)
Fixpoint climb (fuel : nat) (x y : loc) : rprog loc :=
  match fuel with
  | O => stop OutOfFuel
  | S fuel' =>
      nil ← get_nil;
      if N.eqb y nil then mret y else
      r ← rd y n_right;
      if N.eqb x r then p ← rd y n_parent; climb fuel' y p else mret y
  end.

(* src/kv_store/kvstore_rbtree.c rbtree_successor *)
Definition rbtree_successor (x : loc) : rprog loc :=
  y ← rd x n_parent;
  r ← rd x n_right;
  nil ← get_nil;
  if N.eqb r nil then t ← get_eng; climb (fuel_of t) x y else rbtree_mini r.

(** ** Rotations *)

(* src/kv_store/kvstore_rbtree.c rbtree_left_rotate *)
Definition rbtree_left_rotate (x : loc) : rprog unit :=
  nil ← get_nil;
  y ← rd x n_right;
  yl ← rd y n_left;
  _ ← wr x (set_right yl);
  _ ← (if N.eqb yl nil then mret tt else wr yl (set_parent x));
  p ← rd x n_parent;
  _ ← wr y (set_parent p);
  _ ← (if N.eqb p nil then set_root y else
       pl ← rd p n_left;
       if N.eqb x pl then wr p (set_left y) else wr p (set_right y));
  _ ← wr y (set_left x);
  wr x (set_parent y).

(* src/kv_store/kvstore_rbtree.c rbtree_right_rotate *)
Definition rbtree_right_rotate (y : loc) : rprog unit :=
  nil ← get_nil;
  x ← rd y n_left;
  xr ← rd x n_right;
  _ ← wr y (set_left xr);
  _ ← (if N.eqb xr nil then mret tt else wr xr (set_parent y));
  p ← rd y n_parent;
  _ ← wr x (set_parent p);
  _ ← (if N.eqb p nil then set_root x else
       pr ← rd p n_right;
       if N.eqb y pr then wr p (set_right x) else wr p (set_left x));
  _ ← wr x (set_right y);
  wr y (set_parent x).

(** ** Insertion *)

(* src/kv_store/kvstore_rbtree.c:124-141 rbtree_insert_fixup *)
(** The body of the loop when the parent [p] is the left child of [g]: the
    node to go on from. *)
Definition insert_fix_left (z p g : loc) : rprog loc :=
  y ← rd g n_right;
  yc ← rd y n_color;
  if yc =? RED then
    _ ← wr p (set_color BLACK);
    _ ← wr y (set_color BLACK);
    _ ← wr g (set_color RED);
    mret g
  else
    pr ← rd p n_right;
    z ← (if N.eqb z pr then _ ← rbtree_left_rotate p; mret p else mret z);
    p ← rd z n_parent;
    _ ← wr p (set_color BLACK);
    g ← rd p n_parent;
    _ ← wr g (set_color RED);
    _ ← rbtree_right_rotate g;
    mret z.

(* src/kv_store/kvstore_rbtree.c:143-159 rbtree_insert_fixup *)
Definition insert_fix_right (z p g : loc) : rprog loc :=
  y ← rd g n_left;
  yc ← rd y n_color;
  if yc =? RED then
    _ ← wr p (set_color BLACK);
    _ ← wr y (set_color BLACK);
    _ ← wr g (set_color RED);
    mret g
  else
    pl ← rd p n_left;
    z ← (if N.eqb z pl then _ ← rbtree_right_rotate p; mret p else mret z);
    p ← rd z n_parent;
    _ ← wr p (set_color BLACK);
    g ← rd p n_parent;
    _ ← wr g (set_color RED);
    _ ← rbtree_left_rotate g;
    mret z.

Fixpoint insert_fixup_loop (fuel : nat) (z : loc) : rprog unit :=
  match fuel with
  | O => stop OutOfFuel
  | S fuel' =>
      p ← rd z n_parent;
      pc ← rd p n_color;
      if pc =? RED then
        g ← rd p n_parent;
        gl ← rd g n_left;
        z ← (if N.eqb p gl then insert_fix_left z p g else insert_fix_right z p g);
        insert_fixup_loop fuel' z
      else mret tt
  end.

(* src/kv_store/kvstore_rbtree.c rbtree_insert_fixup *)
Definition rbtree_insert_fixup (z : loc) : rprog unit :=
  t ← get_eng;
  _ ← insert_fixup_loop (fuel_of t) z;
  r ← get_root;
  wr r (set_color BLACK).

(** The search for the place of [z]: [None] when its key is there already,
    otherwise the last node passed. *)
Fixpoint insert_place (fuel : nat) (z y x : loc) : rprog (option loc) :=
  match fuel with
  | O => stop OutOfFuel
  | S fuel' =>
      nil ← get_nil;
      if N.eqb x nil then mret (Some y) else
      zk ← rd_key z;
      xk ← rd_key x;
      if strcmp zk xk <? 0 then l ← rd x n_left; insert_place fuel' z x l
      else if 0 <? strcmp zk xk then r ← rd x n_right; insert_place fuel' z x r
      else mret None
  end.

(* src/kv_store/kvstore_rbtree.c:198-208 rbtree_insert *)
(** Hang [z] below [y]. *)
Definition link (z y nil : loc) : rprog unit :=
  if N.eqb y nil then set_root z else
  zk ← rd_key z;
  yk ← rd_key y;
  if strcmp zk yk <? 0 then wr y (set_left z) else wr y (set_right z).

(* src/kv_store/kvstore_rbtree.c:197-212 rbtree_insert *)
Definition join (z y nil : loc) : rprog unit :=
  _ ← wr z (set_parent y);
  _ ← link z y nil;
  _ ← wr z (set_left nil);
  _ ← wr z (set_right nil);
  wr z (set_color RED).

(* src/kv_store/kvstore_rbtree.c rbtree_insert *)
Definition rbtree_insert (z : loc) : rprog unit :=
  t ← get_eng;
  place ← insert_place (fuel_of t) z (t_nil t) (t_root t);
  match place with
  | None => mret tt
  | Some y => _ ← join z y (t_nil t); rbtree_insert_fixup z
  end.

(** ** Deletion *)

(** [(w->left->color == BLACK) && (w->right->color == BLACK)] *)
Definition both_black (w : loc) : rprog bool :=
  l ← rd w n_left;
  lc ← rd l n_color;
  if lc =? BLACK then
    r ← rd w n_right;
    rc ← rd r n_color;
    mret (rc =? BLACK)
  else mret false.

(* src/kv_store/kvstore_rbtree.c:222-248 rbtree_delete_fixup *)
(** The body of the loop when [x] is the left child of [p]: the node to go on
    from. *)
Definition delete_fix_left (x p : loc) : rprog loc :=
  w ← rd p n_right;
  wc ← rd w n_color;
  w ← (if wc =? RED then
         _ ← wr w (set_color BLACK);
         _ ← wr p (set_color RED);
         _ ← rbtree_left_rotate p;
         p' ← rd x n_parent;
         rd p' n_right
       else mret w);
  both ← both_black w;
  if both : bool then
    _ ← wr w (set_color RED);
    rd x n_parent
  else
    far ← rd w n_right;
    fc ← rd far n_color;
    w ← (if fc =? BLACK then
           near ← rd w n_left;
           _ ← wr near (set_color BLACK);
           _ ← wr w (set_color RED);
           _ ← rbtree_right_rotate w;
           p' ← rd x n_parent;
           rd p' n_right
         else mret w);
    p ← rd x n_parent;
    pc ← rd p n_color;
    _ ← wr w (set_color pc);
    _ ← wr p (set_color BLACK);
    far ← rd w n_right;
    _ ← wr far (set_color BLACK);
    _ ← rbtree_left_rotate p;
    get_root.

(* src/kv_store/kvstore_rbtree.c:252-278 rbtree_delete_fixup *)
Definition delete_fix_right (x p : loc) : rprog loc :=
  w ← rd p n_left;
  wc ← rd w n_color;
  w ← (if wc =? RED then
         _ ← wr w (set_color BLACK);
         _ ← wr p (set_color RED);
         _ ← rbtree_right_rotate p;
         p' ← rd x n_parent;
         rd p' n_left
       else mret w);
  both ← both_black w;
  if both : bool then
    _ ← wr w (set_color RED);
    rd x n_parent
  else
    far ← rd w n_left;
    fc ← rd far n_color;
    w ← (if fc =? BLACK then
           near ← rd w n_right;
           _ ← wr near (set_color BLACK);
           _ ← wr w (set_color RED);
           _ ← rbtree_left_rotate w;
           p' ← rd x n_parent;
           rd p' n_left
         else mret w);
    p ← rd x n_parent;
    pc ← rd p n_color;
    _ ← wr w (set_color pc);
    _ ← wr p (set_color BLACK);
    far ← rd w n_left;
    _ ← wr far (set_color BLACK);
    _ ← rbtree_right_rotate p;
    get_root.

Fixpoint delete_fixup_loop (fuel : nat) (x : loc) : rprog loc :=
  match fuel with
  | O => stop OutOfFuel
  | S fuel' =>
      r ← get_root;
      if N.eqb x r then mret x else
      xc ← rd x n_color;
      if xc =? BLACK then
        p ← rd x n_parent;
        pl ← rd p n_left;
        x ← (if N.eqb x pl then delete_fix_left x p else delete_fix_right x p);
        delete_fixup_loop fuel' x
      else mret x
  end.

(* src/kv_store/kvstore_rbtree.c rbtree_delete_fixup *)
Definition rbtree_delete_fixup (x : loc) : rprog unit :=
  t ← get_eng;
  x ← delete_fixup_loop (fuel_of t) x;
  wr x (set_color BLACK).

(* src/kv_store/kvstore_rbtree.c:300-304 rbtree_delete *)
(** The child of a node that has at most one. *)
Definition sole_child (y nil : loc) : rprog loc :=
  yl ← rd y n_left;
  if N.eqb yl nil then
    yr ← rd y n_right;
    mret (if N.eqb yr nil then nil else yr)
  else mret yl.

(* src/kv_store/kvstore_rbtree.c:300-313 rbtree_delete *)
(** Take [y], which has at most one child, out of the tree: the child put in
    its place. *)
Definition unlink (y nil : loc) : rprog loc :=
  x ← sole_child y nil;
  p ← rd y n_parent;
  _ ← wr x (set_parent p);
  _ ← (if N.eqb p nil then set_root x else
       pl ← rd p n_left;
       if N.eqb y pl then wr p (set_left x) else wr p (set_right x));
  mret x.

(* src/kv_store/kvstore_rbtree.c:294-298 rbtree_delete *)
(** The node that will leave the tree in place of [z]. *)
Definition leaver (z nil : loc) : rprog loc :=
  zl ← rd z n_left;
  if N.eqb zl nil then mret z else
  zr ← rd z n_right;
  if N.eqb zr nil then mret z else rbtree_successor z.

(* src/kv_store/kvstore_rbtree.c:315-325 rbtree_delete *)
(** Exchange the contents of [z] and [y]. *)
Definition swap_contents (z y : loc) : rprog unit :=
  tmp ← rd z n_key;
  yk ← rd y n_key;
  _ ← wr z (set_key yk);
  _ ← wr y (set_key tmp);
  tmp ← rd z n_value;
  yv ← rd y n_value;
  _ ← wr z (set_value yv);
  wr y (set_value tmp).

(* src/kv_store/kvstore_rbtree.c rbtree_delete *)
Definition rbtree_delete (z : loc) : rprog loc :=
  nil ← get_nil;
  y ← leaver z nil;
  x ← unlink y nil;
  _ ← (if N.eqb y z then mret tt else swap_contents z y);
  yc ← rd y n_color;
  _ ← (if yc =? BLACK then rbtree_delete_fixup x else mret tt);
  mret y.

(** ** Search and traversal *)

(** [k] is the pointer passed in: [strcmp] faults on NULL. *)
Fixpoint search_loop (fuel : nat) (k : option cstr) (node : loc) : rprog loc :=
  match fuel with
  | O => stop OutOfFuel
  | S fuel' =>
      nil ← get_nil;
      if N.eqb node nil then mret nil else
      nk ← rd_key node;
      match k with
      | None => stop NullDeref
      | Some k' =>
      if strcmp k' nk <? 0 then l ← rd node n_left; search_loop fuel' k l
      else if 0 <? strcmp k' nk then r ← rd node n_right; search_loop fuel' k r
      else mret node
      end
  end.

(* src/kv_store/kvstore_rbtree.c rbtree_search *)
Definition rbtree_search (k : option cstr) : rprog loc :=
  t ← get_eng; search_loop (fuel_of t) k (t_root t).

(* src/kv_store/kvstore_rbtree.c rbtree_traversal *)
(** The lines it prints: keys and colours. *)
Fixpoint rbtree_traversal (fuel : nat) (node : loc) : rprog (list (cstr * Z)) :=
  match fuel with
  | O => stop OutOfFuel
  | S fuel' =>
      nil ← get_nil;
      if N.eqb node nil then mret [] else
      l ← rd node n_left;
      before ← rbtree_traversal fuel' l;
      k ← rd_key node;
      c ← rd node n_color;
      r ← rd node n_right;
      after ← rbtree_traversal fuel' r;
      mret (before ++ (k, c) :: after)
  end.

(** ** The engine interface *)

Abbreviation handle := (option unit).

(* src/kv_store/kvstore_rbtree.c kvstore_rbtree_create *)
(** The results of [malloc] are not checked. *)
Definition kvstore_rbtree_create (tree : handle) : rprog Z :=
  if null tree then mret (-1) else
  t ← get_eng;
  _ ← put_eng (Rbtree NULL NULL 0 (t_heap t));
  n ← malloc_node;
  t ← get_eng;
  _ ← put_eng (Rbtree (t_root t) n (t_count t) (t_heap t));
  p ← kvstore_malloc;
  _ ← wr n (set_key (if null p then VNull else VStr []));
  _ ← (if null p then stop NullDeref else mret tt);
  _ ← wr n (set_color BLACK);
  _ ← set_root n;
  mret 0.

(** The frees guarded by [if (!cur)]: reached with a NULL pointer only. *)
Definition free_if_null (cur : loc) : rprog unit :=
  if N.eqb cur NULL then
    k ← rd cur n_key; _ ← free_vptr k;
    v ← rd cur n_value; _ ← free_vptr v;
    free_node cur
  else mret tt.

Fixpoint destroy_loop (fuel : nat) (node : loc) : rprog unit :=
  match fuel with
  | O => stop OutOfFuel
  | S fuel' =>
      nil ← get_nil;
      if N.eqb node nil then mret tt else
      r ← get_root;
      node ← rbtree_mini r;
      if N.eqb node nil then mret tt else
      node ← rbtree_delete node;
      _ ← free_if_null node;
      destroy_loop fuel' node
  end.

(* src/kv_store/kvstore_rbtree.c kvstore_rbtree_destory *)
Definition kvstore_rbtree_destory (tree : handle) : rprog unit :=
  if null tree then mret tt else
  nil ← get_nil;
  k ← rd nil n_key;
  _ ← (match k with
       | VNull => mret tt
       | _ => _ ← free_vptr k; wr nil (set_key VFreed)
       end);
  t ← get_eng;
  destroy_loop (fuel_of t) (t_root t).

(* src/kv_store/kvstore_rbtree.c kvs_rbtree_set *)
Definition kvs_rbtree_set (tree : handle) (k v : option cstr) : rprog Z :=
  node ← malloc_node;
  if N.eqb node NULL then mret (-1) else
  match k with
  | None => stop NullDeref
  | Some k =>
      p ← kvstore_malloc;
      _ ← wr node (set_key (if null p then VNull else VStr k));
      if null p then _ ← free_node node; mret (-1) else
      match v with
      | None => stop NullDeref
      | Some v =>
          p ← kvstore_malloc;
          _ ← wr node (set_value (if null p then VNull else VStr v));
          if null p then
            nk ← rd node n_key;
            _ ← free_vptr nk;
            _ ← free_node node;
            mret (-1)
          else if null tree then stop NullDeref else
            _ ← rbtree_insert node;
            t ← get_eng;
            _ ← set_count (i32 (t_count t + 1));
            mret 0
      end
  end.

(* src/kv_store/kvstore_rbtree.c kvs_rbtree_get *)
Definition kvs_rbtree_get (tree : handle) (k : option cstr) : rprog vptr :=
  match tree with
  | Some _ =>
      node ← rbtree_search k;
      nil ← get_nil;
      if N.eqb node nil then mret VNull else rd node n_value
  | None => stop NullDeref
  end.

(* src/kv_store/kvstore_rbtree.c kvs_rbtree_delete *)
Definition kvs_rbtree_delete (tree : handle) (k : option cstr) : rprog Z :=
  match tree with
  | Some _ =>
      node ← rbtree_search k;
      nil ← get_nil;
      if N.eqb node nil then mret (-1) else
      cur ← rbtree_delete node;
      _ ← free_if_null cur;
      t ← get_eng;
      _ ← set_count (i32 (t_count t - 1));
      mret 0
  | None => stop NullDeref
  end.

(* src/kv_store/kvstore_rbtree.c kvs_rbtree_modify *)
Definition kvs_rbtree_modify (tree : handle) (k v : option cstr) : rprog Z :=
  match tree with
  | Some _ =>
      node ← rbtree_search k;
      nil ← get_nil;
      if N.eqb node nil then mret (-1) else
      tmp ← rd node n_value;
      _ ← free_vptr tmp;
      match v with
      | None => stop NullDeref
      | Some v =>
          p ← kvstore_malloc;
          _ ← wr node (set_value (if null p then VNull else VStr v));
          mret (if null p then -1 else 0)
      end
  | None => stop NullDeref
  end.

(* src/kv_store/kvstore_rbtree.c kvs_rbtree_count *)
Definition kvs_rbtree_count (tree : handle) : rprog Z :=
  match tree with
  | Some _ => t ← get_eng; mret (t_count t)
  | None => stop NullDeref
  end.
