(* ===== verification/RbtreeZip.v ===== *)
(** * The red-black tree engine: trees in the heap

    A node of the tree together with the path from the root to it is a zipper:
    [zrep s ctx t] says that the heap of [s] holds the tree obtained by putting
    [t] into the context [ctx], parent pointers included.  Recolouring, reading
    and rotating are specified at the focus; moving the focus costs nothing.
    The left and right variants of the code are instances of one definition
    with a direction. *)

From S2P Require Import Prelude CRuntime Rbtree RbShape.

(** ** Directions *)

Definition child (d : dir) : rbtree_node → option loc := match d with L => n_left | R => n_right end.
Definition set_child (d : dir) : loc → rbtree_node → rbtree_node :=
  match d with L => set_left | R => set_right end.

(** Make [q] the child of [p] that [x] was, or the root. *)
Definition relink (nil : loc) (d : dir) (p x q : loc) : rprog unit :=
  if N.eqb p nil then set_root q else
  c ← rd p (child d);
  if N.eqb x c then wr p (set_child d q) else wr p (set_child (opp d) q).

Definition rotate (d : dir) (x : loc) : rprog unit :=
  nil ← get_nil;
  y ← rd x (child (opp d));
  b ← rd y (child d);
  _ ← wr x (set_child (opp d) b);
  _ ← (if N.eqb b nil then mret tt else wr b (set_parent x));
  p ← rd x n_parent;
  _ ← wr y (set_parent p);
  _ ← relink nil d p x y;
  _ ← wr y (set_child d x);
  wr x (set_parent y).

Lemma left_rotate_dir x : rbtree_left_rotate x = rotate L x.
Proof. reflexivity. Qed.
Lemma right_rotate_dir x : rbtree_right_rotate x = rotate R x.
Proof. reflexivity. Qed.

(** ** Trees and contexts *)

Definition cz (c : col) : Z := match c with Red => RED | Black => BLACK end.

Lemma cz_red c : (cz c =? RED) = is_red c.
Proof. by destruct c. Qed.
Lemma cz_black c : (cz c =? BLACK) = negb (is_red c).
Proof. by destruct c. Qed.

Record ent := Ent { e_loc : loc; e_key : cstr; e_val : vptr }.

Abbreviation tree := (RbShape.tree ent).
Abbreviation frame := (RbShape.frame ent).

Fixpoint locs (t : tree) : list loc :=
  match t with Leaf => [] | T _ l e r => e_loc e :: locs l ++ locs r end.

Fixpoint clocs (ctx : list frame) : list loc :=
  match ctx with [] => [] | f :: ctx' => e_loc (f_ent f) :: locs (f_sib f) ++ clocs ctx' end.

(** ** In the heap *)

Definition node_of (c : col) (p : loc) (e : ent) (l r : loc) : rbtree_node :=
  RbNode (Some (cz c)) (Some r) (Some l) (Some p) (Some (VStr (e_key e))) (Some (e_val e)).

Definition dnode (d : dir) (c : col) (p : loc) (e : ent) (a b : loc) : rbtree_node :=
  match d with L => node_of c p e a b | R => node_of c p e b a end.

Definition ptr (nil : loc) (t : tree) : loc := match t with Leaf => nil | T _ _ e _ => e_loc e end.
Definition cptr (nil : loc) (ctx : list frame) : loc :=
  match ctx with [] => nil | f :: _ => e_loc (f_ent f) end.

Section rep.
Variables (h : gmap loc rbtree_node) (nil : loc).

(** The tree [t], its root having the parent [p]. *)
Fixpoint trep (p : loc) (t : tree) : Prop :=
  match t with
  | Leaf => True
  | T c l e r => h !! e_loc e = Some (node_of c p e (ptr nil l) (ptr nil r)) ∧
                 trep (e_loc e) l ∧ trep (e_loc e) r
  end.

(** The context, with [q] in its hole. *)
Fixpoint crep (root : loc) (ctx : list frame) (q : loc) : Prop :=
  match ctx with
  | [] => root = q
  | Fr d c e sib :: ctx' =>
      h !! e_loc e = Some (dnode d c (cptr nil ctx') e q (ptr nil sib)) ∧
      trep (e_loc e) sib ∧ crep root ctx' (e_loc e)
  end.

Lemma trep_mk p d c e a b :
  trep p (mk d c e a b) ↔
  h !! e_loc e = Some (dnode d c p e (ptr nil a) (ptr nil b)) ∧ trep (e_loc e) a ∧ trep (e_loc e) b.
Proof. destruct d; simpl; tauto. Qed.
End rep.

Lemma trep_ext h h' nil p t :
  (∀ z, z ∈ locs t → h' !! z = h !! z) → trep h nil p t → trep h' nil p t.
Proof.
  revert p. induction t as [|c l IHl e r IHr]; intros p Hx; simpl; [done|].
  intros (H1 & H2 & H3). simpl in Hx. split_and!.
  - rewrite Hx by set_solver. done.
  - apply IHl; [|done]. intros z Hz. apply Hx. set_solver.
  - apply IHr; [|done]. intros z Hz. apply Hx. set_solver.
Qed.

Lemma crep_ext h h' nil root ctx q :
  (∀ z, z ∈ clocs ctx → h' !! z = h !! z) → crep h nil root ctx q → crep h' nil root ctx q.
Proof.
  revert q. induction ctx as [|[d c e sib] ctx IH]; intros q Hx; simpl; [done|].
  intros (H1 & H2 & H3). simpl in Hx. split_and!.
  - rewrite Hx by set_solver. done.
  - eapply trep_ext; [|done]. intros z Hz. apply Hx. set_solver.
  - apply IH; [|done]. intros z Hz. apply Hx. set_solver.
Qed.

Lemma locs_mk d c e a b : locs (mk d c e a b) ≡ₚ e_loc e :: locs a ++ locs b.
Proof. destruct d; simpl; [done|]. by rewrite (Permutation_app_comm (locs b)). Qed.

Lemma ptr_mk nil d c e a b : ptr nil (mk d c e a b) = e_loc e.
Proof. by destruct d. Qed.

(** A subtree's pointer is the sentinel or one of its nodes. *)
Lemma ptr_cases nil t : (t = Leaf ∧ ptr nil t = nil) ∨ ptr nil t ∈ locs t.
Proof. destruct t; simpl; [by left|right]. set_solver. Qed.

(** ** The state at a focus *)

Record zrep (s : rbtree) (ctx : list frame) (t : tree) : Prop := {
  z_ctx : crep (t_heap s) (t_nil s) (t_root s) ctx (ptr (t_nil s) t);
  z_tree : trep (t_heap s) (t_nil s) (cptr (t_nil s) ctx) t;
  z_nodup : NoDup (t_nil s :: clocs ctx ++ locs t);
  z_null : NULL ∉ t_nil s :: clocs ctx ++ locs t;
  z_nil : ∃ n, t_heap s !! t_nil s = Some n ∧ n_color n = Some BLACK;
}.

(** [s'] differs from [s] at most in the nodes [ls] and the root. *)
Definition framed (ls : list loc) (s s' : rbtree) : Prop :=
  t_nil s' = t_nil s ∧ t_count s' = t_count s ∧ dom (t_heap s') = dom (t_heap s) ∧
  ∀ z, z ∉ ls → t_heap s' !! z = t_heap s !! z.

Lemma framed_refl ls s : framed ls s s.
Proof. done. Qed.

Lemma framed_trans ls1 ls2 s1 s2 s3 :
  framed ls1 s1 s2 → framed ls2 s2 s3 → framed (ls1 ++ ls2) s1 s3.
Proof.
  intros (A1 & A2 & A3 & A4) (B1 & B2 & B3 & B4). unfold framed.
  rewrite B1, B2, B3. split_and!; try done.
  intros z Hz. rewrite B4, A4; set_solver.
Qed.

Lemma framed_mono ls ls' s s' : (∀ z, z ∈ ls → z ∈ ls') → framed ls s s' → framed ls' s s'.
Proof. intros H (A1 & A2 & A3 & A4). split_and!; try done. intros z Hz. apply A4. auto. Qed.

Lemma framed_fuel ls s s' : framed ls s s' → fuel_of s' = fuel_of s.
Proof. intros (_ & _ & Hd & _). unfold fuel_of. do 2 f_equal. by rewrite <- !size_dom, Hd. Qed.

Lemma zrep_up s d c e sib ctx t :
  zrep s (Fr d c e sib :: ctx) t ↔ zrep s ctx (mk d c e t sib).
Proof.
  assert (clocs (Fr d c e sib :: ctx) ++ locs t ≡ₚ clocs ctx ++ locs (mk d c e t sib)) as Hp.
  { rewrite locs_mk. simpl. rewrite <- Permutation_middle. f_equiv. solve_Permutation. }
  split; intros [H1 H2 H3 H4 H5]; constructor; try done.
  - rewrite ptr_mk. apply H1.
  - apply trep_mk. simpl in H1. destruct H1 as (? & ? & ?). done.
  - by rewrite <- Hp.
  - by rewrite <- Hp.
  - rewrite ptr_mk in H1. apply trep_mk in H2 as (? & ? & ?). done.
  - apply trep_mk in H2 as (? & ? & ?). done.
  - by rewrite Hp.
  - by rewrite Hp.
Qed.

Lemma zrep_out s d c e sib ctx t :
  zrep s (Fr d c e sib :: ctx) t → zrep s ctx (mk d c e t sib).
Proof. apply zrep_up. Qed.
Lemma zrep_in s d c e sib ctx t :
  zrep s ctx (mk d c e t sib) → zrep s (Fr d c e sib :: ctx) t.
Proof. apply zrep_up. Qed.

Lemma zrep_plug s ctx1 ctx2 t : zrep s (ctx1 ++ ctx2) t ↔ zrep s ctx2 (plug ctx1 t).
Proof.
  revert t. induction ctx1 as [|[d c e sib] ctx1 IH]; intros t; [done|].
  cbn [app]. rewrite zrep_up, IH. done.
Qed.

(** ** Reads and writes *)

Lemma rd_run {A} s a p n (f : rbtree_node → option A) v :
  p ≠ NULL → t_heap s !! p = Some n → f n = Some v → rd p f (World s a) = Ok (v, World s a).
Proof.
  intros Hp Hn Hf. unfold rd. cbn [w_eng]. rewrite (proj2 (N.eqb_neq p NULL)) by done.
  by rewrite Hn, Hf.
Qed.

(** The state after a write. *)
Definition wrote (p : loc) (n : rbtree_node) (s : rbtree) : rbtree :=
  with_heap (<[p := n]> (t_heap s)) s.

Lemma wr_run s a p n g :
  p ≠ NULL → t_heap s !! p = Some n → wr p g (World s a) = Ok (tt, World (wrote p (g n) s) a).
Proof.
  intros Hp Hn. unfold wr. cbn [w_eng]. rewrite (proj2 (N.eqb_neq p NULL)) by done. by rewrite Hn.
Qed.

Lemma wrote_framed p n s : is_Some (t_heap s !! p) → framed [p] s (wrote p n s).
Proof.
  intros [m Hm]. unfold framed, wrote, with_heap. cbn. split_and!; try done.
  - rewrite dom_insert_L. apply elem_of_dom_2 in Hm. set_solver.
  - intros z Hz. rewrite lookup_insert_ne; [done|]. set_solver.
Qed.

Lemma get_nil_run s a : get_nil (World s a) = Ok (t_nil s, World s a).
Proof. done. Qed.
Lemma get_root_run s a : get_root (World s a) = Ok (t_root s, World s a).
Proof. done. Qed.
Lemma set_root_run p s a :
  set_root p (World s a) = Ok (tt, World (Rbtree p (t_nil s) (t_count s) (t_heap s)) a).
Proof. done. Qed.
#[export] Hint Rewrite get_nil_run get_root_run set_root_run : ga_run.

Lemma eqb_refl' p : N.eqb p p = true.
Proof. apply N.eqb_refl. Qed.
Lemma eqb_ne p q : p ≠ q → N.eqb p q = false.
Proof. apply N.eqb_neq. Qed.

(** Fields of a node of the tree. *)
Lemma child_dnode d c p e a b : child d (dnode d c p e a b) = Some a.
Proof. by destruct d. Qed.
Lemma child_opp_dnode d c p e a b : child (opp d) (dnode d c p e a b) = Some b.
Proof. by destruct d. Qed.
Lemma parent_dnode d c p e a b : n_parent (dnode d c p e a b) = Some p.
Proof. by destruct d. Qed.
Lemma color_dnode d c p e a b : n_color (dnode d c p e a b) = Some (cz c).
Proof. by destruct d. Qed.
Lemma set_child_dnode d c p e a b q : set_child d q (dnode d c p e a b) = dnode d c p e q b.
Proof. by destruct d. Qed.
Lemma set_child_opp_dnode d c p e a b q : set_child (opp d) q (dnode d c p e a b) = dnode d c p e a q.
Proof. by destruct d. Qed.
Lemma set_parent_dnode d c p e a b q : set_parent q (dnode d c p e a b) = dnode d c q e a b.
Proof. by destruct d. Qed.
Lemma dnode_opp d c p e a b : dnode (opp d) c p e a b = dnode d c p e b a.
Proof. by destruct d. Qed.

Lemma wrote_eq p n s : t_heap (wrote p n s) !! p = Some n.
Proof. apply lookup_insert_eq. Qed.
Lemma wrote_ne p n s z : z ≠ p → t_heap (wrote p n s) !! z = t_heap s !! z.
Proof. intros. by apply lookup_insert_ne. Qed.
Lemma framed_ne ls s s' z : framed ls s s' → z ∉ ls → t_heap s' !! z = t_heap s !! z.
Proof. intros (_ & _ & _ & H). apply H. Qed.

(** ** Relinking the parent of the focus *)

(** Writing the child pointer of the last frame fills the hole. *)
Lemma attach_run s a d c e sib ctx q q' :
  crep (t_heap s) (t_nil s) (t_root s) (Fr d c e sib :: ctx) q →
  NoDup (clocs (Fr d c e sib :: ctx)) → e_loc e ≠ NULL →
  ∃ s', wr (e_loc e) (set_child d q') (World s a) = Ok (tt, World s' a) ∧
    crep (t_heap s') (t_nil s') (t_root s') (Fr d c e sib :: ctx) q' ∧ framed [e_loc e] s s'.
Proof.
  cbn [crep clocs f_ent f_sib]. intros (H1 & H2 & H3) [Hn Hnd]%NoDup_cons Hen.
  rewrite (wr_run _ _ _ _ _ Hen H1), set_child_dnode. eexists. split; [reflexivity|].
  split; [|apply wrote_framed; by eexists]. split_and!; [apply wrote_eq|..].
  - eapply trep_ext; [|done]. intros z Hz. apply wrote_ne. set_solver.
  - eapply crep_ext; [|done]. intros z Hz. apply wrote_ne. set_solver.
Qed.

Lemma relink_run s a ctx d x q :
  crep (t_heap s) (t_nil s) (t_root s) ctx x → NoDup (t_nil s :: x :: clocs ctx) →
  NULL ∉ clocs ctx →
  ∃ s', relink (t_nil s) d (cptr (t_nil s) ctx) x q (World s a) = Ok (tt, World s' a) ∧
    crep (t_heap s') (t_nil s') (t_root s') ctx q ∧ framed (clocs ctx) s s'.
Proof.
  intros Hc Hnd Hnull. unfold relink. destruct ctx as [|[d' c e sib] ctx]; cbn [cptr f_ent].
  { rewrite eqb_refl'. run. eexists. split; [reflexivity|]. done. }
  apply NoDup_cons in Hnd as [Hn1 Hnd]. apply NoDup_cons in Hnd as [Hn2 Hnd].
  cbn [clocs f_ent f_sib] in Hn1, Hn2, Hnull.
  assert (e_loc e ≠ NULL) as Hen by (intros E; apply Hnull; rewrite <- E; set_solver).
  destruct (attach_run s a d' c e sib ctx x q Hc Hnd Hen) as (s' & Hrun & Hc' & Hf).
  rewrite eqb_ne by set_solver. cbn [crep] in Hc. destruct Hc as (H1 & _).
  assert (∃ c0, child d (dnode d' c (cptr (t_nil s) ctx) e x (ptr (t_nil s) sib)) = Some c0 ∧
    N.eqb x c0 = bool_decide (d' = d)) as (c0 & Hc0 & Heq).
  { destruct (decide (d' = d)) as [->|Hd].
    - exists x. by rewrite child_dnode, bool_decide_eq_true_2, eqb_refl'.
    - exists (ptr (t_nil s) sib). rewrite bool_decide_eq_false_2, eqb_ne by
        (done || (destruct (ptr_cases (t_nil s) sib) as [[_ ->]|Hin]; set_solver)).
      split; [|done]. by destruct d, d'. }
  run. rewrite (rd_run _ _ _ _ _ _ Hen H1 Hc0). run. rewrite Heq. exists s'. split_and!.
  - rewrite <- Hrun. case_bool_decide as Hd; [by rewrite Hd|].
    assert (opp d = d') as -> by (by destruct d, d'). done.
  - done.
  - eapply framed_mono; [|done]. cbn [clocs f_ent]. set_solver.
Qed.

(** A new parent for a subtree that is not empty. *)
Lemma reparent_run s a p q t :
  trep (t_heap s) (t_nil s) p t → NoDup (locs t) → t_nil s ∉ locs t → NULL ∉ locs t →
  ∃ s', (if N.eqb (ptr (t_nil s) t) (t_nil s) then mret tt else wr (ptr (t_nil s) t) (set_parent q))
          (World s a) = Ok (tt, World s' a) ∧
    trep (t_heap s') (t_nil s') q t ∧ framed (locs t) s s' ∧ t_root s' = t_root s.
Proof.
  intros Ht Hnd Hnil Hnull. destruct t as [|c l e r]; cbn [ptr].
  { rewrite eqb_refl'. by exists s. }
  cbn [trep locs] in *. destruct Ht as (H1 & H2 & H3).
  rewrite eqb_ne by set_solver. apply NoDup_cons in Hnd as [Hx Hnd].
  assert (e_loc e ≠ NULL) as Hen by (intros E; apply Hnull; rewrite <- E; set_solver).
  erewrite wr_run by done. eexists. split; [reflexivity|]. split_and!; [by rewrite wrote_eq|..].
  - eapply trep_ext; [|done]. intros z Hz. apply wrote_ne. set_solver.
  - eapply trep_ext; [|done]. intros z Hz. apply wrote_ne. set_solver.
  - eapply framed_mono; [|apply wrote_framed; by eexists]. set_solver.
  - done.
Qed.

(** ** Rotation at the focus *)

Lemma rotate_run s a ctx d c e x1 c' e' x2 x3 :
  zrep s ctx (mk d c e x1 (mk d c' e' x2 x3)) →
  ∃ s', rotate d (e_loc e) (World s a) = Ok (tt, World s' a) ∧
    zrep s' ctx (mk d c' e' (mk d c e x1 x2) x3) ∧
    framed (clocs ctx ++ locs (mk d c e x1 (mk d c' e' x2 x3))) s s'.
Proof.
  intros [Hc Ht Hnd Hnull Hnil]. rewrite ptr_mk in Hc.
  apply trep_mk in Ht as (Hx & H1 & Ht). apply trep_mk in Ht as (Hy & H2 & H3). rewrite ptr_mk in Hx.
  assert (clocs ctx ++ locs (mk d c e x1 (mk d c' e' x2 x3)) ≡ₚ
    e_loc e :: e_loc e' :: clocs ctx ++ locs x1 ++ locs x2 ++ locs x3) as Hp.
  { rewrite !locs_mk. solve_Permutation. }
  assert (clocs ctx ++ locs (mk d c' e' (mk d c e x1 x2) x3) ≡ₚ
    e_loc e :: e_loc e' :: clocs ctx ++ locs x1 ++ locs x2 ++ locs x3) as Hp'.
  { rewrite !locs_mk. simpl. solve_Permutation. }
  rewrite Hp in Hnd, Hnull. set (x := e_loc e) in *. set (y := e_loc e') in *.
  set (p := cptr (t_nil s) ctx) in *. set (nl := t_nil s) in *.
  assert (∀ ls, framed (x :: y :: clocs ctx ++ locs x1 ++ locs x2 ++ locs x3) s ls →
    framed (clocs ctx ++ locs (mk d c e x1 (mk d c' e' x2 x3))) s ls) as Hwide.
  { intros s'. apply framed_mono. intros z Hz. by rewrite Hp. }
  pose proof Hnd as Hnd0. rewrite !NoDup_cons, !NoDup_app in Hnd0.
  destruct Hnd0 as (N1 & N2 & N3 & N4 & N5 & N6 & N7 & N8 & N9 & N10).
  assert (x ≠ NULL ∧ y ≠ NULL) as [Hx0 Hy0].
  { split; intros E; apply Hnull; rewrite <- E; set_solver. }
  unfold rotate. run. fold nl. rewrite (rd_run _ _ _ _ _ _ Hx0 Hx (child_opp_dnode _ _ _ _ _ _)). run.
  rewrite (rd_run _ _ _ _ _ _ Hy0 Hy (child_dnode _ _ _ _ _ _)). run.
  rewrite (wr_run _ _ _ _ _ Hx0 Hx), set_child_opp_dnode. run.
  set (s1 := wrote x _ s).
  assert (framed [x] s s1) as F1 by (apply wrote_framed; by eexists).
  destruct (reparent_run s1 a y x x2) as (s2 & Hrun & T2 & F2 & R2).
  { eapply trep_ext; [|exact H2]. intros z Hz. apply wrote_ne. set_solver. }
  { done. } { set_solver. } { set_solver. }
  change (t_nil s1) with nl in Hrun. rewrite Hrun. run. clear Hrun.
  assert (t_heap s2 !! x = Some (dnode d c p e (ptr nl x1) (ptr nl x2))) as Hx2.
  { rewrite (framed_ne _ _ _ _ F2) by set_solver. apply wrote_eq. }
  assert (t_heap s2 !! y = Some (dnode d c' x e' (ptr nl x2) (ptr nl x3))) as Hy2.
  { rewrite (framed_ne _ _ _ _ F2) by set_solver. by rewrite (framed_ne _ _ _ _ F1) by set_solver. }
  rewrite (rd_run _ _ _ _ _ _ Hx0 Hx2 (parent_dnode _ _ _ _ _ _)). run.
  rewrite (wr_run _ _ _ _ _ Hy0 Hy2), set_parent_dnode. run.
  set (s3 := wrote y _ s2).
  assert (framed [y] s2 s3) as F3 by (apply wrote_framed; by eexists).
  pose proof (framed_trans _ _ _ _ _ (framed_trans _ _ _ _ _ F1 F2) F3) as F13.
  assert (t_nil s3 = nl) as Enl by apply F13.
  assert (t_root s3 = t_root s) as Er by (unfold s3; cbn; by rewrite R2).
  destruct (relink_run s3 a ctx d x y) as (s4 & Hrun & C4 & F4).
  { rewrite Enl, Er. eapply crep_ext; [|exact Hc]. intros z Hz. apply (framed_ne _ _ _ _ F13). set_solver. }
  { rewrite Enl. apply NoDup_cons. split; [set_solver|]. apply NoDup_cons. split; [set_solver|done]. }
  { set_solver. }
  rewrite Enl in Hrun. fold p in Hrun. rewrite Hrun. run. clear Hrun.
  assert (t_heap s4 !! y = Some (dnode d c' p e' (ptr nl x2) (ptr nl x3))) as Hy4.
  { rewrite (framed_ne _ _ _ _ F4) by set_solver. apply wrote_eq. }
  rewrite (wr_run _ _ _ _ _ Hy0 Hy4), set_child_dnode. run.
  set (s5 := wrote y _ s4).
  assert (framed [y] s4 s5) as F5 by (apply wrote_framed; by eexists).
  assert (t_heap s5 !! x = Some (dnode d c p e (ptr nl x1) (ptr nl x2))) as Hx5.
  { rewrite (framed_ne _ _ _ _ F5), (framed_ne _ _ _ _ F4), (framed_ne _ _ _ _ F3) by set_solver. done. }
  rewrite (wr_run _ _ _ _ _ Hx0 Hx5), set_parent_dnode.
  set (s6 := wrote x _ s5).
  assert (framed [x] s5 s6) as F6 by (apply wrote_framed; by eexists).
  pose proof (framed_trans _ _ _ _ _ (framed_trans _ _ _ _ _ F4 F5) F6) as F46.
  pose proof (framed_trans _ _ _ _ _ F13 F46) as F.
  assert (t_nil s6 = nl ∧ t_nil s4 = nl ∧ t_nil s2 = nl) as (En6 & En4 & En2).
  { split_and!; [apply F|by rewrite (proj1 F4)|by rewrite (proj1 F2)]. }
  exists s6. split; [reflexivity|]. split.
  2:{ apply Hwide. eapply framed_mono; [|exact F]. set_solver. }
  constructor; rewrite ?En6.
  - rewrite ptr_mk. fold y. rewrite En4 in C4. change (t_root s6) with (t_root s4).
    eapply crep_ext; [|exact C4]. intros z Hz.
    rewrite (framed_ne _ _ _ _ F6), (framed_ne _ _ _ _ F5) by set_solver. done.
  - apply trep_mk. rewrite ptr_mk. fold p x y. split_and!.
    + rewrite (framed_ne _ _ _ _ F6) by set_solver. apply wrote_eq.
    + apply trep_mk. fold x. split_and!; [apply wrote_eq|..].
      * eapply trep_ext; [|exact H1]. intros z Hz. apply (framed_ne _ _ _ _ F). set_solver.
      * rewrite En2 in T2. eapply trep_ext; [|exact T2]. intros z Hz.
        rewrite (framed_ne _ _ _ _ F46), (framed_ne _ _ _ _ F3) by set_solver. done.
    + eapply trep_ext; [|exact H3]. intros z Hz. apply (framed_ne _ _ _ _ F). set_solver.
  - by rewrite Hp'.
  - by rewrite Hp'.
  - destruct Hnil as (n & Hn & Hcol). exists n. split; [|done]. rewrite <- Hn.
    apply (framed_ne _ _ _ _ F). set_solver.
Qed.

(** ** Reading and changing the node at the focus *)

Lemma zrep_nonnull s ctx t z : zrep s ctx t → z ∈ t_nil s :: clocs ctx ++ locs t → z ≠ NULL.
Proof. intros Hz Hin E. subst. by apply (z_null _ _ _ Hz). Qed.

Lemma zrep_node s ctx d c e x1 x2 :
  zrep s ctx (mk d c e x1 x2) →
  e_loc e ≠ NULL ∧ e_loc e ≠ t_nil s ∧ t_heap s !! e_loc e =
    Some (dnode d c (cptr (t_nil s) ctx) e (ptr (t_nil s) x1) (ptr (t_nil s) x2)).
Proof.
  intros Hz. split_and!.
  - eapply zrep_nonnull; [done|]. rewrite locs_mk. set_solver.
  - intros E. pose proof (z_nodup _ _ _ Hz) as Hnd. rewrite locs_mk, E in Hnd.
    apply NoDup_cons in Hnd as [Hn _]. apply Hn. set_solver.
  - pose proof (z_tree _ _ _ Hz) as Ht. by apply trep_mk in Ht as (? & _).
Qed.

Section focus.
Variables (s : rbtree) (a : alloc) (ctx : list frame) (d : dir) (c : col) (e : ent) (x1 x2 : tree).
Hypothesis Hz : zrep s ctx (mk d c e x1 x2).

Lemma rd_child : rd (e_loc e) (child d) (World s a) = Ok (ptr (t_nil s) x1, World s a).
Proof.
  destruct (zrep_node _ _ _ _ _ _ _ Hz) as (H0 & _ & H). eapply rd_run; [done..|]. apply child_dnode.
Qed.

Lemma rd_child_opp : rd (e_loc e) (child (opp d)) (World s a) = Ok (ptr (t_nil s) x2, World s a).
Proof.
  destruct (zrep_node _ _ _ _ _ _ _ Hz) as (H0 & _ & H). eapply rd_run; [done..|]. apply child_opp_dnode.
Qed.

Lemma rd_parent : rd (e_loc e) n_parent (World s a) = Ok (cptr (t_nil s) ctx, World s a).
Proof.
  destruct (zrep_node _ _ _ _ _ _ _ Hz) as (H0 & _ & H). eapply rd_run; [done..|]. apply parent_dnode.
Qed.

(** A change of the node that keeps its links. *)
Lemma renode_run g c' e' :
  e_loc e' = e_loc e → (∀ p q1 q2, g (dnode d c p e q1 q2) = dnode d c' p e' q1 q2) →
  ∃ s', wr (e_loc e) g (World s a) = Ok (tt, World s' a) ∧ zrep s' ctx (mk d c' e' x1 x2) ∧
    framed [e_loc e] s s'.
Proof.
  intros He Hg. destruct (zrep_node _ _ _ _ _ _ _ Hz) as (H0 & Hnl & H).
  rewrite (wr_run _ _ _ _ _ H0 H), Hg. eexists. split; [reflexivity|].
  split; [|apply wrote_framed; by eexists].
  pose proof Hz as [Hc Ht Hnd Hnull Hnil]. rewrite ptr_mk in Hc.
  apply trep_mk in Ht as (_ & H1 & H2).
  assert (clocs ctx ++ locs (mk d c' e' x1 x2) ≡ₚ clocs ctx ++ locs (mk d c e x1 x2)) as Hp
    by (by rewrite !locs_mk, He).
  pose proof Hnd as Hnd'. rewrite locs_mk in Hnd'.
  assert (∀ z, z ∈ clocs ctx ∨ z ∈ locs x1 ∨ z ∈ locs x2 → z ≠ e_loc e) as Hne.
  { intros z Hin ->. rewrite <- Permutation_middle, !NoDup_cons in Hnd'. set_solver. }
  constructor; cbn [t_nil wrote with_heap t_root].
  - rewrite ptr_mk, He. eapply crep_ext; [|done]. intros z Hin. apply wrote_ne, Hne. by left.
  - apply trep_mk. rewrite He. split_and!; [apply wrote_eq|..];
      (eapply trep_ext; [|done]); intros z Hin; apply wrote_ne, Hne; tauto.
  - by rewrite Hp.
  - by rewrite Hp.
  - destruct Hnil as (n & Hn & Hcol). exists n. rewrite wrote_ne; done.
Qed.

Lemma recolor_run c' :
  ∃ s', wr (e_loc e) (set_color (cz c')) (World s a) = Ok (tt, World s' a) ∧
    zrep s' ctx (mk d c' e x1 x2) ∧ framed [e_loc e] s s'.
Proof. apply renode_run; [done|]. intros. by destruct d. Qed.
End focus.

(** The colour behind any pointer into the tree, the sentinel included. *)
Lemma rd_color s a ctx t :
  zrep s ctx t → rd (ptr (t_nil s) t) n_color (World s a) = Ok (cz (root_col t), World s a).
Proof.
  intros Hz. destruct t as [|c l e r].
  - destruct (z_nil _ _ _ Hz) as (n & Hn & Hc). eapply rd_run; [|done..].
    eapply zrep_nonnull; [done|]. set_solver.
  - destruct (zrep_node s ctx L c e l r Hz) as (H0 & _ & H). by eapply rd_run.
Qed.

Lemma rd_head_color s a ctx t :
  zrep s ctx t → rd (cptr (t_nil s) ctx) n_color (World s a) = Ok (cz (head_col ctx), World s a).
Proof.
  intros Hz. destruct ctx as [|[d c e sib] ctx].
  - destruct (z_nil _ _ _ Hz) as (n & Hn & Hc). eapply rd_run; [|done..].
    eapply zrep_nonnull; [done|]. set_solver.
  - apply zrep_out in Hz. destruct (zrep_node _ _ _ _ _ _ _ Hz) as (H0 & _ & H).
    eapply rd_run; [done..|]. apply color_dnode.
Qed.

(** ** The loop bound is enough *)

Lemma trep_dom h nil p t z : trep h nil p t → z ∈ locs t → z ∈ dom h.
Proof.
  revert p. induction t as [|c l IHl e r IHr]; intros p; simpl; [set_solver|].
  intros (H1 & H2 & H3) Hz. apply elem_of_cons in Hz as [->|Hz]; [by eapply elem_of_dom_2|].
  apply elem_of_app in Hz as []; eauto.
Qed.

Lemma crep_dom h nil r ctx q z : crep h nil r ctx q → z ∈ clocs ctx → z ∈ dom h.
Proof.
  revert q. induction ctx as [|[d c e sib] ctx IH]; intros q; simpl; [set_solver|].
  intros (H1 & H2 & H3) Hz. apply elem_of_cons in Hz as [->|Hz]; [by eapply elem_of_dom_2|].
  apply elem_of_app in Hz as []; [by eapply trep_dom|eauto].
Qed.

Lemma zrep_size s ctx t : zrep s ctx t → (length (clocs ctx) + length (locs t) < size (t_heap s))%nat.
Proof.
  intros [Hc Ht Hnd _ (n & Hn & _)].
  assert (list_to_set (t_nil s :: clocs ctx ++ locs t) ⊆ (dom (t_heap s) : gset loc)) as Hsub.
  { intros z. rewrite elem_of_list_to_set, elem_of_cons, elem_of_app.
    intros [->|[Hz|Hz]]; [by eapply elem_of_dom_2|by eapply crep_dom|by eapply trep_dom]. }
  apply subseteq_size in Hsub. rewrite size_list_to_set, size_dom in Hsub by done.
  cbn [length] in Hsub. rewrite length_app in Hsub. lia.
Qed.

Lemma clocs_length ctx : (length ctx ≤ length (clocs ctx))%nat.
Proof. induction ctx as [|[] ctx IH]; simpl; [lia|]. rewrite length_app. lia. Qed.

(** The nodes of the whole tree. *)
Lemma locs_elems t : locs t ≡ₚ e_loc <$> elems t.
Proof.
  induction t as [|c l IHl e r IHr]; simpl; [done|].
  rewrite fmap_app, fmap_cons, IHl, IHr. by rewrite Permutation_middle.
Qed.

Definition nodes (ctx : list frame) (t : tree) : list loc := e_loc <$> elems (plug ctx t).

Lemma nodes_locs ctx t : nodes ctx t ≡ₚ clocs ctx ++ locs t.
Proof.
  unfold nodes. rewrite <- locs_elems. revert t.
  induction ctx as [|[d c e sib] ctx IH]; intros t; [done|].
  cbn [plug clocs f_dir f_col f_ent f_sib]. rewrite IH, locs_mk. solve_Permutation.
Qed.

Lemma framed_nodes ctx t s s' ls :
  framed ls s s' → (∀ z, z ∈ ls → z ∈ clocs ctx ++ locs t) → framed (nodes ctx t) s s'.
Proof. intros Hf Hls. eapply framed_mono; [|done]. intros z Hz. rewrite nodes_locs. auto. Qed.

Lemma framed_twice ls s1 s2 s3 : framed ls s1 s2 → framed ls s2 s3 → framed ls s1 s3.
Proof.
  intros H1 H2. eapply framed_mono; [|exact (framed_trans _ _ _ _ _ H1 H2)]. set_solver.
Qed.

(** [x == p->left] tells on which side of its parent the focus is. *)
Lemma side_test s a d c e sib ctx t :
  zrep s (Fr d c e sib :: ctx) t → t ≠ Leaf ∨ sib ≠ Leaf →
  ∃ q, rd (e_loc e) n_left (World s a) = Ok (q, World s a) ∧
    N.eqb (ptr (t_nil s) t) q = bool_decide (d = L).
Proof.
  intros Hz Hne. pose proof (z_nodup _ _ _ Hz) as Hnd. pose proof (zrep_out _ _ _ _ _ _ _ Hz) as Ho.
  destruct d.
  - exists (ptr (t_nil s) t). split; [apply (rd_child s a _ _ _ _ _ _ Ho)|]. by rewrite eqb_refl'.
  - exists (ptr (t_nil s) sib). split; [apply (rd_child_opp s a _ _ _ _ _ _ Ho)|].
    rewrite bool_decide_eq_false_2 by done. apply eqb_ne.
    cbn [clocs f_ent f_sib] in Hnd. rewrite !NoDup_cons in Hnd. destruct Hnd as (N1 & N2).
    cbn [app] in N2. apply NoDup_cons in N2 as [_ N2]. rewrite <- app_assoc in N2.
    apply NoDup_app in N2 as (_ & N2 & _).
    destruct (ptr_cases (t_nil s) t) as [[-> E]|H1], (ptr_cases (t_nil s) sib) as [[-> E2]|H2];
      [by destruct Hne|intros E3; rewrite E in E3; rewrite <- E3 in H2; set_solver
      |intros E3; rewrite E2 in E3; rewrite E3 in H1; set_solver|].
    intros E. apply (N2 (ptr (t_nil s) sib)); [done|]. rewrite <- E. set_solver.
Qed.

Lemma nodes_app ctx1 ctx2 t : nodes (ctx1 ++ ctx2) t = nodes ctx2 (plug ctx1 t).
Proof. unfold nodes. by rewrite plug_app. Qed.

Lemma nodes_split ctx t : nodes ctx t = (e_loc <$> cpre ctx) ++ (e_loc <$> elems t) ++ (e_loc <$> cpost ctx).
Proof. unfold nodes. by rewrite elems_plug_split, !fmap_app. Qed.

Lemma nodes_rename ctx c l e e' r : e_loc e' = e_loc e → nodes ctx (T c l e' r) = nodes ctx (T c l e r).
Proof. intros He. rewrite !nodes_split. cbn [elems]. by rewrite !fmap_app, !fmap_cons, He. Qed.
