(* ===== verification/RbtreeIns.v ===== *)
(** * The red-black tree engine: insertion

    The repair after an insertion, which keeps the invariant of [RbShape]. *)

From S2P Require Import Prelude CRuntime Rbtree RbShape RbtreeZip.

(** ** Repair after an insertion *)

Definition insert_fix (d : dir) (z p g : loc) : rprog loc :=
  y ← rd g (child (opp d));
  yc ← rd y n_color;
  if yc =? RED then
    _ ← wr p (set_color BLACK);
    _ ← wr y (set_color BLACK);
    _ ← wr g (set_color RED);
    mret g
  else
    pr ← rd p (child (opp d));
    z ← (if N.eqb z pr then _ ← rotate d p; mret p else mret z);
    p ← rd z n_parent;
    _ ← wr p (set_color BLACK);
    g ← rd p n_parent;
    _ ← wr g (set_color RED);
    _ ← rotate (opp d) g;
    mret z.

Lemma insert_fix_left_dir z p g : insert_fix_left z p g = insert_fix L z p g.
Proof. reflexivity. Qed.
Lemma insert_fix_right_dir z p g : insert_fix_right z p g = insert_fix R z p g.
Proof. reflexivity. Qed.

(** A red uncle: the blackness of the grandparent moves down. *)
Lemma uncle_red_run s a ctx d d2 g p sib u1 eu u2 t :
  zrep s ctx (mk d Black g (mk d2 Red p t sib) (T Red u1 eu u2)) →
  ∃ s', (_ ← wr (e_loc p) (set_color BLACK); _ ← wr (e_loc eu) (set_color BLACK);
         _ ← wr (e_loc g) (set_color RED); mret (e_loc g)) (World s a) = Ok (e_loc g, World s' a) ∧
    zrep s' ctx (mk d Red g (mk d2 Black p t sib) (T Black u1 eu u2)) ∧
    framed [e_loc p; e_loc eu; e_loc g] s s'.
Proof.
  intros Hz. apply zrep_in in Hz.
  destruct (recolor_run s a _ _ _ _ _ _ Hz Black) as (s1 & R1 & Z1 & F1).
  apply zrep_out in Z1. rewrite <- mk_opp in Z1. apply zrep_in in Z1.
  destruct (recolor_run s1 a _ L _ _ _ _ Z1 Black) as (s2 & R2 & Z2 & F2).
  apply zrep_out in Z2. rewrite mk_opp in Z2.
  destruct (recolor_run s2 a _ _ _ _ _ _ Z2 Red) as (s3 & R3 & Z3 & F3).
  change (cz Black) with BLACK in *. change (cz Red) with RED in *.
  exists s3. run. rewrite R1. run. rewrite R2. run. rewrite R3. split_and!; [done..|].
  exact (framed_trans _ _ _ _ _ (framed_trans _ _ _ _ _ F1 F2) F3).
Qed.

(** A black uncle and [z] on the outside: one rotation. *)
Lemma uncle_black_run s a ctx d g p sib u t c l e r :
  t = T c l e r → zrep s ctx (mk d Black g (mk d Red p t sib) u) →
  ∃ s', (p ← rd (e_loc e) n_parent; _ ← wr p (set_color BLACK); g ← rd p n_parent;
         _ ← wr g (set_color RED); _ ← rotate (opp d) g; mret (e_loc e)) (World s a)
      = Ok (e_loc e, World s' a) ∧
    zrep s' ctx (mk d Black p t (mk d Red g sib u)) ∧
    framed (nodes ctx (mk d Black g (mk d Red p t sib) u)) s s'.
Proof.
  intros -> Hz. apply zrep_in in Hz. pose proof (zrep_in _ _ _ _ _ _ _ Hz) as Hz0.
  destruct (recolor_run s a _ _ _ _ _ _ Hz Black) as (s1 & R1 & Z1 & F1).
  pose proof (rd_parent s1 a _ _ _ _ _ _ Z1) as P1. apply zrep_out in Z1.
  destruct (recolor_run s1 a _ _ _ _ _ _ Z1 Red) as (s2 & R2 & Z2 & F2).
  assert (zrep s2 ctx (mk (opp d) Red g u (mk (opp d) Black p sib (T c l e r)))) as Z2'
    by (by rewrite !mk_opp).
  destruct (rotate_run s2 a _ _ _ _ _ _ _ _ _ Z2') as (s3 & R3 & Z3 & F3).
  rewrite !mk_opp in Z3. exists s3. change (cz Black) with BLACK in *. change (cz Red) with RED in *.
  run. rewrite (rd_parent s a _ L c e l r Hz0). run. cbn [cptr f_ent]. rewrite R1. run.
  rewrite P1. run. cbn [cptr f_ent]. rewrite R2. run. rewrite R3. run. split_and!; [done..|].
  eapply framed_twice; [|eapply framed_twice].
  - eapply framed_nodes; [exact F1|]. intros x. rewrite !locs_mk. set_solver.
  - eapply framed_nodes; [exact F2|]. intros x. rewrite !locs_mk. set_solver.
  - eapply framed_nodes; [exact F3|]. intros x. rewrite !mk_opp, !locs_mk. set_solver.
Qed.

(** What a round of the repair leaves: a red node at the focus of a context
    that is one step shorter at least, the same contents, the same nodes. *)
Definition repaired (s s' : rbtree) (ctx ctx' : list frame) (t t' : tree) : Prop :=
  zrep s' ctx' t' ∧ (∃ n, crb ctx' n ∧ rb t' n) ∧ root_col t' = Red ∧
  elems (plug ctx' t') = elems (plug ctx t) ∧ framed (nodes ctx t) s s' ∧ (length ctx' < length ctx)%nat.

Lemma insert_fix_run s a ctx d d2 g p sib u l e r n :
  let ctx0 := Fr d2 Red p sib :: Fr d Black g u :: ctx in
  zrep s ctx0 (T Red l e r) → crb ctx0 n → rb (T Red l e r) n →
  ∃ s' ctx' t', insert_fix d (e_loc e) (e_loc p) (e_loc g) (World s a)
      = Ok (ptr (t_nil s) t', World s' a) ∧ repaired s s' ctx0 ctx' (T Red l e r) t'.
Proof.
  intros ctx0 Hz (Hsib & Hbs & _ & Hu & Hc) Ht. unfold ctx0 in *.
  pose proof (zrep_out _ _ _ _ _ _ _ Hz) as Hzp. pose proof (zrep_out _ _ _ _ _ _ _ Hzp) as Hzg.
  unfold insert_fix. run. rewrite (rd_child_opp s a _ _ _ _ _ _ Hzg). run.
  assert (zrep s (Fr (opp d) Black g (mk d2 Red p (T Red l e r) sib) :: ctx) u) as Hzu.
  { apply zrep_in. by rewrite mk_opp. }
  rewrite (rd_color s a _ _ Hzu). run. rewrite cz_red.
  destruct (root_col u) eqn:Hcu; cbn [is_red].
  - (* red uncle *)
    destruct u as [|cu u1 eu u2]; [done|]. cbn [root_col] in Hcu. subst cu.
    destruct (uncle_red_run s a ctx d d2 g p sib u1 eu u2 _ Hzg) as (s' & R & Z' & F).
    cbn [ptr]. rewrite R. eexists s', ctx, _. rewrite ptr_mk. split; [reflexivity|].
    assert (rb u1 n ∧ rb u2 n) as [Hu1 Hu2] by (inversion_clear Hu; done).
    split_and!; try done.
    + exists (S n). split; [done|]. apply rb_mk_red. rewrite root_col_mk. split_and!; try done.
      * by apply rb_mk_black.
      * by constructor.
    + by rewrite root_col_mk.
    + cbn [plug f_dir f_col f_ent f_sib]. apply elems_plug. by destruct d, d2.
    + eapply framed_nodes; [exact F|]. cbn [clocs f_ent f_sib locs]. set_solver.
    + simpl. lia.
  - (* black uncle *)
    run. destruct (decide (d2 = d)) as [->|Hd].
    + rewrite (rd_child_opp s a _ _ _ _ _ _ Hzp). run. rewrite eqb_ne.
      2:{ apply zrep_in in Hzg. pose proof (z_nodup _ _ _ Hz) as Hnd. cbn [clocs f_ent f_sib locs] in Hnd.
          destruct (zrep_node s _ L _ _ _ _ Hz) as (_ & Hne & _).
          destruct (ptr_cases (t_nil s) sib) as [[_ ->]|Hin]; [done|].
          intros E. rewrite <- E in Hin. apply NoDup_cons in Hnd as [_ Hnd].
          apply NoDup_app in Hnd as (_ & Hnd & _). apply (Hnd (e_loc e)); set_solver. }
      run. destruct (uncle_black_run s a ctx d g p sib u _ _ _ _ _ eq_refl Hzg) as (s' & R & Z' & F).
      run_in R. rewrite R. eexists s', (Fr d Black p (mk d Red g sib u) :: ctx), (T Red l e r).
      split; [reflexivity|]. split_and!; try done.
      * by apply zrep_in.
      * exists n. split; [|done]. cbn [crb]. split; [|done]. by apply rb_mk_red.
      * cbn [plug f_dir f_col f_ent f_sib]. apply elems_plug. destruct d; same_elems.
      * simpl. lia.
    + assert (d2 = opp d) as -> by (by destruct d, d2). rewrite mk_opp in Hzp, Hzg.
      rewrite (rd_child_opp s a _ _ _ _ _ _ Hzp). cbn [ptr]. run. rewrite eqb_refl'. run.
      set (x1 := match d with L => l | R => r end). set (x2 := match d with L => r | R => l end).
      assert (T Red l e r = mk d Red e x1 x2) as Et by (by destruct d). rewrite Et in Hzp.
      destruct (rotate_run s a _ _ _ _ _ _ _ _ _ Hzp) as (s1 & R1 & Z1 & F1). rewrite R1. run.
      apply zrep_out in Z1.
      set (t1 := mk d Red p sib x1) in *.
      destruct (uncle_black_run s1 a ctx d g e x2 u t1 Red
        (match d with L => sib | R => x1 end) p (match d with L => x1 | R => sib end)
        ltac:(by destruct d) Z1) as (s' & R & Z' & F).
      run_in R. rewrite R. eexists s', (Fr d Black e (mk d Red g x2 u) :: ctx), t1.
      unfold t1. rewrite ptr_mk. split; [reflexivity|]. rewrite Et in Ht. apply rb_mk_red in Ht as (H1 & H2 & H3 & H4).
      split_and!; try done.
      * by apply zrep_in.
      * exists n. split; [|by apply rb_mk_red]. cbn [crb]. split; [by apply rb_mk_red|done].
      * by rewrite root_col_mk.
      * cbn [plug f_dir f_col f_ent f_sib]. apply elems_plug. rewrite Et.
        destruct d; same_elems.
      * rewrite Et. eapply framed_twice.
        -- eapply framed_nodes; [exact F1|]. cbn [clocs f_ent f_sib]. intros x. rewrite !locs_mk. set_solver.
        -- eapply framed_mono; [|exact F]. intros z. rewrite !nodes_locs. cbn [clocs f_ent f_sib].
           unfold t1. rewrite !locs_mk. set_solver.
      * simpl. lia.
Qed.

Lemma insert_fixup_loop_run fuel s a ctx l e r n :
  zrep s ctx (T Red l e r) → crb ctx n → rb (T Red l e r) n → (length ctx < fuel)%nat →
  ∃ s' ctx' t' m, insert_fixup_loop fuel (e_loc e) (World s a) = Ok (tt, World s' a) ∧
    zrep s' ctx' t' ∧ crb ctx' m ∧ rb t' m ∧ root_col t' = Red ∧ (ctx' = [] ∨ under_black ctx') ∧
    elems (plug ctx' t') = elems (plug ctx (T Red l e r)) ∧ framed (nodes ctx (T Red l e r)) s s'.
Proof.
  revert s ctx l e r n. induction fuel as [|fuel IH]; intros s ctx l e r n Hz Hc Ht Hf; [lia|].
  cbn [insert_fixup_loop]. run. rewrite (rd_parent s a _ L _ _ _ _ Hz). run.
  rewrite (rd_head_color s a _ _ Hz). run. rewrite cz_red.
  destruct ctx as [|[d2 [] p sib] ctx]; cbn [head_col f_col is_red].
  - exists s, [], (T Red l e r), n. split_and!; auto. apply framed_refl.
  - pose proof Hc as (_ & _ & Hu & _). destruct ctx as [|[d cg g u] ctx]; [done|]. cbn in Hu. subst cg.
    cbn [cptr f_ent]. run. pose proof (zrep_out _ _ _ _ _ _ _ Hz) as Hzp.
    rewrite (rd_parent s a _ _ _ _ _ _ Hzp). run. cbn [cptr f_ent].
    destruct (side_test s a _ _ _ _ _ _ Hzp) as (q & Hq & Eq); [left; by destruct d2|].
    rewrite ptr_mk in Eq. rewrite Hq. run. rewrite Eq.
    assert ((if bool_decide (d = L) then insert_fix_left (e_loc e) (e_loc p) (e_loc g)
             else insert_fix_right (e_loc e) (e_loc p) (e_loc g))
            = insert_fix d (e_loc e) (e_loc p) (e_loc g)) as -> by (by destruct d).
    destruct (insert_fix_run s a ctx d d2 g p sib u l e r n Hz Hc Ht) as
      (s1 & ctx1 & t1 & Hrun & Z1 & (m & C1 & T1) & Hr1 & E1 & F1 & Hl1).
    rewrite Hrun. run. destruct t1 as [|c1 l1 e1 r1]; [done|]. cbn [root_col] in Hr1. subst c1.
    destruct (IH s1 ctx1 l1 e1 r1 m Z1 C1 T1) as (s' & ctx' & t' & m' & Hrun' & Z' & C' & T' & Hr' & Hu' & E' & F').
    { simpl in Hl1, Hf. lia. }
    cbn [ptr]. exists s', ctx', t', m'. split_and!; try done; [by rewrite E'|].
    eapply framed_twice; [exact F1|]. unfold nodes in *. by rewrite <- E1.
  - exists s, (Fr d2 Black p sib :: ctx), (T Red l e r), n. split_and!; try done. by right.
Qed.

(** The whole tree with its root black. *)
Lemma blacken_root_run s a t n :
  zrep s [] t → rb t n → t ≠ Leaf →
  ∃ s' t' m, wr (t_root s) (set_color BLACK) (World s a) = Ok (tt, World s' a) ∧ zrep s' [] t' ∧
    good [] t' m ∧ elems t' = elems t ∧ framed (nodes [] t) s s'.
Proof.
  intros Hz Ht Hne. destruct t as [|c l e r]; [done|].
  assert (t_root s = e_loc e) as -> by apply (z_ctx _ _ _ Hz).
  destruct (recolor_run s a [] L c e l r Hz Black) as (s' & R & Z' & F). exists s', (T Black l e r).
  assert (∃ m, rb (T Black l e r) m) as [m Hm]
    by (inversion_clear Ht; eexists; by constructor).
  exists m. split_and!; try done. eapply framed_nodes; [exact F|]. simpl. set_solver.
Qed.

Lemma insert_fixup_run s a ctx l e r n :
  zrep s ctx (T Red l e r) → crb ctx n → rb (T Red l e r) n →
  ∃ s' t' m, rbtree_insert_fixup (e_loc e) (World s a) = Ok (tt, World s' a) ∧ zrep s' [] t' ∧
    good [] t' m ∧ elems t' = elems (plug ctx (T Red l e r)) ∧ framed (nodes ctx (T Red l e r)) s s'.
Proof.
  intros Hz Hc Ht. unfold rbtree_insert_fixup. run.
  destruct (insert_fixup_loop_run (fuel_of s) s a ctx l e r n Hz Hc Ht) as
    (s1 & ctx1 & t1 & m & R1 & Z1 & C1 & T1 & Hr1 & Hu1 & E1 & F1).
  { pose proof (zrep_size _ _ _ Hz). pose proof (clocs_length ctx). unfold fuel_of. lia. }
  rewrite R1. run.
  assert (∃ m', rb (plug ctx1 t1) m') as [m' Hm'].
  { destruct Hu1 as [->|Hu1]; [by exists m|].
    destruct (good_plug ctx1 t1 m) as (m' & _ & Hm' & _); [by split_and!|by exists m']. }
  rewrite <- (app_nil_r ctx1) in Z1. apply zrep_plug in Z1.
  destruct (blacken_root_run s1 a (plug ctx1 t1) m' Z1 Hm') as (s' & t' & m2 & R2 & Z2 & G2 & E2 & F2).
  { intros E. rewrite E, elems_plug_split in E1. apply (f_equal length) in E1. simpl in E1.
    rewrite !length_app in E1. simpl in E1. lia. }
  rewrite R2. exists s', t', m2. split_and!; try done; [by rewrite E2|].
  eapply framed_twice; [exact F1|]. unfold nodes in *. cbn [plug] in F2. by rewrite <- E1.
Qed.
