(* ===== verification/RbtreeSearch.v ===== *)
(** * The red-black tree engine: order, search, and linking a new node *)

From stdpp Require Import sorting.
From S2P Require Import Prelude CRuntime Rbtree RbShape RbtreeZip RbtreeIns.

(** ** Order *)

Definition key_lt (e1 e2 : ent) : Prop := strcmp (e_key e1) (e_key e2) < 0.

#[global] Instance key_lt_trans : Transitive key_lt.
Proof. intros x y z. apply strcmp_lt_trans. Qed.

Definition ordered (l : list ent) : Prop := StronglySorted key_lt l.

Lemma strcmp_neg a b : 0 < strcmp a b ↔ strcmp b a < 0.
Proof. rewrite (strcmp_antisym a b). lia. Qed.

Lemma key_lt_irrefl e1 e2 : e_key e1 = e_key e2 → ¬ key_lt e1 e2.
Proof. unfold key_lt. intros ->. rewrite strcmp_refl. lia. Qed.

Lemma ordered_node c l e r :
  ordered (elems (T c l e r)) ↔
  ordered (elems l) ∧ ordered (elems r) ∧ (∀ x, x ∈ elems l → key_lt x e) ∧ (∀ x, x ∈ elems r → key_lt e x).
Proof.
  unfold ordered. cbn [elems]. rewrite StronglySorted_app, StronglySorted_cons, Forall_forall. split.
  - intros (H1 & H2 & H3 & H4). split_and!; try done. intros x Hx. apply H1; set_solver.
  - intros (H1 & H2 & H3 & H4). split_and!; try done. intros x1 x2 Hx1 [->|Hx2]%elem_of_cons; [auto|].
    etrans; [by apply H3|by apply H4].
Qed.

Lemma rd_key_run s a ctx c l e r :
  zrep s ctx (T c l e r) → rd_key (e_loc e) (World s a) = Ok (e_key e, World s a).
Proof.
  intros Hz. destruct (zrep_node s ctx L c e l r Hz) as (H0 & _ & H). unfold rd_key. run.
  by rewrite (rd_run _ _ _ _ n_key (VStr (e_key e)) H0 H eq_refl).
Qed.

(** ** Search *)

(** The outcome of a search: the node with the key, in its place in the tree,
    or the sentinel. *)
Definition found (s : rbtree) (w : tree) (k : cstr) (x : loc) : Prop :=
  (∃ ctx c l e r, x = e_loc e ∧ e_key e = k ∧ plug ctx (T c l e r) = w ∧ zrep s ctx (T c l e r)) ∨
  (x = t_nil s ∧ k ∉ e_key <$> elems w).

(** Neither side of the path holds the key. *)
Definition between (ctx : list frame) (k : cstr) : Prop :=
  (∀ x, x ∈ cpre ctx → strcmp (e_key x) k < 0) ∧ (∀ x, x ∈ cpost ctx → strcmp k (e_key x) < 0).

Lemma between_left ctx c l e r k :
  ordered (elems (T c l e r)) → between ctx k → strcmp k (e_key e) < 0 →
  between (Fr L c e r :: ctx) k ∧ ordered (elems l).
Proof.
  intros (H1 & _ & _ & H4)%ordered_node [B1 B2] Hk. split; [|done]. split; intros x.
  - cbn [cpre f_dir]. rewrite app_nil_r. apply B1.
  - cbn [cpost f_dir f_ent f_sib]. rewrite elem_of_app, elem_of_cons. intros [[->|Hx]|Hx]; auto.
    eapply strcmp_lt_trans; [exact Hk|]. by apply H4.
Qed.

Lemma between_right ctx c l e r k :
  ordered (elems (T c l e r)) → between ctx k → strcmp (e_key e) k < 0 →
  between (Fr R c e l :: ctx) k ∧ ordered (elems r).
Proof.
  intros (_ & H2 & H3 & _)%ordered_node [B1 B2] Hk. split; [|done]. split; intros x.
  - cbn [cpre f_dir f_ent f_sib]. rewrite !elem_of_app, list_elem_of_singleton.
    intros [Hx|[Hx| ->]]; auto. eapply strcmp_lt_trans; [|exact Hk]. by apply H3.
  - cbn [cpost f_dir app]. apply B2.
Qed.

Lemma between_absent ctx k : between ctx k → k ∉ e_key <$> elems (plug ctx Leaf).
Proof.
  intros [B1 B2] (x & -> & Hx)%list_elem_of_fmap. rewrite elems_plug_split in Hx. cbn [elems app] in Hx.
  apply elem_of_app in Hx as [Hx|Hx]; [apply B1 in Hx|apply B2 in Hx]; rewrite strcmp_refl in Hx; lia.
Qed.

Lemma search_loop_run fuel s a ctx t k :
  zrep s ctx t → ordered (elems t) → between ctx k → (height t < fuel)%nat →
  ∃ x, search_loop fuel (Some k) (ptr (t_nil s) t) (World s a) = Ok (x, World s a) ∧
    found s (plug ctx t) k x.
Proof.
  revert ctx t. induction fuel as [|fuel IH]; intros ctx t Hz Ho Hb Hf; [lia|].
  cbn [search_loop]. run. destruct t as [|c l e r]; cbn [ptr].
  { rewrite eqb_refl'. eexists. split; [reflexivity|]. right. split; [done|]. by apply between_absent. }
  destruct (zrep_node s ctx L c e l r Hz) as (_ & Hnl & _). rewrite eqb_ne by done. run.
  rewrite (rd_key_run s a ctx c l e r Hz). run. simpl in Hf.
  destruct (_ <? 0) eqn:E1; b2p.
  { run. rewrite (rd_child s a ctx L _ _ _ _ Hz : rd _ n_left _ = _). run.
    destruct (between_left _ _ _ _ _ _ Ho Hb E1) as [Hb' Ho'].
    apply (IH (Fr L c e r :: ctx) l); [by apply zrep_in|done|done|lia]. }
  destruct (0 <? _) eqn:E2; b2p.
  { run. rewrite (rd_child_opp s a ctx L _ _ _ _ Hz : rd _ n_right _ = _). run.
    apply strcmp_neg in E2. destruct (between_right _ _ _ _ _ _ Ho Hb E2) as [Hb' Ho'].
    apply (IH (Fr R c e l :: ctx) r); [by apply zrep_in|done|done|lia]. }
  eexists. split; [reflexivity|]. left. exists ctx, c, l, e, r. split_and!; try done.
  symmetry. apply strcmp_eq. lia.
Qed.

Lemma height_locs t : (height t ≤ length (locs t))%nat.
Proof. induction t as [|c l IHl e r IHr]; simpl; [done|]. rewrite length_app. lia. Qed.

Lemma between_nil k : between [] k.
Proof. split; intros x; set_solver. Qed.

Lemma search_run s a t k :
  zrep s [] t → ordered (elems t) →
  ∃ x, rbtree_search (Some k) (World s a) = Ok (x, World s a) ∧ found s t k x.
Proof.
  intros Hz Ho. unfold rbtree_search. run.
  assert (t_root s = ptr (t_nil s) t) as -> by apply (z_ctx _ _ _ Hz).
  apply (search_loop_run (fuel_of s) s a [] t k); [done|done|apply between_nil|].
  pose proof (zrep_size _ _ _ Hz). pose proof (height_locs t). unfold fuel_of. lia.
Qed.

(** ** The place of a new key *)

Lemma insert_place_run fuel s a ctx t z nz k :
  zrep s ctx t → ordered (elems t) → between ctx k → (height t < fuel)%nat →
  z ≠ NULL → t_heap s !! z = Some nz → n_key nz = Some (VStr k) →
  (insert_place fuel z (cptr (t_nil s) ctx) (ptr (t_nil s) t) (World s a) = Ok (None, World s a) ∧
     k ∈ e_key <$> elems t) ∨
  (∃ ctx', insert_place fuel z (cptr (t_nil s) ctx) (ptr (t_nil s) t) (World s a)
      = Ok (Some (cptr (t_nil s) ctx'), World s a) ∧ zrep s ctx' Leaf ∧ between ctx' k ∧
    plug ctx' Leaf = plug ctx t).
Proof.
  revert ctx t. induction fuel as [|fuel IH]; intros ctx t Hz Ho Hb Hf Hz0 Hn Hk; [lia|].
  cbn [insert_place]. run. destruct t as [|c l e r]; cbn [ptr].
  { rewrite eqb_refl'. right. by exists ctx. }
  destruct (zrep_node s ctx L c e l r Hz) as (_ & Hnl & _). rewrite eqb_ne by done. run.
  assert (rd_key z (World s a) = Ok (k, World s a)) as ->
    by (unfold rd_key; run; by rewrite (rd_run _ _ _ _ _ _ Hz0 Hn Hk)).
  run. rewrite (rd_key_run s a ctx c l e r Hz). run. simpl in Hf.
  destruct (_ <? 0) eqn:E1; b2p.
  { run. rewrite (rd_child s a ctx L _ _ _ _ Hz : rd _ n_left _ = _). run.
    destruct (between_left _ _ _ _ _ _ Ho Hb E1) as [Hb' Ho'].
    destruct (IH (Fr L c e r :: ctx) l) as [[Hr Hin]|?]; [by apply zrep_in|done|done|lia|done..| |by right].
    left. split; [exact Hr|]. cbn [elems]. set_solver. }
  destruct (0 <? _) eqn:E2; b2p.
  { run. rewrite (rd_child_opp s a ctx L _ _ _ _ Hz : rd _ n_right _ = _). run.
    apply strcmp_neg in E2. destruct (between_right _ _ _ _ _ _ Ho Hb E2) as [Hb' Ho'].
    destruct (IH (Fr R c e l :: ctx) r) as [[Hr Hin]|?]; [by apply zrep_in|done|done|lia|done..| |by right].
    left. split; [exact Hr|]. cbn [elems]. set_solver. }
  left. split; [done|]. assert (k = e_key e) as -> by (apply strcmp_eq; lia). cbn [elems]. set_solver.
Qed.

(** ** Linking the new node *)

Lemma link_run s a ctx z nz k :
  zrep s ctx Leaf → between ctx k → z ≠ NULL → t_heap s !! z = Some nz → n_key nz = Some (VStr k) →
  ∃ s', link z (cptr (t_nil s) ctx) (t_nil s) (World s a) = Ok (tt, World s' a) ∧
    crep (t_heap s') (t_nil s') (t_root s') ctx z ∧ framed (clocs ctx) s s'.
Proof.
  intros Hz [B1 B2] Hz0 Hn Hk. unfold link. destruct ctx as [|[d c e sib] ctx]; cbn [cptr f_ent].
  { rewrite eqb_refl'. run. eexists. split; [reflexivity|]. done. }
  pose proof (zrep_out _ _ _ _ _ _ _ Hz) as Ho.
  destruct (zrep_node s ctx d c e _ _ Ho) as (H0 & Hnl & _). rewrite eqb_ne by done. run.
  assert (rd_key z (World s a) = Ok (k, World s a)) as ->
    by (unfold rd_key; run; by rewrite (rd_run _ _ _ _ _ _ Hz0 Hn Hk)).
  run. assert (rd_key (e_loc e) (World s a) = Ok (e_key e, World s a)) as ->
    by (destruct d; by eapply rd_key_run).
  pose proof (z_nodup _ _ _ Hz) as Hnd. apply NoDup_cons in Hnd as [_ Hnd]. apply NoDup_app in Hnd as [Hnd _].
  destruct (attach_run s a d c e sib ctx _ z (z_ctx _ _ _ Hz) Hnd H0) as (s' & Hrun & Hc & Hf).
  exists s'. split_and!; [|done|eapply framed_mono; [|done]; cbn [clocs f_ent]; set_solver].
  run. rewrite <- Hrun. destruct d; cbn [cpre cpost f_dir f_ent f_sib] in *.
  - destruct (_ <? 0) eqn:E; b2p; [done|]. specialize (B2 e ltac:(set_solver)). lia.
  - destruct (_ <? 0) eqn:E; b2p; [|done]. specialize (B1 e ltac:(set_solver)).
    rewrite strcmp_antisym in B1. lia.
Qed.

(** A node written in full joins the tree as a red leaf. *)
Lemma join_run s a ctx z nz k v :
  zrep s ctx Leaf → between ctx k → z ≠ NULL → z ∉ t_nil s :: clocs ctx →
  t_heap s !! z = Some nz → n_key nz = Some (VStr k) → n_value nz = Some v →
  ∃ s', join z (cptr (t_nil s) ctx) (t_nil s) (World s a) = Ok (tt, World s' a) ∧
    zrep s' ctx (T Red Leaf (Ent z k v) Leaf) ∧ framed (z :: clocs ctx) s s'.
Proof.
  intros Hz Hb Hz0 Hfresh Hn Hk Hv. unfold join. run. rewrite (wr_run _ _ _ _ _ Hz0 Hn). run.
  set (s1 := wrote z _ s).
  assert (framed [z] s s1) as F1 by (apply wrote_framed; by eexists).
  assert (zrep s1 ctx Leaf) as Z1.
  { destruct Hz as [Hc Ht Hnd Hnull (n & Hnil & Hcol)]. constructor; try done.
    - eapply crep_ext; [|exact Hc]. intros x Hx. apply wrote_ne. set_solver.
    - exists n. split; [|done]. rewrite <- Hnil. apply wrote_ne. set_solver. }
  destruct (link_run s1 a ctx z _ k Z1 Hb Hz0 (wrote_eq _ _ _) Hk) as (s2 & R2 & C2 & F2).
  change (t_nil s1) with (t_nil s) in R2. rewrite R2. run.
  assert (t_heap s2 !! z = Some (set_parent (cptr (t_nil s) ctx) nz)) as Hn2.
  { rewrite (framed_ne _ _ _ _ F2) by set_solver. apply wrote_eq. }
  rewrite (wr_run _ _ _ _ _ Hz0 Hn2). run.
  rewrite (wr_run _ _ _ _ _ Hz0 (wrote_eq _ _ _)). run.
  rewrite (wr_run _ _ _ _ _ Hz0 (wrote_eq _ _ _)).
  set (s5 := wrote z _ _). exists s5. split; [reflexivity|].
  assert (framed [z] s2 s5) as F5.
  { eapply framed_twice; [eapply framed_twice; apply wrote_framed|apply wrote_framed];
      [by eexists|by rewrite wrote_eq; eexists..]. }
  pose proof (framed_trans _ _ _ _ _ F2 F5) as F25. pose proof (framed_trans _ _ _ _ _ F1 F25) as F.
  split; [|eapply framed_mono; [|exact F]; set_solver].
  assert (t_nil s5 = t_nil s ∧ t_nil s2 = t_nil s) as [E5 E2] by (split; [apply F|rewrite (proj1 F2); done]).
  pose proof Hz as [Hc Ht Hnd Hnull (n & Hnil & Hcol)]. constructor; rewrite ?E5.
  - rewrite E2 in C2. change (t_root s5) with (t_root s2). eapply crep_ext; [|exact C2].
    intros x Hx. apply (framed_ne _ _ _ _ F5). set_solver.
  - cbn [trep e_loc ptr]. split_and!; try done. unfold s5. rewrite wrote_eq. f_equal.
    destruct nz. cbn in Hk, Hv. simplify_eq. done.
  - cbn [locs e_loc app]. rewrite app_nil_r in Hnd. rewrite <- Permutation_cons_append.
    apply NoDup_cons in Hnd as [? Hnd]. rewrite !NoDup_cons. set_solver.
  - cbn [locs e_loc app]. rewrite app_nil_r in Hnull. set_solver.
  - apply NoDup_cons in Hnd as [Hnd _].
    exists n. split; [|done]. rewrite <- Hnil. apply (framed_ne _ _ _ _ F). set_solver.
Qed.

Lemma between_ordered ctx k z v :
  ordered (cpre ctx ++ cpost ctx) → between ctx k → ordered (cpre ctx ++ Ent z k v :: cpost ctx).
Proof.
  unfold ordered. rewrite !StronglySorted_app, StronglySorted_cons, Forall_forall.
  intros (H1 & H2 & H3) [B1 B2]. split_and!; try done.
  intros x1 x2 Hx1 [->|Hx2]%elem_of_cons; [by apply B1|by apply H1].
Qed.

(** [rbtree_insert]: nothing happens when the key is there; otherwise the node
    joins the tree in order and the invariant is restored. *)
Lemma insert_run s a t n z nz k v :
  zrep s [] t → good [] t n → ordered (elems t) → z ≠ NULL → z ∉ t_nil s :: locs t →
  t_heap s !! z = Some nz → n_key nz = Some (VStr k) → n_value nz = Some v →
  (k ∈ e_key <$> elems t ∧ rbtree_insert z (World s a) = Ok (tt, World s a)) ∨
  (k ∉ e_key <$> elems t ∧ ∃ s' t' m l1 l2, rbtree_insert z (World s a) = Ok (tt, World s' a) ∧
    zrep s' [] t' ∧ good [] t' m ∧ ordered (elems t') ∧
    elems t = l1 ++ l2 ∧ elems t' = l1 ++ Ent z k v :: l2 ∧ framed (z :: locs t) s s').
Proof.
  intros Hz Hg Ho Hz0 Hfr Hn Hk Hv. unfold rbtree_insert. run.
  assert (t_root s = ptr (t_nil s) t) as -> by apply (z_ctx _ _ _ Hz).
  destruct (insert_place_run (fuel_of s) s a [] t z nz k Hz Ho (between_nil k)) as
    [[Hr Hin]|(ctx & Hr & Z1 & Hb & Hp)]; try done.
  { pose proof (zrep_size _ _ _ Hz). pose proof (height_locs t). unfold fuel_of. lia. }
  { left. cbn [cptr] in Hr. by rewrite Hr. }
  right. cbn [plug] in Hp. split; [rewrite <- Hp; by apply between_absent|].
  cbn [cptr] in Hr. rewrite Hr. run. clear Hr.
  assert (clocs ctx ≡ₚ locs t) as Hlocs.
  { rewrite (locs_elems t), <- Hp. fold (nodes ctx Leaf). rewrite nodes_locs. simpl. by rewrite app_nil_r. }
  destruct (join_run s a ctx z nz k v Z1 Hb Hz0) as (s1 & R1 & J1 & F1); try done.
  { by rewrite Hlocs. }
  rewrite R1. run.
  destruct (good_unplug ctx [] Leaf n) as (m & Hc & Hl & _); [by rewrite Hp|]. rewrite app_nil_r in Hc.
  assert (m = 0)%nat as -> by (by inversion Hl).
  destruct (insert_fixup_run s1 a ctx Leaf (Ent z k v) Leaf 0 J1 Hc) as (s2 & t2 & m2 & R2 & Z2 & G2 & E2 & F2).
  { by repeat constructor. }
  exists s2, t2, m2, (cpre ctx), (cpost ctx). rewrite elems_plug_split in E2. cbn [elems app] in E2.
  assert (elems t = cpre ctx ++ cpost ctx) as Et by (rewrite <- Hp, elems_plug_split; done).
  split_and!; try done.
  - rewrite E2. apply between_ordered; [by rewrite <- Et|done].
  - eapply framed_mono; [|exact (framed_trans _ _ _ _ _ F1 F2)]. intros x.
    rewrite elem_of_app, nodes_locs. simpl. rewrite Hlocs. set_solver.
Qed.
