(* ===== verification/RbtreeDel.v ===== *)
(** * The red-black tree engine: deletion

    After a black node has left, the subtree [t] at the focus is one black node
    short: [crb ctx (S n)] while [t] has black height [n].  The loop moves the
    shortage up or removes it. *)

From stdpp Require Import sorting.
From S2P Require Import Prelude CRuntime Rbtree RbShape RbtreeZip RbtreeIns RbtreeSearch.

(** ** The parent of the focus, through the sentinel too *)

Definition focus_par (s : rbtree) (ctx : list frame) (t : tree) : Prop :=
  ∃ n, t_heap s !! ptr (t_nil s) t = Some n ∧ n_parent n = Some (cptr (t_nil s) ctx).

Lemma focus_par_node s ctx t : zrep s ctx t → t ≠ Leaf → focus_par s ctx t.
Proof.
  intros Hz Hne. destruct t as [|c l e r]; [done|].
  destruct (zrep_node s ctx L c e l r Hz) as (_ & _ & H). by eexists.
Qed.

Lemma nil_not_node s ctx t : zrep s ctx t → t_nil s ∉ nodes ctx t.
Proof. intros Hz. rewrite nodes_locs. pose proof (z_nodup _ _ _ Hz) as H. by apply NoDup_cons in H as [? _]. Qed.

Lemma focus_par_keep s s' ctx ctx' t ls :
  focus_par s ctx t → framed ls s s' → t_nil s ∉ ls → zrep s' ctx' t →
  cptr (t_nil s) ctx' = cptr (t_nil s) ctx → focus_par s' ctx' t.
Proof.
  intros (n & Hn & Hp) Hf Hls Hz Hc. destruct t as [|c l e r]; [|by apply focus_par_node].
  exists n. rewrite (proj1 Hf). cbn [ptr] in *. split; [|by rewrite Hc].
  by rewrite (framed_ne _ _ _ _ Hf).
Qed.

Lemma rd_focus_par s a ctx t :
  zrep s ctx t → focus_par s ctx t →
  rd (ptr (t_nil s) t) n_parent (World s a) = Ok (cptr (t_nil s) ctx, World s a).
Proof.
  intros Hz (n & Hn & Hp). eapply rd_run; [|done..]. eapply zrep_nonnull; [done|].
  destruct (ptr_cases (t_nil s) t) as [[_ ->]|]; set_solver.
Qed.

(** ** One round, by direction *)

Definition sibling_black (d : dir) (x p w : loc) (wc : Z) : rprog loc :=
  if wc =? RED then
    _ ← wr w (set_color BLACK);
    _ ← wr p (set_color RED);
    _ ← rotate d p;
    p' ← rd x n_parent;
    rd p' (child (opp d))
  else mret w.

Definition far_red (d : dir) (x w : loc) : rprog loc :=
  far ← rd w (child (opp d));
  fc ← rd far n_color;
  if fc =? BLACK then
    near ← rd w (child d);
    _ ← wr near (set_color BLACK);
    _ ← wr w (set_color RED);
    _ ← rotate (opp d) w;
    p' ← rd x n_parent;
    rd p' (child (opp d))
  else mret w.

Definition last_rotation (d : dir) (x w : loc) : rprog loc :=
  p ← rd x n_parent;
  pc ← rd p n_color;
  _ ← wr w (set_color pc);
  _ ← wr p (set_color BLACK);
  far ← rd w (child (opp d));
  _ ← wr far (set_color BLACK);
  _ ← rotate d p;
  get_root.

Definition delete_fix (d : dir) (x p : loc) : rprog loc :=
  w ← rd p (child (opp d));
  wc ← rd w n_color;
  w ← sibling_black d x p w wc;
  both ← both_black w;
  if both : bool then
    _ ← wr w (set_color RED);
    rd x n_parent
  else
    w ← far_red d x w;
    last_rotation d x w.

Lemma delete_fix_dir x p w :
  delete_fix_left x p w = delete_fix L x p w ∧ delete_fix_right x p w = delete_fix R x p w.
Proof.
  unfold delete_fix_left, delete_fix_right, delete_fix, sibling_black, far_red, last_rotation.
  run. cbn [child opp].
  split; (destruct (rd p _ w) as [[b w1]|]; [|done]; run; destruct (rd b _ w1) as [[c w2]|]; [|done]; run;
    destruct (match _ with true => _ | false => _ end) as [[b2 w3]|]; [|done]; run;
    destruct (both_black b2 w3) as [[[] w4]|]; [done| |done]; run;
    destruct (rd b2 _ w4) as [[f w5]|]; [|done]; run; destruct (rd f _ w5) as [[fc w6]|]; [|done]; run; done).
Qed.

(** The focus is short of a black node. *)
Record short (s : rbtree) (ctx : list frame) (t : tree) (n : nat) : Prop := {
  sh_rep : zrep s ctx t;
  sh_par : focus_par s ctx t;
  sh_ctx : crb ctx (S n);
}.

(** [s'] holds the same contents in the same nodes, at another focus. *)
Definition moved (s s' : rbtree) (ctx ctx' : list frame) (t t' : tree) : Prop :=
  elems (plug ctx' t') = elems (plug ctx t) ∧ framed (nodes ctx t) s s'.

Lemma moved_trans s1 s2 s3 ctx1 ctx2 ctx3 t1 t2 t3 :
  moved s1 s2 ctx1 ctx2 t1 t2 → moved s2 s3 ctx2 ctx3 t2 t3 → moved s1 s3 ctx1 ctx3 t1 t3.
Proof.
  intros [E1 F1] [E2 F2]. split; [by rewrite E2|]. eapply framed_twice; [done|].
  unfold nodes in *. by rewrite <- E1.
Qed.

Lemma short_next s s' ctx ctx' t n m :
  short s ctx t n → zrep s' ctx' t → moved s s' ctx ctx' t t →
  cptr (t_nil s) ctx' = cptr (t_nil s) ctx → crb ctx' (S m) → short s' ctx' t m.
Proof.
  intros [Hz Hp _] Hz' [_ Hf] Hc Hcrb. constructor; [done| |done].
  eapply focus_par_keep; [done|done|by apply nil_not_node|done|done].
Qed.

Lemma sibling_black_run s a ctx d c p sib t n :
  short s (Fr d c p sib :: ctx) t n →
  ∃ s' c' sib' ctx', sibling_black d (ptr (t_nil s) t) (e_loc p) (ptr (t_nil s) sib) (cz (root_col sib)) (World s a)
      = Ok (ptr (t_nil s) sib', World s' a) ∧
    short s' (Fr d c' p sib' :: ctx') t n ∧ root_col sib' = Black ∧
    moved s s' (Fr d c p sib :: ctx) (Fr d c' p sib' :: ctx') t t ∧
    ((ctx' = ctx ∧ c' = c) ∨ c' = Red).
Proof.
  intros Hs. pose proof Hs as [Hz Hp Hc]. unfold sibling_black. rewrite cz_red.
  destruct (root_col sib) eqn:Hr; cbn [is_red].
  2:{ exists s, c, sib, ctx. split_and!; auto. split; [done|apply framed_refl]. }
  destruct c; cbn [crb] in Hc; [by rewrite Hr in Hc; destruct Hc as (_ & ? & _)|]. destruct Hc as [Hsib Hc].
  destruct (tree_mk d sib (rb_S_node _ _ Hsib)) as (cw & w & w1 & w2 & ->).
  rewrite root_col_mk in Hr. subst cw. apply rb_mk_red in Hsib as (H1 & H2 & H3 & H4). rewrite ptr_mk.
  pose proof (zrep_out _ _ _ _ _ _ _ Hz) as Ho.
  assert (zrep s (Fr (opp d) Black p t :: ctx) (mk d Red w w1 w2)) as Hw by (apply zrep_in; by rewrite mk_opp).
  destruct (recolor_run s a _ _ _ _ _ _ Hw Black) as (s1 & R1 & Z1 & F1).
  apply zrep_out in Z1. rewrite mk_opp in Z1.
  destruct (recolor_run s1 a _ _ _ _ _ _ Z1 Red) as (s2 & R2 & Z2 & F2).
  destruct (rotate_run s2 a _ _ _ _ _ _ _ _ _ Z2) as (s3 & R3 & Z3 & F3).
  change (cz Black) with BLACK in *. change (cz Red) with RED in *.
  assert (moved s s3 (Fr d Black p (mk d Red w w1 w2) :: ctx) (Fr d Red p w1 :: Fr d Black w w2 :: ctx) t t) as Hm.
  { split; [cbn [plug f_dir f_col f_ent f_sib]; apply elems_plug; destruct d; same_elems|].
    eapply framed_twice; [|eapply framed_twice].
    - eapply framed_nodes; [exact F1|]. intros x. cbn [clocs f_ent f_sib]. rewrite !locs_mk. set_solver.
    - eapply framed_nodes; [exact F2|]. intros x. cbn [clocs f_ent f_sib]. rewrite !locs_mk. set_solver.
    - eapply framed_nodes; [exact F3|]. intros x. cbn [clocs f_ent f_sib]. rewrite !locs_mk. set_solver. }
  apply zrep_in in Z3. pose proof (zrep_in _ _ _ _ _ _ _ Z3) as Z4.
  assert (short s3 (Fr d Red p w1 :: Fr d Black w w2 :: ctx) t n) as Hs3.
  { eapply short_next; [exact Hs|done|done|done|]. cbn [crb under_black f_col]. done. }
  exists s3, Red, w1, (Fr d Black w w2 :: ctx). split_and!; auto.
  run. rewrite R1. run. rewrite R2. run. rewrite R3. run.
  assert (t_nil s3 = t_nil s) as E by apply Hm. rewrite <- E.
  rewrite (rd_focus_par s3 a _ _ Z4 (sh_par _ _ _ _ Hs3)). run. cbn [cptr f_ent].
  apply (rd_child_opp s3 a _ _ _ _ _ _ Z3).
Qed.

(** Both children of the sibling black: it turns red and the focus moves up. *)
Lemma both_black_run s a ctx t d c e x1 x2 :
  t = mk d c e x1 x2 → zrep s ctx t →
  both_black (e_loc e) (World s a)
    = Ok (negb (is_red (root_col x1)) && negb (is_red (root_col x2)), World s a).
Proof.
  intros -> Hz. unfold both_black. run.
  set (l := match d with L => x1 | R => x2 end). set (r := match d with L => x2 | R => x1 end).
  assert (mk d c e x1 x2 = T c l e r) as E by (by destruct d). rewrite E in Hz.
  assert (zrep s (Fr L c e r :: ctx) l ∧ zrep s (Fr R c e l :: ctx) r) as [Hl Hr] by (by split; apply zrep_in).
  rewrite (rd_child s a ctx L _ _ _ _ Hz : rd _ n_left _ = _). run. rewrite (rd_color s a _ _ Hl). run.
  rewrite cz_black. destruct (negb (is_red (root_col l))) eqn:E1; run.
  - rewrite (rd_child_opp s a ctx L _ _ _ _ Hz : rd _ n_right _ = _). run. rewrite (rd_color s a _ _ Hr). run.
    rewrite cz_black. destruct d; subst l r; rewrite E1; [done|by rewrite andb_comm].
  - destruct d; subst l r; rewrite E1; [done|by rewrite andb_comm].
Qed.

Section sibling.
Variables (s : rbtree) (a : alloc) (ctx : list frame) (d : dir) (c : col) (p w : ent) (w1 w2 t : tree) (n : nat).
Hypothesis Hs : short s (Fr d c p (mk d Black w w1 w2) :: ctx) t n.

(** The tree with the sibling at the focus. *)
Lemma at_sibling : zrep s (Fr (opp d) c p t :: ctx) (mk d Black w w1 w2).
Proof. apply zrep_in. rewrite mk_opp. apply zrep_out, Hs. Qed.

Lemma sibling_heights : rb w1 n ∧ rb w2 n.
Proof. apply (rb_mk_black d w). eapply crb_sib, Hs. Qed.

(** The near child of the sibling red, the far one black: a rotation makes the
    far one red. *)
Lemma far_red_run :
  root_col w1 = Red ∨ root_col w2 = Red →
  ∃ s' w' w1' w2', far_red d (ptr (t_nil s) t) (e_loc w) (World s a) = Ok (e_loc w', World s' a) ∧
    short s' (Fr d c p (mk d Black w' w1' w2') :: ctx) t n ∧ root_col w2' = Red ∧
    moved s s' (Fr d c p (mk d Black w w1 w2) :: ctx) (Fr d c p (mk d Black w' w1' w2') :: ctx) t t.
Proof.
  intros Hred. pose proof at_sibling as Hw. unfold far_red. run.
  rewrite (rd_child_opp s a _ _ _ _ _ _ Hw). run.
  assert (zrep s (Fr (opp d) Black w w1 :: Fr (opp d) c p t :: ctx) w2) as Hw2 by (apply zrep_in; by rewrite mk_opp).
  rewrite (rd_color s a _ _ Hw2). run. rewrite cz_black.
  destruct (root_col w2) eqn:Hc2; cbn [is_red negb].
  { exists s, w, w1, w2. split_and!; auto. split; [done|apply framed_refl]. }
  destruct Hred as [Hc1|]; [|done]. destruct (tree_mk d w1) as (cv & v & v1 & v2 & Ev); [by destruct w1|].
  rewrite Ev in Hc1. rewrite root_col_mk in Hc1. subst cv.
  destruct sibling_heights as [H1 H2]. rewrite Ev in H1. apply rb_mk_red in H1 as (Hv1 & Hv2 & Hb1 & Hb2).
  pose proof Hs as Hs0. rewrite Ev in Hw, Hs0. run. rewrite (rd_child s a _ _ _ _ _ _ Hw). run.
  rewrite ptr_mk.
  destruct (recolor_run s a _ _ _ _ _ _ (zrep_in _ _ _ _ _ _ _ Hw) Black) as (s1 & R1 & Z1 & F1).
  apply zrep_out in Z1. destruct (recolor_run s1 a _ _ _ _ _ _ Z1 Red) as (s2 & R2 & Z2 & F2).
  assert (zrep s2 (Fr (opp d) c p t :: ctx) (mk (opp d) Red w w2 (mk (opp d) Black v v2 v1))) as Z2'
    by (by rewrite !mk_opp).
  destruct (rotate_run s2 a _ _ _ _ _ _ _ _ _ Z2') as (s3 & R3 & Z3 & F3). rewrite !mk_opp in Z3.
  change (cz Black) with BLACK in *. change (cz Red) with RED in *.
  pose proof (zrep_out _ _ _ _ _ _ _ Z3) as Z4. rewrite mk_opp in Z4.
  assert (moved s s3 (Fr d c p (mk d Black w (mk d Red v v1 v2) w2) :: ctx)
    (Fr d c p (mk d Black v v1 (mk d Red w v2 w2)) :: ctx) t t) as Hm.
  { split; [cbn [plug f_dir f_col f_ent f_sib]; apply elems_plug; destruct d; same_elems|].
    eapply framed_twice; [|eapply framed_twice].
    - eapply framed_nodes; [exact F1|]. intros x. cbn [clocs f_ent f_sib]. rewrite !locs_mk. set_solver.
    - eapply framed_nodes; [exact F2|]. intros x. cbn [clocs f_ent f_sib]. rewrite !locs_mk. set_solver.
    - eapply framed_nodes; [exact F3|]. intros x. cbn [clocs f_ent f_sib]. rewrite !mk_opp, !locs_mk. set_solver. }
  assert (short s3 (Fr d c p (mk d Black v v1 (mk d Red w v2 w2)) :: ctx) t n) as Hs3.
  { eapply short_next; [exact Hs0|by apply zrep_in|done|done|]. pose proof (sh_ctx _ _ _ _ Hs0) as Hc.
    assert (rb (mk d Black v v1 (mk d Red w v2 w2)) (S n)) as Hrb.
    { apply rb_mk_black. split; [done|]. by apply rb_mk_red. }
    destruct c; cbn [crb] in Hc |- *; rewrite ?root_col_mk in *; intuition. }
  exists s3, v, v1, (mk d Red w v2 w2). rewrite root_col_mk, Ev. split_and!; auto.
  rewrite R1. run. rewrite R2. run. rewrite R3. run.
  assert (t_nil s3 = t_nil s) as E by apply Hm. rewrite <- E.
  rewrite (rd_focus_par s3 a _ _ (sh_rep _ _ _ _ Hs3) (sh_par _ _ _ _ Hs3)). run. cbn [cptr f_ent].
  rewrite (rd_child_opp s3 a _ _ _ _ _ _ Z4). by rewrite ptr_mk.
Qed.

(** A red far child: the last rotation restores the invariant everywhere. *)
Lemma last_rotation_run :
  root_col w2 = Red → rb t n →
  ∃ s' t' m, last_rotation d (ptr (t_nil s) t) (e_loc w) (World s a) = Ok (ptr (t_nil s) t', World s' a) ∧
    zrep s' [] t' ∧ good [] t' m ∧
    moved s s' (Fr d c p (mk d Black w w1 w2) :: ctx) [] t t'.
Proof.
  intros Hred Ht. pose proof at_sibling as Hw. destruct sibling_heights as [H1 H2].
  destruct (tree_mk d w2) as (cv & v & v1 & v2 & Ev); [by destruct w2|]. rewrite Ev in *.
  rewrite root_col_mk in Hred. subst cv. apply rb_mk_red in H2 as (Hv1 & Hv2 & _ & _).
  unfold last_rotation. run. rewrite (rd_focus_par s a _ _ (sh_rep _ _ _ _ Hs) (sh_par _ _ _ _ Hs)). run.
  rewrite (rd_head_color s a _ _ (sh_rep _ _ _ _ Hs)). run. cbn [head_col f_col cptr f_ent].
  destruct (recolor_run s a _ _ _ _ _ _ Hw c) as (s1 & R1 & Z1 & F1). rewrite R1. run.
  apply zrep_out in Z1. rewrite mk_opp in Z1.
  destruct (recolor_run s1 a _ _ _ _ _ _ Z1 Black) as (s2 & R2 & Z2 & F2).
  change (cz Black) with BLACK in *. rewrite R2. run.
  rewrite <- mk_opp in Z2. apply zrep_in in Z2. rewrite (rd_child_opp s2 a _ _ _ _ _ _ Z2). run. rewrite ptr_mk.
  rewrite <- mk_opp in Z2.
  destruct (recolor_run s2 a _ _ _ _ _ _ (zrep_in _ _ _ _ _ _ _ Z2) Black) as (s3 & R3 & Z3 & F3).
  change (cz Black) with BLACK in *. rewrite R3. run.
  apply zrep_out in Z3. rewrite mk_opp in Z3. apply zrep_out in Z3. rewrite mk_opp in Z3.
  destruct (rotate_run s3 a _ _ _ _ _ _ _ _ _ Z3) as (s4 & R4 & Z4 & F4). rewrite R4. run.
  set (t4 := mk d c w (mk d Black p t w1) (mk d Black v v1 v2)) in *.
  assert (moved s s4 (Fr d c p (mk d Black w w1 (mk d Red v v1 v2)) :: ctx) [] t (plug ctx t4)) as Hm.
  { split; [cbn [plug f_dir f_col f_ent f_sib]; apply elems_plug; destruct d; same_elems|].
    eapply framed_twice; [|eapply framed_twice; [|eapply framed_twice]].
    - eapply framed_nodes; [exact F1|]. intros x. cbn [clocs f_ent f_sib]. rewrite !locs_mk. set_solver.
    - eapply framed_nodes; [exact F2|]. intros x. cbn [clocs f_ent f_sib]. rewrite !locs_mk. set_solver.
    - eapply framed_nodes; [exact F3|]. intros x. cbn [clocs f_ent f_sib]. rewrite !locs_mk. set_solver.
    - eapply framed_nodes; [exact F4|]. intros x. cbn [clocs f_ent f_sib]. rewrite !locs_mk. set_solver. }
  assert (∃ m, good ctx t4 m) as [m Hg].
  { pose proof (sh_ctx _ _ _ _ Hs) as Hc. unfold t4.
    assert (rb (mk d Black p t w1) (S n) ∧ rb (mk d Black v v1 v2) (S n)) as [Q1 Q2] by (split; by apply rb_mk_black).
    destruct c; cbn [crb] in Hc.
    - destruct Hc as (_ & _ & Hu & Hc). exists (S n). split_and!; [done| |done].
      apply rb_mk_red. by rewrite !root_col_mk.
    - destruct Hc as [_ Hc]. exists (S (S n)). split_and!; [done|by apply rb_mk_black|by rewrite root_col_mk]. }
  destruct (good_plug _ _ _ Hg) as [m' Hg'].
  rewrite <- (app_nil_r ctx) in Z4. apply zrep_plug in Z4.
  exists s4, (plug ctx t4), m'. split_and!; auto.
  assert (t_nil s4 = t_nil s) as E by apply Hm. rewrite <- E.
  by rewrite <- (z_ctx _ _ _ Z4 : t_root s4 = _).
Qed.
End sibling.

(** ** The loop *)

Lemma delete_fix_run s a ctx d c p sib t n :
  short s (Fr d c p sib :: ctx) t n → rb t n →
  ∃ s' ctx' t', delete_fix d (ptr (t_nil s) t) (e_loc p) (World s a) = Ok (ptr (t_nil s) t', World s' a) ∧
    zrep s' ctx' t' ∧ moved s s' (Fr d c p sib :: ctx) ctx' t t' ∧
    (settled_at ctx' t' ∨ ∃ m, short s' ctx' t' m ∧ rb t' m ∧ (length ctx' ≤ length ctx)%nat).
Proof.
  intros Hs Ht. unfold delete_fix. run.
  pose proof (zrep_out _ _ _ _ _ _ _ (sh_rep _ _ _ _ Hs)) as Ho.
  rewrite (rd_child_opp s a _ _ _ _ _ _ Ho). run.
  assert (zrep s (Fr (opp d) c p t :: ctx) sib) as Hsb by (apply zrep_in; by rewrite mk_opp).
  rewrite (rd_color s a _ _ Hsb). run. clear Ho Hsb.
  destruct (sibling_black_run s a ctx d c p sib t n Hs) as (s1 & c1 & sib1 & ctx1 & R1 & S1 & Hb1 & M1 & Hor).
  rewrite R1. run. assert (t_nil s1 = t_nil s) as E1 by apply M1.
  destruct (tree_mk d sib1) as (cw & w & w1 & w2 & Ew).
  { eapply rb_S_node, crb_sib, S1. }
  rewrite Ew in *. rewrite root_col_mk in Hb1. subst cw. rewrite ptr_mk.
  pose proof (at_sibling _ _ _ _ _ _ _ _ _ _ S1) as Hw.
  rewrite (both_black_run s1 a _ _ d _ _ _ _ eq_refl Hw). run.
  destruct (sibling_heights _ _ _ _ _ _ _ _ _ _ S1) as [H1 H2].
  destruct (negb (is_red (root_col w1)) && negb (is_red (root_col w2))) eqn:Eb.
  - assert (root_col w1 = Black ∧ root_col w2 = Black) as [B1 B2]
      by (apply andb_true_iff in Eb as []; by destruct (root_col w1), (root_col w2)).
    destruct (recolor_run s1 a _ _ _ _ _ _ Hw Red) as (s2 & R2 & Z2 & F2).
    change (cz Red) with RED in *. run. rewrite R2. run. apply zrep_out in Z2. rewrite mk_opp in Z2.
    assert (moved s1 s2 (Fr d c1 p (mk d Black w w1 w2) :: ctx1) (Fr d c1 p (mk d Red w w1 w2) :: ctx1) t t) as M2.
    { split; [cbn [plug f_dir f_col f_ent f_sib]; apply elems_plug; destruct d; same_elems|].
      eapply framed_nodes; [exact F2|]. intros x. cbn [clocs f_ent f_sib]. rewrite !locs_mk. set_solver. }
    assert (focus_par s2 (Fr d c1 p (mk d Red w w1 w2) :: ctx1) t) as Hp2.
    { eapply focus_par_keep; [apply S1|apply M2|apply nil_not_node, S1|by apply zrep_in|done]. }
    assert (t_nil s2 = t_nil s) as E2 by (by rewrite (proj1 F2)).
    exists s2, ctx1, (mk d c1 p t (mk d Red w w1 w2)). rewrite ptr_mk, <- E2.
    rewrite (rd_focus_par s2 a _ _ (zrep_in _ _ _ _ _ _ _ Z2) Hp2). cbn [cptr f_ent].
    assert (moved s s2 (Fr d c p sib :: ctx) ctx1 t (mk d c1 p t (mk d Red w w1 w2))) as M
      by exact (moved_trans _ _ _ _ _ _ _ _ _ M1 M2).
    assert (rb (mk d Red w w1 w2) n) as Hrw by (by apply rb_mk_red).
    split_and!; [done..|]. pose proof (sh_ctx _ _ _ _ S1) as Hc1. destruct c1; cbn [crb] in Hc1.
    + left. split; [right; by rewrite root_col_mk|]. exists (S n). rewrite blacken_mk.
      split_and!; [apply Hc1|by apply rb_mk_black|by rewrite root_col_mk].
    + right. destruct Hor as [[-> <-]|]; [|done]. exists (S n). split_and!; [|by apply rb_mk_black|done].
      constructor; [done| |apply Hc1]. apply focus_par_node; [done|by destruct d].
  - destruct (far_red_run s1 a _ _ _ _ _ _ _ _ _ S1) as (s2 & w' & w1' & w2' & R2 & S2 & Hr2 & M2).
    { destruct (root_col w1); [by left|]. destruct (root_col w2); [by right|done]. }
    rewrite E1 in R2. rewrite bind_run, R2. cbn beta iota.
    destruct (last_rotation_run s2 a _ _ _ _ _ _ _ _ _ S2 Hr2 Ht) as (s3 & t' & m & R3 & Z3 & G3 & M3).
    assert (t_nil s2 = t_nil s) as E2 by (by rewrite (proj1 (proj2 M2))).
    rewrite E2 in R3. rewrite R3. exists s3, [], t'. split_and!; [done..| |].
    + exact (moved_trans _ _ _ _ _ _ _ _ _ (moved_trans _ _ _ _ _ _ _ _ _ M1 M2) M3).
    + left. split; [by left|]. exists m. destruct t' as [|ct l e r]; [done|].
      destruct G3 as (_ & G3 & Hr). cbn [root_col] in Hr. destruct ct; [by destruct Hr|]. done.
Qed.

Lemma root_in h nil root f ctx q : crep h nil root (f :: ctx) q → root ∈ clocs (f :: ctx).
Proof.
  revert f q. induction ctx as [|g ctx IH]; intros [d c e sib] q; cbn [crep]; intros (_ & _ & H).
  - cbn in H. subst. set_solver.
  - apply IH in H. cbn [clocs f_ent f_sib] in *. set_solver.
Qed.

Lemma root_not_focus s f ctx t : zrep s (f :: ctx) t → N.eqb (ptr (t_nil s) t) (t_root s) = false.
Proof.
  intros [Hc _ Hnd _ _]. apply root_in in Hc. apply eqb_ne. intros E. rewrite <- E in Hc.
  apply NoDup_cons in Hnd as [Hn Hnd]. apply NoDup_app in Hnd as (_ & Hnd & _).
  destruct (ptr_cases (t_nil s) t) as [[_ E2]|Hin]; [rewrite E2 in Hc; set_solver|by apply (Hnd _ Hc)].
Qed.

Lemma delete_loop_exit fuel s a ctx t :
  zrep s ctx t → ctx = [] ∨ root_col t = Red →
  delete_fixup_loop (S fuel) (ptr (t_nil s) t) (World s a) = Ok (ptr (t_nil s) t, World s a).
Proof.
  intros Hz Hor. cbn [delete_fixup_loop]. run. destruct ctx as [|f ctx].
  - rewrite (z_ctx _ _ _ Hz : t_root s = _). by rewrite eqb_refl'.
  - destruct Hor as [|Hr]; [done|]. rewrite (root_not_focus _ _ _ _ Hz). run.
    rewrite (rd_color s a _ _ Hz). run. by rewrite cz_black, Hr.
Qed.

Lemma delete_fixup_loop_run fuel s a ctx t n :
  short s ctx t n → rb t n → (length ctx < fuel)%nat →
  ∃ s' ctx' t', delete_fixup_loop fuel (ptr (t_nil s) t) (World s a) = Ok (ptr (t_nil s) t', World s' a) ∧
    zrep s' ctx' t' ∧ moved s s' ctx ctx' t t' ∧ settled_at ctx' t'.
Proof.
  revert s ctx t n. induction fuel as [|fuel IH]; intros s ctx t n Hs Ht Hf; [lia|].
  assert (ctx = [] ∨ root_col t = Red → settled_at ctx t) as Hdone.
  { intros Hor. split; [done|]. destruct t as [|c l e r].
    - destruct Hor as [->|]; [|done]. by exists n.
    - destruct c.
      + exists (S n). split_and!; [apply Hs| |done]. inversion_clear Ht. by constructor.
      + destruct Hor as [->|]; [|done]. by exists n. }
  destruct (decide (ctx = [] ∨ root_col t = Red)) as [Hor|Hor].
  { exists s, ctx, t. split_and!; [apply (delete_loop_exit fuel s a ctx t (sh_rep _ _ _ _ Hs) Hor)|apply Hs| |auto].
    split; [done|apply framed_refl]. }
  destruct ctx as [|[d c p sib] ctx]; [by destruct Hor; left|].
  assert (root_col t = Black) as Hb by (destruct (root_col t); [by destruct Hor; right|done]).
  cbn [delete_fixup_loop]. run. rewrite (root_not_focus _ _ _ _ (sh_rep _ _ _ _ Hs)). run.
  rewrite (rd_color s a _ _ (sh_rep _ _ _ _ Hs)). run. rewrite Hb. change (cz Black =? BLACK) with true. run.
  rewrite (rd_focus_par s a _ _ (sh_rep _ _ _ _ Hs) (sh_par _ _ _ _ Hs)). run. cbn [cptr f_ent].
  destruct (side_test s a _ _ _ _ _ _ (sh_rep _ _ _ _ Hs)) as (q & Hq & Eq).
  { right. eapply rb_S_node, crb_sib, Hs. }
  rewrite Hq. run. rewrite Eq.
  destruct (delete_fix_run s a ctx d c p sib t n Hs Ht) as (s1 & ctx1 & t1 & R1 & Z1 & M1 & Hor1).
  assert ((if bool_decide (d = L) then delete_fix_left (ptr (t_nil s) t) (e_loc p)
           else delete_fix_right (ptr (t_nil s) t) (e_loc p)) (World s a) = Ok (ptr (t_nil s) t1, World s1 a)) as ->.
  { rewrite <- R1. destruct (delete_fix_dir (ptr (t_nil s) t) (e_loc p) (World s a)) as [E1 E2]. by destruct d. }
  run. assert (t_nil s1 = t_nil s) as E1 by apply M1. cbn [length] in Hf. rewrite <- E1.
  destruct Hor1 as [Hst|(m & Hs1 & Ht1 & Hl1)].
  - destruct fuel as [|fuel]; [lia|]. rewrite (delete_loop_exit fuel s1 a ctx1 t1 Z1 (proj1 Hst)).
    exists s1, ctx1, t1. split_and!; done.
  - destruct (IH s1 ctx1 t1 m Hs1 Ht1 ltac:(lia)) as (s2 & ctx2 & t2 & R2 & Z2 & M2 & St2).
    exists s2, ctx2, t2. split_and!; try done. exact (moved_trans _ _ _ _ _ _ _ _ _ M1 M2).
Qed.

(** Writing BLACK into the focus, sentinel included. *)
Lemma blacken_run s a ctx t :
  zrep s ctx t →
  ∃ s', wr (ptr (t_nil s) t) (set_color BLACK) (World s a) = Ok (tt, World s' a) ∧
    zrep s' ctx (blacken t) ∧ framed (t_nil s :: nodes ctx t) s s'.
Proof.
  intros Hz. destruct t as [|c l e r]; cbn [ptr blacken].
  - pose proof Hz as [Hc Ht Hnd Hnull (n & Hn & Hcol)].
    assert (t_nil s ≠ NULL) as H0 by (eapply zrep_nonnull; [done|set_solver]).
    rewrite (wr_run _ _ _ _ _ H0 Hn). eexists. split; [reflexivity|]. split.
    + apply NoDup_cons in Hnd as Hnd'. destruct Hnd' as [Hni _]. constructor; try done.
      * eapply crep_ext; [|exact Hc]. intros x Hx. apply wrote_ne. set_solver.
      * eexists. split; [apply wrote_eq|done].
    + eapply framed_mono; [|apply wrote_framed; by eexists]. set_solver.
  - destruct (recolor_run s a ctx L c e l r Hz Black) as (s' & R & Z & F).
    exists s'. split_and!; [done..|]. eapply framed_mono; [|exact F].
    intros x ->%list_elem_of_singleton. right. rewrite nodes_locs. simpl. set_solver.
Qed.

Lemma delete_fixup_run s a ctx t n :
  short s ctx t n → rb t n →
  ∃ s' t' m, rbtree_delete_fixup (ptr (t_nil s) t) (World s a) = Ok (tt, World s' a) ∧ zrep s' [] t' ∧
    good [] t' m ∧ elems t' = elems (plug ctx t) ∧ framed (t_nil s :: nodes ctx t) s s'.
Proof.
  intros Hs Ht. unfold rbtree_delete_fixup. run.
  destruct (delete_fixup_loop_run (fuel_of s) s a ctx t n Hs Ht) as (s1 & ctx1 & t1 & R1 & Z1 & [E1 F1] & _ & m & G1).
  { pose proof (zrep_size _ _ _ (sh_rep _ _ _ _ Hs)). pose proof (clocs_length ctx). unfold fuel_of. lia. }
  rewrite R1. run. assert (t_nil s1 = t_nil s) as En by apply F1. rewrite <- En.
  destruct (blacken_run s1 a ctx1 t1 Z1) as (s2 & R2 & Z2 & F2). rewrite R2.
  destruct (good_plug _ _ _ G1) as [m' G']. rewrite <- (app_nil_r ctx1) in Z2. apply zrep_plug in Z2.
  exists s2, (plug ctx1 (blacken t1)), m'. split_and!; [done..| |].
  - rewrite <- E1. apply elems_plug. by destruct t1.
  - eapply framed_mono; [|exact (framed_trans _ _ _ _ _ F1 F2)]. unfold nodes. rewrite E1, En. set_solver.
Qed.

(** ** Taking a node out *)

(** The smallest node of a subtree, in its place. *)
Lemma descend_run fuel s a d ctx t :
  zrep s ctx t → t ≠ Leaf → (height t ≤ fuel)%nat →
  ∃ ctx1 c e x2, descend (child d) fuel (ptr (t_nil s) t) (World s a) = Ok (e_loc e, World s a) ∧
    plug ctx1 (mk d c e Leaf x2) = t ∧ Forall (λ f, f_dir f = d) ctx1.
Proof.
  revert ctx t. induction fuel as [|fuel IH]; intros ctx t Hz Hne Hf.
  { destruct t; [done|]. simpl in Hf. lia. }
  destruct (tree_mk d t Hne) as (c & e & x1 & x2 & ->). rewrite ptr_mk. cbn [descend]. run.
  rewrite (rd_child s a _ _ _ _ _ _ Hz). run. destruct x1 as [|c1 l1 e1 r1]; cbn [ptr].
  - rewrite eqb_refl'. by exists [], c, e, x2.
  - apply zrep_in in Hz. destruct (zrep_node s _ L _ _ _ _ Hz) as (_ & Hnl & _). rewrite eqb_ne by done.
    destruct (IH (Fr d c e x2 :: ctx) (T c1 l1 e1 r1) Hz) as (ctx1 & c' & e' & x' & R1 & Hp & Hd); [done| |].
    { destruct d; simpl in Hf |- *; lia. }
    exists (ctx1 ++ [Fr d c e x2]), c', e', x'. split_and!; [exact R1| |].
    + rewrite plug_app, Hp. done.
    + apply Forall_app. split; [done|]. by constructor.
Qed.

(** A new parent for the focus of a context, sentinel included. *)
Lemma set_focus_parent s a t p q :
  trep (t_heap s) (t_nil s) p t → NoDup (t_nil s :: locs t) → NULL ∉ t_nil s :: locs t →
  (∃ n, t_heap s !! t_nil s = Some n ∧ n_color n = Some BLACK) →
  ∃ s', wr (ptr (t_nil s) t) (set_parent q) (World s a) = Ok (tt, World s' a) ∧
    trep (t_heap s') (t_nil s') q t ∧ framed (t_nil s :: locs t) s s' ∧ t_root s' = t_root s ∧
    (∃ n, t_heap s' !! ptr (t_nil s) t = Some n ∧ n_parent n = Some q) ∧
    (∃ n, t_heap s' !! t_nil s = Some n ∧ n_color n = Some BLACK).
Proof.
  intros Ht [Hn Hnd]%NoDup_cons Hnull (m & Hm & Hcol). destruct t as [|c l e r]; cbn [ptr].
  - assert (t_nil s ≠ NULL) as H0 by set_solver. rewrite (wr_run _ _ _ _ _ H0 Hm).
    eexists. split; [reflexivity|]. split_and!; try done.
    + eapply framed_mono; [|apply wrote_framed; by eexists]. set_solver.
    + eexists. split; [apply wrote_eq|done].
    + eexists. split; [apply wrote_eq|done].
  - destruct (reparent_run s a p q (T c l e r) Ht Hnd Hn ltac:(set_solver)) as (s' & R & T' & F & Hr).
    cbn [ptr] in R. rewrite eqb_ne in R by (cbn [locs] in Hn; set_solver). exists s'. split_and!; try done.
    + eapply framed_mono; [|exact F]. set_solver.
    + cbn [trep] in T'. destruct T' as (T' & _). by eexists.
    + exists m. split; [|done]. by rewrite (framed_ne _ _ _ _ F).
Qed.

Lemma unlink_run s a ctx c l e r :
  zrep s ctx (T c l e r) → l = Leaf ∨ r = Leaf →
  ∃ s', unlink (e_loc e) (t_nil s) (World s a) = Ok (ptr (t_nil s) (only_child l r), World s' a) ∧
    zrep s' ctx (only_child l r) ∧ focus_par s' ctx (only_child l r) ∧
    framed (t_nil s :: clocs ctx ++ locs (only_child l r)) s s'.
Proof.
  intros Hz Hor. set (x := only_child l r). unfold unlink. run.
  assert (sole_child (e_loc e) (t_nil s) (World s a) = Ok (ptr (t_nil s) x, World s a)) as ->.
  { unfold sole_child. run. rewrite (rd_child s a ctx L _ _ _ _ Hz : rd _ n_left _ = _). run. destruct l as [|cl ll el rl]; cbn [ptr].
    - rewrite eqb_refl'. run. rewrite (rd_child_opp s a ctx L _ _ _ _ Hz : rd _ n_right _ = _). run.
      unfold x. cbn [only_child]. destruct r as [|cr lr er rr]; cbn [ptr]; [by rewrite eqb_refl'|].
      apply (zrep_in s R) in Hz. destruct (zrep_node s _ L _ _ _ _ Hz) as (_ & Hnl & _). by rewrite eqb_ne.
    - apply (zrep_in s L) in Hz. destruct (zrep_node s _ L _ _ _ _ Hz) as (_ & Hnl & _). by rewrite eqb_ne. }
  run. rewrite (rd_parent s a ctx L _ _ _ _ Hz). run.
  pose proof Hz as [Hc (He & Hl & Hr) Hnd Hnull Hnil].
  assert (locs (T c l e r) = e_loc e :: locs x) as El.
  { unfold x. cbn [locs]. destruct Hor as [-> | ->]; cbn [locs app only_child]; [done|].
    destruct l; cbn [only_child]; by rewrite ?app_nil_r. }
  rewrite El in Hnd, Hnull.
  assert (NoDup (t_nil s :: e_loc e :: clocs ctx) ∧ NoDup (t_nil s :: locs x) ∧ e_loc e ∉ locs x ∧
    ∀ z, z ∈ locs x → z ∉ clocs ctx) as (D1 & D2 & D3 & D4).
  { apply NoDup_cons in Hnd as [N1 N2]. rewrite <- Permutation_middle, NoDup_cons, NoDup_app in N2.
    destruct N2 as (N2 & N3 & N4 & N5). rewrite !NoDup_cons. set_solver. }
  assert (trep (t_heap s) (t_nil s) (e_loc e) x) as Hx by (unfold x; by destruct l).
  destruct (set_focus_parent s a x (e_loc e) (cptr (t_nil s) ctx) Hx D2 ltac:(set_solver) Hnil)
    as (s1 & R1 & T1 & F1 & Hr1 & P1 & N1). rewrite R1. run.
  assert (t_nil s1 = t_nil s) as E1 by apply F1.
  destruct (relink_run s1 a ctx L (e_loc e) (ptr (t_nil s) x)) as (s2 & R2 & C2 & F2).
  { rewrite E1, Hr1. eapply crep_ext; [|exact Hc]. intros z Hz'. apply (framed_ne _ _ _ _ F1).
    rewrite !NoDup_cons in D1. set_solver. }
  { by rewrite E1. } { set_solver. }
  rewrite E1 in R2. unfold relink in R2. cbn [child set_child opp] in R2. rewrite R2. run.
  assert (t_nil s2 = t_nil s) as E2 by (by rewrite (proj1 F2)).
  assert (∀ z, z ∈ t_nil s :: locs x → t_heap s2 !! z = t_heap s1 !! z) as Hsame.
  { intros z Hz'. apply (framed_ne _ _ _ _ F2). rewrite !NoDup_cons in D1. set_solver. }
  exists s2. split_and!; [reflexivity| |..].
  - rewrite E1 in T1. rewrite E2 in C2. constructor; rewrite ?E2; [done| | | |].
    + eapply trep_ext; [|exact T1]. intros z Hz'. apply Hsame. set_solver.
    + rewrite <- Permutation_middle in Hnd. rewrite !NoDup_cons in *. set_solver.
    + set_solver.
    + destruct N1 as (n & Hn & Hcol). exists n. split; [|done]. by rewrite Hsame by set_solver.
  - destruct P1 as (n & Hn & Hp). exists n. rewrite E2. split; [|done]. rewrite Hsame; [done|].
    destruct (ptr_cases (t_nil s) x) as [[_ ->]|]; set_solver.
  - eapply framed_mono; [|exact (framed_trans _ _ _ _ _ F1 F2)]. set_solver.
Qed.

(** ** The whole deletion *)

Lemma wrote_outside s ctx t x n :
  zrep s ctx t → x ∉ t_nil s :: nodes ctx t → zrep (wrote x n s) ctx t.
Proof.
  intros [Hc Ht Hnd Hnull (m & Hm & Hcol)] Hx. rewrite nodes_locs in Hx. constructor; try done.
  - eapply crep_ext; [|exact Hc]. intros z Hz. apply wrote_ne. set_solver.
  - eapply trep_ext; [|exact Ht]. intros z Hz. apply wrote_ne. set_solver.
  - exists m. split; [|done]. rewrite <- Hm. apply wrote_ne. set_solver.
Qed.

Lemma swap_run s a ctx c l z r y ny ky vy :
  zrep s ctx (T c l z r) → y ≠ NULL → y ∉ t_nil s :: nodes ctx (T c l z r) →
  t_heap s !! y = Some ny → n_key ny = Some (VStr ky) → n_value ny = Some vy →
  ∃ s' ny', swap_contents (e_loc z) y (World s a) = Ok (tt, World s' a) ∧
    zrep s' ctx (T c l (Ent (e_loc z) ky vy) r) ∧ t_heap s' !! y = Some ny' ∧ n_color ny' = n_color ny ∧
    framed [e_loc z; y] s s'.
Proof.
  intros Hz Hy0 Hy Hny Hk Hv. unfold swap_contents. run.
  destruct (zrep_node s ctx L c z l r Hz) as (Hz0 & _ & Hnz).
  assert (∀ s1 c1 e1, zrep s1 ctx (T c1 l e1 r) → e_loc e1 = e_loc z → t_nil s1 = t_nil s →
    y ∉ t_nil s1 :: nodes ctx (T c1 l e1 r)) as Hout.
  { intros s1 c1 e1 _ He ->. rewrite nodes_locs in *. cbn [locs] in *. by rewrite He. }
  rewrite (rd_run _ _ _ _ n_key _ Hz0 Hnz eq_refl). run. rewrite (rd_run _ _ _ _ _ _ Hy0 Hny Hk). run.
  destruct (renode_run s a ctx L c z l r Hz (set_key (VStr ky)) c (Ent (e_loc z) ky (e_val z))) as (s1 & R1 & Z1 & F1);
    [done..|]. cbn [mk] in Z1. rewrite R1. run.
  assert (y ≠ e_loc z) as Hyz by (rewrite nodes_locs in Hy; cbn [locs] in Hy; set_solver).
  assert (t_heap s1 !! y = Some ny) as Hny1 by (rewrite (framed_ne _ _ _ _ F1) by set_solver; done).
  rewrite (wr_run _ _ _ _ _ Hy0 Hny1). run. set (s2 := wrote y _ s1).
  assert (zrep s2 ctx (T c l (Ent (e_loc z) ky (e_val z)) r)) as Z2
    by (apply wrote_outside; [done|apply Hout; [done|done|apply F1]]).
  assert (framed [y] s1 s2) as F2 by (apply wrote_framed; by eexists).
  destruct (zrep_node s2 ctx L _ _ _ _ Z2) as (_ & _ & Hnz2). cbn [e_loc] in Hnz2.
  rewrite (rd_run _ _ _ _ n_value _ Hz0 Hnz2 eq_refl). run. cbn [e_val].
  rewrite (rd_run s2 _ _ _ n_value vy Hy0 (wrote_eq _ _ _)) by (by destruct ny). run.
  destruct (renode_run s2 a ctx L c _ l r Z2 (set_value vy) c (Ent (e_loc z) ky vy)) as (s3 & R3 & Z3 & F3);
    [done..|]. cbn [mk e_loc] in Z3, R3, F3. rewrite R3. run.
  assert (t_heap s3 !! y = Some (set_key (VStr (e_key z)) ny)) as Hny3
    by (rewrite (framed_ne _ _ _ _ F3) by set_solver; apply wrote_eq).
  rewrite (wr_run _ _ _ _ _ Hy0 Hny3). set (s4 := wrote y _ s3).
  assert (framed [y] s3 s4) as F4 by (apply wrote_framed; by eexists).
  pose proof (framed_trans _ _ _ _ _ F1 (framed_trans _ _ _ _ _ F2 (framed_trans _ _ _ _ _ F3 F4))) as F.
  exists s4, (set_value (e_val z) (set_key (VStr (e_key z)) ny)). split_and!; [done| |apply wrote_eq|by destruct ny|].
  - apply wrote_outside; [done|]. apply Hout; [done|done|]. rewrite (proj1 F3). exact (proj1 F1).
  - eapply framed_mono; [|exact F]. set_solver.
Qed.

(** The end of [rbtree_delete], once [y] has left the tree. *)
Lemma delete_tail_run s a ctx x y ny c :
  zrep s ctx x → focus_par s ctx x → y ≠ NULL → t_heap s !! y = Some ny → n_color ny = Some (cz c) →
  match c with Red => ∃ n, good ctx x n | Black => ∃ m, crb ctx (S m) ∧ rb x m end →
  ∃ s' t' m, (yc ← rd y n_color;
              _ ← (if yc =? BLACK then rbtree_delete_fixup (ptr (t_nil s) x) else mret tt); mret y) (World s a)
      = Ok (y, World s' a) ∧ zrep s' [] t' ∧ good [] t' m ∧ elems t' = elems (plug ctx x) ∧
    framed (t_nil s :: nodes ctx x) s s'.
Proof.
  intros Hz Hp Hy0 Hny Hcol Hrb. run. rewrite (rd_run _ _ _ _ _ _ Hy0 Hny Hcol). run. rewrite cz_black.
  destruct c; cbn [is_red negb].
  - destruct Hrb as [n Hg]. destruct (good_plug _ _ _ Hg) as [m Hm].
    rewrite <- (app_nil_r ctx) in Hz. apply zrep_plug in Hz. run.
    exists s, (plug ctx x), m. split_and!; try done.
  - destruct Hrb as (m & Hc & Hx). destruct (delete_fixup_run s a ctx x m) as (s' & t' & m' & R & Z & G & E & F);
      [by constructor|done|]. rewrite R. run. exists s', t', m'. done.
Qed.

Definition kv (e : ent) : cstr * vptr := (e_key e, e_val e).

Lemma mini_run s a ctx t :
  zrep s ctx t → t ≠ Leaf →
  ∃ ctx1 c e r, rbtree_mini (ptr (t_nil s) t) (World s a) = Ok (e_loc e, World s a) ∧
    plug ctx1 (T c Leaf e r) = t ∧ Forall (λ f, f_dir f = L) ctx1.
Proof.
  intros Hz Hne. unfold rbtree_mini. run. apply (descend_run (fuel_of s) s a L ctx t Hz Hne).
  pose proof (zrep_size _ _ _ Hz). pose proof (height_locs t). unfold fuel_of. lia.
Qed.

Lemma leaver_run s a ctx c l e r :
  zrep s ctx (T c l e r) →
  (leaver (e_loc e) (t_nil s) (World s a) = Ok (e_loc e, World s a) ∧ (l = Leaf ∨ r = Leaf)) ∨
  (∃ ctx1 cy y ry, leaver (e_loc e) (t_nil s) (World s a) = Ok (e_loc y, World s a) ∧
     plug ctx1 (T cy Leaf y ry) = r ∧ Forall (λ f, f_dir f = L) ctx1).
Proof.
  intros Hz. unfold leaver. run. rewrite (rd_child s a ctx L _ _ _ _ Hz : rd _ n_left _ = _). run.
  destruct l as [|cl ll el rl]; cbn [ptr]; [rewrite eqb_refl'; left; auto|].
  destruct (zrep_node s _ L _ _ _ _ (zrep_in s L _ _ _ _ _ Hz)) as (_ & Hnl & _). rewrite eqb_ne by done. run.
  rewrite (rd_child_opp s a ctx L _ _ _ _ Hz : rd _ n_right _ = _). run.
  destruct r as [|cr lr er rr]; cbn [ptr]; [rewrite eqb_refl'; left; auto|].
  pose proof (zrep_in s R c e (T cl ll el rl) ctx (T cr lr er rr) Hz) as Hr.
  destruct (zrep_node s _ L _ _ _ _ Hr) as (_ & Hnr & _). rewrite eqb_ne by done. right.
  destruct (mini_run s a _ _ Hr) as (ctx1 & cy & y & ry & Hrun & Hp & Hd); [done|].
  exists ctx1, cy, y, ry. split_and!; try done. unfold rbtree_successor. run.
  rewrite (rd_parent s a ctx L _ _ _ _ Hz). run.
  rewrite (rd_child_opp s a ctx L _ _ _ _ Hz : rd _ n_right _ = _). run. cbn [ptr]. by rewrite eqb_ne.
Qed.

(** [rbtree_delete] removes the pair of the node it is given, keeps the others
    in order and the invariant, and reuses no block. *)
Lemma delete_run s a ctx c l e r n :
  zrep s ctx (T c l e r) → good ctx (T c l e r) n →
  ∃ s' t' m y, rbtree_delete (e_loc e) (World s a) = Ok (y, World s' a) ∧ y ≠ NULL ∧
    zrep s' [] t' ∧ good [] t' m ∧
    kv <$> elems t' = (kv <$> cpre ctx ++ elems l) ++ (kv <$> elems r ++ cpost ctx) ∧
    framed (t_nil s :: nodes ctx (T c l e r)) s s'.
Proof.
  intros Hz Hg. unfold rbtree_delete. run.
  destruct (zrep_node s ctx L c e l r Hz) as (He0 & _ & Hne).
  destruct (leaver_run s a ctx c l e r Hz) as [[-> Hor]|(ctx1 & cy & y & ry & -> & Hp & Hd)]; run.
  - destruct (unlink_run s a ctx c l e r Hz Hor) as (s1 & R1 & Z1 & P1 & F1). rewrite R1. run.
    rewrite eqb_refl'. run. assert (t_nil s1 = t_nil s) as E1 by apply F1.
    assert (t_heap s1 !! e_loc e = t_heap s !! e_loc e) as Hsame.
    { apply (framed_ne _ _ _ _ F1). pose proof (z_nodup _ _ _ Hz) as Hnd. cbn [locs] in Hnd.
      rewrite <- Permutation_middle, !NoDup_cons in Hnd. destruct l; cbn [only_child locs] in *; set_solver. }
    rewrite Hne in Hsame.
    destruct (delete_tail_run s1 a ctx (only_child l r) (e_loc e) _ c Z1 P1 He0 Hsame eq_refl) as
      (s2 & t2 & m & R2 & Z2 & G2 & E2 & F2).
    { pose proof (unlink_rb ctx c l e r n Hg Hor) as Hrb. destruct c; eauto. }
    run_in R2. rewrite E1 in R2. exists s2, t2, m, (e_loc e). split_and!; try done.
    + rewrite E2, elems_plug_split, <- fmap_app. f_equal.
      destruct Hor as [-> | ->]; [|destruct l]; cbn [only_child elems app]; by rewrite ?app_nil_r, <- ?app_assoc.
    + eapply framed_mono; [|exact (framed_trans _ _ _ _ _ F1 F2)]. intros z. rewrite E1.
      rewrite elem_of_app, !elem_of_cons, !nodes_locs. cbn [locs]. destruct l; cbn [only_child]; set_solver.
  - rewrite <- Hp in Hz, Hg |- *.
    pose proof (zrep_in s R _ _ _ _ _ Hz) as Hzr. apply zrep_plug in Hzr.
    destruct (unlink_run s a _ cy Leaf y ry Hzr (or_introl eq_refl)) as (s1 & R1 & Z1 & P1 & F1).
    cbn [only_child] in *. rewrite R1. run. assert (t_nil s1 = t_nil s) as E1 by apply F1.
    destruct (zrep_node s _ L _ _ _ _ Hzr) as (Hy0 & _ & Hny).
    assert (e_loc y ∉ t_nil s :: clocs (ctx1 ++ Fr R c e l :: ctx) ++ locs ry) as Hyout.
    { pose proof (z_nodup _ _ _ Hzr) as Hnd. cbn [locs app] in Hnd.
      rewrite <- Permutation_middle, !NoDup_cons in Hnd. set_solver. }
    assert (t_heap s1 !! e_loc y = t_heap s !! e_loc y) as Hsame by (apply (framed_ne _ _ _ _ F1); set_solver).
    rewrite Hny in Hsame.
    pose proof (proj1 (zrep_plug _ _ _ _) Z1) as Z1'. apply zrep_out in Z1'. cbn [mk] in Z1'.
    assert (nodes ctx (T c l e (plug ctx1 ry)) ≡ₚ clocs (ctx1 ++ Fr R c e l :: ctx) ++ locs ry) as Hnodes
      by (by rewrite <- nodes_locs, nodes_app).
    assert (e_loc y ∉ t_nil s1 :: nodes ctx (T c l e (plug ctx1 ry))) as Hyn by (by rewrite Hnodes, E1).
    destruct (swap_run s1 a ctx c l e (plug ctx1 ry) (e_loc y) _ (e_key y) (e_val y) Z1' Hy0 Hyn Hsame
      eq_refl eq_refl) as (s2 & ny' & R2 & Z2 & Hny2 & Hcol2 & F2).
    rewrite eqb_ne by (rewrite nodes_locs in Hyn; cbn [locs] in Hyn; set_solver).
    rewrite R2. run. set (e' := Ent (e_loc e) (e_key y) (e_val y)) in *.
    pose proof (zrep_in s2 R _ _ _ _ _ Z2) as Z2'. apply zrep_plug in Z2'.
    assert (t_nil s2 = t_nil s) as E2 by (by rewrite (proj1 F2)).
    assert (focus_par s2 (ctx1 ++ Fr R c e' l :: ctx) ry) as P2.
    { eapply focus_par_keep; [exact P1|exact F2| |exact Z2'|by destruct ctx1].
      rewrite E1. intros Hin. rewrite !elem_of_cons in Hin. destruct Hin as [Hin|[Hin|Hin]]; [| |by apply elem_of_nil in Hin].
      - destruct (zrep_node s _ L _ _ _ _ Hz) as (_ & Hnl & _). done.
      - destruct (zrep_node s _ L _ _ _ _ Hzr) as (_ & Hnl & _). done. }
    destruct (delete_tail_run s2 a _ ry (e_loc y) ny' cy Z2' P2 Hy0 Hny2 Hcol2) as (s3 & t3 & m & R3 & Z3 & G3 & E3 & F3).
    { apply (good_rename _ _ _ _ e') in Hg. apply (good_down _ R) in Hg as [m1 Hg]. apply good_unplug in Hg as [m2 Hg].
      pose proof (unlink_rb _ cy Leaf y ry m2 Hg (or_introl eq_refl)) as Hrb. destruct cy; eauto. }
    run_in R3. rewrite E2 in R3. exists s3, t3, m, (e_loc y). split_and!; try done.
    + rewrite E3, plug_app. cbn [plug f_dir f_col f_ent f_sib mk]. rewrite !elems_plug_split. cbn [elems].
      rewrite !elems_plug_split, (left_spine _ Hd). cbn [elems app]. rewrite !fmap_app, !fmap_cons, !fmap_app.
      repeat (rewrite <- app_assoc; cbn [app]). done.
    + eapply framed_mono; [|exact (framed_trans _ _ _ _ _ F1 (framed_trans _ _ _ _ _ F2 F3))].
      assert (nodes (ctx1 ++ Fr R c e' l :: ctx) ry = nodes ctx (T c l e (plug ctx1 ry))) as ->
        by (rewrite nodes_app; by apply (nodes_rename ctx c l e e')).
      intros z. rewrite E2, <- Hnodes, !nodes_split. cbn [elems]. rewrite !elems_plug_split. cbn [elems app].
      rewrite !fmap_app, !fmap_cons, !fmap_app. cbn [fmap list_fmap]. set_solver.
Qed.
