(* ===== verification/RbtreeFacts.v ===== *)
(** * The red-black tree engine refines a finite map

    [rrep c w m]: the heap of [w] holds a red-black search tree with the pairs
    of [m], and its counter is [c]. *)

From stdpp Require Import sorting.
From S2P Require Import Prelude CRuntime Rbtree RbShape RbtreeZip RbtreeIns RbtreeSearch RbtreeDel.

(** ** Ordered lists of pairs as maps *)

Definition klt (p q : cstr * vptr) : Prop := strcmp p.1 q.1 < 0.

Lemma ordered_kv l : ordered l ↔ StronglySorted klt (kv <$> l).
Proof.
  unfold ordered. induction l as [|e l IH]; simpl; [split; constructor|].
  rewrite !StronglySorted_cons, IH, Forall_fmap. done.
Qed.

Lemma klt_NoDup l : StronglySorted klt l → NoDup l.*1.
Proof.
  induction 1 as [|p l Hs IH Hp]; simpl; constructor; [|done].
  intros (q & Hq & Hin)%list_elem_of_fmap. rewrite Forall_forall in Hp. specialize (Hp q Hin).
  unfold klt in Hp. rewrite Hq, strcmp_refl in Hp. lia.
Qed.

Lemma klt_drop l1 p l2 : StronglySorted klt (l1 ++ p :: l2) → StronglySorted klt (l1 ++ l2).
Proof.
  rewrite !StronglySorted_app, StronglySorted_cons. intros (H1 & H2 & _ & H3). split_and!; try done.
  intros x y Hx Hy. apply H1; [done|]. by right.
Qed.

Definition tmap (t : tree) : gmap cstr vptr := list_to_map (kv <$> elems t).

Lemma tmap_insert l1 l2 k v :
  NoDup (l1 ++ (k, v) :: l2).*1 →
  (list_to_map (l1 ++ (k, v) :: l2) : gmap cstr vptr) = <[k := v]> (list_to_map (l1 ++ l2)).
Proof.
  intros Hnd. change (<[k := v]> (list_to_map (l1 ++ l2)))
    with (list_to_map ((k, v) :: l1 ++ l2) : gmap cstr vptr).
  apply list_to_map_proper; [done|]. by rewrite Permutation_middle.
Qed.

Lemma tmap_delete l1 l2 k v :
  NoDup (l1 ++ (k, v) :: l2).*1 →
  (list_to_map (l1 ++ l2) : gmap cstr vptr) = delete k (list_to_map (l1 ++ (k, v) :: l2)).
Proof.
  intros Hnd. rewrite tmap_insert by done. rewrite delete_insert_id; [done|].
  apply not_elem_of_list_to_map_1. rewrite !fmap_app in *. cbn [fmap list_fmap fst] in Hnd.
  rewrite <- Permutation_middle, NoDup_cons in Hnd. apply Hnd.
Qed.

Lemma tmap_keys t k : k ∉ e_key <$> elems t ↔ tmap t !! k = None.
Proof.
  unfold tmap. rewrite <- not_elem_of_list_to_map. rewrite <- list_fmap_compose. done.
Qed.

Lemma tmap_node t ctx c l e r :
  ordered (elems t) → plug ctx (T c l e r) = t → tmap t !! e_key e = Some (e_val e).
Proof.
  intros Ho Hp. unfold tmap. apply elem_of_list_to_map_1.
  - apply klt_NoDup. by apply ordered_kv.
  - rewrite <- Hp, elems_plug_split. cbn [elems]. rewrite !fmap_app, !fmap_cons. unfold kv. set_solver.
Qed.

Lemma tmap_size t : ordered (elems t) → size (tmap t) = length (elems t).
Proof.
  intros Ho%ordered_kv%klt_NoDup. unfold tmap. rewrite <- (length_fmap kv (elems t)).
  induction (kv <$> elems t) as [|[k v] l IH]; [done|]. cbn [fmap list_fmap fst] in Ho.
  apply NoDup_cons in Ho as [Hk Hl]. cbn [list_to_map foldr fst snd uncurry].
  rewrite map_size_insert_None; [by rewrite IH|]. by apply not_elem_of_list_to_map_1.
Qed.

(** ** The representation *)

(** The heap of [s] holds the red-black search tree [t]. *)
Definition shape (s : rbtree) (t : tree) : Prop :=
  zrep s [] t ∧ (∃ n, good [] t n) ∧ ordered (elems t).

(** Addresses handed out so far. *)
Definition addressed (s : rbtree) (a : alloc) : Prop :=
  ∀ z, z ∈ dom (t_heap s) → (z ≤ N.of_nat (al_calls a))%N.

Definition rrep (c : Z) (w : world rbtree) (m : gmap cstr vptr) : Prop :=
  ∃ t, shape (w_eng w) t ∧ m = tmap t ∧ t_count (w_eng w) = c ∧
    addressed (w_eng w) (w_al w) ∧ map_Forall (λ _ v, v ≠ VFreed) m.

Lemma shape_height s t : shape s t → (height t ≤ 2 * Nat.log2 (S (size (tmap t))))%nat.
Proof.
  intros (_ & (n & _ & Hg & Hr) & Ho). rewrite tmap_size by done.
  eapply rb_balanced; [done|]. destruct (root_col t); [by destruct Hr|done].
Qed.

(** [x] is the node that holds the key [k] and its value, or the sentinel when
    there is none. *)
Definition found_node (s : rbtree) (k : cstr) (v : option vptr) (x : loc) : Prop :=
  match v with
  | Some v => x ≠ t_nil s ∧ (∃ t, shape s t ∧ x ∈ e_loc <$> elems t) ∧
      ∃ n, t_heap s !! x = Some n ∧ n_key n = Some (VStr k) ∧ n_value n = Some v
  | None => x = t_nil s
  end.

Lemma found_at s t ctx c l e r :
  shape s t → plug ctx (T c l e r) = t → zrep s ctx (T c l e r) →
  found_node s (e_key e) (Some (e_val e)) (e_loc e).
Proof.
  intros Hs Hp Hze. destruct (zrep_node s ctx L _ _ _ _ Hze) as (_ & Hnl & Hn). split; [done|]. split.
  - exists t. split; [done|]. apply list_elem_of_fmap. exists e. split; [done|]. rewrite <- Hp, elems_plug_split.
    cbn [elems]. set_solver.
  - eexists. split; [exact Hn|done].
Qed.

(** More rounds do not change what a search returns. *)
Lemma search_more n n' k x w r :
  search_loop n k x w = Ok r → (n ≤ n')%nat → search_loop n' k x w = Ok r.
Proof.
  destruct r as [r w']. revert n' x w. induction n as [|n IH]; intros n' x w H Hn; [done|]. destruct n' as [|n']; [lia|].
  cbn [search_loop] in *. apply bind_inv in H as (nil & w1 & H1 & H). rewrite bind_run, H1.
  destruct (N.eqb x nil); [done|]. apply bind_inv in H as (nk & w2 & H2 & H). rewrite bind_run, H2.
  destruct k as [k|]; [|done]. destruct (_ <? 0).
  { apply bind_inv in H as (y & w3 & H3 & H). rewrite bind_run, H3. apply IH; [done|lia]. }
  destruct (0 <? _); [|done]. apply bind_inv in H as (y & w3 & H3 & H). rewrite bind_run, H3. apply IH; [done|lia].
Qed.

(** A search needs no more steps than the height. *)
Lemma search_steps c w m k fuel :
  rrep c w m → (2 * Nat.log2 (S (size m)) < fuel)%nat →
  ∃ x, search_loop fuel (Some k) (t_root (w_eng w)) w = Ok (x, w) ∧ found_node (w_eng w) k (m !! k) x.
Proof.
  intros (t & Hs & -> & _) Hf. pose proof (shape_height _ _ Hs) as Hh.
  pose proof Hs as (Hz & _ & Ho). destruct w as [s a]. cbn [w_eng w_al] in *.
  rewrite (z_ctx _ _ _ Hz : t_root s = _).
  destruct (search_loop_run fuel s a [] t k Hz Ho (between_nil k)) as (x & Hrun & Hx); [lia|].
  exists x. split; [exact Hrun|]. destruct Hx as [(ctx & c' & l & e & r & -> & <- & Hp & Hze)|[-> Hk]].
  - rewrite (tmap_node t ctx c' l e r Ho Hp). by eapply found_at.
  - rewrite tmap_keys in Hk. cbn [plug] in Hk. by rewrite Hk.
Qed.

(** What a search through the whole tree finds. *)
Lemma rsearch_run s a t k :
  shape s t →
  (∃ ctx c l e r, rbtree_search (Some k) (World s a) = Ok (e_loc e, World s a) ∧ e_key e = k ∧
     plug ctx (T c l e r) = t ∧ zrep s ctx (T c l e r) ∧ e_loc e ≠ t_nil s ∧
     tmap t !! k = Some (e_val e)) ∨
  (rbtree_search (Some k) (World s a) = Ok (t_nil s, World s a) ∧ tmap t !! k = None).
Proof.
  intros (Hz & _ & Ho). destruct (search_run s a t k Hz Ho) as (x & Hr & Hf).
  destruct Hf as [(ctx & c' & l & e & r & -> & <- & Hp & Hze)|[-> Hk]]; [left|right].
  - destruct (zrep_node s ctx L _ _ _ _ Hze) as (H0 & Hnl & Hn). exists ctx, c', l, e, r.
    rewrite (tmap_node t ctx c' l e r Ho Hp). done.
  - by rewrite tmap_keys in Hk.
Qed.

(** ** Look-up *)

Lemma rget_run c w m k :
  rrep c w m → kvs_rbtree_get (Some tt) (Some k) w = Ok (default VNull (m !! k), w).
Proof.
  intros (t & Hs & -> & _). destruct w as [s a]. cbn [w_eng] in *.
  unfold kvs_rbtree_get. run.
  destruct (rsearch_run s a t k Hs) as [(ctx & c' & l & e & r & -> & _ & _ & Hze & Hnl & ->)|[-> ->]]; run.
  - destruct (zrep_node s ctx L _ _ _ _ Hze) as (H0 & _ & Hn). rewrite eqb_ne by done.
    by rewrite (rd_run _ _ _ _ n_value _ H0 Hn eq_refl).
  - by rewrite eqb_refl'.
Qed.

(** ** Storing a pair *)

Definition fresh_addr (a : alloc) : loc := N.of_nat (S (al_calls a)).

Lemma fresh_addr_free s a : addressed s a → fresh_addr a ∉ dom (t_heap s).
Proof. intros H Hin. apply H in Hin. unfold fresh_addr in Hin. lia. Qed.

Lemma malloc_node_run s a :
  malloc_node (World s a) =
    if al_ok a (al_calls a) then
      Ok (fresh_addr a, World (wrote (fresh_addr a) (blank (al_zero a (al_calls a))) s) (al_next a 1))
    else Ok (NULL, World s (al_next a 0)).
Proof.
  unfold malloc_node. destruct (al_ok a (al_calls a)) eqn:E; [by rewrite malloc_Some|by rewrite malloc_None].
Qed.

(** Giving back a node that was just allocated. *)
Lemma free_fresh_run s a p n :
  p ≠ NULL → p ∉ dom (t_heap s) → free_node p (World (wrote p n s) a) = Ok (tt, World s (al_dec a)).
Proof.
  intros Hp Hd. unfold free_node. rewrite eqb_ne by done. run. rewrite wrote_eq. run.
  do 3 f_equal. unfold with_heap, wrote. destruct s as [r nl c h]. cbn in *.
  rewrite delete_insert_id; [done|]. by apply not_elem_of_dom.
Qed.

Lemma shape_wrote s t p n : shape s t → p ∉ dom (t_heap s) → shape (wrote p n s) t.
Proof.
  intros (Hz & Hg & Ho) Hp. split_and!; try done. apply wrote_outside; [done|].
  rewrite nodes_locs. intros Hin. apply Hp. apply elem_of_cons in Hin as [->|Hin].
  - destruct (z_nil _ _ _ Hz) as (m & Hm & _). by eapply elem_of_dom_2.
  - cbn [clocs app] in Hin. by eapply trep_dom; [apply (z_tree _ _ _ Hz)|].
Qed.

Lemma wrote_wrote p n n' s : wrote p n' (wrote p n s) = wrote p n' s.
Proof. unfold wrote, with_heap. cbn. by rewrite insert_insert_eq. Qed.

Lemma addressed_wrote s a p n d :
  addressed s a → (p ≤ N.of_nat (S (al_calls a)))%N → addressed (wrote p n s) (al_next a d).
Proof.
  intros Ha Hp z Hz. unfold wrote, with_heap in Hz. cbn in Hz. apply dom_insert in Hz.
  apply elem_of_union in Hz as [->%elem_of_singleton|Hz]; cbn; [lia|]. apply Ha in Hz. lia.
Qed.

Lemma addressed_mono s a a' : addressed s a → (al_calls a ≤ al_calls a')%nat → addressed s a'.
Proof. intros Ha Hle z Hz. apply Ha in Hz. lia. Qed.

Lemma addressed_framed ls s s' a : framed ls s s' → addressed s a → addressed s' a.
Proof. intros (_ & _ & Hd & _) Ha z Hz. apply Ha. by rewrite <- Hd. Qed.

(** Hanging a filled node into the tree. *)
Lemma rinsert_run s a t z nz k v :
  shape s t → z ≠ NULL → z ∉ dom (t_heap s) → n_key nz = Some (VStr k) → n_value nz = Some v →
  ∃ s' t', rbtree_insert z (World (wrote z nz s) a) = Ok (tt, World s' a) ∧ shape s' t' ∧
    tmap t' = (if tmap t !! k then tmap t else <[k := v]> (tmap t)) ∧
    t_count s' = t_count s ∧ dom (t_heap s') = dom (t_heap (wrote z nz s)).
Proof.
  intros Hs Hz0 Hd Hk Hv. pose proof (shape_wrote s t z nz Hs Hd) as Hs1. pose proof Hs1 as (Hz & (n & Hg) & Ho).
  assert (z ∉ t_nil s :: locs t) as Hfr.
  { destruct Hs as (Hz' & _). intros Hin. apply Hd. apply elem_of_cons in Hin as [->|Hin].
    - destruct (z_nil _ _ _ Hz') as (m & Hm & _). by eapply elem_of_dom_2.
    - by eapply trep_dom; [apply (z_tree _ _ _ Hz')|]. }
  destruct (insert_run _ a t n z nz k v Hz Hg Ho Hz0 Hfr (wrote_eq _ _ _) Hk Hv) as
    [[Hin Hr]|(Hin & s' & t' & m & l1 & l2 & Hr & Hz' & Hg' & Ho' & E1 & E2 & Hf)].
  - exists (wrote z nz s), t. split_and!; try done. destruct (tmap t !! k) eqn:E; [done|].
    by apply tmap_keys in E.
  - exists s', t'. split; [done|]. destruct Hf as (_ & Hc & Hdom & _). split_and!; try done.
    { split; [done|]. split; [by exists m|done]. }
    apply tmap_keys in Hin. rewrite Hin. unfold tmap. rewrite E1, E2, !fmap_app, fmap_cons. apply tmap_insert.
    change (k, v) with (kv (Ent z k v)). rewrite <- fmap_cons, <- fmap_app, <- E2.
    apply klt_NoDup. by apply ordered_kv.
Qed.

(** The three allocations of [kvs_rbtree_set]: a filled node outside the tree,
    or everything given back. *)
Lemma set_alloc_run s a t k v :
  shape s t → addressed s a →
  (∃ a', kvs_rbtree_set (Some tt) (Some k) (Some v) (World s a) = Ok (-1, World s a') ∧
     ¬ al_total a ∧ al_live a' = al_live a ∧ (al_calls a ≤ al_calls a')%nat) ∨
  (∃ nz a', kvs_rbtree_set (Some tt) (Some k) (Some v) (World s a) =
     (_ ← rbtree_insert (fresh_addr a); t ← get_eng; _ ← set_count (i32 (t_count t + 1)); mret 0)
       (World (wrote (fresh_addr a) nz s) a') ∧
     n_key nz = Some (VStr k) ∧ n_value nz = Some (VStr v) ∧
     a' = al_next (al_next (al_next a 1) 1) 1).
Proof.
  intros Hs Ha. pose proof (fresh_addr_free _ _ Ha) as Hd.
  assert (fresh_addr a ≠ NULL) as H0 by (unfold fresh_addr, NULL; lia).
  unfold kvs_rbtree_set. run. rewrite malloc_node_run.
  destruct (al_ok a (al_calls a)) eqn:E1; cbn beta iota.
  2: { left. exists (al_next a 0). rewrite eqb_refl'. split_and!; [done|..|cbn; lia|cbn; lia].
       intros Ht. by rewrite Ht in E1. }
  rewrite eqb_ne by done. run.
  destruct (al_ok a (S (al_calls a))) eqn:E2.
  2: { left. rewrite malloc_None by done. cbn beta iota. run.
       rewrite (wr_run _ _ _ _ _ H0 (wrote_eq _ _ _)), wrote_wrote. cbn [null]. run.
       rewrite free_fresh_run by done. run. eexists. split; [done|]. split_and!; [|cbn; lia|cbn; lia].
       intros Ht. rewrite Ht in E2; [done|lia]. }
  rewrite malloc_Some by done. cbn beta iota. run.
  rewrite (wr_run _ _ _ _ _ H0 (wrote_eq _ _ _)), wrote_wrote. cbn [null]. run.
  destruct (al_ok a (S (S (al_calls a)))) eqn:E3.
  2: { left. rewrite malloc_None by done. cbn beta iota. run.
       rewrite (wr_run _ _ _ _ _ H0 (wrote_eq _ _ _)), wrote_wrote. cbn [null]. run.
       erewrite (rd_run _ _ _ _ n_key (VStr k) H0 (wrote_eq _ _ _)) by reflexivity. cbn [free_vptr]. run.
       rewrite free_fresh_run by done. run. eexists. split; [done|]. split_and!; [|cbn; lia|cbn; lia].
       intros Ht. rewrite Ht in E3; [done|lia]. }
  right. rewrite malloc_Some by done. cbn beta iota. run.
  rewrite (wr_run _ _ _ _ _ H0 (wrote_eq _ _ _)), wrote_wrote. cbn [null]. run.
  eexists _, _. split; [done|]. done.
Qed.

Definition counted (c : Z) (s : rbtree) : rbtree := Rbtree (t_root s) (t_nil s) c (t_heap s).

Lemma shape_counted c s t : shape s t → shape (counted c s) t.
Proof. intros ([H1 H2 H3 H4 H5] & Hg & Ho). split; [by constructor|done]. Qed.

Lemma set_count_run s a c : set_count c (World s a) = Ok (tt, World (counted c s) a).
Proof. done. Qed.

(** [kvs_rbtree_set] on any well-formed tree: a new key is stored; a key that
    is there keeps its old value while the counter grows and the three new
    blocks are lost; without memory nothing changes. *)
Lemma rset_run c w m k v :
  rrep c w m →
  ∃ r w', kvs_rbtree_set (Some tt) (Some k) (Some v) w = Ok (r, w') ∧
  ((r = 0 ∧ rrep (i32 (c + 1)) w' (if m !! k then m else <[k := VStr v]> m) ∧
    al_live (w_al w') = al_live (w_al w) + 3 ∧ (al_total (w_al w) → al_total (w_al w'))) ∨
   (r = -1 ∧ rrep c w' m ∧ al_live (w_al w') = al_live (w_al w) ∧ ¬ al_total (w_al w))).
Proof.
  intros (t & Hs & -> & <- & Ha & Hf). destruct w as [s a]. cbn [w_eng w_al] in *.
  destruct (set_alloc_run s a t k v Hs Ha) as [(a' & Hr & Ht & Hl & Hc)|(nz & a' & Hr & Hk & Hv & ->)].
  - exists (-1), (World s a'). split; [done|]. right. cbn. split_and!; try done.
    exists t. split_and!; try done. by eapply addressed_mono.
  - rewrite Hr. run. assert (fresh_addr a ≠ NULL) as H0 by (unfold fresh_addr, NULL; lia).
    destruct (rinsert_run s (al_next (al_next (al_next a 1) 1) 1) t _ nz k (VStr v) Hs H0 (fresh_addr_free _ _ Ha) Hk Hv)
      as (s' & t' & -> & Hs' & Em & Hc & Hd). run. rewrite set_count_run. run.
    eexists _, _. split; [done|]. left. cbn [w_eng w_al]. split_and!; [done|..|cbn; lia|by auto with ga].
    exists t'. cbn [w_eng w_al]. split_and!; [by apply shape_counted|by rewrite Em|cbn; by rewrite Hc|..].
    + intros z Hz. cbn [counted t_heap] in Hz. rewrite Hd in Hz. unfold wrote, with_heap in Hz. cbn in Hz.
      apply dom_insert, elem_of_union in Hz as [->%elem_of_singleton|Hz];
        [unfold fresh_addr; cbn; lia|]. apply Ha in Hz. cbn. lia.
    + destruct (tmap t !! k); [done|]. apply map_Forall_insert_2; done.
Qed.

(** ** Removing a key *)

(** The node is taken out of the tree but never freed: the allocator is as
    before. *)
Lemma rdelete_run c w m k :
  rrep c w m →
  (m !! k = None ∧ kvs_rbtree_delete (Some tt) (Some k) w = Ok (-1, w)) ∨
  (is_Some (m !! k) ∧ ∃ w', kvs_rbtree_delete (Some tt) (Some k) w = Ok (0, w') ∧
     rrep (i32 (c - 1)) w' (delete k m) ∧ w_al w' = w_al w).
Proof.
  intros (t & Hs & -> & <- & Ha & Hf). destruct w as [s a]. cbn [w_eng w_al] in *.
  unfold kvs_rbtree_delete. run.
  destruct (rsearch_run s a t k Hs) as [(ctx & c' & l & e & r & -> & Hk & Hp & Hze & Hnl & Hm)|[-> Hm]]; run.
  2: { left. by rewrite eqb_refl'. }
  right. split; [by rewrite Hm|]. rewrite eqb_ne by done. run.
  destruct Hs as (Hz & (n & Hg) & Ho). rewrite <- Hp in Hg. apply good_unplug in Hg as [n' Hg].
  rewrite app_nil_r in Hg.
  destruct (delete_run s a ctx c' l e r n' Hze Hg) as (s' & t' & n'' & y & -> & Hy & Hz' & Hg' & El & Hfr).
  run. unfold free_if_null. rewrite eqb_ne by done. run. rewrite set_count_run. run.
  eexists. split; [done|]. split; [|done].
  assert (kv <$> elems t = (kv <$> cpre ctx ++ elems l) ++ (k, e_val e) :: (kv <$> elems r ++ cpost ctx)) as Et.
  { rewrite <- Hp, elems_plug_split. cbn [elems]. rewrite !fmap_app, fmap_cons, <- !app_assoc. unfold kv at 3.
    by rewrite Hk. }
  pose proof Ho as Ho2. apply ordered_kv in Ho2. rewrite Et in Ho2. exists t'. cbn [w_eng w_al].
  assert (tmap t' = delete k (tmap t)) as Em.
  { unfold tmap. rewrite El, Et. apply tmap_delete. by apply klt_NoDup. }
  split_and!; [apply shape_counted|done|cbn; by rewrite (proj1 (proj2 Hfr))|..].
  - split; [done|]. split; [by eexists|]. apply ordered_kv. rewrite El. by eapply klt_drop.
  - by apply (addressed_framed _ _ _ _ Hfr).
  - by apply map_Forall_delete.
Qed.

(** ** Replacing a value *)

Lemma ordered_keys l l' : e_key <$> l = e_key <$> l' → ordered l → ordered l'.
Proof.
  assert (∀ l, ordered l ↔ StronglySorted (λ x y, strcmp x y < 0) (e_key <$> l)) as H.
  { intros l0. unfold ordered. induction l0 as [|e l0 IH]; simpl; [split; constructor|].
    rewrite !StronglySorted_cons, IH, Forall_fmap. done. }
  rewrite !H. by intros ->.
Qed.

Lemma shape_revalue s t ctx c l e r v :
  shape s t → plug ctx (T c l e r) = t → tmap t !! e_key e = Some (e_val e) → ∀ s',
  zrep s' ctx (T c l (Ent (e_loc e) (e_key e) v) r) →
  ∃ t', shape s' t' ∧ tmap t' = <[e_key e := v]> (tmap t).
Proof.
  intros (Hz & (n & Hg) & Ho) Hp Hm s' Hz'. exists (plug ctx (T c l (Ent (e_loc e) (e_key e) v) r)).
  assert (∀ e', kv <$> elems (plug ctx (T c l e' r)) =
    (kv <$> cpre ctx ++ elems l) ++ (e_key e', e_val e') :: (kv <$> elems r ++ cpost ctx)) as Et.
  { intros e'. rewrite elems_plug_split. cbn [elems]. by rewrite !fmap_app, fmap_cons, <- !app_assoc. }
  assert (ordered (elems (plug ctx (T c l (Ent (e_loc e) (e_key e) v) r)))) as Ho'.
  { eapply ordered_keys; [|exact Ho]. rewrite <- Hp, !elems_plug_split. cbn [elems].
    by rewrite !fmap_app, !fmap_cons. }
  split; [split_and!; [..|done]|].
  - apply zrep_plug. by rewrite app_nil_r.
  - rewrite <- Hp in Hg. apply good_unplug in Hg as [m Hg]. rewrite app_nil_r in Hg.
    eapply good_plug, good_rename, Hg.
  - unfold tmap. rewrite <- Hp, !Et. rewrite !tmap_insert; [by rewrite insert_insert_eq|..];
      rewrite <- Et; apply klt_NoDup, ordered_kv; [by rewrite Hp|done].
Qed.

Lemma revalue_run s a t ctx c l e r v :
  shape s t → plug ctx (T c l e r) = t → zrep s ctx (T c l e r) → tmap t !! e_key e = Some (e_val e) →
  addressed s a → map_Forall (λ _ v, v ≠ VFreed) (tmap t) → v ≠ VFreed →
  ∃ s', wr (e_loc e) (set_value v) (World s a) = Ok (tt, World s' a) ∧
    rrep (t_count s) (World s' a) (<[e_key e := v]> (tmap t)).
Proof.
  intros Hs Hp Hz Hm Ha Hf Hv.
  destruct (renode_run s a ctx L c e l r Hz (set_value v) c (Ent (e_loc e) (e_key e) v))
    as (s' & -> & Hz' & Hfr); [done..|]. exists s'. split; [done|].
  destruct (shape_revalue s t ctx c l e r v Hs Hp Hm s' Hz') as (t' & Hs' & Em).
  exists t'. split_and!; [done|done|apply Hfr|by apply (addressed_framed _ _ _ _ Hfr)|by apply map_Forall_insert_2].
Qed.

Lemma rmodify_run c w m k v :
  rrep c w m →
  (m !! k = None ∧ kvs_rbtree_modify (Some tt) (Some k) (Some v) w = Ok (-1, w)) ∨
  (is_Some (m !! k) ∧ ∃ r w', kvs_rbtree_modify (Some tt) (Some k) (Some v) w = Ok (r, w') ∧
     (al_total (w_al w) → al_total (w_al w')) ∧
     ((r = 0 ∧ rrep c w' (<[k := VStr v]> m)) ∨
      (r = -1 ∧ rrep c w' (<[k := VNull]> m) ∧ ¬ al_total (w_al w)))).
Proof.
  intros (t & Hs & -> & <- & Ha & Hf). destruct w as [s a]. cbn [w_eng w_al] in *.
  unfold kvs_rbtree_modify. run.
  destruct (rsearch_run s a t k Hs) as [(ctx & c' & l & e & r & -> & <- & Hp & Hze & Hnl & Hm)|[-> Hm]]; run.
  2: { left. by rewrite eqb_refl'. }
  right. split; [by rewrite Hm|]. rewrite eqb_ne by done. run.
  destruct (zrep_node s ctx L _ _ _ _ Hze) as (H0 & _ & Hn).
  rewrite (rd_run _ _ _ _ n_value _ H0 Hn eq_refl). run.
  assert (∃ a', free_vptr (e_val e) (World s a) = Ok (tt, World s a') ∧ al_ok a' = al_ok a ∧ al_calls a' = al_calls a)
    as (a' & -> & Eo & Ec).
  { specialize (Hf _ _ Hm). cbn in Hf. destruct (e_val e); [exists a|exists (al_dec a)|]; done. }
  run. assert (al_total a' ↔ al_total a) as Et by (unfold al_total; by rewrite Eo, Ec).
  assert (∀ d, addressed s (al_next a' d)) as Ha' by (intros d; eapply addressed_mono; [done|cbn; lia]).
  destruct (al_ok a' (al_calls a')) eqn:E; [rewrite malloc_Some by done|rewrite malloc_None by done]; run; cbn [null].
  - destruct (revalue_run s _ t ctx c' l e r (VStr v) Hs Hp Hze Hm (Ha' 1) Hf) as (s' & -> & Hrep); [done|]. run.
    eexists _, _. split; [done|]. split; [intros ?%Et; by apply al_total_next|by left].
  - destruct (revalue_run s _ t ctx c' l e r VNull Hs Hp Hze Hm (Ha' 0) Hf) as (s' & -> & Hrep); [done|]. run.
    eexists _, _. split; [done|]. split; [intros ?%Et; by apply al_total_next|right].
    split_and!; try done. rewrite <- Et. intros Ht. by rewrite Ht in E.
Qed.

(** ** Creation *)

(** The results of the two allocations are used unchecked. *)
Lemma rcreate_oom a :
  al_ok a (al_calls a) && al_ok a (S (al_calls a)) = false →
  kvstore_rbtree_create (Some tt) (World Tree0 a) = Err NullDeref.
Proof.
  assert (fresh_addr a ≠ NULL) as H0 by (unfold fresh_addr, NULL; lia).
  unfold kvstore_rbtree_create. cbn [null]. run. cbn [Tree0 t_heap]. rewrite malloc_node_run.
  destruct (al_ok a (al_calls a)) eqn:E1; cbn [andb]; intros E2; run.
  - rewrite malloc_None by done. run. erewrite (wr_run _ _ _ _ _ H0) by apply wrote_eq. by run.
  - unfold kvstore_malloc. cbn. by destruct (al_ok a (S (al_calls a))).
Qed.

(** Otherwise the tree is empty. *)
Lemma rcreate_run a :
  al_ok a (al_calls a) && al_ok a (S (al_calls a)) = true →
  ∃ s, kvstore_rbtree_create (Some tt) (World Tree0 a) = Ok (0, World s (al_next (al_next a 1) 1)) ∧
    rrep 0 (World s (al_next (al_next a 1) 1)) ∅.
Proof.
  assert (fresh_addr a ≠ NULL) as H0 by (unfold fresh_addr, NULL; lia).
  intros [E1 E2]%andb_prop. unfold kvstore_rbtree_create. cbn [null]. run. cbn [Tree0 t_heap].
  rewrite malloc_node_run, E1. run.
  rewrite malloc_Some by done. run. erewrite (wr_run _ _ _ _ _ H0) by apply wrote_eq. run. cbn [null]. run.
  erewrite (wr_run _ _ _ _ _ H0) by apply wrote_eq. run. unfold set_root. run.
  eexists. split; [done|]. exists Leaf. cbn [w_eng w_al]. split_and!; try done.
  - split_and!; [constructor; cbn [t_nil t_root t_heap clocs locs app]|..].
    + done.
    + done.
    + apply NoDup_singleton.
    + set_solver.
    + eexists. split; [apply wrote_eq|done].
    + exists 0%nat. repeat split; [constructor..|done].
    + constructor.
  - intros z Hz. cbn in Hz. rewrite !dom_insert_L in Hz. unfold fresh_addr in *. cbn. set_solver by lia.
Qed.

(** ** Traversal *)

Fixpoint lines (t : tree) : list (cstr * Z) :=
  match t with Leaf => [] | T c l e r => lines l ++ (e_key e, cz c) :: lines r end.

Lemma lines_keys t : (lines t).*1 = e_key <$> elems t.
Proof. induction t as [|c l IHl e r IHr]; [done|]. simpl. by rewrite !fmap_app, !fmap_cons, IHl, IHr. Qed.

Lemma traversal_tree fuel s a ctx t :
  zrep s ctx t → (height t < fuel)%nat →
  rbtree_traversal fuel (ptr (t_nil s) t) (World s a) = Ok (lines t, World s a).
Proof.
  revert ctx t. induction fuel as [|fuel IH]; intros ctx t Hz Hf; [lia|]. cbn [rbtree_traversal]. run.
  unfold get_nil. run. destruct t as [|c l e r]; cbn [ptr]; [by rewrite eqb_refl'|].
  destruct (zrep_node s ctx L _ _ _ _ Hz) as (H0 & Hnl & Hn). rewrite eqb_ne by done. cbn [height] in Hf. run.
  rewrite (rd_child s a ctx L _ _ _ _ Hz : rd _ n_left _ = _). run.
  rewrite (IH _ _ (zrep_in s L c e r ctx l Hz)) by lia. run.
  unfold rd_key. run. rewrite (rd_run _ _ _ _ n_key _ H0 Hn eq_refl). run.
  rewrite (rd_run _ _ _ _ n_color _ H0 Hn eq_refl). run.
  rewrite (rd_child s a ctx R c e r l Hz : rd _ n_right _ = _). run.
  rewrite (IH _ _ (zrep_in s R c e l ctx r Hz)) by lia. done.
Qed.

(** Printing the tree lists every key once, in the order of [strcmp]. *)
Lemma rtraversal_run c w m fuel :
  rrep c w m → (2 * Nat.log2 (S (size m)) < fuel)%nat →
  ∃ out, rbtree_traversal fuel (t_root (w_eng w)) w = Ok (out, w) ∧
    StronglySorted (λ x y, strcmp x y < 0) out.*1 ∧ ∀ k, k ∈ out.*1 ↔ is_Some (m !! k).
Proof.
  intros (t & Hs & -> & _) Hf. pose proof (shape_height _ _ Hs) as Hh. destruct Hs as (Hz & _ & Ho).
  destruct w as [s a]. cbn [w_eng] in *. rewrite (z_ctx _ _ _ Hz : t_root s = _).
  exists (lines t). rewrite lines_keys. split_and!.
  - apply (traversal_tree _ _ _ []); [done|lia].
  - clear Hh. unfold ordered in Ho. induction Ho as [|e l Hl IH He]; simpl; constructor; [done|].
    by apply Forall_fmap.
  - intros k. destruct (tmap t !! k) eqn:E; [split; [done|]|split; [|by intros []]].
    + intros _. destruct (decide (k ∈ e_key <$> elems t)) as [|Hn]; [done|].
      apply tmap_keys in Hn. congruence.
    + intros Hin. by apply tmap_keys in E.
Qed.
