(* ===== verification/Engine.v ===== *)
(** * The engine interface (adapter layer of src/kv_store/kv_store.c)

    [kvstore_set/get/delete/modify] forward to the engine the build selects.
    [KvEngine] is that selection; [KvLaws] is what the protocol layer may rely
    on, stated once and discharged by the hash, array and red-black tree
    engines. *)

From S2P Require Import Prelude CRuntime Hash HashFacts Array Rbtree RbtreeFacts.

(** The engine the preprocessor selects with [ENABLE_*_KVENGINE]. *)
Class KvEngine (E : Type) := {
  eng_set : option cstr → option cstr → prog (world E) Z;
  eng_get : option cstr → prog (world E) vptr;
  eng_delete : option cstr → prog (world E) Z;
  eng_modify : option cstr → option cstr → prog (world E) Z;
}.

(** A [char *] result as a pointer value. *)
Definition of_ptr (p : option cstr) : vptr :=
  match p with Some s => VStr s | None => VNull end.

#[global] Instance hash_engine : KvEngine hashtable_t := {|
  eng_set := kvs_hash_set (Some tt);
  eng_get := λ k, v ← kvs_hash_get (Some tt) k; mret (of_ptr v);
  eng_delete := kvs_hash_delete (Some tt);
  eng_modify := kvs_hash_modify (Some tt);
|}.

#[global] Instance array_engine : KvEngine array_t := {|
  eng_set := kvstore_array_set (Some tt);
  eng_get := kvstore_array_get (Some tt);
  eng_delete := kvstore_array_delete (Some tt);
  eng_modify := kvstore_array_modify (Some tt);
|}.

#[global] Instance rbtree_engine : KvEngine rbtree := {|
  eng_set := kvs_rbtree_set (Some tt);
  eng_get := kvs_rbtree_get (Some tt);
  eng_delete := kvs_rbtree_delete (Some tt);
  eng_modify := kvs_rbtree_modify (Some tt);
|}.

Section adapter.
Context {E : Type} `{!KvEngine E}.

(* src/kv_store/kv_store.c kvstore_set *)
Definition kvstore_set (k v : option cstr) : prog (world E) Z := eng_set k v.
(* src/kv_store/kv_store.c kvstore_get *)
Definition kvstore_get (k : option cstr) : prog (world E) vptr := eng_get k.
(* src/kv_store/kv_store.c kvstore_delete *)
Definition kvstore_delete (k : option cstr) : prog (world E) Z := eng_delete k.
(* src/kv_store/kv_store.c kvstore_modify *)
Definition kvstore_modify (k v : option cstr) : prog (world E) Z := eng_modify k v.
End adapter.

(* src/kv_store/kv_store.c init_kvengine *)
(** With the shipped configuration only the hash engine is enabled. *)
Definition init_kvengine : prog (world hashtable_t) Z :=
  _ ← kvstore_hash_create (Some tt); mret 0.

(* src/kv_store/kv_store.c exit_kvengine *)
Definition exit_kvengine : prog (world hashtable_t) Z :=
  _ ← kvstore_hash_destory (Some tt); mret 0.

(** ** What an engine promises

    [kv_inv w m]: the engine's state [w] stores the map [m], memory can be
    allocated, and no lock is held.  A key that is absent can be stored while
    there is room, and so can a present one if the engine overwrites;
    [kv_missing] is the code for an absent key. *)
Class KvLaws (E : Type) `{!KvEngine E} := {
  kv_inv : world E → gmap cstr cstr → Prop;
  kv_cap : Z;
  kv_missing : Z;
  kv_missing_ne : kv_missing ≠ 0;
  (** whether storing a present key replaces its value *)
  kv_overwrites : bool;
  law_set w m k v :
    kv_inv w m → kv_overwrites = true ∨ m !! k = None → Z.of_nat (size m) < kv_cap →
    ∃ w', eng_set (Some k) (Some v) w = Ok (0, w') ∧ kv_inv w' (<[k := v]> m);
  law_get w m k :
    kv_inv w m → eng_get (Some k) w = Ok (of_ptr (m !! k), w);
  law_delete w m k :
    kv_inv w m → is_Some (m !! k) →
    ∃ w', eng_delete (Some k) w = Ok (0, w') ∧ kv_inv w' (delete k m);
  law_delete_missing w m k :
    kv_inv w m → m !! k = None → ∃ w', eng_delete (Some k) w = Ok (kv_missing, w');
  law_modify w m k v :
    kv_inv w m → is_Some (m !! k) →
    ∃ w', eng_modify (Some k) (Some v) w = Ok (0, w') ∧ kv_inv w' (<[k := v]> m);
  law_modify_missing w m k v :
    kv_inv w m → m !! k = None → eng_modify (Some k) (Some v) w = Ok (kv_missing, w);
}.

(** ** The hash engine keeps the promise *)

Definition hash_inv (w : world hashtable_t) (m : gmap cstr cstr) : Prop :=
  ∃ base, hrep base false w (Some <$> m) ∧ al_total (w_al w) ∧ load_ok (w_eng w).

Lemma fmap_lookup_None {A B} (f : A → B) (m : gmap cstr A) k :
  m !! k = None → (f <$> m) !! k = None.
Proof. intros H. by rewrite lookup_fmap, H. Qed.

Lemma fmap_lookup_is_Some {A B} (f : A → B) (m : gmap cstr A) k :
  is_Some (m !! k) → is_Some ((f <$> m) !! k).
Proof. intros [x H]. rewrite lookup_fmap, H. by eexists. Qed.

#[export] Hint Resolve fmap_lookup_None fmap_lookup_is_Some : ga.

(** [SET] on the hash engine stores the pair whether or not the key was
    there. *)
Lemma hash_set_inv w m k v :
  hash_inv w m → Z.of_nat (size m) < 2 ^ 29 →
  ∃ w', kvs_hash_set (Some tt) (Some k) (Some v) w = Ok (0, w') ∧ hash_inv w' (<[k := v]> m).
Proof.
  intros (base & H & Ha & Hl) Hs. rewrite <- (map_size_fmap Some) in Hs.
  pose proof (put_correct base w _ k v H Hs) as Ho. unfold kvs_hash_set.
  destruct (put_kv_hashtable _ _ _ _) as [[r w']|f]; simpl in Ho; [|tauto].
  destruct Ho as [(-> & Hr & Ht)|(_ & _ & Hna & _)]; [|done].
  destruct (Ht Ha) as [Ha' Hl']. exists w'. split; [done|]. exists base.
  rewrite fmap_insert. auto.
Qed.

#[global] Instance hash_laws : KvLaws hashtable_t.
Proof.
  refine {| kv_inv := hash_inv; kv_cap := 2 ^ 29; kv_missing := -1;
    kv_overwrites := true |}; [done|..];
    cbn [eng_set eng_get eng_delete eng_modify hash_engine].
  - intros w m k v H _ Hs. by apply hash_set_inv.
  - intros w m k (base & H & _). unfold kvs_hash_get. run. rewrite (get_run base w _ k H). run.
    rewrite lookup_fmap. by destruct (m !! k).
  - intros w m k (base & H & Ha & Hl) Hk.
    destruct (delete_present base w _ k H) as (w' & Hr & H' & Ha' & Hl'); [auto with ga|].
    exists w'. split; [done|]. exists base. rewrite fmap_delete. auto.
  - intros w m k (base & H & _) Hk.
    destruct (delete_absent base w _ k H) as (w' & Hr & _); [auto with ga|]. by exists w'.
  - intros w m k v (base & H & Ha & Hl) Hk. pose proof (modify_correct base _ w _ k v H) as Ho.
    apply (fmap_lookup_is_Some Some) in Hk as [x Hk].
    destruct (kvs_hash_modify _ _ _ _) as [[r w']|f]; [|tauto].
    destruct Ho as [(-> & _ & Hr & Ha' & Hl')|(_ & Hn & _)]; [|by simplify_eq].
    exists w'. split; [done|]. exists base. rewrite fmap_insert. auto.
  - intros w m k v (base & H & Ha & _) Hk. pose proof (modify_correct base _ w _ k v H) as Ho.
    apply (fmap_lookup_None Some) in Hk.
    destruct (kvs_hash_modify _ _ _ _) as [[r w']|f]; [|tauto].
    destruct Ho as [(_ & [x ?] & _)|(-> & _ & ->)]; [by simplify_eq|done].
Defined.

(** ** The array engine keeps the promise *)

Definition array_inv (w : world array_t) (m : gmap cstr cstr) : Prop :=
  ∃ base, arep base w (VStr <$> m) ∧ al_total (w_al w).

#[global] Instance array_laws : KvLaws array_t.
Proof.
  refine {| kv_inv := array_inv; kv_cap := 1024; kv_missing := 1;
    kv_overwrites := false |}; [done|..];
    cbn [eng_set eng_get eng_delete eng_modify array_engine].
  - intros w m k v (base & H & Ha) [[=]|Hk] Hs.
    destruct (array_set_fresh base w _ k v H) as (r & w' & Hr & Ho); [auto with ga|].
    destruct Ho as [(-> & _ & H' & Ha' & _)|(_ & _ & Hf & _)].
    + exists w'. split; [done|]. exists base. rewrite fmap_insert. auto.
    + specialize (Hf Ha). rewrite map_size_fmap in Hf. unfold KVS_ARRAY_SIZE in Hf. lia.
  - intros w m k (base & H & _). rewrite (array_get_run base w _ k H).
    rewrite lookup_fmap. by destruct (m !! k).
  - intros w m k (base & H & Ha) [v Hk]. pose proof (array_delete_run base w _ k H) as Ho.
    rewrite lookup_fmap, Hk in Ho. destruct Ho as (w' & Hr & H' & Ha').
    exists w'. split; [done|]. exists base. rewrite fmap_delete. auto.
  - intros w m k (base & H & _) Hk. pose proof (array_delete_run base w _ k H) as Ho.
    rewrite lookup_fmap, Hk in Ho. by exists w.
  - intros w m k v (base & H & Ha) [v0 Hk]. pose proof (array_modify_run base w _ k v H) as Ho.
    rewrite lookup_fmap, Hk in Ho. destruct Ho as (r & w' & Hr & [(-> & H' & Ha')|(_ & Hn & _)]); [|done].
    exists w'. split; [done|]. exists base. rewrite fmap_insert. auto.
  - intros w m k v (base & H & _) Hk. pose proof (array_modify_run base w _ k v H) as Ho.
    by rewrite lookup_fmap, Hk in Ho.
Defined.

(** ** The red-black tree engine keeps the promise *)

Definition rbtree_inv (w : world rbtree) (m : gmap cstr cstr) : Prop :=
  rrep (Z.of_nat (size m)) w (VStr <$> m) ∧ al_total (w_al w) ∧ Z.of_nat (size m) < 2 ^ 31.

#[global] Instance rbtree_laws : KvLaws rbtree.
Proof.
  refine {| kv_inv := rbtree_inv; kv_cap := 2 ^ 31 - 1; kv_missing := -1;
    kv_overwrites := false |}; [done|..];
    cbn [eng_set eng_get eng_delete eng_modify rbtree_engine].
  - intros w m k v (H & Ha & _) [[=]|Hk] Hs. destruct (rset_run _ w _ k v H) as (r & w' & Hr & Ho).
    destruct Ho as [(-> & H' & _ & Ha')|(_ & _ & _ & Hf)]; [|done].
    rewrite (fmap_lookup_None VStr m k Hk), <- fmap_insert in H'.
    assert (size (<[k := v]> m) = S (size m)) as Ez by (by apply map_size_insert_None).
    exists w'. split; [done|]. unfold rbtree_inv. rewrite Ez. split_and!; [|by auto|lia].
    by replace (Z.of_nat (S (size m))) with (i32 (Z.of_nat (size m) + 1)) by (rewrite i32_small; lia).
  - intros w m k (H & _). rewrite (rget_run _ w _ k H), lookup_fmap. by destruct (m !! k).
  - intros w m k (H & Ha & Hs) Hk. destruct (rdelete_run _ w _ k H) as [[Hn _]|(_ & w' & Hr & H' & Ha')].
    { apply (fmap_lookup_is_Some VStr) in Hk as [x Hx]. by simplify_eq. }
    assert (size (delete k m) = pred (size m)) as Ez by (destruct Hk; by eapply map_size_delete_Some).
    destruct Hk as [x Hk]. assert (size m ≠ 0)%nat by (intros ->%map_size_empty_inv; done).
    exists w'. split; [done|]. unfold rbtree_inv. rewrite Ez, Ha', fmap_delete. split_and!; [|done|lia].
    by replace (Z.of_nat (pred (size m))) with (i32 (Z.of_nat (size m) - 1)) by (rewrite i32_small; lia).
  - intros w m k (H & _) Hk. destruct (rdelete_run _ w _ k H) as [[_ Hr]|([x Hx] & _)]; [by exists w|].
    apply (fmap_lookup_None VStr) in Hk. by simplify_eq.
  - intros w m k v (H & Ha & Hs) Hk. destruct (rmodify_run _ w _ k v H) as [[Hn _]|(_ & r & w' & Hr & Ha' & Ho)].
    { apply (fmap_lookup_is_Some VStr) in Hk as [x Hx]. by simplify_eq. }
    destruct Ho as [[-> H']|(_ & _ & Hf)]; [|done]. exists w'. split; [done|]. destruct Hk as [x Hk].
    unfold rbtree_inv. rewrite (map_size_insert_Some _ _ _ (mk_is_Some _ _ Hk)), fmap_insert. auto.
  - intros w m k v (H & _) Hk. destruct (rmodify_run _ w _ k v H) as [[_ Hr]|([x Hx] & _)]; [done|].
    apply (fmap_lookup_None VStr) in Hk. by simplify_eq.
Defined.
