(* ===== verification/RbtreeProps.v ===== *)
(** * Properties of the red-black tree engine *)

From S2P Require Import Prelude CRuntime Rbtree RbShape RbtreeZip RbtreeIns RbtreeSearch RbtreeDel RbtreeFacts.

(** ** Sequences of calls *)

Inductive rb_op :=
  | RSet (k v : cstr)
  | RGet (k : cstr)
  | RDel (k : cstr)
  | RMod (k v : cstr).

(** A call: its result, and the value [get] returned. *)
Definition rb_exec (o : rb_op) : rprog (Z * vptr) :=
  match o with
  | RSet k v => r ← kvs_rbtree_set (Some tt) (Some k) (Some v); mret (r, VNull)
  | RGet k => v ← kvs_rbtree_get (Some tt) (Some k); mret (0, v)
  | RDel k => r ← kvs_rbtree_delete (Some tt) (Some k); mret (r, VNull)
  | RMod k v => r ← kvs_rbtree_modify (Some tt) (Some k) (Some v); mret (r, VNull)
  end.

Fixpoint rb_run (os : list rb_op) : rprog (list (Z * vptr)) :=
  match os with
  | [] => mret []
  | o :: os' => x ← rb_exec o; xs ← rb_run os'; mret (x :: xs)
  end.

(** A fresh tree, then the calls. *)
Definition rb_session (os : list rb_op) : rprog (list (Z * vptr)) :=
  _ ← kvstore_rbtree_create (Some tt); rb_run os.

(** The same calls on a map: a SET of a key that is there answers 0 and changes
    nothing. *)
Definition map_exec (o : rb_op) (m : gmap cstr cstr) : (Z * vptr) * gmap cstr cstr :=
  match o with
  | RSet k v => ((0, VNull), match m !! k with Some _ => m | None => <[k := v]> m end)
  | RGet k => ((0, match m !! k with Some v => VStr v | None => VNull end), m)
  | RDel k => match m !! k with Some _ => ((0, VNull), delete k m) | None => ((-1, VNull), m) end
  | RMod k v => match m !! k with Some _ => ((0, VNull), <[k := v]> m) | None => ((-1, VNull), m) end
  end.

Fixpoint map_run (os : list rb_op) (m : gmap cstr cstr) : list (Z * vptr) * gmap cstr cstr :=
  match os with
  | [] => ([], m)
  | o :: os' => let '(x, m') := map_exec o m in let '(xs, m'') := map_run os' m' in (x :: xs, m'')
  end.

(** The tree holds [m]. *)
Definition holds_map (w : world rbtree) (m : gmap cstr cstr) : Prop := ∃ c, rrep c w (VStr <$> m).

Lemma exec_refines o w m :
  holds_map w m → al_total (w_al w) →
  ∃ w', rb_exec o w = Ok ((map_exec o m).1, w') ∧ holds_map w' (map_exec o m).2 ∧ al_total (w_al w').
Proof.
  intros [c Hr] Ha. destruct o as [k v|k|k|k v]; cbn [rb_exec map_exec].
  - destruct (rset_run c w _ k v Hr) as (r & w' & Hrun & [(-> & Hr' & _ & Ht)|(-> & _ & _ & Hn)]); [|done].
    exists w'. run. rewrite Hrun. split; [done|]. split; [|by apply Ht]. eexists. cbn [snd].
    rewrite lookup_fmap in Hr'. destruct (m !! k); cbn in Hr'; [exact Hr'|]. by rewrite fmap_insert.
  - exists w. run. rewrite (rget_run c w _ k Hr), lookup_fmap. split; [by destruct (m !! k)|]. split; [by exists c|done].
  - destruct (rdelete_run c w _ k Hr) as [[Hn Hrun]|[Hs (w' & Hrun & Hr' & Ea)]]; rewrite lookup_fmap in *.
    + destruct (m !! k); [done|]. exists w. run. rewrite Hrun. split; [done|]. split; [by exists c|done].
    + destruct (m !! k); [|by destruct Hs]. exists w'. run. rewrite Hrun. split; [done|]. rewrite Ea.
      split; [|done]. eexists. cbn [snd]. by rewrite fmap_delete.
  - destruct (rmodify_run c w _ k v Hr) as [[Hn Hrun]|[Hs (r & w' & Hrun & Ht & H)]]; rewrite lookup_fmap in *.
    + destruct (m !! k); [done|]. exists w. run. rewrite Hrun. split; [done|]. split; [by exists c|done].
    + destruct (m !! k); [|by destruct Hs]. destruct H as [[-> Hr']|(_ & _ & Hn)]; [|done].
      exists w'. run. rewrite Hrun. split; [done|]. split; [|by apply Ht]. exists c. cbn [snd]. by rewrite fmap_insert.
Qed.

Lemma run_refines os w m :
  holds_map w m → al_total (w_al w) →
  ∃ w', rb_run os w = Ok ((map_run os m).1, w') ∧ holds_map w' (map_run os m).2 ∧ al_total (w_al w').
Proof.
  revert w m. induction os as [|o os IH]; intros w m Hr Ha; [by exists w|]. cbn [rb_run map_run].
  destruct (exec_refines o w m Hr Ha) as (w1 & H1 & Hr1 & Ha1). destruct (map_exec o m) as [x m1].
  destruct (IH w1 m1 Hr1 Ha1) as (w2 & H2 & Hr2 & Ha2). destruct (map_run os m1) as [xs m2].
  exists w2. run. rewrite H1. run. by rewrite H2.
Qed.

(** C3. The tree refines a map: any sequence of set, get, delete and modify
    calls on a fresh tree, with memory to spare, answers what the map answers
    and leaves a tree that holds the map. *)
Theorem rbtree_refines os a :
  al_total a →
  ∃ w', rb_session os (World Tree0 a) = Ok ((map_run os ∅).1, w') ∧ holds_map w' (map_run os ∅).2.
Proof.
  intros Ha. unfold rb_session. destruct (rcreate_run a) as (s & Hrun & Hr).
  { by rewrite !Ha by lia. }
  destruct (run_refines os (World s (al_next (al_next a 1) 1)) ∅) as (w' & H & Hr' & _).
  - exists 0. by rewrite fmap_empty.
  - cbn; auto with ga.
  - exists w'. run. by rewrite Hrun.
Qed.

(** Two of three keys, one of them changed, after a second SET of it. *)
Definition some_calls : list rb_op :=
  [RSet (str "b") (str "1"); RSet (str "a") (str "2"); RSet (str "c") (str "3"); RSet (str "a") (str "4");
   RMod (str "c") (str "5"); RDel (str "b"); RGet (str "a"); RGet (str "b"); RGet (str "c")].

Lemma rbtree_refines_witness :
  ∃ w', rb_session some_calls (World Tree0 al_stale) =
    Ok ([(0, VNull); (0, VNull); (0, VNull); (0, VNull); (0, VNull); (0, VNull);
         (0, VStr (str "2")); (0, VNull); (0, VStr (str "5"))], w').
Proof.
  destruct (rbtree_refines some_calls al_stale al_stale_total) as (w' & H & _).
  exists w'. rewrite H. vm_compute. reflexivity.
Defined.

(** ** Shape *)

(** A red-black search tree in memory: parent and child pointers agree, no red
    node has a red child, the black heights are equal, the keys are in order;
    and it is at most twice as high as a tree of its size must be. *)
Definition balanced (s : rbtree) : Prop :=
  ∃ t, shape s t ∧ (height t ≤ 2 * Nat.log2 (S (size (tmap t))))%nat.

Lemma rrep_balanced c w m : rrep c w m → balanced (w_eng w).
Proof. intros (t & Hs & _). exists t. split; [done|]. by eapply shape_height. Qed.

Lemma exec_shape o c w m :
  rrep c w m → ∃ x w' c' m', rb_exec o w = Ok (x, w') ∧ rrep c' w' m'.
Proof.
  intros Hr. destruct o as [k v|k|k|k v]; cbn [rb_exec].
  - destruct (rset_run c w m k v Hr) as (r & w' & Hrun & [(_ & Hr' & _)|(_ & Hr' & _)]);
      eexists _, w', _, _; (split; [run; by rewrite Hrun|exact Hr']).
  - eexists _, w, c, m. split; [run; by rewrite (rget_run c w m k Hr)|done].
  - destruct (rdelete_run c w m k Hr) as [[_ Hrun]|[_ (w' & Hrun & Hr' & _)]].
    + eexists _, w, c, m. split; [run; by rewrite Hrun|done].
    + eexists _, w', _, _. split; [run; by rewrite Hrun|exact Hr'].
  - destruct (rmodify_run c w m k v Hr) as [[_ Hrun]|[_ (r & w' & Hrun & _ & [[_ Hr']|(_ & Hr' & _)])]].
    + eexists _, w, c, m. split; [run; by rewrite Hrun|done].
    + eexists _, w', _, _. split; [run; by rewrite Hrun|exact Hr'].
    + eexists _, w', _, _. split; [run; by rewrite Hrun|exact Hr'].
Qed.

(** C10. The data type's invariant: whatever set, get, delete and modify calls
    are made on a tree that was created, and whichever of their allocations
    fail, none of them faults and the tree in memory is a balanced red-black
    search tree.  Taking the tree down is not among the calls: it does fault
    ([rbtree_destory_faults]). *)
Theorem rbtree_stays_balanced os a :
  al_ok a (al_calls a) && al_ok a (S (al_calls a)) = true →
  ∃ xs w', rb_session os (World Tree0 a) = Ok (xs, w') ∧ balanced (w_eng w').
Proof.
  intros Ha. destruct (rcreate_run a Ha) as (s & Hrun & Hr). unfold rb_session. run. rewrite Hrun. cbn beta iota.
  assert (∀ c w m, rrep c w m → ∃ xs w', rb_run os w = Ok (xs, w') ∧ balanced (w_eng w')) as Hall.
  { clear. induction os as [|o os IH]; intros c w m Hr; cbn [rb_run].
    - eexists _, w. split; [done|]. by eapply rrep_balanced.
    - destruct (exec_shape o c w m Hr) as (x & w1 & c1 & m1 & H1 & Hr1).
      destruct (IH c1 w1 m1 Hr1) as (xs & w2 & H2 & Hb). exists (x :: xs), w2. run. rewrite H1. run. by rewrite H2. }
  by eapply Hall.
Qed.

(** Every third allocation fails. *)
Definition al_flaky : alloc := Alloc (λ n, negb (n mod 3 =? 2)%nat) (λ _, false) 0 0.

Lemma rbtree_stays_balanced_witness :
  ∃ xs w', rb_session some_calls (World Tree0 al_flaky) = Ok (xs, w') ∧ balanced (w_eng w').
Proof. apply (rbtree_stays_balanced some_calls al_flaky eq_refl). Defined.

(** C18. [rbtree_search] finds what the map holds in logarithmic time.  In a tree
    of [n] keys its loop ends within [2 * log2 (n + 1)] rounds and the test that
    leaves it: any larger bound gives the result of [rbtree_search], which is
    the node of the tree that holds the key and its value, or the sentinel when
    the key is absent; the tree is left as it was. *)
Theorem rbtree_search_logarithmic c w m k fuel :
  rrep c w m → (2 * Nat.log2 (S (size m)) < fuel)%nat →
  ∃ x, search_loop fuel (Some k) (t_root (w_eng w)) w = Ok (x, w) ∧ rbtree_search (Some k) w = Ok (x, w) ∧
    found_node (w_eng w) k (m !! k) x.
Proof.
  intros Hr Hf. destruct (search_steps c w m k fuel Hr Hf) as (x & H1 & Hx).
  exists x. split; [exact H1|]. split; [|exact Hx]. destruct Hr as (t & (Hz & _ & Ho) & _). destruct w as [s a].
  destruct (search_run s a t k Hz Ho) as (y & H2 & _). rewrite H2.
  change (search_loop (fuel_of s) (Some k) (t_root s) (World s a) = Ok (y, World s a)) in H2.
  cbn [w_eng] in *. destruct (Nat.le_ge_cases fuel (fuel_of s)) as [Hle|Hle].
  - pose proof (search_more _ _ _ _ _ _ H1 Hle). congruence.
  - pose proof (search_more _ _ _ _ _ _ H2 Hle). congruence.
Qed.

(** A tree with one key. *)
Definition rb_one : world rbtree :=
  match rb_session [RSet (str "Name") (str "SUYANG")] (World Tree0 al_stale) with
  | Ok (_, w) => w
  | Err _ => World Tree0 al_stale
  end.

Lemma rb_one_rep : rrep 1 rb_one {[ str "Name" := VStr (str "SUYANG") ]}.
Proof.
  destruct (rcreate_run al_stale eq_refl) as (s & Hrun & Hr).
  destruct (rset_run 0 _ ∅ (str "Name") (str "SUYANG") Hr) as
    (r & w' & Hset & [(-> & Hr' & _)|(-> & _ & _ & Hn)]); [|by destruct Hn; cbn; auto with ga].
  assert (rb_one = w') as ->; [|exact Hr'].
  unfold rb_one, rb_session. rewrite bind_run, Hrun. cbn [rb_run rb_exec]. run. by rewrite Hset.
Qed.

Lemma rbtree_search_logarithmic_witness :
  ∃ x, search_loop 3 (Some (str "Name")) (t_root (w_eng rb_one)) rb_one = Ok (x, rb_one) ∧
    ∃ n, t_heap (w_eng rb_one) !! x = Some n ∧ n_value n = Some (VStr (str "SUYANG")).
Proof.
  destruct (rbtree_search_logarithmic 1 rb_one _ (str "Name") 3 rb_one_rep) as (x & H1 & _ & H2).
  - rewrite map_size_singleton. vm_compute. lia.
  - exists x. split; [exact H1|]. rewrite lookup_singleton_eq in H2. destruct H2 as (_ & _ & n & Hn & _ & Hv).
    exists n. split; [exact Hn|exact Hv].
Defined.

(** ** Defects *)

(** [kvs_rbtree_set] of a key that is there answers 0, keeps the old
    value, counts the key again and loses the three blocks it allocated;
    [kvs_rbtree_delete] frees nothing of the node it takes out. *)
Theorem rbtree_set_leaks c w m k v v0 :
  rrep c w m → m !! k = Some v0 → al_total (w_al w) →
  (∃ w', kvs_rbtree_set (Some tt) (Some k) (Some v) w = Ok (0, w') ∧ rrep (i32 (c + 1)) w' m ∧
     al_live (w_al w') = al_live (w_al w) + 3) ∧
  (∃ w', kvs_rbtree_delete (Some tt) (Some k) w = Ok (0, w') ∧ rrep (i32 (c - 1)) w' (delete k m) ∧
     al_live (w_al w') = al_live (w_al w)).
Proof.
  intros Hr Hk Ha. split.
  - destruct (rset_run c w m k v Hr) as (r & w' & Hrun & [(-> & Hr' & Hl & _)|(_ & _ & _ & Hn)]); [|done].
    rewrite Hk in Hr'. by exists w'.
  - destruct (rdelete_run c w m k Hr) as [[Hn _]|[_ (w' & Hrun & Hr' & Ea)]]; [congruence|].
    exists w'. by rewrite Ea.
Qed.

Lemma rbtree_set_leaks_witness :
  ∃ w', kvs_rbtree_set (Some tt) (Some (str "Name")) (Some (str "FISH")) rb_one = Ok (0, w') ∧
    al_live (w_al w') = al_live (w_al rb_one) + 3.
Proof.
  destruct (rbtree_set_leaks 1 rb_one _ (str "Name") (str "FISH") (VStr (str "SUYANG")) rb_one_rep) as
    [(w' & H1 & _ & H2) _]; [apply lookup_singleton_eq|vm_compute; reflexivity|]. exists w'. split; [exact H1|exact H2].
Defined.

(** [kvstore_rbtree_destory] cannot take down a tree that holds a key: it
    follows the [left] pointer of the sentinel, which was never set. *)
Theorem rbtree_destory_faults (zero : nat → bool) k v :
  (_ ← kvstore_rbtree_create (Some tt); _ ← kvs_rbtree_set (Some tt) (Some k) (Some v);
   kvstore_rbtree_destory (Some tt)) (World Tree0 (Alloc (λ _, true) zero 0 0)) =
  Err (if zero 0%nat then NullDeref else UninitRead).
Proof.
  rewrite bind_run. remember (kvstore_rbtree_create _ _) as made eqn:E. vm_compute in E.
  destruct (zero 0%nat); subst made; vm_compute; destruct (zero 2%nat); reflexivity.
Qed.
