(* ===== verification/Protocol.v ===== *)
(** * The request protocol of the key-value store (src/kv_store/kv_store.c)

    A request is a line of words in a 1024-byte buffer.  It is cut into tokens
    in place by [strtok], the first token selects the command, and the answer
    is written to the connection's write buffer. *)

From S2P Require Import Prelude CRuntime Engine.

(* src/kv_store/kv_store.h:11-11 BUFFER_LENGTH *)
Definition BUFFER_LENGTH : nat := 1024.
(* src/kv_store/kv_store.c:4-4 KVSTORE_MAX_TOKENS *)
Definition KVSTORE_MAX_TOKENS : nat := 128.

(** The delimiter of [strtok(msg, " ")]. *)
Definition SPACE : Z := 32.

(** The functions stored behind [RCALLBACK] pointers. *)
Inductive callback := Accept_cb | Recv_cb | Send_cb.

(* src/kv_store/kv_store.h:27-43 conn_item *)
(** A connection: the buffers are byte arrays of [BUFFER_LENGTH]; [recv_t] is
    the union of the two read callbacks, one pointer, and NULL is [None]. *)
Record conn_item := Conn {
  fd : Z;
  rbuffer : list Z;
  wbuffer : list Z;
  resource : list Z;
  rlen_ : Z;
  wlen_ : Z;
  recv_t : option callback;
  send_callback : option callback;
}.

Definition zeros (n : nat) : list Z := replicate n 0.

(** [struct conn_item item = {0}] *)
Definition conn_zero : conn_item := 
  Conn 0 (zeros BUFFER_LENGTH) (zeros BUFFER_LENGTH) (zeros BUFFER_LENGTH) 0 0 None None.

(** ** Strings in a buffer *)

(** The C string that starts at [p]; running off the end of the array is a
    fault. *)
Fixpoint read_str (l : list Z) : option cstr :=
  match l with
  | [] => None
  | c :: l' => if c =? 0 then Some [] else (cons c) <$> read_str l'
  end.

Definition cstr_at (buf : list Z) (p : nat) : option cstr := read_str (drop p buf).

(** Length of the run of delimiters at the front: the index of the first byte
    that is not one. *)
Fixpoint skip_delims (l : list Z) : option nat :=
  match l with
  | [] => None
  | c :: l' => if c =? SPACE then S <$> skip_delims l' else Some 0%nat
  end.

(** Index of the first delimiter or NUL. *)
Fixpoint token_len (l : list Z) : option nat :=
  match l with
  | [] => None
  | c :: l' => if (c =? SPACE) || (c =? 0) then Some 0%nat else S <$> token_len l'
  end.

(** One call of [strtok] with the scan position saved by the previous one:
    the token's position or NULL, the buffer with the token terminated, and
    the new position.  [None]: the scan left the buffer. *)
Definition strtok (buf : list Z) (save : nat) : option (option nat * list Z * nat) :=
  n ← skip_delims (drop save buf);
  let tok := (save + n)%nat in
  c ← buf !! tok;
  if c =? 0 then Some (None, buf, tok) else
  m ← token_len (drop tok buf);
  let stop := (tok + m)%nat in
  c ← buf !! stop;
  if c =? 0 then Some (Some tok, buf, stop)
  else Some (Some tok, <[stop := 0]> buf, S stop).

Section parser.
Context {E : Type} `{!KvEngine E}.

(** [while (token != NULL) { tokens[idx++] = token; token = strtok(NULL, " "); }]
    [tokens] holds [KVSTORE_MAX_TOKENS] pointers. Each call consumes at
    least one byte, so the buffer's length bounds the iterations. *)
Fixpoint split_loop (fuel : nat) (buf : list Z) (save : nat) (tokens : list nat)
    : prog (world E) (list Z * list nat) :=
  match fuel with
  | O => stop OutOfFuel
  | S fuel' =>
      match strtok buf save with
      | None => stop OutOfBounds
      | Some (None, buf', _) => mret (buf', tokens)
      | Some (Some tok, buf', save') =>
          if bool_decide (length tokens < KVSTORE_MAX_TOKENS)%nat
          then split_loop fuel' buf' save' (tokens ++ [tok])
          else stop OutOfBounds
      end
  end.

(* src/kv_store/kv_store.c kvstore_split_token *)
(** The number of tokens, with the buffer and the token array it filled. *)
Definition kvstore_split_token (msg : list Z) : prog (world E) (Z * list Z * list nat) :=
  '(buf, tokens) ← split_loop (S (length msg)) msg 0 [];
  mret (Z.of_nat (length tokens), buf, tokens).

(** [tokens[i]] as a string; entries past the count were never written. *)
Definition token (buf : list Z) (tokens : list nat) (i : nat) : prog (world E) cstr :=
  match tokens !! i with
  | None => stop UninitRead
  | Some p => match cstr_at buf p with Some s => mret s | None => stop OutOfBounds end
  end.

(* src/kv_store/kv_store.c:11-19 KVS_CMD_START *)
Inductive cmd := KVS_CMD_SET | KVS_CMD_GET | KVS_CMD_DEL | KVS_CMD_MOD | KVS_CMD_SIZE.

(* src/kv_store/kv_store.c:6-8 commands *)
Definition commands : list (cmd * cstr) :=
  [(KVS_CMD_SET, str "SET"); (KVS_CMD_GET, str "GET");
   (KVS_CMD_DEL, str "DEL"); (KVS_CMD_MOD, str "MOD")].

(** The search loop over [commands]. *)
Fixpoint find_cmd (l : list (cmd * cstr)) (t : cstr) : cmd :=
  match l with
  | [] => KVS_CMD_SIZE
  | (c, name) :: l' => if strcmp name t =? 0 then c else find_cmd l' t
  end.

(** [snprintf(msg, BUFFER_LENGTH, "%s", s)] into the zeroed buffer. *)
Definition snprintf_buf (s : cstr) : list Z :=
  let t := take (BUFFER_LENGTH - 1) s in t ++ zeros (BUFFER_LENGTH - length t).

Definition set_wbuffer (b : list Z) (i : conn_item) : conn_item :=
  Conn (fd i) (rbuffer i) b (resource i) (rlen_ i) (wlen_ i) (recv_t i) (send_callback i).
Definition set_rbuffer (b : list Z) (i : conn_item) : conn_item :=
  Conn (fd i) b (wbuffer i) (resource i) (rlen_ i) (wlen_ i) (recv_t i) (send_callback i).
Definition answer (s : cstr) (i : conn_item) : conn_item := set_wbuffer (snprintf_buf s) i.

(* src/kv_store/kv_store.c kvstore_parser_protocol *)
(** [item]'s read buffer holds the tokens. *)
Definition kvstore_parser_protocol (item : conn_item) (tokens : list nat) (count : Z)
    : prog (world E) (Z * conn_item) :=
  if count =? 0 then mret (-1, item) else
  t0 ← token (rbuffer item) tokens 0;
  let item := set_wbuffer (zeros BUFFER_LENGTH) item in
  match find_cmd commands t0 with
  | KVS_CMD_SET =>
      k ← token (rbuffer item) tokens 1;
      v ← token (rbuffer item) tokens 2;
      ret ← kvstore_set (Some k) (Some v);
      mret (1, answer (if ret =? 0 then str "SUCCESS" else str "FAILER") item)
  | KVS_CMD_GET =>
      k ← token (rbuffer item) tokens 1;
      value ← kvstore_get (Some k);
      match value with
      | VStr s => mret (1, answer s item)
      | VNull => mret (1, answer (str "NO EXIST") item)
      | VFreed => stop UseAfterFree
      end
  | KVS_CMD_DEL =>
      k ← token (rbuffer item) tokens 1;
      ret ← kvstore_delete (Some k);
      mret (1, answer (if ret <? 0 then str "ERROR"
                       else if ret =? 0 then str "SUCCESS" else str "DEL_FAILER") item)
  | KVS_CMD_MOD =>
      k ← token (rbuffer item) tokens 1;
      v ← token (rbuffer item) tokens 2;
      ret ← kvstore_modify (Some k) (Some v);
      mret (1, answer (if ret <? 0 then str "ERROR"
                       else if ret =? 0 then str "SUCCESS" else str "MOD_FAILER") item)
  | KVS_CMD_SIZE => stop AssertFail
  end.

(* src/kv_store/kv_store.c kvstore_request *)
Definition kvstore_request (item : conn_item) : prog (world E) (Z * conn_item) :=
  '(count, buf, tokens) ← kvstore_split_token (rbuffer item);
  '(_, item) ← kvstore_parser_protocol (set_rbuffer buf item) tokens count;
  mret (0, item).
End parser.

(** ** Tokens: the reference splitting *)

(** What the tokenizer leaves in place of a line: the delimiter after each
    word is a NUL. *)
Fixpoint cut (in_word : bool) (s : cstr) : cstr :=
  match s with
  | [] => []
  | c :: s' => (if (c =? SPACE) && in_word then 0 else c) :: cut (negb (c =? SPACE)) s'
  end.

(** The maximal runs of bytes other than the delimiter. *)
Fixpoint words (s : cstr) : list cstr :=
  match s with
  | [] => []
  | c :: s' =>
      if c =? SPACE then words s'
      else match s' with
           | [] => [[c]]
           | d :: _ =>
               if d =? SPACE then [c] :: words s'
               else match words s' with
                    | w :: ws => (c :: w) :: ws
                    | [] => [[c]]
                    end
           end
  end.

Definition no_nul (s : list Z) : Prop := Forall (λ b, b ≠ 0) s.
Definition is_word (w : list Z) : Prop := w ≠ [] ∧ Forall (λ b, b ≠ SPACE) w.

Lemma cut_spaces n s : cut false (replicate n SPACE ++ s) = replicate n SPACE ++ cut false s.
Proof. induction n as [|n IH]; [done|]. cbn [replicate app cut]. rewrite Z.eqb_refl. cbn. by rewrite IH. Qed.

Lemma cut_run b wd s : is_word wd → cut b (wd ++ s) = wd ++ cut true s.
Proof.
  intros [Hne Hw]. revert b Hne. induction Hw as [|c wd Hc Hw IH]; intros b Hne; [done|].
  cbn [app cut]. rewrite (proj2 (Z.eqb_neq _ _) Hc). cbn [andb negb]. f_equal.
  destruct wd; [done|]. by apply IH.
Qed.

Lemma cut_word wd s : is_word wd → cut false (wd ++ SPACE :: s) = wd ++ 0 :: cut false s.
Proof. intros H. rewrite cut_run by done. cbn [cut]. by rewrite Z.eqb_refl. Qed.

Lemma cut_last wd : is_word wd → cut false wd = wd.
Proof. intros H. rewrite <- (app_nil_r wd) at 1. rewrite cut_run by done. apply app_nil_r. Qed.

Lemma cut_length b s : length (cut b s) = length s.
Proof. revert b. induction s as [|c s IH]; intros b; [done|]. cbn. by rewrite IH. Qed.

Lemma words_spaces n s : words (replicate n SPACE ++ s) = words s.
Proof. by induction n. Qed.

Lemma words_last w : is_word w → words w = [w].
Proof.
  intros [Hne Hw]. induction Hw as [|c w Hc Hw IH]; [done|]. simpl.
  rewrite (proj2 (Z.eqb_neq _ _) Hc). destruct w as [|d w]; [done|].
  inversion Hw as [|?? Hd _]; subst. rewrite (proj2 (Z.eqb_neq _ _) Hd).
  by rewrite IH.
Qed.

Lemma words_more w s : is_word w → words (w ++ SPACE :: s) = w :: words s.
Proof.
  intros [Hne Hw]. induction Hw as [|c w Hc Hw IH]; [done|].
  rewrite <- app_comm_cons. cbn [words]. rewrite (proj2 (Z.eqb_neq _ _) Hc).
  destruct w as [|d w]; simpl; [done|].
  inversion Hw as [|?? Hd _]; subst. rewrite (proj2 (Z.eqb_neq _ _) Hd).
  simpl in IH. rewrite (proj2 (Z.eqb_neq _ _) Hd) in IH. by rewrite IH.
Qed.

(** A string is blanks; or blanks, a word and a delimiter; or blanks and a
    final word. *)
Lemma word_cases s :
  (∃ n, s = replicate n SPACE) ∨
  (∃ n w s', s = replicate n SPACE ++ w ++ SPACE :: s' ∧ is_word w) ∨
  (∃ n w, s = replicate n SPACE ++ w ∧ is_word w).
Proof.
  induction s as [|c s IH]; [left; by exists 0%nat|].
  destruct (decide (c = SPACE)) as [->|Hc].
  - destruct IH as [[n ->]|[(n & w & s' & -> & Hw)|(n & w & -> & Hw)]].
    + left. by exists (S n).
    + right; left. by exists (S n), w, s'.
    + right; right. by exists (S n), w.
  - assert (is_word [c]) as Hw1 by (split; [done|by constructor]).
    destruct IH as [[[|n] ->]|[([|n] & w & s' & -> & Hw)|([|n] & w & -> & Hw)]].
    + right; right. by exists 0%nat, [c].
    + right; left. by exists 0%nat, [c], (replicate n SPACE).
    + right; left. exists 0%nat, (c :: w), s'. split; [done|]. destruct Hw. split; [done|by constructor].
    + right; left. by exists 0%nat, [c], (replicate n SPACE ++ w ++ SPACE :: s').
    + right; right. exists 0%nat, (c :: w). split; [done|]. destruct Hw. split; [done|by constructor].
    + right; left. by exists 0%nat, [c], (replicate n SPACE ++ w).
Qed.

(** ** [strtok] *)

Lemma skip_delims_run n c t : c ≠ SPACE → skip_delims (replicate n SPACE ++ c :: t) = Some n.
Proof.
  intros Hc. induction n as [|n IH]; simpl; [by rewrite (proj2 (Z.eqb_neq _ _) Hc)|].
  by rewrite IH.
Qed.

Lemma skip_delims_off n : skip_delims (replicate n SPACE) = None.
Proof. induction n as [|n IH]; simpl; [done|]. by rewrite IH. Qed.

Lemma token_len_run w c t :
  is_word w → no_nul w → c = SPACE ∨ c = 0 → token_len (w ++ c :: t) = Some (length w).
Proof.
  intros [_ Hw] Hn Hc. induction Hw as [|x w Hx Hw IH]; simpl.
  - destruct Hc as [->| ->]; done.
  - apply Forall_cons in Hn as [Hx0 Hn]. rewrite (proj2 (Z.eqb_neq _ _) Hx), (proj2 (Z.eqb_neq _ _) Hx0).
    simpl. by rewrite IH.
Qed.

Lemma token_len_off w : is_word w → no_nul w → token_len w = None.
Proof.
  intros [_ Hw] Hn. induction Hw as [|x w Hx Hw IH]; simpl; [done|].
  apply Forall_cons in Hn as [Hx0 Hn]. rewrite (proj2 (Z.eqb_neq _ _) Hx), (proj2 (Z.eqb_neq _ _) Hx0).
  simpl. by rewrite IH.
Qed.

Lemma word_cons w : is_word w → ∃ c w', w = c :: w' ∧ c ≠ SPACE.
Proof. intros [Hne Hw]. destruct Hw; [done|]. eauto. Qed.

Section strtok_lemmas.
Context (pre : list Z) (n : nat).
Let sp := replicate n SPACE.
Let tok := (length pre + n)%nat.

Lemma strtok_blank t :
  strtok (pre ++ sp ++ 0 :: t) (length pre) = Some (None, pre ++ sp ++ 0 :: t, tok).
Proof.
  unfold strtok. rewrite drop_app_length. unfold sp. rewrite skip_delims_run by done. simpl.
  rewrite lookup_app_r, lookup_app_r by (rewrite ?length_replicate; lia).
  rewrite length_replicate.
  replace (length pre + n - length pre - n)%nat with 0%nat by lia. done.
Qed.

Context (w : list Z) (Hw : is_word w) (Hn : no_nul w).

Lemma tok_at c t :
  (pre ++ sp ++ w ++ c :: t) !! tok = w !! 0%nat ∧
  drop tok (pre ++ sp ++ w ++ c :: t) = w ++ c :: t ∧
  (pre ++ sp ++ w ++ c :: t) !! (tok + length w)%nat = Some c ∧
  <[(tok + length w)%nat := 0]> (pre ++ sp ++ w ++ c :: t) = pre ++ sp ++ w ++ 0 :: t.
Proof.
  assert (length (pre ++ sp) = tok) as Hl by (unfold sp, tok; by rewrite length_app, length_replicate).
  rewrite !(app_assoc pre sp), <- Hl. split_and!.
  - rewrite lookup_app_r by done. rewrite Nat.sub_diag.
    destruct (word_cons w Hw) as (? & ? & -> & _). done.
  - apply drop_app_length.
  - rewrite lookup_app_r, lookup_app_r by lia.
    by replace (length (pre ++ sp) + length w - length (pre ++ sp) - length w)%nat with 0%nat by lia.
  - rewrite insert_app_r_alt, insert_app_r_alt by lia.
    by replace (length (pre ++ sp) + length w - length (pre ++ sp) - length w)%nat with 0%nat by lia.
Qed.

Lemma strtok_word c t :
  c = SPACE ∨ c = 0 →
  strtok (pre ++ sp ++ w ++ c :: t) (length pre) =
    if c =? 0 then Some (Some tok, pre ++ sp ++ w ++ c :: t, (tok + length w)%nat)
    else Some (Some tok, pre ++ sp ++ w ++ 0 :: t, S (tok + length w)).
Proof.
  intros Hc. destruct (tok_at c t) as (H1 & H2 & H3 & H4).
  unfold strtok. rewrite drop_app_length.
  destruct (word_cons w Hw) as (x & w' & Ew & Hx).
  assert (skip_delims (sp ++ w ++ c :: t) = Some n) as ->
    by (rewrite Ew; by apply skip_delims_run).
  cbn [mbind option_bind]. fold tok. rewrite H1, Ew. cbn [lookup list_lookup mbind option_bind].
  assert (x ≠ 0) as Hx0 by (rewrite Ew in Hn; by apply Forall_cons in Hn as [? _]).
  rewrite (proj2 (Z.eqb_neq _ _) Hx0), <- Ew, H2, token_len_run by done.
  cbn [mbind option_bind]. rewrite H3. cbn [mbind option_bind].
  destruct (c =? 0); [done|]. by rewrite H4.
Qed.
End strtok_lemmas.

(** ** The tokenizer *)

Lemma read_str_run s t : no_nul s → read_str (s ++ 0 :: t) = Some s.
Proof.
  induction 1 as [|c s Hc Hs IH]; simpl; [done|].
  by rewrite (proj2 (Z.eqb_neq _ _) Hc), IH.
Qed.

Lemma cstr_at_run pre s t p :
  p = length pre → no_nul s → cstr_at (pre ++ s ++ 0 :: t) p = Some s.
Proof. intros -> Hs. unfold cstr_at. by rewrite drop_app_length, read_str_run. Qed.

Lemma cstr_at_word pre n wd t :
  no_nul wd → cstr_at (pre ++ (replicate n SPACE ++ wd) ++ 0 :: t) (length pre + n) = Some wd.
Proof.
  intros H.
  replace (pre ++ (replicate n SPACE ++ wd) ++ 0 :: t)
    with ((pre ++ replicate n SPACE) ++ wd ++ 0 :: t) by (by rewrite <- !app_assoc).
  apply cstr_at_run; [|done]. by rewrite length_app, length_replicate.
Qed.

Section split.
Context {E : Type} (w : world E).
Implicit Types (pre s rest : list Z) (toks : list nat).

(** One iteration that finds a word followed by a delimiter. *)
Lemma split_step_more fuel pre n wd t toks :
  is_word wd → no_nul wd →
  let pre' := pre ++ replicate n SPACE ++ wd ++ [0] in
  split_loop (S fuel) (pre ++ replicate n SPACE ++ wd ++ SPACE :: t) (length pre) toks w =
  if bool_decide (length toks < KVSTORE_MAX_TOKENS)%nat
  then split_loop fuel (pre' ++ t) (length pre') (toks ++ [(length pre + n)%nat]) w
  else Err OutOfBounds.
Proof.
  intros Hw Hn pre'. cbn [split_loop]. rewrite strtok_word by auto. cbn [Z.eqb SPACE].
  case_bool_decide; [|done]. f_equal.
  - unfold pre'. by rewrite <- !app_assoc.
  - unfold pre'. rewrite !length_app, length_replicate. simpl. lia.
Qed.

(** One iteration that finds the last word. *)
Lemma split_step_last fuel pre n wd t toks :
  is_word wd → no_nul wd →
  let pre' := pre ++ replicate n SPACE ++ wd in
  split_loop (S fuel) (pre ++ replicate n SPACE ++ wd ++ 0 :: t) (length pre) toks w =
  if bool_decide (length toks < KVSTORE_MAX_TOKENS)%nat
  then split_loop fuel (pre' ++ 0 :: t) (length pre') (toks ++ [(length pre + n)%nat]) w
  else Err OutOfBounds.
Proof.
  intros Hw Hn pre'. cbn [split_loop]. rewrite strtok_word by auto. cbn [Z.eqb].
  case_bool_decide; [|done]. f_equal.
  - unfold pre'. by rewrite <- !app_assoc.
  - unfold pre'. rewrite !length_app, length_replicate. lia.
Qed.

Lemma split_blank fuel pre n t toks :
  split_loop (S fuel) (pre ++ replicate n SPACE ++ 0 :: t) (length pre) toks w =
  Ok ((pre ++ replicate n SPACE ++ 0 :: t, toks), w).
Proof. cbn [split_loop]. by rewrite strtok_blank. Qed.

(** From a position with the string [s] ahead, the loop collects the
    positions of the words of [s], overwriting only bytes of [s]. *)
Lemma split_loop_run fuel s pre rest toks :
  no_nul s → (length s < fuel)%nat →
  (length toks + length (words s) ≤ KVSTORE_MAX_TOKENS)%nat →
  ∃ toks', split_loop fuel (pre ++ s ++ 0 :: rest) (length pre) toks w =
      Ok ((pre ++ cut false s ++ 0 :: rest, toks ++ toks'), w) ∧
    Forall2 (λ p x, cstr_at (pre ++ cut false s ++ 0 :: rest) p = Some x) toks' (words s).
Proof.
  revert s pre toks. induction fuel as [|fuel IH]; intros s pre toks Hn Hf Hlen; [lia|].
  destruct (word_cases s) as [[n ->]|[(n & wd & s1 & -> & Hw)|(n & wd & -> & Hw)]].
  - exists []. rewrite <- (app_nil_r (replicate n SPACE)), cut_spaces, !app_nil_r, split_blank. split; [done|].
    rewrite <- (app_nil_r (replicate n SPACE)), words_spaces. constructor.
  - rewrite words_spaces, words_more in * by done. simpl in Hlen.
    apply Forall_app in Hn as [_ Hn]. apply Forall_app in Hn as [Hnw Hn].
    apply Forall_cons in Hn as [_ Hn].
    rewrite !length_app, length_replicate in Hf. cbn [length] in Hf.
    rewrite <- !app_assoc, <- app_comm_cons. rewrite split_step_more by done.
    rewrite bool_decide_eq_true_2 by lia.
    set (pre' := pre ++ replicate n SPACE ++ wd ++ [0]).
    destruct (IH s1 pre' (toks ++ [(length pre + n)%nat])) as (toks1 & -> & Hall);
      [done|lia|rewrite length_app; simpl; lia|].
    exists ((length pre + n)%nat :: toks1). rewrite cut_spaces, cut_word by done.
    assert (pre' ++ cut false s1 ++ 0 :: rest = pre ++ ((replicate n SPACE ++ wd) ++ 0 :: cut false s1) ++ 0 :: rest) as Eb
      by (unfold pre'; by rewrite <- !app_assoc).
    rewrite Eb in *. rewrite (app_assoc (replicate _ _) wd). split.
    + by rewrite <- (app_assoc toks).
    + constructor; [|done]. rewrite <- (app_assoc (_ ++ wd)). by apply cstr_at_word.
  - rewrite words_spaces, words_last in * by done. simpl in Hlen.
    apply Forall_app in Hn as [_ Hnw]. rewrite length_app, length_replicate in Hf.
    destruct (word_cons wd Hw) as (x & wd' & Ew & _). rewrite Ew in Hf. simpl in Hf.
    rewrite <- !app_assoc, split_step_last, bool_decide_eq_true_2 by (done || lia).
    destruct fuel as [|fuel]; [lia|].
    rewrite <- (app_nil_l (0 :: rest)), (split_blank fuel _ 0).
    exists [(length pre + n)%nat]. rewrite cut_spaces, cut_last by done. simpl.
    rewrite <- !app_assoc. split; [done|]. constructor; [|constructor].
    rewrite (app_assoc (replicate _ _)). by apply cstr_at_word.
Qed.

(** More than [KVSTORE_MAX_TOKENS] words overrun the token array. *)
Lemma split_loop_many fuel s pre rest toks :
  no_nul s → (length s < fuel)%nat → (length toks ≤ KVSTORE_MAX_TOKENS)%nat →
  (KVSTORE_MAX_TOKENS < length toks + length (words s))%nat →
  split_loop fuel (pre ++ s ++ 0 :: rest) (length pre) toks w = Err OutOfBounds.
Proof.
  revert s pre toks. induction fuel as [|fuel IH]; intros s pre toks Hn Hf Hle Hlen; [lia|].
  destruct (word_cases s) as [[n ->]|[(n & wd & s1 & -> & Hw)|(n & wd & -> & Hw)]].
  - rewrite <- (app_nil_r (replicate n SPACE)), words_spaces in Hlen. simpl in Hlen. lia.
  - rewrite words_spaces, words_more in * by done. simpl in Hlen.
    apply Forall_app in Hn as [_ Hn]. apply Forall_app in Hn as [Hnw Hn].
    apply Forall_cons in Hn as [_ Hn].
    rewrite !length_app, length_replicate in Hf. cbn [length] in Hf.
    rewrite <- !app_assoc, <- app_comm_cons. rewrite split_step_more by done.
    case_bool_decide; [|done]. apply IH; [done|lia|rewrite length_app; simpl; lia..].
  - rewrite words_spaces, words_last in * by done. simpl in Hlen.
    apply Forall_app in Hn as [_ Hnw].
    rewrite <- !app_assoc, split_step_last by done. by rewrite bool_decide_eq_false_2 by lia.
Qed.

(** A buffer with no NUL ahead is scanned past its end. *)
Lemma split_loop_unterminated fuel s pre toks :
  no_nul s → (length s < fuel)%nat → split_loop fuel (pre ++ s) (length pre) toks w = Err OutOfBounds.
Proof.
  revert s pre toks. induction fuel as [|fuel IH]; intros s pre toks Hn Hf; [lia|].
  destruct (word_cases s) as [[n ->]|[(n & wd & s1 & -> & Hw)|(n & wd & -> & Hw)]].
  - cbn [split_loop]. unfold strtok. by rewrite drop_app_length, skip_delims_off.
  - apply Forall_app in Hn as [_ Hn]. apply Forall_app in Hn as [Hnw Hn].
    apply Forall_cons in Hn as [_ Hn].
    rewrite split_step_more by done. case_bool_decide; [|done]. apply IH; [done|].
    rewrite !length_app in Hf. cbn [length] in Hf. lia.
  - apply Forall_app in Hn as [_ Hnw]. cbn [split_loop]. unfold strtok.
    rewrite drop_app_length. destruct (word_cons wd Hw) as (x & wd' & Ew & Hx).
    assert (skip_delims (replicate n SPACE ++ wd) = Some n) as ->
      by (rewrite Ew; by apply skip_delims_run).
    cbn [mbind option_bind].
    assert (length (pre ++ replicate n SPACE) = (length pre + n)%nat) as Hl
      by (by rewrite length_app, length_replicate).
    rewrite (app_assoc pre), <- Hl, drop_app_length.
    rewrite lookup_app_r, Nat.sub_diag by done. subst wd. cbn [lookup list_lookup mbind option_bind].
    rewrite (token_len_off _ Hw Hnw). apply Forall_cons in Hnw as [Hx0 _].
    by rewrite (proj2 (Z.eqb_neq _ _) Hx0).
Qed.
End split.

(** ** Requests *)

(** The answer a client reads: the string in the write buffer. *)
Definition reply (i : conn_item) : option cstr := read_str (wbuffer i).

Lemma reply_answer s i : no_nul s → reply (answer s i) = Some (take (BUFFER_LENGTH - 1) s).
Proof.
  intros Hs. unfold reply, answer, snprintf_buf. cbn [wbuffer set_wbuffer].
  set (t := take (BUFFER_LENGTH - 1) s).
  assert (length t ≤ BUFFER_LENGTH - 1)%nat by (unfold t; rewrite length_take; lia).
  destruct (BUFFER_LENGTH - length t)%nat as [|n] eqn:En; [unfold BUFFER_LENGTH in *; lia|].
  apply (read_str_run t (zeros n)). by apply Forall_take.
Qed.

Lemma reply_answer_short s i :
  no_nul s → (length s < BUFFER_LENGTH)%nat → reply (answer s i) = Some s.
Proof. intros Hs Hl. rewrite reply_answer by done. by rewrite take_ge by lia. Qed.

Section requests.
Context {E : Type} `{!KvEngine E}.
Implicit Types (w : world E) (item : conn_item) (line rest : list Z).

(** What the tokenizer hands to the parser: token [i] reads as word [i],
    and an index past the last word is an uninitialised pointer. *)
Lemma split_token_run line rest w :
  no_nul line → (length (words line) ≤ KVSTORE_MAX_TOKENS)%nat →
  ∃ toks,
    kvstore_split_token (line ++ 0 :: rest) w
      = Ok ((Z.of_nat (length (words line)), cut false line ++ 0 :: rest, toks), w) ∧
    ∀ i, token (cut false line ++ 0 :: rest) toks i w =
      match words line !! i with Some s => Ok (s, w) | None => Err UninitRead end.
Proof.
  intros Hn Hl. unfold kvstore_split_token. run.
  destruct (split_loop_run w (S (length (line ++ 0 :: rest))) line [] rest [])
    as (toks & Hrun & Hall); [done|rewrite length_app; simpl; lia|simpl; lia|].
  cbn [app] in Hrun, Hall. change (length (@nil Z)) with 0%nat in Hrun. rewrite Hrun. run.
  exists toks. split.
  - by rewrite (Forall2_length _ _ _ Hall).
  - intros i. unfold token. destruct (words line !! i) as [x|] eqn:Ei.
    + destruct (Forall2_lookup_r _ _ _ _ _ Hall Ei) as (p & -> & Hp). by rewrite Hp.
    + assert (toks !! i = None) as ->; [|done].
      apply lookup_ge_None. rewrite (Forall2_length _ _ _ Hall). by apply lookup_ge_None.
Qed.

Definition parse_words (item : conn_item) (ws : list cstr) : prog (world E) conn_item :=
  let item := set_wbuffer (zeros BUFFER_LENGTH) item in
  let arg i k := match ws !! i with Some s => k s | None => stop UninitRead end in
  arg 0%nat (λ c,
  match find_cmd commands c with
  | KVS_CMD_SET => arg 1%nat (λ k, arg 2%nat (λ v,
      ret ← kvstore_set (Some k) (Some v);
      mret (answer (if ret =? 0 then str "SUCCESS" else str "FAILER") item)))
  | KVS_CMD_GET => arg 1%nat (λ k,
      value ← kvstore_get (Some k);
      match value with
      | VStr s => mret (answer s item)
      | VNull => mret (answer (str "NO EXIST") item)
      | VFreed => stop UseAfterFree
      end)
  | KVS_CMD_DEL => arg 1%nat (λ k,
      ret ← kvstore_delete (Some k);
      mret (answer (if ret <? 0 then str "ERROR"
                    else if ret =? 0 then str "SUCCESS" else str "DEL_FAILER") item))
  | KVS_CMD_MOD => arg 1%nat (λ k, arg 2%nat (λ v,
      ret ← kvstore_modify (Some k) (Some v);
      mret (answer (if ret <? 0 then str "ERROR"
                    else if ret =? 0 then str "SUCCESS" else str "MOD_FAILER") item)))
  | KVS_CMD_SIZE => stop AssertFail
  end).

(** A request over the buffer is the request over its words. *)
Lemma request_words item line rest w :
  rbuffer item = line ++ 0 :: rest → no_nul line →
  words line ≠ [] → (length (words line) ≤ KVSTORE_MAX_TOKENS)%nat →
  kvstore_request item w =
    match parse_words (set_rbuffer (cut false line ++ 0 :: rest) item) (words line) w with
    | Ok (item', w') => Ok ((0, item'), w')
    | Err e => Err e
    end.
Proof.
  intros Hb Hn Hne Hl.
  destruct (split_token_run line rest w Hn Hl) as (toks & Hrun & Htok).
  unfold kvstore_request. rewrite Hb. run. rewrite Hrun. run.
  unfold kvstore_parser_protocol, parse_words.
  destruct (words line) as [|c ws] eqn:Ew; [done|]. clear Hne.
  cbn [length]. rewrite Nat2Z.inj_succ.
  destruct (Z.succ (Z.of_nat (length ws)) =? 0) eqn:E0; b2p; [lia|].
  cbn [rbuffer set_rbuffer set_wbuffer] in *. run. rewrite Htok. cbn [lookup list_lookup].
  destruct (find_cmd commands c); run; rewrite ?Htok; cbn [lookup list_lookup];
    destruct ws as [|k ws]; cbn [lookup list_lookup]; run; try done;
    rewrite ?Htok; cbn [lookup list_lookup].
  - destruct ws as [|v ws]; cbn [lookup list_lookup]; [done|]. run.
    by destruct (kvstore_set _ _ _) as [[ret w']|].
  - by destruct (kvstore_get _ _) as [[[|s|] w']|].
  - by destruct (kvstore_delete _ _) as [[ret w']|].
  - destruct ws as [|v ws]; cbn [lookup list_lookup]; [done|]. run.
    by destruct (kvstore_modify _ _ _) as [[ret w']|].
Qed.
End requests.

Lemma words_no_nul s : no_nul s → Forall no_nul (words s).
Proof.
  induction 1 as [|c s Hc Hs IH]; simpl; [constructor|].
  destruct (c =? SPACE); [done|]. destruct s as [|d s]; [by repeat constructor|].
  destruct (d =? SPACE); [by repeat constructor|].
  destruct (words (d :: s)) as [|wd ws]; [by repeat constructor|].
  apply Forall_cons in IH as [Hw IH]. constructor; [by constructor|done].
Qed.

(** ** The contract of the protocol

    [kv_step m ws r m']: on a store holding [m], the request with words [ws]
    is answered [r] and leaves [m'].  Requests outside the relation are the
    ones the engines do not promise anything for (storing over a present key
    on an engine that does not overwrite, deleting an absent key). *)
Section contract.
Context {E : Type} `{!KvEngine E, !KvLaws E}.
Implicit Types (m : gmap cstr cstr) (k v : cstr).

Definition missing_reply (name : cstr) : cstr :=
  if kv_missing <? 0 then str "ERROR" else name.

Inductive kv_step : gmap cstr cstr → list cstr → cstr → gmap cstr cstr → Prop :=
  | step_set m k v more :
      kv_overwrites = true ∨ m !! k = None → Z.of_nat (size m) < kv_cap →
      kv_step m (str "SET" :: k :: v :: more) (str "SUCCESS") (<[k := v]> m)
  | step_get_hit m k v more :
      m !! k = Some v → kv_step m (str "GET" :: k :: more) (take (BUFFER_LENGTH - 1) v) m
  | step_get_miss m k more :
      m !! k = None → kv_step m (str "GET" :: k :: more) (str "NO EXIST") m
  | step_del m k more :
      is_Some (m !! k) → kv_step m (str "DEL" :: k :: more) (str "SUCCESS") (delete k m)
  | step_mod_hit m k v more :
      is_Some (m !! k) → kv_step m (str "MOD" :: k :: v :: more) (str "SUCCESS") (<[k := v]> m)
  | step_mod_miss m k v more :
      m !! k = None →
      kv_step m (str "MOD" :: k :: v :: more) (missing_reply (str "MOD_FAILER")) m.

Lemma find_SET : find_cmd commands (str "SET") = KVS_CMD_SET.
Proof. done. Qed.
Lemma find_GET : find_cmd commands (str "GET") = KVS_CMD_GET.
Proof. done. Qed.
Lemma find_DEL : find_cmd commands (str "DEL") = KVS_CMD_DEL.
Proof. done. Qed.
Lemma find_MOD : find_cmd commands (str "MOD") = KVS_CMD_MOD.
Proof. done. Qed.

Lemma kv_step_no_nul m ws r m' :
  kv_step m ws r m' → map_Forall (λ _ v, no_nul v) m → Forall no_nul ws →
  map_Forall (λ _ v, no_nul v) m'.
Proof.
  destruct 1; intros Hm Hws; try done; repeat (apply Forall_cons in Hws as [? Hws]).
  - by apply map_Forall_insert_2.
  - by apply map_Forall_delete.
  - by apply map_Forall_insert_2.
Qed.

(** Every literal reply fits the buffer and holds no NUL. *)
Ltac short_literal :=
  apply reply_answer_short; apply (bool_decide_unpack _); vm_compute; reflexivity.

(** One request, at the level of its words. *)
Lemma parse_words_step item w m ws r m' :
  kv_inv w m → map_Forall (λ _ v, no_nul v) m → kv_step m ws r m' →
  ∃ item' w', parse_words item ws w = Ok (item', w') ∧ kv_inv w' m' ∧
    reply item' = Some r ∧ rbuffer item' = rbuffer item.
Proof.
  intros Hinv Hnul Hstep.
  destruct Hstep as [m k v more Hk Hs|m k v more Hk|m k more Hk|m k more Hk|m k v more Hk|m k v more Hk];
    unfold parse_words; cbn [lookup list_lookup];
    rewrite ?find_SET, ?find_GET, ?find_DEL, ?find_MOD; run;
    unfold kvstore_set, kvstore_get, kvstore_delete, kvstore_modify.
  - destruct (law_set w m k v Hinv Hk Hs) as (w' & -> & Hinv'). run.
    eexists _, _. split_and!; [done..| |done]. by short_literal.
  - rewrite (law_get w m k Hinv), Hk. run. eexists _, _. split_and!; [done..| |done].
    apply reply_answer. by apply (Hnul k).
  - rewrite (law_get w m k Hinv), Hk. run. eexists _, _. split_and!; [done..| |done].
    by short_literal.
  - destruct (law_delete w m k Hinv Hk) as (w' & -> & Hinv'). run.
    eexists _, _. split_and!; [done..| |done]. by short_literal.
  - destruct (law_modify w m k v Hinv Hk) as (w' & -> & Hinv'). run.
    eexists _, _. split_and!; [done..| |done]. by short_literal.
  - rewrite (law_modify_missing w m k v Hinv Hk). run.
    eexists _, _. split_and!; [done..| |done]. unfold missing_reply.
    pose proof kv_missing_ne as Hne.
    destruct (kv_missing =? 0) eqn:E0; b2p; [done|].
    destruct (kv_missing <? 0); by short_literal.
Qed.

(** The buffer holds a line and its NUL. *)
Definition holds (buf line : list Z) : Prop :=
  ∃ rest, buf = line ++ 0 :: rest ∧ no_nul line ∧
    (length (words line) ≤ KVSTORE_MAX_TOKENS)%nat.

Lemma kv_step_words m ws r m' : kv_step m ws r m' → ws ≠ [].
Proof. by destruct 1. Qed.

Lemma request_step item line w m r m' :
  kv_inv w m → map_Forall (λ _ v, no_nul v) m → holds (rbuffer item) line →
  kv_step m (words line) r m' →
  ∃ item' w', kvstore_request item w = Ok ((0, item'), w') ∧ kv_inv w' m' ∧
    map_Forall (λ _ v, no_nul v) m' ∧ reply item' = Some r.
Proof.
  intros Hinv Hnul (rest & Hb & Hn & Hl) Hstep.
  rewrite (request_words item line rest w Hb Hn (kv_step_words _ _ _ _ Hstep) Hl).
  destruct (parse_words_step (set_rbuffer (cut false line ++ 0 :: rest) item) w m _ r m' Hinv Hnul Hstep)
    as (item' & w' & -> & Hinv' & Hr & _).
  exists item', w'. split_and!; try done.
  eapply kv_step_no_nul; [done..|]. by apply words_no_nul.
Qed.
End contract.

(** ** Requests the server does not survive *)

Section faults.
Context {E : Type} `{!KvEngine E}.

Lemma request_unknown item line rest (w : world E) c ws :
  rbuffer item = line ++ 0 :: rest → no_nul line → words line = c :: ws →
  (length (words line) ≤ KVSTORE_MAX_TOKENS)%nat → c ∉ commands.*2 →
  kvstore_request item w = Err AssertFail.
Proof.
  intros Hb Hn Hw Hl Hc.
  rewrite (request_words item line rest w Hb Hn) by (done || by rewrite Hw).
  rewrite Hw. unfold parse_words. cbn [lookup list_lookup].
  assert (∀ l, c ∉ l.*2 → find_cmd l c = KVS_CMD_SIZE) as Hf.
  { clear. induction l as [|[x name] l IH]; [done|]. rewrite fmap_cons, not_elem_of_cons.
    intros [Hne Hl]. simpl. rewrite strcmp_eqb, bool_decide_eq_false_2 by done. by apply IH. }
  by rewrite Hf.
Qed.

Lemma request_missing_args item line rest (w : world E) ws :
  rbuffer item = line ++ 0 :: rest → no_nul line → words line = ws →
  ws = [str "SET"] ∨ ws = [str "GET"] ∨ ws = [str "DEL"] ∨ ws = [str "MOD"] ∨
    (∃ k, ws = [str "SET"; k]) ∨ (∃ k, ws = [str "MOD"; k]) →
  kvstore_request item w = Err UninitRead.
Proof.
  intros Hb Hn Hw Hws.
  assert (length (words line) ≤ KVSTORE_MAX_TOKENS)%nat as Hl.
  { rewrite Hw. unfold KVSTORE_MAX_TOKENS.
    destruct Hws as [->|[->|[->|[->|[[k ->]|[k ->]]]]]]; cbn [length]; lia. }
  rewrite (request_words item line rest w Hb Hn); [| |done].
  { rewrite Hw. by destruct Hws as [->|[->|[->|[->|[[k ->]|[k ->]]]]]]. }
  rewrite Hw. by destruct Hws as [->|[->|[->|[->|[[k ->]|[k ->]]]]]].
Qed.

Lemma request_too_many item line rest (w : world E) :
  rbuffer item = line ++ 0 :: rest → no_nul line →
  (KVSTORE_MAX_TOKENS < length (words line))%nat →
  kvstore_request item w = Err OutOfBounds.
Proof.
  intros Hb Hn Hl. unfold kvstore_request, kvstore_split_token. run. rewrite Hb.
  pose proof (split_loop_many w (S (length (line ++ 0 :: rest))) line [] rest []) as H.
  cbn [app] in H. change (length (@nil Z)) with 0%nat in H.
  rewrite H; [done|done|rewrite length_app; simpl; lia|cbn; lia|cbn [length]; lia].
Qed.

Lemma request_unterminated item (w : world E) :
  no_nul (rbuffer item) → kvstore_request item w = Err OutOfBounds.
Proof.
  intros Hn. unfold kvstore_request, kvstore_split_token. run.
  pose proof (split_loop_unterminated w (S (length (rbuffer item))) (rbuffer item) [] [] Hn (Nat.lt_succ_diag_r _)) as H.
  cbn [app] in H. change (length (@nil Z)) with 0%nat in H. by rewrite H.
Qed.

(** A blank line is answered with nothing. *)
Lemma request_blank item n rest (w : world E) :
  rbuffer item = replicate n SPACE ++ 0 :: rest →
  kvstore_request item w = Ok ((0, item), w).
Proof.
  intros Hb. unfold kvstore_request, kvstore_split_token. run. rewrite Hb.
  pose proof (split_blank w (length (replicate n SPACE ++ 0 :: rest)) [] n rest []) as H.
  cbn [app] in H. change (length (@nil Z)) with 0%nat in H. rewrite H. run.
  unfold kvstore_parser_protocol. cbn [length]. run. destruct item. simpl in *. by subst.
Qed.
End faults.
