(* ===== verification/Server.v ===== *)
(** * The network loops of the key-value store

    [server_reader] (src/kv_store/ntyco_entry.c) is the loop of one connection
    under the coroutine scheduler.  The coroutine server as a whole, with its
    scheduler, is in [NtycoServer], the epoll build in [EpollServer].  System
    calls are inputs: what [recv] delivered, what [send] returned. *)

From S2P Require Import Prelude CRuntime Engine Protocol.

(** What [recv] returned: bytes, 0 (end of stream) or -1. *)
Inductive recv_res := RBytes (bs : list Z) | REof | RErr.

(** What the server did to a connection. *)
Inductive output := Sent (bs : list Z) | Closed.

#[global] Instance output_eq_dec : EqDecision output.
Proof. solve_decision. Defined.

(** [recv(fd, buffer, BUFFER_LENGTH, 0)] overwrites a prefix of the buffer. *)
Definition recv_into (buf bs : list Z) : list Z := bs ++ drop (length bs) buf.

Definition set_wlen (n : Z) (i : conn_item) : conn_item :=
  Conn (fd i) (rbuffer i) (wbuffer i) (resource i) (rlen_ i) n (recv_t i) (send_callback i).
Section ntyco.
Context {E : Type} `{!KvEngine E}.

(** [strlen(item.wbuffer)] *)
Definition wbuffer_len (i : conn_item) : prog (world E) Z :=
  match read_str (wbuffer i) with
  | Some s => mret (strlen s)
  | None => stop OutOfBounds
  end.

(* src/kv_store/ntyco_entry.c:22-41 server_reader *)
(** One iteration of the loop, with what [recv] delivered and what [send]
    will return: the bytes handed to [send] or the close, and whether the loop
    goes on.  That [send] is the library's, which transmits in a loop; what it
    gets out, partial writes included, is in [NtycoSocket] and [NtycoServer].
    The [printf] of line 26 is left out. *)
Definition reader_iter (r : recv_res) (sent : Z) : prog (world E) (list output * bool) :=
  match r with
  | RBytes bs =>
      let item := set_rbuffer (recv_into (rbuffer conn_zero) bs) conn_zero in
      '(_, item) ← kvstore_request item;
      n ← wbuffer_len item;
      let item := set_wlen n item in
      let msg := Sent (take (Z.to_nat (wlen_ item)) (wbuffer item)) in
      if sent =? -1 then mret ([msg; Closed], false) else mret ([msg], true)
  | REof => mret ([Closed], false)
  | RErr => mret ([], true)
  end.

(* src/kv_store/ntyco_entry.c server_reader *)
(** The loop over the results its system calls return; at the end of the
    list the coroutine waits in [recv]. *)
Fixpoint server_reader (inp : list (recv_res * Z)) : prog (world E) (list output) :=
  match inp with
  | [] => mret []
  | (r, sent) :: inp' =>
      '(out, more) ← reader_iter r sent;
      if more : bool then (out' ← server_reader inp'; mret (out ++ out')) else mret out
  end.

(** Readers of several connections switch only inside [recv] and [send], so
    they interleave iteration by iteration.  A schedule names the connection
    whose reader runs next; [alive] holds the connections whose reader has
    not returned. *)
Fixpoint run_readers (alive : gset Z) (sched : list (Z * recv_res * Z))
    : prog (world E) (list (Z * output)) :=
  match sched with
  | [] => mret []
  | (fd, r, sent) :: sched' =>
      if bool_decide (fd ∈ alive) then
        '(out, more) ← reader_iter r sent;
        out' ← run_readers (if more : bool then alive else alive ∖ {[fd]}) sched';
        mret ((pair fd <$> out) ++ out')
      else run_readers alive sched'
  end.
End ntyco.

(** ** The coroutine server keeps the protocol's contract *)

Lemma recv_into_zeros bs n : (length bs < n)%nat →
  recv_into (zeros n) bs = bs ++ 0 :: zeros (n - S (length bs)).
Proof.
  intros H. unfold recv_into, zeros. rewrite drop_replicate.
  replace (n - length bs)%nat with (S (n - S (length bs))) by lia. done.
Qed.

Lemma read_str_take buf s : read_str buf = Some s → take (length s) buf = s.
Proof.
  revert s. induction buf as [|c buf IH]; intros s; simpl; [done|].
  destruct (c =? 0); [by intros [= <-]|].
  destruct (read_str buf) as [s'|]; [|done]. intros [= <-]. simpl. by rewrite (IH s').
Qed.

(** A message that arrives whole: shorter than the buffer, without NUL, with
    no more words than the token array holds. *)
Definition whole (line : list Z) : Prop :=
  (length line < BUFFER_LENGTH)%nat ∧ no_nul line ∧
  (length (words line) ≤ KVSTORE_MAX_TOKENS)%nat.

#[global] Instance whole_dec line : Decision (whole line).
Proof. unfold whole, no_nul. apply _. Defined.

Section ntyco_facts.
Context {E : Type} `{!KvEngine E, !KvLaws E}.
Implicit Types (w : world E) (m : gmap cstr cstr).

(** The store as the protocol sees it. *)
Definition store w m : Prop := kv_inv w m ∧ map_Forall (λ _ v, no_nul v) m.

Lemma request_reply w m item line r m' :
  store w m → holds (rbuffer item) line → kv_step m (words line) r m' →
  ∃ item' w', kvstore_request item w = Ok ((0, item'), w') ∧ store w' m' ∧
    wbuffer_len item' w' = Ok (strlen r, w') ∧ take (Z.to_nat (strlen r)) (wbuffer item') = r.
Proof.
  intros [Hinv Hn] Hh Hs.
  destruct (request_step item line w m r m' Hinv Hn Hh Hs) as (item' & w' & -> & Hinv' & Hn' & Hr).
  exists item', w'. split_and!; [done|by split|..].
  - unfold wbuffer_len. unfold reply in Hr. by rewrite Hr.
  - unfold strlen. rewrite Nat2Z.id. by apply read_str_take.
Qed.

Lemma whole_holds line : whole line →
  holds (recv_into (zeros BUFFER_LENGTH) line) line.
Proof.
  intros (Hl & Hn & Hw). eexists. split_and!; [by apply recv_into_zeros|done..].
Qed.

Lemma reader_iter_step w m line r m' sent :
  store w m → whole line → kv_step m (words line) r m' →
  ∃ w', reader_iter (RBytes line) sent w =
      Ok (if sent =? -1 then ([Sent r; Closed], false) else ([Sent r], true), w') ∧ store w' m'.
Proof.
  intros Hst Hl Hs.
  set (item := set_rbuffer (recv_into (rbuffer conn_zero) line) conn_zero).
  destruct (request_reply w m item line r m' Hst (whole_holds _ Hl) Hs)
    as (item' & w' & Hrun & Hst' & Hlen & Htake).
  exists w'. split; [|done]. unfold reader_iter. fold item. run. rewrite Hrun. run.
  rewrite Hlen. run. cbn [wlen_ set_wlen wbuffer]. rewrite Htake.
  by destruct (sent =? -1).
Qed.

(** A schedule of whole requests on open connections, with the replies the
    contract gives them in the order they are served. *)
Inductive served : gmap cstr cstr → list (Z * recv_res * Z) → list (Z * output) →
    gmap cstr cstr → Prop :=
  | served_nil m : served m [] [] m
  | served_cons m fd line sent r m' sched outs m'' :
      whole line → sent ≠ -1 → kv_step m (words line) r m' →
      served m' sched outs m'' →
      served m ((fd, RBytes line, sent) :: sched) ((fd, Sent r) :: outs) m''.

Lemma run_readers_served w m sched outs m' alive :
  served m sched outs m' → store w m → (∀ x, x ∈ sched → x.1.1 ∈ alive) →
  ∃ w', run_readers alive sched w = Ok (outs, w') ∧ store w' m'.
Proof.
  intros H. revert w. induction H as [m|m fd line sent r m' sched outs m'' Hl Hsent Hstep _ IH];
    intros w Hst Hal; [by exists w|].
  destruct (reader_iter_step w m line r m' sent Hst Hl Hstep) as (w' & Hrun & Hst').
  apply Z.eqb_neq in Hsent. rewrite Hsent in Hrun.
  destruct (IH w' Hst') as (w'' & Hrun' & Hst''); [intros x Hx; apply Hal; set_solver|].
  exists w''. split; [|done]. cbn [run_readers].
  rewrite bool_decide_eq_true_2 by (apply (Hal (fd, RBytes line, sent)); set_solver).
  run. rewrite Hrun. run. rewrite Hrun'. done.
Qed.
End ntyco_facts.
