(* ===== verification/EpollServer.v ===== *)
(** * The epoll build of the key-value store (src/kv_store/epoll_entry.c)

    The callbacks [accept_cb], [recv_cb] and [send_cb], the start-up and the
    event loop of [epoll_entry].  System calls are inputs: the batches
    [epoll_wait] reports and what [accept], [recv], [send] and [gettimeofday]
    return in the callback of each event.  [estep] says what the server
    promises for one event, and [dispatch_steps] that the loop keeps it. *)

From S2P Require Import Prelude CRuntime Engine Protocol Server.

Definition set_rlen (n : Z) (i : conn_item) : conn_item :=
  Conn (fd i) (rbuffer i) (wbuffer i) (resource i) n (wlen_ i) (recv_t i) (send_callback i).

(* src/kv_store/epoll_entry.c:21-21 MAX_PORT *)
Definition MAX_PORT : nat := 10.

(** Interest sets of [epoll_event]. *)
Inductive epoll_events := EPOLLIN | EPOLLOUT.

#[global] Instance epoll_events_eq_dec : EqDecision epoll_events.
Proof. solve_decision. Defined.

(* src/kv_store/epoll_entry.c:29-31 connlist *)
(** The globals [connlist], the interest list of [epfd] and [tv_begin] (as
    seconds and microseconds), with the store. *)
Record eserver (E : Type) := EServer {
  connlist : list conn_item;
  interest : gmap Z epoll_events;
  tv_begin : Z * Z;
  store_w : world E;
}.
Arguments EServer {E} _ _ _ _.
Arguments connlist {E} _.
Arguments interest {E} _.
Arguments tv_begin {E} _.
Arguments store_w {E} _.

Section epoll.
Context {E : Type} `{!KvEngine E}.
Notation M := (prog (eserver E)).

Definition get_conn (i : Z) : M conn_item := λ s,
  if i <? 0 then Err OutOfBounds else
  match connlist s !! Z.to_nat i with
  | Some c => Ok (c, s)
  | None => Err OutOfBounds
  end.

Definition put_conn (i : Z) (c : conn_item) : M unit := λ s,
  if (i <? 0) || bool_decide (length (connlist s) ≤ Z.to_nat i)%nat then Err OutOfBounds
  else Ok (tt, EServer (<[Z.to_nat i := c]> (connlist s)) (interest s) (tv_begin s) (store_w s)).

(** [EPOLL_CTL_ADD] fails on a registered or invalid descriptor,
    [EPOLL_CTL_MOD] on an unregistered one; the code ignores both. *)
Definition epoll_add (fd : Z) (ev : epoll_events) : M unit := λ s,
  Ok (tt, EServer (connlist s)
    (if (fd <? 0) || bool_decide (is_Some (interest s !! fd)) then interest s
     else <[fd := ev]> (interest s)) (tv_begin s) (store_w s)).
Definition epoll_mod (fd : Z) (ev : epoll_events) : M unit := λ s,
  Ok (tt, EServer (connlist s)
    (if bool_decide (is_Some (interest s !! fd)) then <[fd := ev]> (interest s)
     else interest s) (tv_begin s) (store_w s)).
Definition epoll_del (fd : Z) : M unit := λ s,
  Ok (tt, EServer (connlist s) (delete fd (interest s)) (tv_begin s) (store_w s)).

(** [gettimeofday(&tv_begin, NULL)] *)
Definition set_begin (now : Z * Z) : M unit := λ s,
  Ok (tt, EServer (connlist s) (interest s) now (store_w s)).

(** Run an operation of the store. *)
Definition on_store {A} (m : prog (world E) A) : M A := λ s,
  match m (store_w s) with
  | Ok (a, w) => Ok (a, EServer (connlist s) (interest s) (tv_begin s) w)
  | Err e => Err e
  end.

(* src/kv_store/epoll_entry.c:70-86 set_event *)
Definition set_event (fd : Z) (event : epoll_events) (flag : Z) : M Z :=
  _ ← (if flag =? 0 then epoll_mod fd event else epoll_add fd event);
  mret 1.

(* src/kv_store/epoll_entry.c accept_cb *)
(** [clientfd] is the result of [accept], [now] that of [gettimeofday], with
    which every thousandth descriptor restarts the clock of the report. *)
Definition accept_cb (clientfd : Z) (now : Z * Z) : M Z :=
  _ ← set_event clientfd EPOLLIN 1;
  c ← get_conn clientfd;
  _ ← put_conn clientfd
        (Conn clientfd (zeros BUFFER_LENGTH) (zeros BUFFER_LENGTH) (resource c) 0 0
              (Some Recv_cb) (Some Send_cb));
  _ ← (if Z.rem clientfd 1000 =? 999 then set_begin now else mret tt);
  mret 0.

(* src/kv_store/epoll_entry.c recv_cb *)
(** A [recv] that fails leaves the buffer as it is and its -1 is counted
    like a length. *)
Definition recv_cb (fd : Z) (r : recv_res) : M (Z * list output) :=
  c ← get_conn fd;
  match r with
  | REof =>
      _ ← epoll_del fd;
      mret (0, [Closed])
  | _ =>
      let buf := match r with RBytes bs => recv_into (rbuffer c) bs | _ => rbuffer c end in
      let count := match r with RBytes bs => Z.of_nat (length bs) | _ => -1 end in
      let c := set_rlen (i32 (rlen_ c + count)) (set_rbuffer buf c) in
      '(_, c) ← on_store (kvstore_request c);
      n ← on_store (wbuffer_len c);
      _ ← put_conn fd (set_wlen n c);
      _ ← set_event fd EPOLLOUT 0;
      mret (count, [])
  end.

(** What goes out when [send] of [msg] returns [sent]: nothing for an error or
    0, otherwise so many bytes from the front. *)
Definition taken (sent : Z) (msg : list Z) : list output :=
  if sent <=? 0 then [] else [Sent (take (Z.to_nat sent) msg)].

(* src/kv_store/epoll_entry.c send_cb *)
(** [sent] is the result of [send]; what it did not take is not tried again. *)
Definition send_cb (fd : Z) (sent : Z) : M (Z * list output) :=
  c ← get_conn fd;
  let out := taken sent (take (Z.to_nat (wlen_ c)) (wbuffer c)) in
  _ ← set_event fd EPOLLIN 0;
  mret (sent, out).

(** What the system calls of the next callback will return. *)
Record sys := Sys { sys_accept : Z; sys_recv : recv_res; sys_send : Z; sys_now : Z * Z }.

(** A call through an [RCALLBACK] pointer. *)
Definition call (cb : option callback) (fd : Z) (s : sys) : M (Z * list output) :=
  match cb with
  | None => stop NullDeref
  | Some Accept_cb => r ← accept_cb (sys_accept s) (sys_now s); mret (r, [])
  | Some Recv_cb => recv_cb fd (sys_recv s)
  | Some Send_cb => send_cb fd (sys_send s)
  end.

(* src/kv_store/epoll_entry.c:266-281 epoll_entry *)
(** The loop over the events of one [epoll_wait]; an event of the model has
    one of the two flags, [EPOLLIN] when both are set. *)
Fixpoint dispatch (events : list (Z * epoll_events * sys)) : M (list (Z * output)) :=
  match events with
  | [] => mret []
  | (connfd, ev, s) :: events' =>
      c ← get_conn connfd;
      '(_, out) ← call (match ev with EPOLLIN => recv_t c | EPOLLOUT => send_callback c end)
                       connfd s;
      out' ← dispatch events';
      mret ((pair connfd <$> out) ++ out')
  end.

(* src/kv_store/epoll_entry.c init_server *)
(** With the results of [socket] and [bind]. *)
Definition init_server (sockfd bound : Z) : Z := if -1 =? bound then -1 else sockfd.

(* src/kv_store/epoll_entry.c:250-256 epoll_entry *)
(** The start-up loop, over the results of [socket] and [bind] for each of
    the [MAX_PORT] ports. *)
Fixpoint listen_all (socks : list (Z * Z)) : M unit :=
  match socks with
  | [] => mret tt
  | (sock, bound) :: socks' =>
      let sockfd := init_server sock bound in
      c ← get_conn sockfd;
      _ ← put_conn sockfd (Conn sockfd (rbuffer c) (wbuffer c) (resource c) (rlen_ c) (wlen_ c)
                                (Some Accept_cb) (send_callback c));
      _ ← set_event sockfd EPOLLIN 1;
      listen_all socks'
  end.

(* src/kv_store/epoll_entry.c:262-282 epoll_entry *)
(** [while (1)], for the batches of events that [epoll_wait] reports; at the
    end of the list the server waits. *)
Fixpoint epoll_loop (batches : list (list (Z * epoll_events * sys))) : M (list (Z * output)) :=
  match batches with
  | [] => mret []
  | events :: batches' =>
      out ← dispatch events;
      out' ← epoll_loop batches';
      mret (out ++ out')
  end.

(* src/kv_store/epoll_entry.c:244-287 epoll_entry *)
(** [socks] holds the results of [socket] and [bind] for the [MAX_PORT]
    ports; the descriptor that [epoll_create] returns is the interest list of
    the state. *)
Definition epoll_entry (socks : list (Z * Z)) (now : Z * Z)
    (batches : list (list (Z * epoll_events * sys))) : M (list (Z * output)) :=
  _ ← listen_all socks;
  _ ← set_begin now;
  epoll_loop batches.
End epoll.

(** ** Facts about the epoll build *)

Section epoll_facts.
Context {E : Type} `{!KvEngine E}.
Implicit Types (s : eserver E) (c : conn_item).

Definition valid_fd (fd : Z) : Prop := 0 ≤ fd < Z.of_nat BUFFER_LENGTH.

(** The connection behind a descriptor. *)
Definition conn_of s (fd : Z) : option conn_item := connlist s !! Z.to_nat fd.

Lemma get_conn_run s fd c : 0 ≤ fd → conn_of s fd = Some c → get_conn fd s = Ok (c, s).
Proof.
  intros Hf Hc. unfold get_conn. destruct (fd <? 0) eqn:Ef; b2p; [lia|].
  unfold conn_of in Hc. by rewrite Hc.
Qed.

Lemma put_conn_run s fd c c' : 0 ≤ fd → conn_of s fd = Some c →
  put_conn fd c' s = Ok (tt, EServer (<[Z.to_nat fd := c']> (connlist s)) (interest s) (tv_begin s) (store_w s)).
Proof.
  intros Hf Hc. unfold put_conn. apply lookup_lt_Some in Hc.
  destruct (fd <? 0) eqn:Ef; b2p; [lia|]. by rewrite bool_decide_eq_false_2 by lia.
Qed.

Lemma conn_out s fd :
  length (connlist s) = BUFFER_LENGTH → ¬ valid_fd fd → get_conn fd s = Err OutOfBounds.
Proof.
  intros Hl Hf. unfold get_conn. destruct (fd <? 0) eqn:Ef; [done|]. b2p.
  unfold valid_fd in Hf. by rewrite lookup_ge_None_2 by lia.
Qed.

(** [accept_cb] resets and registers a connection in range, and indexes
    [connlist] out of bounds otherwise. *)
Lemma accept_cb_run s fd now :
  length (connlist s) = BUFFER_LENGTH → interest s !! fd = None →
  if bool_decide (valid_fd fd)
  then ∃ s' c, accept_cb fd now s = Ok (0, s') ∧ conn_of s' fd = Some c ∧
    rbuffer c = zeros BUFFER_LENGTH ∧ wbuffer c = zeros BUFFER_LENGTH ∧
    rlen_ c = 0 ∧ wlen_ c = 0 ∧ recv_t c = Some Recv_cb ∧ send_callback c = Some Send_cb ∧
    interest s' = <[fd := EPOLLIN]> (interest s) ∧ store_w s' = store_w s ∧
    length (connlist s') = BUFFER_LENGTH ∧
    ∀ fd', 0 ≤ fd' → fd' ≠ fd → conn_of s' fd' = conn_of s fd'
  else accept_cb fd now s = Err OutOfBounds.
Proof.
  intros Hl Hi. case_bool_decide as Hv; unfold accept_cb, set_event; run; cbn [Z.eqb]; unfold epoll_add; run.
  - unfold valid_fd in Hv.
    rewrite Hi, bool_decide_eq_false_2 by (by intros []).
    destruct (fd <? 0) eqn:Ef; b2p; [lia|]. cbn [orb].
    destruct (lookup_lt_is_Some_2 (connlist s) (Z.to_nat fd)) as [c Hc]; [lia|].
    erewrite get_conn_run; [|lia|exact Hc]. run. erewrite put_conn_run; [|lia|exact Hc]. run.
    unfold set_begin. destruct (Z.rem fd 1000 =? 999); run;
    (eexists _, _; split; [reflexivity|]; unfold conn_of; cbn [connlist interest store_w];
     rewrite list_lookup_insert_eq by lia; split; [done|]; rewrite length_insert;
     split_and!; try done; intros fd' H1 H2; by rewrite list_lookup_insert_ne by lia).
  - rewrite conn_out by done. done.
Qed.
End epoll_facts.

(** ** What the server promises *)

(** A connection as its client may think of it: the bytes in its buffer and
    the reply it has still to be sent. *)
Record aconn := AConn { kept : list Z; due : option cstr }.

(** The event the server waits for on a connection. *)
Definition awaits (a : aconn) : epoll_events := match due a with None => EPOLLIN | Some _ => EPOLLOUT end.

Section promise.
Context {E : Type} `{!KvEngine E, !KvLaws E}.

(** One event, on a store holding the pairs [m] and connections [cs]; [L]
    are the listening sockets.  A request overwrites the front of the buffer:
    the line that is served runs from there to the first NUL, which an earlier
    and longer request may have left further on.  A reply gets one [send]; what
    that does not take is lost. *)
Inductive estep (L : gset Z) : gmap cstr cstr → gmap Z aconn → Z * epoll_events * sys →
    list (Z * output) → gmap cstr cstr → gmap Z aconn → Prop :=
  | estep_accept m cs lfd sy :
      lfd ∈ L → valid_fd (sys_accept sy) → sys_accept sy ∉ L → cs !! sys_accept sy = None →
      estep L m cs (lfd, EPOLLIN, sy) []
        m (<[sys_accept sy := AConn (zeros BUFFER_LENGTH) None]> cs)
  | estep_request m cs fd sy buf bs line rest r m' :
      cs !! fd = Some (AConn buf None) → sys_recv sy = RBytes bs →
      recv_into buf bs = line ++ 0 :: rest → no_nul line →
      (length (words line) ≤ KVSTORE_MAX_TOKENS)%nat → kv_step m (words line) r m' →
      estep L m cs (fd, EPOLLIN, sy) []
        m' (<[fd := AConn (cut false line ++ 0 :: rest) (Some r)]> cs)
  | estep_reply m cs fd sy buf r :
      cs !! fd = Some (AConn buf (Some r)) →
      estep L m cs (fd, EPOLLOUT, sy) (pair fd <$> taken (sys_send sy) r) m (<[fd := AConn buf None]> cs)
  | estep_eof m cs fd sy buf :
      cs !! fd = Some (AConn buf None) → sys_recv sy = REof →
      estep L m cs (fd, EPOLLIN, sy) [(fd, Closed)] m (delete fd cs).

Inductive esteps (L : gset Z) : gmap cstr cstr → gmap Z aconn → list (Z * epoll_events * sys) →
    list (Z * output) → gmap cstr cstr → gmap Z aconn → Prop :=
  | esteps_nil m cs : esteps L m cs [] [] m cs
  | esteps_cons m cs ev out m1 cs1 evs outs m2 cs2 :
      estep L m cs ev out m1 cs1 → esteps L m1 cs1 evs outs m2 cs2 →
      esteps L m cs (ev :: evs) (out ++ outs) m2 cs2.
End promise.

Section epoll_contract.
Context {E : Type} `{!KvEngine E, !KvLaws E}.
Implicit Types (s : eserver E) (c : conn_item) (m : gmap cstr cstr) (cs : gmap Z aconn) (L : gset Z).

(** A slot of [connlist] that serves a connection. *)
Record serves c (a : aconn) : Prop := Serves {
  sv_buf : rbuffer c = kept a;
  sv_recv : recv_t c = Some Recv_cb;
  sv_send : send_callback c = Some Send_cb;
  sv_due : ∀ r, due a = Some r → take (Z.to_nat (wlen_ c)) (wbuffer c) = r;
}.

(** The state of the server for a store, connections and listening sockets. *)
Record erel L s m cs : Prop := ERel {
  er_len : length (connlist s) = BUFFER_LENGTH;
  er_store : store (store_w s) m;
  er_listen : ∀ fd, fd ∈ L → valid_fd fd ∧ cs !! fd = None ∧
    ∃ c, conn_of s fd = Some c ∧ recv_t c = Some Accept_cb;
  er_conn : ∀ fd a, cs !! fd = Some a → valid_fd fd ∧ ∃ c, conn_of s fd = Some c ∧ serves c a;
  er_interest : interest s = (awaits <$> cs) ∪ gset_to_gmap EPOLLIN L;
}.

Lemma erel_fresh L s m cs fd : erel L s m cs → cs !! fd = None → fd ∉ L → interest s !! fd = None.
Proof.
  intros H Hc Hl. rewrite (er_interest _ _ _ _ H), lookup_union_None, lookup_fmap, Hc. split; [done|].
  by apply lookup_gset_to_gmap_None.
Qed.

Lemma erel_registered L s m cs fd a : erel L s m cs → cs !! fd = Some a → interest s !! fd = Some (awaits a).
Proof.
  intros H Hc. rewrite (er_interest _ _ _ _ H). apply lookup_union_Some_l. by rewrite lookup_fmap, Hc.
Qed.

(** One connection changes, or is opened. *)
Lemma erel_update L s m cs fd c a m' tv w' :
  erel L s m cs → valid_fd fd → fd ∉ L → serves c a → store w' m' →
  erel L (EServer (<[Z.to_nat fd := c]> (connlist s)) (<[fd := awaits a]> (interest s)) tv w')
    m' (<[fd := a]> cs).
Proof.
  intros [Hlen Hst Hli Hco Hin] Hv Hl Hs Hst'. unfold valid_fd in *.
  assert (∀ fd', 0 ≤ fd' → fd' ≠ fd →
    <[Z.to_nat fd := c]> (connlist s) !! Z.to_nat fd' = connlist s !! Z.to_nat fd') as Hne
    by (intros; by rewrite list_lookup_insert_ne by lia).
  split; cbn [connlist interest store_w]; unfold conn_of in *.
  - by rewrite length_insert.
  - done.
  - intros fd' Hfd'. destruct (Hli fd' Hfd') as (Hv' & Hn & c' & Hc' & Hcb).
    assert (fd ≠ fd') by (by intros ->). rewrite lookup_insert_ne by done. split_and!; [by apply Hv'..|done|].
    cbn [connlist]. exists c'. by rewrite Hne by (lia || done).
  - intros fd' a'. destruct (decide (fd' = fd)) as [->|Hd].
    + rewrite lookup_insert_eq. intros [= <-]. split; [done|]. exists c. cbn [connlist].
      rewrite list_lookup_insert_eq by lia. done.
    + rewrite lookup_insert_ne by done. intros Ha. destruct (Hco _ _ Ha) as (Hv' & c' & Hc' & Hs').
      split; [done|]. exists c'. cbn [connlist]. by rewrite Hne by (lia || done).
  - by rewrite Hin, fmap_insert, insert_union_l.
Qed.

Lemma erel_close L s m cs fd a tv :
  erel L s m cs → cs !! fd = Some a →
  erel L (EServer (connlist s) (delete fd (interest s)) tv (store_w s)) m (delete fd cs).
Proof.
  intros [Hlen Hst Hli Hco Hin] Ha. split; cbn [connlist interest store_w]; [done|done|..].
  - intros fd' Hfd'. destruct (Hli fd' Hfd') as (Hv' & Hn & Hc). split_and!; [done| |done].
    by apply lookup_delete_None; right.
  - intros fd' a' [_ Ha']%lookup_delete_Some. by apply Hco.
  - rewrite Hin, delete_union, fmap_delete. f_equal. apply delete_id, lookup_gset_to_gmap_None.
    intros Hl. by destruct (Hli _ Hl) as (_ & Hn & _); simplify_eq.
Qed.

(** The buffers after a request: the line cut, the reply in place. *)
Lemma request_cut c c' line rest (w w' : world E) z :
  kvstore_request c w = Ok ((z, c'), w') → rbuffer c = line ++ 0 :: rest → no_nul line →
  (length (words line) ≤ KVSTORE_MAX_TOKENS)%nat →
  rbuffer c' = cut false line ++ 0 :: rest ∧ recv_t c' = recv_t c ∧ send_callback c' = send_callback c.
Proof.
  unfold kvstore_request, kvstore_parser_protocol. intros H Hb Hn Hl.
  apply bind_inv in H as ([[count buf] toks] & w1 & Hsplit & H).
  destruct (split_token_run line rest w Hn Hl) as (toks' & Hrun & _).
  rewrite Hb, Hrun in Hsplit. injection Hsplit as <- <- <- <-.
  apply bind_inv in H as ([z2 c2] & w2 & H & Hret). injection Hret as <- <- <-.
  destruct (_ =? 0); [by injection H as <- <- <-|].
  apply bind_inv in H as (t0 & w3 & _ & H).
  destruct (find_cmd commands t0); [..|done];
    repeat match goal with
    | H : (_ ≫= _) _ = Ok _ |- _ => apply bind_inv in H as (? & ? & _ & H)
    | H : match ?v with _ => _ end _ = Ok _ |- _ => destruct v; [..|done]
    end; by injection H as <- <- <-.
Qed.

Lemma epoll_mod_run s fd ev ev' : interest s !! fd = Some ev →
  epoll_mod fd ev' s = Ok (tt, EServer (connlist s) (<[fd := ev']> (interest s)) (tv_begin s) (store_w s)).
Proof. intros H. unfold epoll_mod. by rewrite H, bool_decide_eq_true_2. Qed.

Lemma recv_cb_request L s m cs fd buf bs line rest r m' :
  erel L s m cs → cs !! fd = Some (AConn buf None) → recv_into buf bs = line ++ 0 :: rest →
  no_nul line → (length (words line) ≤ KVSTORE_MAX_TOKENS)%nat → kv_step m (words line) r m' →
  ∃ s', recv_cb fd (RBytes bs) s = Ok ((Z.of_nat (length bs), []), s') ∧
    erel L s' m' (<[fd := AConn (cut false line ++ 0 :: rest) (Some r)]> cs).
Proof.
  intros H Ha Hb Hn Hl Hstep. destruct (er_conn _ _ _ _ H _ _ Ha) as (Hv & c & Hc & [Sb Sr Ss _]).
  assert (fd ∉ L) as Hnl by (intros Hin; destruct (er_listen _ _ _ _ H _ Hin) as (_ & ? & _); simplify_eq).
  set (c1 := set_rlen (i32 (rlen_ c + Z.of_nat (length bs))) (set_rbuffer (recv_into (rbuffer c) bs) c)).
  assert (rbuffer c1 = line ++ 0 :: rest) as Hb1 by (unfold c1; cbn; by rewrite Sb).
  destruct (request_reply (store_w s) m c1 line r m' (er_store _ _ _ _ H)) as (c2 & w' & Hrun & Hst' & Hlen & Htake);
    [by exists rest|done|].
  destruct (request_cut _ _ _ _ _ _ _ Hrun Hb1 Hn Hl) as (Hb2 & Hr2 & Hs2).
  unfold recv_cb. run. unfold valid_fd in Hv. rewrite (get_conn_run s fd c) by (lia || done). run.
  fold c1. unfold on_store. rewrite Hrun. run. cbn [store_w]. rewrite Hlen. run.
  erewrite put_conn_run; [|lia|exact Hc]. run. unfold set_event. run. cbn [Z.eqb]. run.
  erewrite epoll_mod_run; [|exact (erel_registered _ _ _ _ _ _ H Ha)]. run. cbn [connlist interest tv_begin store_w].
  eexists. split; [reflexivity|].
  change EPOLLOUT with (awaits (AConn (cut false line ++ 0 :: rest) (Some r))).
  apply (erel_update L s m cs); [done|done|done| |done].
  split; cbn [rbuffer recv_t send_callback wlen_ wbuffer set_wlen kept due].
  - done.
  - rewrite Hr2. unfold c1. cbn. done.
  - rewrite Hs2. unfold c1. cbn. done.
  - by intros ? [= <-].
Qed.

Lemma send_cb_reply L s m cs fd buf r sent :
  erel L s m cs → cs !! fd = Some (AConn buf (Some r)) →
  ∃ s', send_cb fd sent s = Ok ((sent, taken sent r), s') ∧ erel L s' m (<[fd := AConn buf None]> cs).
Proof.
  intros H Ha. destruct (er_conn _ _ _ _ H _ _ Ha) as (Hv & c & Hc & [Sb Sr Ss Sd]).
  assert (fd ∉ L) as Hnl by (intros Hin; destruct (er_listen _ _ _ _ H _ Hin) as (_ & ? & _); simplify_eq).
  unfold send_cb. run. unfold valid_fd in Hv. rewrite (get_conn_run s fd c) by (lia || done). run.
  unfold set_event. run. cbn [Z.eqb]. run.
  erewrite epoll_mod_run; [|exact (erel_registered _ _ _ _ _ _ H Ha)]. run.
  rewrite (Sd r eq_refl). eexists. split; [reflexivity|].
  rewrite <- (list_insert_id (connlist s) (Z.to_nat fd) c Hc).
  change EPOLLIN with (awaits (AConn buf None)).
  apply (erel_update L s m cs); [done|done|done| |exact (er_store _ _ _ _ H)]. by split.
Qed.

Lemma accept_cb_open L s m cs fd now :
  erel L s m cs → valid_fd fd → fd ∉ L → cs !! fd = None →
  ∃ s', accept_cb fd now s = Ok (0, s') ∧
    erel L s' m (<[fd := AConn (zeros BUFFER_LENGTH) None]> cs).
Proof.
  intros H Hv Hl Hc. pose proof (erel_fresh _ _ _ _ _ H Hc Hl) as Hi.
  destruct (lookup_lt_is_Some_2 (connlist s) (Z.to_nat fd)) as [c Hcc];
    [unfold valid_fd in Hv; rewrite (er_len _ _ _ _ H); lia|].
  unfold valid_fd in Hv. unfold accept_cb, set_event. run. cbn [Z.eqb]. unfold epoll_add. run.
  rewrite Hi, bool_decide_eq_false_2 by (by intros []). destruct (fd <? 0) eqn:Ef; b2p; [lia|]. cbn [orb].
  erewrite get_conn_run; [|lia|exact Hcc]. run. erewrite put_conn_run; [|lia|exact Hcc]. run.
  cbn [connlist interest tv_begin store_w]. unfold set_begin.
  destruct (Z.rem fd 1000 =? 999); run; eexists; (split; [reflexivity|]);
    change EPOLLIN with (awaits (AConn (zeros BUFFER_LENGTH) None));
    (apply (erel_update L s m cs); [done|done|done|by split|exact (er_store _ _ _ _ H)]).
Qed.

(** One event. *)
Lemma dispatch_step L s m cs ev out m' cs' evs :
  erel L s m cs → estep L m cs ev out m' cs' →
  ∃ s', erel L s' m' cs' ∧
    dispatch (ev :: evs) s = match dispatch evs s' with Ok (outs, s'') => Ok (out ++ outs, s'') | Err e => Err e end.
Proof.
  intros H Hs. destruct Hs as [m cs lfd sy Hl Hv Hnl Hn|m cs fd sy buf bs line rest r m' Ha Hr Hb Hn Hl Hstep
    |m cs fd sy buf r Ha|m cs fd sy buf Ha Hr]; cbn [dispatch]; run.
  - destruct (er_listen _ _ _ _ H _ Hl) as ([Hlv _] & _ & c & Hc & Hcb).
    rewrite (get_conn_run s lfd c) by done. run. rewrite Hcb. cbn [call].
    destruct (accept_cb_open L s m cs _ (sys_now sy) H Hv Hnl Hn) as (s' & Hrun & H').
    run. rewrite Hrun. run. exists s'. split; [done|]. by destruct (dispatch evs s') as [[? ?]|].
  - destruct (er_conn _ _ _ _ H _ _ Ha) as ([Hlv _] & c & Hc & [_ Hcb _ _]).
    rewrite (get_conn_run s fd c) by done. run. rewrite Hcb. cbn [call]. rewrite Hr.
    destruct (recv_cb_request L s m cs fd buf bs line rest r m' H Ha Hb Hn Hl Hstep) as (s' & Hrun & H').
    rewrite Hrun. run. exists s'. split; [done|]. by destruct (dispatch evs s') as [[? ?]|].
  - destruct (er_conn _ _ _ _ H _ _ Ha) as ([Hlv _] & c & Hc & [_ _ Hcb _]).
    rewrite (get_conn_run s fd c) by done. run. rewrite Hcb. cbn [call].
    destruct (send_cb_reply L s m cs fd buf r (sys_send sy) H Ha) as (s' & Hrun & H').
    rewrite Hrun. run. exists s'. split; [done|]. by destruct (dispatch evs s') as [[? ?]|].
  - destruct (er_conn _ _ _ _ H _ _ Ha) as ([Hlv _] & c & Hc & [_ Hcb _ _]).
    rewrite (get_conn_run s fd c) by done. run. rewrite Hcb. cbn [call]. unfold recv_cb. run.
    rewrite (get_conn_run s fd c) by done. run. rewrite Hr. unfold epoll_del. run.
    eexists. split; [exact (erel_close L s m cs fd _ (tv_begin s) H Ha)|].
    by destruct (dispatch evs _) as [[? ?]|].
Qed.

Lemma dispatch_steps L s m cs evs outs m' cs' :
  erel L s m cs → esteps L m cs evs outs m' cs' →
  ∃ s', dispatch evs s = Ok (outs, s') ∧ erel L s' m' cs'.
Proof.
  intros H Hs. revert s H. induction Hs as [|m cs ev out m1 cs1 evs outs m2 cs2 Hstep _ IH]; intros s H;
    [by exists s|].
  destruct (dispatch_step _ _ _ _ _ _ _ _ evs H Hstep) as (s1 & H1 & ->).
  destruct (IH s1 H1) as (s2 & -> & H2). by exists s2.
Qed.

Lemma esteps_app_inv L m cs evs1 evs2 outs m' cs' :
  esteps L m cs (evs1 ++ evs2) outs m' cs' →
  ∃ outs1 outs2 m1 cs1, outs = outs1 ++ outs2 ∧ esteps L m cs evs1 outs1 m1 cs1 ∧
    esteps L m1 cs1 evs2 outs2 m' cs'.
Proof.
  revert m cs outs. induction evs1 as [|ev evs1 IH]; intros m cs outs H; cbn [app] in H.
  - exists [], outs, m, cs. split_and!; [done|constructor|done].
  - inversion H as [|? ? ? out m1 cs1 ? outs' ? ? Hs Hrest]; subst.
    destruct (IH _ _ _ Hrest) as (o1 & o2 & m2 & cs2 & -> & H1 & H2).
    exists (out ++ o1), o2, m2, cs2. rewrite app_assoc. split_and!; [done|by econstructor|done].
Qed.

Lemma epoll_loop_steps L s m cs batches outs m' cs' :
  erel L s m cs → esteps L m cs (concat batches) outs m' cs' →
  ∃ s', epoll_loop batches s = Ok (outs, s') ∧ erel L s' m' cs'.
Proof.
  revert s m cs outs. induction batches as [|evs batches IH]; intros s m cs outs H Hs; cbn [concat] in Hs.
  { inversion Hs; subst. by exists s. }
  apply esteps_app_inv in Hs as (o1 & o2 & m1 & cs1 & -> & H1 & H2).
  destruct (dispatch_steps _ _ _ _ _ _ _ _ H H1) as (s1 & R1 & S1).
  destruct (IH _ _ _ _ S1 H2) as (s2 & R2 & S2). exists s2. split; [|done].
  cbn [epoll_loop]. run. rewrite R1. run. rewrite R2. by run.
Qed.

(** Start-up: the descriptors of the sockets that could be bound. *)
Lemma listen_all_run L s m socks :
  erel L s m ∅ → Forall (λ x, x.2 = 0 ∧ valid_fd x.1) socks → NoDup (fst <$> socks) →
  Forall (λ x, x.1 ∉ L) socks →
  ∃ s', listen_all socks s = Ok (tt, s') ∧ erel (L ∪ list_to_set (fst <$> socks)) s' m ∅.
Proof.
  revert L s. induction socks as [|[sock bound] socks IH]; intros L s H Hok Hnd Hnl.
  { exists s. cbn. by rewrite union_empty_r_L. }
  apply Forall_cons in Hok as [[Hb Hv] Hok]. cbn in Hb, Hv. subst bound.
  apply Forall_cons in Hnl as [Hl Hnl]. cbn in Hl. cbn [fmap list_fmap fst] in Hnd.
  apply NoDup_cons in Hnd as [Hni Hnd]. unfold valid_fd in Hv.
  destruct (lookup_lt_is_Some_2 (connlist s) (Z.to_nat sock)) as [c Hc]; [rewrite (er_len _ _ _ _ H); lia|].
  pose proof (erel_fresh _ _ _ _ sock H (lookup_empty _) Hl) as Hi.
  cbn [listen_all]. unfold init_server. cbn [Z.eqb]. run. rewrite (get_conn_run s sock c) by (lia || done). run.
  erewrite put_conn_run; [|lia|exact Hc]. run. unfold set_event. run. cbn [Z.eqb]. unfold epoll_add. run.
  cbn [interest]. rewrite Hi, bool_decide_eq_false_2 by (by intros []).
  destruct (sock <? 0) eqn:Ef; b2p; [lia|]. cbn [orb connlist tv_begin store_w].
  destruct H as [Hlen Hst Hli _ Hin].
  edestruct (IH (L ∪ {[sock]})) as (s' & Hrun & H');
    [| exact Hok|exact Hnd| |exists s'; split; [exact Hrun|]].
  - split; cbn [connlist interest store_w]; unfold conn_of in *; cbn [connlist].
    + by rewrite length_insert.
    + exact Hst.
    + intros fd' [Hfd'| ->%elem_of_singleton]%elem_of_union.
      * destruct (Hli fd' Hfd') as (Hv' & Hn & c' & Hc' & Hcb). split_and!; [done..|].
        exists c'. unfold valid_fd in Hv'. rewrite list_lookup_insert_ne; [done|].
        intros Heq. apply Hl. by replace sock with fd' by lia.
      * split_and!; [unfold valid_fd; lia|done|]. eexists.
        rewrite list_lookup_insert_eq by lia. done.
    + intros ? ? Hx. by rewrite lookup_empty in Hx.
    + rewrite Hin, fmap_empty, !map_empty_union. symmetry. rewrite (union_comm_L L).
      apply gset_to_gmap_union_singleton.
  - apply Forall_forall. intros x Hx [Hin'| Heq%elem_of_singleton]%elem_of_union.
    + rewrite Forall_forall in Hnl. exact (Hnl x Hx Hin').
    + apply Hni. rewrite <- Heq. by apply list_elem_of_fmap_2.
  - cbn [fmap list_fmap fst list_to_set]. by rewrite (assoc_L (∪)).
Qed.

(** [connlist] and the interest list before [epoll_entry]. *)
Definition epoll_zero (w : world E) : eserver E := EServer (replicate BUFFER_LENGTH conn_zero) ∅ (0, 0) w.

Lemma epoll_entry_run w m socks now batches outs m' cs' :
  store w m → Forall (λ x, x.2 = 0 ∧ valid_fd x.1) socks → NoDup (fst <$> socks) →
  esteps (list_to_set (fst <$> socks)) m ∅ (concat batches) outs m' cs' →
  ∃ s', epoll_entry socks now batches (epoll_zero w) = Ok (outs, s') ∧
    erel (list_to_set (fst <$> socks)) s' m' cs'.
Proof.
  intros Hst Hok Hnd Hs.
  destruct (listen_all_run ∅ (epoll_zero w) m socks) as (s1 & R1 & H1);
    [split; cbn [epoll_zero connlist interest store_w]|done|done|by apply Forall_true; intros; set_solver|].
  - apply length_replicate.
  - done.
  - set_solver.
  - intros ? ? Hx. by rewrite lookup_empty in Hx.
  - by rewrite fmap_empty, gset_to_gmap_empty, map_empty_union.
  - rewrite union_empty_l_L in H1. unfold epoll_entry. run. rewrite R1. run. unfold set_begin. run.
    apply (epoll_loop_steps _ _ m ∅); [|done]. destruct H1 as [? ? ? ? ?]. by split.
Qed.
End epoll_contract.
