(* ===== verification/Coro.v ===== *)
(** * Code that gives up the processor

    A coroutine is a program that runs on a state until it ends or until it
    switches to the scheduler, leaving the rest of itself behind.  [co S A] is
    such a program with a result of type [A]; between two switches it is a
    [prog S]. *)

From S2P Require Import Prelude.

Inductive co (S A : Type) := Co (resume : S → result ((A + co S A) * S)).
Arguments Co {S A} _.

(** Run to the end or to the next switch. *)
Definition go {S A} (c : co S A) : S → result ((A + co S A) * S) :=
  match c with Co f => f end.

#[global] Instance co_ret {S} : MRet (co S) := λ A a, Co (λ s, Ok (inl a, s)).

Fixpoint cbind {S A B} (k : A → co S B) (c : co S A) : co S B :=
  match c with
  | Co f => Co (λ s,
      match f s with
      | Ok (inl a, s') => go (k a) s'
      | Ok (inr c', s') => Ok (inr (cbind k c'), s')
      | Err e => Err e
      end)
  end.

#[global] Instance co_bind {S} : MBind (co S) := λ A B k c, cbind k c.

(** Code that does not switch. *)
Definition act {S A} (m : prog S A) : co S A := Co (λ s,
  match m s with Ok (a, s') => Ok (inl a, s') | Err e => Err e end).

(** Switch to the scheduler; the rest is empty. *)
Definition switch {S} : co S unit := Co (λ s, Ok (inr (mret tt), s)).

Section co_laws.
Context {S A B : Type}.
Implicit Types (c : co S A) (k : A → co S B) (m : prog S A) (s : S).

Lemma go_bind c k s :
  go (c ≫= k) s = match go c s with
    | Ok (inl a, s') => go (k a) s'
    | Ok (inr c', s') => Ok (inr (c' ≫= k), s')
    | Err e => Err e
    end.
Proof. destruct c. done. Qed.

Lemma go_ret (a : A) s : go (mret a : co S A) s = Ok (inl a, s).
Proof. done. Qed.

Lemma go_act m s : go (act m) s = match m s with Ok (a, s') => Ok (inl a, s') | Err e => Err e end.
Proof. done. Qed.
End co_laws.

Lemma go_switch {S} (s : S) : go switch s = Ok (inr (mret tt), s).
Proof. done. Qed.

#[export] Hint Rewrite @go_bind @go_ret @go_act @go_switch : ga_run.
