(* ===== verification/Ntyco.v ===== *)
(** * The coroutine library of the store (src/kv_store/Ntyco)

    nty_coroutine.c, nty_schedule.c and nty_epoll.c in the configuration the
    sources select: [_USE_UCONTEXT] and [CANCEL_FD_WAIT_UINT64].  All
    coroutines run on one stack, the scheduler's; a coroutine that yields copies
    its part of it away and gets it back when it is resumed.

    A coroutine is an address; its [struct _nty_coroutine] lives in a heap, so
    that following the address of a freed one is a fault.  The saved machine
    context and stack are the rest of its program, a [co].  The red-black trees
    and the tail queue of the BSD headers are ordered lists of links; linking a
    node twice, or unlinking one that is not linked, is a fault. *)

From S2P Require Import Prelude CRuntime Coro Server.

(** ** Constants *)

(* src/kv_store/Ntyco/nty_coroutine.h:82-82 NTY_CO_MAX_STACKSIZE *)
Definition NTY_CO_MAX_STACKSIZE : Z := 128 * 1024.

(* src/kv_store/Ntyco/nty_coroutine.h:92-109 nty_coroutine_status *)
Inductive nty_coroutine_status :=
  | NTY_COROUTINE_STATUS_WAIT_READ
  | NTY_COROUTINE_STATUS_WAIT_WRITE
  | NTY_COROUTINE_STATUS_NEW
  | NTY_COROUTINE_STATUS_READY
  | NTY_COROUTINE_STATUS_EXITED
  | NTY_COROUTINE_STATUS_BUSY
  | NTY_COROUTINE_STATUS_SLEEPING
  | NTY_COROUTINE_STATUS_EXPIRED
  | NTY_COROUTINE_STATUS_FDEOF
  | NTY_COROUTINE_STATUS_DETACH
  | NTY_COROUTINE_STATUS_CANCELLED
  | NTY_COROUTINE_STATUS_PENDING_RUNCOMPUTE
  | NTY_COROUTINE_STATUS_RUNCOMPUTE
  | NTY_COROUTINE_STATUS_WAIT_IO_READ
  | NTY_COROUTINE_STATUS_WAIT_IO_WRITE
  | NTY_COROUTINE_STATUS_WAIT_MULTI.

(** The value C gives a constant of the enumeration. *)
Definition enum (x : nty_coroutine_status) : Z :=
  match x with
  | NTY_COROUTINE_STATUS_WAIT_READ => 0
  | NTY_COROUTINE_STATUS_WAIT_WRITE => 1
  | NTY_COROUTINE_STATUS_NEW => 2
  | NTY_COROUTINE_STATUS_READY => 3
  | NTY_COROUTINE_STATUS_EXITED => 4
  | NTY_COROUTINE_STATUS_BUSY => 5
  | NTY_COROUTINE_STATUS_SLEEPING => 6
  | NTY_COROUTINE_STATUS_EXPIRED => 7
  | NTY_COROUTINE_STATUS_FDEOF => 8
  | NTY_COROUTINE_STATUS_DETACH => 9
  | NTY_COROUTINE_STATUS_CANCELLED => 10
  | NTY_COROUTINE_STATUS_PENDING_RUNCOMPUTE => 11
  | NTY_COROUTINE_STATUS_RUNCOMPUTE => 12
  | NTY_COROUTINE_STATUS_WAIT_IO_READ => 13
  | NTY_COROUTINE_STATUS_WAIT_IO_WRITE => 14
  | NTY_COROUTINE_STATUS_WAIT_MULTI => 15
  end.

(* src/kv_store/Ntyco/nty_coroutine.h:84-84 BIT *)
Definition BIT (x : nty_coroutine_status) : Z := Z.shiftl 1 (enum x).
(* src/kv_store/Ntyco/nty_coroutine.h:85-85 CLEARBIT *)
Definition CLEARBIT (x : nty_coroutine_status) : Z := Z.lnot (Z.shiftl 1 (enum x)).

(** Linux: poll.h, sys/epoll.h and errno.h. *)
Definition POLLIN : Z := 1.
Definition POLLOUT : Z := 4.
Definition POLLERR : Z := 8.
Definition POLLHUP : Z := 16.
Definition POLLRDNORM : Z := 64.
Definition POLLWRNORM : Z := 256.
Definition EINTR : Z := 4.
Definition EAGAIN : Z := 11.
Definition ENFILE : Z := 23.
Definition EMFILE : Z := 24.
Definition ECONNABORTED : Z := 103.
Definition ECONNRESET : Z := 104.
Definition EINPROGRESS : Z := 115.

(** [x & BIT(b)] as a condition. *)
Definition has (x : Z) (b : nty_coroutine_status) : bool := negb (Z.land x (BIT b) =? 0).

(** ** Ordered trees of coroutines

    RB_FIND, RB_INSERT, RB_REMOVE and RB_MIN on trees whose nodes are compared
    by one integer key.  [BsdProps] shows that the functions generated by the
    macros implement these lists. *)

Abbreviation tree := (list (Z * nat)).

Fixpoint rb_find (k : Z) (t : tree) : option nat :=
  match t with
  | [] => None
  | (k', i) :: t' => if k =? k' then Some i else rb_find k t'
  end.

(** The node with an equal key, or the tree with the new node. *)
Fixpoint rb_add (k : Z) (i : nat) (t : tree) : option nat * tree :=
  match t with
  | [] => (None, [(k, i)])
  | (k', j) :: t' =>
      if k <? k' then (None, (k, i) :: t)
      else if k =? k' then (Some j, t)
      else let '(f, t'') := rb_add k i t' in (f, (k', j) :: t'')
  end.

Definition linked (i : nat) (t : tree) : bool := bool_decide (i ∈ t.*2).

Definition rb_insert (k : Z) (i : nat) (t : tree) : result (option nat * tree) :=
  match rb_add k i t with
  | (Some j, _) => Ok (Some j, t)
  | (None, t') => if linked i t then Err BadLink else Ok (None, t')
  end.

Definition rb_remove (i : nat) (t : tree) : result tree :=
  if linked i t then Ok (filter (λ x, x.2 ≠ i) t) else Err BadLink.

Definition rb_min (t : tree) : option nat := snd <$> head t.

(** ** The system

    The kernel's answers to system calls are inputs.  [epoll_wait] returns the
    next batch of events, without those of descriptors that are not in the
    interest list; when the batches are used up every call times out.  An event
    comes with the answers the system calls will get that the coroutine it wakes
    makes before it yields again. *)
Inductive answer :=
  | AVal (v : Z)
  | AData (bs : list Z)
  | AErr (errno : Z).

Record event := Event {
  ev_fd : Z;
  ev_events : Z;
  ev_answers : list answer;
}.

Inductive wait_res := Ready (evs : list event) | Failed (errno : Z).

Record nsys := NSys {
  y_n : nat;
  (** [gettimeofday], in microseconds *)
  y_clock : nat → Z;
  (** the bytes of stack in use at a yield *)
  y_depth : nat → Z;
  y_batches : list wait_res;
  y_answers : list answer;
  (** the interest list of the scheduler's epoll instance *)
  y_interest : gmap Z Z;
  y_out : list (Z * output);
}.

(** ** Data *)

(* src/kv_store/Ntyco/nty_coroutine.h:188-247 nty_coroutine *)
(** [func] and [arg] are one value of a type [F]; [co_stack] tells whether
    [stack] is set.  The fields that nothing reads are left out. *)
Record nty_coroutine (F : Type) := Coroutine {
  co_main : F;
  co_stack : bool;
  co_stack_size : Z;
  co_status : Z;
  co_birth : Z;
  co_id : Z;
  co_fd : Z;
  co_events : Z;
  co_ops : Z;
  sleep_usecs : Z;
}.
Arguments Coroutine {F}.
Arguments co_main {F} _.
Arguments co_stack {F} _.
Arguments co_stack_size {F} _.
Arguments co_status {F} _.
Arguments co_birth {F} _.
Arguments co_id {F} _.
Arguments co_fd {F} _.
Arguments co_events {F} _.
Arguments co_ops {F} _.
Arguments sleep_usecs {F} _.

(* src/kv_store/Ntyco/nty_coroutine.h:154-186 nty_schedule *)
(** The queue [defer], the mutex and [nevents], which nothing reads, are left
    out; [busy] is never filled. *)
Record nty_schedule := Schedule {
  s_birth : Z;
  s_stack : bool;
  s_stack_size : Z;
  spawned_coroutines : Z;
  default_timeout : Z;
  curr_thread : option nat;
  poller_fd : Z;
  s_eventfd : Z;
  eventlist : list event;
  num_new_events : nat;
  ready : list nat;
  busy : list nat;
  sleeping : tree;
  waiting : tree;
}.

(** The process as the library sees it: the scheduler behind
    [global_sched_key], the coroutines, whose frames the shared stack holds
    and whose frames it held when the running coroutine was started, the
    allocator, the system, and the state [W] of the program that uses it. *)
Record nty (F W : Type) := Nty {
  n_sched : option nty_schedule;
  n_cos : gmap nat (nty_coroutine F);
  n_next : nat;
  n_stack : option nat;
  n_under : option nat;
  n_al : alloc;
  n_sys : nsys;
  n_app : W;
}.
Arguments Nty {F W}.
Arguments n_sched {F W} _.
Arguments n_cos {F W} _.
Arguments n_next {F W} _.
Arguments n_stack {F W} _.
Arguments n_under {F W} _.
Arguments n_al {F W} _.
Arguments n_sys {F W} _.
Arguments n_app {F W} _.

(** ** Record updates *)

Definition nco_eta {F} (r : nty_coroutine F) : nty_coroutine F :=
  Coroutine (co_main r) (co_stack r) (co_stack_size r) (co_status r) (co_birth r) (co_id r)
    (co_fd r) (co_events r) (co_ops r) (sleep_usecs r).
Definition sched_eta (r : nty_schedule) : nty_schedule :=
  Schedule (s_birth r) (s_stack r) (s_stack_size r) (spawned_coroutines r) (default_timeout r)
    (curr_thread r) (poller_fd r) (s_eventfd r) (eventlist r) (num_new_events r) (ready r)
    (busy r) (sleeping r) (waiting r).
Definition nsys_eta (r : nsys) : nsys :=
  NSys (y_n r) (y_clock r) (y_depth r) (y_batches r) (y_answers r) (y_interest r) (y_out r).
Definition nty_eta {F W} (r : nty F W) : nty F W :=
  Nty (n_sched r) (n_cos r) (n_next r) (n_stack r) (n_under r) (n_al r) (n_sys r) (n_app r).

Ltac nty_setter eta p := let e := eval cbv delta [nco_eta sched_eta nsys_eta nty_eta] in eta in
  let e := eval cbv beta in e in build_setter e p.

#[global] Instance set_co_stack {F} : Setter (@co_stack F).
Proof. nty_setter (@nco_eta F) (@co_stack F). Defined.
#[global] Instance set_co_stack_size {F} : Setter (@co_stack_size F).
Proof. nty_setter (@nco_eta F) (@co_stack_size F). Defined.
#[global] Instance set_co_status {F} : Setter (@co_status F).
Proof. nty_setter (@nco_eta F) (@co_status F). Defined.
#[global] Instance set_co_fd {F} : Setter (@co_fd F).
Proof. nty_setter (@nco_eta F) (@co_fd F). Defined.
#[global] Instance set_co_events {F} : Setter (@co_events F).
Proof. nty_setter (@nco_eta F) (@co_events F). Defined.
#[global] Instance set_co_ops {F} : Setter (@co_ops F).
Proof. nty_setter (@nco_eta F) (@co_ops F). Defined.
#[global] Instance set_sleep_usecs {F} : Setter (@sleep_usecs F).
Proof. nty_setter (@nco_eta F) (@sleep_usecs F). Defined.

#[global] Instance set_spawned : Setter spawned_coroutines.
Proof. nty_setter sched_eta spawned_coroutines. Defined.
#[global] Instance set_curr_thread : Setter curr_thread.
Proof. nty_setter sched_eta curr_thread. Defined.
#[global] Instance set_poller_fd : Setter poller_fd.
Proof. nty_setter sched_eta poller_fd. Defined.
#[global] Instance set_s_eventfd : Setter s_eventfd.
Proof. nty_setter sched_eta s_eventfd. Defined.
#[global] Instance set_eventlist : Setter eventlist.
Proof. nty_setter sched_eta eventlist. Defined.
#[global] Instance set_num_new_events : Setter num_new_events.
Proof. nty_setter sched_eta num_new_events. Defined.
#[global] Instance set_ready : Setter ready.
Proof. nty_setter sched_eta ready. Defined.
#[global] Instance set_sleeping : Setter sleeping.
Proof. nty_setter sched_eta sleeping. Defined.
#[global] Instance set_waiting : Setter waiting.
Proof. nty_setter sched_eta waiting. Defined.

#[global] Instance set_y_n : Setter y_n.
Proof. nty_setter nsys_eta y_n. Defined.
#[global] Instance set_y_batches : Setter y_batches.
Proof. nty_setter nsys_eta y_batches. Defined.
#[global] Instance set_y_answers : Setter y_answers.
Proof. nty_setter nsys_eta y_answers. Defined.
#[global] Instance set_y_interest : Setter y_interest.
Proof. nty_setter nsys_eta y_interest. Defined.
#[global] Instance set_y_out : Setter y_out.
Proof. nty_setter nsys_eta y_out. Defined.

#[global] Instance set_n_sched {F W} : Setter (@n_sched F W).
Proof. nty_setter (@nty_eta F W) (@n_sched F W). Defined.
#[global] Instance set_n_cos {F W} : Setter (@n_cos F W).
Proof. nty_setter (@nty_eta F W) (@n_cos F W). Defined.
#[global] Instance set_n_next {F W} : Setter (@n_next F W).
Proof. nty_setter (@nty_eta F W) (@n_next F W). Defined.
#[global] Instance set_n_stack {F W} : Setter (@n_stack F W).
Proof. nty_setter (@nty_eta F W) (@n_stack F W). Defined.
#[global] Instance set_n_under {F W} : Setter (@n_under F W).
Proof. nty_setter (@nty_eta F W) (@n_under F W). Defined.
#[global] Instance set_n_al {F W} : Setter (@n_al F W).
Proof. nty_setter (@nty_eta F W) (@n_al F W). Defined.
#[global] Instance set_n_sys {F W} : Setter (@n_sys F W).
Proof. nty_setter (@nty_eta F W) (@n_sys F W). Defined.
#[global] Instance set_n_app {F W} : Setter (@n_app F W).
Proof. nty_setter (@nty_eta F W) (@n_app F W). Defined.

(* src/kv_store/Ntyco/nty_epoll.c:56-56 nty_epoller_wait *)
(** The timeout of [epoll_wait] in milliseconds, from seconds and nanoseconds;
    the double it is computed as is exact. *)
Definition epoll_ms (t : Z * Z) : Z := t.1 * 1000 + t.2 `div` 1000000.

(** ** Operations that do not switch *)

Definition Assert {S} (b : bool) : prog S unit := if b then mret tt else stop AssertFail.

Section operations.
Context {F W : Type}.
Notation N := (prog (nty F W)).

Definition gets {A} (f : nty F W → A) : N A := λ s, Ok (f s, s).
Definition modify (f : nty F W → nty F W) : N unit := λ s, Ok (tt, f s).

(* src/kv_store/Ntyco/nty_coroutine.h nty_coroutine_get_sched *)
Definition nty_coroutine_get_sched : N (option nty_schedule) := gets n_sched.

(** [sched->...]: the scheduler through a pointer. *)
Definition the_sched : N nty_schedule := λ s,
  match n_sched s with Some sc => Ok (sc, s) | None => Err NullDeref end.
Definition upd_sched (f : nty_schedule → nty_schedule) : N unit := λ s,
  match n_sched s with Some sc => Ok (tt, s <| n_sched := Some (f sc) |>) | None => Err NullDeref end.

(** [co->...] *)
Definition get_co (i : nat) : N (nty_coroutine F) := λ s,
  match n_cos s !! i with Some c => Ok (c, s) | None => Err UseAfterFree end.
Definition upd_co (i : nat) (f : nty_coroutine F → nty_coroutine F) : N unit := λ s,
  match n_cos s !! i with
  | Some c => Ok (tt, s <| n_cos := <[i := f c]> (n_cos s) |>)
  | None => Err UseAfterFree
  end.

Definition upd_sys (f : nsys → nsys) : N unit := modify (λ s, s <| n_sys := f (n_sys s) |>).

(** The next value of a clock or gauge of the system. *)
Definition gauge {A} (f : nsys → nat → A) : N A := λ s,
  Ok (f (n_sys s) (y_n (n_sys s)), s <| n_sys := n_sys s <| y_n := S (y_n (n_sys s)) |> |>).

(** The answer to the next system call; without one, it would block. *)
Definition sys_answer : N answer := λ s,
  match y_answers (n_sys s) with
  | [] => Ok (AErr EAGAIN, s)
  | a :: l => Ok (a, s <| n_sys := n_sys s <| y_answers := l |> |>)
  end.

(** A call that returns a number, or -1 with [errno]. *)
Definition sys_number : N (Z * Z) :=
  a ← sys_answer;
  mret (match a with AVal v => (v, 0) | AData bs => (Z.of_nat (length bs), 0) | AErr e => (-1, e) end).

(** [calloc], [realloc] and [posix_memalign] tell whether they got a block. *)
Definition nmalloc : N bool := λ s,
  let a := n_al s in
  let ok := al_ok a (al_calls a) in
  Ok (ok, s <| n_al := al_next a (if ok then 1 else 0) |>).
Definition nfree : N unit := modify (λ s, s <| n_al := al_dec (n_al s) |>).
Definition nrealloc (old : bool) : N bool := λ s,
  let a := n_al s in
  let ok := al_ok a (al_calls a) in
  Ok (ok, s <| n_al := al_next a (if ok && negb old then 1 else 0) |>).

(** [epoll_ctl] on the scheduler's epoll instance.  [EPOLL_CTL_ADD] fails on a
    negative or registered descriptor; callers ignore the result. *)
Definition epoll_ctl_add (fd ev : Z) : N unit := upd_sys (λ y,
  if (fd <? 0) || bool_decide (is_Some (y_interest y !! fd)) then y
  else y <| y_interest := <[fd := ev]> (y_interest y) |>).
Definition epoll_ctl_del (fd : Z) : N unit :=
  upd_sys (λ y, y <| y_interest := delete fd (y_interest y) |>).

(* src/kv_store/Ntyco/nty_socket.c:610-615 close *)
(** Closing a descriptor takes it off the interest list. *)
Definition close (fd : Z) : N unit := upd_sys (λ y,
  y <| y_interest := delete fd (y_interest y) |> <| y_out := y_out y ++ [(fd, Closed)] |>).

(* src/kv_store/Ntyco/nty_coroutine.h nty_coroutine_diff_usecs *)
Definition nty_coroutine_diff_usecs (t1 t2 : Z) : Z := u64 (t2 - t1).

(* src/kv_store/Ntyco/nty_coroutine.h nty_coroutine_usec_now *)
Definition nty_coroutine_usec_now : N Z := t ← gauge y_clock; mret (u64 t).

(** TAILQ_INSERT_TAIL on the ready queue; the macros are in [BsdQueue]. *)
Definition ready_insert_tail (i : nat) : N unit :=
  sc ← the_sched;
  if bool_decide (i ∈ ready sc) then stop BadLink
  else upd_sched (λ sc, sc <| ready := ready sc ++ [i] |>).

(** *** nty_epoll.c *)

(* src/kv_store/Ntyco/nty_epoll.c nty_epoller_create *)
Definition nty_epoller_create : N Z := '(fd, _) ← sys_number; mret fd.

(* src/kv_store/Ntyco/nty_epoll.c nty_epoller_wait *)
(** Converting the timeout to [int] is undefined when it does not fit.  On
    success the events are in [eventlist]. *)
Definition nty_epoller_wait (t : Z * Z) : N (Z * Z) :=
  if bool_decide (2 ^ 31 ≤ epoll_ms t) then stop OutOfBounds else
  λ s,
    let y := n_sys s in
    match y_batches y with
    | [] => Ok ((0, 0), s)
    | Failed e :: bs => Ok ((-1, e), s <| n_sys := y <| y_batches := bs |> |>)
    | Ready evs :: bs =>
        let evs := filter (λ e, is_Some (y_interest y !! ev_fd e)) evs in
        (_ ← upd_sched (λ sc, sc <| eventlist := evs |>);
         _ ← upd_sys (λ y, y <| y_batches := bs |>);
         mret (Z.of_nat (length evs), 0)) s
    end.

(* src/kv_store/Ntyco/nty_epoll.c nty_epoller_ev_register_trigger *)
Definition nty_epoller_ev_register_trigger : N unit :=
  sc ← the_sched;
  _ ← (if s_eventfd sc =? 0 then
         '(fd, _) ← sys_number;
         _ ← upd_sched (λ sc, sc <| s_eventfd := fd |>);
         Assert (negb (fd =? -1))
       else mret tt);
  sc ← the_sched;
  '(ret, _) ← sys_number;
  _ ← (if ret =? -1 then mret tt else epoll_ctl_add (s_eventfd sc) POLLIN);
  Assert (negb (ret =? -1)).

(** *** nty_schedule.c *)

(* src/kv_store/Ntyco/nty_schedule.c:97-106 nty_schedule_sched_sleepdown *)
(** The loop that looks for a free key.  Its bound is one more than the number
    of sleepers: each step finds the key of another one. *)
Fixpoint sleep_insert (fuel : nat) (i : nat) : N unit :=
  match fuel with
  | O => stop OutOfFuel
  | S fuel' =>
      c ← get_co i;
      sc ← the_sched;
      '(co_tmp, t) ← lift (rb_insert (sleep_usecs c) i (sleeping sc));
      match co_tmp with
      | Some _ =>
          _ ← upd_co i (λ c, c <| sleep_usecs := u64 (sleep_usecs c + 1) |>);
          sleep_insert fuel' i
      | None =>
          _ ← upd_sched (λ sc, sc <| sleeping := t |>);
          upd_co i (λ c, c <| co_status := Z.lor (co_status c) (BIT NTY_COROUTINE_STATUS_SLEEPING) |>)
      end
  end.

(* src/kv_store/Ntyco/nty_schedule.c nty_schedule_sched_sleepdown *)
Definition nty_schedule_sched_sleepdown (i : nat) (msecs : Z) : N unit :=
  let usecs := u64 (msecs * 1000) in
  c ← get_co i;
  sc ← the_sched;
  _ ← match rb_find (sleep_usecs c) (sleeping sc) with
      | Some co_tmp =>
          t ← lift (rb_remove co_tmp (sleeping sc));
          upd_sched (λ sc, sc <| sleeping := t |>)
      | None => mret tt
      end;
  now ← nty_coroutine_usec_now;
  _ ← upd_co i (λ c, c <| sleep_usecs := u64 (nty_coroutine_diff_usecs (s_birth sc) now + usecs) |>);
  if msecs =? 0 then mret tt else
  sc ← the_sched;
  sleep_insert (S (length (sleeping sc))) i.

(* src/kv_store/Ntyco/nty_schedule.c nty_schedule_desched_sleepdown *)
Definition nty_schedule_desched_sleepdown (i : nat) : N unit :=
  c ← get_co i;
  if has (co_status c) NTY_COROUTINE_STATUS_SLEEPING then
    sc ← the_sched;
    t ← lift (rb_remove i (sleeping sc));
    _ ← upd_sched (λ sc, sc <| sleeping := t |>);
    upd_co i (λ c, c <| co_status :=
      Z.land (Z.lor (Z.land (co_status c) (CLEARBIT NTY_COROUTINE_STATUS_SLEEPING))
                    (BIT NTY_COROUTINE_STATUS_READY))
             (CLEARBIT NTY_COROUTINE_STATUS_EXPIRED) |>)
  else mret tt.

(* src/kv_store/Ntyco/nty_schedule.c nty_schedule_search_wait *)
(** The result of RB_FIND is used before it is tested. *)
Definition nty_schedule_search_wait (fd : Z) : N nat :=
  sc ← the_sched;
  match rb_find fd (waiting sc) with
  | None => stop NullDeref
  | Some i => _ ← upd_co i (λ c, c <| co_status := 0 |>); mret i
  end.

(* src/kv_store/Ntyco/nty_schedule.c nty_schedule_desched_wait *)
Definition nty_schedule_desched_wait (fd : Z) : N nat :=
  sc ← the_sched;
  match rb_find fd (waiting sc) with
  | None => stop NullDeref
  | Some i =>
      t ← lift (rb_remove i (waiting sc));
      _ ← upd_sched (λ sc, sc <| waiting := t |>);
      _ ← upd_co i (λ c, c <| co_status := 0 |>);
      _ ← nty_schedule_desched_sleepdown i;
      mret i
  end.

(* src/kv_store/Ntyco/nty_schedule.c nty_schedule_sched_wait *)
Definition nty_schedule_sched_wait (i : nat) (fd events timeout : Z) : N unit :=
  c ← get_co i;
  _ ← Assert (negb (has (co_status c) NTY_COROUTINE_STATUS_WAIT_READ ||
                    has (co_status c) NTY_COROUTINE_STATUS_WAIT_WRITE));
  _ ← (if negb (Z.land events POLLIN =? 0) then
         upd_co i (λ c, c <| co_status := Z.lor (co_status c) (enum NTY_COROUTINE_STATUS_WAIT_READ) |>)
       else if negb (Z.land events POLLOUT =? 0) then
         upd_co i (λ c, c <| co_status := Z.lor (co_status c) (enum NTY_COROUTINE_STATUS_WAIT_WRITE) |>)
       else stop AssertFail);
  _ ← upd_co i (λ c, c <| co_fd := fd |> <| co_events := u16 events |>);
  sc ← the_sched;
  '(co_tmp, t) ← lift (rb_insert fd i (waiting sc));
  _ ← Assert (null co_tmp);
  _ ← upd_sched (λ sc, sc <| waiting := t |>);
  if timeout =? 1 then mret tt else nty_schedule_sched_sleepdown i timeout.

(* src/kv_store/Ntyco/nty_schedule.c nty_schedule_cancel_wait *)
Definition nty_schedule_cancel_wait (i : nat) : N unit :=
  sc ← the_sched;
  t ← lift (rb_remove i (waiting sc));
  upd_sched (λ sc, sc <| waiting := t |>).

(* src/kv_store/Ntyco/nty_schedule.c nty_schedule_free *)
Definition nty_schedule_free : N unit :=
  sc ← the_sched;
  _ ← (if 0 <? poller_fd sc then close (poller_fd sc) else mret tt);
  _ ← (if 0 <? s_eventfd sc then close (s_eventfd sc) else mret tt);
  _ ← (if s_stack sc then nfree else mret tt);
  _ ← nfree;
  modify (λ s, s <| n_sched := None |>).

(* src/kv_store/Ntyco/nty_schedule.c nty_schedule_create *)
(** The value it should return at its end is not used by its caller. *)
Definition nty_schedule_create (stack_size : Z) : N unit :=
  let sched_stack_size := if stack_size =? 0 then NTY_CO_MAX_STACKSIZE else stack_size in
  got ← nmalloc;
  if negb got then mret tt else
  let sc := Schedule 0 false 0 0 0 None 0 0 [] 0 [] [] [] [] in
  _ ← modify (λ s, s <| n_sched := Some sc |>);
  fd ← nty_epoller_create;
  _ ← upd_sched (λ sc, sc <| poller_fd := fd |>);
  if fd =? -1 then nty_schedule_free else
  _ ← nty_epoller_ev_register_trigger;
  got ← nmalloc;
  _ ← Assert got;
  now ← nty_coroutine_usec_now;
  upd_sched (λ sc, Schedule now true sched_stack_size 0 3000000 (curr_thread sc)
    (poller_fd sc) (s_eventfd sc) (eventlist sc) (num_new_events sc) [] [] [] []).

(* src/kv_store/Ntyco/nty_schedule.c nty_schedule_expired *)
Definition nty_schedule_expired : N (option nat) :=
  sc ← the_sched;
  now ← nty_coroutine_usec_now;
  let t_diff_usecs := nty_coroutine_diff_usecs (s_birth sc) now in
  match rb_min (sleeping sc) with
  | None => mret None
  | Some i =>
      c ← get_co i;
      if sleep_usecs c <=? t_diff_usecs then
        t ← lift (rb_remove i (sleeping sc));
        _ ← upd_sched (λ sc, sc <| sleeping := t |>);
        mret (Some i)
      else mret None
  end.

(* src/kv_store/Ntyco/nty_schedule.c nty_schedule_isdone *)
Definition nty_schedule_isdone (sc : nty_schedule) : bool :=
  match waiting sc, busy sc, sleeping sc, ready sc with
  | [], [], [], [] => true
  | _, _, _, _ => false
  end.

(* src/kv_store/Ntyco/nty_schedule.c nty_schedule_min_timeout *)
Definition nty_schedule_min_timeout : N Z :=
  sc ← the_sched;
  now ← nty_coroutine_usec_now;
  let t_diff_usecs := nty_coroutine_diff_usecs (s_birth sc) now in
  match rb_min (sleeping sc) with
  | None => mret (default_timeout sc)
  | Some i =>
      c ← get_co i;
      let min := sleep_usecs c in
      if t_diff_usecs <? min then mret (u64 (min - t_diff_usecs)) else mret 0
  end.

(* src/kv_store/Ntyco/nty_schedule.c:290-294 nty_schedule_epoll *)
(** The time to wait, as seconds and nanoseconds. *)
Definition epoll_time (usecs : Z) : Z * Z :=
  let tv_sec := usecs `div` 1000000 in
  (tv_sec, if negb (tv_sec =? 0) then usecs `mod` 1000 * 1000 else usecs * 1000).

(* src/kv_store/Ntyco/nty_schedule.c:301-308 nty_schedule_epoll *)
(** Waiting again when a signal interrupts the call; every call uses up an
    input. *)
Fixpoint epoll_loop (fuel : nat) (t : Z * Z) : N Z :=
  match fuel with
  | O => stop OutOfFuel
  | S fuel' =>
      '(nready, errno) ← nty_epoller_wait t;
      if nready =? -1 then
        if errno =? EINTR then epoll_loop fuel' t else stop AssertFail
      else mret nready
  end.

(* src/kv_store/Ntyco/nty_schedule.c nty_schedule_epoll *)
Definition nty_schedule_epoll : N Z :=
  _ ← upd_sched (λ sc, sc <| num_new_events := 0%nat |>);
  usecs ← nty_schedule_min_timeout;
  sc ← the_sched;
  if negb (usecs =? 0) && bool_decide (ready sc = []) then
    y ← gets n_sys;
    nready ← epoll_loop (S (length (y_batches y))) (epoll_time usecs);
    _ ← upd_sched (λ sc, sc <| num_new_events := Z.to_nat nready |>);
    mret 0
  else mret 0.

(** *** nty_coroutine.c *)

(* src/kv_store/Ntyco/nty_coroutine.c:54-65 _save_stack *)
Definition _save_stack (i : nat) : N unit :=
  used ← gauge y_depth;
  _ ← Assert (used <=? NTY_CO_MAX_STACKSIZE);
  c ← get_co i;
  _ ← (if co_stack_size c <? used then
         got ← nrealloc (co_stack c);
         _ ← Assert got;
         upd_co i (λ c, c <| co_stack := true |>)
       else mret tt);
  upd_co i (λ c, c <| co_stack_size := used |>).

(* src/kv_store/Ntyco/nty_coroutine.c:67-70 _load_stack *)
(** The shared stack holds the frames of [i] again. *)
Definition _load_stack (i : nat) : N unit := modify (λ s, s <| n_stack := Some i |>).

(* src/kv_store/Ntyco/nty_coroutine.c nty_coroutine_detach *)
Definition nty_coroutine_detach : N unit :=
  sc ← the_sched;
  match curr_thread sc with
  | None => stop NullDeref
  | Some i => upd_co i (λ c, c <| co_status := Z.lor (co_status c) (BIT NTY_COROUTINE_STATUS_DETACH) |>)
  end.

(* src/kv_store/Ntyco/nty_coroutine.c nty_coroutine_create *)
(** The code and the address of the new coroutine. *)
Definition nty_coroutine_create (f : F) : N (Z * option nat) :=
  sched ← nty_coroutine_get_sched;
  _ ← (if null sched then nty_schedule_create 0 else mret tt);
  sched ← nty_coroutine_get_sched;
  if null sched then mret (-1, None) else
  got ← nmalloc;
  if negb got then mret (-2, None) else
  sc ← the_sched;
  _ ← upd_sched (λ sc, sc <| spawned_coroutines := i32 (spawned_coroutines sc + 1) |>);
  now ← nty_coroutine_usec_now;
  i ← gets n_next;
  _ ← modify (λ s, s <| n_next := S i |>);
  let c := Coroutine f false 0 (BIT NTY_COROUTINE_STATUS_NEW) now (spawned_coroutines sc) (-1) 0 0 0 in
  _ ← modify (λ s, s <| n_cos := <[i := c]> (n_cos s) |>);
  _ ← ready_insert_tail i;
  mret (0, Some i).
End operations.

(** ** Coroutines that yield, and the scheduler *)

Section scheduler.
Context {F W : Type}.
Notation N := (prog (nty F W)).
Notation C := (co (nty F W)).

(* src/kv_store/Ntyco/nty_coroutine.c nty_coroutine_yield *)
Definition nty_coroutine_yield (i : nat) : C unit :=
  _ ← act (upd_co i (λ c, c <| co_ops := 0 |>));
  c ← act (get_co i);
  _ ← (if negb (has (co_status c) NTY_COROUTINE_STATUS_EXITED) then act (_save_stack i) else mret tt);
  switch.

(* src/kv_store/Ntyco/nty_coroutine.c nty_coroutine_renice *)
Definition nty_coroutine_renice (i : nat) : C unit :=
  _ ← act (upd_co i (λ c, c <| co_ops := u32 (co_ops c + 1) |>));
  c ← act (get_co i);
  if co_ops c <? 5 then mret tt else
  _ ← act (ready_insert_tail i);
  nty_coroutine_yield i.

(* src/kv_store/Ntyco/nty_coroutine.c nty_coroutine_sleep *)
Definition nty_coroutine_sleep (msecs : Z) : C unit :=
  sc ← act the_sched;
  match curr_thread sc with
  | None => act (stop NullDeref)
  | Some i =>
      if msecs =? 0 then
        _ ← act (ready_insert_tail i);
        nty_coroutine_yield i
      else act (nty_schedule_sched_sleepdown i msecs)
  end.

(** The functions coroutines are started with. *)
Variable body : F → C unit.

(* src/kv_store/Ntyco/nty_coroutine.c:72-77 _exec *)
Definition _exec (i : nat) : C unit :=
  c ← act (get_co i);
  _ ← body (co_main c);
  _ ← act (upd_co i (λ c, c <| co_status :=
         Z.lor (co_status c) (Z.lor (Z.lor (BIT NTY_COROUTINE_STATUS_EXITED)
           (BIT NTY_COROUTINE_STATUS_FDEOF)) (BIT NTY_COROUTINE_STATUS_DETACH)) |>));
  nty_coroutine_yield i.

(** The scheduler's view: the process and the saved contexts. *)
Record rt := Rt { r_n : nty F W; r_ctx : gmap nat (C unit) }.
Notation R := (prog rt).

Definition on_n {A} (m : N A) : R A := λ r,
  match m (r_n r) with Ok (a, s) => Ok (a, Rt s (r_ctx r)) | Err e => Err e end.

Definition upd_ctx (f : gmap nat (C unit) → gmap nat (C unit)) : R unit := λ r,
  Ok (tt, Rt (r_n r) (f (r_ctx r))).

(* src/kv_store/Ntyco/nty_coroutine.c nty_coroutine_free *)
Definition nty_coroutine_free (i : nat) : R unit :=
  c ← on_n (get_co i);
  _ ← on_n (upd_sched (λ sc, sc <| spawned_coroutines := i32 (spawned_coroutines sc - 1) |>));
  _ ← on_n (if co_stack c then nfree else mret tt);
  _ ← on_n nfree;
  _ ← on_n (modify (λ s, s <| n_cos := delete i (n_cos s) |>));
  upd_ctx (delete i).

(* src/kv_store/Ntyco/nty_coroutine.c nty_coroutine_init *)
(** The new context starts at the top of the shared stack. *)
Definition nty_coroutine_init (i : nat) : R unit :=
  _ ← upd_ctx <[i := _exec i]>;
  _ ← on_n (modify (λ s, s <| n_under := n_stack s |> <| n_stack := Some i |>));
  on_n (upd_co i (λ c, c <| co_status := BIT NTY_COROUTINE_STATUS_READY |>)).

(** [swapcontext(&sched->ctx, &co->ctx)]: run the coroutine to its next
    switch. *)
Definition swapcontext (i : nat) : R unit := λ r,
  match r_ctx r !! i with
  | None => Err UninitRead
  | Some k =>
      match go k (r_n r) with
      | Err e => Err e
      | Ok (inl _, s) => Ok (tt, Rt s (delete i (r_ctx r)))
      | Ok (inr k', s) => Ok (tt, Rt s (<[i := k']> (r_ctx r)))
      end
  end.

(* src/kv_store/Ntyco/nty_coroutine.c nty_coroutine_resume *)
Definition nty_coroutine_resume (i : nat) : R Z :=
  c ← on_n (get_co i);
  _ ← (if has (co_status c) NTY_COROUTINE_STATUS_NEW then nty_coroutine_init i
       else on_n (_load_stack i));
  _ ← on_n (upd_sched (λ sc, sc <| curr_thread := Some i |>));
  _ ← swapcontext i;
  _ ← on_n (upd_sched (λ sc, sc <| curr_thread := None |>));
  c ← on_n (get_co i);
  if has (co_status c) NTY_COROUTINE_STATUS_EXITED then
    _ ← (if has (co_status c) NTY_COROUTINE_STATUS_DETACH then nty_coroutine_free i else mret tt);
    mret (-1)
  else mret 0.

(* src/kv_store/Ntyco/nty_schedule.c:324-327 nty_schedule_run *)
Fixpoint expired_loop (fuel : nat) : R unit :=
  match fuel with
  | O => stop OutOfFuel
  | S fuel' =>
      expired ← on_n nty_schedule_expired;
      match expired with
      | None => mret tt
      | Some i => _ ← nty_coroutine_resume i; expired_loop fuel'
      end
  end.

(* src/kv_store/Ntyco/nty_schedule.c:330-341 nty_schedule_run *)
(** The bound is one more than the length of the queue when it is entered. *)
Fixpoint ready_loop (fuel : nat) (last_co_ready : option nat) : R unit :=
  match fuel with
  | O => stop OutOfFuel
  | S fuel' =>
      sc ← on_n the_sched;
      match ready sc with
      | [] => mret tt
      | i :: rest =>
          _ ← on_n (upd_sched (λ sc, sc <| ready := rest |>));
          c ← on_n (get_co i);
          if has (co_status c) NTY_COROUTINE_STATUS_FDEOF then nty_coroutine_free i else
          _ ← nty_coroutine_resume i;
          if bool_decide (last_co_ready = Some i) then mret tt
          else ready_loop fuel' last_co_ready
      end
  end.

(* src/kv_store/Ntyco/nty_schedule.c:345-362 nty_schedule_run *)
(** The events are taken from the end of [eventlist].  The bound is one more
    than their number. *)
Fixpoint event_loop (fuel : nat) : R unit :=
  match fuel with
  | O => stop OutOfFuel
  | S fuel' =>
      sc ← on_n the_sched;
      match num_new_events sc with
      | O => mret tt
      | S idx =>
          _ ← on_n (upd_sched (λ sc, sc <| num_new_events := idx |>));
          match eventlist sc !! idx with
          | None => stop OutOfBounds
          | Some ev =>
              i ← on_n (nty_schedule_search_wait (ev_fd ev));
              _ ← on_n (if negb (Z.land (ev_events ev) POLLHUP =? 0) then
                     upd_co i (λ c, c <| co_status :=
                       Z.lor (co_status c) (BIT NTY_COROUTINE_STATUS_FDEOF) |>)
                   else mret tt);
              _ ← on_n (upd_sys (λ y, y <| y_answers := ev_answers ev |>));
              _ ← nty_coroutine_resume i;
              event_loop fuel'
          end
      end
  end.

(* src/kv_store/Ntyco/nty_schedule.c:322-363 nty_schedule_run *)
(** The body of the loop. *)
Definition schedule_round (fuel : nat) : R unit :=
  _ ← expired_loop fuel;
  sc ← on_n the_sched;
  _ ← ready_loop (S (length (ready sc))) (last (ready sc));
  _ ← on_n nty_schedule_epoll;
  sc ← on_n the_sched;
  event_loop (S (num_new_events sc)).

(** At most [n] rounds; whether the scheduler found itself done. *)
Fixpoint schedule_rounds (fuel n : nat) : R bool :=
  sc ← on_n the_sched;
  if nty_schedule_isdone sc then mret true else
  match n with
  | O => mret false
  | S n' => _ ← schedule_round fuel; schedule_rounds fuel n'
  end.

(* src/kv_store/Ntyco/nty_schedule.c nty_schedule_run *)
Definition nty_schedule_run (fuel n : nat) : R unit :=
  sched ← on_n nty_coroutine_get_sched;
  if null sched then mret tt else
  done ← schedule_rounds fuel n;
  if done : bool then on_n nty_schedule_free else stop OutOfFuel.
End scheduler.
Arguments rt : clear implicits.
Arguments Rt {F W} _ _.
Arguments r_n {F W} _.
Arguments r_ctx {F W} _.
