(* ===== verification/NtycoSocket.v ===== *)
(** * The hooked sockets of the coroutine library (src/kv_store/Ntyco/nty_socket.c)

    [socket], [recv], [send], [accept] and the others take the place of the C
    library's: before a call that could block they register the descriptor with
    the scheduler's epoll instance and yield.  The functions found with
    [dlsym], the real system calls, end in [_f].  Where the source repeats one
    body for two calls, the model has it once, over the call. *)

From S2P Require Import Prelude CRuntime Coro Server Ntyco.

(* src/kv_store/Ntyco/nty_socket.c nty_pollevent_2epoll *)
(** Linux gives the EPOLL constants the values of the POLL constants. *)
Definition nty_pollevent_2epoll (events : Z) : Z :=
  let put e b := if negb (Z.land events b =? 0) then Z.lor e b else e in
  put (put (put (put (put (put 0 POLLIN) POLLOUT) POLLHUP) POLLERR) POLLRDNORM) POLLWRNORM.

(* src/kv_store/Ntyco/nty_socket.c nty_epollevent_2poll *)
Definition nty_epollevent_2poll (events : Z) : Z :=
  let put e b := if negb (Z.land events b =? 0) then Z.lor e b else e in
  put (put (put (put (put (put 0 POLLIN) POLLOUT) POLLHUP) POLLERR) POLLRDNORM) POLLWRNORM.

(** ** What the kernel's answers mean *)

(** The next of the kernel's answers. *)
Definition next_answer (l : list answer) : answer * list answer :=
  match l with [] => (AErr EAGAIN, []) | a :: l => (a, l) end.

(** To a call that reads at most [len] bytes: what arrived, and [errno]. *)
Definition recv_answer (len : nat) (a : answer) : recv_res * Z :=
  match a with
  | AData bs => match take len bs with [] => (REof, 0) | bs => (RBytes bs, 0) end
  | AVal _ => (REof, 0)
  | AErr e => (RErr, e)
  end.

(** To a call that writes [buf]: how many bytes were taken, or -1 and
    [errno]. *)
Definition send_answer (buf : list Z) (a : answer) : Z * Z :=
  match a with
  | AVal v => (Z.min (Z.max 0 v) (Z.of_nat (length buf)), 0)
  | AData bs => (Z.of_nat (length buf `min` length bs), 0)
  | AErr e => (-1, e)
  end.

(** The bytes a connection carries away. *)
Definition chunk (bs : list Z) : list output :=
  match bs with [] => [] | _ => [Sent bs] end.
Definition sent_out (fd : Z) (bs : list Z) : list (Z * output) := pair fd <$> chunk bs.

Section sockets.
Context {F W : Type}.
Notation N := (prog (nty F W)).
Notation C := (co (nty F W)).

(** ** System calls *)

(** [recv], [read], [recvfrom] on a non-blocking descriptor: what arrived, and
    [errno]. *)
Definition recv_f (len : nat) : N (recv_res * Z) :=
  a ← sys_answer; mret (recv_answer len a).

(** [send], [write], [sendto]: how many bytes the kernel took, or -1, and
    [errno]. *)
Definition send_f (fd : Z) (buf : list Z) : N (Z * Z) :=
  a ← sys_answer;
  let '(n, e) := send_answer buf a in
  _ ← upd_sys (λ y, y <| y_out := y_out y ++ sent_out fd (take (Z.to_nat n) buf) |>);
  mret (n, e).

(** [sched->curr_thread], through which [co] is reached. *)
Definition current : N nat :=
  sc ← the_sched;
  match curr_thread sc with Some i => mret i | None => stop NullDeref end.

(** ** Waiting for a descriptor *)

(* src/kv_store/Ntyco/nty_socket.c:96-105 nty_poll_inner *)
Fixpoint poll_register (i : nat) (fds : list (Z * Z)) (timeout : Z) : N unit :=
  match fds with
  | [] => mret tt
  | (fd, events) :: fds' =>
      _ ← epoll_ctl_add fd (nty_pollevent_2epoll events);
      _ ← upd_co i (λ c, c <| co_events := u16 events |>);
      _ ← nty_schedule_sched_wait i fd events timeout;
      poll_register i fds' timeout
  end.

(* src/kv_store/Ntyco/nty_socket.c:108-116 nty_poll_inner *)
Fixpoint poll_unregister (fds : list (Z * Z)) : N unit :=
  match fds with
  | [] => mret tt
  | (fd, _) :: fds' =>
      _ ← epoll_ctl_del fd;
      _ ← nty_schedule_desched_wait fd;
      poll_unregister fds'
  end.

(* src/kv_store/Ntyco/nty_socket.c nty_poll_inner *)
Definition nty_poll_inner (fds : list (Z * Z)) (timeout : Z) : C Z :=
  if timeout =? 0 then '(n, _) ← act sys_number; mret n else
  let timeout := if timeout <? 0 then 2 ^ 31 - 1 else timeout in
  sched ← act nty_coroutine_get_sched;
  if null sched then mret (-1) else
  i ← act current;
  _ ← act (poll_register i fds timeout);
  _ ← nty_coroutine_yield i;
  _ ← act (poll_unregister fds);
  mret (Z.of_nat (length fds)).

(** [fds.events = POLLIN | POLLERR | POLLHUP] *)
Definition IN_EVENTS : Z := Z.lor (Z.lor POLLIN POLLERR) POLLHUP.
Definition OUT_EVENTS : Z := Z.lor (Z.lor POLLOUT POLLERR) POLLHUP.

Definition wait_in (fd : Z) : C Z := nty_poll_inner [(fd, IN_EVENTS)] 1.
Definition wait_out (fd : Z) : C Z := nty_poll_inner [(fd, OUT_EVENTS)] 1.

(** ** The hooks *)

(* src/kv_store/Ntyco/nty_socket.c:360-383 socket *)
(** When [fcntl] fails, [close] is called on its result. *)
Definition socket : N Z :=
  sched ← nty_coroutine_get_sched;
  '(fd, _) ← sys_number;
  if null sched then mret fd else
  if fd =? -1 then mret (-1) else
  '(ret, _) ← sys_number;
  if ret =? -1 then _ ← close ret; mret (-1) else
  mret fd.

(** The body of [recv] and [read]: every error is -1. *)
Definition stream_in (fd : Z) (len : nat) : C recv_res :=
  sched ← act nty_coroutine_get_sched;
  if null sched then '(r, _) ← act (recv_f len); mret r else
  _ ← wait_in fd;
  '(r, errno) ← act (recv_f len);
  mret r.

(* src/kv_store/Ntyco/nty_socket.c:385-408 read *)
Definition read (fd : Z) (count : nat) : C recv_res := stream_in fd count.
(* src/kv_store/Ntyco/nty_socket.c:410-433 recv *)
Definition recv (fd : Z) (len : nat) : C recv_res := stream_in fd len.

(* src/kv_store/Ntyco/nty_socket.c:436-462 recvfrom *)
Definition recvfrom (fd : Z) (len : nat) : C recv_res :=
  sched ← act nty_coroutine_get_sched;
  if null sched then '(r, _) ← act (recv_f len); mret r else
  _ ← wait_in fd;
  '(r, errno) ← act (recv_f len);
  match r with
  | RErr =>
      if errno =? EAGAIN then mret RErr
      else if errno =? ECONNRESET then mret REof
      else act (stop AssertFail)
  | _ => mret r
  end.

(* src/kv_store/Ntyco/nty_socket.c:515-527 send *)
(** The loop of [send], [write] and [nty_send] over the call they make: the
    last result and the bytes sent.  Each step waits once, so the bound is on how
    often the coroutine is resumed. *)
Fixpoint send_loop (call : list Z → C Z) (fuel : nat) (fd : Z) (buf : list Z) (sent : nat) (ret : Z)
    : C (Z * nat) :=
  if bool_decide (length buf ≤ sent)%nat then mret (ret, sent) else
  match fuel with
  | O => act (stop OutOfFuel)
  | S fuel' =>
      _ ← wait_out fd;
      ret ← call (drop sent buf);
      if ret <=? 0 then mret (ret, sent)
      else send_loop call fuel' fd buf (sent + Z.to_nat ret) ret
  end.

(* src/kv_store/Ntyco/nty_socket.c:509-531 send *)
Definition stream_out (call : list Z → C Z) (fuel : nat) (fd : Z) (buf : list Z) : C Z :=
  ret ← call buf;
  if ret =? 0 then mret ret else
  let sent := if 0 <? ret then Z.to_nat ret else 0%nat in
  '(ret, sent) ← send_loop call fuel fd buf sent ret;
  if (ret <=? 0) && bool_decide (sent = 0%nat) then mret ret else
  mret (Z.of_nat sent).

(** The system call without [errno]. *)
Definition send_call (fd : Z) (buf : list Z) : C Z := '(ret, _) ← act (send_f fd buf); mret ret.

(* src/kv_store/Ntyco/nty_socket.c:465-497 write *)
Definition write (fuel : nat) (fd : Z) (buf : list Z) : C Z :=
  sched ← act nty_coroutine_get_sched;
  if null sched then send_call fd buf else stream_out (send_call fd) fuel fd buf.
(* src/kv_store/Ntyco/nty_socket.c:500-532 send *)
Definition send (fuel : nat) (fd : Z) (buf : list Z) : C Z :=
  sched ← act nty_coroutine_get_sched;
  if null sched then send_call fd buf else stream_out (send_call fd) fuel fd buf.

(* src/kv_store/Ntyco/nty_socket.c:534-560 sendto *)
(** With [errno], which [nty_sendto] reads. *)
Definition sendto (fd : Z) (buf : list Z) : C (Z * Z) :=
  sched ← act nty_coroutine_get_sched;
  if null sched then act (send_f fd buf) else
  _ ← wait_out fd;
  '(ret, errno) ← act (send_f fd buf);
  if ret <? 0 then
    if errno =? EAGAIN then mret (ret, errno)
    else if errno =? ECONNRESET then mret (0, errno)
    else act (stop AssertFail)
  else mret (ret, errno).

(* src/kv_store/Ntyco/nty_socket.c:577-597 accept *)
(** Waiting for a connection: its descriptor, or -1. *)
Fixpoint accept_loop (fuel : nat) (fd : Z) : C Z :=
  match fuel with
  | O => act (stop OutOfFuel)
  | S fuel' =>
      _ ← wait_in fd;
      '(sockfd, errno) ← act sys_number;
      if sockfd <? 0 then
        if errno =? EAGAIN then accept_loop fuel' fd else mret (-1)
      else mret sockfd
  end.

(* src/kv_store/Ntyco/nty_socket.c:564-608 accept *)
Definition accept (fuel : nat) (fd : Z) : C Z :=
  sched ← act nty_coroutine_get_sched;
  if null sched then '(sockfd, _) ← act sys_number; mret sockfd else
  sockfd ← accept_loop fuel fd;
  if sockfd <? 0 then mret (-1) else
  '(ret, _) ← act sys_number;
  if ret =? -1 then _ ← act (close sockfd); mret (-1) else
  mret sockfd.

(* src/kv_store/Ntyco/nty_socket.c:630-647 connect *)
Fixpoint connect_loop (fuel : nat) (fd : Z) : C Z :=
  match fuel with
  | O => act (stop OutOfFuel)
  | S fuel' =>
      _ ← wait_out fd;
      '(ret, errno) ← act sys_number;
      if ret =? 0 then mret ret
      else if (ret =? -1) && ((errno =? EAGAIN) || (errno =? EINPROGRESS)) then connect_loop fuel' fd
      else mret ret
  end.

(* src/kv_store/Ntyco/nty_socket.c:619-650 connect *)
Definition connect (fuel : nat) (fd : Z) : C Z :=
  sched ← act nty_coroutine_get_sched;
  if null sched then '(ret, _) ← act sys_number; mret ret else
  connect_loop fuel fd.

(** ** The functions with names of their own

    They call the hooks, which wait a second time. *)

(* src/kv_store/Ntyco/nty_socket.c nty_socket *)
Definition nty_socket : N Z :=
  fd ← socket;
  if fd =? -1 then mret (-1) else
  '(ret, _) ← sys_number;
  if ret =? -1 then _ ← close ret; mret (-1) else
  mret fd.

(* src/kv_store/Ntyco/nty_socket.c nty_recv *)
Definition nty_recv (fd : Z) (len : nat) : C recv_res := _ ← wait_in fd; recv fd len.

(* src/kv_store/Ntyco/nty_socket.c:230-256 nty_send *)
Definition nty_send (fuel : nat) (fd : Z) (buf : list Z) : C Z :=
  stream_out (send fuel fd) fuel fd buf.

(* src/kv_store/Ntyco/nty_socket.c nty_sendto *)
Fixpoint nty_sendto (fuel : nat) (fd : Z) (buf : list Z) (sent : nat) : C Z :=
  if bool_decide (length buf ≤ sent)%nat then mret (Z.of_nat sent) else
  match fuel with
  | O => act (stop OutOfFuel)
  | S fuel' =>
      _ ← wait_out fd;
      '(ret, errno) ← sendto fd (drop sent buf);
      if ret <=? 0 then
        if errno =? EAGAIN then nty_sendto fuel' fd buf sent
        else if errno =? ECONNRESET then mret ret
        else act (stop AssertFail)
      else nty_sendto fuel' fd buf (sent + Z.to_nat ret)
  end.

(* src/kv_store/Ntyco/nty_socket.c nty_accept *)
(** [accept] waits again after EAGAIN itself, so its -1 is another error. *)
Definition nty_accept (fuel : nat) (fd : Z) : C Z :=
  _ ← act current;
  _ ← wait_in fd;
  sockfd ← accept fuel fd;
  if sockfd <? 0 then mret (-1) else
  '(ret, _) ← act sys_number;
  if ret =? -1 then _ ← act (close sockfd); mret (-1) else
  mret sockfd.

(* src/kv_store/Ntyco/nty_socket.c nty_connect *)
(** [connect] tries again itself after the errors that mean to. *)
Definition nty_connect (fuel : nat) (fd : Z) : C Z := _ ← wait_out fd; connect fuel fd.

(* src/kv_store/Ntyco/nty_socket.c nty_recvfrom *)
(** The only -1 of [recvfrom] is that of EAGAIN, which is returned. *)
Definition nty_recvfrom (fd : Z) (len : nat) : C recv_res := _ ← wait_in fd; recvfrom fd len.

(* src/kv_store/Ntyco/nty_socket.c nty_close *)
Definition nty_close (fd : Z) : N unit := close fd.
End sockets.
