(* ===== verification/NtycoFacts.v ===== *)
(** * Facts about the coroutine library

    Trees of coroutines as finite maps, the state of the library between and
    during the runs of its coroutines, and what registering, yielding, waking,
    creating and freeing do to it. *)

From Stdlib Require Import Sorted.
From S2P Require Import Prelude CRuntime Coro Server Ntyco NtycoSocket.

(** ** Trees as maps from keys to coroutines *)

Definition tree_rep (t : tree) (m : gmap Z nat) : Prop :=
  StronglySorted Z.lt t.*1 ∧ ∀ k i, (k, i) ∈ t ↔ m !! k = Some i.

Section trees.
Implicit Types (t : tree) (m : gmap Z nat) (k : Z) (i j : nat).

Lemma tree_rep_nil : tree_rep [] ∅.
Proof. split; [constructor|]. intros k i. rewrite lookup_empty. set_solver. Qed.

Lemma rb_find_elem t k i : StronglySorted Z.lt t.*1 → (k, i) ∈ t → rb_find k t = Some i.
Proof.
  induction t as [|[k' j] t IH]; cbn; intros Hs Hi; [set_solver|].
  apply StronglySorted_inv in Hs as [Hs Hf]. apply elem_of_cons in Hi as [[= -> ->]|Hi].
  - by rewrite Z.eqb_refl.
  - destruct (k =? k') eqn:Ek; [|by apply IH]. b2p. subst k'.
    rewrite Forall_forall in Hf. specialize (Hf k). exfalso. apply (Z.lt_irrefl k), Hf.
    apply list_elem_of_fmap. by exists (k, i).
Qed.

Lemma rb_find_some t k i : rb_find k t = Some i → (k, i) ∈ t.
Proof.
  induction t as [|[k' j] t IH]; cbn; [done|]. destruct (k =? k') eqn:Ek; b2p.
  - intros [= ->]. subst. set_solver.
  - intros H. right. by apply IH.
Qed.

Lemma rb_find_rep t m k : tree_rep t m → rb_find k t = m !! k.
Proof.
  intros [Hs Hm]. destruct (m !! k) as [i|] eqn:E.
  - apply rb_find_elem; [done|]. by apply Hm.
  - destruct (rb_find k t) as [i|] eqn:Ef; [|done]. apply rb_find_some, Hm in Ef. congruence.
Qed.

Lemma rb_add_fresh t k i : StronglySorted Z.lt t.*1 → (∀ j, (k, j) ∉ t) →
  ∃ t', rb_add k i t = (None, t') ∧ StronglySorted Z.lt t'.*1 ∧
    ∀ k' j, (k', j) ∈ t' ↔ (k', j) = (k, i) ∨ (k', j) ∈ t.
Proof.
  induction t as [|[k' j] t IH]; cbn; intros Hs Hn.
  - eexists. split; [done|]. split; [repeat constructor|]. set_solver.
  - apply StronglySorted_inv in Hs as [Hs Hf]. destruct (k <? k') eqn:E1; b2p.
    + eexists. split; [done|]. split; [|set_solver]. cbn. constructor; [by constructor|].
      constructor; [done|]. eapply Forall_impl; [exact Hf|]. cbn. lia.
    + destruct (k =? k') eqn:E2; b2p; [subst; exfalso; apply (Hn j); set_solver|].
      destruct IH as (t' & -> & Hs' & Ht'); [done|set_solver|].
      eexists. split; [done|]. split; [|set_solver]. cbn. constructor; [done|].
      rewrite Forall_forall in Hf |- *. intros x Hx. apply list_elem_of_fmap in Hx as ([k2 i2] & -> & Hx).
      apply Ht' in Hx as [[= -> ->]|Hx]; cbn; [lia|]. apply Hf, list_elem_of_fmap. by exists (k2, i2).
Qed.

Lemma linked_rep t m i : tree_rep t m → (∀ k, m !! k ≠ Some i) → linked i t = false.
Proof.
  intros [_ Hm] Hi. apply bool_decide_eq_false_2. intros ([k j] & E & Hx)%list_elem_of_fmap.
  cbn in E. subst j. by apply (Hi k), Hm.
Qed.

Lemma rb_insert_rep t m k i :
  tree_rep t m → m !! k = None → (∀ k', m !! k' ≠ Some i) →
  ∃ t', rb_insert k i t = Ok (None, t') ∧ tree_rep t' (<[k := i]> m).
Proof.
  intros Ht Hk Hi. pose proof Ht as [Hs Hm]. destruct (rb_add_fresh t k i Hs) as (t' & Ea & Hs' & Ht').
  { intros j Hj. apply Hm in Hj. congruence. }
  exists t'. unfold rb_insert. rewrite Ea, (linked_rep t m i) by done. split; [done|].
  split; [done|]. intros k2 i2. rewrite Ht', Hm. destruct (decide (k2 = k)) as [->|Hne].
  - rewrite lookup_insert_eq, Hk. naive_solver.
  - rewrite lookup_insert_ne by done. naive_solver.
Qed.

Lemma rb_insert_dup t m k i j :
  tree_rep t m → m !! k = Some j → rb_insert k i t = Ok (Some j, t).
Proof.
  intros [Hs Hm] Hk. apply Hm in Hk. unfold rb_insert.
  assert (∃ t', rb_add k i t = (Some j, t')) as [t' ->]; [|done]. clear Hm.
  induction t as [|[k' j'] t IH]; cbn in *; [set_solver|].
  apply StronglySorted_inv in Hs as [Hs Hf].
  apply elem_of_cons in Hk as [[= -> ->]|Hk]; [rewrite Z.ltb_irrefl, Z.eqb_refl; eauto|].
  assert (k' < k) by (rewrite Forall_forall in Hf; apply Hf, list_elem_of_fmap; by exists (k, j)).
  rewrite (proj2 (Z.ltb_ge k k')), (proj2 (Z.eqb_neq k k')) by lia.
  destruct IH as [t' ->]; eauto.
Qed.

Lemma rb_remove_rep t m k i :
  tree_rep t m → m !! k = Some i → (∀ k', m !! k' = Some i → k' = k) →
  ∃ t', rb_remove i t = Ok t' ∧ tree_rep t' (delete k m).
Proof.
  intros [Hs Hm] Hk Hi. unfold rb_remove, linked. rewrite bool_decide_eq_true_2.
  2: { apply list_elem_of_fmap. exists (k, i). split; [done|]. by apply Hm. }
  eexists. split; [done|]. split.
  - clear -Hs. induction t as [|[k' j] t IH]; [constructor|]. cbn in Hs.
    apply StronglySorted_inv in Hs as [Hs Hf]. rewrite filter_cons. case_decide; [cbn|by apply IH].
    constructor; [by apply IH|]. rewrite Forall_forall in Hf |- *.
    intros x ([k2 i2] & -> & [_ Hx]%list_elem_of_filter)%list_elem_of_fmap.
    apply Hf, list_elem_of_fmap. by exists (k2, i2).
  - intros k2 i2. rewrite list_elem_of_filter, Hm. cbn. destruct (decide (k2 = k)) as [->|Hne].
    + rewrite lookup_delete_eq. naive_solver.
    + rewrite lookup_delete_ne by done. split; [tauto|]. intros H. split; [|done].
      intros ->. by apply Hne, Hi.
Qed.
End trees.

(** Reduce updates of the records. *)
Ltac nsimp := cbn [upd set_co_stack set_co_stack_size set_co_status set_co_fd set_co_events set_co_ops
  set_sleep_usecs set_spawned set_curr_thread set_poller_fd set_s_eventfd set_eventlist
  set_num_new_events set_ready set_sleeping set_waiting set_y_n set_y_batches set_y_answers
  set_y_interest set_y_out set_n_sched set_n_cos set_n_next set_n_stack set_n_under set_n_al set_n_sys
  set_n_app n_sched n_cos n_next n_stack n_under n_al n_sys n_app y_n y_clock y_depth y_batches
  y_answers y_interest y_out co_main co_stack co_stack_size co_status co_birth co_id co_fd co_events
  co_ops sleep_usecs s_birth s_stack s_stack_size spawned_coroutines default_timeout curr_thread
  poller_fd s_eventfd eventlist num_new_events ready busy sleeping waiting r_n r_ctx].

(** Turn updates of explicit states into explicit states. *)
Ltac nunf := unfold upd, set_n_sched, set_n_cos, set_n_next, set_n_al, set_n_sys, set_n_app, set_n_stack,
  set_n_under, set_y_n, set_y_batches, set_y_answers, set_y_interest, set_y_out, set_spawned,
  set_curr_thread, set_poller_fd, set_s_eventfd, set_eventlist, set_num_new_events, set_ready,
  set_sleeping, set_waiting; nsimp.

(** [run] that also reduces updates. *)
Ltac nrun := repeat (progress (autorewrite with ga_run; cbn beta iota; nsimp)).

(** ** Running the library's primitives *)

Section primitives.
Context {F W : Type}.
Implicit Types s : nty F W.

Lemma get_co_run s i c : n_cos s !! i = Some c → get_co i s = Ok (c, s).
Proof. intros H. unfold get_co. by rewrite H. Qed.

Lemma upd_co_run s i c f :
  n_cos s !! i = Some c → upd_co i f s = Ok (tt, s <| n_cos := <[i := f c]> (n_cos s) |>).
Proof. intros H. unfold upd_co. by rewrite H. Qed.

Lemma the_sched_run s sc : n_sched s = Some sc → the_sched s = Ok (sc, s).
Proof. intros H. unfold the_sched. by rewrite H. Qed.

Lemma upd_sched_run s sc f :
  n_sched s = Some sc → upd_sched f s = Ok (tt, s <| n_sched := Some (f sc) |>).
Proof. intros H. unfold upd_sched. by rewrite H. Qed.

Lemma gauge_run {A} (f : nsys → nat → A) s :
  gauge f s = Ok (f (n_sys s) (y_n (n_sys s)), s <| n_sys := n_sys s <| y_n := S (y_n (n_sys s)) |> |>).
Proof. done. Qed.

Lemma gets_run {A} (f : nty F W → A) s : gets f s = Ok (f s, s).
Proof. done. Qed.
Lemma modify_run f s : modify f s = Ok (tt, f s).
Proof. done. Qed.
Lemma nmalloc_run s : al_total (n_al s) → nmalloc s = Ok (true, s <| n_al := al_next (n_al s) 1 |>).
Proof. intros H. unfold nmalloc. by rewrite (H _ (Nat.le_refl _)). Qed.
Lemma nrealloc_run s b :
  al_total (n_al s) → nrealloc b s = Ok (true, s <| n_al := al_next (n_al s) (if b then 0 else 1) |>).
Proof. intros H. unfold nrealloc. rewrite (H _ (Nat.le_refl _)). by destruct b. Qed.
Lemma Assert_run {S} (b : bool) (s : S) : b = true → Assert b s = Ok (tt, s).
Proof. by intros ->. Qed.
Lemma lift_run {S A} (r : result A) x (s : S) : r = Ok x → lift r s = Ok (x, s).
Proof. by intros ->. Qed.

End primitives.

#[export] Hint Rewrite @gets_run @modify_run @gauge_run : ga_run.

(** ** Single operations on explicit states *)

Section single.
Context {F W : Type}.
Implicit Types (s : nty F W) (c : nty_coroutine F).

(** The status of a coroutine that runs: not waiting, not ended. *)
Definition idle (st : Z) : Prop :=
  has st NTY_COROUTINE_STATUS_WAIT_READ = false ∧
  has st NTY_COROUTINE_STATUS_WAIT_WRITE = false ∧
  has st NTY_COROUTINE_STATUS_EXITED = false.

(** What a coroutine can wait for. *)
Definition waits_for (ev : Z) : Prop := Z.land ev POLLIN ≠ 0 ∨ Z.land ev POLLOUT ≠ 0.

Lemma sched_wait_run s i c sc ow fd ev :
  n_cos s !! i = Some c → idle (co_status c) → n_sched s = Some sc → tree_rep (waiting sc) ow →
  ow !! fd = None → (∀ k, ow !! k ≠ Some i) → waits_for ev →
  ∃ st t, has st NTY_COROUTINE_STATUS_EXITED = false ∧ tree_rep t (<[fd := i]> ow) ∧
    nty_schedule_sched_wait i fd ev 1 s = Ok (tt,
      s <| n_cos := <[i := c <| co_status := st |> <| co_fd := fd |> <| co_events := u16 ev |>]> (n_cos s) |>
        <| n_sched := Some (sc <| waiting := t |>) |>).
Proof.
  intros Hc (Hr & Hw & Hx) Hs Ht Hn Hi Hev.
  destruct (rb_insert_rep _ _ fd i Ht Hn Hi) as (t & Ei & Ht').
  set (st := if negb (Z.land ev POLLIN =? 0)
             then Z.lor (co_status c) (enum NTY_COROUTINE_STATUS_WAIT_READ)
             else Z.lor (co_status c) (enum NTY_COROUTINE_STATUS_WAIT_WRITE)).
  exists st, t. split_and!; [|done|].
  { revert Hx. unfold st, has, BIT. cbn [enum]. intros Hx.
    destruct (negb _); rewrite Z.land_lor_distr_l; cbn [Z.land]; by rewrite Z.lor_0_r. }
  unfold nty_schedule_sched_wait. run. rewrite (get_co_run _ _ _ Hc). run.
  rewrite Hr, Hw. rewrite Assert_run by done. run.
  assert (∀ (m : prog (nty F W) unit), (if negb (Z.land ev POLLIN =? 0) then
      upd_co i (λ c, c <| co_status := Z.lor (co_status c) (enum NTY_COROUTINE_STATUS_WAIT_READ) |>)
    else if negb (Z.land ev POLLOUT =? 0) then
      upd_co i (λ c, c <| co_status := Z.lor (co_status c) (enum NTY_COROUTINE_STATUS_WAIT_WRITE) |>)
    else m) s = Ok (tt, s <| n_cos := <[i := c <| co_status := st |>]> (n_cos s) |>)) as ->.
  { intros m. unfold st. destruct (Z.land ev POLLIN =? 0) eqn:E1; cbn [negb];
      [|by rewrite (upd_co_run _ _ _ _ Hc)].
    destruct (Z.land ev POLLOUT =? 0) eqn:E2; cbn [negb]; [|by rewrite (upd_co_run _ _ _ _ Hc)].
    b2p. destruct Hev; done. }
  run. erewrite upd_co_run by apply lookup_insert_eq. run. nsimp.
  erewrite the_sched_run by exact Hs. run. erewrite lift_run by exact Ei. run.
  rewrite Assert_run by done. run. erewrite upd_sched_run by exact Hs. run. nsimp.
  by rewrite insert_insert_eq.
Qed.

(** A yield keeps a copy of the stack, in a block allocated when there is none
    or the old one is too small. *)
Lemma yield_run s i c :
  n_cos s !! i = Some c → has (co_status c) NTY_COROUTINE_STATUS_EXITED = false →
  (co_stack c = false → co_stack_size c = 0) → al_total (n_al s) →
  0 < y_depth (n_sys s) (y_n (n_sys s)) ≤ NTY_CO_MAX_STACKSIZE →
  ∃ a, al_total a ∧ al_live a = al_live (n_al s) + (if co_stack c then 0 else 1) ∧
    go (nty_coroutine_yield i) s = Ok (inr (mret tt),
      s <| n_cos := <[i := c <| co_ops := 0 |> <| co_stack := true |>
                            <| co_stack_size := y_depth (n_sys s) (y_n (n_sys s)) |>]> (n_cos s) |>
        <| n_sys := n_sys s <| y_n := S (y_n (n_sys s)) |> |> <| n_al := a |>).
Proof.
  intros Hc Hx Hsz Hal Hd. destruct s as [sc cos nx sk un al [yn clk dep bat ans int out] ap].
  revert Hc Hal Hd. nsimp. intros Hc Hal Hd. set (u := dep yn) in *.
  unfold nty_coroutine_yield, _save_stack. run. erewrite upd_co_run by exact Hc. run. nsimp.
  erewrite get_co_run by apply lookup_insert_eq. run. nsimp. rewrite Hx. cbn [negb]. run. nsimp. fold u.
  rewrite Assert_run by (apply Z.leb_le; lia). run.
  erewrite get_co_run by apply lookup_insert_eq. run. nsimp.
  destruct (co_stack_size c <? u) eqn:Eu; b2p; run.
  - rewrite nrealloc_run by done. run. rewrite Assert_run by done. run. nsimp.
    erewrite upd_co_run by apply lookup_insert_eq. run. nsimp. rewrite insert_insert_eq.
    erewrite upd_co_run by apply lookup_insert_eq. run. nsimp. rewrite insert_insert_eq.
    eexists. split; [by apply al_total_next|]. split; [|reflexivity]. done.
  - erewrite upd_co_run by apply lookup_insert_eq. run. nsimp. rewrite insert_insert_eq.
    assert (co_stack c = true) as Est by (destruct (co_stack c); [done|specialize (Hsz eq_refl); lia]).
    rewrite Est. exists al. split; [done|]. split; [lia|]. destruct c. cbn in Est. by subst.
Qed.

(** After a wait the coroutine has a clear status and is nowhere waited for. *)
Lemma desched_wait_run s sc ow fd i c :
  n_sched s = Some sc → tree_rep (waiting sc) ow → ow !! fd = Some i →
  (∀ k, ow !! k = Some i → k = fd) → n_cos s !! i = Some c →
  ∃ t, tree_rep t (delete fd ow) ∧
    nty_schedule_desched_wait fd s = Ok (i,
      s <| n_sched := Some (sc <| waiting := t |>) |>
        <| n_cos := <[i := c <| co_status := 0 |>]> (n_cos s) |>).
Proof.
  intros Hs Ht Hfd Hi Hc. destruct (rb_remove_rep _ _ fd i Ht Hfd Hi) as (t & Er & Ht').
  exists t. split; [done|]. unfold nty_schedule_desched_wait, nty_schedule_desched_sleepdown. run.
  rewrite (the_sched_run _ _ Hs). run. rewrite (rb_find_rep _ _ _ Ht), Hfd. run.
  rewrite (lift_run _ _ _ Er). run. rewrite (upd_sched_run _ _ _ Hs). run.
  erewrite upd_co_run by exact Hc. run. erewrite get_co_run by apply lookup_insert_eq. run. nsimp.
  by run.
Qed.
End single.

(** ** The state of the library *)

(** The parts of the state the library hands through. *)
Record frame (W : Type) := Frame {
  f_evs : list event;
  f_num : nat;
  f_batches : list wait_res;
  f_ans : list answer;
  f_out : list (Z * output);
  f_app : W;
  f_stack : option nat;
  f_under : option nat;
}.
Arguments Frame {W} _ _ _ _ _ _ _ _.
Arguments f_evs {W} _.
Arguments f_num {W} _.
Arguments f_batches {W} _.
Arguments f_ans {W} _.
Arguments f_out {W} _.
Arguments f_app {W} _.
Arguments f_stack {W} _.
Arguments f_under {W} _.

Definition frame_eta {W} (r : frame W) : frame W :=
  Frame (f_evs r) (f_num r) (f_batches r) (f_ans r) (f_out r) (f_app r) (f_stack r) (f_under r).

Ltac frame_setter eta p :=
  let e := eval cbv delta [frame_eta] in eta in let e := eval cbv beta in e in build_setter e p.

#[global] Instance set_f_num {W} : Setter (@f_num W).
Proof. frame_setter (@frame_eta W) (@f_num W). Defined.
#[global] Instance set_f_evs {W} : Setter (@f_evs W).
Proof. frame_setter (@frame_eta W) (@f_evs W). Defined.
#[global] Instance set_f_batches {W} : Setter (@f_batches W).
Proof. frame_setter (@frame_eta W) (@f_batches W). Defined.
#[global] Instance set_f_ans {W} : Setter (@f_ans W).
Proof. frame_setter (@frame_eta W) (@f_ans W). Defined.
#[global] Instance set_f_out {W} : Setter (@f_out W).
Proof. frame_setter (@frame_eta W) (@f_out W). Defined.
#[global] Instance set_f_app {W} : Setter (@f_app W).
Proof. frame_setter (@frame_eta W) (@f_app W). Defined.
#[global] Instance set_f_stack {W} : Setter (@f_stack W).
Proof. frame_setter (@frame_eta W) (@f_stack W). Defined.
#[global] Instance set_f_under {W} : Setter (@f_under W).
Proof. frame_setter (@frame_eta W) (@f_under W). Defined.

Ltac fsimp := cbn [upd set_f_num set_f_evs set_f_batches set_f_ans set_f_out set_f_app set_f_stack
  set_f_under f_evs f_num f_batches f_ans f_out f_app f_stack f_under].

(** The blocks of the running coroutine: its struct, and its saved stack if it
    has one. *)
Definition blocks (cur : option (nat * bool)) : Z :=
  match cur with None => 0 | Some (_, b) => if b then 2 else 1 end.

(** A coroutine that has not been started. *)
Definition fresh {F} (c : nty_coroutine F) (f : F) : Prop :=
  co_main c = f ∧ co_stack c = false ∧ co_stack_size c = 0 ∧
  co_status c = BIT NTY_COROUTINE_STATUS_NEW.

Section lib.
Context {F W : Type} (efd base : Z).
Notation N := (prog (nty F W)).
Notation C := (co (nty F W)).
Implicit Types (s : nty F W) (ow : gmap Z nat) (fr : frame W) (rdy : list (nat * F)).

(** [lib ow ct cur rdy fr s]: nobody sleeps; [ow] maps the descriptors waited
    for to the coroutines that wait, [ct] is [curr_thread], [cur] the coroutine
    that runs and whether it has a saved stack, [rdy] the coroutines to be
    started.  Every block the library holds beyond [base] belongs to one of
    them. *)
Record lib (ow : gmap Z nat) (ct : option nat) (cur : option (nat * bool)) (rdy : list (nat * F))
    (fr : frame W) (s : nty F W) : Prop := Lib {
  l_sched : ∃ bi ss sp pf t,
    n_sched s = Some (Schedule bi true ss sp 3000000 ct pf efd (f_evs fr) (f_num fr) rdy.*1 [] [] t) ∧
    tree_rep t ow;
  l_inj : ∀ k k' i, ow !! k = Some i → ow !! k' = Some i → k = k';
  l_own : ∀ k i, ow !! k = Some i → 0 ≤ k ∧ k ≠ efd ∧
    ∃ c, n_cos s !! i = Some c ∧ co_stack c = true ∧ has (co_status c) NTY_COROUTINE_STATUS_EXITED = false;
  l_cur : ∀ i b, cur = Some (i, b) → (∀ k, ow !! k ≠ Some i) ∧
    ∃ c, n_cos s !! i = Some c ∧ co_stack c = b ∧ (b = false → co_stack_size c = 0) ∧ idle (co_status c);
  l_rdy : ∀ i f, (i, f) ∈ rdy → (∀ k, ow !! k ≠ Some i) ∧ (∀ b, cur ≠ Some (i, b)) ∧
    ∃ c, n_cos s !! i = Some c ∧ fresh c f;
  l_nodup : NoDup rdy.*1;
  l_next : ∀ i, is_Some (n_cos s !! i) → (i < n_next s)%nat;
  l_int : ∀ k, is_Some (y_interest (n_sys s) !! k) ↔ k = efd ∨ is_Some (ow !! k);
  l_al : al_total (n_al s);
  l_mem : al_live (n_al s) = base + 2 * Z.of_nat (size ow) + Z.of_nat (length rdy) + blocks cur;
  l_depth : ∀ n, 0 < y_depth (n_sys s) n ≤ NTY_CO_MAX_STACKSIZE;
  l_frame : y_batches (n_sys s) = f_batches fr ∧ y_answers (n_sys s) = f_ans fr ∧
    y_out (n_sys s) = f_out fr ∧ n_app s = f_app fr ∧ n_stack s = f_stack fr ∧ n_under s = f_under fr;
}.

(** *** Waiting and waking *)

(** What is left of [nty_poll_inner] after its yield. *)
Definition poll_rest (fd ev : Z) : C Z :=
  _ ← mret tt; _ ← act (poll_unregister [(fd, ev)]); mret 1.


Lemma lib_sched ow ct cur rdy fr s : lib ow ct cur rdy fr s →
  ∃ sc, n_sched s = Some sc ∧ tree_rep (waiting sc) ow ∧ curr_thread sc = ct ∧ ready sc = rdy.*1 ∧
    busy sc = [] ∧ sleeping sc = [] ∧ default_timeout sc = 3000000 ∧
    eventlist sc = f_evs fr ∧ num_new_events sc = f_num fr.
Proof. intros [(bi & ss & sp & pf & t & -> & Ht) _ _ _ _ _ _ _ _ _ _ _]. eexists. by split_and!. Qed.

Lemma park ow i b rdy fr s fd ev :
  lib ow (Some i) (Some (i, b)) rdy fr s →
  0 ≤ fd → fd ≠ efd → ow !! fd = None → waits_for ev →
  ∃ s', go (nty_poll_inner [(fd, ev)] 1) s = Ok (inr (poll_rest fd ev), s') ∧
    lib (<[fd := i]> ow) (Some i) None rdy fr s'.
Proof.
  intros [(bi & ss & sp & pf & t & Hs & Ht) Hinj Hown Hcur Hrdy Hnd Hnext Hint Hal Hmem Hdep Hfr]
    Hfd Hne Hn Hev.
  destruct (Hcur i b eq_refl) as (Hi & c & Hc & Hst & Hsz & Hidle).
  destruct s as [sc cos nx sk un al [yn clk dep bat ans int out] ap].
  revert Hs Hc Hfr Hown Hrdy Hnext Hint Hal Hmem Hdep. nsimp.
  intros -> Hc Hfr Hown Hrdy Hnext Hint Hal Hmem Hdep.
  unfold nty_poll_inner, nty_coroutine_get_sched, current, the_sched.
  cbn [Z.eqb Z.ltb Z.compare]. run. nsimp. cbn [null]. run. nsimp. run.
  cbn [poll_register]. run. unfold epoll_ctl_add, upd_sys. run. nsimp.
  rewrite (proj2 (Z.ltb_ge fd 0) Hfd), bool_decide_eq_false_2; cbn [orb].
  2: { rewrite Hint, Hn. intros [?|[? ?]]; done. }
  nsimp. erewrite upd_co_run by exact Hc. run. nsimp.
  match goal with |- context [nty_schedule_sched_wait i fd ev 1 ?s0] =>
    destruct (sched_wait_run s0 i _ _ ow fd ev (lookup_insert_eq _ _ _) Hidle eq_refl Ht Hn Hi Hev)
      as (st & t' & Hx & Ht' & ->) end.
  run. nsimp. rewrite insert_insert_eq.
  match goal with |- context [go (nty_coroutine_yield i) ?s0] =>
    destruct (yield_run s0 i _ (lookup_insert_eq _ _ _)) as (a & Ha & Hl & ->); nsimp;
      [done|by rewrite Hst|done|done|] end.
  run. nsimp. rewrite insert_insert_eq. eexists. split; [reflexivity|]. revert Hl. nsimp. intros Hl.
  assert (∀ k j, ow !! k = Some j → j ≠ i) as Hji by (intros k j Hk ->; by apply (Hi k)).
  assert (∀ j f, (j, f) ∈ rdy → j ≠ i) as Hri by (intros j f Hj ->; apply Hrdy in Hj as (_ & Hj & _); by apply (Hj b)).
  constructor; nsimp; try done.
  - by eexists _, _, _, _, _.
  - intros k k' j. rewrite !lookup_insert_Some. naive_solver.
  - intros k j [[<- <-]|[Hk Hkj]]%lookup_insert_Some.
    + split_and!; [done..|]. rewrite lookup_insert_eq. eexists. split_and!; [done..|]. done.
    + destruct (Hown _ _ Hkj) as (? & ? & c' & ?). split_and!; [done..|]. exists c'.
      rewrite lookup_insert_ne by (apply not_eq_sym; eauto). done.
  - intros j f Hj. destruct (Hrdy _ _ Hj) as (H1 & H2 & c' & Hc' & Hf). split_and!; [|done|].
    + intros k [[_ <-]|[_ Hk]]%lookup_insert_Some; [by eapply Hri|by apply (H1 k)].
    + exists c'. rewrite lookup_insert_ne by (apply not_eq_sym; eauto). done.
  - intros j Hj. apply Hnext. destruct (decide (j = i)) as [->|]; [by eexists|].
    by rewrite lookup_insert_ne in Hj by done.
  - intros k. destruct (decide (k = fd)) as [->|Hk].
    + rewrite !lookup_insert_eq. split; intros; [right|]; by eexists.
    + rewrite !lookup_insert_ne by done. apply Hint.
  - rewrite Hl, Hmem, Hst, map_size_insert_None by done. cbn [blocks]. destruct b; lia.
Qed.

Lemma wake ow i rdy fr s fd ev :
  lib ow (Some i) None rdy fr s → ow !! fd = Some i →
  ∃ s', go (poll_rest fd ev) s = Ok (inl 1, s') ∧
    lib (delete fd ow) (Some i) (Some (i, true)) rdy fr s'.
Proof.
  intros [(bi & ss & sp & pf & t & Hs & Ht) Hinj Hown Hcur Hrdy Hnd Hnext Hint Hal Hmem Hdep Hfr] Hfd.
  destruct (Hown _ _ Hfd) as (H0 & Hne & c & Hc & Hst & Hx).
  assert (∀ k, ow !! k = Some i → k = fd) as Hi by (intros k Hk; by eapply Hinj).
  destruct s as [sc cos nx sk un al [yn clk dep bat ans int out] ap].
  revert Hs Hc Hfr Hown Hrdy Hnext Hint Hal Hmem Hdep. nsimp.
  intros -> Hc Hfr Hown Hrdy Hnext Hint Hal Hmem Hdep.
  unfold poll_rest, epoll_ctl_del. run. cbn [poll_unregister]. run. unfold epoll_ctl_del, upd_sys. run. nsimp.
  match goal with |- context [nty_schedule_desched_wait fd ?s0] =>
    destruct (desched_wait_run s0 _ ow fd i c eq_refl Ht Hfd Hi Hc) as (t' & Ht' & ->) end.
  run. nsimp. eexists. split; [reflexivity|].
  assert (∀ k j, delete fd ow !! k = Some j → j ≠ i) as Hji.
  { intros k j [Hk Hkj]%lookup_delete_Some ->. by apply Hk, eq_sym, Hi. }
  assert (∀ j f, (j, f) ∈ rdy → j ≠ i) as Hri by (intros j f Hj ->; apply Hrdy in Hj as (Hj & _); by apply (Hj fd)).
  constructor; nsimp; try done.
  - by eexists _, _, _, _, _.
  - intros k k' j [_ H1]%lookup_delete_Some [_ H2]%lookup_delete_Some. by eapply Hinj.
  - intros k j Hkj. pose proof (Hji _ _ Hkj) as Hn. apply lookup_delete_Some in Hkj as [_ Hkj].
    destruct (Hown _ _ Hkj) as (? & ? & c' & ?). split_and!; [done..|]. exists c'.
    by rewrite lookup_insert_ne by done.
  - intros j b [= <- <-]. split; [intros k Hk; by apply (Hji k i)|]. rewrite lookup_insert_eq.
    eexists. split; [done|]. nsimp. by rewrite Hst.
  - intros j f Hj. destruct (Hrdy _ _ Hj) as (H1 & H2 & c' & Hc' & Hf). split_and!.
    + intros k [_ Hk]%lookup_delete_Some. by apply (H1 k).
    + intros b [= -> _]. by eapply Hri.
    + exists c'. rewrite lookup_insert_ne by (apply not_eq_sym; eauto). done.
  - intros j Hj. apply Hnext. destruct (decide (j = i)) as [->|]; [by eexists|].
    by rewrite lookup_insert_ne in Hj by done.
  - intros k. destruct (decide (k = fd)) as [->|Hk].
    + rewrite !lookup_delete_eq. split; [by intros [? ?]|]. intros [?|[? ?]]; done.
    + rewrite !lookup_delete_ne by done. apply Hint.
  - rewrite Hmem, (map_size_delete_Some _ _ (mk_is_Some _ _ Hfd)). cbn [blocks].
    assert (size ow ≠ 0)%nat by (intros ->%map_size_empty_inv; done). lia.
Qed.

(** *** The running coroutine's other operations *)

Section frames.
Context (ow : gmap Z nat) (ct : option nat) (cur : option (nat * bool)) (rdy : list (nat * F)).

Lemma lib_app fr s x :
  lib ow ct cur rdy fr s → lib ow ct cur rdy (fr <| f_app := x |>) (s <| n_app := x |>).
Proof. intros []. constructor; nsimp; fsimp; tauto. Qed.

Lemma lib_answers fr s l :
  lib ow ct cur rdy fr s →
  lib ow ct cur rdy (fr <| f_ans := l |>) (s <| n_sys := n_sys s <| y_answers := l |> |>).
Proof. intros []. constructor; nsimp; fsimp; tauto. Qed.

Lemma lib_output fr s l :
  lib ow ct cur rdy fr s →
  lib ow ct cur rdy (fr <| f_out := l |>) (s <| n_sys := n_sys s <| y_out := l |> |>).
Proof. intros []. constructor; nsimp; fsimp; tauto. Qed.

Lemma answer_run fr s :
  lib ow ct cur rdy fr s →
  ∃ s', sys_answer s = Ok ((next_answer (f_ans fr)).1, s') ∧
    lib ow ct cur rdy (fr <| f_ans := (next_answer (f_ans fr)).2 |>) s'.
Proof.
  intros H. destruct (l_frame _ _ _ _ _ _ H) as (_ & Ha & _). unfold sys_answer. rewrite Ha.
  destruct (f_ans fr) as [|a l] eqn:E; cbn [next_answer fst snd]; (eexists; split; [reflexivity|]).
  - pose proof (lib_answers _ _ [] H) as H'. destruct fr; cbn in E, H' |- *; subst.
    by destruct s as [? ? ? ? ? ? [] ?]; cbn in Ha; subst.
  - by apply lib_answers.
Qed.

Lemma recv_f_run fr s len :
  lib ow ct cur rdy fr s →
  ∃ s', recv_f len s = Ok (recv_answer len (next_answer (f_ans fr)).1, s') ∧
    lib ow ct cur rdy (fr <| f_ans := (next_answer (f_ans fr)).2 |>) s'.
Proof.
  intros H. destruct (answer_run _ _ H) as (s' & Hr & H'). exists s'. split; [|done].
  unfold recv_f. run. by rewrite Hr.
Qed.

Lemma send_f_run fr s fd buf :
  lib ow ct cur rdy fr s →
  let r := send_answer buf (next_answer (f_ans fr)).1 in
  ∃ s', send_f fd buf s = Ok (r, s') ∧
    lib ow ct cur rdy (fr <| f_ans := (next_answer (f_ans fr)).2 |>
      <| f_out := f_out fr ++ sent_out fd (take (Z.to_nat r.1) buf) |>) s'.
Proof.
  intros H r. destruct (answer_run _ _ H) as (s1 & Hr & H1). unfold send_f. run. rewrite Hr. run.
  fold r. destruct r as [n e] eqn:Er. unfold upd_sys. run. eexists. split; [reflexivity|].
  destruct (l_frame _ _ _ _ _ _ H1) as (_ & _ & Ho & _). rewrite Ho. cbn [fst].
  apply (lib_output _ s1 (f_out fr ++ sent_out fd (take (Z.to_nat n) buf))) in H1. exact H1.
Qed.

Lemma close_run fr s fd :
  lib ow ct cur rdy fr s → fd ≠ efd → ow !! fd = None →
  ∃ s', close fd s = Ok (tt, s') ∧
    lib ow ct cur rdy (fr <| f_out := f_out fr ++ [(fd, Closed)] |>) s'.
Proof.
  intros [] Hne Hn. eexists. split; [reflexivity|]. constructor; nsimp; fsimp; try done.
  - intros k. destruct (decide (k = fd)) as [->|Hk].
    + rewrite lookup_delete_eq, Hn. split; [by intros [? ?]|]. intros [?|[? ?]]; done.
    + by rewrite lookup_delete_ne by done.
  - destruct l_frame0 as (? & ? & -> & ?). done.
Qed.
End frames.

Lemma spawn_run ow ct cur rdy fr s f :
  lib ow ct cur rdy fr s →
  ∃ i s', nty_coroutine_create f s = Ok ((0, Some i), s') ∧ lib ow ct cur (rdy ++ [(i, f)]) fr s'.
Proof.
  intros [(bi & ss & sp & pf & t & Hs & Ht) Hinj Hown Hcur Hrdy Hnd Hnext Hint Hal Hmem Hdep Hfr].
  destruct s as [sc cos nx sk un al [yn clk dep bat ans int out] ap].
  revert Hs Hfr Hown Hcur Hrdy Hnext Hint Hal Hmem Hdep. nsimp.
  intros -> Hfr Hown Hcur Hrdy Hnext Hint Hal Hmem Hdep.
  assert (cos !! nx = None) as Hnx.
  { destruct (cos !! nx) eqn:E; [|done]. apply mk_is_Some, Hnext in E. lia. }
  assert (nx ∉ rdy.*1) as Hnr.
  { intros ([j f'] & -> & Hj)%list_elem_of_fmap. apply Hrdy in Hj as (_ & _ & c & Hc & _). cbn in *. congruence. }
  unfold nty_coroutine_create, nty_coroutine_get_sched, the_sched, upd_sched, nty_coroutine_usec_now,
    ready_insert_tail, the_sched, upd_sched. run. nsimp. cbn [null]. run. nsimp. cbn [null].
  nrun. rewrite nmalloc_run by done. nrun. cbn [negb]. nrun.
  rewrite bool_decide_eq_false_2 by done. nrun.
  eexists nx, _. split; [reflexivity|].
  assert (∀ j, is_Some (cos !! j) → j ≠ nx) as Hj by (intros j [c Hc] ->; congruence).
  constructor; nsimp; try done.
  - eexists _, _, _, _, _. split; [|exact Ht]. by rewrite fmap_app.
  - intros k j Hk. destruct (Hown _ _ Hk) as (? & ? & c & Hc & ?). split_and!; [done..|]. exists c.
    rewrite lookup_insert_ne by (apply not_eq_sym, Hj; by eexists). done.
  - intros j b E. destruct (Hcur _ _ E) as (? & c & Hc & ?). split_and!; [done..|]. exists c.
    rewrite lookup_insert_ne by (apply not_eq_sym, Hj; by eexists). done.
  - intros j f' [Hjf|[= -> ->]%list_elem_of_singleton]%elem_of_app.
    + destruct (Hrdy _ _ Hjf) as (? & ? & c & Hc & ?). split_and!; [done..|]. exists c.
      rewrite lookup_insert_ne by (apply not_eq_sym, Hj; by eexists). done.
    + split_and!.
      * intros k Hk. destruct (Hown _ _ Hk) as (_ & _ & c & Hc & _). congruence.
      * intros b E. destruct (Hcur _ _ E) as (_ & c & Hc & _). congruence.
      * rewrite lookup_insert_eq. eexists. split; [done|]. by split_and!.
  - rewrite fmap_app. apply NoDup_app. split_and!; [done| |repeat constructor; set_solver].
    intros x Hx [=]%list_elem_of_singleton. by subst.
  - intros j. destruct (decide (j = nx)) as [->|]; [lia|]. rewrite lookup_insert_ne by done.
    intros H%Hnext. lia.
  - by apply al_total_next.
  - rewrite length_app. cbn [length al_next al_live]. lia.
Qed.
End lib.
