(* ===== verification/NtycoSleep.v ===== *)
(** * Facts about sleeping coroutines

    The tree of sleepers is ordered by the time they are due.  Going to sleep
    finds the first free time, and the scheduler never waits past the first
    sleeper. *)

From S2P Require Import Prelude CRuntime Coro Server Ntyco NtycoSocket NtycoFacts.

Section sleep.
Context {F W : Type}.
Implicit Types (s : nty F W) (c : nty_coroutine F) (m : gmap Z nat).

(** The sleepers due at [k] or later. *)
Definition later (k : Z) m : gmap Z nat := filter (λ x, k ≤ x.1) m.

Lemma later_step k m i : m !! k = Some i → (size (later (k + 1) m) < size (later k m))%nat.
Proof.
  intros Hk. apply map_subset_size. split.
  - apply map_subseteq_spec. intros x j. unfold later. rewrite !map_lookup_filter_Some. cbn. intros [? ?]. split; [done|lia].
  - intros Hs. assert (later (k + 1) m !! k = Some i) as H.
    { eapply lookup_weaken; [|exact Hs]. unfold later. apply map_lookup_filter_Some. cbn. split; [done|lia]. }
    unfold later in H. apply map_lookup_filter_Some in H as [_ H]. cbn in H. lia.
Qed.

(** The loop takes the first key that is free. *)
Lemma sleep_insert_run fuel i s sc m c :
  n_cos s !! i = Some c → n_sched s = Some sc → tree_rep (sleeping sc) m → (∀ k, m !! k ≠ Some i) →
  0 ≤ sleep_usecs c → sleep_usecs c + Z.of_nat (size (later (sleep_usecs c) m)) < 2 ^ 64 →
  (size (later (sleep_usecs c) m) < fuel)%nat →
  ∃ key t, sleep_usecs c ≤ key ∧ m !! key = None ∧ (∀ k, sleep_usecs c ≤ k < key → is_Some (m !! k)) ∧
    tree_rep t (<[key := i]> m) ∧
    sleep_insert fuel i s = Ok (tt, s <| n_sched := Some (sc <| sleeping := t |>) |>
      <| n_cos := <[i := c <| sleep_usecs := key |>
          <| co_status := Z.lor (co_status c) (BIT NTY_COROUTINE_STATUS_SLEEPING) |>]> (n_cos s) |>).
Proof.
  revert s c. induction fuel as [|fuel IH]; intros s c Hc Hs Ht Hi H0 Hw Hf; [lia|].
  cbn [sleep_insert]. run. rewrite (get_co_run _ _ _ Hc). run. rewrite (the_sched_run _ _ Hs). run.
  destruct (m !! sleep_usecs c) as [j|] eqn:Ej.
  - rewrite (lift_run _ _ _ (rb_insert_dup _ _ _ i _ Ht Ej)). run. rewrite (upd_co_run _ _ _ _ Hc). run.
    pose proof (later_step _ _ _ Ej) as Hl.
    assert (u64 (sleep_usecs c + 1) = sleep_usecs c + 1) as Hu by (apply Z.mod_small; lia).
    set (c1 := c <| sleep_usecs := u64 (sleep_usecs c + 1) |>).
    set (s1 := s <| n_cos := <[i := c1]> (n_cos s) |>).
    assert (sleep_usecs c1 = sleep_usecs c + 1) as Hu1 by (unfold c1; nsimp; exact Hu).
    destruct (IH s1 c1) as (key & t & Hk & Hn & Hall & Ht' & Hr).
    { unfold s1. nsimp. by rewrite lookup_insert_eq. }
    1-3: done.
    1-3: rewrite Hu1; lia.
    rewrite Hu1 in Hk, Hall. exists key, t. split_and!; [lia|done| |done|].
    + intros k Hkk. destruct (decide (k = sleep_usecs c)) as [->|]; [by eexists|]. apply Hall. lia.
    + rewrite Hr. unfold s1, c1. nsimp. by rewrite insert_insert_eq.
  - destruct (rb_insert_rep _ _ _ i Ht Ej Hi) as (t & Hins & Ht').
    exists (sleep_usecs c), t. split_and!; [lia|done|intros; lia|done|].
    rewrite (lift_run _ _ _ Hins). run. rewrite (upd_sched_run _ _ _ Hs). run.
    erewrite upd_co_run by exact Hc. by destruct c.
Qed.

Lemma tree_rep_size t m : tree_rep t m → length t = size m.
Proof.
  intros [Hs Hm]. rewrite <- length_map_to_list. apply Permutation_length.
  apply NoDup_Permutation.
  - apply (NoDup_fmap_1 fst). clear Hm. induction (t.*1) as [|x l IH]; [constructor|].
    apply Sorted.StronglySorted_inv in Hs as [Hs Hf]. constructor; [|by apply IH].
    intros Hx. rewrite Forall_forall in Hf. specialize (Hf _ Hx). lia.
  - apply NoDup_map_to_list.
  - intros [k i]. by rewrite Hm, elem_of_map_to_list.
Qed.

Lemma later_size k m : (size (later k m) ≤ size m)%nat.
Proof. apply map_subseteq_size, map_filter_subseteq. Qed.

(** Who was due at the time kept from an earlier sleep is dropped from the
    tree. *)
Lemma sleepdown_run i msecs s sc m c :
  n_cos s !! i = Some c → n_sched s = Some sc → tree_rep (sleeping sc) m →
  (∀ k k' j, m !! k = Some j → m !! k' = Some j → k = k') →
  let m1 := delete (sleep_usecs c) m in
  let due := u64 (nty_coroutine_diff_usecs (s_birth sc) (u64 (y_clock (n_sys s) (y_n (n_sys s))))
                  + u64 (msecs * 1000)) in
  (∀ k, m1 !! k ≠ Some i) → msecs ≠ 0 → due + Z.of_nat (size m) < 2 ^ 64 →
  ∃ key t s', nty_schedule_sched_sleepdown i msecs s = Ok (tt, s') ∧
    due ≤ key ∧ m1 !! key = None ∧ (∀ k, due ≤ k < key → is_Some (m1 !! k)) ∧
    tree_rep t (<[key := i]> m1) ∧ n_sched s' = Some (sc <| sleeping := t |>) ∧
    ∃ c', n_cos s' !! i = Some c' ∧ sleep_usecs c' = key ∧
      has (co_status c') NTY_COROUTINE_STATUS_SLEEPING = true.
Proof.
  intros Hc Hs Ht Hinj m1 due Hi Hms Hw.
  assert (∃ t1, tree_rep t1 m1 ∧
    match rb_find (sleep_usecs c) (sleeping sc) with
    | Some co_tmp => t ← lift (rb_remove co_tmp (sleeping sc)); upd_sched (λ sc, sc <| sleeping := t |>)
    | None => mret tt end s = Ok (tt, s <| n_sched := Some (sc <| sleeping := t1 |>) |>)) as (t1 & Ht1 & Hfind).
  { rewrite (rb_find_rep _ _ _ Ht). destruct (m !! sleep_usecs c) as [j|] eqn:Ej.
    - destruct (rb_remove_rep _ _ _ j Ht Ej) as (t1 & Hr & Ht1); [intros k Hk; by eapply Hinj|].
      exists t1. split; [done|]. run. rewrite (lift_run _ _ _ Hr). run. by rewrite (upd_sched_run _ _ _ Hs).
    - exists (sleeping sc). unfold m1. rewrite delete_id by done. split; [done|].
      destruct s, sc. cbn in Hs |- *. by rewrite Hs. }
  set (sc1 := sc <| sleeping := t1 |>) in *.
  set (c1 := c <| sleep_usecs := due |>).
  set (s1 := s <| n_sched := Some sc1 |> <| n_sys := n_sys s <| y_n := S (y_n (n_sys s)) |> |>
               <| n_cos := <[i := c1]> (n_cos s) |>).
  assert (size m1 ≤ size m)%nat as Hsz by (apply map_subseteq_size, delete_subseteq).
  assert (0 ≤ due) as Hd0 by (apply Z.mod_pos_bound; lia).
  pose proof (later_size due m1) as Hls.
  assert (n_cos s1 !! i = Some c1) as Hc1 by (unfold s1; nsimp; apply lookup_insert_eq).
  destruct (sleep_insert_run (S (length t1)) i s1 sc1 m1 c1 Hc1 eq_refl Ht1 Hi) as (key & t & Hk & Hn & Hall & Ht' & Hr);
    [exact Hd0|unfold c1; nsimp; lia|rewrite (tree_rep_size _ _ Ht1); unfold c1; nsimp; lia|].
  eexists key, t, _. split.
  - unfold nty_schedule_sched_sleepdown. run. rewrite (get_co_run _ _ _ Hc). run.
    rewrite (the_sched_run _ _ Hs). run. rewrite Hfind. run. unfold nty_coroutine_usec_now. run. nsimp.
    erewrite upd_co_run by exact Hc. run. rewrite (proj2 (Z.eqb_neq msecs 0)) by done. run.
    erewrite the_sched_run by reflexivity. run. exact Hr.
  - split_and!; [exact Hk|exact Hn|exact Hall|exact Ht'|reflexivity|].
    nsimp. rewrite lookup_insert_eq. eexists. split; [done|]. split; [done|]. nsimp.
    unfold has, BIT. cbn [enum]. apply negb_true_iff, Z.eqb_neq. intros H.
    apply (f_equal (λ z, Z.testbit z 6)) in H. rewrite Z.land_spec, Z.lor_spec, Z.bits_0 in H.
    revert H. cbn. by rewrite orb_true_r.
Qed.

(** ** Waiting for the first sleeper *)

(** Every sleeper is in the tree under its own time. *)
Definition keyed s m : Prop :=
  ∀ k i, m !! k = Some i → ∃ c, n_cos s !! i = Some c ∧ sleep_usecs c = k ∧ k < 2 ^ 64.

Lemma rb_min_rep t m :
  tree_rep t m →
  match rb_min t with
  | None => m = ∅
  | Some i => ∃ k, m !! k = Some i ∧ ∀ k' j, m !! k' = Some j → k ≤ k'
  end.
Proof.
  intros [Hs Hm]. destruct t as [|[k i] t]; cbn.
  - apply map_empty. intros k. destruct (m !! k) as [i|] eqn:E; [|done]. apply Hm in E. by apply elem_of_nil in E.
  - exists k. split; [apply Hm; by left|]. intros k' j [[= -> ->]|Hj]%Hm%elem_of_cons; [lia|].
    apply Sorted.StronglySorted_inv in Hs as [_ Hf]. rewrite Forall_forall in Hf.
    apply Z.lt_le_incl, Hf, list_elem_of_fmap. by exists (k', j).
Qed.

Definition since_birth s sc : Z :=
  nty_coroutine_diff_usecs (s_birth sc) (u64 (y_clock (n_sys s) (y_n (n_sys s)))).

Lemma min_timeout_run s sc m :
  n_sched s = Some sc → tree_rep (sleeping sc) m → keyed s m → 0 ≤ default_timeout sc →
  ∃ u s', nty_schedule_min_timeout s = Ok (u, s') ∧ 0 ≤ u ∧ (m = ∅ → u = default_timeout sc) ∧
    ∀ k i, m !! k = Some i → u ≤ Z.max 0 (k - since_birth s sc).
Proof.
  intros Hs Ht Hk Hd. unfold nty_schedule_min_timeout, nty_coroutine_usec_now. nrun.
  rewrite (the_sched_run _ _ Hs). nrun. fold (since_birth s sc).
  pose proof (rb_min_rep _ _ Ht) as Hm. destruct (rb_min (sleeping sc)) as [i|].
  - destruct Hm as (k & Hki & Hmin). destruct (Hk _ _ Hki) as (c & Hc & Hck & Hk64). nrun.
    erewrite get_co_run by exact Hc. nrun. rewrite Hck.
    assert (0 ≤ since_birth s sc) by (apply Z.mod_pos_bound; lia).
    destruct (since_birth s sc <? k) eqn:El; b2p; eexists _, _; (split; [reflexivity|]).
    + unfold u64. rewrite Z.mod_small by lia. split_and!; [lia|by intros ->|].
      intros k' j Hj. specialize (Hmin _ _ Hj). lia.
    + split_and!; [done|by intros ->|]. intros k' j Hj. lia.
  - nrun. eexists _, _. split; [reflexivity|]. split_and!; [done|done|]. subst m. intros k i. by rewrite lookup_empty.
Qed.

Lemma epoll_time_bound u :
  0 ≤ u → epoll_ms (epoll_time u) * 1000 ≤ u ∧ (u < 1000000 → u < epoll_ms (epoll_time u) * 1000 + 1000).
Proof.
  intros H. unfold epoll_ms, epoll_time. cbn [fst snd]. destruct (u `div` 1000000 =? 0) eqn:E; b2p; cbn [negb].
  - rewrite E. dlia.
  - split; [dlia|]. intros Hu. rewrite Z.div_small in E by lia. done.
Qed.
End sleep.
