(* ===== verification/NtycoRun.v ===== *)
(** * Facts about the scheduler of the coroutine library

    How a coroutine is resumed and comes back, parked or ended, and what the
    three parts of a round of [nty_schedule_run] do when nobody sleeps. *)

From S2P Require Import Prelude CRuntime Coro Server Ntyco NtycoSocket NtycoFacts.

Section scheduler.
Context {F W : Type} (efd base : Z) (body : F → co (nty F W) unit).
Notation lib := (lib efd base).
Notation C := (co (nty F W)).
Notation R := (prog (rt F W)).
Implicit Types (s : nty F W) (ow : gmap Z nat) (fr : frame W) (rdy : list (nat * F))
  (ctx : gmap nat (C unit)).

Lemma on_n_run {A} (m : prog (nty F W) A) s ctx :
  on_n m (Rt s ctx) = match m s with Ok (a, s') => Ok (a, Rt s' ctx) | Err e => Err e end.
Proof. done. Qed.

(** [_exec] after the coroutine's function. *)
Definition tail (i : nat) : unit → C unit := λ _,
  _ ← act (upd_co i (λ c, c <| co_status :=
         Z.lor (co_status c) (Z.lor (Z.lor (BIT NTY_COROUTINE_STATUS_EXITED)
           (BIT NTY_COROUTINE_STATUS_FDEOF)) (BIT NTY_COROUTINE_STATUS_DETACH)) |>));
  nty_coroutine_yield i.

(** [nty_coroutine_resume] after the switch back. *)
Definition finish (i : nat) : R Z :=
  _ ← on_n (upd_sched (λ sc, sc <| curr_thread := None |>));
  c ← on_n (get_co i);
  if has (co_status c) NTY_COROUTINE_STATUS_EXITED then
    _ ← (if has (co_status c) NTY_COROUTINE_STATUS_DETACH then nty_coroutine_free i else mret tt);
    mret (-1)
  else mret 0.

Lemma lib_curr ow ct cur rdy fr s ct' :
  lib ow ct cur rdy fr s →
  ∃ s', upd_sched (λ sc, sc <| curr_thread := ct' |>) s = Ok (tt, s') ∧ lib ow ct' cur rdy fr s' ∧
    n_cos s' = n_cos s.
Proof.
  intros [(bi & ss & sp & pf & t & Hs & Ht)]. rewrite (upd_sched_run _ _ _ Hs).
  eexists. split; [reflexivity|]. split; [|done]. constructor; nsimp; try done. by eexists _, _, _, _, _.
Qed.

Lemma lib_stack ow ct cur rdy fr s o :
  lib ow ct cur rdy fr s → lib ow ct cur rdy (fr <| f_stack := o |>) (s <| n_stack := o |>).
Proof. intros []. constructor; nsimp; fsimp; tauto. Qed.

Lemma lib_under ow ct cur rdy fr s o :
  lib ow ct cur rdy fr s → lib ow ct cur rdy (fr <| f_under := o |>) (s <| n_under := o |>).
Proof. intros []. constructor; nsimp; fsimp; tauto. Qed.

(** *** Coming back *)

Lemma finish_parked ow i rdy fr s ctx fd :
  lib ow (Some i) None rdy fr s → ow !! fd = Some i →
  ∃ s', finish i (Rt s ctx) = Ok (0, Rt s' ctx) ∧ lib ow None None rdy fr s'.
Proof.
  intros H Hfd. destruct (lib_curr _ _ _ _ _ _ None H) as (s' & Hr & H' & _). exists s'. split; [|done].
  destruct (l_own _ _ _ _ _ _ _ _ H' _ _ Hfd) as (_ & _ & c & Hc & _ & Hx).
  unfold finish. run. rewrite on_n_run, Hr. run. rewrite on_n_run, (get_co_run _ _ _ Hc). run. by rewrite Hx.
Qed.

Lemma exited_bits st : 
  let st' := Z.lor st (Z.lor (Z.lor (BIT NTY_COROUTINE_STATUS_EXITED)
    (BIT NTY_COROUTINE_STATUS_FDEOF)) (BIT NTY_COROUTINE_STATUS_DETACH)) in
  has st' NTY_COROUTINE_STATUS_EXITED = true ∧ has st' NTY_COROUTINE_STATUS_DETACH = true.
Proof.
  split; unfold has, BIT; cbn [enum]; apply negb_true_iff, Z.eqb_neq; intros H.
  - apply (f_equal (λ z, Z.testbit z 4)) in H. rewrite Z.land_spec, Z.lor_spec, Z.bits_0 in H.
    revert H. cbn. by rewrite orb_true_r.
  - apply (f_equal (λ z, Z.testbit z 9)) in H. rewrite Z.land_spec, Z.lor_spec, Z.bits_0 in H.
    revert H. cbn. by rewrite orb_true_r.
Qed.

(** A coroutine whose function has returned is freed. *)
Lemma finish_exited ow i b rdy fr s ctx :
  lib ow (Some i) (Some (i, b)) rdy fr s →
  ∃ s1 s', go (tail i tt) s = Ok (inr (mret tt), s1) ∧
    finish i (Rt s1 ctx) = Ok (-1, Rt s' (delete i ctx)) ∧ lib ow None None rdy fr s'.
Proof.
  intros [(bi & ss & sp & pf & t & Hs & Ht) Hinj Hown Hcur Hrdy Hnd Hnext Hint Hal Hmem Hdep Hfr].
  destruct (Hcur i b eq_refl) as (Hi & c & Hc & Hst & Hsz & Hidle).
  destruct s as [sc cos nx sk un al [yn clk dep bat ans int out] ap].
  revert Hs Hc Hfr Hown Hrdy Hnext Hint Hal Hmem Hdep. nsimp.
  intros -> Hc Hfr Hown Hrdy Hnext Hint Hal Hmem Hdep.
  destruct (exited_bits (co_status c)) as [Hx1 Hx2].
  unfold tail, nty_coroutine_yield. run. erewrite upd_co_run by exact Hc. run. nsimp.
  erewrite upd_co_run by apply lookup_insert_eq. run. nsimp. rewrite insert_insert_eq.
  erewrite get_co_run by apply lookup_insert_eq. run. nsimp. rewrite Hx1. cbn [negb]. run.
  eexists _, _. split; [reflexivity|].
  unfold finish, upd_sched. run. rewrite on_n_run. nsimp. run. rewrite on_n_run.
  erewrite get_co_run by apply lookup_insert_eq. run. nsimp. rewrite Hx1, Hx2.
  unfold nty_coroutine_free, upd_sched. run. rewrite on_n_run.
  erewrite get_co_run by apply lookup_insert_eq. run. nsimp. rewrite on_n_run. nsimp. run.
  rewrite Hst. rewrite on_n_run. 
  set (a1 := if b then al_dec al else al).
  match goal with |- context [(if b then nfree else mret tt) ?s0] =>
    assert ((if b then nfree else mret tt) s0 = Ok (tt, s0 <| n_al := a1 |>)) as -> by
      (unfold a1; destruct b; reflexivity) end.
  run. rewrite !on_n_run. unfold nfree. nrun. rewrite !on_n_run. nrun.
  split; [reflexivity|].
  assert (∀ j, j ≠ i → delete i (<[i := c <| co_status := Z.lor (co_status c) (Z.lor (Z.lor (BIT NTY_COROUTINE_STATUS_EXITED)
           (BIT NTY_COROUTINE_STATUS_FDEOF)) (BIT NTY_COROUTINE_STATUS_DETACH)) |> <| co_ops := 0 |>]> cos) !! j = cos !! j) as Hd.
  { intros j Hj. by rewrite lookup_delete_ne, lookup_insert_ne by done. }
  revert Hd. nsimp. intros Hd.
  assert (∀ k j, ow !! k = Some j → j ≠ i) as Hji by (intros k j Hk ->; by apply (Hi k)).
  constructor; nsimp; try done.
  - by eexists _, _, _, _, _.
  - intros k j Hk. destruct (Hown _ _ Hk) as (? & ? & c' & ?). split_and!; [done..|]. exists c'.
    rewrite Hd by eauto. done.
  - intros j f Hj. destruct (Hrdy _ _ Hj) as (? & Hjb & c' & ?). split_and!; [done..|]. exists c'.
    rewrite Hd; [done|]. intros ->. by apply (Hjb b).
  - intros j Hj. apply Hnext. destruct (decide (j = i)) as [->|]; [by eexists|]. by rewrite Hd in Hj.
  - unfold a1. destruct b; auto with ga.
  - unfold a1. revert Hmem. cbn [blocks]. destruct b; cbn [al_dec al_live]; lia.
Qed.

(** What a coroutine does until it comes back. *)
Lemma swap_parks ow rdy fr s ctx i k inner c' s1 fd :
  ctx !! i = Some k → go k s = go (inner ≫= tail i) s →
  go inner s = Ok (inr c', s1) → lib ow (Some i) None rdy fr s1 → ow !! fd = Some i →
  ∃ s', (swapcontext i ≫= λ _, finish i) (Rt s ctx) = Ok (0, Rt s' (<[i := c' ≫= tail i]> ctx)) ∧
    lib ow None None rdy fr s'.
Proof.
  intros Hk Hg Hi H Hfd. destruct (finish_parked _ _ _ _ _ (<[i := c' ≫= tail i]> ctx) _ H Hfd) as (s' & Hf & H').
  exists s'. split; [|done]. run. unfold swapcontext. nsimp. rewrite Hk, Hg. run. rewrite Hi. by run.
Qed.

Lemma swap_exits ow b rdy fr s ctx i k inner s1 :
  ctx !! i = Some k → go k s = go (inner ≫= tail i) s →
  go inner s = Ok (inl tt, s1) → lib ow (Some i) (Some (i, b)) rdy fr s1 →
  ∃ s', (swapcontext i ≫= λ _, finish i) (Rt s ctx) = Ok (-1, Rt s' (delete i ctx)) ∧
    lib ow None None rdy fr s'.
Proof.
  intros Hk Hg Hi H.
  destruct (finish_exited _ _ _ _ _ _ (<[i := mret tt]> ctx) H) as (s2 & s' & Ht & Hf & H').
  exists s'. split; [|done]. run. unfold swapcontext. nsimp. rewrite Hk, Hg. run. rewrite Hi. run.
  rewrite Ht. rewrite Hf. by rewrite delete_insert_eq.
Qed.

(** *** Starting *)

Lemma resume_waiting ow rdy fr s ctx i c fd :
  lib ow None None rdy fr s → ow !! fd = Some i →
  n_cos s !! i = Some c → has (co_status c) NTY_COROUTINE_STATUS_NEW = false →
  ∃ s', lib ow (Some i) None rdy (fr <| f_stack := Some i |>) s' ∧
    nty_coroutine_resume body i (Rt s ctx) = (swapcontext i ≫= λ _, finish i) (Rt s' ctx).
Proof.
  intros H Hfd Hc Hn. apply (lib_stack _ _ _ _ _ _ (Some i)) in H.
  destruct (lib_curr _ _ _ _ _ _ (Some i) H) as (s' & Hr & H' & _). exists s'. split; [done|].
  unfold nty_coroutine_resume. run. rewrite on_n_run, (get_co_run _ _ _ Hc). run. rewrite Hn.
  unfold _load_stack. rewrite on_n_run. run. rewrite on_n_run, Hr. run. done.
Qed.

Lemma resume_new ow rdy fr s ctx i f :
  lib ow None (Some (i, false)) rdy fr s → (∃ c, n_cos s !! i = Some c ∧ fresh c f) →
  ∃ s', lib ow (Some i) (Some (i, false)) rdy (fr <| f_under := f_stack fr |> <| f_stack := Some i |>) s' ∧
    (∃ c, n_cos s' !! i = Some c ∧ co_main c = f) ∧
    nty_coroutine_resume body i (Rt s ctx) =
      (swapcontext i ≫= λ _, finish i) (Rt s' (<[i := _exec body i]> ctx)).
Proof.
  intros H (c & Hc & Hm & Hst & Hsz & Hnew).
  destruct (l_frame _ _ _ _ _ _ _ _ H) as (_ & _ & _ & _ & Hk & _).
  set (s1 := s <| n_under := n_stack s |> <| n_stack := Some i |>).
  set (s2 := s1 <| n_cos := <[i := c <| co_status := BIT NTY_COROUTINE_STATUS_READY |>]> (n_cos s) |>).
  assert (lib ow None (Some (i, false)) rdy (fr <| f_under := f_stack fr |> <| f_stack := Some i |>) s2) as H2.
  { destruct H as [Hs Hinj Hown Hcur Hrdy Hnd Hnext Hint Hal Hmem Hdep Hfr].
    destruct (Hcur i false eq_refl) as (Hi & _). unfold s2, s1. constructor; nsimp; fsimp; try done.
    - intros k j Hkj. destruct (Hown _ _ Hkj) as (? & ? & c' & ?). split_and!; [done..|]. exists c'.
      rewrite lookup_insert_ne; [done|]. intros ->. by apply (Hi k).
    - intros j b [= <- <-]. split; [done|]. rewrite lookup_insert_eq. eexists. by split_and!.
    - intros j f' Hj. destruct (Hrdy _ _ Hj) as (? & Hjb & c' & ?). split_and!; [done..|]. exists c'.
      rewrite lookup_insert_ne; [done|]. intros ->. by apply (Hjb false).
    - intros j Hj. apply Hnext. destruct (decide (j = i)) as [->|]; [by eexists|].
      by rewrite lookup_insert_ne in Hj by done.
    - destruct Hfr as (? & ? & ? & ? & ? & ?). by rewrite Hk. }
  destruct (lib_curr _ _ _ _ _ _ (Some i) H2) as (s' & Hr & H' & Hcos). exists s'. split; [done|]. split.
  { rewrite Hcos. unfold s2. nsimp. rewrite lookup_insert_eq. eexists. split; [done|]. by nsimp. }
  unfold nty_coroutine_resume. run. rewrite on_n_run, (get_co_run _ _ _ Hc). run.
  replace (has (co_status c) NTY_COROUTINE_STATUS_NEW) with true by (by rewrite Hnew).
  unfold nty_coroutine_init, upd_ctx. run. nsimp. rewrite on_n_run. run. rewrite on_n_run. fold s1.
  rewrite (upd_co_run s1 i c _ Hc). run. rewrite on_n_run.
  change (s1 <| n_cos := <[i := c <| co_status := BIT NTY_COROUTINE_STATUS_READY |>]> (n_cos s1) |>) with s2.
  rewrite Hr. run. done.
Qed.

Lemma exec_run s i c f :
  n_cos s !! i = Some c → co_main c = f → go (_exec body i) s = go (body f ≫= tail i) s.
Proof. intros Hc <-. unfold _exec. run. rewrite (get_co_run _ _ _ Hc). run. done. Qed.

(** *** The parts of a round *)

Lemma lib_tick ow ct cur rdy fr s n :
  lib ow ct cur rdy fr s → lib ow ct cur rdy fr (s <| n_sys := n_sys s <| y_n := n |> |>).
Proof. intros []. constructor; nsimp; tauto. Qed.

Lemma expired_none ow rdy fr s ctx fuel :
  lib ow None None rdy fr s →
  ∃ s', expired_loop body (S fuel) (Rt s ctx) = Ok (tt, Rt s' ctx) ∧ lib ow None None rdy fr s'.
Proof.
  intros H. destruct (lib_sched _ _ _ _ _ _ _ _ H) as (sc & Hs & _ & _ & _ & _ & Hsl & _).
  eexists. split; [|apply lib_tick, H]. cbn [expired_loop]. unfold nty_schedule_expired, nty_coroutine_usec_now.
  run. rewrite on_n_run. run. rewrite (the_sched_run _ _ Hs). run. rewrite Hsl. cbn [rb_min head fmap option_fmap option_map].
  by run.
Qed.

Lemma ready_none ow fr s ctx n o :
  lib ow None None [] fr s → ready_loop body (S n) o (Rt s ctx) = Ok (tt, Rt s ctx).
Proof.
  intros H. destruct (lib_sched _ _ _ _ _ _ _ _ H) as (sc & Hs & _ & _ & Hr & _).
  cbn [ready_loop]. run. rewrite on_n_run, (the_sched_run _ _ Hs). run. by rewrite Hr.
Qed.

(** The first of the queue is taken off it and started. *)
Lemma ready_pop ow rdy fr s ctx n o i f :
  lib ow None None ((i, f) :: rdy) fr s →
  ∃ s', lib ow None (Some (i, false)) rdy fr s' ∧ (∃ c, n_cos s' !! i = Some c ∧ fresh c f) ∧
    ready_loop body (S n) o (Rt s ctx) =
      (_ ← nty_coroutine_resume body i;
       if bool_decide (o = Some i) then mret tt else ready_loop body n o) (Rt s' ctx).
Proof.
  intros [(bi & ss & sp & pf & t & Hs & Ht) Hinj Hown Hcur Hrdy Hnd Hnext Hint Hal Hmem Hdep Hfr].
  destruct (Hrdy i f) as (Hi & _ & c & Hc & Hf); [set_solver|]. destruct Hf as (Hm & Hst & Hsz & Hnew).
  eexists. split_and!; last first.
  - cbn [ready_loop]. run. rewrite on_n_run, (the_sched_run _ _ Hs). run. nsimp. cbn [fmap list_fmap fst].
    run. rewrite on_n_run, (upd_sched_run _ _ _ Hs). run. rewrite on_n_run. erewrite get_co_run by exact Hc. run.
    replace (has (co_status c) NTY_COROUTINE_STATUS_FDEOF) with false by (by rewrite Hnew). run. reflexivity.
  - exists c. split; [exact Hc|]. by split_and!.
  - apply NoDup_cons in Hnd as [Hni Hnd]. constructor; nsimp; try done.
    + by eexists _, _, _, _, _.
    + intros j b [= <- <-]. split; [done|]. exists c. rewrite Hnew. by split_and!.
    + intros j f' Hj. destruct (Hrdy j f') as (? & _ & ?); [set_solver|]. split_and!; [done| |done].
      intros b [= <- _]. apply Hni, list_elem_of_fmap. by exists (i, f').
    + revert Hmem. cbn [blocks length]. lia.
Qed.

(** What [epoll_wait] reports of a batch. *)
Definition reported (ow : gmap Z nat) (evs : list event) : list event :=
  filter (λ e, ev_fd e = efd ∨ is_Some (ow !! ev_fd e)) evs.

(** The next batch, past interrupted calls. *)
Fixpoint skip_interrupts (bs : list wait_res) : list wait_res :=
  match bs with
  | Failed e :: bs' => if e =? EINTR then skip_interrupts bs' else bs
  | _ => bs
  end.

Lemma epoll_run ow fr s evs bs :
  lib ow None None [] fr s → skip_interrupts (f_batches fr) = Ready evs :: bs →
  ∃ s', nty_schedule_epoll s = Ok (0, s') ∧
    lib ow None None [] (fr <| f_evs := reported ow evs |> <| f_num := length (reported ow evs) |>
      <| f_batches := bs |>) s'.
Proof.
  intros [(bi & ss & sp & pf & t & Hs & Ht) Hinj Hown Hcur Hrdy Hnd Hnext Hint Hal Hmem Hdep Hfr] Hb.
  destruct Hfr as (Hbat & Hfr). destruct s as [sc cos nx sk un al [yn clk dep bat ans int out] ap].
  revert Hs Hfr Hbat Hown Hcur Hrdy Hnext Hint Hal Hmem Hdep. nsimp.
  intros -> Hfr -> Hown Hcur Hrdy Hnext Hint Hal Hmem Hdep.
  assert (filter (λ e, is_Some (int !! ev_fd e)) evs = reported ow evs) as Hrep.
  { apply list_filter_iff. intros e. apply Hint. }
  unfold nty_schedule_epoll, upd_sched, nty_schedule_min_timeout, the_sched, nty_coroutine_usec_now. nrun.
  cbn [rb_min head fmap list_fmap option_fmap option_map]. nrun.
  rewrite bool_decide_eq_true_2 by done. cbn [Z.eqb negb andb]. nrun. fsimp. nunf. cbn [fmap list_fmap].
  assert (∀ n bs0, (length bs0 < n)%nat → skip_interrupts bs0 = Ready evs :: bs → 
    epoll_loop n (epoll_time 3000000) (Nty (Some (Schedule bi true ss sp 3000000 None pf efd (f_evs fr) 0 [] [] [] t)) cos nx sk un al
      (NSys (S yn) clk dep bs0 ans int out) ap)
    = Ok (Z.of_nat (length (reported ow evs)), Nty (Some (Schedule bi true ss sp 3000000 None pf efd (reported ow evs) 0 [] [] [] t)) cos nx sk un al
      (NSys (S yn) clk dep bs ans int out) ap)) as Hloop.
  { intros n. induction n as [|n IH]; intros bs0 Hl Hbs; [lia|]. cbn [epoll_loop].
    run. unfold nty_epoller_wait at 1. rewrite bool_decide_eq_false_2 by (apply Zlt_not_le; reflexivity). cbn beta.
    destruct bs0 as [|[evs0|e] bs0]; [done| |].
    - cbn in Hbs. injection Hbs as -> ->. nsimp. rewrite Hrep.
      unfold upd_sched, upd_sys. nrun. rewrite (proj2 (Z.eqb_neq _ (-1))) by lia. by nrun.
    - cbn in Hbs. nsimp. destruct (e =? EINTR) eqn:Ee; [|done]. cbn [Z.eqb Pos.eqb]. apply IH; [cbn in Hl; lia|done]. }
  rewrite Hloop by (done || lia). nrun. rewrite Nat2Z.id. eexists. split; [reflexivity|].
  constructor; nsimp; fsimp; try done. by eexists _, _, _, _, _.
Qed.

Lemma event_run ow rdy fr s ctx n idx ev i :
  lib ow None None rdy fr s → f_num fr = S idx → f_evs fr !! idx = Some ev →
  ow !! ev_fd ev = Some i →
  ∃ s', lib ow (Some i) None rdy
      (fr <| f_num := idx |> <| f_ans := ev_answers ev |> <| f_stack := Some i |>) s' ∧
    event_loop body (S n) (Rt s ctx) =
      ((swapcontext i ≫= λ _, finish i) ≫= λ _, event_loop body n) (Rt s' ctx).
Proof.
  intros H Hnum Hev Hi.
  set (st := if negb (Z.land (ev_events ev) POLLHUP =? 0)
             then Z.lor 0 (BIT NTY_COROUTINE_STATUS_FDEOF) else 0).
  destruct (l_own _ _ _ _ _ _ _ _ H _ _ Hi) as (_ & _ & c & Hc & Hst & Hx).
  destruct H as [(bi & ss & sp & pf & t & Hs & Ht) Hinj Hown Hcur Hrdy Hnd Hnext Hint Hal Hmem Hdep Hfr].
  set (s1 := s <| n_sched := Some (Schedule bi true ss sp 3000000 None pf efd (f_evs fr) idx rdy.*1 [] [] t) |>
               <| n_cos := <[i := c <| co_status := st |>]> (n_cos s) |>
               <| n_sys := n_sys s <| y_answers := ev_answers ev |> |>).
  assert (lib ow None None rdy (fr <| f_num := idx |> <| f_ans := ev_answers ev |>) s1) as H1.
  { unfold s1. constructor; nsimp; fsimp; try done.
    - by eexists _, _, _, _, _.
    - intros k j Hkj. destruct (Hown _ _ Hkj) as (? & ? & c' & ?). split_and!; [done..|].
      destruct (decide (j = i)) as [->|Hne].
      + rewrite lookup_insert_eq. eexists. split_and!; [done..|]. nsimp. unfold st. by destruct (negb _).
      + exists c'. by rewrite lookup_insert_ne by done.
    - intros j f Hj. destruct (Hrdy _ _ Hj) as (Hjo & Hjb & c' & ?). split_and!; [done..|]. exists c'.
      rewrite lookup_insert_ne; [done|]. intros ->. by apply (Hjo (ev_fd ev)).
    - intros j Hj. apply Hnext. destruct (decide (j = i)) as [->|]; [by eexists|].
      by rewrite lookup_insert_ne in Hj by done.
    - tauto. }
  destruct (resume_waiting _ _ _ _ ctx i (c <| co_status := st |>) _ H1 Hi) as (s' & H' & Hr).
  { unfold s1. nsimp. by rewrite lookup_insert_eq. }
  { nsimp. unfold st. by destruct (negb _). }
  exists s'. split; [done|]. rewrite bind_run. rewrite <- Hr.
  cbn [event_loop]. run. rewrite on_n_run, (the_sched_run _ _ Hs). run. nsimp. rewrite Hnum. run.
  rewrite on_n_run, (upd_sched_run _ _ _ Hs). run. nsimp. rewrite Hev. run. rewrite on_n_run.
  unfold nty_schedule_search_wait, the_sched. run. nsimp. run. nsimp. rewrite (rb_find_rep _ _ _ Ht), Hi. run.
  erewrite upd_co_run by exact Hc. run. nsimp. rewrite on_n_run.
  match goal with |- context [(if ?b then upd_co i ?f else mret tt) ?s0] =>
    assert ((if b then upd_co i f else mret tt) s0 = Ok (tt, s0 <| n_cos := <[i := c <| co_status := st |>]> (n_cos s) |>)) as ->
  end.
  { unfold st. destruct (negb _).
    - erewrite upd_co_run by apply lookup_insert_eq. nsimp. by rewrite insert_insert_eq.
    - done. }
  run. rewrite on_n_run. unfold upd_sys. run. reflexivity.
Qed.

Lemma events_done ow rdy fr s ctx n :
  lib ow None None rdy fr s → f_num fr = 0%nat → event_loop body (S n) (Rt s ctx) = Ok (tt, Rt s ctx).
Proof.
  intros H Hn. destruct (lib_sched _ _ _ _ _ _ _ _ H) as (sc & Hs & _ & _ & _ & _ & _ & _ & _ & Hnum).
  cbn [event_loop]. run. rewrite on_n_run, (the_sched_run _ _ Hs). run. by rewrite Hnum, Hn.
Qed.
End scheduler.
