(* ===== verification/NtycoServer.v ===== *)
(** * The coroutine server (src/kv_store/ntyco_entry.c)

    [server] accepts connections and starts a [server_reader] for each, with
    the address of its own variable [cli_fd] as argument.  [ntyco_entry] starts
    the server and runs the scheduler; [kv_main] is the program around it.

    [conn_step] and [serve] describe the same server without coroutines: a
    connection is either waiting for a request or has part of a reply to send,
    and an event moves it on. *)

From S2P Require Import Prelude CRuntime Hash Engine Protocol Coro Server Ntyco NtycoSocket.

(** The functions and arguments coroutines are started with: [port] is what
    the server's argument points to, [owner] the coroutine whose variable the
    reader's argument points to. *)
Inductive fn := Server (port : Z) | Server_reader (owner : nat).

(** The store, the variable [cli_fd] of the server, and what the compiled code
    finds at the address of that variable when a reader has just been started:
    a function of the value last written there and of whether the frames that
    the shared stack held were the server's. *)
Record app (E : Type) := App {
  a_store : world E;
  a_cli_fd : Z;
  a_word : bool → Z → Z;
}.
Arguments App {E} _ _ _.
Arguments a_store {E} _.
Arguments a_cli_fd {E} _.
Arguments a_word {E} _.

Section server.
Context {E : Type} `{!KvEngine E}.
Notation N := (prog (nty fn (app E))).
Notation C := (co (nty fn (app E))).
Notation R := (prog (rt fn (app E))).

Definition on_kv {A} (m : prog (world E) A) : N A := λ s,
  let a := n_app s in
  match m (a_store a) with
  | Ok (x, w) => Ok (x, s <| n_app := App w (a_cli_fd a) (a_word a) |>)
  | Err e => Err e
  end.

Definition set_cli_fd (fd : Z) : N unit :=
  modify (λ s, s <| n_app := App (a_store (n_app s)) fd (a_word (n_app s)) |>).

(** [*(int * )arg] in a reader that has just been started *)
Definition read_arg (owner : nat) : N Z :=
  gets (λ s, a_word (n_app s) (bool_decide (n_under s = Some owner)) (a_cli_fd (n_app s))).

(** [struct conn_item item = {0}] with the bytes received. *)
Definition item_of (bs : list Z) : conn_item :=
  set_rbuffer (recv_into (rbuffer conn_zero) bs) conn_zero.

(** A request and the reply to send. *)
Definition answer_request (bs : list Z) : prog (world E) (list Z) :=
  '(_, item) ← kvstore_request (item_of bs);
  n ← wbuffer_len item;
  mret (take (Z.to_nat n) (wbuffer item)).

(* src/kv_store/ntyco_entry.c:20-43 server_reader *)
(** The loop.  Every iteration waits in [recv], so the bound is on how often
    the coroutine is resumed.  The [printf] for descriptors above
    [MAX_CLIENT_NUM] is left out. *)
Fixpoint reader_loop (fuel : nat) (fd : Z) : C unit :=
  match fuel with
  | O => act (stop OutOfFuel)
  | S fuel' =>
      r ← recv fd BUFFER_LENGTH;
      match r with
      | RBytes bs =>
          buf ← act (on_kv (answer_request bs));
          ret ← send fuel' fd buf;
          if ret =? -1 then act (close fd) else reader_loop fuel' fd
      | REof => act (close fd)
      | RErr => reader_loop fuel' fd
      end
  end.

(* src/kv_store/ntyco_entry.c server_reader *)
Definition server_reader (fuel : nat) (owner : nat) : C unit :=
  fd ← act (read_arg owner);
  reader_loop fuel fd.

(* src/kv_store/ntyco_entry.c:68-84 server *)
(** The loop; the time report is left out. *)
Fixpoint server_loop (fuel : nat) (fd : Z) : C unit :=
  match fuel with
  | O => act (stop OutOfFuel)
  | S fuel' =>
      cli_fd ← accept fuel' fd;
      _ ← act (set_cli_fd cli_fd);
      owner ← act current;
      _ ← act (nty_coroutine_create (Server_reader owner));
      server_loop fuel' fd
  end.

(* src/kv_store/ntyco_entry.c server *)
(** The results of [bind] and [listen] are ignored. *)
Definition server (fuel : nat) : C unit :=
  _ ← act nfree;
  fd ← act nty_socket;
  if fd <? 0 then mret tt else server_loop fuel fd.

Definition body (fuel : nat) (f : fn) : C unit :=
  match f with
  | Server _ => server fuel
  | Server_reader owner => server_reader fuel owner
  end.

(* src/kv_store/ntyco_entry.c:91-98 ntyco_entry *)
Definition ntyco_start : N unit :=
  got ← nmalloc;
  if negb got then stop NullDeref else
  _ ← nty_coroutine_create (Server 9096);
  mret tt.

(* src/kv_store/ntyco_entry.c ntyco_entry *)
(** [fuel] bounds the iterations of a coroutine, [n] the rounds of the
    scheduler. *)
Definition ntyco_entry (fuel n : nat) : R Z :=
  _ ← on_n ntyco_start;
  _ ← nty_schedule_run (body fuel) fuel n;
  mret 0.
End server.

(* src/kv_store/kv_store.c:217-230 main *)
(** The shipped configuration: the coroutine server in front of the hash
    engine. *)
Definition kv_main (fuel n : nat) : prog (rt fn (app hashtable_t)) Z :=
  _ ← on_n (on_kv init_kvengine);
  _ ← ntyco_entry fuel n;
  _ ← on_n (on_kv exit_kvengine);
  mret 0.

(* src/kv_store/kv_store.c:217-226 main *)
(** [kv_main] up to the end of the [n]-th round of the scheduler. *)
Definition kv_main_rounds (fuel f n : nat) : prog (rt fn (app hashtable_t)) bool :=
  _ ← on_n (on_kv init_kvengine);
  _ ← on_n ntyco_start;
  schedule_rounds (body fuel) f n.

(** ** The server without coroutines *)

Inductive conn_state :=
  | Reading
  (** a reply of which [sent] bytes have gone out *)
  | Writing (buf : list Z) (sent : nat).

Record srv (E : Type) := Srv {
  conns : gmap Z conn_state;
  v_store : world E;
  v_out : list (Z * output);
}.
Arguments Srv {E} _ _ _.
Arguments conns {E} _.
Arguments v_store {E} _.
Arguments v_out {E} _.

Section spec.
Context {E : Type} `{!KvEngine E}.

(** What becomes of a connection, the store, and what goes out on the
    connection, when it is woken. *)
Definition conn_step (st : conn_state) (l : list answer) (w : world E)
    : result (option conn_state * world E * list output) :=
  let '(a, l) := next_answer l in
  match st with
  | Reading =>
      match (recv_answer BUFFER_LENGTH a).1 with
      | REof => Ok (None, w, [Closed])
      | RErr => Ok (Some Reading, w, [])
      | RBytes bs =>
          '(buf, w) ← answer_request bs w;
          let r := (send_answer buf (next_answer l).1).1 in
          let sent := Z.to_nat r in
          let out := chunk (take sent buf) in
          if r =? 0 then Ok (Some Reading, w, out)
          else if bool_decide (length buf ≤ sent)%nat then
            if r =? -1 then Ok (None, w, out ++ [Closed]) else Ok (Some Reading, w, out)
          else Ok (Some (Writing buf sent), w, out)
      end
  | Writing buf sent =>
      let r := (send_answer (drop sent buf) a).1 in
      let out := chunk (take (Z.to_nat r) (drop sent buf)) in
      if r <=? 0 then
        if (r =? -1) && bool_decide (sent = 0%nat) then Ok (None, w, out ++ [Closed])
        else Ok (Some Reading, w, out)
      else if bool_decide (length buf ≤ sent + Z.to_nat r)%nat then Ok (Some Reading, w, out)
      else Ok (Some (Writing buf (sent + Z.to_nat r)), w, out)
  end.

(** One event, with the listening descriptor [lst] and the scheduler's
    [eventfd] [efd].  [serve_stray]: not one of the server's descriptors. *)
Inductive serve (lst efd : Z) : srv E → event → srv E → Prop :=
  | serve_conn v ev st st' w out :
      ev_fd ev ≠ lst →
      conns v !! ev_fd ev = Some st →
      conn_step st (ev_answers ev) (v_store v) = Ok (st', w, out) →
      serve lst efd v ev
        (Srv (partial_alter (λ _, st') (ev_fd ev) (conns v)) w (v_out v ++ (pair (ev_fd ev) <$> out)))
  | serve_again v ev :
      ev_fd ev = lst →
      (next_answer (ev_answers ev)).1 = AErr EAGAIN →
      serve lst efd v ev v
  | serve_stray v ev :
      ev_fd ev ≠ lst → ev_fd ev ≠ efd →
      conns v !! ev_fd ev = None →
      serve lst efd v ev v.

(** A connection is accepted: the kernel's descriptor is a new one, and
    [fcntl] succeeds. *)
Inductive accepts (lst efd : Z) : srv E → event → Z → srv E → Prop :=
  | accepts_intro v ev fd l :
      ev_fd ev = lst →
      ev_answers ev = AVal fd :: l → 0 ≤ fd → fd ≠ lst → fd ≠ efd → conns v !! fd = None →
      (match (next_answer l).1 with AVal r => r ≠ -1 | AData _ => True | AErr _ => False end) →
      accepts lst efd v ev fd (Srv (<[fd := Reading]> (conns v)) (v_store v) (v_out v)).

(** The events of one batch, in the order they are handled; a connection is
    accepted at the end of a batch or not at all. *)
Inductive serve_batch (lst efd : Z) : srv E → list event → option Z → srv E → Prop :=
  | batch_nil v : serve_batch lst efd v [] None v
  | batch_accept v ev fd v' :
      accepts lst efd v ev fd v' → serve_batch lst efd v [ev] (Some fd) v'
  | batch_cons v ev v' evs p v'' :
      serve lst efd v ev v' → serve_batch lst efd v' evs p v'' →
      serve_batch lst efd v (ev :: evs) p v''.

(** The batches of a run.  The kernel reports a descriptor once in a batch;
    [epoll_wait] writes events from the first to the last, the scheduler handles
    them from the last to the first. *)
Inductive serve_all (lst efd : Z) : srv E → list (list event) → srv E → Prop :=
  | all_nil v : serve_all lst efd v [] v
  | all_cons v evs p v' bs v'' :
      NoDup (ev_fd <$> evs) → serve_batch lst efd v (rev evs) p v' →
      serve_all lst efd v' bs v'' → serve_all lst efd v (evs :: bs) v''.
End spec.
