(* ===== verification/NtycoSim.v ===== *)
(** * The coroutine server does what the server without coroutines does

    The rest of a parked coroutine is a program; [reading], [writing] and
    [listening] are the ones the server and its readers leave behind.  Waking
    one of them is a [conn_step], respectively an accepted connection. *)

From S2P Require Import Prelude CRuntime Engine Protocol Coro Server Ntyco NtycoSocket.
From S2P Require Import NtycoFacts NtycoRun NtycoServer.

Section sim.
Context {E : Type} `{!KvEngine E} (efd base : Z).
Notation W := (app E).
Notation C := (co (nty fn W)).
Notation lib := (lib (F := fn) (W := W) efd base).
Implicit Types (s : nty fn W) (ow : gmap Z nat) (fr : frame W) (rdy : list (nat * fn)).

(** ** Parked programs *)

Definition recv_k (len : nat) : Z → C recv_res := λ _, '(r, errno) ← act (recv_f len); mret r.

Definition after_send (n : nat) (fd : Z) : Z → C unit := λ ret,
  if ret =? -1 then act (close fd) else reader_loop n fd.

Definition reader_k (n : nat) (fd : Z) : recv_res → C unit := λ r,
  match r with
  | RBytes bs => buf ← act (on_kv (answer_request bs)); send n fd buf ≫= after_send n fd
  | REof => act (close fd)
  | RErr => reader_loop n fd
  end.

(** A reader that waits for a request. *)
Definition reading (n : nat) (fd : Z) : C unit :=
  (poll_rest fd IN_EVENTS ≫= recv_k BUFFER_LENGTH) ≫= reader_k n fd.

Definition send_loop_k (m : nat) (fd : Z) (buf : list Z) (sent : nat) : Z → C (Z * nat) := λ _,
  ret ← send_call fd (drop sent buf);
  if ret <=? 0 then mret (ret, sent)
  else send_loop (send_call fd) m fd buf (sent + Z.to_nat ret) ret.

Definition stream_k : Z * nat → C Z := λ '(ret, sent),
  if (ret <=? 0) && bool_decide (sent = 0%nat) then mret ret else mret (Z.of_nat sent).

(** A reader that waits to send the rest of a reply. *)
Definition writing (m n : nat) (fd : Z) (buf : list Z) (sent : nat) : C unit :=
  ((poll_rest fd OUT_EVENTS ≫= send_loop_k m fd buf sent) ≫= stream_k) ≫= after_send n fd.

Definition accept_loop_k (m : nat) (fd : Z) : Z → C Z := λ _,
  '(sockfd, errno) ← act sys_number;
  if sockfd <? 0 then if errno =? EAGAIN then accept_loop m fd else mret (-1)
  else mret sockfd.

Definition accept_k : Z → C Z := λ sockfd,
  if sockfd <? 0 then mret (-1) else
  '(ret, _) ← act sys_number;
  if ret =? -1 then _ ← act (close sockfd); mret (-1) else
  mret sockfd.

Definition server_k (n : nat) (fd : Z) : Z → C unit := λ cli_fd,
  _ ← act (set_cli_fd cli_fd);
  owner ← act current;
  _ ← act (nty_coroutine_create (Server_reader owner));
  server_loop n fd.

(** The server that waits for a connection. *)
Definition listening (m n : nat) (fd : Z) : C unit :=
  ((poll_rest fd IN_EVENTS ≫= accept_loop_k m fd) ≫= accept_k) ≫= server_k n fd.

(** The program of a connection that can be woken [k] times. *)
Definition cont (k : nat) (st : conn_state) (fd : Z) (c : C unit) : Prop :=
  match st with
  | Reading => ∃ n, (k ≤ n)%nat ∧ c = reading n fd
  | Writing buf sent => ∃ m n, (k ≤ m)%nat ∧ (k ≤ n)%nat ∧ c = writing m n fd buf sent
  end.

Lemma in_events_wait : waits_for IN_EVENTS.
Proof. by left. Qed.
Lemma out_events_wait : waits_for OUT_EVENTS.
Proof. by right. Qed.

(** ** Running up to a wait *)

Section running.
Context (ow : gmap Z nat) (i : nat) (b : bool) (rdy : list (nat * fn)) (fr : frame W) (s : nty fn W) (fd : Z).
Context (Hlib : lib ow (Some i) (Some (i, b)) rdy fr s).
Context (Hfd : 0 ≤ fd) (Hne : fd ≠ efd) (Hn : ow !! fd = None).

Lemma sched_there : ∃ sc, nty_coroutine_get_sched s = Ok (Some sc, s).
Proof.
  destruct (lib_sched _ _ _ _ _ _ _ _ Hlib) as (sc & Hs & _). exists sc.
  unfold nty_coroutine_get_sched. run. by rewrite Hs.
Qed.

Lemma reader_parks n :
  ∃ s', go (reader_loop (S n) fd) s = Ok (inr (reading n fd), s') ∧
    lib (<[fd := i]> ow) (Some i) None rdy fr s'.
Proof.
  destruct (park _ _ _ _ _ _ _ _ _ _ Hlib Hfd Hne Hn in_events_wait) as (s' & Hp & H').
  exists s'. split; [|done]. cbn [reader_loop]. unfold recv, stream_in, wait_in.
  destruct sched_there as [sc Hsc]. run. rewrite Hsc. run. cbn [null]. run. rewrite Hp. run. reflexivity.
Qed.

Lemma send_parks call m buf sent ret :
  (sent < length buf)%nat →
  ∃ s', go (send_loop call (S m) fd buf sent ret) s =
      Ok (inr (poll_rest fd OUT_EVENTS ≫= λ _, ret ← call (drop sent buf);
          if ret <=? 0 then mret (ret, sent)
          else send_loop call m fd buf (sent + Z.to_nat ret) ret), s') ∧
    lib (<[fd := i]> ow) (Some i) None rdy fr s'.
Proof.
  intros Hs. destruct (park _ _ _ _ _ _ _ _ _ _ Hlib Hfd Hne Hn out_events_wait) as (s' & Hp & H').
  exists s'. split; [|done]. cbn [send_loop]. rewrite bool_decide_eq_false_2 by lia.
  unfold wait_out. run. rewrite Hp. reflexivity.
Qed.

Lemma server_parks n :
  ∃ s', go (server_loop (S (S n)) fd) s = Ok (inr (listening n (S n) fd), s') ∧
    lib (<[fd := i]> ow) (Some i) None rdy fr s'.
Proof.
  destruct (park _ _ _ _ _ _ _ _ _ _ Hlib Hfd Hne Hn in_events_wait) as (s' & Hp & H').
  exists s'. split; [|done]. cbn [server_loop]. unfold accept, wait_in. cbn [accept_loop].
  destruct sched_there as [sc Hsc]. run. rewrite Hsc. run. cbn [null]. run. unfold wait_in.
  run. rewrite Hp. run. reflexivity.
Qed.

Lemma accept_parks m :
  ∃ s', go (accept_loop (S m) fd) s = Ok (inr (poll_rest fd IN_EVENTS ≫= accept_loop_k m fd), s') ∧
    lib (<[fd := i]> ow) (Some i) None rdy fr s'.
Proof.
  destruct (park _ _ _ _ _ _ _ _ _ _ Hlib Hfd Hne Hn in_events_wait) as (s' & Hp & H').
  exists s'. split; [|done]. cbn [accept_loop]. unfold wait_in. run. rewrite Hp. reflexivity.
Qed.
End running.

(** ** Waking a connection *)

Lemma store_call_run {A} (m : prog (world E) A) ow ct cur rdy fr s x w :
  lib ow ct cur rdy fr s → m (a_store (f_app fr)) = Ok (x, w) →
  ∃ s', on_kv m s = Ok (x, s') ∧
    lib ow ct cur rdy (fr <| f_app := App w (a_cli_fd (f_app fr)) (a_word (f_app fr)) |>) s'.
Proof.
  intros H Hm. destruct (l_frame _ _ _ _ _ _ _ _ H) as (_ & _ & _ & Ha & _).
  unfold on_kv. rewrite Ha, Hm. eexists. split; [reflexivity|]. by apply lib_app.
Qed.

Lemma send_call_run ow ct cur rdy fr s fd buf :
  lib ow ct cur rdy fr s →
  let r := (send_answer buf (next_answer (f_ans fr)).1).1 in
  ∃ s', go (send_call fd buf) s = Ok (inl r, s') ∧
    lib ow ct cur rdy (fr <| f_ans := (next_answer (f_ans fr)).2 |>
      <| f_out := f_out fr ++ sent_out fd (take (Z.to_nat r) buf) |>) s'.
Proof.
  intros H r. destruct (send_f_run _ _ _ _ _ _ _ _ fd buf H) as (s' & Hr & H').
  exists s'. split; [|done]. unfold send_call. run. rewrite Hr. unfold r. destruct (send_answer _ _). by run.
Qed.

(** Where the state ends up: parked again, or at the end of the reader. *)
Definition woken (k : nat) (i : nat) (fd : Z) (ow : gmap Z nat) (rdy : list (nat * fn)) (fr : frame W)
    (st' : option conn_state) (w : world E) (out : list output) (c : C unit) (s : nty fn W) : Prop :=
  ∃ l s', let fr' := fr <| f_ans := l |> <| f_out := f_out fr ++ (pair fd <$> out) |>
                       <| f_app := App w (a_cli_fd (f_app fr)) (a_word (f_app fr)) |> in
  match st' with
  | Some st' => ∃ c', go c s = Ok (inr c', s') ∧ cont k st' fd c' ∧ lib (<[fd := i]> ow) (Some i) None rdy fr' s'
  | None => go c s = Ok (inl tt, s') ∧ lib ow (Some i) (Some (i, true)) rdy fr' s'
  end.

Section waking.
Context (ow : gmap Z nat) (i : nat) (rdy : list (nat * fn)) (fd : Z).
Context (Hfd : 0 ≤ fd) (Hne : fd ≠ efd) (Hn : ow !! fd = None).

(** The end of a send, with [ret] as its result. *)
Lemma after_send_run k n fr s l out w ret :
  (k < n)%nat →
  lib ow (Some i) (Some (i, true)) rdy (fr <| f_ans := l |> <| f_out := f_out fr ++ (pair fd <$> out) |>
    <| f_app := App w (a_cli_fd (f_app fr)) (a_word (f_app fr)) |>) s →
  woken k i fd ow rdy fr (if ret =? -1 then None else Some Reading) w
    (out ++ (if ret =? -1 then [Closed] else [])) (after_send n fd ret) s.
Proof.
  intros Hk H. unfold after_send. destruct (ret =? -1).
  - destruct (close_run _ _ _ _ _ _ _ _ fd H Hne Hn) as (s' & Hc & H'). exists l, s'. cbn zeta. run.
    rewrite Hc. split; [done|]. revert H'. fsimp. by rewrite fmap_app, app_assoc.
  - destruct n as [|n]; [lia|].
    destruct (reader_parks _ _ _ _ _ _ _ H Hfd Hne Hn n) as (s' & Hp & H').
    exists l, s'. eexists. split; [exact Hp|]. split; [exists n; split; [lia|done]|].
    by rewrite app_nil_r.
Qed.

Lemma send_loop_done (call : list Z → C Z) m buf sent ret s :
  (length buf ≤ sent)%nat → go (send_loop call m fd buf sent ret) s = Ok (inl (ret, sent), s).
Proof. intros H. destruct m; cbn [send_loop]; by rewrite bool_decide_eq_true_2 by done. Qed.

(** The loop of [send] from its test, and the end of the send. *)
Lemma send_loop_run k m n fr s l out w buf sent ret :
  (k < m)%nat → (k < n)%nat → (0 < ret ∨ sent = 0%nat ∧ ret = -1) →
  lib ow (Some i) (Some (i, true)) rdy (fr <| f_ans := l |> <| f_out := f_out fr ++ (pair fd <$> out) |>
    <| f_app := App w (a_cli_fd (f_app fr)) (a_word (f_app fr)) |>) s →
  let c := (send_loop (send_call fd) m fd buf sent ret ≫= stream_k) ≫= after_send n fd in
  if bool_decide (length buf ≤ sent)%nat then
    if ret =? -1 then woken k i fd ow rdy fr None w (out ++ [Closed]) c s
    else woken k i fd ow rdy fr (Some Reading) w out c s
  else woken k i fd ow rdy fr (Some (Writing buf sent)) w out c s.
Proof.
  intros Hm Hk Hret H c. case_bool_decide as Hd.
  - assert (∀ s', go c s' = go (after_send n fd (if ret =? -1 then -1 else Z.of_nat sent)) s') as Hg.
    { intros s'. unfold c. run. rewrite send_loop_done by done. run. cbn [stream_k]. destruct (ret =? -1) eqn:Er; b2p.
      - subst. destruct Hret as [?|[-> _]]; [lia|]. rewrite bool_decide_eq_true_2 by done. by run.
      - assert (0 < ret) by (destruct Hret as [?|[_ ?]]; lia).
        rewrite (proj2 (Z.leb_gt ret 0)) by done. by run. }
    pose proof (after_send_run k n fr s l out w (if ret =? -1 then -1 else Z.of_nat sent) Hk H) as Ha.
    destruct (ret =? -1); [cbn [Z.eqb Pos.eqb] in Ha|].
    + unfold woken in *. destruct Ha as (l' & s' & Ha). exists l', s'. by rewrite Hg.
    + rewrite (proj2 (Z.eqb_neq (Z.of_nat sent) (-1))), app_nil_r in Ha by lia.
      unfold woken in *. destruct Ha as (l' & s' & Ha). exists l', s'. by rewrite Hg.
  - destruct m as [|m]; [lia|].
    destruct (send_parks _ _ _ _ _ _ _ H Hfd Hne Hn (send_call fd) m buf sent ret) as (s' & Hp & H'); [lia|].
    exists l, s'. eexists. split; [unfold c; run; rewrite Hp; run; reflexivity|].
    split; [|done]. exists m, n. split_and!; [lia..|]. reflexivity.
Qed.
End waking.

Lemma frame_same fr l fd :
  fr <| f_ans := l |> =
  fr <| f_ans := l |> <| f_out := f_out fr ++ (pair fd <$> []) |>
     <| f_app := App (a_store (f_app fr)) (a_cli_fd (f_app fr)) (a_word (f_app fr)) |>.
Proof. destruct fr as [? ? ? ? ? [] ? ?]. cbn. by rewrite app_nil_r. Qed.

Lemma woken_go k i fd ow rdy fr st' w out c c2 s s2 :
  go c s = go c2 s2 → woken k i fd ow rdy fr st' w out c2 s2 → woken k i fd ow rdy fr st' w out c s.
Proof. intros Hg (l & s' & H). exists l, s'. by rewrite Hg. Qed.

Lemma send_answer_range buf a :
  let r := (send_answer buf a).1 in r = -1 ∨ 0 ≤ r ≤ Z.of_nat (length buf).
Proof. destruct a; cbn; lia. Qed.

(** Waking a connection that waits for a request. *)
Lemma reading_wakes k fd i ow rdy fr s c st' w out :
  lib ow (Some i) None rdy fr s → ow !! fd = Some i → cont (S k) Reading fd c →
  conn_step Reading (f_ans fr) (a_store (f_app fr)) = Ok (st', w, out) →
  woken k i fd (delete fd ow) rdy fr st' w out c s.
Proof.
  intros H Hi Hc Hstep. destruct (l_own _ _ _ _ _ _ _ _ H _ _ Hi) as (Hfd & Hne & _).
  pose proof (lookup_delete_eq ow fd) as Hn. unfold conn_step in Hstep.
  destruct (next_answer (f_ans fr)) as [a l] eqn:Ea.
  destruct Hc as (n & Hk & ->).
  destruct (wake _ _ _ _ _ _ _ _ IN_EVENTS H Hi) as (s1 & Hw & H1).
  destruct (recv_f_run _ _ _ _ _ _ _ _ BUFFER_LENGTH H1) as (s2 & Hr & H2). rewrite Ea in Hr, H2. cbn [fst snd] in Hr, H2.
  destruct (recv_answer BUFFER_LENGTH a) as [r e] eqn:Er. cbn [fst] in Hstep.
  apply (woken_go _ _ _ _ _ _ _ _ _ _ (reader_k n fd r) s s2).
  { unfold reading. run. rewrite Hw. unfold recv_k. run. rewrite Hr. by run. }
  rewrite (frame_same _ _ fd) in H2. destruct r as [bs| |]; cbn [reader_k].
  + destruct (answer_request bs (a_store (f_app fr))) as [[buf w1]|] eqn:Eq; cbn in Hstep; [|done].
    destruct (store_call_run (answer_request bs) _ _ _ _ _ _ _ _ H2 Eq) as (s3 & Hkv & H3).
    destruct (send_call_run _ _ _ _ _ _ fd buf H3) as (s4 & Hs & H4). cbn zeta in Hs, H4.
    revert Hs H4. fsimp. set (r := (send_answer buf (next_answer l).1).1). intros Hs H4.
    assert (r = -1 ∨ 0 ≤ r ≤ Z.of_nat (length buf)) as Hrange by apply send_answer_range.
    fold r in Hstep. unfold sent_out in H4. rewrite <- app_assoc, <- fmap_app in H4. rewrite app_nil_l in H4.
    destruct (sched_there _ _ _ _ _ _ H3) as [sc Hsc].
    assert (go (buf ← act (on_kv (answer_request bs)); send n fd buf ≫= after_send n fd) s2 =
      if r =? 0 then go (after_send n fd r) s4 else
      go ((send_loop (send_call fd) n fd buf (if 0 <? r then Z.to_nat r else 0%nat) r ≫= stream_k)
           ≫= after_send n fd) s4) as Hgo.
    { run. rewrite Hkv. run. unfold send. run. rewrite Hsc. run. cbn [null]. unfold stream_out. run.
      rewrite Hs. run. destruct (r =? 0); by run. }
    destruct (r =? 0) eqn:Er0; b2p.
    * injection Hstep as <- <- <-.
      pose proof (after_send_run _ i rdy fd Hfd Hne Hn k n fr s4 _ _ _ r Hk H4) as Ha.
      rewrite Er0 in Ha. cbn [Z.eqb] in Ha. rewrite app_nil_r in Ha.
      eapply woken_go; [rewrite Hgo; reflexivity|]. rewrite Er0. exact Ha.
    * assert ((if 0 <? r then Z.to_nat r else 0%nat) = Z.to_nat r) as Es by (destruct (0 <? r) eqn:?; b2p; lia).
      rewrite Es in Hgo.
      pose proof (send_loop_run _ i rdy fd Hfd Hne Hn k n n fr s4 _ _ _ buf (Z.to_nat r) r Hk Hk ltac:(lia) H4) as Ha.
      cbn zeta in Ha. case_bool_decide; [destruct (r =? -1)|]; injection Hstep as <- <- <-;
        (eapply woken_go; [exact Hgo|exact Ha]).
  + injection Hstep as <- <- <-. 
    pose proof (after_send_run _ i rdy fd Hfd Hne Hn k n fr s2 _ _ _ (-1) Hk H2) as Ha. exact Ha.
  + injection Hstep as <- <- <-.
    pose proof (after_send_run _ i rdy fd Hfd Hne Hn k n fr s2 _ _ _ 0 Hk H2) as Ha. exact Ha.
Qed.

(** Waking a connection with a reply to send. *)
Lemma writing_wakes k buf sent fd i ow rdy fr s c st' w out :
  lib ow (Some i) None rdy fr s → ow !! fd = Some i → cont (S k) (Writing buf sent) fd c →
  conn_step (Writing buf sent) (f_ans fr) (a_store (f_app fr)) = Ok (st', w, out) →
  woken k i fd (delete fd ow) rdy fr st' w out c s.
Proof.
  intros H Hi Hc Hstep. destruct (l_own _ _ _ _ _ _ _ _ H _ _ Hi) as (Hfd & Hne & _).
  pose proof (lookup_delete_eq ow fd) as Hn. unfold conn_step in Hstep.
  destruct (next_answer (f_ans fr)) as [a l] eqn:Ea.
  destruct Hc as (m & n & Hm & Hk & ->).
  destruct (wake _ _ _ _ _ _ _ _ OUT_EVENTS H Hi) as (s1 & Hw & H1).
  destruct (send_call_run _ _ _ _ _ _ fd (drop sent buf) H1) as (s2 & Hs & H2). cbn zeta in Hs, H2.
  rewrite Ea in Hs, H2. cbn [fst snd] in Hs, H2. unfold sent_out in H2.
  set (r := (send_answer (drop sent buf) a).1) in *.
  assert (r = -1 ∨ 0 ≤ r ≤ Z.of_nat (length (drop sent buf))) as Hrange by apply send_answer_range.
  assert (go (writing m n fd buf sent) s =
    if r <=? 0 then go (stream_k (r, sent) ≫= after_send n fd) s2 else
    go ((send_loop (send_call fd) m fd buf (sent + Z.to_nat r) r ≫= stream_k) ≫= after_send n fd) s2) as Hgo.
  { unfold writing, send_loop_k. run. rewrite Hw. run. rewrite Hs. run. destruct (r <=? 0); by run. }
  assert (fr <| f_ans := l |> <| f_out := f_out fr ++ (pair fd <$> chunk (take (Z.to_nat r) (drop sent buf))) |> =
    fr <| f_ans := l |> <| f_out := f_out fr ++ (pair fd <$> chunk (take (Z.to_nat r) (drop sent buf))) |>
    <| f_app := App (a_store (f_app fr)) (a_cli_fd (f_app fr)) (a_word (f_app fr)) |>) as Ef
    by (destruct fr as [? ? ? ? ? [] ? ?]; reflexivity).
  rewrite Ef in H2. destruct (r <=? 0) eqn:Er0; b2p.
  + eapply woken_go; [exact Hgo|].
    set (ret := if bool_decide (sent = 0%nat) then r else Z.of_nat sent).
    pose proof (after_send_run _ i rdy fd Hfd Hne Hn k n fr s2 _ _ _ ret Hk H2) as Ha.
    eapply woken_go; [|].
    { run. cbn [stream_k]. rewrite (proj2 (Z.leb_le r 0)) by lia. cbn [andb].
      instantiate (1 := s2). instantiate (1 := after_send n fd ret). unfold ret. case_bool_decide; by run. }
    unfold ret in *. case_bool_decide as E0; [destruct (r =? -1) eqn:E1|]; cbn [andb] in Hstep.
    * injection Hstep as <- <- <-. exact Ha.
    * injection Hstep as <- <- <-. by rewrite app_nil_r in Ha.
    * rewrite andb_false_r in Hstep. injection Hstep as <- <- <-.
      rewrite (proj2 (Z.eqb_neq (Z.of_nat sent) (-1))), app_nil_r in Ha by lia. exact Ha.
  + pose proof (send_loop_run _ i rdy fd Hfd Hne Hn k m n fr s2 _ _ _ buf (sent + Z.to_nat r) r Hm Hk ltac:(lia) H2) as Ha.
    cbn zeta in Ha. rewrite (proj2 (Z.eqb_neq r (-1))) in Ha by lia.
    case_bool_decide; injection Hstep as <- <- <-; (eapply woken_go; [exact Hgo|exact Ha]).
Qed.

(** Waking a connection is a [conn_step]. *)
Lemma conn_wakes k st fd i ow rdy fr s c st' w out :
  lib ow (Some i) None rdy fr s → ow !! fd = Some i → cont (S k) st fd c →
  conn_step st (f_ans fr) (a_store (f_app fr)) = Ok (st', w, out) →
  woken k i fd (delete fd ow) rdy fr st' w out c s.
Proof.
  destruct st; [apply reading_wakes|apply writing_wakes].
Qed.

(** ** Waking the server *)

Lemma number_run ow ct cur rdy fr s :
  lib ow ct cur rdy fr s →
  ∃ s', sys_number s = Ok (match (next_answer (f_ans fr)).1 with
      | AVal v => (v, 0) | AData bs => (Z.of_nat (length bs), 0) | AErr e => (-1, e) end, s') ∧
    lib ow ct cur rdy (fr <| f_ans := (next_answer (f_ans fr)).2 |>) s'.
Proof.
  intros H. destruct (answer_run _ _ _ _ _ _ _ _ H) as (s' & Hr & H'). exists s'. split; [|done].
  unfold sys_number. run. by rewrite Hr.
Qed.

(** Nothing to accept: the server waits again. *)
Lemma server_again k m n lst i ow rdy fr s :
  lib ow (Some i) None rdy fr s → ow !! lst = Some i → (k < m)%nat →
  (next_answer (f_ans fr)).1 = AErr EAGAIN →
  ∃ m' l s', go (listening m n lst) s = Ok (inr (listening m' n lst), s') ∧ (k ≤ m')%nat ∧
    lib ow (Some i) None rdy (fr <| f_ans := l |>) s'.
Proof.
  intros H Hi Hm Ha. destruct (l_own _ _ _ _ _ _ _ _ H _ _ Hi) as (Hfd & Hne & _).
  destruct (wake _ _ _ _ _ _ _ _ IN_EVENTS H Hi) as (s1 & Hw & H1).
  destruct (number_run _ _ _ _ _ _ H1) as (s2 & Hr & H2). rewrite Ha in Hr.
  destruct m as [|m]; [lia|].
  destruct (accept_parks _ _ _ _ _ _ _ H2 Hfd Hne (lookup_delete_eq ow lst) m) as (s3 & Hp & H3).
  exists m, (next_answer (f_ans fr)).2, s3. split_and!; [|lia|by rewrite insert_delete_id in H3].
  unfold listening, accept_loop_k at 1. run. rewrite Hw. run. rewrite Hr. run. cbn [Z.ltb Z.compare].
  rewrite Z.eqb_refl, Hp. by run.
Qed.

(** A connection: the variable [cli_fd] is set, a reader is created with its
    address, and the server waits again. *)
Lemma server_accepts k m n lst i ow fr s fd l :
  lib ow (Some i) None [] fr s → ow !! lst = Some i → (S k < n)%nat →
  f_ans fr = AVal fd :: l → 0 ≤ fd →
  (match (next_answer l).1 with AVal r => r ≠ -1 | AData _ => True | AErr _ => False end) →
  ∃ j m' n' l' s', go (listening m n lst) s = Ok (inr (listening m' n' lst), s') ∧
    (k ≤ m')%nat ∧ (S k ≤ n')%nat ∧
    lib ow (Some i) None [(j, Server_reader i)]
      (fr <| f_ans := l' |> <| f_app := App (a_store (f_app fr)) fd (a_word (f_app fr)) |>) s'.
Proof.
  intros H Hi Hn Ha Hfd Hfc. destruct (l_own _ _ _ _ _ _ _ _ H _ _ Hi) as (Hlst & Hne & _).
  destruct (wake _ _ _ _ _ _ _ _ IN_EVENTS H Hi) as (s1 & Hw & H1).
  destruct (number_run _ _ _ _ _ _ H1) as (s2 & Hr & H2). rewrite Ha in Hr, H2. cbn [next_answer fst snd] in Hr, H2.
  destruct (number_run _ _ _ _ _ _ H2) as (s3 & Hf & H3). fsimp. revert Hf H3. fsimp. intros Hf H3.
  set (x := App (a_store (f_app fr)) fd (a_word (f_app fr))).
  pose proof (lib_app _ _ _ _ _ _ _ _ x H3) as H4.
  destruct (spawn_run _ _ _ _ _ _ _ _ (Server_reader i) H4) as (j & s5 & Hc & H5).
  destruct n as [|[|n]]; [lia..|].
  destruct (server_parks _ _ _ _ _ _ _ H5 Hlst Hne (lookup_delete_eq ow lst) n) as (s6 & Hp & H6).
  exists j, n, (S n), (next_answer l).2, s6. rewrite insert_delete_id in H6 by done.
  split_and!; [|lia|lia|exact H6].
  assert (set_cli_fd fd s3 = Ok (tt, s3 <| n_app := x |>)) as Hset.
  { destruct (l_frame _ _ _ _ _ _ _ _ H3) as (_ & _ & _ & Happ & _). unfold set_cli_fd. run.
    unfold x. revert Happ. fsimp. by intros ->. }
  assert (current (s3 <| n_app := x |>) = Ok (i, s3 <| n_app := x |>)) as Hcur.
  { destruct (lib_sched _ _ _ _ _ _ _ _ H4) as (sc & Hs & _ & Hct & _). unfold current. run.
    rewrite (the_sched_run _ _ Hs). run. by rewrite Hct. }
  unfold listening, accept_loop_k, accept_k, server_k. run. rewrite Hw. run. rewrite Hr. run.
  rewrite (proj2 (Z.ltb_ge fd 0)) by done. run. rewrite (proj2 (Z.ltb_ge fd 0)) by done. run. rewrite Hf. run.
  destruct (next_answer l).1 as [v|bs|e]; [| |done]; cbn [fst snd].
  - rewrite (proj2 (Z.eqb_neq v (-1))) by done. run. rewrite Hset. run. rewrite Hcur. run. rewrite Hc. run.
    by rewrite Hp.
  - rewrite (proj2 (Z.eqb_neq (Z.of_nat (length bs)) (-1))) by lia. run. rewrite Hset. run. rewrite Hcur. run.
    rewrite Hc. run. by rewrite Hp.
Qed.
End sim.
