(* ===== verification/NtycoSystem.v ===== *)
(** * The coroutine server over a run

    The invariant between two events, the start of a reader, a round of the
    scheduler, the start of the program, and a run over any number of batches
    of events. *)

From S2P Require Import Prelude CRuntime Engine Protocol Coro Server Ntyco NtycoSocket.
From S2P Require Import NtycoFacts NtycoRun NtycoServer NtycoSim.

Section system.
Context {E : Type} `{!KvEngine E} (efd base lst : Z).
Notation W := (app E).
Notation C := (co (nty fn W)).
Notation lib := (lib (F := fn) (W := W) efd base).
Implicit Types (s : nty fn W) (ow : gmap Z nat) (fr : frame W) (rdy : list (nat * fn)) (v : srv E)
  (p : option Z) (ctx : gmap nat (C unit)) (r : rt fn W).

(** The store and the output are those of [v]; the connection [p] has been
    accepted and its reader has not started: the server's frames are on the
    shared stack, with [p] in [cli_fd]. *)
Definition good v p (si : nat) rdy fr : Prop :=
  a_store (f_app fr) = v_store v ∧ f_out fr = v_out v ∧ (∀ x, a_word (f_app fr) true x = x) ∧
  match p with
  | None => rdy = []
  | Some fd => ∃ j, rdy = [(j, Server_reader si)] ∧ a_cli_fd (f_app fr) = fd ∧ f_stack fr = Some si ∧
      0 ≤ fd ∧ fd ≠ efd ∧ conns v !! fd = Some Reading
  end.

(** The server and the readers of the connections of [v] wait for their
    descriptors, with programs that can be woken [k] times. *)
Definition ctx_ok (k : nat) v p ow (si : nat) ctx : Prop :=
  (∀ fd, is_Some (ow !! fd) ↔ fd = lst ∨ (is_Some (conns v !! fd) ∧ p ≠ Some fd)) ∧
  conns v !! lst = None ∧ ow !! lst = Some si ∧
  (∃ m n, (k ≤ m)%nat ∧ (S k ≤ n)%nat ∧ ctx !! si = Some (listening m n lst ≫= tail si)) ∧
  (∀ fd st, conns v !! fd = Some st → p ≠ Some fd →
    ∃ i c, ow !! fd = Some i ∧ ctx !! i = Some (c ≫= tail i) ∧ cont k st fd c).

Definition inv (k : nat) v p (evs : list event) (num : nat) (bs : list wait_res) r : Prop :=
  ∃ ow rdy fr si, lib ow None None rdy fr (r_n r) ∧ f_evs fr = evs ∧ f_num fr = num ∧ f_batches fr = bs ∧
    good v p si rdy fr ∧ ctx_ok k v p ow si (r_ctx r).

Lemma cont_mono k k' st fd (c : C unit) : (k' ≤ k)%nat → cont k st fd c → cont k' st fd c.
Proof.
  intros Hk. destruct st; cbn.
  - intros (n & ? & ->). exists n. split; [lia|done].
  - intros (m & n & ? & ? & ->). exists m, n. split_and!; [lia..|done].
Qed.

(** ** Events *)

(** The connection of [fd] after its event. *)
Definition set_conn v (fd : Z) (st' : option conn_state) (w : world E) (out : list output) : srv E :=
  Srv (partial_alter (λ _, st') fd (conns v)) w (v_out v ++ (pair fd <$> out)).

Section conn_event.
Context (k : nat) (v : srv E) (ow : gmap Z nat) (si : nat) (ctx : gmap nat (C unit)) (fd : Z) (i : nat).
Context (w : world E) (out : list output).
Context (Hinj : ∀ k k' i, ow !! k = Some i → ow !! k' = Some i → k = k').
Context (Hc : ctx_ok (S k) v None ow si ctx) (Hi : ow !! fd = Some i) (Hl : fd ≠ lst).

Lemma ctx_park st' c' :
  cont k st' fd c' → ctx_ok k (set_conn v fd (Some st') w out) None ow si (<[i := c' ≫= tail i]> ctx).
Proof.
  intros Hcont. destruct Hc as (Hdom & Hcl & Hol & (m & n & Hm & Hn & Hsi) & Hcs).
  unfold ctx_ok, set_conn. cbn [conns]. split_and!.
  - intros x. rewrite Hdom. destruct (decide (x = fd)) as [->|Hx].
    + rewrite lookup_partial_alter_eq. split; intros _; right; (split; [|done]); [by eexists|].
      by destruct (proj1 (Hdom fd)) as [?|[? _]]; [by eexists|done|].
    + by rewrite lookup_partial_alter_ne by done.
  - by rewrite lookup_partial_alter_ne by done.
  - done.
  - exists m, n. split_and!; [lia..|]. rewrite lookup_insert_ne; [done|]. intros ->. by apply Hl, (Hinj _ _ si).
  - intros x stx. destruct (decide (x = fd)) as [->|Hx].
    + rewrite lookup_partial_alter_eq. intros [= ->] _. exists i, c'. by rewrite lookup_insert_eq.
    + rewrite lookup_partial_alter_ne by done. intros Hsx Hp. destruct (Hcs x stx Hsx Hp) as (j & cj & Hj & Hcj & Hcontj).
      exists j, cj. rewrite lookup_insert_ne; [|intros ->; by apply Hx, (Hinj _ _ j)].
      split_and!; [done..|]. eapply cont_mono; [|exact Hcontj]. lia.
Qed.

Lemma ctx_close : ctx_ok k (set_conn v fd None w out) None (delete fd ow) si (delete i ctx).
Proof.
  destruct Hc as (Hdom & Hcl & Hol & (m & n & Hm & Hn & Hsi) & Hcs).
  unfold ctx_ok, set_conn. cbn [conns]. split_and!.
  - intros x. destruct (decide (x = fd)) as [->|Hx].
    + rewrite lookup_partial_alter_eq, lookup_delete_eq. split; [by intros [? ?]|]. intros [?|[[? ?] _]]; done.
    + by rewrite lookup_partial_alter_ne, lookup_delete_ne by done.
  - by rewrite lookup_partial_alter_ne by done.
  - by rewrite lookup_delete_ne by done.
  - exists m, n. split_and!; [lia..|]. rewrite lookup_delete_ne; [done|]. intros ->. by apply Hl, (Hinj _ _ si).
  - intros x stx. destruct (decide (x = fd)) as [->|Hx]; [by rewrite lookup_partial_alter_eq|].
    rewrite lookup_partial_alter_ne by done. intros Hsx Hp. destruct (Hcs x stx Hsx Hp) as (j & cj & Hj & Hcj & Hcontj).
    exists j, cj. rewrite (lookup_delete_ne ow) by done.
    rewrite lookup_delete_ne; [|intros ->; by apply Hx, (Hinj _ _ j)].
    split_and!; [done..|]. eapply cont_mono; [|exact Hcontj]. lia.
Qed.
End conn_event.

(** An event of a connection. *)
Lemma event_conn fuel k v evs idx bs r n ev st st' w out :
  inv (S k) v None evs (S idx) bs r → evs !! idx = Some ev → ev_fd ev ≠ lst →
  conns v !! ev_fd ev = Some st → conn_step st (ev_answers ev) (v_store v) = Ok (st', w, out) →
  ∃ r', event_loop (body fuel) (S n) r = event_loop (body fuel) n r' ∧
    inv k (set_conn v (ev_fd ev) st' w out) None evs idx bs r'.
Proof.
  destruct r as [s ctx]. set (fd := ev_fd ev).
  intros (ow & rdy & fr & si & H & Hevs & Hnum & Hbs & Hg & Hc) Hev Hl Hst Hstep. cbn [r_n r_ctx] in H, Hc.
  destruct Hg as (Hstore & Hout & Hword & ->). pose proof Hc as (_ & _ & _ & _ & Hcs).
  destruct (Hcs fd st Hst) as (i & c & Hi & Hci & Hcont); [done|]. subst evs.
  destruct (event_run _ _ (body fuel) _ _ _ _ ctx n idx ev i H Hnum Hev Hi) as (s1 & H1 & Hloop).
  rewrite <- Hstore in Hstep.
  destruct (conn_wakes _ _ k st fd i _ _ _ _ _ st' w out H1 Hi Hcont Hstep) as (l & s2 & Hw).
  pose proof (l_inj _ _ _ _ _ _ _ _ H) as Hinj.
  rewrite Hloop, bind_run. destruct st' as [st2|].
  - destruct Hw as (c' & Hgo & Hcont' & H2). rewrite insert_delete_id in H2 by done.
    destruct (swap_parks _ _ _ _ _ _ ctx i _ _ _ _ fd Hci eq_refl Hgo H2 Hi) as (s3 & -> & H3).
    eexists. split; [reflexivity|]. eexists ow, [], _, si. split; [exact H3|]. fsimp.
    do 3 (split; [done|]). split; [|by apply ctx_park]. unfold good. fsimp. by rewrite Hout.
  - destruct Hw as (Hgo & H2).
    destruct (swap_exits _ _ _ _ _ _ _ ctx i _ _ _ Hci eq_refl Hgo H2) as (s3 & -> & H3).
    eexists. split; [reflexivity|]. eexists (delete fd ow), [], _, si. split; [exact H3|]. fsimp.
    do 3 (split; [done|]). split; [|by apply ctx_close]. unfold good. fsimp. by rewrite Hout.
Qed.

(** The server waits again; the connections other than [p'] are as before. *)
Lemma ctx_listen k v v' p' ow si ctx m n :
  ctx_ok (S k) v None ow si ctx → (∀ k k' i, ow !! k = Some i → ow !! k' = Some i → k = k') →
  (k ≤ m)%nat → (S k ≤ n)%nat → conns v' !! lst = None →
  (∀ fd, p' ≠ Some fd → conns v' !! fd = conns v !! fd) → (∀ fd, p' = Some fd → conns v !! fd = None) →
  ctx_ok k v' p' ow si (<[si := listening m n lst ≫= tail si]> ctx).
Proof.
  intros (Hdom & Hcl & Hol & _ & Hcs) Hinj Hm Hn Hl' Hsame Hnew. unfold ctx_ok. split_and!; [|done|done| |].
  - intros fd. rewrite Hdom. destruct (decide (p' = Some fd)) as [Hp|Hp].
    + rewrite (Hnew fd Hp). split; [intros [->|[[? ?] _]]; [by left|done]|]. intros [->|[_ ?]]; [by left|done].
    + rewrite (Hsame fd Hp). naive_solver.
  - exists m, n. by rewrite lookup_insert_eq.
  - intros fd st Hst Hp. rewrite (Hsame fd Hp) in Hst. destruct (Hcs fd st Hst) as (i & c & Hi & Hc & Hcont); [done|].
    exists i, c. rewrite lookup_insert_ne.
    + split_and!; [done..|]. eapply cont_mono; [|exact Hcont]. lia.
    + intros <-. rewrite (Hinj _ _ _ Hi Hol) in Hst. congruence.
Qed.

(** An event of the listening descriptor without a connection. *)
Lemma event_again fuel k v evs idx bs r n ev :
  inv (S k) v None evs (S idx) bs r → evs !! idx = Some ev → ev_fd ev = lst →
  (next_answer (ev_answers ev)).1 = AErr EAGAIN →
  ∃ r', event_loop (body fuel) (S n) r = event_loop (body fuel) n r' ∧ inv k v None evs idx bs r'.
Proof.
  destruct r as [s ctx].
  intros (ow & rdy & fr & si & H & Hevs & Hnum & Hbs & Hg & Hc) Hev Hl Ha. cbn [r_n r_ctx] in H, Hc.
  destruct Hg as (Hstore & Hout & Hword & ->). pose proof Hc as (_ & Hcl & Hol & (m & n0 & Hm & Hn & Hsi) & _). subst evs.
  rewrite <- Hl in Hol. destruct (event_run _ _ (body fuel) _ _ _ _ ctx n idx ev si H Hnum Hev Hol) as (s1 & H1 & Hloop).
  rewrite Hl in Hol.
  destruct (server_again _ _ k m n0 lst si _ _ _ _ H1 Hol Hm Ha) as (m' & l & s2 & Hgo & Hm' & H2).
  rewrite Hloop, bind_run.
  destruct (swap_parks _ _ _ _ _ _ ctx si _ _ _ _ lst Hsi eq_refl Hgo H2 Hol) as (s3 & -> & H3).
  eexists. split; [reflexivity|]. eexists ow, [], _, si. split; [exact H3|]. fsimp.
  do 3 (split; [done|]). split; [by unfold good; fsimp|].
  apply (ctx_listen k v); try done; [by apply (l_inj _ _ _ _ _ _ _ _ H)|lia].
Qed.

(** A connection is accepted. *)
Lemma event_accept fuel k v evs idx bs r n ev fd v' :
  inv (S k) v None evs (S idx) bs r → evs !! idx = Some ev → accepts lst efd v ev fd v' →
  ∃ r', event_loop (body fuel) (S n) r = event_loop (body fuel) n r' ∧ inv k v' (Some fd) evs idx bs r'.
Proof.
  destruct r as [s ctx].
  intros (ow & rdy & fr & si & H & Hevs & Hnum & Hbs & Hg & Hc) Hev Hacc. cbn [r_n r_ctx] in H, Hc.
  destruct Hacc as [v ev fd l Hl Ha Hfd Hfl Hfe Hfn Hfc].
  destruct Hg as (Hstore & Hout & Hword & ->). pose proof Hc as (_ & Hcl & Hol & (m & n0 & Hm & Hn & Hsi) & _). subst evs.
  rewrite <- Hl in Hol. destruct (event_run _ _ (body fuel) _ _ _ _ ctx n idx ev si H Hnum Hev Hol) as (s1 & H1 & Hloop).
  rewrite Hl in Hol.
  destruct (server_accepts _ _ k m n0 lst si _ _ _ fd l H1 Hol Hn Ha Hfd Hfc) as (j & m' & n' & l' & s2 & Hgo & Hm' & Hn' & H2).
  rewrite Hloop, bind_run.
  destruct (swap_parks _ _ _ _ _ _ ctx si _ _ _ _ lst Hsi eq_refl Hgo H2 Hol) as (s3 & -> & H3).
  eexists. split; [reflexivity|]. eexists ow, _, _, si. split; [exact H3|]. fsimp.
  do 3 (split; [done|]). split.
  - unfold good. fsimp. split_and!; [done..|]. exists j. split_and!; try done. cbn [conns]. by rewrite lookup_insert_eq.
  - apply (ctx_listen k v); try done; [by apply (l_inj _ _ _ _ _ _ _ _ H)|..]; cbn [conns].
    + by rewrite lookup_insert_ne by done.
    + intros x Hx. rewrite lookup_insert_ne; [done|]. congruence.
    + by intros x [= <-].
Qed.

(** ** Batches *)

(** The descriptors the scheduler's epoll instance watches. *)
Definition live v (fd : Z) : Prop := fd = efd ∨ fd = lst ∨ is_Some (conns v !! fd).

#[local] Instance live_dec v fd : Decision (live v fd).
Proof. unfold live. apply _. Defined.

Definition watched v (evs : list event) : list event := filter (λ e, live v (ev_fd e)) evs.

Lemma watched_reported k v ow si ctx evs :
  ctx_ok k v None ow si ctx → reported efd ow evs = watched v evs.
Proof.
  intros (Hdom & _). apply list_filter_iff. intros e. unfold live. rewrite Hdom. naive_solver.
Qed.

Lemma watched_same v v' evs :
  (∀ e, e ∈ evs → conns v' !! ev_fd e = conns v !! ev_fd e) → watched v' evs = watched v evs.
Proof.
  induction evs as [|e evs IH]; intros H; [done|]. unfold watched in *. rewrite !filter_cons.
  rewrite IH by (intros; apply H; set_solver). 
  destruct (decide (live v' (ev_fd e))) as [H1|H1], (decide (live v (ev_fd e))) as [H2|H2]; try done;
    exfalso; unfold live in *; rewrite (H e) in * by set_solver; done.
Qed.

Lemma inv_weaken k k' v p evs num bs r : (k' ≤ k)%nat → inv k v p evs num bs r → inv k' v p evs num bs r.
Proof.
  intros Hk (ow & rdy & fr & si & H & ? & ? & ? & Hg & (Hdom & Hcl & Hol & (m & n & ? & ? & ?) & Hcs)).
  exists ow, rdy, fr, si. do 5 (split; [done|]). unfold ctx_ok. split_and!; [done..| |].
  - exists m, n. split_and!; [lia..|done].
  - intros fd st Hst Hp. destruct (Hcs fd st Hst Hp) as (i & c & ? & ? & Hcont). exists i, c.
    split_and!; [done..|]. by eapply cont_mono.
Qed.

Lemma inv_done fuel k v p evs bs r n :
  inv k v p evs 0 bs r → event_loop (body fuel) (S n) r = Ok (tt, r).
Proof.
  destruct r as [s ctx]. intros (ow & rdy & fr & si & H & _ & Hn & _).
  by apply (events_done _ _ _ _ _ _ _ _ _ H).
Qed.

(** The last event of the list, when it is the next to be handled. *)
Lemma next_event (evs : list event) num ev l :
  take num evs = rev (ev :: l) → num = length (ev :: l) →
  ∃ idx, num = S idx ∧ evs !! idx = Some ev ∧ take idx evs = rev l ∧ idx = length l.
Proof.
  intros Ht ->. cbn [length rev] in *. exists (length l). split_and!; [done|..|done].
  - rewrite <- (lookup_take_lt evs (S (length l))) by lia. rewrite Ht.
    rewrite lookup_app_r by (rewrite length_rev; lia). by rewrite length_rev, Nat.sub_diag.
  - replace (take (length l) evs) with (take (length l) (take (S (length l)) evs)) by (rewrite take_take; f_equal; lia).
    rewrite Ht. rewrite take_app_le by (rewrite length_rev; lia). apply take_ge. by rewrite length_rev.
Qed.

Lemma watched_cons v ev l : live v (ev_fd ev) → watched v (ev :: l) = ev :: watched v l.
Proof. intros H. unfold watched. by rewrite filter_cons_True. Qed.

(** The events left of a batch are at the front of the event list, in reverse
    order. *)
Lemma batch_run fuel evs bs l v p v' :
  serve_batch lst efd v l p v' → ∀ k num r n,
  NoDup (ev_fd <$> l) → inv (length l + k) v None evs num bs r →
  take num evs = rev (watched v l) → num = length (watched v l) → (num ≤ n)%nat →
  ∃ r', event_loop (body fuel) (S n) r = Ok (tt, r') ∧ inv k v' p evs 0 bs r'.
Proof.
  induction 1 as [v|v ev fd v' Hacc|v ev v' l p v'' Hserve Hb IH]; intros k num r n Hnd Hinv Ht Hnum Hn.
  - subst num. exists r. split; [|done]. by eapply inv_done.
  - assert (live v (ev_fd ev)) as Hlive by (destruct Hacc; right; by left).
    rewrite (watched_cons v ev []) in Ht, Hnum by done.
    destruct (next_event _ _ _ _ Ht Hnum) as (idx & -> & Hev & _ & Hi). cbn in Hi. subst idx.
    destruct (event_accept fuel k _ _ _ _ _ n _ _ _ Hinv Hev Hacc) as (r' & -> & Hinv').
    exists r'. split; [|done]. destruct n; [lia|]. by eapply inv_done.
  - cbn [fmap list_fmap] in Hnd. apply NoDup_cons in Hnd as [Hni Hnd].
    assert (∀ e, e ∈ l → ev_fd e ≠ ev_fd ev) as Hdiff.
    { intros e He Hf. apply Hni. rewrite <- Hf. apply list_elem_of_fmap. by exists e. }
    assert (live v (ev_fd ev) → watched v' l = watched v l →
      (∀ num' n', num = S num' → evs !! num' = Some ev → 
        ∃ r', event_loop (body fuel) (S n') r = event_loop (body fuel) n' r' ∧ inv (length l + k) v' None evs num' bs r') →
      ∃ r', event_loop (body fuel) (S n) r = Ok (tt, r') ∧ inv k v'' p evs 0 bs r') as Hgo.
    { intros Hlive Hw Hstep. rewrite (watched_cons v ev l Hlive) in Ht, Hnum.
      destruct (next_event _ _ _ _ Ht Hnum) as (idx & -> & Hev & Ht' & Hi).
      destruct (Hstep idx n eq_refl Hev) as (r' & -> & Hinv'). destruct n as [|n]; [lia|].
      apply (IH k idx r' n Hnd Hinv'); rewrite ?Hw; done || lia. }
    destruct Hserve as [v ev st st' w out Hl Hst Hstep|v ev Hl Ha|v ev Hl He Hnone].
    + apply Hgo; [right; right; by eexists| |].
      * apply watched_same. intros e He. cbn [conns]. rewrite lookup_partial_alter_ne; [done|]. apply not_eq_sym. auto.
      * intros num' n' -> Hev. by apply (event_conn fuel _ v evs num' bs r n' ev st st' w out).
    + apply Hgo; [right; by left|done|]. intros num' n' -> Hev. by apply event_again with ev.
    + unfold watched in Ht, Hnum. rewrite filter_cons_False in Ht, Hnum.
      2, 3: unfold live; rewrite Hnone; intros [?|[?|[? ?]]]; done.
      apply (IH k num r n Hnd); try done. eapply inv_weaken; [|exact Hinv]. cbn. lia.
Qed.

(** ** A round *)

(** Starting the readers of new connections. *)
Definition start_ready (fuel : nat) : prog (rt fn W) unit :=
  sc ← on_n the_sched;
  ready_loop (body fuel) (S (length (ready sc))) (last (ready sc)).

Lemma reader_starts ow i rdy fr s si fd n :
  lib ow (Some i) (Some (i, false)) rdy fr s → f_under fr = Some si →
  (∀ x, a_word (f_app fr) true x = x) → a_cli_fd (f_app fr) = fd →
  0 ≤ fd → fd ≠ efd → ow !! fd = None →
  ∃ s', go (server_reader (S n) si) s = Ok (inr (reading n fd), s') ∧
    lib (<[fd := i]> ow) (Some i) None rdy fr s'.
Proof.
  intros H Hu Hw Hfd H0 Hne Hn. destruct (l_frame _ _ _ _ _ _ _ _ H) as (_ & _ & _ & Ha & _ & Hun).
  destruct (reader_parks efd base ow i false rdy fr s fd H H0 Hne Hn n) as (s' & Hp & H').
  exists s'. split; [|done]. unfold server_reader, read_arg. run.
  by rewrite Ha, Hun, Hu, bool_decide_eq_true_2, Hw, Hfd, Hp.
Qed.

Lemma ctx_started k v fd ow si ctx j c :
  ctx_ok k v (Some fd) ow si ctx → (∀ x, ow !! x ≠ Some j) → conns v !! fd = Some Reading →
  cont k Reading fd c → ctx_ok k v None (<[fd := j]> ow) si (<[j := c ≫= tail j]> ctx).
Proof.
  intros (Hdom & Hcl & Hol & (m & n & Hm & Hn & Hsi) & Hcs) Hj Hst Hcont.
  assert (fd ≠ lst) as Hne by congruence. unfold ctx_ok. split_and!; [|done|..].
  - intros x. destruct (decide (x = fd)) as [->|Hx].
    + rewrite lookup_insert_eq. split; [|by eexists]. intros _. right. split; [by eexists|done].
    + rewrite lookup_insert_ne, Hdom by done. split; intros [?|[? ?]]; auto. right. split; [done|]. congruence.
  - by rewrite lookup_insert_ne by done.
  - exists m, n. split_and!; [done..|]. rewrite lookup_insert_ne; [done|]. intros ->. by apply (Hj lst).
  - intros x st Hx _. destruct (decide (x = fd)) as [->|Hxf].
    + assert (st = Reading) as -> by congruence. exists j, c. by rewrite !lookup_insert_eq.
    + destruct (Hcs x st Hx) as (i & ci & Hi & Hci & Hc'); [congruence|]. exists i, ci.
      rewrite !lookup_insert_ne; [done|by intros ->; apply (Hj x)|done].
Qed.

Lemma ready_phase fuel k v p evs num bs r :
  (k < fuel)%nat → inv k v p evs num bs r →
  ∃ r', start_ready fuel r = Ok (tt, r') ∧ inv k v None evs num bs r'.
Proof.
  destruct r as [s ctx]. intros Hk (ow & rdy & fr & si & H & Hevs & Hnum & Hbs & Hg & Hc). cbn [r_n r_ctx] in H, Hc.
  destruct (lib_sched _ _ _ _ _ _ _ _ H) as (sc & Hs & _ & _ & Hr & _).
  unfold start_ready. run. rewrite on_n_run, (the_sched_run _ _ Hs). run. rewrite Hr.
  destruct Hg as (Hstore & Hout & Hword & Hp). destruct p as [fd|]; [|subst rdy].
  - destruct Hp as (j & -> & Hcli & Hstk & H0 & Hne & Hst). cbn [fmap list_fmap fst length last].
    assert (ow !! fd = None) as Hn.
    { destruct (ow !! fd) eqn:Eo; [|done]. destruct Hc as (Hdom & Hcl & _).
      destruct (proj1 (Hdom fd)) as [->|[_ ?]]; [by eexists|congruence|done]. }
    destruct (ready_pop _ _ (body fuel) _ _ _ _ ctx 1 (Some j) j _ H) as (s1 & H1 & Hf & ->).
    destruct (resume_new _ _ (body fuel) _ _ _ _ ctx j _ H1 Hf) as (s2 & H2 & (c & Hcj & Hmain) & Hres).
    destruct fuel as [|n]; [lia|].
    destruct (reader_starts _ _ _ _ _ si fd n H2) as (s3 & Hgo & H3); [by fsimp..|by fsimp|done|done|done|].
    pose proof (exec_run (body (S n)) _ _ _ _ Hcj Hmain) as Hex.
    destruct (swap_parks _ _ _ _ _ _ (<[j := _exec (body (S n)) j]> ctx) j _ _ _ _ fd (lookup_insert_eq _ _ _)
      Hex Hgo H3 (lookup_insert_eq _ _ _)) as (s4 & Hsw & H4).
    run. rewrite Hres, Hsw. rewrite bool_decide_eq_true_2 by done. eexists. split; [reflexivity|].
    eexists _, [], _, si. split; [exact H4|]. fsimp. do 3 (split; [done|]). split; [by unfold good; fsimp|].
    cbn [r_ctx]. rewrite insert_insert_eq.
    apply ctx_started; [done| |done|exists n; split; [lia|done]].
    apply (l_cur _ _ _ _ _ _ _ _ H1 j false eq_refl).
  - cbn [fmap list_fmap length last]. eexists. split; [apply (ready_none _ _ _ _ _ _ _ _ _ H)|].
    by exists ow, [], fr, si.
Qed.

Lemma rev_watched v evs : watched v (rev evs) = rev (watched v evs).
Proof.
  rewrite !rev_alt. unfold watched. induction evs as [|e evs IH]; [done|].
  rewrite <- !rev_alt in *. cbn [rev]. rewrite filter_app, IH, !filter_cons, filter_nil.
  case_decide; cbn [rev]; [done|]. by rewrite app_nil_r.
Qed.

(** The rest of a round. *)
Definition poll_round (fuel : nat) : prog (rt fn W) unit :=
  _ ← on_n nty_schedule_epoll;
  sc ← on_n the_sched;
  event_loop (body fuel) (S (num_new_events sc)).

Lemma round_parts fuel f r :
  schedule_round (body fuel) f r =
  (_ ← expired_loop (body fuel) f; _ ← start_ready fuel; poll_round fuel) r.
Proof.
  unfold schedule_round, start_ready, poll_round. run.
  destruct (expired_loop _ _ _) as [[[] r1]|]; run; [|reflexivity].
  destruct (on_n the_sched r1) as [[sc r2]|]; run; [|reflexivity].
  by destruct (ready_loop _ _ _ r2) as [[[] r3]|].
Qed.

Lemma poll_run fuel k v evs num bs r evs' bs' p' v' :
  inv (length evs' + k) v None evs num bs r →
  skip_interrupts bs = Ready evs' :: bs' → NoDup (ev_fd <$> evs') →
  serve_batch lst efd v (rev evs') p' v' →
  ∃ r' evs2, poll_round fuel r = Ok (tt, r') ∧ inv k v' p' evs2 0 bs' r'.
Proof.
  destruct r as [s2 ctx2]. intros (ow & rdy & fr & si & H & Hevs & Hnum & Hfb & Hg & Hc) Hbs Hnd Hb.
  cbn [r_n r_ctx] in H, Hc. assert (rdy = []) as -> by apply Hg. rewrite <- Hfb in Hbs.
  destruct (epoll_run _ _ _ _ _ evs' bs' H Hbs) as (s3 & Hep & H3).
  rewrite (watched_reported _ _ _ _ _ _ Hc) in H3.
  destruct (batch_run fuel (watched v evs') bs' (rev evs') v p' v' Hb k (length (watched v evs')) (Rt s3 ctx2)
    (length (watched v evs'))) as (r' & Hrun & Hinv').
  - by rewrite <- Permutation_rev.
  - rewrite length_rev. eexists ow, [], _, si. split; [exact H3|]. fsimp. do 3 (split; [done|]). done.
  - by rewrite rev_watched, rev_involutive, take_ge.
  - by rewrite rev_watched, length_rev.
  - done.
  - exists r', (watched v evs'). split; [|done]. unfold poll_round. run.
    destruct (lib_sched _ _ _ _ _ _ _ _ H3) as (sc3 & Hs3 & _ & _ & _ & _ & _ & _ & _ & Hn3).
    rewrite on_n_run, Hep. run. rewrite on_n_run, (the_sched_run _ _ Hs3). run.
    rewrite Hn3. fsimp. by rewrite Hrun.
Qed.

Lemma round_run fuel f k v p evs num bs r evs' bs' p' v' :
  inv (length evs' + k) v p evs num bs r → (length evs' + k < fuel)%nat →
  skip_interrupts bs = Ready evs' :: bs' → NoDup (ev_fd <$> evs') →
  serve_batch lst efd v (rev evs') p' v' →
  ∃ r' evs2, schedule_round (body fuel) (S f) r = Ok (tt, r') ∧ inv k v' p' evs2 0 bs' r'.
Proof.
  intros Hinv Hf Hbs Hnd Hb. destruct r as [s ctx].
  destruct Hinv as (ow & rdy & fr & si & H & Hevs & Hnum & Hfb & Hg & Hc). cbn [r_n r_ctx] in H, Hc.
  destruct (expired_none _ _ (body fuel) _ _ _ _ ctx f H) as (s1 & Hex & H1).
  destruct (ready_phase fuel (length evs' + k) v p evs num bs (Rt s1 ctx) Hf) as (r2 & Hr & Hinv2).
  { by exists ow, rdy, fr, si. }
  destruct (poll_run fuel _ _ _ _ _ _ _ _ _ _ Hinv2 Hbs Hnd Hb) as (r' & evs2 & Hp & Hinv').
  exists r', evs2. split; [|done]. rewrite round_parts. run. rewrite Hex. run. by rewrite Hr.
Qed.

(** ** A run *)

(** The batches [epoll_wait] returns, in a run in which it fails only when a
    signal interrupts it. *)
Definition delivered (bs : list wait_res) : list (list event) :=
  omap (λ b, match b with Ready evs => Some evs | Failed _ => None end) bs.
Definition only_interrupts (bs : list wait_res) : Prop :=
  Forall (λ b, match b with Ready _ => True | Failed e => e = EINTR end) bs.

Lemma next_batch bs evs l :
  only_interrupts bs → delivered bs = evs :: l →
  ∃ bs', skip_interrupts bs = Ready evs :: bs' ∧ delivered bs' = l ∧ only_interrupts bs'.
Proof.
  induction 1 as [|[evs'|e] bs Hb Hf IH]; [done|..]; cbn.
  - intros [= <- <-]. by exists bs.
  - subst e. intros Hd. by apply IH.
Qed.

(** Every event may wake a coroutine. *)
Definition wakes (l : list (list event)) : nat := sum_list_with length l.

Lemma inv_not_done k v p evs num bs r f n :
  inv k v p evs num bs r →
  schedule_rounds (body f) n 0 r = Ok (false, r) ∧
  ∀ m, schedule_rounds (body f) n (S m) r =
    (_ ← schedule_round (body f) n; schedule_rounds (body f) n m) r.
Proof.
  destruct r as [s ctx]. intros (ow & rdy & fr & si & H & _ & _ & _ & _ & (_ & _ & Hol & _)). cbn [r_n] in H.
  destruct (lib_sched _ _ _ _ _ _ _ _ H) as (sc & Hs & [_ Ht] & _).
  assert (nty_schedule_isdone sc = false) as Hd.
  { unfold nty_schedule_isdone. destruct (waiting sc) as [|x t] eqn:Ew; [|done].
    apply Ht in Hol. by apply elem_of_nil in Hol. }
  split; [|intros m]; cbn [schedule_rounds]; run; by rewrite on_n_run, (the_sched_run _ _ Hs), Hd.
Qed.

Lemma rounds_run fuel f k v l v' :
  serve_all lst efd v l v' → ∀ p evs num bs r,
  delivered bs = l → only_interrupts bs →
  inv (wakes l + k) v p evs num bs r → (wakes l + k < fuel)%nat →
  ∃ r' p' evs' num' bs', schedule_rounds (body fuel) (S f) (length l) r = Ok (false, r') ∧
    inv k v' p' evs' num' bs' r'.
Proof.
  induction 1 as [v|v evs0 p0 v1 l v2 Hnd Hb Hall IH]; intros p evs num bs r Hd Hi Hinv Hf; cbn [length].
  - exists r, p, evs, num, bs. split; [|done]. by eapply inv_not_done.
  - destruct (next_batch _ _ _ Hi Hd) as (bs' & Hs & Hd' & Hi').
    rewrite (proj2 (inv_not_done _ _ _ _ _ _ _ fuel (S f) Hinv)). cbn [wakes sum_list_with] in Hinv, Hf.
    destruct (round_run fuel f (wakes l + k) v p evs num bs r evs0 bs' p0 v1) as (r1 & evs1 & Hr & Hinv1);
      [by rewrite Nat.add_assoc|unfold wakes; lia|done..|].
    destruct (IH _ _ _ _ _ Hd' Hi' Hinv1) as (r' & p' & evs' & num' & bs2 & Hrs & Hinv'); [unfold wakes; lia|].
    exists r', p', evs', num', bs2. split; [|done]. run. by rewrite Hr.
Qed.

(** ** The start of the program *)

(** The process before [ntyco_entry]: memory can be allocated, stacks fit, and
    the kernel grants the epoll instance, the [eventfd] [efd] and the listening
    socket [lst], and lets it be made non-blocking. *)
Record boot s : Prop := Boot {
  b_sched : n_sched s = None;
  b_cos : n_cos s = ∅;
  b_int : y_interest (n_sys s) = ∅;
  b_al : al_total (n_al s);
  b_depth : ∀ n, 0 < y_depth (n_sys s) n ≤ NTY_CO_MAX_STACKSIZE;
  b_fds : 0 ≤ efd ∧ 0 ≤ lst ∧ lst ≠ efd;
  b_ans : ∃ pfd ctl f1 f2,
    y_answers (n_sys s) = [AVal pfd; AVal efd; AVal ctl; AVal lst; AVal f1; AVal f2] ∧
    pfd ≠ -1 ∧ ctl ≠ -1 ∧ f1 ≠ -1 ∧ f2 ≠ -1;
}.

Definition boot_frame s (l : list answer) : frame W :=
  Frame [] 0 (y_batches (n_sys s)) l (y_out (n_sys s)) (n_app s) (n_stack s) (n_under s).

Lemma nfree_run b ow ct cur rdy fr s :
  NtycoFacts.lib efd (b + 1) ow ct cur rdy fr s →
  ∃ s', nfree s = Ok (tt, s') ∧ NtycoFacts.lib efd b ow ct cur rdy fr s'.
Proof.
  intros []. eexists. split; [reflexivity|]. constructor; nsimp; try done.
  cbn [al_dec al_live]. lia.
Qed.

Lemma schedule_create_run s :
  boot s → al_live (n_al s) = base - 2 →
  ∃ s' f1 f2, (_ ← nmalloc; nty_schedule_create 0) s = Ok (tt, s') ∧ f1 ≠ -1 ∧ f2 ≠ -1 ∧
    NtycoFacts.lib efd (base + 1) ∅ None None [] (boot_frame s [AVal lst; AVal f1; AVal f2]) s'.
Proof.
  intros [] Hb. destruct b_ans0 as (pfd & ctl & f1 & f2 & Hans & Hp & Hctl & Hf1 & Hf2).
  destruct b_fds0 as (He & Hl & Hle).
  destruct s as [sc cos nx sk un al [yn clk dep bat ans int out] ap].
  revert b_sched0 b_cos0 b_int0 b_al0 b_depth0 Hans Hb. nsimp. intros -> -> -> Hal Hdep -> Hb.
  unfold nty_schedule_create. nrun. rewrite nmalloc_run by done. nrun.
  rewrite nmalloc_run by (nsimp; auto with ga). nrun. cbn [negb].
  unfold nty_epoller_create, sys_number, sys_answer, upd_sched. nrun.
  rewrite (proj2 (Z.eqb_neq pfd (-1))) by done.
  unfold nty_epoller_ev_register_trigger, the_sched, upd_sched, sys_number, sys_answer. nrun.
  cbn [Z.eqb]. nrun. rewrite (proj2 (Z.eqb_neq efd (-1))) by lia. cbn [negb].
  rewrite Assert_run by done. nrun. rewrite (proj2 (Z.eqb_neq ctl (-1))) by done. cbn [negb].
  unfold epoll_ctl_add, upd_sys. nrun. rewrite (proj2 (Z.ltb_ge efd 0)) by done.
  rewrite bool_decide_eq_false_2 by (rewrite lookup_empty; by intros []). cbn [orb]. nrun.
  rewrite Assert_run by done. nrun. rewrite nmalloc_run by (nsimp; auto with ga). nrun.
  rewrite Assert_run by done. unfold nty_coroutine_usec_now. nrun.
  eexists _, f1, f2. split; [reflexivity|]. do 2 (split; [done|]). unfold boot_frame.
  constructor; nsimp; cbn [f_evs f_num f_batches f_ans f_out f_app f_stack f_under]; try done.
  - eexists _, _, _, _, []. split; [reflexivity|apply tree_rep_nil].
  - by intros i f []%elem_of_nil.
  - constructor.
  - intros i. rewrite lookup_empty. by intros [].
  - intros k. rewrite lookup_empty, lookup_insert_is_Some, lookup_empty. split.
    + intros [->|[_ []]]; [by left|done].
    + intros [->|[? ?]]; [by left|done].
  - auto with ga.
  - rewrite map_size_empty. cbn [al_next al_live length blocks]. lia.
Qed.

(** The first coroutine makes the scheduler. *)
Lemma create_first (f : fn) sA s1 sc :
  n_sched sA = None → nty_schedule_create 0 sA = Ok (tt, s1) → n_sched s1 = Some sc →
  nty_coroutine_create f sA = nty_coroutine_create f s1.
Proof.
  intros HA Hc Hs1. unfold nty_coroutine_create, nty_coroutine_get_sched. run. rewrite HA, Hs1.
  cbn [null]. run. rewrite Hc. run. by rewrite !Hs1.
Qed.

Lemma start_run s :
  boot s → al_live (n_al s) = base - 2 →
  ∃ s' i f1 f2, ntyco_start s = Ok (tt, s') ∧ f1 ≠ -1 ∧ f2 ≠ -1 ∧
    NtycoFacts.lib efd (base + 1) ∅ None None [(i, Server 9096)]
      (boot_frame s [AVal lst; AVal f1; AVal f2]) s'.
Proof.
  intros Hb Hl. pose proof (b_al _ Hb) as Hal. pose proof (b_sched _ Hb) as Hs.
  destruct (schedule_create_run s Hb Hl) as (s1 & f1 & f2 & Hc & Hf1 & Hf2 & H1).
  destruct (spawn_run _ _ _ _ _ _ _ _ (Server 9096) H1) as (i & s2 & Hr & H2).
  exists s2, i, f1, f2. split_and!; [|done..].
  unfold ntyco_start. run_in Hc. run. rewrite nmalloc_run in Hc |- * by done. run. cbn [negb]. run.
  destruct (lib_sched _ _ _ _ _ _ _ _ H1) as (sc & Hs1 & _).
  erewrite create_first; [|exact Hs|exact Hc|exact Hs1]. by rewrite Hr.
Qed.

(** The server opens its socket and waits. *)
Lemma server_starts ow i rdy fr s n f1 f2 :
  NtycoFacts.lib efd (base + 1) ow (Some i) (Some (i, false)) rdy fr s →
  f_ans fr = [AVal lst; AVal f1; AVal f2] → f1 ≠ -1 → f2 ≠ -1 →
  0 ≤ lst → lst ≠ efd → ow !! lst = None →
  ∃ s', go (server (S (S n))) s = Ok (inr (listening n (S n) lst), s') ∧
    lib (<[lst := i]> ow) (Some i) None rdy (fr <| f_ans := [] |>) s'.
Proof.
  intros H Ha Hf1 Hf2 H0 Hne Hn. destruct (nfree_run _ _ _ _ _ _ _ H) as (s1 & Hfree & H1).
  destruct (number_run _ _ _ _ _ _ _ _ H1) as (s2 & Hr2 & H2).
  destruct (number_run _ _ _ _ _ _ _ _ H2) as (s3 & Hr3 & H3).
  destruct (number_run _ _ _ _ _ _ _ _ H3) as (s4 & Hr4 & H4).
  revert Hr2 Hr3 Hr4 H4. fsimp. rewrite Ha. cbn [next_answer fst snd]. intros Hr2 Hr3 Hr4 H4.
  destruct (server_parks efd base ow i false rdy _ s4 lst H4 H0 Hne Hn n) as (s' & Hp & H').
  exists s'. split; [|exact H'].
  assert (nty_socket s1 = Ok (lst, s4)) as Hsock.
  { unfold nty_socket, socket. destruct (sched_there efd base ow i false rdy _ s1 H1) as [sc Hsc].
    run. rewrite Hsc. run. rewrite Hr2. run. cbn [null]. rewrite (proj2 (Z.eqb_neq lst (-1))) by lia. run.
    rewrite Hr3. run. rewrite (proj2 (Z.eqb_neq f1 (-1))) by done. run.
    rewrite (proj2 (Z.eqb_neq lst (-1))) by lia. run. rewrite Hr4. run.
    by rewrite (proj2 (Z.eqb_neq f2 (-1))) by done. }
  unfold server. run. rewrite Hfree. run. rewrite Hsock. run.
  rewrite (proj2 (Z.ltb_ge lst 0)) by done. by rewrite Hp.
Qed.

(** From the start to the server's first wait. *)
Lemma boot_run s n f :
  boot s → al_live (n_al s) = base - 2 → (∀ x, a_word (n_app s) true x = x) →
  ∃ s' s1 r', ntyco_start s = Ok (tt, s') ∧
    schedule_rounds (body (S (S n))) (S f) 0 (Rt s' ∅) = Ok (false, Rt s' ∅) ∧
    (∀ m, schedule_rounds (body (S (S n))) (S f) (S m) (Rt s' ∅) =
      (_ ← schedule_round (body (S (S n))) (S f); schedule_rounds (body (S (S n))) (S f) m) (Rt s' ∅)) ∧
    expired_loop (body (S (S n))) (S f) (Rt s' ∅) = Ok (tt, Rt s1 ∅) ∧
    start_ready (S (S n)) (Rt s1 ∅) = Ok (tt, r') ∧
    inv n (Srv ∅ (a_store (n_app s)) (y_out (n_sys s))) None [] 0 (y_batches (n_sys s)) r'.
Proof.
  intros Hb Hl Hw. destruct (b_fds _ Hb) as (_ & H0 & Hne).
  destruct (start_run s Hb Hl) as (s' & i & f1 & f2 & Hst & Hf1 & Hf2 & H).
  destruct (expired_none _ _ (body (S (S n))) _ _ _ _ ∅ f H) as (s1 & Hex & H1).
  destruct (ready_pop _ _ (body (S (S n))) _ _ _ _ ∅ 1 (Some i) i _ H1) as (s2 & H2 & Hfr & Hpop).
  destruct (resume_new _ _ (body (S (S n))) _ _ _ _ ∅ i _ H2 Hfr) as (s3 & H3 & (c & Hc & Hmain) & Hres).
  destruct (server_starts _ _ _ _ _ n f1 f2 H3) as (s4 & Hgo & H4); [done..|].
  pose proof (exec_run (body (S (S n))) _ _ _ _ Hc Hmain) as Hexec.
  destruct (swap_parks _ _ _ _ _ _ (<[i := _exec (body (S (S n))) i]> ∅) i _ _ _ _ lst (lookup_insert_eq _ _ _)
    Hexec Hgo H4 (lookup_insert_eq _ _ _)) as (s5 & Hsw & H5).
  destruct (lib_sched _ _ _ _ _ _ _ _ H) as (sc & Hsc & _ & _ & Hrdy & _).
  destruct (lib_sched _ _ _ _ _ _ _ _ H1) as (sc1 & Hsc1 & _ & _ & Hrdy1 & _).
  assert (nty_schedule_isdone sc = false) as Hd.
  { unfold nty_schedule_isdone. rewrite Hrdy. by destruct (waiting sc), (busy sc), (sleeping sc). }
  exists s', s1. eexists. split; [done|].
  split; [cbn [schedule_rounds]; run; by rewrite on_n_run, (the_sched_run _ _ Hsc), Hd|].
  split; [intros m; cbn [schedule_rounds]; run; by rewrite on_n_run, (the_sched_run _ _ Hsc), Hd|].
  split; [exact Hex|]. split.
  { unfold start_ready. run. rewrite on_n_run, (the_sched_run _ _ Hsc1). run. rewrite Hrdy1.
    cbn [fmap list_fmap fst length last]. rewrite Hpop. run. rewrite Hres, Hsw.
    rewrite bool_decide_eq_true_2 by done. reflexivity. }
  eexists _, [], _, i. split; [exact H5|]. unfold boot_frame. fsimp. do 3 (split; [done|]).
  split; [by unfold good; fsimp|]. unfold ctx_ok. cbn [conns r_ctx]. split_and!.
  - intros fd. rewrite lookup_insert_is_Some, lookup_empty. split.
    + intros [->|[_ []]]; [by left|done].
    + intros [->|[[? ?] _]]; [by left|done].
  - done.
  - by rewrite lookup_insert_eq.
  - exists n, (S n). split_and!; [lia..|]. by rewrite insert_insert_eq, lookup_insert_eq.
  - intros fd st. by rewrite lookup_empty.
Qed.

(** A run from the start over at least one batch. *)
Lemma system_run fuel f s evs l v' :
  boot s → al_live (n_al s) = base - 2 → (∀ x, a_word (n_app s) true x = x) →
  delivered (y_batches (n_sys s)) = evs :: l → only_interrupts (y_batches (n_sys s)) →
  serve_all lst efd (Srv ∅ (a_store (n_app s)) (y_out (n_sys s))) (evs :: l) v' →
  (wakes (evs :: l) + 2 ≤ fuel)%nat →
  ∃ r p evs' num bs,
    (_ ← on_n ntyco_start; schedule_rounds (body fuel) (S f) (length (evs :: l))) (Rt s ∅) = Ok (false, r) ∧
    inv 0 v' p evs' num bs r.
Proof.
  intros Hb Hl Hw Hd Hi Hall Hf. destruct fuel as [|[|n]]; [lia..|].
  destruct (boot_run s n f Hb Hl Hw) as (s' & s1 & r1 & Hst & _ & Hrs & Hex & Hr & Hinv).
  inversion Hall as [|? ? p ? ? ? Hnd Hserve Hrest]; subst.
  destruct (next_batch _ _ _ Hi Hd) as (bs' & Hs & Hd' & Hi').
  apply (inv_weaken _ (length evs + wakes l)) in Hinv; [|cbn [wakes sum_list_with] in Hf; unfold wakes; lia].
  destruct (poll_run (S (S n)) _ _ _ _ _ _ _ _ _ _ Hinv Hs Hnd Hserve) as (r2 & evs2 & Hp & Hinv2).
  rewrite <- (Nat.add_0_r (wakes l)) in Hinv2.
  destruct (rounds_run (S (S n)) f 0 _ _ _ Hrest _ _ _ _ _ Hd' Hi' Hinv2) as (r' & p' & evs' & num' & bs2 & Hrun & Hinv').
  { cbn [wakes sum_list_with] in Hf. unfold wakes. lia. }
  exists r', p', evs', num', bs2. split; [|done]. run. rewrite on_n_run, Hst. cbn [length]. rewrite Hrs. run.
  rewrite round_parts. run. rewrite Hex. run. rewrite Hr. run. rewrite Hp. exact Hrun.
Qed.

(** What the invariant says of output, store and memory. *)
Lemma inv_observe k v p evs num bs r :
  inv k v p evs num bs r →
  y_out (n_sys (r_n r)) = v_out v ∧ a_store (n_app (r_n r)) = v_store v ∧
  base ≤ al_live (n_al (r_n r)) ≤ base + 2 * (1 + Z.of_nat (size (conns v))).
Proof.
  destruct r as [s ctx]. intros (ow & rdy & fr & si & H & _ & _ & _ & Hg & Hc). cbn [r_n r_ctx] in *.
  destruct (l_frame _ _ _ _ _ _ _ _ H) as (_ & _ & Ho & Ha & _). destruct Hg as (Hs & Hout & _ & Hp).
  rewrite Ho, Ha. split_and!; [done..| |]; rewrite (l_mem _ _ _ _ _ _ _ _ H); cbn [blocks]; [lia|].
  destruct Hc as (Hdom & Hcl & Hol & _).
  assert (dom ow ∪ match p with Some fd => {[fd]} | None => ∅ end = {[lst]} ∪ dom (conns v)) as Hd.
  { apply set_eq. intros x. rewrite !elem_of_union, elem_of_singleton, !elem_of_dom, Hdom.
    destruct p as [fd|]; [|set_solver]. destruct Hp as (j & _ & _ & _ & _ & _ & Hfd).
    rewrite elem_of_singleton. split; [|destruct (decide (x = fd)); naive_solver].
    intros [[->|[? _]]| ->]; eauto. }
  apply (f_equal size) in Hd. rewrite (size_union {[lst]}), size_singleton, size_dom in Hd.
  2: { intros x ->%elem_of_singleton [y Hy]%elem_of_dom. congruence. }
  destruct p as [fd|].
  - destruct Hp as (j & -> & _ & _ & _ & _ & Hfd). rewrite size_union, size_singleton, size_dom in Hd.
    + cbn [length]. lia.
    + intros x [y Hy]%elem_of_dom ->%elem_of_singleton.
      destruct (proj1 (Hdom fd)) as [->|[_ ?]]; [by eexists|congruence|done].
  - subst rdy. rewrite union_empty_r_L, size_dom in Hd. cbn [length]. lia.
Qed.
End system.

(** A run and what is seen of it. *)
Lemma server_run {E} `{!KvEngine E} efd lst fuel f (s : nty fn (app E)) evs l v' :
  boot efd lst s → (∀ x, a_word (n_app s) true x = x) →
  delivered (y_batches (n_sys s)) = evs :: l → only_interrupts (y_batches (n_sys s)) →
  serve_all lst efd (Srv ∅ (a_store (n_app s)) (y_out (n_sys s))) (evs :: l) v' →
  (wakes (evs :: l) + 2 ≤ fuel)%nat →
  ∃ r, (_ ← on_n ntyco_start; schedule_rounds (body fuel) (S f) (length (evs :: l))) (Rt s ∅) = Ok (false, r) ∧
    y_out (n_sys (r_n r)) = v_out v' ∧ a_store (n_app (r_n r)) = v_store v' ∧
    al_live (n_al s) + 2 ≤ al_live (n_al (r_n r)) ≤ al_live (n_al s) + 4 + 2 * Z.of_nat (size (conns v')).
Proof.
  intros Hb Hw Hd Hi Hall Hf.
  destruct (system_run efd (al_live (n_al s) + 2) lst fuel f s evs l v') as (r & p & evs' & num & bs & Hrun & Hinv);
    try done; [lia|].
  exists r. split; [done|]. destruct (inv_observe _ _ _ _ _ _ _ _ _ _ Hinv) as (? & ? & ?). split_and!; [done..|lia|lia].
Qed.

(** ** Requests the contract covers *)

(** Replies of which some bytes have not gone out, with the number that have. *)
Abbreviation backlog := (gmap Z (list Z * nat)).

Section contract.
Context {E : Type} `{!KvEngine E, !KvLaws E} (efd lst : Z).
Implicit Types (v : srv E) (m : gmap cstr cstr).

(** A request on a connection, or a connection that can be written to again; in
    both cases with how many bytes of the reply the kernel takes. *)
Inductive client_event := Request (fd : Z) (line : list Z) (n : Z) | Writable (fd n : Z).

Definition ce_fd (x : client_event) : Z := match x with Request fd _ _ | Writable fd _ => fd end.
Definition ce_event (x : client_event) : event :=
  match x with
  | Request fd line n => Event fd POLLIN [AData line; AVal n]
  | Writable fd n => Event fd POLLOUT [AVal n]
  end.

Definition after_send (fd : Z) (r : list Z) (k : nat) (p : backlog) : backlog :=
  if bool_decide (length r ≤ k)%nat then delete fd p else <[fd := (r, k)]> p.

(** A new connection. *)
Definition accept_event (fd : Z) : event := Event lst POLLIN [AVal fd; AVal 0].

(** Requests served one after the other on the map [m] with the pending replies
    [p]: the replies, and the pieces in which they go out.  A connection sends
    its next request when its last reply has gone out. *)
Inductive answered : gmap cstr cstr → backlog → list client_event → list (Z * list Z) → list (Z * output) →
    gmap cstr cstr → backlog → Prop :=
  | answered_nil m p : answered m p [] [] [] m p
  | answered_request m p fd line n r m' l rs outs m'' p'' :
      p !! fd = None → whole line → kv_step m (words line) r m' → r ≠ [] → 0 < n →
      answered m' (after_send fd r (Z.to_nat n) p) l rs outs m'' p'' →
      answered m p (Request fd line n :: l) ((fd, r) :: rs) ((fd, Sent (take (Z.to_nat n) r)) :: outs) m'' p''
  | answered_more m p fd r k n l rs outs m'' p'' :
      p !! fd = Some (r, k) → 0 < n →
      answered m (after_send fd r (k + Z.to_nat n) p) l rs outs m'' p'' →
      answered m p (Writable fd n :: l) rs ((fd, Sent (take (Z.to_nat n) (drop k r))) :: outs) m'' p''.

Lemma answered_split m p l1 l2 rs outs m'' p'' :
  answered m p (l1 ++ l2) rs outs m'' p'' →
  ∃ rs1 rs2 outs1 outs2 m' p', rs = rs1 ++ rs2 ∧ outs = outs1 ++ outs2 ∧
    answered m p l1 rs1 outs1 m' p' ∧ answered m' p' l2 rs2 outs2 m'' p''.
Proof.
  revert m p rs outs. induction l1 as [|x l1 IH]; intros m p rs outs H.
  - exists [], rs, [], outs, m, p. by split_and!; [..|constructor|].
  - cbn in H. inversion H as [|? ? fd line n r m' ? rs' outs' ? ? Hp Hw Hs Hr Hn Ha|? ? fd r k n ? ? outs' ? ? Hp Hn Ha]; subst;
      destruct (IH _ _ _ _ Ha) as (rs1 & rs2 & o1 & o2 & m2 & p2 & -> & -> & H1 & H2).
    + exists ((fd, r) :: rs1), rs2, ((fd, Sent (take (Z.to_nat n) r)) :: o1), o2, m2, p2.
      split_and!; [done..| |done]. by econstructor.
    + exists rs1, rs2, ((fd, Sent (take (Z.to_nat n) (drop k r))) :: o1), o2, m2, p2.
      split_and!; [done..| |done]. by econstructor.
Qed.

(** The bytes that went out on a connection, the replies to it, and what has not
    gone out yet. *)
Definition sent_on (fd : Z) (outs : list (Z * output)) : list Z :=
  concat ((λ x, if bool_decide (x.1 = fd) then match x.2 with Sent bs => bs | Closed => [] end else []) <$> outs).
Definition replies_on (fd : Z) (rs : list (Z * list Z)) : list Z :=
  concat ((λ x, if bool_decide (x.1 = fd) then x.2 else []) <$> rs).
Definition unsent (fd : Z) (p : backlog) : list Z :=
  match p !! fd with Some (r, k) => drop k r | None => [] end.

Lemma unsent_after fd fd' r k p :
  unsent fd' (after_send fd r k p) = if bool_decide (fd = fd') then drop k r else unsent fd' p.
Proof.
  unfold unsent, after_send. case_bool_decide as Hk; case_bool_decide as Hfd; subst.
  - by rewrite lookup_delete_eq, drop_ge.
  - by rewrite lookup_delete_ne.
  - by rewrite lookup_insert_eq.
  - by rewrite lookup_insert_ne.
Qed.

(** The pieces on a connection make up its replies. *)
Lemma answered_bytes m p l rs outs m' p' fd :
  answered m p l rs outs m' p' → sent_on fd outs ++ unsent fd p' = unsent fd p ++ replies_on fd rs.
Proof.
  induction 1 as [|m p fd0 line n r m1 l rs outs m2 p2 Hp _ _ _ _ _ IH|m p fd0 r k n l rs outs m2 p2 Hp _ _ IH].
  - unfold sent_on, replies_on. by rewrite app_nil_r.
  - unfold sent_on, replies_on in *. cbn [fmap list_fmap concat fst snd]. rewrite unsent_after in IH.
    rewrite <- app_assoc, IH. case_bool_decide as Hfd; [subst|done].
    unfold unsent. rewrite Hp, app_nil_l. by rewrite app_assoc, take_drop.
  - unfold sent_on in *. cbn [fmap list_fmap concat fst snd]. rewrite unsent_after in IH.
    rewrite <- app_assoc, IH. case_bool_decide as Hfd; [subst|done].
    unfold unsent. rewrite Hp, app_assoc. f_equal. rewrite <- drop_drop. apply take_drop.
Qed.

(** The state of a connection with or without a pending reply. *)
Definition conn_state_of (x : option (list Z * nat)) : conn_state :=
  match x with None => Reading | Some (r, k) => Writing r k end.

Lemma state_after fd r k (p : backlog) :
  conn_state_of (after_send fd r k p !! fd) = if bool_decide (length r ≤ k)%nat then Reading else Writing r k.
Proof.
  unfold after_send. case_bool_decide; by rewrite ?lookup_delete_eq, ?lookup_insert_eq.
Qed.

Lemma take_upto {A} n (l : list A) : take (n `min` length l) l = take n l.
Proof. by rewrite <- take_take, firstn_all. Qed.

Lemma chunk_some n bs : bs ≠ [] → 0 < n → chunk (take (Z.to_nat n) bs) = [Sent (take (Z.to_nat n) bs)].
Proof. intros Hb Hn. destruct bs as [|b bs]; [done|]. destruct (Z.to_nat n) eqn:E0; [lia|done]. Qed.

Lemma conn_step_request (w : world E) m line n r m' :
  store w m → whole line → kv_step m (words line) r m' → r ≠ [] → 0 < n →
  ∃ w', conn_step Reading [AData line; AVal n] w =
      Ok (Some (if bool_decide (length r ≤ Z.to_nat n)%nat then Reading else Writing r (Z.to_nat n)), w',
          [Sent (take (Z.to_nat n) r)]) ∧ store w' m'.
Proof.
  intros Hst Hl Hs Hr Hn.
  destruct (request_reply w m (item_of line) line r m' Hst (whole_holds _ Hl) Hs)
    as (item & w' & Hrun & Hst' & Hlen & Htake).
  exists w'. split; [|done].
  assert (line ≠ []) as Hne by (intros ->; inversion Hs).
  assert (take BUFFER_LENGTH line = line) as Ht by (apply take_ge; destruct Hl as [Hl _]; lia).
  assert (answer_request line w = Ok (r, w')) as Hans.
  { unfold answer_request. run. rewrite Hrun. run. rewrite Hlen. run. by rewrite Htake. }
  unfold conn_step. cbn [next_answer recv_answer fst]. rewrite Ht. destruct line as [|x line]; [done|].
  cbn [fst]. rewrite Hans. cbn [mbind result_bind]. cbn [next_answer send_answer fst snd].
  destruct r as [|c r]; [done|]. set (reply := c :: r) in *. assert (0 < length reply)%nat by (cbn; lia).
  assert (Z.min (Z.max 0 n) (Z.of_nat (length reply)) = Z.of_nat (Z.to_nat n `min` length reply)) as -> by lia.
  rewrite Nat2Z.id, (proj2 (Z.eqb_neq _ 0)), (proj2 (Z.eqb_neq _ (-1))) by lia.
  rewrite take_upto, chunk_some by (done || lia).
  case_bool_decide as H1; case_bool_decide as H2; try lia; [done|].
  by replace (Z.to_nat n `min` length reply)%nat with (Z.to_nat n) by lia.
Qed.

Lemma conn_step_more (w : world E) r k n :
  (k < length r)%nat → 0 < n →
  conn_step (Writing r k) [AVal n] w =
    Ok (Some (if bool_decide (length r ≤ k + Z.to_nat n)%nat then Reading else Writing r (k + Z.to_nat n)), w,
        [Sent (take (Z.to_nat n) (drop k r))]).
Proof.
  intros Hk Hn. unfold conn_step. cbn [next_answer send_answer fst snd]. rewrite length_drop.
  assert (Z.min (Z.max 0 n) (Z.of_nat (length r - k)) = Z.of_nat (Z.to_nat n `min` (length r - k))) as -> by lia.
  rewrite Nat2Z.id. destruct (_ <=? 0) eqn:E0; b2p; [lia|].
  rewrite <- length_drop, take_upto, chunk_some, length_drop
    by (done || (intros Hd; apply (f_equal length) in Hd; rewrite length_drop in Hd; cbn in Hd; lia)).
  case_bool_decide as H1; case_bool_decide as H2; try lia; [done|].
  by replace (Z.to_nat n `min` (length r - k))%nat with (Z.to_nat n) by lia.
Qed.

(** The connections [fds] are open, each with its pending reply. *)
Record tracks (fds : list Z) (p : backlog) v : Prop := Tracks {
  tr_conn : ∀ fd, fd ∈ fds → fd ≠ lst ∧ conns v !! fd = Some (conn_state_of (p !! fd));
  tr_part : ∀ fd r k, p !! fd = Some (r, k) → (k < length r)%nat;
}.

Lemma tracks_after fds p v fd r k w out :
  tracks fds p v →
  tracks fds (after_send fd r k p)
    (Srv (partial_alter (λ _, Some (conn_state_of (after_send fd r k p !! fd))) fd (conns v)) w out).
Proof.
  intros [Hc Hp]. split; cbn [conns].
  - intros x Hx. destruct (Hc x Hx) as [? Hv]. split; [done|]. destruct (decide (x = fd)) as [->|Hne].
    + by rewrite lookup_partial_alter_eq.
    + rewrite lookup_partial_alter_ne, Hv by done. f_equal. f_equal. unfold after_send.
      case_bool_decide; by rewrite ?lookup_delete_ne, ?lookup_insert_ne.
  - intros x r' k'. unfold after_send. case_bool_decide as Hk.
    + intros [_ H]%lookup_delete_Some. by eapply Hp.
    + destruct (decide (x = fd)) as [->|]; [rewrite lookup_insert_eq|rewrite lookup_insert_ne by done; apply Hp].
      intros [= <- <-]. lia.
Qed.

Lemma batch_answered m p l rs outs m' p' :
  answered m p l rs outs m' p' → ∀ v fds, store (v_store v) m → tracks fds p v → (∀ x, x ∈ l → ce_fd x ∈ fds) →
  ∃ v', serve_batch lst efd v (ce_event <$> l) None v' ∧ tracks fds p' v' ∧
    store (v_store v') m' ∧ v_out v' = v_out v ++ outs.
Proof.
  induction 1 as [m p|m p fd line n r m1 l rs outs m2 p2 Hp Hl Hs Hr Hn Ha IH|m p fd r k n l rs outs m2 p2 Hp Hn Ha IH];
    intros v fds Hst Htr Hin.
  - exists v. split; [constructor|]. by rewrite app_nil_r.
  - destruct (tr_conn _ _ _ Htr fd) as [Hfl Hfd]; [apply (Hin (Request fd line n)); set_solver|].
    rewrite Hp in Hfd. destruct (conn_step_request _ _ _ _ _ _ Hst Hl Hs Hr Hn) as (w' & Hstep & Hst').
    rewrite <- (state_after fd r _ p) in Hstep.
    pose proof (tracks_after fds p v fd r (Z.to_nat n) w' (v_out v ++ [(fd, Sent (take (Z.to_nat n) r))]) Htr) as Htr'.
    edestruct IH as (v' & Hb & Htr2 & Hst2 & Hout); [|exact Htr'| |]; [exact Hst'|intros x Hx; apply Hin; set_solver|].
    exists v'. split_and!; [|done|done|rewrite Hout; cbn [v_out]; by rewrite <- app_assoc].
    cbn [fmap list_fmap]. eapply batch_cons; [|exact Hb].
    by apply (serve_conn lst efd v (ce_event (Request fd line n)) Reading _ w' [Sent (take (Z.to_nat n) r)]).
  - destruct (tr_conn _ _ _ Htr fd) as [Hfl Hfd]; [apply (Hin (Writable fd n)); set_solver|].
    rewrite Hp in Hfd. pose proof (conn_step_more (v_store v) r k n (tr_part _ _ _ Htr _ _ _ Hp) Hn) as Hstep.
    rewrite <- (state_after fd r _ p) in Hstep.
    pose proof (tracks_after fds p v fd r (k + Z.to_nat n) (v_store v)
      (v_out v ++ [(fd, Sent (take (Z.to_nat n) (drop k r)))]) Htr) as Htr'.
    edestruct IH as (v' & Hb & Htr2 & Hst2 & Hout); [|exact Htr'| |]; [exact Hst|intros x Hx; apply Hin; set_solver|].
    exists v'. split_and!; [|done|done|rewrite Hout; cbn [v_out]; by rewrite <- app_assoc].
    cbn [fmap list_fmap]. eapply batch_cons; [|exact Hb].
    by apply (serve_conn lst efd v (ce_event (Writable fd n)) (Writing r k) _ (v_store v)
      [Sent (take (Z.to_nat n) (drop k r))]).
Qed.

Lemma groups_answered groups : ∀ m p rs outs m' p' v fds,
  answered m p (concat groups) rs outs m' p' → store (v_store v) m → tracks fds p v →
  Forall (λ g, NoDup (ce_fd <$> g)) groups → (∀ x, x ∈ concat groups → ce_fd x ∈ fds) →
  ∃ v', serve_all lst efd v ((λ g, rev (ce_event <$> g)) <$> groups) v' ∧
    store (v_store v') m' ∧ v_out v' = v_out v ++ outs.
Proof.
  induction groups as [|g groups IH]; intros m p rs outs m' p' v fds Ha Hst Htr Hnd Hin.
  - inversion Ha; subst. exists v. split; [constructor|]. by rewrite app_nil_r.
  - cbn [concat] in Ha, Hin. apply Forall_cons in Hnd as [Hg Hnd].
    destruct (answered_split _ _ _ _ _ _ _ _ Ha) as (rs1 & rs2 & o1 & o2 & m1 & p1 & -> & -> & Ha1 & Ha2).
    destruct (batch_answered _ _ _ _ _ _ _ Ha1 v fds Hst Htr) as (v1 & Hb & Htr1 & Hst1 & Hout1).
    { intros x Hx. apply Hin. set_solver. }
    destruct (IH m1 p1 rs2 o2 m' p' v1 fds Ha2 Hst1 Htr1 Hnd) as (v' & Hall & Hst' & Hout').
    { intros x Hx. apply Hin. set_solver. }
    exists v'. split_and!; [|done|by rewrite Hout', Hout1, app_assoc].
    cbn [fmap list_fmap]. eapply all_cons; [|rewrite rev_involutive; exact Hb|exact Hall].
    rewrite <- Permutation_rev, <- list_fmap_compose.
    rewrite (list_fmap_ext (ev_fd ∘ ce_event) ce_fd g) by (by intros ? [] ?). exact Hg.
Qed.

(** Connections are accepted one batch after the other. *)
Lemma fds_accepted fds : ∀ v,
  NoDup fds → (∀ fd, fd ∈ fds → 0 ≤ fd ∧ fd ≠ lst ∧ fd ≠ efd ∧ conns v !! fd = None) →
  ∃ v', serve_all lst efd v ((λ fd, [accept_event fd]) <$> fds) v' ∧
    (∀ fd, conns v' !! fd = if bool_decide (fd ∈ fds) then Some Reading else conns v !! fd) ∧
    size (conns v') = (size (conns v) + length fds)%nat ∧
    v_store v' = v_store v ∧ v_out v' = v_out v.
Proof.
  induction fds as [|fd fds IH]; intros v Hnd Hf.
  - exists v. split; [constructor|]. split_and!; [|cbn; lia|done..]. done.
  - apply NoDup_cons in Hnd as [Hni Hnd].
    destruct (Hf fd) as (H0 & Hl & He & Hn); [set_solver|].
    set (v1 := Srv (<[fd := Reading]> (conns v)) (v_store v) (v_out v)).
    destruct (IH v1 Hnd) as (v' & Hall & Hc & Hz & Hs & Ho).
    { intros x Hx. destruct (Hf x) as (? & ? & ? & ?); [set_solver|]. split_and!; try done. cbn [conns v1].
      rewrite lookup_insert_ne; [done|]. congruence. }
    exists v'. split_and!; [..|by rewrite Hs|by rewrite Ho].
    + cbn [fmap list_fmap]. eapply all_cons; [apply NoDup_singleton| |exact Hall].
      eapply batch_accept. by eapply (accepts_intro lst efd v (accept_event fd) fd [AVal 0]).
    + intros x. rewrite Hc. cbn [conns v1]. destruct (decide (x = fd)) as [->|Hx].
      * rewrite (bool_decide_eq_true_2 (fd ∈ fd :: fds)) by set_solver. rewrite lookup_insert_eq. by case_bool_decide.
      * rewrite lookup_insert_ne by done. do 2 case_bool_decide; set_solver.
    + rewrite Hz. cbn [conns v1 length]. rewrite map_size_insert_None by done. lia.
Qed.

Lemma serve_all_app v l1 v1 l2 v2 :
  serve_all lst efd v l1 v1 → serve_all (E := E) lst efd v1 l2 v2 → serve_all lst efd v (l1 ++ l2) v2.
Proof. induction 1; intros H2; cbn; [done|]. econstructor; eauto. Qed.
End contract.

(** The whole server, over requests the contract covers. *)
Lemma contract_run {E} `{!KvEngine E, !KvLaws E} efd lst fuel f (s : nty fn (app E))
    m fds groups rs outs m' p' :
  boot efd lst s → (∀ x, a_word (n_app s) true x = x) → store (a_store (n_app s)) m →
  NoDup fds → fds ≠ [] → Forall (λ fd, 0 ≤ fd ∧ fd ≠ lst ∧ fd ≠ efd) fds →
  Forall (λ g, NoDup (ce_fd <$> g)) groups → Forall (λ x, ce_fd x ∈ fds) (concat groups) →
  answered m ∅ (concat groups) rs outs m' p' →
  y_batches (n_sys s) = Ready <$> (((λ fd, [accept_event lst fd]) <$> fds) ++
                                   ((λ g, rev (ce_event <$> g)) <$> groups)) →
  (length fds + length (concat groups) + 2 ≤ fuel)%nat →
  ∃ r, (_ ← on_n ntyco_start; schedule_rounds (body fuel) (S f) (length fds + length groups)) (Rt s ∅)
        = Ok (false, r) ∧
    y_out (n_sys (r_n r)) = y_out (n_sys s) ++ outs ∧ store (a_store (n_app (r_n r))) m'.
Proof.
  intros Hb Hw Hst Hnd Hne Hfds Hg Hin Ha Hbs Hf. rewrite Forall_forall in Hfds. rewrite Forall_forall in Hin.
  set (v0 := Srv ∅ (a_store (n_app s)) (y_out (n_sys s))).
  destruct (fds_accepted efd lst fds v0 Hnd) as (v1 & Hall1 & Hc1 & _ & Hs1 & Ho1).
  { intros fd Hfd. destruct (Hfds _ Hfd) as (? & ? & ?). split_and!; try done. }
  destruct (groups_answered efd lst groups m ∅ rs outs m' p' v1 fds Ha) as (v2 & Hall2 & Hs2 & Ho2);
    [by rewrite Hs1| |done|done|].
  { split; [|done]. intros fd Hfd. rewrite Hc1, bool_decide_eq_true_2 by done. by destruct (Hfds _ Hfd) as (_ & ? & _). }
  pose proof (serve_all_app efd lst _ _ _ _ _ Hall1 Hall2) as Hall.
  set (L := ((λ fd, [accept_event lst fd]) <$> fds) ++ ((λ g, rev (ce_event <$> g)) <$> groups)) in *.
  assert (delivered (Ready <$> L) = L) as Hd by (clear; induction L as [|x L IH]; cbn; [done|by f_equal]).
  assert (only_interrupts (Ready <$> L)) as Hoi by (apply Forall_fmap, Forall_true; done).
  assert (length L = length fds + length groups)%nat as HL by (unfold L; by rewrite length_app, !length_fmap).
  assert (wakes L = length fds + length (concat groups))%nat as Hwk.
  { unfold L, wakes. rewrite sum_list_with_app. f_equal.
    - clear. induction fds; cbn; [done|]. by f_equal.
    - clear. induction groups as [|g gs IH]; cbn; [done|]. by rewrite length_rev, length_fmap, length_app, IH. }
  destruct L as [|evs l] eqn:EL; [destruct fds; done|].
  rewrite <- HL.
  destruct (server_run efd lst fuel f s evs l v2) as (r & Hr & Hout & Hstr & _); rewrite ?Hbs; try done; [lia|].
  exists r. split; [exact Hr|]. rewrite Hout, Hstr, Ho2, Ho1. done.
Qed.
