(* ===== verification/BsdQueue.v ===== *)
(** * Tail queues (src/kv_store/Ntyco/nty_queue.h)

    The ready queue of the coroutine scheduler, at the level of its links.  A
    node is a coroutine; [tqe_prev] and [tqh_last] hold the address of a field
    that points to a node: the field [tqe_next] of a node, or [tqh_first] of
    the head.  A node that is not in [links] is not allocated.

    [tq_rep] says that the links form the queue of a list, and each macro the
    scheduler uses is the operation on that list that [Ntyco] takes it for. *)

From S2P Require Import Prelude.

(** [struct type **] *)
Inductive slot := AtHead | AtNode (i : nat).

#[global] Instance slot_eq_dec : EqDecision slot.
Proof. solve_decision. Defined.

(* src/kv_store/Ntyco/nty_queue.h:408-413 TAILQ_ENTRY *)
Record tqe := Tqe { tqe_next : option nat; tqe_prev : slot }.

(* src/kv_store/Ntyco/nty_queue.h:398-403 TAILQ_HEAD *)
(** With the entries of all nodes. *)
Record tailq := Tailq { tqh_first : option nat; tqh_last : slot; links : gmap nat tqe }.

Abbreviation tq := (prog tailq).

(** [p->field] *)
Definition entry (p : option nat) : tq tqe := λ s,
  match p with
  | None => Err NullDeref
  | Some i => match links s !! i with Some n => Ok (n, s) | None => Err UseAfterFree end
  end.

Definition set_entry (i : nat) (n : tqe) : tq unit := λ s,
  match links s !! i with
  | Some _ => Ok (tt, Tailq (tqh_first s) (tqh_last s) (<[i := n]> (links s)))
  | None => Err UseAfterFree
  end.

Definition get_first : tq (option nat) := λ s, Ok (tqh_first s, s).
Definition get_last : tq slot := λ s, Ok (tqh_last s, s).
Definition set_last (a : slot) : tq unit := λ s, Ok (tt, Tailq (tqh_first s) a (links s)).

(* src/kv_store/Ntyco/nty_queue.h:543-543 TAILQ_NEXT *)
Definition TAILQ_NEXT (elm : nat) : tq (option nat) := n ← entry (Some elm); mret (tqe_next n).

(** Writing [tqe_next] and [tqe_prev]. *)
Definition set_tqe_next (i : nat) (q : option nat) : tq unit :=
  n ← entry (Some i); set_entry i (Tqe q (tqe_prev n)).
Definition set_tqe_prev (i : nat) (a : slot) : tq unit :=
  n ← entry (Some i); set_entry i (Tqe (tqe_next n) a).

(** [*a] and [*a = q] *)
Definition load_slot (a : slot) : tq (option nat) :=
  match a with AtHead => get_first | AtNode i => TAILQ_NEXT i end.
Definition store_slot (a : slot) (q : option nat) : tq unit :=
  match a with
  | AtHead => λ s, Ok (tt, Tailq q (tqh_last s) (links s))
  | AtNode i => set_tqe_next i q
  end.

(** [((struct headname * ) a)->tqh_last]: the field after the one [a] points
    to, the head and the entries having the same two fields. *)
Definition second (a : slot) : tq slot :=
  match a with AtHead => get_last | AtNode i => n ← entry (Some i); mret (tqe_prev n) end.

(* src/kv_store/Ntyco/nty_queue.h:462-462 TAILQ_EMPTY *)
Definition TAILQ_EMPTY : tq bool := f ← get_first; mret (bool_decide (f = None)).

(* src/kv_store/Ntyco/nty_queue.h:464-464 TAILQ_FIRST *)
Definition TAILQ_FIRST : tq (option nat) := get_first.

(* src/kv_store/Ntyco/nty_queue.h:486-490 TAILQ_INIT *)
Definition TAILQ_INIT : tq unit :=
  _ ← store_slot AtHead None;
  set_last AtHead.

(* src/kv_store/Ntyco/nty_queue.h:530-538 TAILQ_INSERT_TAIL *)
Definition TAILQ_INSERT_TAIL (elm : nat) : tq unit :=
  _ ← set_tqe_next elm None;
  last ← get_last;
  _ ← set_tqe_prev elm last;
  _ ← store_slot last (Some elm);
  set_last (AtNode elm).

(* src/kv_store/Ntyco/nty_queue.h:517-528 TAILQ_INSERT_HEAD *)
Definition TAILQ_INSERT_HEAD (elm : nat) : tq unit :=
  f ← get_first;
  _ ← set_tqe_next elm f;
  _ ← match f with
      | Some i => set_tqe_prev i (AtNode elm)
      | None => set_last (AtNode elm)
      end;
  _ ← store_slot AtHead (Some elm);
  set_tqe_prev elm AtHead.

(* src/kv_store/Ntyco/nty_queue.h:540-541 TAILQ_LAST *)
Definition TAILQ_LAST : tq (option nat) :=
  last ← get_last;
  a ← second last;
  load_slot a.

(* src/kv_store/Ntyco/nty_queue.h:545-546 TAILQ_PREV *)
Definition TAILQ_PREV (elm : nat) : tq (option nat) :=
  n ← entry (Some elm);
  a ← second (tqe_prev n);
  load_slot a.

(* src/kv_store/Ntyco/nty_queue.h:548-562 TAILQ_REMOVE *)
Definition TAILQ_REMOVE (elm : nat) : tq unit :=
  n ← entry (Some elm);
  _ ← match tqe_next n with
      | Some i => set_tqe_prev i (tqe_prev n)
      | None => set_last (tqe_prev n)
      end;
  n ← entry (Some elm);
  store_slot (tqe_prev n) (tqe_next n).

(** ** The links of a list *)

(** The nodes [l], the first of them pointed to by the slot [a]; [q] is what
    the last points to. *)
Fixpoint chain (h : gmap nat tqe) (a : slot) (l : list nat) (q : option nat) : Prop :=
  match l with
  | [] => True
  | i :: l' => h !! i = Some (Tqe (default q (Some <$> head l')) a) ∧ chain h (AtNode i) l' q
  end.

(** The slot after the nodes [l]. *)
Definition end_slot (a : slot) (l : list nat) : slot :=
  match last l with Some i => AtNode i | None => a end.

Record tq_rep (s : tailq) (l : list nat) : Prop := TqRep {
  tr_first : tqh_first s = head l;
  tr_last : tqh_last s = end_slot AtHead l;
  tr_chain : chain (links s) AtHead l None;
  tr_nodup : NoDup l;
}.

Lemma chain_ext h h' a l q :
  (∀ i, i ∈ l → h' !! i = h !! i) → chain h a l q → chain h' a l q.
Proof.
  revert a. induction l as [|i l IH]; intros a Hx; [done|]. intros [H1 H2]. split.
  - rewrite Hx by set_solver. done.
  - apply IH; [|done]. intros j Hj. apply Hx. set_solver.
Qed.

Lemma chain_app h a l1 l2 q :
  chain h a (l1 ++ l2) q ↔ chain h a l1 (default q (Some <$> head l2)) ∧ chain h (end_slot a l1) l2 q.
Proof.
  revert a. induction l1 as [|i l1 IH]; intros a; [by simpl; tauto|].
  assert (end_slot a (i :: l1) = end_slot (AtNode i) l1) as ->.
  { unfold end_slot. destruct l1 as [|j l1]; [done|]. rewrite last_cons_cons.
    by destruct (last (j :: l1)) eqn:E; [|apply last_None in E]. }
  cbn [app chain]. rewrite IH.
  assert (default q (Some <$> head (l1 ++ l2)) = default (default q (Some <$> head l2)) (Some <$> head l1)) as ->
    by (by destruct l1). tauto.
Qed.

Lemma end_slot_snoc a l i : end_slot a (l ++ [i]) = AtNode i.
Proof. unfold end_slot. by rewrite last_snoc. Qed.

Lemma end_slot_in a l : end_slot a l = a ∨ ∃ i, i ∈ l ∧ end_slot a l = AtNode i.
Proof.
  unfold end_slot. destruct (last l) as [i|] eqn:E; [|by left]. right. exists i. split; [|done].
  apply last_Some in E as [l' ->]. set_solver.
Qed.

(** Changing what the last node of a chain points to. *)
Lemma chain_retarget h a l i n q q' :
  chain h a (l ++ [i]) q → i ∉ l → h !! i = Some n →
  chain (<[i := Tqe q' (tqe_prev n)]> h) a (l ++ [i]) q'.
Proof.
  intros Hc Hi Hn. rewrite chain_app in Hc |- *. cbn [head fmap option_fmap option_map default chain] in *.
  destruct Hc as (H1 & H2 & _). rewrite Hn in H2. injection H2 as ->. cbn [tqe_prev]. split_and!; [|by rewrite lookup_insert_eq|done].
  eapply chain_ext; [|exact H1]. intros j Hj. apply lookup_insert_ne. by intros ->.
Qed.

Section ops.
Variables (s : tailq) (l : list nat).
Hypothesis Hr : tq_rep s l.

Lemma first_run : TAILQ_FIRST s = Ok (head l, s).
Proof. unfold TAILQ_FIRST, get_first. by rewrite (tr_first _ _ Hr). Qed.

Lemma empty_run : TAILQ_EMPTY s = Ok (bool_decide (l = []), s).
Proof.
  unfold TAILQ_EMPTY, get_first. run. rewrite (tr_first _ _ Hr). by destruct l.
Qed.

Lemma next_run l1 i l2 : l = l1 ++ i :: l2 → TAILQ_NEXT i s = Ok (head l2, s).
Proof.
  intros E. pose proof (tr_chain _ _ Hr) as Hc. rewrite E, chain_app in Hc.
  destruct Hc as (_ & Hi & _). unfold TAILQ_NEXT, entry. run. rewrite Hi. run. by destruct l2.
Qed.

(** The slot after a part of the queue points to the next node. *)
Lemma load_slot_run l1 l2 : l = l1 ++ l2 → load_slot (end_slot AtHead l1) s = Ok (head l2, s).
Proof.
  intros E. destruct l1 as [|j l1' _] using rev_ind.
  - cbn [app] in E. subst l2. cbn. unfold get_first. by rewrite (tr_first _ _ Hr).
  - rewrite end_slot_snoc. cbn [load_slot]. apply (next_run l1'). by rewrite E, <- app_assoc.
Qed.

Lemma prev_of l1 i l2 : l = l1 ++ i :: l2 → entry (Some i) s = Ok (Tqe (head l2) (end_slot AtHead l1), s).
Proof.
  intros E. pose proof (tr_chain _ _ Hr) as Hc. rewrite E, chain_app in Hc.
  destruct Hc as (_ & Hi & _). unfold entry. rewrite Hi. by destruct l2.
Qed.

Lemma last_run : TAILQ_LAST s = Ok (last l, s).
Proof.
  unfold TAILQ_LAST, get_last. run. rewrite (tr_last _ _ Hr).
  assert (l = [] ∨ ∃ l0 i, l = l0 ++ [i]) as [E|(l0 & i & E)].
  { destruct l as [|i l0 _] using rev_ind; [by left|right; eauto]. }
  - rewrite E. cbn [end_slot last second]. unfold get_last. run. rewrite (tr_last _ _ Hr), E.
    cbn. unfold get_first. by rewrite (tr_first _ _ Hr), E.
  - rewrite E, end_slot_snoc, last_snoc. cbn [second]. run. rewrite (prev_of l0 i []) by done. run.
    cbn [tqe_prev]. by rewrite (load_slot_run l0 [i]).
Qed.

Lemma prev_run l1 i l2 : l = l1 ++ i :: l2 → TAILQ_PREV i s = Ok (last l1, s).
Proof.
  intros E. unfold TAILQ_PREV. run. rewrite (prev_of l1 i l2) by done. run. cbn [tqe_prev].
  destruct l1 as [|j l1' _] using rev_ind.
  - cbn [end_slot last second]. unfold get_last. run. rewrite (tr_last _ _ Hr). by apply (load_slot_run l []), eq_sym, app_nil_r.
  - rewrite end_slot_snoc, last_snoc. cbn [second]. run.
    rewrite <- app_assoc in E. rewrite (prev_of l1' j (i :: l2)) by done. run. cbn [tqe_prev].
    by rewrite (load_slot_run l1' (j :: i :: l2)).
Qed.
End ops.

Lemma entry_run s i n : links s !! i = Some n → entry (Some i) s = Ok (n, s).
Proof. intros H. unfold entry. by rewrite H. Qed.

Lemma set_entry_run s i n m : links s !! i = Some m →
  set_entry i n s = Ok (tt, Tailq (tqh_first s) (tqh_last s) (<[i := n]> (links s))).
Proof. intros H. unfold set_entry. by rewrite H. Qed.

Lemma tq_rep_init s : ∃ s', TAILQ_INIT s = Ok (tt, s') ∧ tq_rep s' [] ∧ links s' = links s.
Proof. eexists. split; [reflexivity|]. split; [|done]. split; [done..|constructor]. Qed.

(** Filling the slot after a chain. *)
Lemma store_end s l i n0 :
  chain (links s) AtHead l None → tqh_first s = head l → NoDup l → i ∉ l → links s !! i = Some n0 →
  ∃ s', store_slot (end_slot AtHead l) (Some i) s = Ok (tt, s') ∧
    chain (links s') AtHead l (Some i) ∧ tqh_first s' = head (l ++ [i]) ∧ tqh_last s' = tqh_last s ∧
    links s' !! i = Some n0 ∧ dom (links s') = dom (links s) ∧ (∀ j, j ∉ l → links s' !! j = links s !! j).
Proof.
  intros Hc Hf Hnd Hi Hn. destruct l as [|j l _] using rev_ind.
  { eexists. split; [reflexivity|]. cbn. done. }
  rewrite end_slot_snoc. cbn [store_slot]. unfold set_tqe_next.
  apply NoDup_app in Hnd as (Hnd & Hj & _). assert (j ∉ l) as Hjl by (intros Hin; by apply (Hj j Hin); constructor).
  assert (i ≠ j) by set_solver.
  pose proof Hc as Hc'. rewrite chain_app in Hc'. destruct Hc' as (_ & Hjn & _). cbn in Hjn.
  run. rewrite (entry_run _ _ _ Hjn). run. rewrite (set_entry_run _ _ _ _ Hjn).
  eexists. split; [reflexivity|]. cbn [links tqh_first tqh_last]. split_and!; try done.
  - eapply chain_retarget; [exact Hc|done|exact Hjn].
  - rewrite Hf. by destruct l.
  - by rewrite lookup_insert_ne by done.
  - rewrite dom_insert_L. apply elem_of_dom_2 in Hjn. set_solver.
  - intros k Hk. apply lookup_insert_ne. set_solver.
Qed.

(** TAILQ_INSERT_TAIL appends. *)
Lemma insert_tail_run s l i :
  tq_rep s l → i ∉ l → is_Some (links s !! i) →
  ∃ s', TAILQ_INSERT_TAIL i s = Ok (tt, s') ∧ tq_rep s' (l ++ [i]) ∧ dom (links s') = dom (links s).
Proof.
  intros [Hf Hl Hc Hnd] Hi [n Hn]. unfold TAILQ_INSERT_TAIL, set_tqe_next, set_tqe_prev, get_last. run.
  rewrite (entry_run _ _ _ Hn). run. rewrite (set_entry_run _ _ _ _ Hn). run. cbn [tqh_last].
  rewrite (entry_run _ i (Tqe None (tqe_prev n))) by (cbn; apply lookup_insert_eq). run.
  erewrite set_entry_run by (cbn; apply lookup_insert_eq). run. cbn [tqh_first tqh_last links tqe_next].
  rewrite insert_insert_eq, Hl.
  set (s1 := Tailq _ _ _).
  destruct (store_end s1 l i (Tqe None (end_slot AtHead l))) as (s2 & R2 & C2 & F2 & L2 & I2 & D2 & O2);
    unfold s1; cbn [links tqh_first]; [|done|done|done|apply lookup_insert_eq|].
  { eapply chain_ext; [|exact Hc]. intros j Hj. apply lookup_insert_ne. by intros ->. }
  unfold s1 in R2. rewrite R2. run. eexists. split; [reflexivity|].
  cbn [links]. split.
  - split; cbn [tqh_first tqh_last links].
    + done.
    + by rewrite end_slot_snoc.
    + rewrite chain_app. cbn. split; [exact C2|]. by rewrite I2.
    + apply NoDup_app. split_and!; [done| |apply NoDup_singleton]. intros j Hj. set_solver.
  - rewrite D2. unfold s1. cbn [links]. rewrite dom_insert_L. apply elem_of_dom_2 in Hn. set_solver.
Qed.

(** TAILQ_REMOVE takes a node out of any place. *)
Lemma remove_run s l1 i l2 :
  tq_rep s (l1 ++ i :: l2) →
  ∃ s', TAILQ_REMOVE i s = Ok (tt, s') ∧ tq_rep s' (l1 ++ l2) ∧ dom (links s') = dom (links s).
Proof.
  intros [Hf Hl Hc Hnd]. set (a := end_slot AtHead l1).
  pose proof Hc as Hc0. rewrite chain_app in Hc0. cbn [head fmap option_fmap option_map default] in Hc0.
  destruct Hc0 as (C1 & Hi & C2). fold a in Hi.
  apply NoDup_app in Hnd as (N1 & N2 & N3). apply NoDup_cons in N3 as [N3 N4].
  assert (i ∉ l1) as Hi1 by (intros Hin; apply (N2 i Hin); constructor).
  assert (∀ j, j ∈ l1 → j ∉ l2) as N5 by (intros j Hj Hj2; apply (N2 j Hj); by constructor).
  set (q := head l2). assert (default None (Some <$> head l2) = q) as Eq by (unfold q; by destruct l2).
  rewrite Eq in Hi. unfold TAILQ_REMOVE. run. rewrite (entry_run _ _ _ Hi). run. cbn [tqe_next tqe_prev].
  (* the node after, or the head, is told of the slot before *)
  assert (∃ s1, (match q with Some j => set_tqe_prev j a | None => set_last a end) s = Ok (tt, s1) ∧
    tqh_first s1 = tqh_first s ∧ tqh_last s1 = end_slot a l2 ∧ chain (links s1) a l2 None ∧
    dom (links s1) = dom (links s) ∧ ∀ j, j ∉ l2 → links s1 !! j = links s !! j) as
    (s1 & R1 & F1 & L1 & C1' & D1 & O1).
  { unfold q. destruct l2 as [|j l2]; cbn [head].
    - eexists. split; [reflexivity|]. done.
    - cbn [chain] in C2. destruct C2 as [Hj C2]. unfold set_tqe_prev. run. rewrite (entry_run _ _ _ Hj). run.
      rewrite (set_entry_run _ _ _ _ Hj). eexists. split; [reflexivity|]. cbn [tqh_first tqh_last links tqe_next].
      split_and!; [done| | |by rewrite dom_insert_L; apply elem_of_dom_2 in Hj; set_solver|].
      + rewrite Hl. unfold end_slot. rewrite last_app, last_cons_cons. by destruct (last (j :: l2)) eqn:E; [|apply last_None in E].
      + cbn [chain]. rewrite lookup_insert_eq. split; [done|]. apply NoDup_cons in N4 as [N4 _].
        eapply chain_ext; [|exact C2]. intros k Hk. apply lookup_insert_ne. by intros ->.
      + intros k Hk. apply lookup_insert_ne. set_solver. }
  rewrite R1. run. rewrite (entry_run s1 i (Tqe q a)) by (by rewrite O1). run. cbn [tqe_prev tqe_next].
  (* the slot before is told of the node after *)
  assert (chain (links s1) AtHead l1 (Some i)) as C1s.
  { eapply chain_ext; [|exact C1]. intros j Hj. by apply O1, N5. }
  unfold a. destruct l1 as [|j l1 _] using rev_ind.
  { cbn [end_slot last store_slot]. eexists. split; [reflexivity|]. cbn [links]. split; [|done].
    split; cbn [tqh_first tqh_last links app]; done. }
  rewrite end_slot_snoc. cbn [store_slot]. unfold set_tqe_next.
  pose proof C1s as C1t. rewrite chain_app in C1t. destruct C1t as (_ & Hj & _). cbn in Hj.
  assert (j ∉ l1) as Hjl.
  { apply NoDup_app in N1 as (_ & N1 & _). intros Hin. apply (N1 j Hin). constructor. }
  assert (j ∉ l2) as Hj2 by (apply N5; set_solver).
  run. rewrite (entry_run _ _ _ Hj). run. rewrite (set_entry_run _ _ _ _ Hj). eexists. split; [reflexivity|].
  cbn [links]. split; [|by rewrite dom_insert_L, D1; rewrite <- D1; apply elem_of_dom_2 in Hj; set_solver].
  split; cbn [tqh_first tqh_last links].
  - rewrite F1, Hf. by destruct l1.
  - rewrite L1. unfold a, end_slot. rewrite !last_app. by destruct (last l2).
  - rewrite chain_app, Eq. split.
    + eapply (chain_retarget _ _ _ _ (Tqe (Some i) (end_slot AtHead l1))); [exact C1s|done|exact Hj].
    + unfold a in C1'. rewrite end_slot_snoc in *. eapply chain_ext; [|exact C1'].
      intros k Hk. apply lookup_insert_ne. by intros ->.
  - apply NoDup_app. split_and!; done.
Qed.

(** TAILQ_INSERT_HEAD prepends. *)
Lemma insert_head_run s l i :
  tq_rep s l → i ∉ l → is_Some (links s !! i) →
  ∃ s', TAILQ_INSERT_HEAD i s = Ok (tt, s') ∧ tq_rep s' (i :: l) ∧ dom (links s') = dom (links s).
Proof.
  intros [Hf Hl Hc Hnd] Hi [n Hn]. unfold TAILQ_INSERT_HEAD, set_tqe_next, get_first. run. rewrite Hf.
  rewrite (entry_run _ _ _ Hn). run. rewrite (set_entry_run _ _ _ _ Hn). run.
  set (s1 := Tailq _ _ _).
  assert (∃ s2, (match head l with Some j => set_tqe_prev j (AtNode i) | None => set_last (AtNode i) end) s1 = Ok (tt, s2) ∧
    tqh_last s2 = end_slot AtHead (i :: l) ∧ chain (links s2) (AtNode i) l None ∧
    links s2 !! i = Some (Tqe (head l) (tqe_prev n)) ∧ dom (links s2) = dom (links s)) as (s2 & R2 & L2 & C2 & I2 & D2).
  { assert (dom (links s1) = dom (links s)) as D1
      by (unfold s1; cbn; rewrite dom_insert_L; apply elem_of_dom_2 in Hn; set_solver).
    destruct l as [|j l]; cbn [head].
    - eexists. split; [reflexivity|]. cbn. rewrite lookup_insert_eq. done.
    - destruct Hc as [Hj Hc]. unfold set_tqe_prev. assert (i ≠ j) by set_solver.
      assert (links s1 !! j = Some (Tqe (default None (Some <$> head l)) AtHead)) as Hj1
        by (unfold s1; cbn [links]; by rewrite lookup_insert_ne).
      run. rewrite (entry_run _ _ _ Hj1). run. rewrite (set_entry_run _ _ _ _ Hj1). eexists. split; [reflexivity|].
      cbn [tqh_last links tqe_next]. split_and!.
      + unfold s1. cbn [tqh_last]. rewrite Hl. unfold end_slot. rewrite last_cons_cons.
        by destruct (last (j :: l)) eqn:E; [|apply last_None in E].
      + cbn [chain]. rewrite lookup_insert_eq. split; [done|]. apply NoDup_cons in Hnd as [Hnd _].
        eapply chain_ext; [|exact Hc]. intros k Hk. rewrite lookup_insert_ne by (by intros ->).
        unfold s1. cbn [links]. apply lookup_insert_ne. set_solver.
      + rewrite lookup_insert_ne by done. unfold s1. apply lookup_insert_eq.
      + rewrite dom_insert_L, D1. rewrite <- D1. apply elem_of_dom_2 in Hj1. set_solver. }
  rewrite R2. run. cbn [store_slot]. run. unfold set_tqe_prev. run.
  rewrite (entry_run _ i (Tqe (head l) (tqe_prev n))) by exact I2. run.
  erewrite set_entry_run by exact I2. eexists. split; [reflexivity|]. cbn [links tqh_first tqh_last tqe_next].
  split; [|by rewrite dom_insert_L, <- D2; apply elem_of_dom_2 in I2; set_solver].
  split; cbn [tqh_first tqh_last links].
  - done.
  - done.
  - cbn [chain]. rewrite lookup_insert_eq. split; [by destruct l|].
    eapply chain_ext; [|exact C2]. intros j Hj. apply lookup_insert_ne. by intros ->.
  - by apply NoDup_cons.
Qed.
