(* ===== verification/BsdTree.v ===== *)
(** * Red-black trees of coroutines (src/kv_store/Ntyco/nty_tree.h)

    The functions that RB_GENERATE expands to for the trees of waiting and of
    sleeping coroutines, at the level of their links.  Nodes are coroutines;
    NULL is [None], following it is a fault, and so is following a pointer to
    a node without an entry.  The comparison function of both trees orders
    nodes by one integer, [key].  RB_AUGMENT is empty in this program.

    Loops take as fuel one more than the number of entries, which bounds the
    length of every path; the facts in [BsdTreeIns], [BsdTreeSearch] and
    [BsdTreeDel] show that it suffices. *)

From S2P Require Import Prelude.

(* src/kv_store/Ntyco/nty_tree.h:290-290 RB_BLACK *)
Definition RB_BLACK : Z := 0.
(* src/kv_store/Ntyco/nty_tree.h:291-291 RB_RED *)
Definition RB_RED : Z := 1.

Abbreviation ref := (option nat).

(* src/kv_store/Ntyco/nty_tree.h:293-299 RB_ENTRY *)
Record rbe := Rbe { rbe_left : ref; rbe_right : ref; rbe_parent : ref; rbe_color : Z }.

(* src/kv_store/Ntyco/nty_tree.h:277-280 RB_HEAD *)
(** With the entries of all nodes. *)
Record rbhead := RbHead { rbh_root : ref; rbh_ents : gmap nat rbe }.

Abbreviation rbp := (prog rbhead).

(** ** Access *)

(** [p->field.f] *)
Definition rb_get {A} (p : ref) (f : rbe → A) : rbp A := λ s,
  match p with
  | None => Err NullDeref
  | Some i => match rbh_ents s !! i with Some n => Ok (f n, s) | None => Err UseAfterFree end
  end.

(** [p->field.f = ...] *)
Definition rb_upd (p : ref) (g : rbe → rbe) : rbp unit := λ s,
  match p with
  | None => Err NullDeref
  | Some i => match rbh_ents s !! i with
              | Some n => Ok (tt, RbHead (rbh_root s) (<[i := g n]> (rbh_ents s)))
              | None => Err UseAfterFree
              end
  end.

Definition wleft (q : ref) (n : rbe) : rbe := Rbe q (rbe_right n) (rbe_parent n) (rbe_color n).
Definition wright (q : ref) (n : rbe) : rbe := Rbe (rbe_left n) q (rbe_parent n) (rbe_color n).
Definition wparent (q : ref) (n : rbe) : rbe := Rbe (rbe_left n) (rbe_right n) q (rbe_color n).
Definition wcolor (c : Z) (n : rbe) : rbe := Rbe (rbe_left n) (rbe_right n) (rbe_parent n) c.

(* src/kv_store/Ntyco/nty_tree.h:301-301 RB_LEFT *)
Definition RB_LEFT (p : ref) : rbp ref := rb_get p rbe_left.
(* src/kv_store/Ntyco/nty_tree.h:302-302 RB_RIGHT *)
Definition RB_RIGHT (p : ref) : rbp ref := rb_get p rbe_right.
(* src/kv_store/Ntyco/nty_tree.h:303-303 RB_PARENT *)
Definition RB_PARENT (p : ref) : rbp ref := rb_get p rbe_parent.
(* src/kv_store/Ntyco/nty_tree.h:304-304 RB_COLOR *)
Definition RB_COLOR (p : ref) : rbp Z := rb_get p rbe_color.
(* src/kv_store/Ntyco/nty_tree.h:305-305 RB_ROOT *)
Definition RB_ROOT : rbp ref := λ s, Ok (rbh_root s, s).
Definition wroot (q : ref) : rbp unit := λ s, Ok (tt, RbHead q (rbh_ents s)).

(* src/kv_store/Ntyco/nty_tree.h:306-306 RB_EMPTY *)
Definition RB_EMPTY : rbp bool := r ← RB_ROOT; mret (bool_decide (r = None)).

(* src/kv_store/Ntyco/nty_tree.h:285-287 RB_INIT *)
Definition RB_INIT : rbp unit := wroot None.

(* src/kv_store/Ntyco/nty_tree.h:308-312 RB_SET *)
Definition RB_SET (elm parent : ref) : rbp unit :=
  _ ← rb_upd elm (wparent parent);
  _ ← rb_upd elm (wright None);
  _ ← rb_upd elm (wleft None);
  rb_upd elm (wcolor RB_RED).

(* src/kv_store/Ntyco/nty_tree.h:314-317 RB_SET_BLACKRED *)
Definition RB_SET_BLACKRED (black red : ref) : rbp unit :=
  _ ← rb_upd black (wcolor RB_BLACK);
  rb_upd red (wcolor RB_RED).

(** [p == NULL || RB_COLOR(p) == RB_BLACK] *)
Definition black_at (p : ref) : rbp bool :=
  match p with None => mret true | Some _ => c ← RB_COLOR p; mret (c =? RB_BLACK) end.

(** [p && RB_COLOR(p) == RB_RED] *)
Definition red_at (p : ref) : rbp bool :=
  match p with None => mret false | Some _ => c ← RB_COLOR p; mret (c =? RB_RED) end.

(** [p && ...] where the effect is optional. *)
Definition unless_null (p : ref) (m : rbp unit) : rbp unit :=
  match p with None => mret tt | Some _ => m end.

Definition same (p q : ref) : bool := bool_decide (p = q).

Definition tree_fuel (s : rbhead) : nat := S (size (rbh_ents s)).
Definition with_fuel {A} (f : nat → rbp A) : rbp A := λ s, f (tree_fuel s) s.

(** ** Rotation *)

(* src/kv_store/Ntyco/nty_tree.h:325-343 RB_ROTATE_LEFT *)
Definition RB_ROTATE_LEFT (elm : ref) : rbp unit :=
  tmp ← RB_RIGHT elm;
  b ← RB_LEFT tmp;
  _ ← rb_upd elm (wright b);
  _ ← unless_null b (rb_upd b (wparent elm));
  p ← RB_PARENT elm;
  _ ← rb_upd tmp (wparent p);
  _ ← match p with
      | None => wroot tmp
      | Some _ =>
          l ← RB_LEFT p;
          if same elm l then rb_upd p (wleft tmp) else rb_upd p (wright tmp)
      end;
  _ ← rb_upd tmp (wleft elm);
  rb_upd elm (wparent tmp).

(* src/kv_store/Ntyco/nty_tree.h:346-364 RB_ROTATE_RIGHT *)
Definition RB_ROTATE_RIGHT (elm : ref) : rbp unit :=
  tmp ← RB_LEFT elm;
  b ← RB_RIGHT tmp;
  _ ← rb_upd elm (wleft b);
  _ ← unless_null b (rb_upd b (wparent elm));
  p ← RB_PARENT elm;
  _ ← rb_upd tmp (wparent p);
  _ ← match p with
      | None => wroot tmp
      | Some _ =>
          l ← RB_LEFT p;
          if same elm l then rb_upd p (wleft tmp) else rb_upd p (wright tmp)
      end;
  _ ← rb_upd tmp (wright elm);
  rb_upd elm (wparent tmp).

(** ** Insertion *)

(* src/kv_store/Ntyco/nty_tree.h:396-411 RB_INSERT_COLOR *)
(** The body of the loop for a parent that is a left child; the result is the
    new [elm]. *)
Definition insert_color_left (elm parent gparent : ref) : rbp ref :=
  tmp ← RB_RIGHT gparent;
  red ← red_at tmp;
  if red : bool then
    _ ← rb_upd tmp (wcolor RB_BLACK);
    _ ← RB_SET_BLACKRED parent gparent;
    mret gparent
  else
    pr ← RB_RIGHT parent;
    '(parent, elm) ← (if same pr elm
                      then _ ← RB_ROTATE_LEFT parent; mret (elm, parent)
                      else mret (parent, elm));
    _ ← RB_SET_BLACKRED parent gparent;
    _ ← RB_ROTATE_RIGHT gparent;
    mret elm.

(* src/kv_store/Ntyco/nty_tree.h:412-428 RB_INSERT_COLOR *)
Definition insert_color_right (elm parent gparent : ref) : rbp ref :=
  tmp ← RB_LEFT gparent;
  red ← red_at tmp;
  if red : bool then
    _ ← rb_upd tmp (wcolor RB_BLACK);
    _ ← RB_SET_BLACKRED parent gparent;
    mret gparent
  else
    pl ← RB_LEFT parent;
    '(parent, elm) ← (if same pl elm
                      then _ ← RB_ROTATE_RIGHT parent; mret (elm, parent)
                      else mret (parent, elm));
    _ ← RB_SET_BLACKRED parent gparent;
    _ ← RB_ROTATE_LEFT gparent;
    mret elm.

(* src/kv_store/Ntyco/nty_tree.h:393-429 RB_INSERT_COLOR *)
Fixpoint insert_color_loop (fuel : nat) (elm : ref) : rbp unit :=
  match fuel with
  | O => stop OutOfFuel
  | S fuel' =>
      parent ← RB_PARENT elm;
      red ← red_at parent;
      if red : bool then
        gparent ← RB_PARENT parent;
        l ← RB_LEFT gparent;
        elm ← (if same parent l then insert_color_left elm parent gparent
               else insert_color_right elm parent gparent);
        insert_color_loop fuel' elm
      else mret tt
  end.

(* src/kv_store/Ntyco/nty_tree.h:390-431 RB_INSERT_COLOR *)
Definition RB_INSERT_COLOR (elm : ref) : rbp unit :=
  _ ← with_fuel (λ fuel, insert_color_loop fuel elm);
  root ← RB_ROOT;
  rb_upd root (wcolor RB_BLACK).

(* src/kv_store/Ntyco/nty_schedule.c nty_coroutine_sleep_cmp *)
(** On [sleep_usecs] of the two coroutines. *)
Definition nty_coroutine_sleep_cmp (u1 u2 : Z) : Z :=
  if u1 <? u2 then -1 else if u1 =? u2 then 0 else 1.

(* src/kv_store/Ntyco/nty_schedule.c nty_coroutine_wait_cmp *)
(** On the descriptors, CANCEL_FD_WAIT_UINT64 being set. *)
Definition nty_coroutine_wait_cmp (fd1 fd2 : Z) : Z :=
  if fd1 <? fd2 then -1 else if fd1 =? fd2 then 0 else 1.

(** Both trees compare in the same way, so that one [key] serves them. *)
Lemma same_cmp a b : nty_coroutine_wait_cmp a b = nty_coroutine_sleep_cmp a b.
Proof. reflexivity. Qed.

Section keyed.
Variable key : nat → Z.

(** [cmp(elm, tmp)], with the key of [elm]: the comparison function of either
    tree, applied to the field it compares. *)
Definition cmp (k : Z) (tmp : nat) : Z := nty_coroutine_sleep_cmp k (key tmp).

(* src/kv_store/Ntyco/nty_tree.h:585-594 RB_INSERT *)
(** The loop that finds the place of a key: a node with the same key, or the
    node to hang the new one below with the last comparison. *)
Fixpoint insert_descend (fuel : nat) (k : Z) (tmp parent : ref) (comp : Z) : rbp (nat + ref * Z) :=
  match fuel with
  | O => stop OutOfFuel
  | S fuel' =>
      match tmp with
      | None => mret (inr (parent, comp))
      | Some i =>
          let comp := cmp k i in
          if comp <? 0 then tmp ← RB_LEFT (Some i); insert_descend fuel' k tmp (Some i) comp
          else if 0 <? comp then tmp ← RB_RIGHT (Some i); insert_descend fuel' k tmp (Some i) comp
          else mret (inl i)
      end
  end.

(* src/kv_store/Ntyco/nty_tree.h:578-606 RB_INSERT *)
Definition RB_INSERT (elm : nat) : rbp ref :=
  root ← RB_ROOT;
  r ← with_fuel (λ fuel, insert_descend fuel (key elm) root None 0);
  match r with
  | inl tmp => mret (Some tmp)
  | inr (parent, comp) =>
      _ ← RB_SET (Some elm) parent;
      _ ← match parent with
          | Some _ => if comp <? 0 then rb_upd parent (wleft (Some elm)) else rb_upd parent (wright (Some elm))
          | None => wroot (Some elm)
          end;
      _ ← RB_INSERT_COLOR (Some elm);
      mret None
  end.

(** ** Search *)

(* src/kv_store/Ntyco/nty_tree.h:613-622 RB_FIND *)
Fixpoint find_loop (fuel : nat) (k : Z) (tmp : ref) : rbp ref :=
  match fuel with
  | O => stop OutOfFuel
  | S fuel' =>
      match tmp with
      | None => mret None
      | Some i =>
          let comp := cmp k i in
          if comp <? 0 then tmp ← RB_LEFT (Some i); find_loop fuel' k tmp
          else if 0 <? comp then tmp ← RB_RIGHT (Some i); find_loop fuel' k tmp
          else mret (Some i)
      end
  end.

(* src/kv_store/Ntyco/nty_tree.h:608-623 RB_FIND *)
(** Of the node given only its key is used. *)
Definition RB_FIND (k : Z) : rbp ref :=
  root ← RB_ROOT;
  with_fuel (λ fuel, find_loop fuel k root).

(* src/kv_store/Ntyco/nty_tree.h:632-643 RB_NFIND *)
Fixpoint nfind_loop (fuel : nat) (k : Z) (tmp res : ref) : rbp ref :=
  match fuel with
  | O => stop OutOfFuel
  | S fuel' =>
      match tmp with
      | None => mret res
      | Some i =>
          let comp := cmp k i in
          if comp <? 0 then tmp ← RB_LEFT (Some i); nfind_loop fuel' k tmp (Some i)
          else if 0 <? comp then tmp ← RB_RIGHT (Some i); nfind_loop fuel' k tmp res
          else mret (Some i)
      end
  end.

(* src/kv_store/Ntyco/nty_tree.h:625-644 RB_NFIND *)
Definition RB_NFIND (k : Z) : rbp ref :=
  root ← RB_ROOT;
  with_fuel (λ fuel, nfind_loop fuel k root None).
End keyed.

(** ** Ends and neighbours *)

(* src/kv_store/Ntyco/nty_tree.h:695-702 RB_MINMAX *)
Fixpoint minmax_loop (fuel : nat) (val : Z) (tmp parent : ref) : rbp ref :=
  match fuel with
  | O => stop OutOfFuel
  | S fuel' =>
      match tmp with
      | None => mret parent
      | Some _ =>
          next ← (if val <? 0 then RB_LEFT tmp else RB_RIGHT tmp);
          minmax_loop fuel' val next tmp
      end
  end.

(* src/kv_store/Ntyco/nty_tree.h:690-703 RB_MINMAX *)
Definition RB_MINMAX (val : Z) : rbp ref :=
  root ← RB_ROOT;
  with_fuel (λ fuel, minmax_loop fuel val root None).

(* src/kv_store/Ntyco/nty_tree.h:714-714 RB_MIN *)
Definition RB_MIN : rbp ref := RB_MINMAX (-1).
(* src/kv_store/Ntyco/nty_tree.h:715-715 RB_MAX *)
Definition RB_MAX : rbp ref := RB_MINMAX 1.

(** [while (next(elm)) elm = next(elm);] *)
Fixpoint follow (next : ref → rbp ref) (fuel : nat) (elm : ref) : rbp ref :=
  match fuel with
  | O => stop OutOfFuel
  | S fuel' =>
      q ← next elm;
      match q with None => mret elm | Some _ => follow next fuel' q end
  end.

(** [while (RB_PARENT(elm) && elm == side(RB_PARENT(elm))) elm = RB_PARENT(elm);] *)
Fixpoint climb (side : ref → rbp ref) (fuel : nat) (elm : ref) : rbp ref :=
  match fuel with
  | O => stop OutOfFuel
  | S fuel' =>
      p ← RB_PARENT elm;
      match p with
      | None => mret elm
      | Some _ => q ← side p; if same elm q then climb side fuel' p else mret elm
      end
  end.

(** [RB_PARENT(elm) && elm == side(RB_PARENT(elm))] *)
Definition hangs (side : ref → rbp ref) (elm p : ref) : rbp bool :=
  match p with None => mret false | Some _ => q ← side p; mret (same elm q) end.

(* src/kv_store/Ntyco/nty_tree.h:646-666 RB_NEXT *)
Definition RB_NEXT (elm : ref) : rbp ref :=
  r ← RB_RIGHT elm;
  match r with
  | Some _ => with_fuel (λ fuel, follow RB_LEFT fuel r)
  | None =>
      p ← RB_PARENT elm;
      b ← hangs RB_LEFT elm p;
      if b : bool then mret p
      else elm ← with_fuel (λ fuel, climb RB_RIGHT fuel elm); RB_PARENT elm
  end.

(* src/kv_store/Ntyco/nty_tree.h:668-688 RB_PREV *)
Definition RB_PREV (elm : ref) : rbp ref :=
  l ← RB_LEFT elm;
  match l with
  | Some _ => with_fuel (λ fuel, follow RB_RIGHT fuel l)
  | None =>
      p ← RB_PARENT elm;
      b ← hangs RB_RIGHT elm p;
      if b : bool then mret p
      else elm ← with_fuel (λ fuel, climb RB_LEFT fuel elm); RB_PARENT elm
  end.

(** ** Removal *)

(** [(RB_LEFT(tmp) == NULL || RB_COLOR(RB_LEFT(tmp)) == RB_BLACK) && ...] *)
Definition children_black (tmp : ref) : rbp bool :=
  l ← RB_LEFT tmp;
  lb ← black_at l;
  if lb : bool then r ← RB_RIGHT tmp; black_at r else mret false.

(* src/kv_store/Ntyco/nty_tree.h:439-471 RB_REMOVE_COLOR *)
(** The body of the loop when [elm] is a left child: the new [parent] and
    [elm], or the [elm] with which the loop is left. *)
Definition remove_color_left (parent elm : ref) : rbp (ref * ref + ref) :=
  tmp ← RB_RIGHT parent;
  c ← RB_COLOR tmp;
  tmp ← (if c =? RB_RED then
           _ ← RB_SET_BLACKRED tmp parent;
           _ ← RB_ROTATE_LEFT parent;
           RB_RIGHT parent
         else mret tmp);
  both ← children_black tmp;
  if both : bool then
    _ ← rb_upd tmp (wcolor RB_RED);
    p ← RB_PARENT parent;
    mret (inl (p, parent))
  else
    r ← RB_RIGHT tmp;
    rb ← black_at r;
    tmp ← (if rb : bool then
             oleft ← RB_LEFT tmp;
             _ ← unless_null oleft (rb_upd oleft (wcolor RB_BLACK));
             _ ← rb_upd tmp (wcolor RB_RED);
             _ ← RB_ROTATE_RIGHT tmp;
             RB_RIGHT parent
           else mret tmp);
    pc ← RB_COLOR parent;
    _ ← rb_upd tmp (wcolor pc);
    _ ← rb_upd parent (wcolor RB_BLACK);
    r ← RB_RIGHT tmp;
    _ ← unless_null r (rb_upd r (wcolor RB_BLACK));
    _ ← RB_ROTATE_LEFT parent;
    root ← RB_ROOT;
    mret (inr root).

(* src/kv_store/Ntyco/nty_tree.h:472-505 RB_REMOVE_COLOR *)
Definition remove_color_right (parent elm : ref) : rbp (ref * ref + ref) :=
  tmp ← RB_LEFT parent;
  c ← RB_COLOR tmp;
  tmp ← (if c =? RB_RED then
           _ ← RB_SET_BLACKRED tmp parent;
           _ ← RB_ROTATE_RIGHT parent;
           RB_LEFT parent
         else mret tmp);
  both ← children_black tmp;
  if both : bool then
    _ ← rb_upd tmp (wcolor RB_RED);
    p ← RB_PARENT parent;
    mret (inl (p, parent))
  else
    l ← RB_LEFT tmp;
    lb ← black_at l;
    tmp ← (if lb : bool then
             oright ← RB_RIGHT tmp;
             _ ← unless_null oright (rb_upd oright (wcolor RB_BLACK));
             _ ← rb_upd tmp (wcolor RB_RED);
             _ ← RB_ROTATE_LEFT tmp;
             RB_LEFT parent
           else mret tmp);
    pc ← RB_COLOR parent;
    _ ← rb_upd tmp (wcolor pc);
    _ ← rb_upd parent (wcolor RB_BLACK);
    l ← RB_LEFT tmp;
    _ ← unless_null l (rb_upd l (wcolor RB_BLACK));
    _ ← RB_ROTATE_RIGHT parent;
    root ← RB_ROOT;
    mret (inr root).

(* src/kv_store/Ntyco/nty_tree.h:437-506 RB_REMOVE_COLOR *)
Fixpoint remove_color_loop (fuel : nat) (parent elm : ref) : rbp ref :=
  match fuel with
  | O => stop OutOfFuel
  | S fuel' =>
      black ← black_at elm;
      root ← RB_ROOT;
      if black && negb (same elm root) then
        l ← RB_LEFT parent;
        r ← (if same l elm then remove_color_left parent elm else remove_color_right parent elm);
        match r with
        | inl (parent, elm) => remove_color_loop fuel' parent elm
        | inr elm => mret elm
        end
      else mret elm
  end.

(* src/kv_store/Ntyco/nty_tree.h:433-509 RB_REMOVE_COLOR *)
Definition RB_REMOVE_COLOR (parent elm : ref) : rbp unit :=
  elm ← with_fuel (λ fuel, remove_color_loop fuel parent elm);
  unless_null elm (rb_upd elm (wcolor RB_BLACK)).

(* src/kv_store/Ntyco/nty_tree.h:564-571 RB_REMOVE *)
(** [q] takes the place of [x] below [p]; lines 530-537 and 541-548 have the
    same shape. *)
Definition reseat (p x q : ref) : rbp unit :=
  match p with
  | Some _ =>
      l ← RB_LEFT p;
      if same l x then rb_upd p (wleft q) else rb_upd p (wright q)
  | None => wroot q
  end.

(* src/kv_store/Ntyco/nty_tree.h:562-571 RB_REMOVE *)
(** [child] takes the place of [elm] below [parent]; also lines 528-537. *)
Definition splice (elm parent child : ref) : rbp unit :=
  _ ← unless_null child (rb_upd child (wparent parent));
  reseat parent elm child.

(* src/kv_store/Ntyco/nty_tree.h:540-551 RB_REMOVE *)
(** [elm] takes over the entry of [old] and its place in the tree. *)
Definition take_over (old elm : ref) : rbp unit :=
  field ← rb_get old (λ n, n);
  _ ← rb_upd elm (λ _, field);
  op ← RB_PARENT old;
  _ ← reseat op old elm;
  ol ← RB_LEFT old;
  _ ← rb_upd ol (wparent elm);
  or ← RB_RIGHT old;
  unless_null or (rb_upd or (wparent elm)).

(* src/kv_store/Ntyco/nty_tree.h:553-556 RB_REMOVE *)
(** The walk to the root that would call RB_AUGMENT. *)
Fixpoint walk_up (fuel : nat) (left : ref) : rbp unit :=
  match fuel with
  | O => stop OutOfFuel
  | S fuel' =>
      left ← RB_PARENT left;
      match left with None => mret tt | Some _ => walk_up fuel' left end
  end.

(* src/kv_store/Ntyco/nty_tree.h:520-559 RB_REMOVE *)
(** The case of two children: the next node in order leaves its place and
    takes that of [old].  The result is [parent], [child] and [color]. *)
Definition remove_two (old : ref) : rbp (ref * ref * Z) :=
  elm ← RB_RIGHT old;
  elm ← with_fuel (λ fuel, follow RB_LEFT fuel elm);
  child ← RB_RIGHT elm;
  parent ← RB_PARENT elm;
  color ← RB_COLOR elm;
  _ ← splice elm parent child;
  ep ← RB_PARENT elm;
  let parent := if same ep old then elm else parent in
  _ ← take_over old elm;
  _ ← unless_null parent (with_fuel (λ fuel, walk_up fuel parent));
  mret (parent, child, color).

(* src/kv_store/Ntyco/nty_tree.h:516-571 RB_REMOVE *)
(** [elm], with the children [l] and [r], is taken out of the links. *)
Definition unhook (elm l r : ref) : rbp (ref * ref * Z) :=
  match l, r with
  | Some _, Some _ => remove_two elm
  | _, _ =>
      let child := match l with None => r | Some _ => l end in
      parent ← RB_PARENT elm;
      color ← RB_COLOR elm;
      _ ← splice elm parent child;
      mret (parent, child, color)
  end.

(* src/kv_store/Ntyco/nty_tree.h:511-576 RB_REMOVE *)
Definition RB_REMOVE (old : nat) : rbp ref :=
  l ← RB_LEFT (Some old);
  r ← RB_RIGHT (Some old);
  '(parent, child, color) ← unhook (Some old) l r;
  _ ← (if color =? RB_BLACK then RB_REMOVE_COLOR parent child else mret tt);
  mret (Some old).
