(* ===== verification/BsdTreeZip.v ===== *)
(** * Red-black trees of coroutines: trees in the links

    [brep s ctx t]: the entries of [s] hold the tree obtained by putting [t]
    into the context [ctx], parent pointers included.  Reading, recolouring
    and rotating are specified at the focus, for both directions at once. *)

From S2P Require Import Prelude RbShape BsdTree.

(** ** Directions *)

Definition bchild (d : dir) : rbe → ref := match d with L => rbe_left | R => rbe_right end.
Definition wchild (d : dir) : ref → rbe → rbe := match d with L => wleft | R => wright end.

(** [q] in the place that [x] has below [p], or at the root. *)
Definition relink_above (p x q : ref) : rbp unit :=
  match p with
  | None => wroot q
  | Some _ =>
      l ← RB_LEFT p;
      if same x l then rb_upd p (wleft q) else rb_upd p (wright q)
  end.

Definition brotate (d : dir) (x : ref) : rbp unit :=
  y ← rb_get x (bchild (opp d));
  b ← rb_get y (bchild d);
  _ ← rb_upd x (wchild (opp d) b);
  _ ← unless_null b (rb_upd b (wparent x));
  p ← RB_PARENT x;
  _ ← rb_upd y (wparent p);
  _ ← relink_above p x y;
  _ ← rb_upd y (wchild d x);
  rb_upd x (wparent y).

Lemma rotate_left_dir x : RB_ROTATE_LEFT x = brotate L x.
Proof. reflexivity. Qed.
Lemma rotate_right_dir x : RB_ROTATE_RIGHT x = brotate R x.
Proof. reflexivity. Qed.

(** ** Trees in the entries *)

Abbreviation btree := (tree nat).
Abbreviation bframe := (frame nat).

Definition bz (c : col) : Z := match c with Red => RB_RED | Black => RB_BLACK end.

Lemma bz_red c : (bz c =? RB_RED) = is_red c.
Proof. by destruct c. Qed.
Lemma bz_black c : (bz c =? RB_BLACK) = negb (is_red c).
Proof. by destruct c. Qed.

Definition bnode (d : dir) (c : col) (p a b : ref) : rbe :=
  match d with L => Rbe a b p (bz c) | R => Rbe b a p (bz c) end.

Definition top (t : btree) : ref := match t with Leaf => None | T _ _ x _ => Some x end.
Definition ctop (ctx : list bframe) : ref := match ctx with [] => None | f :: _ => Some (f_ent f) end.

Fixpoint tnodes (t : btree) : list nat :=
  match t with Leaf => [] | T _ l x r => x :: tnodes l ++ tnodes r end.
Fixpoint cnodes (ctx : list bframe) : list nat :=
  match ctx with [] => [] | f :: ctx' => f_ent f :: tnodes (f_sib f) ++ cnodes ctx' end.

Section rep.
Variable h : gmap nat rbe.

(** The tree [t], its root having the parent [p]. *)
Fixpoint btrep (p : ref) (t : btree) : Prop :=
  match t with
  | Leaf => True
  | T c l x r => h !! x = Some (bnode L c p (top l) (top r)) ∧ btrep (Some x) l ∧ btrep (Some x) r
  end.

(** The context, with [q] in its hole. *)
Fixpoint bcrep (root : ref) (ctx : list bframe) (q : ref) : Prop :=
  match ctx with
  | [] => root = q
  | Fr d c x sib :: ctx' =>
      h !! x = Some (bnode d c (ctop ctx') q (top sib)) ∧ btrep (Some x) sib ∧ bcrep root ctx' (Some x)
  end.

Lemma btrep_mk p d c x a b :
  btrep p (mk d c x a b) ↔ h !! x = Some (bnode d c p (top a) (top b)) ∧ btrep (Some x) a ∧ btrep (Some x) b.
Proof. destruct d; simpl; tauto. Qed.
End rep.

Lemma btrep_ext h h' p t :
  (∀ z, z ∈ tnodes t → h' !! z = h !! z) → btrep h p t → btrep h' p t.
Proof.
  revert p. induction t as [|c l IHl x r IHr]; intros p Hx; simpl; [done|].
  intros (H1 & H2 & H3). simpl in Hx. split_and!.
  - rewrite Hx by set_solver. done.
  - apply IHl; [|done]. intros z Hz. apply Hx. set_solver.
  - apply IHr; [|done]. intros z Hz. apply Hx. set_solver.
Qed.

Lemma bcrep_ext h h' root ctx q :
  (∀ z, z ∈ cnodes ctx → h' !! z = h !! z) → bcrep h root ctx q → bcrep h' root ctx q.
Proof.
  revert q. induction ctx as [|[d c x sib] ctx IH]; intros q Hx; simpl; [done|].
  intros (H1 & H2 & H3). simpl in Hx. split_and!.
  - rewrite Hx by set_solver. done.
  - eapply btrep_ext; [|done]. intros z Hz. apply Hx. set_solver.
  - apply IH; [|done]. intros z Hz. apply Hx. set_solver.
Qed.

Lemma tnodes_mk d c x a b : tnodes (mk d c x a b) ≡ₚ x :: tnodes a ++ tnodes b.
Proof. destruct d; simpl; [done|]. by rewrite (Permutation_app_comm (tnodes b)). Qed.

Lemma top_mk d c x a b : top (mk d c x a b) = Some x.
Proof. by destruct d. Qed.

Lemma top_in t x : top t = Some x → x ∈ tnodes t.
Proof. destruct t; [done|]. intros [= ->]. cbn. set_solver. Qed.

Lemma tnodes_elems t : tnodes t ≡ₚ elems t.
Proof. induction t as [|c l IHl x r IHr]; simpl; [done|]. rewrite IHl, IHr. by rewrite Permutation_middle. Qed.

(** The nodes of the whole tree. *)
Definition bnodes (ctx : list bframe) (t : btree) : list nat := elems (plug ctx t).

Lemma bnodes_split ctx t : bnodes ctx t ≡ₚ cnodes ctx ++ tnodes t.
Proof.
  unfold bnodes. rewrite <- tnodes_elems. revert t.
  induction ctx as [|[d c x sib] ctx IH]; intros t; [done|].
  cbn [plug cnodes f_dir f_col f_ent f_sib]. rewrite IH, tnodes_mk. solve_Permutation.
Qed.

(** ** The state at a focus *)

Record brep (s : rbhead) (ctx : list bframe) (t : btree) : Prop := {
  br_ctx : bcrep (rbh_ents s) (rbh_root s) ctx (top t);
  br_tree : btrep (rbh_ents s) (ctop ctx) t;
  br_nodup : NoDup (cnodes ctx ++ tnodes t);
}.

(** [s'] differs from [s] at most in the nodes [ls] and the root. *)
Definition within (ls : list nat) (s s' : rbhead) : Prop :=
  dom (rbh_ents s') = dom (rbh_ents s) ∧ ∀ z, z ∉ ls → rbh_ents s' !! z = rbh_ents s !! z.

Lemma within_refl ls s : within ls s s.
Proof. done. Qed.

Lemma within_trans ls1 ls2 s1 s2 s3 :
  within ls1 s1 s2 → within ls2 s2 s3 → within (ls1 ++ ls2) s1 s3.
Proof.
  intros (A3 & A4) (B3 & B4). unfold within. rewrite B3, A3. split; [done|].
  intros z Hz. rewrite B4, A4; set_solver.
Qed.

Lemma within_mono ls ls' s s' : (∀ z, z ∈ ls → z ∈ ls') → within ls s s' → within ls' s s'.
Proof. intros H (A3 & A4). split; [done|]. intros z Hz. apply A4. auto. Qed.

Lemma within_twice ls s1 s2 s3 : within ls s1 s2 → within ls s2 s3 → within ls s1 s3.
Proof. intros H1 H2. eapply within_mono; [|exact (within_trans _ _ _ _ _ H1 H2)]. set_solver. Qed.

Lemma within_ne ls s s' z : within ls s s' → z ∉ ls → rbh_ents s' !! z = rbh_ents s !! z.
Proof. intros (_ & H). apply H. Qed.

Lemma within_fuel ls s s' : within ls s s' → tree_fuel s' = tree_fuel s.
Proof. intros (Hd & _). unfold tree_fuel. f_equal. by rewrite <- !size_dom, Hd. Qed.

Lemma within_nodes ctx t s s' ls :
  within ls s s' → (∀ z, z ∈ ls → z ∈ cnodes ctx ++ tnodes t) → within (bnodes ctx t) s s'.
Proof. intros Hf Hls. eapply within_mono; [|done]. intros z Hz. rewrite bnodes_split. auto. Qed.

Lemma brep_up s d c x sib ctx t :
  brep s (Fr d c x sib :: ctx) t ↔ brep s ctx (mk d c x t sib).
Proof.
  assert (cnodes (Fr d c x sib :: ctx) ++ tnodes t ≡ₚ cnodes ctx ++ tnodes (mk d c x t sib)) as Hp.
  { rewrite tnodes_mk. simpl. rewrite <- Permutation_middle. f_equiv. solve_Permutation. }
  split; intros [H1 H2 H3]; constructor; try done.
  - rewrite top_mk. apply H1.
  - apply btrep_mk. simpl in H1. destruct H1 as (? & ? & ?). done.
  - by rewrite <- Hp.
  - rewrite top_mk in H1. apply btrep_mk in H2 as (? & ? & ?). done.
  - apply btrep_mk in H2 as (? & ? & ?). done.
  - by rewrite Hp.
Qed.

Lemma brep_out s d c x sib ctx t : brep s (Fr d c x sib :: ctx) t → brep s ctx (mk d c x t sib).
Proof. apply brep_up. Qed.
Lemma brep_in s d c x sib ctx t : brep s ctx (mk d c x t sib) → brep s (Fr d c x sib :: ctx) t.
Proof. apply brep_up. Qed.

Lemma brep_plug s ctx1 ctx2 t : brep s (ctx1 ++ ctx2) t ↔ brep s ctx2 (plug ctx1 t).
Proof.
  revert t. induction ctx1 as [|[d c x sib] ctx1 IH]; intros t; [done|].
  cbn [app]. rewrite brep_up, IH. done.
Qed.

(** ** Reads and writes *)

Lemma rb_get_run {A} s x n (f : rbe → A) :
  rbh_ents s !! x = Some n → rb_get (Some x) f s = Ok (f n, s).
Proof. intros Hn. unfold rb_get. by rewrite Hn. Qed.

(** The state after a write. *)
Definition put (x : nat) (n : rbe) (s : rbhead) : rbhead := RbHead (rbh_root s) (<[x := n]> (rbh_ents s)).

Lemma rb_upd_run s x n g : rbh_ents s !! x = Some n → rb_upd (Some x) g s = Ok (tt, put x (g n) s).
Proof. intros Hn. unfold rb_upd. by rewrite Hn. Qed.

Lemma put_eq x n s : rbh_ents (put x n s) !! x = Some n.
Proof. apply lookup_insert_eq. Qed.
Lemma put_ne x n s z : z ≠ x → rbh_ents (put x n s) !! z = rbh_ents s !! z.
Proof. intros. by apply lookup_insert_ne. Qed.

Lemma put_within x n s : is_Some (rbh_ents s !! x) → within [x] s (put x n s).
Proof.
  intros [m Hm]. split; cbn.
  - rewrite dom_insert_L. apply elem_of_dom_2 in Hm. set_solver.
  - intros z Hz. rewrite lookup_insert_ne; [done|]. set_solver.
Qed.

Lemma root_run s : RB_ROOT s = Ok (rbh_root s, s).
Proof. done. Qed.
Lemma wroot_run q s : wroot q s = Ok (tt, RbHead q (rbh_ents s)).
Proof. done. Qed.
#[export] Hint Rewrite root_run wroot_run : ga_run.

Lemma same_refl p : same p p = true.
Proof. unfold same. by apply bool_decide_eq_true_2. Qed.
Lemma same_ne p q : p ≠ q → same p q = false.
Proof. intros. unfold same. by apply bool_decide_eq_false_2. Qed.

(** Fields of a node of the tree. *)
Lemma child_bnode d c p a b : bchild d (bnode d c p a b) = a.
Proof. by destruct d. Qed.
Lemma child_opp_bnode d c p a b : bchild (opp d) (bnode d c p a b) = b.
Proof. by destruct d. Qed.
Lemma parent_bnode d c p a b : rbe_parent (bnode d c p a b) = p.
Proof. by destruct d. Qed.
Lemma color_bnode d c p a b : rbe_color (bnode d c p a b) = bz c.
Proof. by destruct d. Qed.
Lemma wchild_bnode d c p a b q : wchild d q (bnode d c p a b) = bnode d c p q b.
Proof. by destruct d. Qed.
Lemma wchild_opp_bnode d c p a b q : wchild (opp d) q (bnode d c p a b) = bnode d c p a q.
Proof. by destruct d. Qed.
Lemma wparent_bnode d c p a b q : wparent q (bnode d c p a b) = bnode d c q a b.
Proof. by destruct d. Qed.

(** ** Relinking the parent of the focus *)

Lemma attach_slot s d c x sib ctx q q' :
  bcrep (rbh_ents s) (rbh_root s) (Fr d c x sib :: ctx) q → NoDup (cnodes (Fr d c x sib :: ctx)) →
  ∃ s', rb_upd (Some x) (wchild d q') s = Ok (tt, s') ∧
    bcrep (rbh_ents s') (rbh_root s') (Fr d c x sib :: ctx) q' ∧ within [x] s s' ∧ rbh_root s' = rbh_root s.
Proof.
  cbn [bcrep cnodes f_ent f_sib]. intros (H1 & H2 & H3) [Hn Hnd]%NoDup_cons.
  rewrite (rb_upd_run _ _ _ _ H1), wchild_bnode. eexists. split; [reflexivity|].
  split_and!; [apply put_eq|..|apply put_within; by eexists|done].
  - eapply btrep_ext; [|done]. intros z Hz. apply put_ne. set_solver.
  - eapply bcrep_ext; [|done]. intros z Hz. apply put_ne. set_solver.
Qed.

(** Which child of its parent a pointer is, by comparison with the left one. *)
Lemma left_test s d c x sib ctx q :
  bcrep (rbh_ents s) (rbh_root s) (Fr d c x sib :: ctx) q → q ≠ top sib →
  ∃ l, RB_LEFT (Some x) s = Ok (l, s) ∧ same q l = bool_decide (d = L) ∧ same l q = bool_decide (d = L).
Proof.
  intros (H1 & _ & _) Hne. unfold RB_LEFT. rewrite (rb_get_run _ _ _ _ H1). eexists. split; [reflexivity|].
  destruct d; cbn.
  - by rewrite same_refl.
  - by rewrite !same_ne by done.
Qed.

Lemma relink_slot s ctx x q :
  bcrep (rbh_ents s) (rbh_root s) ctx (Some x) → NoDup (x :: cnodes ctx) →
  ∃ s', relink_above (ctop ctx) (Some x) q s = Ok (tt, s') ∧
    bcrep (rbh_ents s') (rbh_root s') ctx q ∧ within (cnodes ctx) s s'.
Proof.
  intros Hc Hnd. unfold relink_above. destruct ctx as [|[d c y sib] ctx]; cbn [ctop f_ent].
  { run. eexists. split; [reflexivity|]. done. }
  apply NoDup_cons in Hnd as [Hn1 Hnd].
  destruct (attach_slot s d c y sib ctx (Some x) q Hc Hnd) as (s' & Hrun & Hc' & Hf & _).
  destruct (left_test s d c y sib ctx (Some x) Hc) as (l & Hl & Hs & _).
  { intros E. apply Hn1. cbn [cnodes f_ent f_sib]. symmetry in E. apply top_in in E. set_solver. }
  run. rewrite Hl. run. rewrite Hs. exists s'. split_and!; [|done|].
  - rewrite <- Hrun. by destruct d.
  - eapply within_mono; [|done]. cbn [cnodes f_ent]. set_solver.
Qed.

(** A new parent for a subtree that is not empty. *)
Lemma reparent_top s p q t :
  btrep (rbh_ents s) p t → NoDup (tnodes t) →
  ∃ s', unless_null (top t) (rb_upd (top t) (wparent q)) s = Ok (tt, s') ∧
    btrep (rbh_ents s') q t ∧ within (tnodes t) s s' ∧ rbh_root s' = rbh_root s.
Proof.
  intros Ht Hnd. destruct t as [|c l x r]; cbn [top unless_null].
  { by exists s. }
  cbn [btrep tnodes] in *. destruct Ht as (H1 & H2 & H3). apply NoDup_cons in Hnd as [Hx Hnd].
  rewrite (rb_upd_run _ _ _ _ H1), wparent_bnode. eexists. split; [reflexivity|]. split_and!; [apply put_eq|..].
  - eapply btrep_ext; [|done]. intros z Hz. apply put_ne. set_solver.
  - eapply btrep_ext; [|done]. intros z Hz. apply put_ne. set_solver.
  - eapply within_mono; [|apply put_within; by eexists]. set_solver.
  - done.
Qed.

(** ** Rotation at the focus *)

Lemma brotate_run s ctx d c x x1 c' y x2 x3 :
  brep s ctx (mk d c x x1 (mk d c' y x2 x3)) →
  ∃ s', brotate d (Some x) s = Ok (tt, s') ∧
    brep s' ctx (mk d c' y (mk d c x x1 x2) x3) ∧
    within (cnodes ctx ++ tnodes (mk d c x x1 (mk d c' y x2 x3))) s s'.
Proof.
  intros [Hc Ht Hnd]. rewrite top_mk in Hc.
  apply btrep_mk in Ht as (Hx & H1 & Ht). apply btrep_mk in Ht as (Hy & H2 & H3). rewrite top_mk in Hx.
  assert (cnodes ctx ++ tnodes (mk d c x x1 (mk d c' y x2 x3)) ≡ₚ
    x :: y :: cnodes ctx ++ tnodes x1 ++ tnodes x2 ++ tnodes x3) as Hp.
  { rewrite !tnodes_mk. solve_Permutation. }
  assert (cnodes ctx ++ tnodes (mk d c' y (mk d c x x1 x2) x3) ≡ₚ
    x :: y :: cnodes ctx ++ tnodes x1 ++ tnodes x2 ++ tnodes x3) as Hp'.
  { rewrite !tnodes_mk. simpl. solve_Permutation. }
  rewrite Hp in Hnd. set (p := ctop ctx) in *.
  assert (∀ s', within (x :: y :: cnodes ctx ++ tnodes x1 ++ tnodes x2 ++ tnodes x3) s s' →
    within (cnodes ctx ++ tnodes (mk d c x x1 (mk d c' y x2 x3))) s s') as Hwide.
  { intros s'. apply within_mono. intros z Hz. by rewrite Hp. }
  pose proof Hnd as Hnd0. rewrite !NoDup_cons, !NoDup_app in Hnd0.
  destruct Hnd0 as (N2 & N3 & N4 & N5 & N6 & N7 & N8 & N9 & N10).
  unfold brotate. run. rewrite (rb_get_run _ _ _ _ Hx), child_opp_bnode. run.
  rewrite (rb_get_run _ _ _ _ Hy), child_bnode. run.
  rewrite (rb_upd_run _ _ _ _ Hx), wchild_opp_bnode. run.
  set (s1 := put x _ s).
  assert (within [x] s s1) as F1 by (apply put_within; by eexists).
  destruct (reparent_top s1 (Some y) (Some x) x2) as (s2 & Hrun & T2 & F2 & R2).
  { eapply btrep_ext; [|exact H2]. intros z Hz. apply put_ne. set_solver. }
  { done. }
  rewrite Hrun. run. clear Hrun.
  assert (rbh_ents s2 !! x = Some (bnode d c p (top x1) (top x2))) as Hx2.
  { rewrite (within_ne _ _ _ _ F2) by set_solver. apply put_eq. }
  assert (rbh_ents s2 !! y = Some (bnode d c' (Some x) (top x2) (top x3))) as Hy2.
  { rewrite (within_ne _ _ _ _ F2) by set_solver. by rewrite (within_ne _ _ _ _ F1) by set_solver. }
  unfold RB_PARENT. rewrite (rb_get_run _ _ _ _ Hx2), parent_bnode. run.
  rewrite (rb_upd_run _ _ _ _ Hy2), wparent_bnode. run.
  set (s3 := put y _ s2).
  assert (within [y] s2 s3) as F3 by (apply put_within; by eexists).
  pose proof (within_trans _ _ _ _ _ (within_trans _ _ _ _ _ F1 F2) F3) as F13.
  assert (rbh_root s3 = rbh_root s) as Er by (unfold s3; cbn; by rewrite R2).
  destruct (relink_slot s3 ctx x (Some y)) as (s4 & Hrun & C4 & F4).
  { rewrite Er. eapply bcrep_ext; [|exact Hc]. intros z Hz. apply (within_ne _ _ _ _ F13). set_solver. }
  { apply NoDup_cons. split; [set_solver|done]. }
  fold p in Hrun. rewrite Hrun. run. clear Hrun.
  assert (rbh_ents s4 !! y = Some (bnode d c' p (top x2) (top x3))) as Hy4.
  { rewrite (within_ne _ _ _ _ F4) by set_solver. apply put_eq. }
  rewrite (rb_upd_run _ _ _ _ Hy4), wchild_bnode. run.
  set (s5 := put y _ s4).
  assert (within [y] s4 s5) as F5 by (apply put_within; by eexists).
  assert (rbh_ents s5 !! x = Some (bnode d c p (top x1) (top x2))) as Hx5.
  { rewrite (within_ne _ _ _ _ F5), (within_ne _ _ _ _ F4), (within_ne _ _ _ _ F3) by set_solver. done. }
  rewrite (rb_upd_run _ _ _ _ Hx5), wparent_bnode.
  set (s6 := put x _ s5).
  assert (within [x] s5 s6) as F6 by (apply put_within; by eexists).
  pose proof (within_trans _ _ _ _ _ (within_trans _ _ _ _ _ F4 F5) F6) as F46.
  pose proof (within_trans _ _ _ _ _ F13 F46) as F.
  exists s6. split; [reflexivity|]. split.
  2:{ apply Hwide. eapply within_mono; [|exact F]. set_solver. }
  constructor.
  - rewrite top_mk. change (rbh_root s6) with (rbh_root s4).
    eapply bcrep_ext; [|exact C4]. intros z Hz.
    rewrite (within_ne _ _ _ _ F6), (within_ne _ _ _ _ F5) by set_solver. done.
  - apply btrep_mk. rewrite top_mk. fold p. split_and!.
    + rewrite (within_ne _ _ _ _ F6) by set_solver. apply put_eq.
    + apply btrep_mk. split_and!; [apply put_eq|..].
      * eapply btrep_ext; [|exact H1]. intros z Hz. apply (within_ne _ _ _ _ F). set_solver.
      * eapply btrep_ext; [|exact T2]. intros z Hz.
        rewrite (within_ne _ _ _ _ F46), (within_ne _ _ _ _ F3) by set_solver. done.
    + eapply btrep_ext; [|exact H3]. intros z Hz. apply (within_ne _ _ _ _ F). set_solver.
  - by rewrite Hp'.
Qed.

(** ** Reading and changing the node at the focus *)

Lemma brep_node s ctx d c x x1 x2 :
  brep s ctx (mk d c x x1 x2) → rbh_ents s !! x = Some (bnode d c (ctop ctx) (top x1) (top x2)).
Proof. intros Hz. pose proof (br_tree _ _ _ Hz) as Ht. by apply btrep_mk in Ht as (? & _). Qed.

Section focus.
Variables (s : rbhead) (ctx : list bframe) (d : dir) (c : col) (x : nat) (x1 x2 : btree).
Hypothesis Hz : brep s ctx (mk d c x x1 x2).

Lemma get_child : rb_get (Some x) (bchild d) s = Ok (top x1, s).
Proof. by rewrite (rb_get_run _ _ _ _ (brep_node _ _ _ _ _ _ _ Hz)), child_bnode. Qed.

Lemma get_child_opp : rb_get (Some x) (bchild (opp d)) s = Ok (top x2, s).
Proof. by rewrite (rb_get_run _ _ _ _ (brep_node _ _ _ _ _ _ _ Hz)), child_opp_bnode. Qed.

Lemma get_parent : RB_PARENT (Some x) s = Ok (ctop ctx, s).
Proof. unfold RB_PARENT. by rewrite (rb_get_run _ _ _ _ (brep_node _ _ _ _ _ _ _ Hz)), parent_bnode. Qed.

Lemma get_color : RB_COLOR (Some x) s = Ok (bz c, s).
Proof. unfold RB_COLOR. by rewrite (rb_get_run _ _ _ _ (brep_node _ _ _ _ _ _ _ Hz)), color_bnode. Qed.

Lemma recolor c' :
  ∃ s', rb_upd (Some x) (wcolor (bz c')) s = Ok (tt, s') ∧ brep s' ctx (mk d c' x x1 x2) ∧
    within [x] s s' ∧ rbh_root s' = rbh_root s.
Proof.
  pose proof (brep_node _ _ _ _ _ _ _ Hz) as H. rewrite (rb_upd_run _ _ _ _ H).
  assert (wcolor (bz c') (bnode d c (ctop ctx) (top x1) (top x2)) = bnode d c' (ctop ctx) (top x1) (top x2)) as ->
    by (by destruct d).
  eexists. split; [reflexivity|]. split_and!; [|apply put_within; by eexists|done].
  pose proof Hz as [Hc Ht Hnd]. rewrite top_mk in Hc. apply btrep_mk in Ht as (_ & H1 & H2).
  assert (cnodes ctx ++ tnodes (mk d c' x x1 x2) ≡ₚ cnodes ctx ++ tnodes (mk d c x x1 x2)) as Hp
    by (by rewrite !tnodes_mk).
  pose proof Hnd as Hnd'. rewrite tnodes_mk in Hnd'.
  assert (∀ z, z ∈ cnodes ctx ∨ z ∈ tnodes x1 ∨ z ∈ tnodes x2 → z ≠ x) as Hne.
  { intros z Hin ->. rewrite <- Permutation_middle, !NoDup_cons in Hnd'. set_solver. }
  constructor; cbn [rbh_root put].
  - rewrite top_mk. eapply bcrep_ext; [|done]. intros z Hin. apply put_ne, Hne. by left.
  - apply btrep_mk. split_and!; [apply put_eq|..];
      (eapply btrep_ext; [|done]); intros z Hin; apply put_ne, Hne; tauto.
  - by rewrite Hp.
Qed.
End focus.

(** The tests on the colour behind any pointer into the tree. *)
Lemma black_at_run s ctx t : brep s ctx t → black_at (top t) s = Ok (negb (is_red (root_col t)), s).
Proof.
  intros Hz. destruct t as [|c l x r]; [done|]. cbn [top black_at]. run.
  rewrite (get_color s ctx L c x l r Hz). run. by rewrite bz_black.
Qed.

Lemma red_at_run s ctx t : brep s ctx t → red_at (top t) s = Ok (is_red (root_col t), s).
Proof.
  intros Hz. destruct t as [|c l x r]; [done|]. cbn [top red_at]. run.
  rewrite (get_color s ctx L c x l r Hz). run. by rewrite bz_red.
Qed.

Lemma red_above_run s ctx t : brep s ctx t → red_at (ctop ctx) s = Ok (is_red (head_col ctx), s).
Proof.
  intros Hz. destruct ctx as [|[d c x sib] ctx]; [done|]. apply brep_out in Hz. cbn [ctop f_ent red_at]. run.
  rewrite (get_color s ctx d c x t sib Hz). run. by rewrite bz_red.
Qed.

(** The root of the tree, and that the focus of a context is not it. *)
Lemma brep_root s t : brep s [] t → rbh_root s = top t.
Proof. intros Hz. apply (br_ctx _ _ _ Hz). Qed.

Lemma broot_in h root f ctx q : bcrep h root (f :: ctx) q → ∃ x, root = Some x ∧ x ∈ cnodes (f :: ctx).
Proof.
  revert f q. induction ctx as [|g ctx IH]; intros [d c x sib] q; cbn [bcrep]; intros (_ & _ & H).
  - cbn in H. subst. eexists. split; [done|]. cbn. set_solver.
  - apply IH in H as (y & -> & Hy). exists y. split; [done|]. cbn [cnodes f_ent f_sib] in *. set_solver.
Qed.

Lemma focus_not_root s f ctx t : brep s (f :: ctx) t → same (top t) (rbh_root s) = false.
Proof.
  intros [Hc _ Hnd]. apply broot_in in Hc as (x & -> & Hx). apply same_ne. intros E. apply top_in in E.
  apply NoDup_app in Hnd as (_ & Hnd & _). by apply (Hnd x).
Qed.

(** The side of its parent the focus is on. *)
Lemma bside s d c x sib ctx t :
  brep s (Fr d c x sib :: ctx) t → t ≠ Leaf ∨ sib ≠ Leaf →
  ∃ l, RB_LEFT (Some x) s = Ok (l, s) ∧ same (top t) l = bool_decide (d = L) ∧ same l (top t) = bool_decide (d = L).
Proof.
  intros [Hc _ Hnd] Hne. eapply left_test; [exact Hc|]. intros E. cbn [cnodes f_ent f_sib app] in Hnd.
  apply NoDup_cons in Hnd as [_ Hnd]. rewrite <- app_assoc in Hnd. apply NoDup_app in Hnd as (_ & Hnd & _).
  destruct t as [|ct lt y rt].
  - destruct Hne as [|Hne]; [done|]. by destruct sib.
  - cbn [top] in E. symmetry in E. apply top_in in E. apply (Hnd y E). cbn. set_solver.
Qed.

(** ** The loop bound is enough *)

Lemma btrep_dom h p t z : btrep h p t → z ∈ tnodes t → z ∈ dom h.
Proof.
  revert p. induction t as [|c l IHl x r IHr]; intros p; simpl; [set_solver|].
  intros (H1 & H2 & H3) Hz. apply elem_of_cons in Hz as [->|Hz]; [by eapply elem_of_dom_2|].
  apply elem_of_app in Hz as []; eauto.
Qed.

Lemma bcrep_dom h r ctx q z : bcrep h r ctx q → z ∈ cnodes ctx → z ∈ dom h.
Proof.
  revert q. induction ctx as [|[d c x sib] ctx IH]; intros q; simpl; [set_solver|].
  intros (H1 & H2 & H3) Hz. apply elem_of_cons in Hz as [->|Hz]; [by eapply elem_of_dom_2|].
  apply elem_of_app in Hz as []; [by eapply btrep_dom|eauto].
Qed.

Lemma brep_size s ctx t : brep s ctx t → (length (cnodes ctx) + length (tnodes t) ≤ size (rbh_ents s))%nat.
Proof.
  intros [Hc Ht Hnd].
  assert (list_to_set (cnodes ctx ++ tnodes t) ⊆ (dom (rbh_ents s) : gset nat)) as Hsub.
  { intros z. rewrite elem_of_list_to_set, elem_of_app. intros [Hz|Hz]; [by eapply bcrep_dom|by eapply btrep_dom]. }
  apply subseteq_size in Hsub. rewrite size_list_to_set, size_dom in Hsub by done.
  rewrite length_app in Hsub. lia.
Qed.

Lemma cnodes_length ctx : (length ctx ≤ length (cnodes ctx))%nat.
Proof. induction ctx as [|[] ctx IH]; simpl; [lia|]. rewrite length_app. lia. Qed.

Lemma tnodes_height t : (height t ≤ length (tnodes t))%nat.
Proof. induction t as [|c l IHl x r IHr]; simpl; [done|]. rewrite length_app. lia. Qed.

(** [s'] holds the same contents in the same nodes, at another focus. *)
Definition shifted (s s' : rbhead) (ctx ctx' : list bframe) (t t' : btree) : Prop :=
  elems (plug ctx' t') = elems (plug ctx t) ∧ within (bnodes ctx t) s s'.

Lemma shifted_trans s1 s2 s3 ctx1 ctx2 ctx3 t1 t2 t3 :
  shifted s1 s2 ctx1 ctx2 t1 t2 → shifted s2 s3 ctx2 ctx3 t2 t3 → shifted s1 s3 ctx1 ctx3 t1 t3.
Proof.
  intros [E1 F1] [E2 F2]. split; [by rewrite E2|]. eapply within_twice; [done|].
  unfold bnodes in *. by rewrite <- E1.
Qed.

Lemma shifted_refl s ctx t : shifted s s ctx ctx t t.
Proof. split; [done|apply within_refl]. Qed.

(** A change confined to some nodes of the tree, for [within]. *)
Ltac in_tree F :=
  eapply within_nodes; [exact F|]; cbn [cnodes f_ent f_sib]; intros ?; rewrite ?mk_opp, ?tnodes_mk; set_solver.
