(* ===== verification/BsdTreeIns.v ===== *)
(** * Red-black trees of coroutines: insertion

    RB_INSERT_COLOR restores the invariant of [RbShape] after a red node has
    been linked below any node. *)

From S2P Require Import Prelude RbShape BsdTree BsdTreeZip.

Definition bfix (d : dir) (elm parent gparent : ref) : rbp ref :=
  tmp ← rb_get gparent (bchild (opp d));
  red ← red_at tmp;
  if red : bool then
    _ ← rb_upd tmp (wcolor RB_BLACK);
    _ ← RB_SET_BLACKRED parent gparent;
    mret gparent
  else
    pc ← rb_get parent (bchild (opp d));
    '(parent, elm) ← (if same pc elm
                      then _ ← brotate d parent; mret (elm, parent)
                      else mret (parent, elm));
    _ ← RB_SET_BLACKRED parent gparent;
    _ ← brotate (opp d) gparent;
    mret elm.

Lemma insert_color_left_dir e p g : insert_color_left e p g = bfix L e p g.
Proof. reflexivity. Qed.
Lemma insert_color_right_dir e p g : insert_color_right e p g = bfix R e p g.
Proof. reflexivity. Qed.

(** A red uncle: the blackness of the grandparent moves down. *)
Lemma uncle_red s ctx d d2 g p sib u1 eu u2 t :
  brep s ctx (mk d Black g (mk d2 Red p t sib) (T Red u1 eu u2)) →
  ∃ s', (_ ← rb_upd (Some eu) (wcolor RB_BLACK); _ ← RB_SET_BLACKRED (Some p) (Some g); mret (Some g)) s
      = Ok (Some g, s') ∧
    brep s' ctx (mk d Red g (mk d2 Black p t sib) (T Black u1 eu u2)) ∧ within [eu; p; g] s s'.
Proof.
  intros Hz. rewrite <- mk_opp in Hz. apply brep_in in Hz.
  destruct (recolor s _ L _ _ _ _ Hz Black) as (s1 & R1 & Z1 & F1 & _).
  apply brep_out in Z1. rewrite mk_opp in Z1. apply brep_in in Z1.
  destruct (recolor s1 _ _ _ _ _ _ Z1 Black) as (s2 & R2 & Z2 & F2 & _). apply brep_out in Z2.
  destruct (recolor s2 _ _ _ _ _ _ Z2 Red) as (s3 & R3 & Z3 & F3 & _).
  exists s3. change (bz Black) with RB_BLACK in *. change (bz Red) with RB_RED in *.
  unfold RB_SET_BLACKRED. run. rewrite R1. run. rewrite R2. run. rewrite R3. run. split_and!; [done..|].
  exact (within_trans _ _ _ _ _ F1 (within_trans _ _ _ _ _ F2 F3)).
Qed.

(** A black uncle and the new node on the outside: one rotation. *)
Lemma uncle_black s ctx d g p sib u t :
  brep s ctx (mk d Black g (mk d Red p t sib) u) →
  ∃ s', (_ ← RB_SET_BLACKRED (Some p) (Some g); brotate (opp d) (Some g)) s = Ok (tt, s') ∧
    brep s' ctx (mk d Black p t (mk d Red g sib u)) ∧
    within (bnodes ctx (mk d Black g (mk d Red p t sib) u)) s s'.
Proof.
  intros Hz. apply brep_in in Hz.
  destruct (recolor s _ _ _ _ _ _ Hz Black) as (s1 & R1 & Z1 & F1 & _). apply brep_out in Z1.
  destruct (recolor s1 _ _ _ _ _ _ Z1 Red) as (s2 & R2 & Z2 & F2 & _).
  assert (brep s2 ctx (mk (opp d) Red g u (mk (opp d) Black p sib t))) as Z2' by (by rewrite !mk_opp).
  destruct (brotate_run s2 _ _ _ _ _ _ _ _ _ Z2') as (s3 & R3 & Z3 & F3).
  rewrite !mk_opp in Z3. exists s3. change (bz Black) with RB_BLACK in *. change (bz Red) with RB_RED in *.
  unfold RB_SET_BLACKRED. run. rewrite R1. run. rewrite R2. run. rewrite R3. split_and!; [done..|].
  eapply within_twice; [|eapply within_twice]; [in_tree F1|in_tree F2|in_tree F3].
Qed.

(** What a round leaves: a red node at the focus of a context that is one
    step shorter at least, and the same contents. *)
Record repaired (s s' : rbhead) (ctx ctx' : list bframe) (t t' : btree) : Prop := Repaired {
  rp_rep : brep s' ctx' t';
  rp_rb : ∃ n, crb ctx' n ∧ rb t' n;
  rp_red : root_col t' = Red;
  rp_shifted : shifted s s' ctx ctx' t t';
  rp_length : (length ctx' < length ctx)%nat;
}.

Lemma bfix_run s ctx d d2 g p sib u l x r n :
  let ctx0 := Fr d2 Red p sib :: Fr d Black g u :: ctx in
  brep s ctx0 (T Red l x r) → crb ctx0 n → rb (T Red l x r) n →
  ∃ s' ctx' t', bfix d (Some x) (Some p) (Some g) s = Ok (top t', s') ∧
    repaired s s' ctx0 ctx' (T Red l x r) t'.
Proof.
  intros ctx0 Hz (Hsib & Hbs & _ & Hu & Hc) Ht. unfold ctx0 in *.
  pose proof (brep_out _ _ _ _ _ _ _ Hz) as Hzp. pose proof (brep_out _ _ _ _ _ _ _ Hzp) as Hzg.
  unfold bfix. run. rewrite (get_child_opp s _ _ _ _ _ _ Hzg). run.
  assert (brep s (Fr (opp d) Black g (mk d2 Red p (T Red l x r) sib) :: ctx) u) as Hzu.
  { apply brep_in. by rewrite mk_opp. }
  rewrite (red_at_run s _ _ Hzu). run. destruct (root_col u) eqn:Hcu; cbn [is_red].
  - (* red uncle *)
    destruct u as [|cu u1 eu u2]; [done|]. cbn [root_col] in Hcu. subst cu.
    destruct (uncle_red s ctx d d2 g p sib u1 eu u2 _ Hzg) as (s' & R & Z' & F).
    run_in R. cbn [top]. run. rewrite R. eexists s', ctx, _. rewrite top_mk. split; [reflexivity|].
    assert (rb u1 n ∧ rb u2 n) as [Hu1 Hu2] by (inversion_clear Hu; done).
    split; try done.
    + exists (S n). split; [done|]. apply rb_mk_red. rewrite root_col_mk. split_and!; try done.
      * by apply rb_mk_black.
      * by constructor.
    + by rewrite root_col_mk.
    + split; [cbn [plug f_dir f_col f_ent f_sib]; apply elems_plug; by destruct d, d2|].
      eapply within_nodes; [exact F|]. cbn [cnodes f_ent f_sib tnodes]. set_solver.
    + simpl. lia.
  - (* black uncle *)
    run. destruct (decide (d2 = d)) as [->|Hd].
    + rewrite (get_child_opp s _ _ _ _ _ _ Hzp). run. rewrite same_ne.
      2:{ intros E. apply top_in in E. pose proof (br_nodup _ _ _ Hz) as Hnd. cbn [cnodes f_ent f_sib tnodes] in Hnd.
          apply NoDup_app in Hnd as (_ & Hnd & _). apply (Hnd x); set_solver. }
      run. destruct (uncle_black s ctx d g p sib u _ Hzg) as (s' & R & Z' & F).
      run_in R.
      destruct (RB_SET_BLACKRED (Some p) (Some g) s) as [[[] s1]|] eqn:E1; [|done]. run. rewrite R. run.
      eexists s', (Fr d Black p (mk d Red g sib u) :: ctx), (T Red l x r).
      split; [reflexivity|]. split; try done.
      * by apply brep_in.
      * exists n. split; [|done]. cbn [crb]. split; [|done]. by apply rb_mk_red.
      * split; [cbn [plug f_dir f_col f_ent f_sib]; apply elems_plug; destruct d; same_elems|exact F].
      * simpl. lia.
    + assert (d2 = opp d) as -> by (by destruct d, d2). rewrite mk_opp in Hzp, Hzg.
      rewrite (get_child_opp s _ _ _ _ _ _ Hzp). cbn [top]. run. rewrite same_refl. run.
      set (x1 := match d with L => l | R => r end). set (x2 := match d with L => r | R => l end).
      assert (T Red l x r = mk d Red x x1 x2) as Et by (by destruct d). rewrite Et in Hzp.
      destruct (brotate_run s _ _ _ _ _ _ _ _ _ Hzp) as (s1 & R1 & Z1 & F1). rewrite R1. run.
      apply brep_out in Z1. set (t1 := mk d Red p sib x1) in *.
      destruct (uncle_black s1 ctx d g x x2 u t1 Z1) as (s' & R & Z' & F).
      run_in R. destruct (RB_SET_BLACKRED (Some x) (Some g) s1) as [[[] s2]|] eqn:E1; [|done]. run. rewrite R. run.
      eexists s', (Fr d Black x (mk d Red g x2 u) :: ctx), t1. unfold t1. rewrite top_mk. split; [reflexivity|].
      rewrite Et in Ht. apply rb_mk_red in Ht as (H1 & H2 & H3 & H4). split; try done.
      * by apply brep_in.
      * exists n. split; [|by apply rb_mk_red]. cbn [crb]. split; [by apply rb_mk_red|done].
      * by rewrite root_col_mk.
      * split; [cbn [plug f_dir f_col f_ent f_sib]; apply elems_plug; rewrite Et; destruct d; same_elems|].
        rewrite Et. eapply within_twice; [in_tree F1|].
        eapply within_mono; [|exact F]. intros z. rewrite !bnodes_split. cbn [cnodes f_ent f_sib].
        unfold t1. rewrite !tnodes_mk. set_solver.
      * simpl. lia.
Qed.

Lemma insert_color_loop_run fuel s ctx l x r n :
  brep s ctx (T Red l x r) → crb ctx n → rb (T Red l x r) n → (length ctx < fuel)%nat →
  ∃ s' ctx' t' m, insert_color_loop fuel (Some x) s = Ok (tt, s') ∧
    brep s' ctx' t' ∧ crb ctx' m ∧ rb t' m ∧ root_col t' = Red ∧ (ctx' = [] ∨ under_black ctx') ∧
    shifted s s' ctx ctx' (T Red l x r) t'.
Proof.
  revert s ctx l x r n. induction fuel as [|fuel IH]; intros s ctx l x r n Hz Hc Ht Hf; [lia|].
  cbn [insert_color_loop]. run. rewrite (get_parent s _ L _ _ _ _ Hz). run.
  rewrite (red_above_run s _ _ Hz). run.
  destruct ctx as [|[d2 [] p sib] ctx]; cbn [head_col f_col is_red].
  - exists s, [], (T Red l x r), n. split_and!; auto. apply shifted_refl.
  - pose proof Hc as (_ & _ & Hu & _). destruct ctx as [|[d cg g u] ctx]; [done|]. cbn in Hu. subst cg.
    cbn [ctop f_ent]. run. pose proof (brep_out _ _ _ _ _ _ _ Hz) as Hzp.
    rewrite (get_parent s _ _ _ _ _ _ Hzp). run. cbn [ctop f_ent].
    destruct (bside s _ _ _ _ _ _ Hzp) as (q & Hq & Eq & _); [left; by destruct d2|].
    rewrite top_mk in Eq. rewrite Hq. run. rewrite Eq.
    assert ((if bool_decide (d = L) then insert_color_left (Some x) (Some p) (Some g)
             else insert_color_right (Some x) (Some p) (Some g)) = bfix d (Some x) (Some p) (Some g)) as ->
      by (by destruct d).
    destruct (bfix_run s ctx d d2 g p sib u l x r n Hz Hc Ht) as
      (s1 & ctx1 & t1 & Hrun & [Z1 (m & C1 & T1) Hr1 M1 Hl1]).
    rewrite Hrun. run. destruct t1 as [|c1 l1 x1 r1]; [done|]. cbn [root_col] in Hr1. subst c1.
    destruct (IH s1 ctx1 l1 x1 r1 m Z1 C1 T1) as (s' & ctx' & t' & m' & Hrun' & Z' & C' & T' & Hr' & Hu' & M').
    { simpl in Hl1, Hf. lia. }
    cbn [top]. exists s', ctx', t', m'. split_and!; try done. by eapply shifted_trans.
  - exists s, (Fr d2 Black p sib :: ctx), (T Red l x r), n. split_and!; try done. by right.
Qed.

(** The whole tree with its root black. *)
Lemma blacken_top s t n :
  brep s [] t → rb t n → t ≠ Leaf →
  ∃ s' t' m, rb_upd (rbh_root s) (wcolor RB_BLACK) s = Ok (tt, s') ∧ brep s' [] t' ∧
    good [] t' m ∧ shifted s s' [] [] t t'.
Proof.
  intros Hz Ht Hne. destruct t as [|c l x r]; [done|]. rewrite (brep_root _ _ Hz). cbn [top].
  destruct (recolor s [] L c x l r Hz Black) as (s' & R & Z' & F & _). exists s', (T Black l x r).
  assert (∃ m, rb (T Black l x r) m) as [m Hm] by (inversion_clear Ht; eexists; by constructor).
  exists m. split_and!; try done. split; [done|]. eapply within_nodes; [exact F|]. simpl. set_solver.
Qed.

Lemma insert_color_run s ctx l x r n :
  brep s ctx (T Red l x r) → crb ctx n → rb (T Red l x r) n →
  ∃ s' t' m, RB_INSERT_COLOR (Some x) s = Ok (tt, s') ∧ brep s' [] t' ∧ good [] t' m ∧
    shifted s s' ctx [] (T Red l x r) t'.
Proof.
  intros Hz Hc Ht. unfold RB_INSERT_COLOR, with_fuel. run.
  destruct (insert_color_loop_run (tree_fuel s) s ctx l x r n Hz Hc Ht) as
    (s1 & ctx1 & t1 & m & R1 & Z1 & C1 & T1 & Hr1 & Hu1 & M1).
  { pose proof (brep_size _ _ _ Hz). pose proof (cnodes_length ctx). unfold tree_fuel. lia. }
  rewrite R1. run.
  assert (∃ m', rb (plug ctx1 t1) m') as [m' Hm'].
  { destruct Hu1 as [->|Hu1]; [by exists m|].
    destruct (good_plug ctx1 t1 m) as (m' & _ & Hm' & _); [by split_and!|by exists m']. }
  rewrite <- (app_nil_r ctx1) in Z1. apply brep_plug in Z1.
  destruct (blacken_top s1 (plug ctx1 t1) m' Z1 Hm') as (s' & t' & m2 & R2 & Z2 & G2 & M2).
  { intros E. destruct M1 as [E1 _]. rewrite E, elems_plug_split in E1. apply (f_equal length) in E1. simpl in E1.
    rewrite !length_app in E1. simpl in E1. lia. }
  rewrite R2. exists s', t', m2. split_and!; try done. eapply shifted_trans; [exact M1|exact M2].
Qed.
