(* ===== verification/BsdTreeSearch.v ===== *)
(** * Red-black trees of coroutines: order, search and linking a new node *)

From stdpp Require Import sorting.
From S2P Require Import Prelude RbShape BsdTree BsdTreeZip BsdTreeIns.

Section keyed.
Variable key : nat → Z.

(** ** Order *)

Definition key_below (i j : nat) : Prop := key i < key j.
Definition in_order (l : list nat) : Prop := StronglySorted key_below l.

Lemma in_order_node c l x r :
  in_order (elems (T c l x r)) ↔
  in_order (elems l) ∧ in_order (elems r) ∧ (∀ y, y ∈ elems l → key y < key x) ∧ (∀ y, y ∈ elems r → key x < key y).
Proof.
  unfold in_order. cbn [elems]. rewrite StronglySorted_app, StronglySorted_cons, Forall_forall. split.
  - intros (H1 & H2 & H3 & H4). split_and!; try done. intros y Hy. apply (H1 y x); set_solver.
  - intros (H1 & H2 & H3 & H4). split_and!; try done.
    intros y1 y2 Hy1 [->|Hy2]%elem_of_cons; [by apply H3|]. unfold key_below. specialize (H3 _ Hy1). specialize (H4 _ Hy2). lia.
Qed.

(** The keys on the path's left are smaller, those on its right larger. *)
Definition straddles (ctx : list bframe) (k : Z) : Prop :=
  (∀ y, y ∈ cpre ctx → key y < k) ∧ (∀ y, y ∈ cpost ctx → k < key y).

Lemma straddles_nil k : straddles [] k.
Proof. split; intros y; set_solver. Qed.

Lemma straddles_left ctx c l x r k :
  in_order (elems (T c l x r)) → straddles ctx k → k < key x →
  straddles (Fr L c x r :: ctx) k ∧ in_order (elems l).
Proof.
  intros (H1 & _ & _ & H4)%in_order_node [B1 B2] Hk. split; [|done]. split; intros y.
  - cbn [cpre f_dir]. rewrite app_nil_r. apply B1.
  - cbn [cpost f_dir f_ent f_sib]. rewrite elem_of_app, elem_of_cons. intros [[->|Hy]|Hy]; auto.
    specialize (H4 _ Hy). lia.
Qed.

Lemma straddles_right ctx c l x r k :
  in_order (elems (T c l x r)) → straddles ctx k → key x < k →
  straddles (Fr R c x l :: ctx) k ∧ in_order (elems r).
Proof.
  intros (_ & H2 & H3 & _)%in_order_node [B1 B2] Hk. split; [|done]. split; intros y.
  - cbn [cpre f_dir f_ent f_sib]. rewrite !elem_of_app, list_elem_of_singleton.
    intros [Hy|[Hy| ->]]; auto. specialize (H3 _ Hy). lia.
  - cbn [cpost f_dir app]. apply B2.
Qed.

Lemma straddles_absent ctx k : straddles ctx k → ∀ y, y ∈ elems (plug ctx Leaf) → key y ≠ k.
Proof.
  intros [B1 B2] y Hy. rewrite elems_plug_split in Hy. cbn [elems app] in Hy.
  apply elem_of_app in Hy as [Hy|Hy]; [apply B1 in Hy|apply B2 in Hy]; lia.
Qed.

(** The three outcomes of a comparison. *)
Lemma cmp_cases k x :
  (cmp key k x = -1 ∧ k < key x) ∨ (cmp key k x = 1 ∧ key x < k) ∨ (cmp key k x = 0 ∧ key x = k).
Proof. unfold cmp, nty_coroutine_sleep_cmp. destruct (k <? key x) eqn:E1, (k =? key x) eqn:E2; b2p; auto with lia. Qed.

(** ** Search *)

Lemma find_loop_run fuel s ctx t k :
  brep s ctx t → in_order (elems t) → straddles ctx k → (height t < fuel)%nat →
  ∃ r, find_loop key fuel k (top t) s = Ok (r, s) ∧
    match r with
    | Some x => x ∈ elems t ∧ key x = k
    | None => ∀ y, y ∈ elems (plug ctx t) → key y ≠ k
    end.
Proof.
  revert ctx t. induction fuel as [|fuel IH]; intros ctx t Hz Ho Hs Hf; [lia|].
  destruct t as [|c l x r]; cbn [top find_loop].
  { eexists. split; [reflexivity|]. exact (straddles_absent ctx k Hs). }
  simpl in Hf. destruct (cmp_cases k x) as [[-> Hk]|[[-> Hk]|[-> Hk]]]; cbn [Z.ltb Z.compare]; run.
  - destruct (straddles_left _ _ _ _ _ _ Ho Hs Hk) as [Hs' Ho'].
    rewrite (get_child s ctx L c x l r Hz : RB_LEFT _ s = _). run.
    destruct (IH (Fr L c x r :: ctx) l) as (q & -> & Hq); [by apply brep_in|done|done|lia|].
    exists q. split; [done|]. destruct q; [|done]. cbn [elems]. set_solver.
  - destruct (straddles_right _ _ _ _ _ _ Ho Hs Hk) as [Hs' Ho'].
    rewrite (get_child_opp s ctx L c x l r Hz : RB_RIGHT _ s = _). run.
    destruct (IH (Fr R c x l :: ctx) r) as (q & -> & Hq); [by apply brep_in|done|done|lia|].
    exists q. split; [done|]. destruct q; [|done]. cbn [elems]. set_solver.
  - eexists. split; [reflexivity|]. cbn [elems]. set_solver.
Qed.

(** The fuel suffices for a descent. *)
Lemma height_fuel s ctx t : brep s ctx t → (height t < tree_fuel s)%nat.
Proof. intros Hz. pose proof (brep_size _ _ _ Hz). pose proof (tnodes_height t). unfold tree_fuel. lia. Qed.

Lemma rb_find_run s t k :
  brep s [] t → in_order (elems t) →
  ∃ r, RB_FIND key k s = Ok (r, s) ∧
    match r with Some x => x ∈ elems t ∧ key x = k | None => ∀ y, y ∈ elems t → key y ≠ k end.
Proof.
  intros Hz Ho. unfold RB_FIND, with_fuel. run. rewrite (brep_root _ _ Hz).
  apply (find_loop_run (tree_fuel s) s [] t k Hz Ho); [apply straddles_nil|by eapply height_fuel].
Qed.

(** RB_NFIND: the first node whose key is not below [k]. *)
Lemma filter_below (l : list nat) k : (∀ y, y ∈ l → key y < k) → filter (λ y, k ≤ key y) l = [].
Proof.
  induction l as [|y l IH]; intros H; [done|]. rewrite filter_cons_False; [apply IH; set_solver|].
  specialize (H y). assert (y ∈ y :: l) by set_solver. specialize (H H0). lia.
Qed.

Lemma filter_above (l : list nat) k : (∀ y, y ∈ l → k < key y) → filter (λ y, k ≤ key y) l = l.
Proof.
  induction l as [|y l IH]; intros H; [done|]. rewrite filter_cons_True.
  - f_equal. apply IH. set_solver.
  - assert (k < key y) by (apply H; set_solver). lia.
Qed.

Lemma nfind_loop_run fuel s ctx t k :
  brep s ctx t → in_order (elems t) → straddles ctx k → (height t < fuel)%nat →
  nfind_loop key fuel k (top t) (head (cpost ctx)) s =
    Ok (head (filter (λ y, k ≤ key y) (elems (plug ctx t))), s).
Proof.
  revert ctx t. induction fuel as [|fuel IH]; intros ctx t Hz Ho Hs Hf; [lia|].
  destruct t as [|c l x r]; cbn [top nfind_loop].
  { rewrite elems_plug_split, filter_app. cbn [elems app]. destruct Hs as [B1 B2].
    by rewrite (filter_below _ _ B1), (filter_above _ _ B2). }
  simpl in Hf. destruct (cmp_cases k x) as [[-> Hk]|[[-> Hk]|[-> Hk]]]; cbn [Z.ltb Z.compare]; run.
  - destruct (straddles_left _ _ _ _ _ _ Ho Hs Hk) as [Hs' Ho'].
    rewrite (get_child s ctx L c x l r Hz : RB_LEFT _ s = _). run.
    apply (IH (Fr L c x r :: ctx) l); [by apply brep_in|done|done|lia].
  - destruct (straddles_right _ _ _ _ _ _ Ho Hs Hk) as [Hs' Ho'].
    rewrite (get_child_opp s ctx L c x l r Hz : RB_RIGHT _ s = _). run.
    apply (IH (Fr R c x l :: ctx) r); [by apply brep_in|done|done|lia].
  - apply in_order_node in Ho as (_ & _ & H3 & _). destruct Hs as [B1 _].
    rewrite elems_plug_split, !filter_app, (filter_below _ _ B1). cbn [elems app].
    rewrite filter_app, filter_below by (intros y Hy; specialize (H3 _ Hy); lia).
    rewrite filter_cons_True by lia. done.
Qed.

Lemma rb_nfind_run s t k :
  brep s [] t → in_order (elems t) → RB_NFIND key k s = Ok (head (filter (λ y, k ≤ key y) (elems t)), s).
Proof.
  intros Hz Ho. unfold RB_NFIND, with_fuel. run. rewrite (brep_root _ _ Hz).
  apply (nfind_loop_run (tree_fuel s) s [] t k Hz Ho); [apply straddles_nil|by eapply height_fuel].
Qed.

(** ** The place of a new key *)

(** The last comparison tells the side of the hole. *)
Definition on_side (comp : Z) (ctx : list bframe) : Prop :=
  match ctx with [] => True | f :: _ => (comp <? 0) = bool_decide (f_dir f = L) end.

Lemma insert_descend_run fuel s ctx t k comp :
  brep s ctx t → in_order (elems t) → straddles ctx k → (height t < fuel)%nat → on_side comp ctx →
  (∃ x, insert_descend key fuel k (top t) (ctop ctx) comp s = Ok (inl x, s) ∧ x ∈ elems t ∧ key x = k) ∨
  (∃ ctx' comp', insert_descend key fuel k (top t) (ctop ctx) comp s = Ok (inr (ctop ctx', comp'), s) ∧
     brep s ctx' Leaf ∧ straddles ctx' k ∧ on_side comp' ctx' ∧ plug ctx' Leaf = plug ctx t).
Proof.
  revert ctx t comp. induction fuel as [|fuel IH]; intros ctx t comp Hz Ho Hs Hf Hd; [lia|].
  destruct t as [|c l x r]; cbn [top insert_descend].
  { right. exists ctx, comp. by split_and!. }
  simpl in Hf. destruct (cmp_cases k x) as [[-> Hk]|[[-> Hk]|[-> Hk]]]; cbn [Z.ltb Z.compare]; run.
  - destruct (straddles_left _ _ _ _ _ _ Ho Hs Hk) as [Hs' Ho'].
    rewrite (get_child s ctx L c x l r Hz : RB_LEFT _ s = _). run.
    destruct (IH (Fr L c x r :: ctx) l (-1)) as [(y & R & Hy & Ey)|H]; [by apply brep_in|done|done|lia|done| |by right].
    left. exists y. split_and!; [exact R| |done]. cbn [elems]. set_solver.
  - destruct (straddles_right _ _ _ _ _ _ Ho Hs Hk) as [Hs' Ho'].
    rewrite (get_child_opp s ctx L c x l r Hz : RB_RIGHT _ s = _). run.
    destruct (IH (Fr R c x l :: ctx) r 1) as [(y & R & Hy & Ey)|H]; [by apply brep_in|done|done|lia|done| |by right].
    left. exists y. split_and!; [exact R| |done]. cbn [elems]. set_solver.
  - left. exists x. split_and!; [done| |done]. cbn [elems]. set_solver.
Qed.

(** ** Linking the new node *)

Lemma rb_set_run s x p n : rbh_ents s !! x = Some n →
  RB_SET (Some x) p s = Ok (tt, put x (bnode L Red p None None) s).
Proof.
  intros Hn. unfold RB_SET. run. rewrite (rb_upd_run _ _ _ _ Hn). run.
  rewrite (rb_upd_run _ _ _ _ (put_eq _ _ _)). run. rewrite (rb_upd_run _ _ _ _ (put_eq _ _ _)). run.
  rewrite (rb_upd_run _ _ _ _ (put_eq _ _ _)). unfold put. cbn [rbh_root rbh_ents].
  by rewrite !insert_insert_eq.
Qed.

(** What lies outside the tree does not matter to it. *)
Lemma brep_put_out s ctx t x n : brep s ctx t → x ∉ bnodes ctx t → brep (put x n s) ctx t.
Proof.
  intros [Hc Ht Hnd] Hx. rewrite bnodes_split in Hx. constructor; [| |done].
  - eapply bcrep_ext; [|exact Hc]. intros z Hz. apply put_ne. set_solver.
  - eapply btrep_ext; [|exact Ht]. intros z Hz. apply put_ne. set_solver.
Qed.

Definition attach_new (comp : Z) (p x : ref) : rbp unit :=
  match p with
  | Some _ => if comp <? 0 then rb_upd p (wleft x) else rb_upd p (wright x)
  | None => wroot x
  end.

Lemma hang_run s ctx x comp :
  brep s ctx Leaf → x ∉ bnodes ctx Leaf → is_Some (rbh_ents s !! x) → on_side comp ctx →
  ∃ s', (_ ← RB_SET (Some x) (ctop ctx); attach_new comp (ctop ctx) (Some x)) s = Ok (tt, s') ∧
    brep s' ctx (T Red Leaf x Leaf) ∧ within (x :: bnodes ctx Leaf) s s'.
Proof.
  intros Hz Hx [n Hn] Hd. run. rewrite (rb_set_run _ _ _ _ Hn). run.
  pose proof (brep_put_out s ctx Leaf x (bnode L Red (ctop ctx) None None) Hz Hx) as [Hc _ Hnd].
  assert (within [x] s (put x (bnode L Red (ctop ctx) None None) s)) as F1 by (apply put_within; by eexists).
  set (s1 := put x _ s) in *. rewrite bnodes_split in Hx. cbn [tnodes] in Hx, Hnd. rewrite app_nil_r in Hx, Hnd.
  assert (NoDup (cnodes ctx ++ tnodes (T Red Leaf x Leaf))) as Hnd'.
  { cbn [tnodes app]. rewrite <- Permutation_cons_append. by apply NoDup_cons. }
  destruct ctx as [|[d c p sib] ctx]; cbn [ctop f_ent attach_new].
  - run. eexists. split; [reflexivity|]. split.
    + constructor; [done| |done]. cbn [btrep ctop]. split; [apply put_eq|done].
    + eapply within_mono; [|exact F1]. set_solver.
  - cbn [on_side f_dir] in Hd. rewrite Hd.
    destruct (attach_slot s1 d c p sib ctx None (Some x) Hc Hnd) as (s' & R' & C' & F' & _).
    exists s'. split_and!.
    + rewrite <- R'. by destruct d.
    + constructor; [done| |done]. cbn [btrep]. split; [|done]. rewrite (within_ne _ _ _ _ F').
      * apply put_eq.
      * cbn [cnodes f_ent] in Hx. set_solver.
    + eapply within_mono; [|exact (within_trans _ _ _ _ _ F1 F')]. intros z Hz'.
      rewrite elem_of_cons, bnodes_split. cbn [cnodes f_ent]. set_solver.
Qed.

(** ** RB_INSERT *)

Lemma leaf_good (ctx : list bframe) n : good ctx Leaf n → n = 0%nat ∧ crb ctx 0.
Proof. intros (Hc & Ht & _). inversion Ht; subst. done. Qed.

(** A node with the key of [x] is returned and nothing changes, or [x] is
    linked in its place in the order. *)
Lemma rb_insert_run s t n x :
  brep s [] t → good [] t n → in_order (elems t) → x ∉ elems t → is_Some (rbh_ents s !! x) →
  (∃ y, RB_INSERT key x s = Ok (Some y, s) ∧ y ∈ elems t ∧ key y = key x) ∨
  (∃ s' t' m l1 l2, RB_INSERT key x s = Ok (None, s') ∧ brep s' [] t' ∧ good [] t' m ∧
     elems t = l1 ++ l2 ∧ elems t' = l1 ++ x :: l2 ∧
     (∀ y, y ∈ l1 → key y < key x) ∧ (∀ y, y ∈ l2 → key x < key y) ∧
     within (elems t') s s').
Proof.
  intros Hz Hg Ho Hx Hn. unfold RB_INSERT, with_fuel. run. rewrite (brep_root _ _ Hz).
  destruct (insert_descend_run (tree_fuel s) s [] t (key x) 0 Hz Ho (straddles_nil _)) as
    [(y & Hrun & Hy)|(ctx & comp & Hrun & Hz' & Hs & Hd & Hp)]; [by eapply height_fuel|done|..];
    cbn [ctop] in Hrun; rewrite Hrun; run.
  { left. by exists y. }
  right. cbn [plug] in Hp. subst t. rewrite elems_plug_split in Hx. cbn [elems app] in Hx.
  destruct (hang_run s ctx x comp Hz') as (s1 & R1 & Z1 & F1);
    [unfold bnodes; by rewrite elems_plug_split|done|done|].
  run_in R1. destruct (RB_SET (Some x) (ctop ctx) s) as [[[] s0]|] eqn:E0; [|done]. run.
  change (match ctop ctx with Some _ => _ | None => _ end) with (attach_new comp (ctop ctx) (Some x)).
  rewrite R1. run.
  destruct (good_unplug ctx [] Leaf n) as [m Hm]; [done|]. rewrite app_nil_r in Hm.
  apply leaf_good in Hm as [-> Hc].
  destruct (insert_color_run s1 ctx Leaf x Leaf 0 Z1 Hc) as (s2 & t2 & m2 & R2 & Z2 & G2 & E2 & F2);
    [by repeat constructor|].
  rewrite R2. run. cbn [plug] in E2. rewrite elems_plug_split in E2. cbn [elems app] in E2.
  exists s2, t2, m2, (cpre ctx), (cpost ctx). destruct Hs as [B1 B2]. split_and!; try done.
  - rewrite elems_plug_split. done.
  - eapply within_twice.
    + eapply within_mono; [|exact F1]. intros z. unfold bnodes. rewrite elems_plug_split, E2. cbn [elems app]. set_solver.
    + eapply within_mono; [|exact F2]. intros z. unfold bnodes. rewrite elems_plug_split, E2. done.
Qed.
End keyed.

(** ** The ends of the order *)

Lemma minmax_loop_run fuel s d val ctx t :
  brep s ctx t → (val <? 0) = bool_decide (d = L) → (height t < fuel)%nat →
  minmax_loop fuel val (top t) (ctop ctx) s =
    Ok (match t with Leaf => ctop ctx | _ => match d with L => head (elems t) | R => last (elems t) end end, s).
Proof.
  revert ctx t. induction fuel as [|fuel IH]; intros ctx t Hz Hv Hf; [lia|].
  destruct t as [|c l x r]; cbn [top minmax_loop]; [done|]. run. rewrite Hv. simpl in Hf.
  destruct d; cbn [bool_decide].
  - rewrite bool_decide_eq_true_2 by done. rewrite (get_child s ctx L c x l r Hz : RB_LEFT _ s = _). run.
    rewrite (IH (Fr L c x r :: ctx) l (brep_in _ L _ _ _ _ _ Hz) Hv ltac:(lia) : minmax_loop _ _ _ (Some x) _ = _).
    f_equal. f_equal. destruct l as [|cl ll xl rl]; [done|]. cbn [elems]. destruct (elems ll); done.
  - rewrite bool_decide_eq_false_2 by done. rewrite (get_child_opp s ctx L c x l r Hz : RB_RIGHT _ s = _). run.
    rewrite (IH (Fr R c x l :: ctx) r (brep_in _ R _ _ _ _ _ Hz) Hv ltac:(lia) : minmax_loop _ _ _ (Some x) _ = _).
    f_equal. f_equal. cbn [elems]. rewrite last_app, last_cons. destruct r as [|cr lr xr rr]; [done|].
    destruct (last (elems (T cr lr xr rr))) eqn:E; [done|]. apply last_None in E.
    cbn [elems] in E. by destruct (elems lr).
Qed.

Lemma rb_min_run s t : brep s [] t → RB_MIN s = Ok (head (elems t), s).
Proof.
  intros Hz. unfold RB_MIN, RB_MINMAX, with_fuel. run. rewrite (brep_root _ _ Hz).
  rewrite (minmax_loop_run _ s L (-1) [] t Hz eq_refl (height_fuel _ _ _ Hz) : minmax_loop _ _ _ None _ = _).
  by destruct t.
Qed.

Lemma rb_max_run s t : brep s [] t → RB_MAX s = Ok (last (elems t), s).
Proof.
  intros Hz. unfold RB_MAX, RB_MINMAX, with_fuel. run. rewrite (brep_root _ _ Hz).
  rewrite (minmax_loop_run _ s R 1 [] t Hz eq_refl (height_fuel _ _ _ Hz) : minmax_loop _ _ _ None _ = _).
  by destruct t.
Qed.

(** ** Neighbours in the order *)

(** The next element in direction [d] after what is in the hole. *)
Definition toward (d : dir) (ctx : list bframe) : ref :=
  match d with R => head (cpost ctx) | L => last (cpre ctx) end.

Lemma toward_cons d d' c x sib ctx :
  toward d (Fr d' c x sib :: ctx) = if bool_decide (d' = d) then toward d ctx else Some x.
Proof.
  destruct d, d'; cbn [toward cpre cpost f_dir f_ent f_sib app bool_decide].
  - rewrite bool_decide_eq_true_2 by done. by rewrite app_nil_r.
  - rewrite bool_decide_eq_false_2 by done. by rewrite app_assoc, last_snoc.
  - by rewrite bool_decide_eq_false_2.
  - by rewrite bool_decide_eq_true_2.
Qed.

Definition neighbour (d : dir) (elm : ref) : rbp ref :=
  r ← rb_get elm (bchild d);
  match r with
  | Some _ => with_fuel (λ fuel, follow (λ p, rb_get p (bchild (opp d))) fuel r)
  | None =>
      p ← RB_PARENT elm;
      b ← hangs (λ p, rb_get p (bchild (opp d))) elm p;
      if b : bool then mret p
      else elm ← with_fuel (λ fuel, climb (λ p, rb_get p (bchild d)) fuel elm); RB_PARENT elm
  end.

Lemma next_dir elm : RB_NEXT elm = neighbour R elm.
Proof. reflexivity. Qed.
Lemma prev_dir elm : RB_PREV elm = neighbour L elm.
Proof. reflexivity. Qed.

(** The end of a subtree in a direction. *)
Definition endmost (d : dir) (t : btree) : ref := match d with L => head (elems t) | R => last (elems t) end.

Lemma endmost_mk d c x x1 x2 :
  endmost d (mk d c x x1 x2) = match x1 with Leaf => Some x | _ => endmost d x1 end.
Proof.
  destruct d; cbn [mk endmost elems].
  - destruct x1 as [|c1 l1 y r1]; [done|]. cbn [elems]. by destruct (elems l1).
  - rewrite last_app, last_cons. destruct x1 as [|c1 l1 y r1]; [done|].
    destruct (last (elems (T c1 l1 y r1))) eqn:E; [done|]. apply last_None in E. cbn [elems] in E. by destruct (elems l1).
Qed.

Lemma follow_run fuel s d ctx t :
  brep s ctx t → t ≠ Leaf → (height t ≤ fuel)%nat →
  follow (λ p, rb_get p (bchild d)) fuel (top t) s = Ok (endmost d t, s).
Proof.
  revert ctx t. induction fuel as [|fuel IH]; intros ctx t Hz Hne Hf;
    destruct (tree_mk d t Hne) as (c & x & x1 & x2 & ->); [by destruct d; simpl in Hf; lia|].
  rewrite top_mk. cbn [follow]. run. rewrite (get_child s ctx d c x x1 x2 Hz). run.
  rewrite endmost_mk. destruct x1 as [|c1 l1 y r1]; [done|]. cbn [top].
  apply (IH (Fr d c x x2 :: ctx) (T c1 l1 y r1)); [by apply brep_in|done|].
  destruct d; simpl in Hf |- *; lia.
Qed.

(** Whether the focus is the child on side [d] of its parent. *)
Lemma side_is s d d' c x sib ctx t :
  brep s (Fr d' c x sib :: ctx) t → t ≠ Leaf →
  ∃ q, rb_get (Some x) (bchild d) s = Ok (q, s) ∧ same (top t) q = bool_decide (d' = d).
Proof.
  intros Hz Hne. pose proof (brep_out _ _ _ _ _ _ _ Hz) as Ho. destruct (decide (d' = d)) as [->|Hd].
  - rewrite (get_child s _ _ _ _ _ _ Ho). eexists. split; [done|]. by rewrite same_refl, bool_decide_eq_true_2.
  - assert (d = opp d') as -> by (by destruct d, d'). rewrite (get_child_opp s _ _ _ _ _ _ Ho). eexists. split; [done|].
    rewrite bool_decide_eq_false_2 by done. apply same_ne. intros E. destruct t as [|ct lt y rt]; [done|].
    cbn [top] in E. symmetry in E. apply top_in in E. pose proof (br_nodup _ _ _ Hz) as Hnd.
    cbn [cnodes f_ent f_sib] in Hnd. apply NoDup_app in Hnd as (_ & Hnd & _). apply (Hnd y); cbn; set_solver.
Qed.

Lemma climb_run fuel s d ctx t :
  brep s ctx t → t ≠ Leaf → (length ctx < fuel)%nat →
  ∃ ctx' t', climb (λ p, rb_get p (bchild d)) fuel (top t) s = Ok (top t', s) ∧ brep s ctx' t' ∧ t' ≠ Leaf ∧
    ctop ctx' = toward d ctx.
Proof.
  revert ctx t. induction fuel as [|fuel IH]; intros ctx t Hz Hne Hf; [lia|].
  assert (RB_PARENT (top t) s = Ok (ctop ctx, s)) as HP
    by (destruct t as [|c l x r]; [done|]; apply (get_parent s ctx L c x l r Hz)).
  cbn [climb]. run. rewrite HP. run. destruct ctx as [|[d' c x sib] ctx]; cbn [ctop f_ent].
  { exists [], t. split_and!; [done..|]. by destruct d. }
  run. destruct (side_is s d d' c x sib ctx t Hz Hne) as (q & Hq & Es). rewrite Hq. run. rewrite Es, toward_cons.
  case_bool_decide as Hd.
  - simpl in Hf. destruct (IH ctx (mk d' c x t sib)) as (ctx2 & t2 & R2 & Z2 & N2 & E2);
      [by apply brep_out|by destruct d'|lia|]. rewrite top_mk in R2. rewrite R2. by exists ctx2, t2.
  - exists (Fr d' c x sib :: ctx), t. by split_and!.
Qed.

Lemma neighbour_run s d ctx c x x1 x2 :
  brep s ctx (mk d c x x1 x2) →
  neighbour d (Some x) s = Ok (match x1 with Leaf => toward d ctx | _ => endmost (opp d) x1 end, s).
Proof.
  intros Hz. unfold neighbour, with_fuel. run. rewrite (get_child s ctx d c x x1 x2 Hz). run.
  destruct x1 as [|c1 l1 y r1]; cbn [top].
  2:{ apply (follow_run (tree_fuel s) s (opp d) (Fr d c x x2 :: ctx) (T c1 l1 y r1)); [by apply brep_in|done|].
      pose proof (height_fuel _ _ _ (brep_in _ _ _ _ _ _ _ Hz)). lia. }
  run. rewrite (get_parent s ctx d c x Leaf x2 Hz). run.
  assert (mk d c x Leaf x2 ≠ Leaf) as Hne by (by destruct d).
  assert (hangs (λ p, rb_get p (bchild (opp d))) (Some x) (ctop ctx) s =
    Ok (match ctx with [] => false | f :: _ => bool_decide (f_dir f = opp d) end, s)) as ->.
  { destruct ctx as [|[d' c' y sib] ctx]; [done|]. cbn [ctop f_ent hangs f_dir]. run.
    destruct (side_is s (opp d) d' c' y sib ctx _ Hz Hne) as (q & Hq & Es). rewrite top_mk in Es.
    rewrite Hq. run. by rewrite Es. }
  run. destruct (match ctx with [] => false | f :: _ => bool_decide (f_dir f = opp d) end) eqn:Eb.
  - destruct ctx as [|[d' c' y sib] ctx]; [done|]. cbn [f_dir] in Eb. apply bool_decide_eq_true in Eb as ->.
    rewrite toward_cons, bool_decide_eq_false_2 by (by destruct d). done.
  - run. destruct (climb_run (tree_fuel s) s d ctx (mk d c x Leaf x2) Hz Hne) as (ctx2 & t2 & R2 & Z2 & N2 & E2).
    { pose proof (brep_size _ _ _ Hz). pose proof (cnodes_length ctx). unfold tree_fuel. lia. }
    rewrite top_mk in R2. rewrite R2. run. destruct t2 as [|c3 l3 x3 r3]; [done|]. cbn [top].
    by rewrite (get_parent s ctx2 L c3 x3 l3 r3 Z2), E2.
Qed.

Lemma split_unique (x : nat) la lb l1 l2 :
  l1 ++ x :: l2 = la ++ x :: lb → NoDup (l1 ++ x :: l2) → l1 = la ∧ l2 = lb.
Proof.
  revert la. induction l1 as [|a l1 IH]; intros [|b la] E Hnd; cbn [app] in E, Hnd; apply NoDup_cons in Hnd as [Hn Hnd].
  - by injection E as ->.
  - injection E as -> ->. set_solver.
  - injection E as -> E. rewrite E in Hn. set_solver.
  - injection E as -> E. by destruct (IH la E Hnd) as [-> ->].
Qed.

(** RB_NEXT and RB_PREV are the neighbours in the order. *)
Lemma rb_next_run s t l1 x l2 :
  brep s [] t → elems t = l1 ++ x :: l2 → NoDup (elems t) →
  RB_NEXT (Some x) s = Ok (head l2, s) ∧ RB_PREV (Some x) s = Ok (last l1, s).
Proof.
  intros Hz E Hnd.
  destruct (focus_on t x) as (ctx & c & l & r & Hp); [rewrite E; set_solver|].
  rewrite <- Hp in Hz. apply (brep_plug s ctx []) in Hz. rewrite app_nil_r in Hz.
  assert (l1 = cpre ctx ++ elems l ∧ l2 = elems r ++ cpost ctx) as [-> ->].
  { apply (split_unique x); [|by rewrite <- E]. rewrite <- E, <- Hp, elems_plug_split. cbn [elems].
    by repeat (rewrite <- app_assoc; cbn [app]). }
  split.
  - rewrite next_dir, (neighbour_run s R ctx c x r l Hz). f_equal. f_equal. cbn [toward opp endmost].
    destruct r as [|cr lr y rr]; [done|]. cbn [elems]. by destruct (elems lr).
  - rewrite prev_dir, (neighbour_run s L ctx c x l r Hz). f_equal. f_equal. cbn [toward opp endmost].
    rewrite last_app. destruct l as [|cl ll y rl]; [done|].
    destruct (last (elems (T cl ll y rl))) eqn:E'; [done|]. apply last_None in E'. cbn [elems] in E'. by destruct (elems ll).
Qed.
