(* ===== verification/BsdTreeDel.v ===== *)
(** * Red-black trees of coroutines: removal

    After a black node has left, the subtree [t] at the focus is one black node
    short: [crb ctx (S n)] while [t] has black height [n].  RB_REMOVE_COLOR
    moves the shortage up or removes it. *)

From stdpp Require Import sorting.
From S2P Require Import Prelude RbShape BsdTree BsdTreeZip BsdTreeIns BsdTreeSearch.

(** ** One round, by direction *)

Definition sib_step (d : dir) (parent tmp : ref) (c : Z) : rbp ref :=
  if c =? RB_RED then
    _ ← RB_SET_BLACKRED tmp parent;
    _ ← brotate d parent;
    rb_get parent (bchild (opp d))
  else mret tmp.

Definition far_step (d : dir) (parent tmp : ref) (black : bool) : rbp ref :=
  if black then
    near ← rb_get tmp (bchild d);
    _ ← unless_null near (rb_upd near (wcolor RB_BLACK));
    _ ← rb_upd tmp (wcolor RB_RED);
    _ ← brotate (opp d) tmp;
    rb_get parent (bchild (opp d))
  else mret tmp.

Definition last_step (d : dir) (parent tmp : ref) : rbp (ref * ref + ref) :=
  pc ← RB_COLOR parent;
  _ ← rb_upd tmp (wcolor pc);
  _ ← rb_upd parent (wcolor RB_BLACK);
  far ← rb_get tmp (bchild (opp d));
  _ ← unless_null far (rb_upd far (wcolor RB_BLACK));
  _ ← brotate d parent;
  root ← RB_ROOT;
  mret (inr root).

Definition bunfix (d : dir) (parent elm : ref) : rbp (ref * ref + ref) :=
  tmp ← rb_get parent (bchild (opp d));
  c ← RB_COLOR tmp;
  tmp ← sib_step d parent tmp c;
  both ← children_black tmp;
  if both : bool then
    _ ← rb_upd tmp (wcolor RB_RED);
    p ← RB_PARENT parent;
    mret (inl (p, parent))
  else
    far ← rb_get tmp (bchild (opp d));
    fb ← black_at far;
    tmp ← far_step d parent tmp fb;
    last_step d parent tmp.

Lemma remove_color_left_dir p e : remove_color_left p e = bunfix L p e.
Proof. reflexivity. Qed.
Lemma remove_color_right_dir p e : remove_color_right p e = bunfix R p e.
Proof. reflexivity. Qed.

(** The focus is short of a black node. *)
Record lacking (s : rbhead) (ctx : list bframe) (t : btree) (n : nat) : Prop := Lacking {
  lk_rep : brep s ctx t;
  lk_ctx : crb ctx (S n);
}.

(** A red sibling is rotated above the parent. *)
Lemma sib_step_run s ctx d c p sib t n :
  lacking s (Fr d c p sib :: ctx) t n →
  ∃ s' c' w w1 w2 ctx', sib_step d (Some p) (top sib) (bz (root_col sib)) s = Ok (Some w, s') ∧
    lacking s' (Fr d c' p (mk d Black w w1 w2) :: ctx') t n ∧
    shifted s s' (Fr d c p sib :: ctx) (Fr d c' p (mk d Black w w1 w2) :: ctx') t t ∧
    ((ctx' = ctx ∧ c' = c) ∨ c' = Red).
Proof.
  intros Hs. pose proof Hs as [Hz Hc]. unfold sib_step. rewrite bz_red.
  destruct (tree_mk d sib) as (cw & w & w1 & w2 & ->); [eapply rb_S_node, crb_sib, Hc|].
  rewrite root_col_mk, top_mk. destruct cw; cbn [is_red].
  2:{ exists s, c, w, w1, w2, ctx. split_and!; auto using shifted_refl. }
  destruct c; cbn [crb] in Hc; [by rewrite root_col_mk in Hc; destruct Hc as (_ & ? & _)|]. destruct Hc as [Hsib Hc].
  apply rb_mk_red in Hsib as (H1 & H2 & H3 & H4).
  destruct (tree_mk d w1) as (cv & v & v1 & v2 & ->); [by eapply rb_S_node|]. rewrite root_col_mk in H3. subst cv.
  pose proof (brep_out _ _ _ _ _ _ _ Hz) as Ho.
  assert (brep s (Fr (opp d) Black p t :: ctx) (mk d Red w (mk d Black v v1 v2) w2)) as Hw
    by (apply brep_in; by rewrite mk_opp).
  destruct (recolor s _ _ _ _ _ _ Hw Black) as (s1 & R1 & Z1 & F1 & _). apply brep_out in Z1. rewrite mk_opp in Z1.
  destruct (recolor s1 _ _ _ _ _ _ Z1 Red) as (s2 & R2 & Z2 & F2 & _).
  destruct (brotate_run s2 _ _ _ _ _ _ _ _ _ Z2) as (s3 & R3 & Z3 & F3).
  change (bz Black) with RB_BLACK in *. change (bz Red) with RB_RED in *.
  exists s3, Red, v, v1, v2, (Fr d Black w w2 :: ctx). apply brep_in in Z3.
  unfold RB_SET_BLACKRED. run. rewrite R1. run. rewrite R2. run. rewrite R3. run.
  rewrite (get_child_opp s3 _ _ _ _ _ _ Z3), top_mk. split_and!; [done| | |by right].
  - split; [by apply brep_in|]. cbn [crb under_black f_col]. rewrite root_col_mk. done.
  - split; [cbn [plug f_dir f_col f_ent f_sib]; apply elems_plug; destruct d; same_elems|].
    eapply within_twice; [|eapply within_twice]; [in_tree F1|in_tree F2|in_tree F3].
Qed.

Lemma children_black_run s ctx d c x x1 x2 :
  brep s ctx (mk d c x x1 x2) →
  children_black (Some x) s = Ok (negb (is_red (root_col x1)) && negb (is_red (root_col x2)), s).
Proof.
  intros Hz. unfold children_black. run.
  set (l := match d with L => x1 | R => x2 end). set (r := match d with L => x2 | R => x1 end).
  assert (mk d c x x1 x2 = T c l x r) as E by (by destruct d). rewrite E in Hz.
  assert (brep s (Fr L c x r :: ctx) l ∧ brep s (Fr R c x l :: ctx) r) as [Hl Hr] by (by split; apply brep_in).
  rewrite (get_child s ctx L _ _ _ _ Hz : RB_LEFT _ _ = _). run. rewrite (black_at_run s _ _ Hl). run.
  destruct (negb (is_red (root_col l))) eqn:E1; run.
  - rewrite (get_child_opp s ctx L _ _ _ _ Hz : RB_RIGHT _ _ = _). run. rewrite (black_at_run s _ _ Hr).
    destruct d; subst l r; rewrite E1; [done|by rewrite andb_comm].
  - destruct d; subst l r; rewrite E1; [done|by rewrite andb_comm].
Qed.

Section sibling.
Variables (s : rbhead) (ctx : list bframe) (d : dir) (c : col) (p w : nat) (w1 w2 t : btree) (n : nat).
Hypothesis Hs : lacking s (Fr d c p (mk d Black w w1 w2) :: ctx) t n.

(** The tree with the sibling at the focus. *)
Lemma bat_sibling : brep s (Fr (opp d) c p t :: ctx) (mk d Black w w1 w2).
Proof. apply brep_in. rewrite mk_opp. apply brep_out, Hs. Qed.

Lemma bsibling_heights : rb w1 n ∧ rb w2 n.
Proof. apply (rb_mk_black d w). eapply crb_sib, Hs. Qed.

(** The near child of the sibling red, the far one black: a rotation makes the
    far one red. *)
Lemma far_step_run :
  root_col w1 = Red ∨ root_col w2 = Red →
  ∃ s' w' w1' w2', far_step d (Some p) (Some w) (negb (is_red (root_col w2))) s = Ok (Some w', s') ∧
    lacking s' (Fr d c p (mk d Black w' w1' w2') :: ctx) t n ∧ root_col w2' = Red ∧
    shifted s s' (Fr d c p (mk d Black w w1 w2) :: ctx) (Fr d c p (mk d Black w' w1' w2') :: ctx) t t.
Proof.
  intros Hred. pose proof bat_sibling as Hw. unfold far_step.
  destruct (root_col w2) eqn:Hc2; cbn [is_red negb].
  { exists s, w, w1, w2. split_and!; auto using shifted_refl. }
  destruct Hred as [Hc1|]; [|done]. destruct (tree_mk d w1) as (cv & v & v1 & v2 & Ev); [by destruct w1|].
  rewrite Ev in Hc1. rewrite root_col_mk in Hc1. subst cv.
  destruct bsibling_heights as [H1 H2]. rewrite Ev in H1. apply rb_mk_red in H1 as (Hv1 & Hv2 & Hb1 & Hb2).
  pose proof Hs as Hs0. rewrite Ev in Hw, Hs0. run. rewrite (get_child s _ _ _ _ _ _ Hw). run.
  rewrite top_mk. cbn [unless_null].
  destruct (recolor s _ _ _ _ _ _ (brep_in _ _ _ _ _ _ _ Hw) Black) as (s1 & R1 & Z1 & F1 & _).
  apply brep_out in Z1. destruct (recolor s1 _ _ _ _ _ _ Z1 Red) as (s2 & R2 & Z2 & F2 & _).
  assert (brep s2 (Fr (opp d) c p t :: ctx) (mk (opp d) Red w w2 (mk (opp d) Black v v2 v1))) as Z2'
    by (by rewrite !mk_opp).
  destruct (brotate_run s2 _ _ _ _ _ _ _ _ _ Z2') as (s3 & R3 & Z3 & F3). rewrite !mk_opp in Z3.
  change (bz Black) with RB_BLACK in *. change (bz Red) with RB_RED in *.
  pose proof (brep_out _ _ _ _ _ _ _ Z3) as Z4. rewrite mk_opp in Z4.
  exists s3, v, v1, (mk d Red w v2 w2). rewrite root_col_mk, Ev.
  rewrite R1. run. rewrite R2. run. rewrite R3. run.
  rewrite (get_child_opp s3 _ _ _ _ _ _ Z4), top_mk. split_and!; [done| |done|].
  - split; [by apply brep_in|]. pose proof (lk_ctx _ _ _ _ Hs0) as Hc.
    assert (rb (mk d Black v v1 (mk d Red w v2 w2)) (S n)) as Hrb.
    { apply rb_mk_black. split; [done|]. by apply rb_mk_red. }
    destruct c; cbn [crb] in Hc |- *; rewrite ?root_col_mk in *; intuition.
  - split; [cbn [plug f_dir f_col f_ent f_sib]; apply elems_plug; destruct d; same_elems|].
    eapply within_twice; [|eapply within_twice]; [in_tree F1|in_tree F2|in_tree F3].
Qed.

(** A red far child: the last rotation restores the invariant everywhere. *)
Lemma last_step_run :
  root_col w2 = Red → rb t n →
  ∃ s' t' m, last_step d (Some p) (Some w) s = Ok (inr (top t'), s') ∧ brep s' [] t' ∧ good [] t' m ∧
    shifted s s' (Fr d c p (mk d Black w w1 w2) :: ctx) [] t t'.
Proof.
  intros Hred Ht. pose proof bat_sibling as Hw. destruct bsibling_heights as [H1 H2].
  destruct (tree_mk d w2) as (cv & v & v1 & v2 & Ev); [by destruct w2|]. rewrite Ev in *.
  rewrite root_col_mk in Hred. subst cv. apply rb_mk_red in H2 as (Hv1 & Hv2 & _ & _).
  unfold last_step. run. rewrite (get_color s _ _ _ _ _ _ (brep_out _ _ _ _ _ _ _ (lk_rep _ _ _ _ Hs))). run.
  destruct (recolor s _ _ _ _ _ _ Hw c) as (s1 & R1 & Z1 & F1 & _). rewrite R1. run.
  apply brep_out in Z1. rewrite mk_opp in Z1.
  destruct (recolor s1 _ _ _ _ _ _ Z1 Black) as (s2 & R2 & Z2 & F2 & _).
  change (bz Black) with RB_BLACK in *. rewrite R2. run.
  rewrite <- mk_opp in Z2. apply brep_in in Z2. rewrite (get_child_opp s2 _ _ _ _ _ _ Z2). run. rewrite top_mk.
  cbn [unless_null]. rewrite <- mk_opp in Z2.
  destruct (recolor s2 _ _ _ _ _ _ (brep_in _ _ _ _ _ _ _ Z2) Black) as (s3 & R3 & Z3 & F3 & _).
  change (bz Black) with RB_BLACK in *. rewrite R3. run.
  apply brep_out in Z3. rewrite mk_opp in Z3. apply brep_out in Z3. rewrite mk_opp in Z3.
  destruct (brotate_run s3 _ _ _ _ _ _ _ _ _ Z3) as (s4 & R4 & Z4 & F4). rewrite R4. run.
  set (t4 := mk d c w (mk d Black p t w1) (mk d Black v v1 v2)) in *.
  assert (∃ m, good ctx t4 m) as [m Hg].
  { pose proof (lk_ctx _ _ _ _ Hs) as Hc. unfold t4.
    assert (rb (mk d Black p t w1) (S n) ∧ rb (mk d Black v v1 v2) (S n)) as [Q1 Q2] by (split; by apply rb_mk_black).
    destruct c; cbn [crb] in Hc.
    - destruct Hc as (_ & _ & Hu & Hc). exists (S n). split_and!; [done| |done].
      apply rb_mk_red. by rewrite !root_col_mk.
    - destruct Hc as [_ Hc]. exists (S (S n)). split_and!; [done|by apply rb_mk_black|by rewrite root_col_mk]. }
  destruct (good_plug _ _ _ Hg) as [m' Hg'].
  rewrite <- (app_nil_r ctx) in Z4. apply brep_plug in Z4.
  exists s4, (plug ctx t4), m'. rewrite (brep_root _ _ Z4). split_and!; [done..|].
  split; [cbn [plug f_dir f_col f_ent f_sib]; apply elems_plug; destruct d; same_elems|].
  eapply within_twice; [|eapply within_twice; [|eapply within_twice]]; [in_tree F1|in_tree F2|in_tree F3|in_tree F4].
Qed.
End sibling.

(** A round: the loop is left with a repaired tree, or the shortage is one
    step up. *)
Lemma bunfix_run s ctx d c p sib t n e :
  lacking s (Fr d c p sib :: ctx) t n → rb t n →
  (∃ s' t' m, bunfix d (Some p) e s = Ok (inr (top t'), s') ∧ brep s' [] t' ∧ good [] t' m ∧
     shifted s s' (Fr d c p sib :: ctx) [] t t') ∨
  (∃ s' ctx' t', bunfix d (Some p) e s = Ok (inl (ctop ctx', top t'), s') ∧ brep s' ctx' t' ∧
     shifted s s' (Fr d c p sib :: ctx) ctx' t t' ∧
     (settled_at ctx' t' ∧ root_col t' = Red ∨
      ∃ m, lacking s' ctx' t' m ∧ rb t' m ∧ (length ctx' ≤ length ctx)%nat)).
Proof.
  intros Hs Ht. unfold bunfix. run. pose proof (brep_out _ _ _ _ _ _ _ (lk_rep _ _ _ _ Hs)) as Ho.
  rewrite (get_child_opp s _ _ _ _ _ _ Ho). run.
  assert (RB_COLOR (top sib) s = Ok (bz (root_col sib), s)) as ->.
  { assert (brep s (Fr (opp d) c p t :: ctx) sib) as Hsb by (apply brep_in; by rewrite mk_opp).
    destruct sib as [|cs ls xs rs]; [by destruct (rb_S_node _ _ (crb_sib _ _ _ _ _ _ (lk_ctx _ _ _ _ Hs)))|].
    apply (get_color s _ L _ _ _ _ Hsb). }
  run. destruct (sib_step_run s ctx d c p sib t n Hs) as (s1 & c1 & w & w1 & w2 & ctx1 & R1 & S1 & M1 & Hor).
  rewrite R1. run. pose proof (bat_sibling _ _ _ _ _ _ _ _ _ _ S1) as Hw.
  rewrite (children_black_run s1 _ d _ _ _ _ Hw). run.
  destruct (bsibling_heights _ _ _ _ _ _ _ _ _ _ S1) as [H1 H2].
  destruct (negb (is_red (root_col w1)) && negb (is_red (root_col w2))) eqn:Eb.
  - right. assert (root_col w1 = Black ∧ root_col w2 = Black) as [B1 B2]
      by (apply andb_true_iff in Eb as []; by destruct (root_col w1), (root_col w2)).
    destruct (recolor s1 _ _ _ _ _ _ Hw Red) as (s2 & R2 & Z2 & F2 & _).
    change (bz Red) with RB_RED in *. run. rewrite R2. run. apply brep_out in Z2. rewrite mk_opp in Z2.
    rewrite (get_parent s2 _ _ _ _ _ _ Z2). run.
    exists s2, ctx1, (mk d c1 p t (mk d Red w w1 w2)). rewrite top_mk.
    assert (shifted s s2 (Fr d c p sib :: ctx) ctx1 t (mk d c1 p t (mk d Red w w1 w2))) as M.
    { eapply (shifted_trans _ _ _ _ _ ctx1 _ _ (mk d c1 p t (mk d Red w w1 w2))); [exact M1|].
      split; [cbn [plug f_dir f_col f_ent f_sib]; apply elems_plug; destruct d; same_elems|in_tree F2]. }
    assert (rb (mk d Red w w1 w2) n) as Hrw by (by apply rb_mk_red).
    split_and!; [done..|]. pose proof (lk_ctx _ _ _ _ S1) as Hc1. destruct c1; cbn [crb] in Hc1.
    + left. rewrite root_col_mk. split; [|done]. split; [right; by rewrite root_col_mk|]. exists (S n). rewrite blacken_mk.
      split_and!; [apply Hc1|by apply rb_mk_black|by rewrite root_col_mk].
    + right. destruct Hor as [[-> <-]|]; [|done]. exists (S n). split_and!; [|by apply rb_mk_black|done].
      split; [done|apply Hc1].
  - left. run. rewrite (get_child_opp s1 _ _ _ _ _ _ Hw). run.
    assert (brep s1 (Fr (opp d) Black w w1 :: Fr (opp d) c1 p t :: ctx1) w2) as Hw2 by (apply brep_in; by rewrite mk_opp).
    rewrite (black_at_run s1 _ _ Hw2). run.
    destruct (far_step_run s1 _ _ _ _ _ _ _ _ _ S1) as (s2 & w' & w1' & w2' & R2 & S2 & Hr2 & M2).
    { destruct (root_col w1); [by left|]. destruct (root_col w2); [by right|done]. }
    rewrite R2. run.
    destruct (last_step_run s2 _ _ _ _ _ _ _ _ _ S2 Hr2 Ht) as (s3 & t' & m & R3 & Z3 & G3 & M3).
    exists s3, t', m. split_and!; [done..|]. by eapply shifted_trans; [eapply shifted_trans|].
Qed.

(** ** The loop *)

Lemma remove_loop_exit fuel s ctx t par :
  brep s ctx t → ctx = [] ∨ root_col t = Red → remove_color_loop (S fuel) par (top t) s = Ok (top t, s).
Proof.
  intros Hz Hor. cbn [remove_color_loop]. run. rewrite (black_at_run s _ _ Hz). run.
  destruct ctx as [|f ctx].
  - rewrite (brep_root _ _ Hz), same_refl. by rewrite andb_false_r.
  - destruct Hor as [|Hr]; [done|]. by rewrite Hr.
Qed.

Lemma good_blacken (t : btree) m : good [] t m → good [] (blacken t) m.
Proof. intros (Hc & Ht & Hr). destruct t as [|[] l x r]; [done|by destruct Hr|done]. Qed.

Lemma remove_loop_run fuel s ctx t n :
  lacking s ctx t n → rb t n → (length ctx < fuel)%nat →
  ∃ s' ctx' t', remove_color_loop fuel (ctop ctx) (top t) s = Ok (top t', s') ∧
    brep s' ctx' t' ∧ shifted s s' ctx ctx' t t' ∧ settled_at ctx' t'.
Proof.
  revert s ctx t n. induction fuel as [|fuel IH]; intros s ctx t n Hs Ht Hf; [lia|].
  assert (ctx = [] ∨ root_col t = Red → settled_at ctx t) as Hdone.
  { intros Hor. split; [done|]. destruct t as [|c l x r].
    - destruct Hor as [->|]; [|done]. by exists n.
    - destruct c.
      + exists (S n). split_and!; [apply Hs| |done]. inversion_clear Ht. by constructor.
      + destruct Hor as [->|]; [|done]. by exists n. }
  destruct (decide (ctx = [] ∨ root_col t = Red)) as [Hor|Hor].
  { exists s, ctx, t. split_and!; [apply (remove_loop_exit _ s ctx t _ (lk_rep _ _ _ _ Hs) Hor)|apply Hs
      |apply shifted_refl|auto]. }
  destruct ctx as [|[d c p sib] ctx]; [by destruct Hor; left|].
  assert (root_col t = Black) as Hb by (destruct (root_col t); [by destruct Hor; right|done]).
  pose proof (lk_rep _ _ _ _ Hs) as Hz. cbn [remove_color_loop]. run. rewrite (black_at_run s _ _ Hz), Hb. run.
  rewrite (focus_not_root _ _ _ _ Hz). cbn [is_red negb andb]. run. cbn [ctop f_ent].
  destruct (bside s _ _ _ _ _ _ Hz) as (q & Hq & _ & Eq); [right; eapply rb_S_node, crb_sib, Hs|].
  rewrite Hq. run. rewrite Eq.
  assert ((if bool_decide (d = L) then remove_color_left (Some p) (top t) else remove_color_right (Some p) (top t))
    = bunfix d (Some p) (top t)) as -> by (by destruct d).
  cbn [length] in Hf.
  destruct (bunfix_run s ctx d c p sib t n (top t) Hs Ht) as
    [(s1 & t1 & m & R1 & Z1 & G1 & M1)|(s1 & ctx1 & t1 & R1 & Z1 & M1 & [[Hst Hr]|(m & Hs1 & Ht1 & Hl1)])];
    rewrite R1; run.
  - exists s1, [], t1. split_and!; try done. split; [by left|]. exists m. by apply good_blacken.
  - destruct fuel as [|fuel]; [lia|]. rewrite (remove_loop_exit fuel s1 ctx1 t1 _ Z1) by (by right).
    exists s1, ctx1, t1. by split_and!.
  - destruct (IH s1 ctx1 t1 m Hs1 Ht1 ltac:(lia)) as (s2 & ctx2 & t2 & R2 & Z2 & M2 & St2).
    exists s2, ctx2, t2. split_and!; try done. by eapply shifted_trans.
Qed.

Lemma blacken_focus s ctx t :
  brep s ctx t →
  ∃ s', unless_null (top t) (rb_upd (top t) (wcolor RB_BLACK)) s = Ok (tt, s') ∧ brep s' ctx (blacken t) ∧
    shifted s s' ctx ctx t (blacken t).
Proof.
  intros Hz. destruct t as [|c l x r]; cbn [top blacken unless_null].
  - exists s. split_and!; auto using shifted_refl.
  - destruct (recolor s ctx L c x l r Hz Black) as (s' & R & Z & F & _). exists s'. split_and!; [done..|].
    split; [by apply elems_plug|]. eapply within_nodes; [exact F|]. cbn. set_solver.
Qed.

Lemma remove_color_run s ctx t n :
  lacking s ctx t n → rb t n →
  ∃ s' t' m, RB_REMOVE_COLOR (ctop ctx) (top t) s = Ok (tt, s') ∧ brep s' [] t' ∧ good [] t' m ∧
    shifted s s' ctx [] t t'.
Proof.
  intros Hs Ht. unfold RB_REMOVE_COLOR, with_fuel. run.
  destruct (remove_loop_run (tree_fuel s) s ctx t n Hs Ht) as (s1 & ctx1 & t1 & R1 & Z1 & M1 & _ & m & Hg).
  { pose proof (brep_size _ _ _ (lk_rep _ _ _ _ Hs)). pose proof (cnodes_length ctx). unfold tree_fuel. lia. }
  rewrite R1. run. destruct (blacken_focus s1 ctx1 t1 Z1) as (s2 & R2 & Z2 & M2).
  destruct (good_plug _ _ _ Hg) as [m' Hg']. rewrite <- (app_nil_r ctx1) in Z2. apply brep_plug in Z2.
  exists s2, (plug ctx1 (blacken t1)), m'. split_and!; [done..|].
  eapply shifted_trans; [exact M1|]. exact M2.
Qed.

(** ** Taking a node out *)

Lemma reseat_slot s ctx x q :
  bcrep (rbh_ents s) (rbh_root s) ctx (Some x) → NoDup (x :: cnodes ctx) →
  ∃ s', reseat (ctop ctx) (Some x) q s = Ok (tt, s') ∧
    bcrep (rbh_ents s') (rbh_root s') ctx q ∧ within (cnodes ctx) s s'.
Proof.
  intros Hc Hnd. destruct (relink_slot s ctx x q Hc Hnd) as (s' & R & H). exists s'. split; [|done].
  rewrite <- R. unfold reseat, relink_above. destruct (ctop ctx) as [y|]; [|done]. run.
  destruct (RB_LEFT (Some y) s) as [[l s1]|]; [|done].
  assert (same l (Some x) = same (Some x) l) as ->; [|done].
  unfold same. apply bool_decide_ext. done.
Qed.

(** A node with at most one child. *)
Lemma splice_run s ctx c l x r :
  brep s ctx (T c l x r) → l = Leaf ∨ r = Leaf →
  ∃ s', splice (Some x) (ctop ctx) (top (only_child l r)) s = Ok (tt, s') ∧ brep s' ctx (only_child l r) ∧
    within (cnodes ctx ++ tnodes (only_child l r)) s s' ∧ x ∉ cnodes ctx ++ tnodes (only_child l r).
Proof.
  intros [Hc Ht Hnd] Hor. set (t := only_child l r).
  assert (tnodes (T c l x r) = x :: tnodes t) as Et.
  { unfold t. cbn [tnodes]. destruct Hor as [-> | ->]; cbn [tnodes app only_child]; [done|].
    destruct l; cbn [only_child]; by rewrite ?app_nil_r. }
  cbn [btrep] in Ht. destruct Ht as (Hx & Hl & Hr).
  assert (btrep (rbh_ents s) (Some x) t) as Htt by (unfold t; by destruct l).
  rewrite Et in Hnd. rewrite <- Permutation_middle in Hnd. apply NoDup_cons in Hnd as [Hxn Hnd].
  pose proof Hnd as Hnd0. apply NoDup_app in Hnd0 as (N1 & N2 & N3).
  unfold splice. run. destruct (reparent_top s _ (ctop ctx) t Htt N3) as (s1 & R1 & T1 & F1 & E1). rewrite R1. run.
  destruct (reseat_slot s1 ctx x (top t)) as (s2 & R2 & C2 & F2).
  { rewrite E1. eapply bcrep_ext; [|exact Hc]. intros z Hz. apply (within_ne _ _ _ _ F1). set_solver. }
  { apply NoDup_cons. set_solver. }
  rewrite R2. exists s2. split_and!; [done| | |done].
  - constructor; [done| |done]. eapply btrep_ext; [|exact T1]. intros z Hz. apply (within_ne _ _ _ _ F2). set_solver.
  - eapply within_mono; [|exact (within_trans _ _ _ _ _ F1 F2)]. set_solver.
Qed.

(** A node outside takes the place of [x]. *)
Lemma take_over_run s ctx c l x r y :
  brep s ctx (T c l x r) → l ≠ Leaf → y ∉ bnodes ctx (T c l x r) → is_Some (rbh_ents s !! y) →
  ∃ s', take_over (Some x) (Some y) s = Ok (tt, s') ∧ brep s' ctx (T c l y r) ∧
    within (y :: bnodes ctx (T c l x r)) s s'.
Proof.
  intros [Hc Ht Hnd] Hl Hy [ny Hny]. rewrite bnodes_split in Hy.
  cbn [btrep] in Ht. destruct Ht as (Hx & Hlr & Hrr). cbn [top] in Hc.
  cbn [tnodes] in Hnd, Hy. pose proof Hnd as Hnd0. rewrite <- Permutation_middle in Hnd0.
  apply NoDup_cons in Hnd0 as [Nx Nd]. pose proof Nd as Nd0. apply NoDup_app in Nd0 as (N1 & N2 & N3).
  apply NoDup_app in N3 as (N3 & N4 & N5).
  unfold take_over. run. rewrite (rb_get_run _ _ _ _ Hx). run. rewrite (rb_upd_run _ _ _ _ Hny). run.
  set (n := bnode L c (ctop ctx) (top l) (top r)) in *. set (s1 := put y n s).
  assert (within [y] s s1) as F1 by (apply put_within; by eexists).
  assert (rbh_ents s1 !! x = Some n) as Hx1 by (rewrite (within_ne _ _ _ _ F1) by set_solver; done).
  unfold RB_PARENT. rewrite (rb_get_run _ _ _ _ Hx1). run.
  destruct (reseat_slot s1 ctx x (Some y)) as (s2 & R2 & C2 & F2).
  { eapply bcrep_ext; [|exact Hc]. intros z Hz. apply (within_ne _ _ _ _ F1). set_solver. }
  { apply NoDup_cons. set_solver. }
  cbn [n bnode rbe_parent]. rewrite R2. run.
  assert (rbh_ents s2 !! x = Some n) as Hx2 by (rewrite (within_ne _ _ _ _ F2) by set_solver; done).
  unfold RB_LEFT. rewrite (rb_get_run _ _ _ _ Hx2). run. cbn [n bnode rbe_left].
  pose proof (within_trans _ _ _ _ _ F1 F2) as F12.
  destruct (reparent_top s2 (Some x) (Some y) l) as (s3 & R3 & T3 & F3 & E3).
  { eapply btrep_ext; [|exact Hlr]. intros z Hz. apply (within_ne _ _ _ _ F12). set_solver. }
  { done. }
  destruct l as [|cl ll xl rl]; [done|]. cbn [top unless_null] in R3. cbn [top]. rewrite R3. run.
  set (l := T cl ll xl rl) in *.
  assert (rbh_ents s3 !! x = Some n) as Hx3 by (rewrite (within_ne _ _ _ _ F3) by set_solver; done).
  unfold RB_RIGHT. rewrite (rb_get_run _ _ _ _ Hx3). run. cbn [n bnode rbe_right].
  pose proof (within_trans _ _ _ _ _ F12 F3) as F13.
  destruct (reparent_top s3 (Some x) (Some y) r) as (s4 & R4 & T4 & F4 & E4).
  { eapply btrep_ext; [|exact Hrr]. intros z Hz. apply (within_ne _ _ _ _ F13). set_solver. }
  { done. }
  rewrite R4. exists s4. pose proof (within_trans _ _ _ _ _ F13 F4) as F.
  assert (y ∉ cnodes ctx ∧ y ∉ tnodes l ∧ y ∉ tnodes r ∧ y ≠ x) as (Y1 & Y2 & Y3 & Y4) by set_solver.
  split_and!; [done| |].
  - constructor; cbn [top].
    + rewrite E4, E3. eapply bcrep_ext; [|exact C2]. intros z Hz.
      rewrite (within_ne _ _ _ _ F4), (within_ne _ _ _ _ F3) by set_solver. done.
    + cbn [btrep]. split_and!.
      * rewrite (within_ne _ _ _ _ F4), (within_ne _ _ _ _ F3), (within_ne _ _ _ _ F2) by set_solver. apply put_eq.
      * eapply btrep_ext; [|exact T3]. intros z Hz. rewrite (within_ne _ _ _ _ F4) by set_solver. done.
      * exact T4.
    + cbn [tnodes]. rewrite <- Permutation_middle. apply NoDup_cons. split; [set_solver|done].
  - eapply within_mono; [|exact F]. intros z. rewrite elem_of_cons, bnodes_split. cbn [tnodes]. set_solver.
Qed.

(** The leftmost node of a subtree. *)
Lemma leftmost_run fuel s ctx t :
  brep s ctx t → t ≠ Leaf → (height t ≤ fuel)%nat →
  ∃ ctx1 c x r, follow RB_LEFT fuel (top t) s = Ok (Some x, s) ∧ plug ctx1 (T c Leaf x r) = t ∧
    Forall (λ f, f_dir f = L) ctx1.
Proof.
  revert ctx t. induction fuel as [|fuel IH]; intros ctx t Hz Hne Hf; destruct t as [|c l x r]; [done|simpl in Hf; lia|done|].
  cbn [follow top]. run. rewrite (get_child s ctx L c x l r Hz : RB_LEFT _ s = _). run.
  destruct l as [|cl ll xl rl].
  { exists [], c, x, r. split_and!; [done..|constructor]. }
  cbn [top]. simpl in Hf.
  destruct (IH (Fr L c x r :: ctx) (T cl ll xl rl)) as (ctx1 & c1 & x1 & r1 & R1 & P1 & D1);
    [by apply brep_in|done|simpl; lia|].
  exists (ctx1 ++ [Fr L c x r]), c1, x1, r1. split_and!; [done| |].
  - rewrite plug_app, P1. done.
  - apply Forall_app. split; [done|]. by repeat constructor.
Qed.

Lemma walk_up_run fuel s f ctx t :
  brep s (f :: ctx) t → (length ctx < fuel)%nat → walk_up fuel (Some (f_ent f)) s = Ok (tt, s).
Proof.
  revert f ctx t. induction fuel as [|fuel IH]; intros [d c x sib] ctx t Hz Hf; [lia|]. cbn [f_ent walk_up]. run.
  apply brep_out in Hz. rewrite (get_parent s ctx d c x t sib Hz). run. destruct ctx as [|g ctx]; [done|].
  cbn [ctop]. simpl in Hf. apply (IH g ctx (mk d c x t sib) Hz). lia.
Qed.

(** ** RB_REMOVE *)

(** The end of RB_REMOVE, once the node has left its place. *)
Lemma remove_tail_run s ctx t c :
  brep s ctx t → match c with Red => ∃ n, good ctx t n | Black => ∃ m, crb ctx (S m) ∧ rb t m end →
  ∃ s' t' m, (if bz c =? RB_BLACK then RB_REMOVE_COLOR (ctop ctx) (top t) else mret tt) s = Ok (tt, s') ∧
    brep s' [] t' ∧ good [] t' m ∧ shifted s s' ctx [] t t'.
Proof.
  intros Hz Hrb. rewrite bz_black. destruct c; cbn [is_red negb].
  - destruct Hrb as [n Hg]. destruct (good_plug _ _ _ Hg) as [m Hm].
    rewrite <- (app_nil_r ctx) in Hz. apply brep_plug in Hz. exists s, (plug ctx t), m. by split_and!.
  - destruct Hrb as (m & Hc & Hx). by apply (remove_color_run s ctx t m).
Qed.

Lemma remove_two_run s ctx c l x r :
  brep s ctx (T c l x r) → l ≠ Leaf → r ≠ Leaf →
  ∃ s' ctx1 cy y ry, let ctx' := ctx1 ++ Fr R c y l :: ctx in
    remove_two (Some x) s = Ok ((ctop ctx', top ry, bz cy), s') ∧ brep s' ctx' ry ∧
    plug ctx1 (T cy Leaf y ry) = r ∧ Forall (λ f, f_dir f = L) ctx1 ∧ within (bnodes ctx (T c l x r)) s s'.
Proof.
  intros Hz Hl Hr. unfold remove_two, with_fuel. run. rewrite (get_child_opp s ctx L c x l r Hz : RB_RIGHT _ s = _). run.
  pose proof (brep_in s R c x l ctx r Hz) as Hzr.
  destruct (leftmost_run (tree_fuel s) s _ r Hzr Hr) as (ctx1 & cy & y & ry & R1 & P1 & D1).
  { pose proof (height_fuel _ _ _ Hzr). lia. }
  rewrite R1. run. rewrite <- P1 in Hzr. apply brep_plug in Hzr.
  rewrite (get_child_opp s _ L cy y Leaf ry Hzr : RB_RIGHT _ s = _). run.
  rewrite (get_parent s _ L cy y Leaf ry Hzr). run. rewrite (get_color s _ L cy y Leaf ry Hzr). run.
  destruct (splice_run s _ cy Leaf y ry Hzr (or_introl eq_refl)) as (s1 & R2 & Z1 & F1 & Hy1).
  cbn [only_child] in *. rewrite R2. run.
  assert (rbh_ents s1 !! y = rbh_ents s !! y) as Hye by (by apply (within_ne _ _ _ _ F1)).
  pose proof (brep_node s _ L cy y Leaf ry Hzr) as Hyn. rewrite Hyn in Hye.
  unfold RB_PARENT at 1. rewrite (rb_get_run _ _ _ _ Hye). run. cbn [bnode rbe_parent].
  pose proof (proj1 (brep_plug _ _ _ _) Z1) as Z1'. apply brep_out in Z1'. cbn [mk] in Z1'.
  assert (bnodes ctx (T c l x (plug ctx1 ry)) ≡ₚ cnodes (ctx1 ++ Fr R c x l :: ctx) ++ tnodes ry) as Hnodes.
  { rewrite <- bnodes_split. unfold bnodes. by rewrite plug_app. }
  destruct (take_over_run s1 ctx c l x (plug ctx1 ry) y Z1' Hl) as (s2 & R3 & Z2 & F2);
    [by rewrite Hnodes|by eexists|]. rewrite R3. run.
  pose proof (brep_in s2 R _ _ _ _ _ Z2) as Z2'. apply brep_plug in Z2'.
  assert ((if same (ctop (ctx1 ++ Fr R c x l :: ctx)) (Some x) then Some y else ctop (ctx1 ++ Fr R c x l :: ctx))
    = ctop (ctx1 ++ Fr R c y l :: ctx)) as ->.
  { destruct ctx1 as [|f ctx1]; cbn [app ctop f_ent]; [by rewrite same_refl|].
    rewrite same_ne; [done|]. intros [= E]. pose proof (br_nodup _ _ _ Z1) as Hnd. cbn [app cnodes] in Hnd.
    apply NoDup_cons in Hnd as [Hnd _]. apply Hnd. rewrite E. rewrite !elem_of_app.
    assert (x ∈ cnodes (ctx1 ++ Fr R c x l :: ctx)); [|tauto].
    clear. induction ctx1 as [|g ctx1 IH]; cbn [app cnodes f_ent]; set_solver. }
  assert (∃ f ctx0, ctx1 ++ Fr R c y l :: ctx = f :: ctx0) as (f & ctx0 & Ef) by (destruct ctx1; eauto).
  rewrite Ef in Z2'. rewrite Ef. cbn [ctop unless_null].
  rewrite (walk_up_run (tree_fuel s2) s2 f ctx0 ry Z2').
  2:{ pose proof (brep_size _ _ _ Z2'). pose proof (cnodes_length (f :: ctx0)). simpl in *. unfold tree_fuel. lia. }
  run. exists s2, ctx1, cy, y, ry. cbn zeta. rewrite Ef. split_and!; [done..|].
  eapply within_mono; [|exact (within_trans _ _ _ _ _ F1 F2)]. intros z.
  rewrite <- Hnodes. unfold bnodes. rewrite !elems_plug_split. cbn [elems]. rewrite <- P1, !elems_plug_split. cbn [elems app].
  set_solver.
Qed.

(** RB_REMOVE takes the node out, keeps the others in order, and leaves its
    entry behind as it is. *)
Lemma rb_remove_run s ctx c l x r n :
  brep s ctx (T c l x r) → good ctx (T c l x r) n →
  ∃ s' t' m, RB_REMOVE x s = Ok (Some x, s') ∧ brep s' [] t' ∧ good [] t' m ∧
    elems t' = (cpre ctx ++ elems l) ++ (elems r ++ cpost ctx) ∧ within (bnodes ctx (T c l x r)) s s'.
Proof.
  intros Hz Hg. unfold RB_REMOVE. run. rewrite (get_child s ctx L c x l r Hz : RB_LEFT _ s = _). run.
  rewrite (get_child_opp s ctx L c x l r Hz : RB_RIGHT _ s = _). run.
  assert ((l = Leaf ∨ r = Leaf) ∨ (l ≠ Leaf ∧ r ≠ Leaf)) as [Hor|[Hl Hr]].
  { destruct l; [by left; left|]. destruct r; [by left; right|by right]. }
  - assert (unhook (Some x) (top l) (top r) =
      (parent ← RB_PARENT (Some x); color ← RB_COLOR (Some x);
       _ ← splice (Some x) parent (top (only_child l r)); mret (parent, top (only_child l r), color))) as ->
      by (destruct l, r; by destruct Hor).
    run. rewrite (get_parent s ctx L c x l r Hz). run. rewrite (get_color s ctx L c x l r Hz). run.
    destruct (splice_run s ctx c l x r Hz Hor) as (s1 & R1 & Z1 & F1 & _). rewrite R1. run.
    destruct (remove_tail_run s1 ctx (only_child l r) c Z1) as (s2 & t2 & m & R2 & Z2 & G2 & E2 & F2).
    { pose proof (unlink_rb ctx c l x r n Hg Hor) as Hrb. destruct c; eauto. }
    rewrite R2. run. exists s2, t2, m. split_and!; [done..| |].
    + cbn [plug] in E2. rewrite E2, elems_plug_split.
      destruct Hor as [-> | ->]; [|destruct l]; cbn [only_child elems app]; by rewrite ?app_nil_r, <- ?app_assoc.
    + eapply within_twice.
      * eapply within_nodes; [exact F1|]. cbn [tnodes]. intros z.
        destruct Hor as [-> | ->]; [|destruct l]; cbn [only_child tnodes app]; set_solver.
      * eapply within_mono; [|exact F2]. intros z. rewrite !bnodes_split. cbn [tnodes].
        destruct Hor as [-> | ->]; [|destruct l]; cbn [only_child tnodes app]; set_solver.
  - destruct (remove_two_run s ctx c l x r Hz Hl Hr) as (s1 & ctx1 & cy & y & ry & R1 & Z1 & P1 & D1 & F1).
    destruct l as [|cl ll xl rl]; [done|]. destruct r as [|cr lr xr rr]; [done|]. cbn [top].
    cbn [unhook]. set (l := T cl ll xl rl) in *. set (r := T cr lr xr rr) in *. rewrite R1. run.
    assert (elems (plug (ctx1 ++ Fr R c y l :: ctx) ry) = (cpre ctx ++ elems l) ++ (elems r ++ cpost ctx)) as Eall.
    { rewrite plug_app. cbn [plug f_dir f_col f_ent f_sib mk]. rewrite !elems_plug_split. cbn [elems].
      rewrite <- P1, !elems_plug_split, (left_spine _ D1). cbn [elems app]. repeat (rewrite <- app_assoc; cbn [app]). done. }
    destruct (remove_tail_run s1 (ctx1 ++ Fr R c y l :: ctx) ry cy Z1) as (s2 & t2 & m & R2 & Z2 & G2 & E2 & F2).
    { rewrite <- P1 in Hg. apply (good_rename _ _ _ _ y) in Hg. apply (good_down _ R) in Hg as [m1 Hg].
      apply good_unplug in Hg as [m2 Hg].
      pose proof (unlink_rb _ cy Leaf y ry m2 Hg (or_introl eq_refl)) as Hrb. destruct cy; eauto. }
    rewrite R2. run. exists s2, t2, m. cbn [plug] in E2. split_and!; [done..|by rewrite E2|].
    eapply within_twice; [exact F1|]. eapply within_mono; [|exact F2]. intros z. unfold bnodes.
    rewrite Eall, elems_plug_split. cbn [elems]. set_solver.
Qed.
