(* ===== verification/BsdProps.v ===== *)
(** * Properties of the queue and tree macros

    The scheduler's model ([Ntyco]) keeps its ready queue as a list and its
    trees as ordered lists.  Here the macros of src/kv_store/Ntyco/nty_queue.h
    and nty_tree.h, as they work on links, are shown to implement those lists,
    each with a concrete instance. *)

From stdpp Require Import sorting.
From S2P Require Import Prelude CRuntime Coro Ntyco.
From S2P Require Import RbShape BsdQueue BsdTree BsdTreeZip BsdTreeIns BsdTreeSearch BsdTreeDel.

(** ** Trees *)

(** The links hold a balanced tree whose nodes, in order, are those of [l]. *)
Definition rbt (key : nat → Z) (s : rbhead) (l : list (Z * nat)) : Prop :=
  ∃ t n, brep s [] t ∧ good [] t n ∧ in_order key (elems t) ∧ l = (λ i, (key i, i)) <$> elems t.

Section lists.
Variable key : nat → Z.
Implicit Types (l : list nat) (x : nat) (k : Z).

Definition keyed l : list (Z * nat) := (λ i, (key i, i)) <$> l.

Lemma keyed_cons x l : keyed (x :: l) = (key x, x) :: keyed l.
Proof. done. Qed.

Lemma keyed_snd l : (keyed l).*2 = l.
Proof. unfold keyed. rewrite <- list_fmap_compose. apply list_fmap_id. Qed.

Lemma linked_keyed x l : linked x (keyed l) = bool_decide (x ∈ l).
Proof. unfold linked. by rewrite keyed_snd. Qed.

Lemma find_keyed k l (r : option nat) :
  in_order key l →
  match r with Some x => x ∈ l ∧ key x = k | None => ∀ y, y ∈ l → key y ≠ k end →
  rb_find k (keyed l) = r.
Proof.
  intros Ho. induction Ho as [|y l Ho IH Hall]; intros Hr.
  { destruct r; [set_solver|done]. }
  rewrite keyed_cons. cbn [rb_find].
  destruct (k =? key y) eqn:E; b2p.
  - destruct r as [x|]; [|by destruct (Hr y); [set_solver|]]. destruct Hr as [Hx Ek]. f_equal.
    apply elem_of_cons in Hx as [->|Hx]; [done|]. rewrite Forall_forall in Hall. specialize (Hall _ Hx).
    unfold key_below in Hall. lia.
  - apply IH. destruct r as [x|]; [|intros z Hz; apply Hr; set_solver]. destruct Hr as [Hx Ek]. split; [|done].
    apply elem_of_cons in Hx as [->|Hx]; [congruence|done].
Qed.

Lemma add_found x y l :
  in_order key l → y ∈ l → key y = key x → rb_add (key x) x (keyed l) = (Some y, keyed l).
Proof.
  intros Ho. induction Ho as [|z l Ho IH Hall]; intros Hy Ek; [set_solver|].
  rewrite keyed_cons. cbn [rb_add]. rewrite Forall_forall in Hall.
  apply elem_of_cons in Hy as [->|Hy].
  - rewrite Ek, Z.ltb_irrefl, Z.eqb_refl. done.
  - specialize (Hall _ Hy). unfold key_below in Hall.
    destruct (key x <? key z) eqn:E1, (key x =? key z) eqn:E2; b2p; try lia. by rewrite IH.
Qed.

Lemma add_between x l1 l2 :
  (∀ y, y ∈ l1 → key y < key x) → (∀ y, y ∈ l2 → key x < key y) →
  rb_add (key x) x (keyed (l1 ++ l2)) = (None, keyed (l1 ++ x :: l2)).
Proof.
  induction l1 as [|y l1 IH]; intros H1 H2.
  - destruct l2 as [|z l2]; [done|]. cbn [app]. rewrite !keyed_cons. cbn [rb_add]. assert (key x < key z) by (apply H2; set_solver).
    destruct (key x <? key z) eqn:E; b2p; [done|lia].
  - cbn [app]. rewrite !keyed_cons. cbn [rb_add]. assert (key y < key x) by (apply H1; set_solver).
    destruct (key x <? key y) eqn:E1, (key x =? key y) eqn:E2; b2p; try lia.
    rewrite IH by set_solver. done.
Qed.

Lemma remove_keyed x l1 l2 :
  NoDup (l1 ++ x :: l2) → filter (λ e, e.2 ≠ x) (keyed (l1 ++ x :: l2)) = keyed (l1 ++ l2).
Proof.
  intros Hnd. assert (x ∉ l1 ∧ x ∉ l2) as [H1 H2].
  { apply NoDup_app in Hnd as (_ & Hd & Hnd). apply NoDup_cons in Hnd as [? _]. split; [|done].
    intros Hin. apply (Hd x Hin). set_solver. }
  assert (∀ l, x ∉ l → filter (λ e, e.2 ≠ x) (keyed l) = keyed l) as Hkeep.
  { induction l as [|y l IH]; intros Hx; [done|].
    rewrite keyed_cons, filter_cons_True by (cbn; set_solver).
    f_equal. apply IH. set_solver. }
  unfold keyed in *. rewrite !fmap_app, filter_app, fmap_cons, filter_cons_False by (cbn; tauto).
  by rewrite (Hkeep l1 H1), (Hkeep l2 H2).
Qed.

Lemma in_order_nodup l : in_order key l → NoDup l.
Proof.
  induction 1 as [|x l _ IH Hall]; constructor; [|done]. intros Hx. rewrite Forall_forall in Hall.
  specialize (Hall _ Hx). unfold key_below in Hall. lia.
Qed.

Lemma in_order_insert l1 x l2 :
  in_order key (l1 ++ l2) → (∀ y, y ∈ l1 → key y < key x) → (∀ y, y ∈ l2 → key x < key y) →
  in_order key (l1 ++ x :: l2).
Proof.
  unfold in_order. rewrite !StronglySorted_app, StronglySorted_cons, Forall_forall. intros (H1 & H2 & H3) H4 H5.
  split_and!; try done. intros y z Hy [->|Hz]%elem_of_cons; [by apply H4|by apply H1].
Qed.

Lemma in_order_delete l1 x l2 : in_order key (l1 ++ x :: l2) → in_order key (l1 ++ l2).
Proof.
  unfold in_order. rewrite !StronglySorted_app, StronglySorted_cons. intros (H1 & H2 & _ & H3).
  split_and!; try done. intros y z Hy Hz. apply H1; [done|]. set_solver.
Qed.
End lists.

(** C8. The functions RB_GENERATE expands to implement the ordered lists the
    scheduler is verified with: on links that hold a tree of [l], RB_FIND and
    RB_MIN answer as [rb_find] and [rb_min] do; RB_INSERT of a coroutine that
    is not linked returns the node with an equal key, or links it in its place;
    RB_REMOVE of a linked coroutine takes it out.  Every function ends without
    a fault, and the links hold a red-black tree again. *)
Theorem bsd_tree_refines key s l :
  rbt key s l →
  (∀ k, RB_FIND key k s = Ok (rb_find k l, s)) ∧
  RB_MIN s = Ok (rb_min l, s) ∧
  (∀ i, is_Some (rbh_ents s !! i) → linked i l = false →
     ∃ s' r l', rb_insert (key i) i l = Ok (r, l') ∧ RB_INSERT key i s = Ok (r, s') ∧ rbt key s' l') ∧
  (∀ i, linked i l = true →
     ∃ s' l', rb_remove i l = Ok l' ∧ RB_REMOVE i s = Ok (Some i, s') ∧ rbt key s' l').
Proof.
  intros (t & n & Hz & Hg & Ho & ->). change ((λ i, (key i, i)) <$> elems t) with (keyed key (elems t)). split_and!.
  - intros k. destruct (rb_find_run key s t k Hz Ho) as (r & -> & Hr). by rewrite (find_keyed key k _ r Ho Hr).
  - rewrite (rb_min_run s t Hz). unfold rb_min, keyed. by destruct (elems t).
  - intros i Hi Hl. rewrite linked_keyed in Hl. apply bool_decide_eq_false in Hl. unfold rb_insert.
    destruct (rb_insert_run key s t n i Hz Hg Ho Hl Hi) as
      [(y & R & Hy & Ey)|(s' & t' & m & l1 & l2 & R & Z & G & E & E' & H1 & H2 & _)].
    + exists s, (Some y), (keyed key (elems t)). rewrite (add_found key i y _ Ho Hy Ey). split_and!; [done..|].
      by exists t, n.
    + exists s', None, (keyed key (elems t')). rewrite E, (add_between key i l1 l2 H1 H2), <- E, linked_keyed, E'.
      rewrite bool_decide_eq_false_2 by done. split_and!; [done..|]. exists t', m. split_and!; [done..| |by rewrite E'].
      rewrite E'. rewrite E in Ho. by apply in_order_insert.
  - intros i Hl. rewrite linked_keyed in Hl. apply bool_decide_eq_true in Hl.
    destruct (focus_on _ _ Hl) as (ctx & c & lt & rt & Hp).
    rewrite <- Hp in Hz, Hg. apply (brep_plug s ctx []) in Hz. apply (good_unplug ctx []) in Hg as [m Hg].
    rewrite app_nil_r in Hz, Hg.
    destruct (rb_remove_run s ctx c lt i rt m Hz Hg) as (s' & t' & m' & R & Z & G & E' & _).
    assert (elems t = (cpre ctx ++ elems lt) ++ i :: (elems rt ++ cpost ctx)) as E.
    { rewrite <- Hp, elems_plug_split. cbn [elems]. by repeat (rewrite <- app_assoc; cbn [app]). }
    exists s', (keyed key (elems t')). unfold rb_remove. rewrite linked_keyed, bool_decide_eq_true_2 by done.
    rewrite E in Ho |- *. rewrite remove_keyed by (by eapply in_order_nodup). rewrite E'. split_and!; [done..|].
    exists t', m'. split_and!; [done..| |by rewrite E']. rewrite E'. by eapply in_order_delete.
Qed.

(** Coroutines 0 to 9, none linked, with keys out of order. *)
Definition wait_keys (i : nat) : Z := (7 * Z.of_nat i) mod 10.
Definition ten_nodes : rbhead :=
  RbHead None (list_to_map ((λ i, (i, Rbe None None None 0)) <$> seq 0 10)).

Lemma rbt_init key s : rbt key (RbHead None (rbh_ents s)) [].
Proof. exists Leaf, 0%nat. split_and!; [split; [done..|constructor]|split_and!; [done|constructor|done]|constructor|done]. Qed.

Lemma bsd_tree_refines_witness :
  (∃ s', RB_INSERT wait_keys 3 ten_nodes = Ok (None, s') ∧ rbt wait_keys s' [(1, 3%nat)]) ∧
  RB_FIND wait_keys 4 ten_nodes = Ok (None, ten_nodes).
Proof.
  destruct (bsd_tree_refines wait_keys ten_nodes [] (rbt_init _ ten_nodes)) as (Hf & _ & Hi & _). split; [|exact (Hf 4)].
  destruct (Hi 3%nat) as (s' & r & l' & E & R & H); [by eexists|done|]. cbn in E. injection E as <- <-. by exists s'.
Defined.

(** All ten linked, then three taken out. *)
Fixpoint link_all (l : list nat) : rbp unit :=
  match l with [] => mret tt | i :: l' => _ ← RB_INSERT wait_keys i; link_all l' end.
Fixpoint unlink_all (l : list nat) : rbp unit :=
  match l with [] => mret tt | i :: l' => _ ← RB_REMOVE i; unlink_all l' end.
Fixpoint walk_from (fuel : nat) (p : ref) : rbp (list nat) :=
  match fuel, p with
  | S fuel', Some i => q ← RB_NEXT p; l ← walk_from fuel' q; mret (i :: l)
  | _, _ => mret []
  end.

Example ten_linked :
  match (_ ← link_all (seq 0 10); _ ← unlink_all [4; 0; 7]%nat; p ← RB_MIN; walk_from 20 p) ten_nodes with
  | Ok (l, _) => wait_keys <$> l = [1; 2; 3; 4; 5; 6; 7]
  | Err _ => False
  end.
Proof. vm_compute. reflexivity. Qed.

(** The comparisons RB_FIND makes are logarithmic in the number of nodes:
    the loop ends within twice the logarithm, and one more, rounds. *)
Theorem bsd_find_logarithmic key s l k :
  rbt key s l →
  find_loop key (S (2 * Nat.log2 (S (length l)))) k (rbh_root s) s = Ok (rb_find k l, s).
Proof.
  intros (t & n & Hz & (_ & Hrb & Hr) & Ho & ->). change ((λ i, (key i, i)) <$> elems t) with (keyed key (elems t)).
  rewrite (brep_root _ _ Hz). unfold keyed. rewrite length_fmap.
  assert (root_col t = Black) as Hb by (destruct (root_col t); [by destruct Hr|done]).
  pose proof (rb_balanced t n Hrb Hb) as Hh.
  destruct (find_loop_run key (S (2 * Nat.log2 (S (length (elems t))))) s [] t k Hz Ho (straddles_nil _ _)) as (r & R & Hr');
    [lia|]. rewrite R. do 2 f_equal. symmetry. exact (find_keyed key k _ r Ho Hr').
Qed.

Lemma bsd_find_logarithmic_witness : find_loop wait_keys 1 4 None ten_nodes = Ok (None, ten_nodes).
Proof. exact (bsd_find_logarithmic wait_keys ten_nodes [] 4 (rbt_init _ ten_nodes)). Defined.

(** RB_NEXT, RB_PREV and RB_NFIND follow the order: the neighbours of a linked
    node, and the first node whose key is not below the one given. *)
Theorem bsd_tree_neighbours key s l :
  rbt key s l →
  (∀ l1 x l2, l.*2 = l1 ++ x :: l2 →
     RB_NEXT (Some x) s = Ok (head l2, s) ∧ RB_PREV (Some x) s = Ok (last l1, s)) ∧
  (∀ k, RB_NFIND key k s = Ok (snd <$> head (filter (λ e, k ≤ e.1) l), s)) ∧
  RB_MAX s = Ok (snd <$> last l, s).
Proof.
  intros (t & n & Hz & Hg & Ho & ->). change ((λ i, (key i, i)) <$> elems t) with (keyed key (elems t)). split_and!.
  - intros l1 x l2. rewrite keyed_snd. intros E. apply (rb_next_run s t); [done|done|by eapply in_order_nodup].
  - intros k. rewrite (rb_nfind_run key s t k Hz Ho). f_equal. f_equal. unfold keyed. clear Ho.
    induction (elems t) as [|y l IH]; [done|]. cbn. unfold filter. cbn.
    destruct (decide (k ≤ key y)); [done|]. exact IH.
  - rewrite (rb_max_run s t Hz). f_equal. f_equal. unfold keyed. rewrite fmap_last. by destruct (last (elems t)).
Qed.

Lemma bsd_tree_neighbours_witness : RB_NFIND wait_keys 4 ten_nodes = Ok (None, ten_nodes).
Proof. exact (proj1 (proj2 (bsd_tree_neighbours wait_keys ten_nodes [] (rbt_init _ ten_nodes))) 4). Defined.

(** ** Queues *)

(** C23. The TAILQ macros implement the list the scheduler's ready queue is
    verified with: on links that form the queue [l], TAILQ_FIRST, TAILQ_LAST
    and TAILQ_EMPTY read its ends; TAILQ_INSERT_TAIL of a coroutine that is not
    in it appends; TAILQ_REMOVE of one that is takes it out of any place and
    keeps the order of the others. *)
Theorem bsd_queue_refines s l :
  tq_rep s l →
  TAILQ_FIRST s = Ok (head l, s) ∧ TAILQ_LAST s = Ok (last l, s) ∧
  TAILQ_EMPTY s = Ok (bool_decide (l = []), s) ∧
  (∀ i, is_Some (links s !! i) → i ∉ l →
     ∃ s', TAILQ_INSERT_TAIL i s = Ok (tt, s') ∧ tq_rep s' (l ++ [i])) ∧
  (∀ i, i ∈ l → ∃ s', TAILQ_REMOVE i s = Ok (tt, s') ∧ tq_rep s' (filter (λ j, j ≠ i) l)).
Proof.
  intros Hr. split_and!.
  - by apply first_run.
  - by apply last_run.
  - by apply empty_run.
  - intros i Hi Hn. destruct (insert_tail_run s l i Hr Hn Hi) as (s' & R & H & _). by exists s'.
  - intros i Hi. apply list_elem_of_split in Hi as (l1 & l2 & ->).
    destruct (remove_run s l1 i l2 Hr) as (s' & R & H & _). exists s'. split; [done|].
    pose proof (tr_nodup _ _ Hr) as Hnd. apply NoDup_app in Hnd as (_ & Hd & Hnd). apply NoDup_cons in Hnd as [Hn2 _].
    assert (∀ l' : list nat, i ∉ l' → filter (λ j, j ≠ i) l' = l') as Hkeep.
    { induction l' as [|j l' IH]; intros Hi; [done|]. rewrite filter_cons_True by set_solver. f_equal. apply IH. set_solver. }
    rewrite filter_app, filter_cons_False by tauto. rewrite !Hkeep; [done|done|].
    intros Hin. apply (Hd i Hin). set_solver.
Qed.

(** A queue of coroutines 2 and 5, with 7 not in it. *)
Definition two_queued : tailq :=
  Tailq (Some 2%nat) (AtNode 5)
    (<[2%nat := Tqe (Some 5%nat) AtHead]> (<[5%nat := Tqe None (AtNode 2)]> (<[7%nat := Tqe None AtHead]> ∅))).

Lemma bsd_queue_refines_witness :
  TAILQ_LAST two_queued = Ok (Some 5%nat, two_queued) ∧
  (∃ s', TAILQ_INSERT_TAIL 7 two_queued = Ok (tt, s') ∧ tq_rep s' [2; 5; 7]%nat) ∧
  (∃ s', TAILQ_REMOVE 2 two_queued = Ok (tt, s') ∧ tq_rep s' [5]%nat).
Proof.
  destruct (bsd_queue_refines two_queued [2; 5]%nat) as (_ & H2 & _ & H4 & H5).
  { split; [done|done|by split; [|split]|]. apply (bool_decide_unpack _). vm_compute. reflexivity. }
  split_and!; [exact H2|..].
  - apply (H4 7%nat); [by eexists|set_solver].
  - apply (H5 2%nat). set_solver.
Defined.
