(* ===== verification/Testcase.v ===== *)
(** * The test client (src/kv_store/testcase.c)

    The client sends a command, receives the answer into a zeroed 512-byte
    array and compares it with the expected string.  Its calls of [send] and
    [recv] may fail, and take or deliver any number of bytes.  At the other end
    of the connection is [reader_iter], the server's loop body, which gets what
    one [send] took in one [recv]. *)

From stdpp Require Import pretty.
From S2P Require Import Prelude CRuntime Decimal Engine Protocol Server.

(* src/kv_store/testcase.c:14-14 MAX_MAS_LENGTH *)
Definition MAX_MAS_LENGTH : nat := 512.

(* src/kv_store/testcase.c equals *)
(** [false] where the client prints FAILED. *)
Definition equals (pattern result : cstr) : bool := strcmp pattern result =? 0.

(* src/kv_store/testcase.c:15-15 TIME_SUB_MS *)
(** Of two [struct timeval], as pairs of seconds and microseconds. *)
Definition TIME_SUB_MS (tv1 tv2 : Z * Z) : Z :=
  (tv1.1 - tv2.1) * 1000 + Z.quot (tv1.2 - tv2.2) 1000.

(** [%d] of a non-negative [int]. *)
Definition itoa (i : nat) : cstr := str (pretty (N.of_nat i)).

Definition key_of (i : nat) : cstr := str "Name" ++ itoa i.
Definition val_of (i : nat) : cstr := str "SUYANG" ++ itoa i.

(** [snprintf(cmd, 128, "<CMD> Name%d SUYANG%d", i, i)] *)
Definition cmd_line (name : cstr) (i : nat) : cstr :=
  take 127 (name ++ SPACE :: key_of i ++ SPACE :: val_of i).

(** A line of the timing report. *)
Record report := Report { time_used : Z; qps : Z }.

Section client.
Context {E : Type} `{!KvEngine E}.

(** The server, the bytes it has sent that the client has not received, and what
    the calls of [send] and [recv] of the client will return: a negative number
    for an error, otherwise how many bytes the call can take or deliver. *)
Record link := Link { l_server : world E; l_stream : list Z; l_net : nat → Z; l_calls : nat }.

Definition net_call : prog link Z := λ s,
  Ok (l_net s (l_calls s), Link (l_server s) (l_stream s) (l_net s) (S (l_calls s))).

(** The server receives [bs] and answers. *)
Definition deliver (bs : list Z) : prog link unit := λ s,
  match reader_iter (RBytes bs) 0 (l_server s) with
  | Ok ((out, _), w) =>
      let sent := match out with Sent r :: _ => r | _ => [] end in
      Ok (tt, Link w (l_stream s ++ sent) (l_net s) (l_calls s))
  | Err e => Err e
  end.

(** Code of the client that may call [exit(1)], which ends it with [None].
    Test cases run one after the other; [true] says that all passed. *)
Definition and_then (a b : prog link (option bool)) : prog link (option bool) :=
  x ← a;
  match x with
  | None => mret None
  | Some p => y ← b; mret (andb p <$> y)
  end.
Local Infix ";&" := and_then (at level 60, right associativity).

(* src/kv_store/testcase.c send_msg *)
(** [send] fails on the descriptor of a connection that was not made.  What it
    takes reaches the server; the client does not send the rest. *)
Definition send_msg (connfd : Z) (msg : cstr) : prog link (option Z) :=
  if connfd <? 0 then mret None else
  res ← net_call;
  if res <? 0 then mret None else
  let bs := take (Z.to_nat res) msg in
  _ ← (match bs with [] => mret tt | _ => deliver bs end);
  mret (Some (Z.of_nat (length bs))).

(** The bytes a call of [recv] with room for [len] delivers.  While the server has
    sent nothing, the call waits, or returns 0 at the end of the stream. *)
Definition arrived (res : Z) (len : nat) : prog link (list Z) := λ s,
  if (0 <? res) && null (head (l_stream s)) then Err Deadlock else
  let bs := take (Z.to_nat res `min` len) (l_stream s) in
  Ok (bs, Link (l_server s) (drop (length bs) (l_stream s)) (l_net s) (l_calls s)).

(* src/kv_store/testcase.c recv_msg *)
(** Receives into the array [msg]. *)
Definition recv_msg (msg : list Z) : prog link (option (list Z)) :=
  res ← net_call;
  if res <? 0 then mret None else
  bs ← arrived res (length msg);
  mret (Some (recv_into msg bs)).

(* src/kv_store/testcase.c test_case *)
Definition test_case (connfd : Z) (msg pattern : cstr) : prog link (option bool) :=
  res ← send_msg connfd msg;
  match res with
  | None => mret None
  | Some _ =>
      r ← recv_msg (zeros MAX_MAS_LENGTH);
      match r with
      | None => mret None
      | Some r =>
          match read_str r with
          | Some result => mret (Some (equals pattern result))
          | None => stop OutOfBounds
          end
      end
  end.

(* src/kv_store/testcase.c array_testcase *)
Definition array_testcase (connfd : Z) : prog link (option bool) :=
  test_case connfd (str "SET Name SUYANG") (str "SUCCESS") ;&
  test_case connfd (str "GET Name") (str "SUYANG") ;&
  test_case connfd (str "MOD Name FISH") (str "SUCCESS") ;&
  test_case connfd (str "GET Name") (str "FISH") ;&
  test_case connfd (str "DEL Name") (str "SUCCESS") ;&
  test_case connfd (str "GET Name") (str "NO EXIST").

(** [while (i++ < count)], for a count of rounds. *)
Fixpoint array_testcase_n (connfd : Z) (count : nat) : prog link (option bool) :=
  match count with
  | O => mret (Some true)
  | S count' => array_testcase connfd ;& array_testcase_n connfd count'
  end.

(* src/kv_store/testcase.c array_testcase_10w *)
Definition array_testcase_10w (connfd : Z) : prog link (option bool) :=
  array_testcase_n connfd (Z.to_nat 100000).

Fixpoint test_each (connfd : Z) (name : cstr) (l : list nat) : prog link (option bool) :=
  match l with
  | [] => mret (Some true)
  | i :: l' => test_case connfd (cmd_line name i) (str "SUCCESS") ;& test_each connfd name l'
  end.

(** The two loops, for a given [count]; the strings printed into [result]
    are never used. *)
Definition rbtree_testcase (connfd : Z) (count : nat) : prog link (option bool) :=
  test_each connfd (str "SET") (seq 0 count) ;& test_each connfd (str "DEL") (seq 0 count).

(* src/kv_store/testcase.c rbtree_testcase_5w_node *)
Definition rbtree_testcase_5w_node (connfd : Z) : prog link (option bool) :=
  rbtree_testcase connfd (Z.to_nat 50000).

(* src/kv_store/testcase.c connect_tcpserver *)
(** With the result of [socket] and of [connect] to the address that
    [inet_addr] reads in [ip]. *)
Definition connect_tcpserver (sock : Z) (connect : cstr → Z → Z) (ip : cstr) (port : Z) : Z :=
  if connect ip port =? 0 then sock else -1.

(* src/kv_store/testcase.c:158-179 main *)
(** Over the pairs of an option and its argument that [getopt] returns before
    its -1; [None] where [main] returns -1.  [ip] has 16 bytes. *)
Fixpoint parse_opts (opts : list (Z * cstr)) (ip : cstr) (port mode : Z) : result (option (cstr * Z * Z)) :=
  match opts with
  | [] => Ok (Some (ip, port, mode))
  | (opt, optarg) :: opts' =>
      if opt =? 115 then
        if bool_decide (16 ≤ length optarg)%nat then Err OutOfBounds else parse_opts opts' optarg port mode
      else if opt =? 112 then parse_opts opts' ip (atoi optarg) mode
      else if opt =? 109 then parse_opts opts' ip port (atoi optarg)
      else Ok None
  end.

(* src/kv_store/testcase.c:186-196 main *)
(** The test cases of one mode when its bit is set, and their timing report;
    the block of lines 199-214 has the same shape.  [total] is the product the
    rate is computed from. *)
Definition run_mode (on : bool) (cases : prog link (option bool)) (total : Z)
    (tv_begin tv_end : Z * Z) : prog link (option (list (bool * report))) :=
  if on then
    r ← cases;
    match r with
    | None => mret None
    | Some passed =>
        let time_used := i32 (TIME_SUB_MS tv_end tv_begin) in
        if time_used =? 0 then stop DivByZero
        else mret (Some [(passed, Report time_used (Z.quot total time_used))])
    end
  else mret (Some []).

(* src/kv_store/testcase.c:149-216 main *)
(** [clock] holds the results of [gettimeofday] around the two modes.  The
    result is the exit status and, for each mode that ran, whether its test
    cases passed and what it reported. *)
Definition testcase_main (opts : list (Z * cstr)) (sock : Z) (connect : cstr → Z → Z)
    (clock : ((Z * Z) * (Z * Z)) * ((Z * Z) * (Z * Z))) : prog link (Z * list (bool * report)) :=
  o ← lift (parse_opts opts [] 0 1);
  match o with
  | None => mret (255, [])
  | Some (ip, port, mode) =>
      let connfd := connect_tcpserver sock connect ip (u16 port) in
      a ← run_mode (Z.testbit mode 0) (array_testcase_10w connfd) (600000 * 1000) clock.1.1 clock.1.2;
      match a with
      | None => mret (1, [])
      | Some out =>
          b ← run_mode (Z.testbit mode 1) (rbtree_testcase_5w_node connfd) (200000 * 1000)
                clock.2.1 clock.2.2;
          match b with
          | None => mret (1, out)
          | Some out' => mret (0, out ++ out')
          end
      end
  end.
End client.
Arguments link : clear implicits.
Arguments Link {E} _ _ _ _.
Arguments l_server {E} _.
Arguments l_stream {E} _.
Arguments l_net {E} _ _.
Arguments l_calls {E} _.

(** ** Decimal numbers *)

Lemma itoa_digits i : Forall digit (itoa i).
Proof.
  unfold itoa, pretty, pretty_N. case_decide as Hi.
  - repeat constructor; unfold digit; simpl; lia.
  - apply pretty_go_digits. constructor.
Qed.

Lemma itoa_length i k : (0 < k)%nat → (N.of_nat i < 10 ^ N.of_nat k)%N → (length (itoa i) ≤ k)%nat.
Proof.
  intros Hk Hi. unfold itoa, pretty, pretty_N. case_decide; [simpl; lia|].
  etrans; [by apply pretty_go_length|]. simpl. lia.
Qed.

Lemma itoa_inj i j : itoa i = itoa j → i = j.
Proof. intros H. apply str_inj, (inj pretty) in H. lia. Qed.

(** ** The commands the client builds *)

(** Bytes that are neither NUL nor the delimiter. *)
Definition plain (s : cstr) : Prop := Forall (λ b, b ≠ 0 ∧ b ≠ SPACE) s.

Lemma plain_word s : plain s → s ≠ [] → is_word s ∧ no_nul s.
Proof.
  intros H Hne. split; [split; [done|]|]; (eapply Forall_impl; [exact H|]); by intros ? [].
Qed.

Lemma plain_no_nul s : plain s → no_nul s.
Proof. intros H. eapply Forall_impl; [exact H|]. naive_solver. Qed.

Lemma itoa_plain i : plain (itoa i).
Proof.
  eapply Forall_impl; [apply itoa_digits|]. unfold digit, SPACE. intros b Hb. simpl in Hb. lia.
Qed.

Lemma key_of_plain i : plain (key_of i).
Proof.
  apply Forall_app. split; [|apply itoa_plain]. apply (bool_decide_unpack _). by vm_compute.
Qed.

Lemma val_of_plain i : plain (val_of i).
Proof.
  apply Forall_app. split; [|apply itoa_plain]. apply (bool_decide_unpack _). by vm_compute.
Qed.

Lemma key_of_inj i j : key_of i = key_of j → i = j.
Proof. intros H%(inj (app _)). by apply itoa_inj. Qed.

Lemma cmd_line_length name i : (length (cmd_line name i) ≤ MAX_MAS_LENGTH)%nat.
Proof. unfold cmd_line. rewrite length_take. unfold MAX_MAS_LENGTH. lia. Qed.

Section commands.
Variables (name : cstr) (i : nat).
Hypothesis (Hname : plain name) (Hne : name ≠ []) (Hlen : (length name ≤ 3)%nat).
Hypothesis Hi : (N.of_nat i < 10 ^ 9)%N.

Lemma cmd_line_full : cmd_line name i = name ++ SPACE :: key_of i ++ SPACE :: val_of i.
Proof.
  unfold cmd_line. apply take_ge. pose proof (itoa_length i 9 ltac:(lia) Hi).
  rewrite length_app. cbn [length]. rewrite length_app. cbn [length].
  unfold key_of, val_of. rewrite !length_app. simpl. lia.
Qed.

Lemma cmd_line_words : words (cmd_line name i) = [name; key_of i; val_of i].
Proof.
  rewrite cmd_line_full.
  rewrite words_more by (by apply plain_word). rewrite words_more
    by (by apply plain_word; [apply key_of_plain|]). rewrite words_last; [done|].
  by apply plain_word; [apply val_of_plain|].
Qed.

Lemma cmd_line_whole : whole (cmd_line name i).
Proof.
  unfold whole. rewrite cmd_line_words. split_and!.
  - unfold cmd_line, BUFFER_LENGTH. rewrite length_take. lia.
  - rewrite cmd_line_full. unfold no_nul. rewrite Forall_app, Forall_cons, Forall_app, Forall_cons.
    pose proof (plain_no_nul _ (key_of_plain i)). pose proof (plain_no_nul _ (val_of_plain i)).
    pose proof (plain_no_nul _ Hname). by split_and!.
  - unfold KVSTORE_MAX_TOKENS. simpl. lia.
Qed.
End commands.

(** ** The test cases pass *)

Section client_facts.
Context {E : Type} `{!KvEngine E, !KvLaws E}.
Implicit Types (w : link E) (m : gmap cstr cstr).

(** The store holds [m], nothing is on its way to the client, and every call of
    [send] and [recv] from now on can move a whole message. *)
Record calm w m : Prop := Calm {
  cm_store : store (l_server w) m;
  cm_stream : l_stream w = [];
  cm_net : ∀ n, (l_calls w ≤ n)%nat → Z.of_nat MAX_MAS_LENGTH ≤ l_net w n;
}.

Lemma and_then_pass (a b : prog (link E) (option bool)) w w1 w2 :
  a w = Ok (Some true, w1) → b w1 = Ok (Some true, w2) → and_then a b w = Ok (Some true, w2).
Proof. intros Ha Hb. unfold and_then. run. rewrite Ha. run. by rewrite Hb. Qed.

(** Without a connection the first test case ends the client. *)
Lemma and_then_exit (a b : prog (link E) (option bool)) w :
  a w = Ok (None, w) → and_then a b w = Ok (None, w).
Proof. intros Ha. unfold and_then. run. by rewrite Ha. Qed.

Lemma test_case_exit connfd msg pattern w :
  connfd < 0 → test_case connfd msg pattern w = Ok (None, w).
Proof.
  intros H. unfold test_case, send_msg. destruct (connfd <? 0) eqn:Ec; b2p; [|lia]. by run.
Qed.

(** A failed [send] ends the client before anything reaches the server; a failed
    [recv] ends it after its request was served. *)
Lemma test_case_send_fails connfd msg pattern w :
  l_net w (l_calls w) < 0 →
  ∃ w', test_case connfd msg pattern w = Ok (None, w') ∧ l_server w' = l_server w.
Proof.
  intros H. unfold test_case, send_msg. destruct (connfd <? 0); [run; by eexists|].
  run. unfold net_call. rewrite (proj2 (Z.ltb_lt _ _) H). run. eexists. by split.
Qed.

Lemma test_case_recv_fails connfd msg pattern w x w1 :
  send_msg connfd msg w = Ok (Some x, w1) → l_net w1 (l_calls w1) < 0 →
  ∃ w', test_case connfd msg pattern w = Ok (None, w') ∧ l_server w' = l_server w1.
Proof.
  intros Hs H. unfold test_case. run. rewrite Hs. run. unfold recv_msg. run. unfold net_call.
  rewrite (proj2 (Z.ltb_lt _ _) H). run. eexists. by split.
Qed.

Section connected.
Variable connfd : Z.
Hypothesis Hfd : 0 ≤ connfd.

(** A reply that [recv] delivers whole. *)
Lemma recv_whole sv r net n :
  512 ≤ net n → r ≠ [] → (length r ≤ 512)%nat →
  recv_msg (zeros MAX_MAS_LENGTH) (Link sv r net n) =
    Ok (Some (recv_into (zeros MAX_MAS_LENGTH) r), Link (E := E) sv [] net (S n)).
Proof.
  intros Hnet Hne Hl. unfold recv_msg, net_call. rewrite bind_run. cbn [l_server l_stream l_net l_calls].
  destruct (net n <? 0) eqn:E0; b2p; [lia|]. destruct r as [|b r]; [done|]. unfold arrived. rewrite bind_run.
  cbn [l_server l_stream l_net l_calls head null]. rewrite andb_false_r. replace (length (zeros MAX_MAS_LENGTH)) with 512%nat by (symmetry; apply length_replicate).
  rewrite (take_ge (b :: r)) by lia. by rewrite drop_all.
Qed.

(** A test case whose expected answer is the contract's passes. *)
Lemma test_case_pass w m msg r m' :
  calm w m → whole msg → kv_step m (words msg) r m' → no_nul r →
  (length msg ≤ MAX_MAS_LENGTH)%nat ∧ r ≠ [] ∧ (length r < MAX_MAS_LENGTH)%nat →
  ∃ w', test_case connfd msg r w = Ok (Some true, w') ∧ calm w' m'.
Proof.
  intros [Hst Hstr Hnet] Hw Hs Hn (Hm & Hne & Hl). destruct w as [sv str net n]. cbn [l_server l_stream l_net l_calls] in *.
  subst str. pose proof (Hnet n ltac:(lia)) as H0. pose proof (Hnet (S n) ltac:(lia)) as H1.
  unfold MAX_MAS_LENGTH in *.
  destruct (reader_iter_step sv m msg r m' 0 Hst Hw Hs) as (sv' & Hrun & Hst'). cbn [Z.eqb] in Hrun.
  exists (Link sv' [] net (S (S n))). split; [|by split; cbn; auto with lia].
  unfold test_case, send_msg. destruct (connfd <? 0) eqn:Ec; b2p; [lia|]. run. unfold net_call at 1.
  cbn [l_server l_stream l_net l_calls]. destruct (net n <? 0) eqn:E0; b2p; [lia|].
  rewrite (take_ge msg) by lia. run.
  destruct msg as [|b msg]; [by destruct Hw as (_ & _ & _); inversion Hs|].
  unfold deliver. cbn [l_server l_stream l_net l_calls]. rewrite Hrun. run. cbn [app].
  rewrite recv_whole by (lia || done). run. rewrite recv_into_zeros, read_str_run by (done || unfold MAX_MAS_LENGTH; lia).
  unfold equals. by rewrite strcmp_refl.
Qed.

Definition room m : Prop := Z.of_nat (size m) < kv_cap.

(** Literals of the test cases. *)
Ltac literal := apply (bool_decide_unpack _); vm_compute; reflexivity.

Lemma array_testcase_pass w m :
  calm w m → m !! str "Name" = None → room m →
  ∃ w', array_testcase connfd w = Ok (Some true, w') ∧ calm w' m.
Proof.
  intros Hst Hk Hroom.
  destruct (test_case_pass w _ (str "SET Name SUYANG") (str "SUCCESS") _ Hst ltac:(literal)
    (step_set m (str "Name") (str "SUYANG") [] (or_intror Hk) Hroom) ltac:(literal) ltac:(literal)) as (w1 & H1 & S1).
  destruct (test_case_pass w1 _ (str "GET Name") (str "SUYANG") _ S1 ltac:(literal)
    (step_get_hit _ (str "Name") (str "SUYANG") [] (lookup_insert_eq _ _ _)) ltac:(literal) ltac:(literal)) as (w2 & H2 & S2).
  destruct (test_case_pass w2 _ (str "MOD Name FISH") (str "SUCCESS") _ S2 ltac:(literal)
    (step_mod_hit _ (str "Name") (str "FISH") [] (mk_is_Some _ _ (lookup_insert_eq _ _ _))) ltac:(literal) ltac:(literal)) as (w3 & H3 & S3).
  destruct (test_case_pass w3 _ (str "GET Name") (str "FISH") _ S3 ltac:(literal)
    (step_get_hit _ (str "Name") (str "FISH") [] (lookup_insert_eq _ _ _)) ltac:(literal) ltac:(literal)) as (w4 & H4 & S4).
  destruct (test_case_pass w4 _ (str "DEL Name") (str "SUCCESS") _ S4 ltac:(literal)
    (step_del _ (str "Name") [] (mk_is_Some _ _ (lookup_insert_eq _ _ _))) ltac:(literal) ltac:(literal)) as (w5 & H5 & S5).
  destruct (test_case_pass w5 _ (str "GET Name") (str "NO EXIST") _ S5 ltac:(literal)
    (step_get_miss _ (str "Name") [] (lookup_delete_eq _ _)) ltac:(literal) ltac:(literal)) as (w6 & H6 & S6).
  exists w6. split; [unfold array_testcase; by repeat (eapply and_then_pass; [eassumption|])|].
  by rewrite insert_insert_eq, delete_insert_id in S6.
Qed.

Lemma array_testcase_rounds count w m :
  calm w m → m !! str "Name" = None → room m →
  ∃ w', array_testcase_n connfd count w = Ok (Some true, w') ∧ calm w' m.
Proof.
  revert w. induction count as [|count IH]; intros w Hst Hk Hr; [by exists w|].
  destruct (array_testcase_pass w m Hst Hk Hr) as (w1 & H1 & S1).
  destruct (IH w1 S1 Hk Hr) as (w2 & H2 & S2). exists w2. split; [|done].
  cbn [array_testcase_n]. by eapply and_then_pass.
Qed.

(** The store after the first loop has set the pairs of [l]. *)
Definition pairs (l : list nat) : gmap cstr cstr :=
  list_to_map ((λ i, (key_of i, val_of i)) <$> l).

Lemma pairs_None l i : i ∉ l → pairs l !! key_of i = None.
Proof.
  intros H. apply not_elem_of_list_to_map_1. rewrite <- list_fmap_compose.
  intros (j & Hj & Hin)%list_elem_of_fmap. simpl in Hj. apply key_of_inj in Hj. by subst.
Qed.

Lemma testpairs_size l : NoDup l → size (pairs l) = length l.
Proof.
  induction 1 as [|i l Hi _ IH]; [done|]. unfold pairs in *. cbn [fmap list_fmap list_to_map foldr].
  rewrite map_size_insert_None by (by apply pairs_None). simpl. by rewrite IH.
Qed.

Lemma pairs_snoc l i : i ∉ l → <[key_of i := val_of i]> (pairs l) = pairs (l ++ [i]).
Proof.
  intros H. unfold pairs. rewrite fmap_app. symmetry. apply list_to_map_snoc.
  rewrite <- list_fmap_compose.
  intros (j & Hj & Hin)%list_elem_of_fmap. simpl in Hj. apply key_of_inj in Hj. by subst.
Qed.

Definition small (l : list nat) : Prop := Forall (λ i, N.of_nat i < 10 ^ 9)%N l.

Lemma set_loop w l l' :
  NoDup (l ++ l') → small l' → Z.of_nat (length (l ++ l')) ≤ kv_cap → calm w (pairs l) →
  ∃ w', test_each connfd (str "SET") l' w = Ok (Some true, w') ∧ calm w' (pairs (l ++ l')).
Proof.
  revert w l. induction l' as [|i l' IH]; intros w l Hnd Hs Hcap Hst.
  { exists w. by rewrite app_nil_r. }
  apply Forall_cons in Hs as [Hi Hs]. rewrite cons_middle, app_assoc in *.
  assert (i ∉ l ∧ NoDup l) as [Hni Hndl].
  { apply NoDup_app in Hnd as [Hnd _]. apply NoDup_app in Hnd as (? & H & _).
    split; [|done]. intros Hin. apply (H i Hin). set_solver. }
  assert (room (pairs l)) as Hroom.
  { unfold room. rewrite testpairs_size by done. rewrite !length_app in Hcap. simpl in Hcap. lia. }
  pose proof (step_set (pairs l) (key_of i) (val_of i) [] (or_intror (pairs_None l i Hni)) Hroom) as Hstep.
  rewrite <- (cmd_line_words (str "SET") i) in Hstep by (done || simpl; lia || literal).
  destruct (test_case_pass w _ (cmd_line (str "SET") i) (str "SUCCESS") _ Hst
    (cmd_line_whole (str "SET") i ltac:(literal) ltac:(done) ltac:(simpl; lia) Hi) Hstep
    ltac:(literal) ltac:(split; [apply cmd_line_length|literal])) as (w1 & H1 & S1).
  rewrite pairs_snoc in S1 by done.
  destruct (IH w1 (l ++ [i]) Hnd Hs Hcap S1) as (w2 & H2 & S2).
  exists w2. split; [|done]. cbn [test_each]. by eapply and_then_pass.
Qed.

Lemma del_loop w l :
  NoDup l → small l → calm w (pairs l) →
  ∃ w', test_each connfd (str "DEL") l w = Ok (Some true, w') ∧ calm w' ∅.
Proof.
  revert w. induction l as [|i l IH]; intros w Hnd Hs Hst; [by exists w|].
  apply Forall_cons in Hs as [Hi Hs]. apply NoDup_cons in Hnd as [Hni Hnd].
  assert (pairs (i :: l) = <[key_of i := val_of i]> (pairs l)) as Hp by done.
  assert (is_Some (pairs (i :: l) !! key_of i)) as Hk by (rewrite Hp, lookup_insert_eq; done).
  pose proof (step_del (pairs (i :: l)) (key_of i) [val_of i] Hk) as Hstep.
  rewrite <- (cmd_line_words (str "DEL") i) in Hstep by (done || simpl; lia || literal).
  destruct (test_case_pass w _ (cmd_line (str "DEL") i) (str "SUCCESS") _ Hst
    (cmd_line_whole (str "DEL") i ltac:(literal) ltac:(done) ltac:(simpl; lia) Hi) Hstep
    ltac:(literal) ltac:(split; [apply cmd_line_length|literal])) as (w1 & H1 & S1).
  rewrite Hp, delete_insert_id in S1 by (by apply pairs_None).
  destruct (IH w1 Hnd Hs S1) as (w2 & H2 & S2).
  exists w2. split; [|done]. cbn [test_each]. by eapply and_then_pass.
Qed.

Lemma rbtree_testcase_pass w count :
  calm w ∅ → Z.of_nat count ≤ kv_cap → (N.of_nat count ≤ 10 ^ 9)%N →
  ∃ w', rbtree_testcase connfd count w = Ok (Some true, w') ∧ calm w' ∅.
Proof.
  intros Hst Hcap Hc.
  assert (small (seq 0 count)) as Hs.
  { apply Forall_forall. intros i Hi%elem_of_seq. lia. }
  destruct (set_loop w [] (seq 0 count)) as (w1 & H1 & S1); [apply NoDup_seq|done|by cbn [app]; rewrite length_seq|done|].
  destruct (del_loop w1 (seq 0 count)) as (w2 & H2 & S2); [apply NoDup_seq|done|done|].
  exists w2. split; [|done]. unfold rbtree_testcase. by eapply and_then_pass.
Qed.
End connected.

(** ** The program *)

(** What a mode reports when its test cases pass. *)
Definition reported (on : bool) (total : Z) (tv : (Z * Z) * (Z * Z)) : list (bool * report) :=
  let t := i32 (TIME_SUB_MS tv.2 tv.1) in
  if on then [(true, Report t (Z.quot total t))] else [].

(** A mode that is off, or whose clock moved by a millisecond or more. *)
Definition mode_ok (on : bool) (tv : (Z * Z) * (Z * Z)) : Prop :=
  on = true → i32 (TIME_SUB_MS tv.2 tv.1) ≠ 0.

Lemma run_mode_pass on cases total tv w m :
  calm w m → mode_ok on tv →
  (on = true → ∃ w', cases w = Ok (Some true, w') ∧ calm w' m) →
  ∃ w', run_mode on cases total tv.1 tv.2 w = Ok (Some (reported on total tv), w') ∧ calm w' m.
Proof.
  intros Hst Hok Hc. destruct on; unfold run_mode, reported; [|by exists w].
  destruct (Hc eq_refl) as (w' & Hrun & Hst'). exists w'. split; [|done]. run. rewrite Hrun. run.
  specialize (Hok eq_refl). by rewrite (proj2 (Z.eqb_neq _ _) Hok).
Qed.

Lemma run_mode_instant cases total tv w w' p :
  cases w = Ok (Some p, w') → i32 (TIME_SUB_MS tv.2 tv.1) = 0 →
  run_mode true cases total tv.1 tv.2 w = Err DivByZero.
Proof. intros Hrun Ht. unfold run_mode. run. rewrite Hrun. run. by rewrite Ht. Qed.

Lemma main_pass opts sock connect clock ip port mode w :
  parse_opts opts [] 0 1 = Ok (Some (ip, port, mode)) → 0 ≤ sock → connect ip (u16 port) = 0 →
  calm w ∅ → 50000 ≤ kv_cap →
  mode_ok (Z.testbit mode 0) clock.1 → mode_ok (Z.testbit mode 1) clock.2 →
  ∃ w', testcase_main opts sock connect clock w =
      Ok ((0, reported (Z.testbit mode 0) (600000 * 1000) clock.1 ++
              reported (Z.testbit mode 1) (200000 * 1000) clock.2), w') ∧ calm w' ∅.
Proof.
  intros Hopt Hs Hc Hst Hcap H0 H1.
  assert (connect_tcpserver sock connect ip (u16 port) = sock) as Hfd
    by (unfold connect_tcpserver; by rewrite Hc).
  destruct (run_mode_pass (Z.testbit mode 0) (array_testcase_10w sock) (600000 * 1000) clock.1 w ∅)
    as (w1 & R1 & S1); [done..| |].
  { intros _. unfold array_testcase_10w. generalize (Z.to_nat 100000). intros n.
    apply array_testcase_rounds; [done|done|done|]. unfold room. rewrite map_size_empty. lia. }
  destruct (run_mode_pass (Z.testbit mode 1) (rbtree_testcase_5w_node sock) (200000 * 1000) clock.2 w1 ∅)
    as (w2 & R2 & S2); [done..| |].
  { intros _. unfold rbtree_testcase_5w_node.
    assert (Z.of_nat (Z.to_nat 50000) = 50000) as Hn by lia. revert Hn. generalize (Z.to_nat 50000). intros n Hn.
    apply rbtree_testcase_pass; [done|done|lia|lia]. }
  exists w2. split; [|done]. unfold testcase_main. run. rewrite Hopt. cbn [lift]. run.
  rewrite Hfd, R1. run. rewrite R2. by run.
Qed.

Lemma main_refused opts sock connect clock ip port mode w :
  parse_opts opts [] 0 1 = Ok (Some (ip, port, mode)) → connect ip (u16 port) ≠ 0 →
  testcase_main opts sock connect clock w =
    Ok ((if Z.testbit mode 0 || Z.testbit mode 1 then 1 else 0, []), w).
Proof.
  intros Hopt Hc. unfold testcase_main. run. rewrite Hopt. cbn [lift]. run.
  unfold connect_tcpserver. rewrite (proj2 (Z.eqb_neq _ _) Hc).
  assert (∀ w : link E, array_testcase_10w (-1) w = Ok (None, w)) as HA.
  { intros w0. unfold array_testcase_10w. assert (Z.to_nat 100000 ≠ 0%nat) as Hn by lia. revert Hn.
    generalize (Z.to_nat 100000). intros [|n] Hn; [done|].
    cbn [array_testcase_n]. apply and_then_exit, and_then_exit, test_case_exit. lia. }
  assert (∀ w : link E, rbtree_testcase_5w_node (-1) w = Ok (None, w)) as HR.
  { intros w0. unfold rbtree_testcase_5w_node. assert (Z.to_nat 50000 ≠ 0%nat) as Hn by lia. revert Hn.
    generalize (Z.to_nat 50000). intros [|n] Hn; [done|].
    unfold rbtree_testcase. cbn [seq test_each]. apply and_then_exit, and_then_exit, test_case_exit. lia. }
  destruct (Z.testbit mode 0); unfold run_mode at 1; run; [rewrite HA; by run|].
  destruct (Z.testbit mode 1); unfold run_mode; run; [rewrite HR; by run|done].
Qed.
End client_facts.
