(* ===== verification/KvProps.v ===== *)
(** * Properties of the key-value store

    The statements about src/kv_store (hash.c, kvstore_array.c, kv_store.c,
    ntyco_entry.c, epoll_entry.c, testcase.c), each with a concrete instance. *)

From S2P Require Import Prelude CRuntime Hash HashFacts Array Engine Protocol Server.
From S2P Require Import EpollServer Testcase.

(** ** Concrete states for the instances *)

(** Start-up on zero-filled memory gives an empty store. *)
Lemma init_store e a :
  al_total a → al_zero a (al_calls a) = true →
  ∃ w, init_kvengine (World e a) = Ok (0, w) ∧ store w ∅.
Proof.
  intros Ha Hz. destruct (init_zeroed e a (Ha _ (le_n _)) Hz) as (w & Hrun & Hrep & Hl & Ht). exists w.
  unfold init_kvengine, kvstore_hash_create. run. rewrite Hrun. split; [done|].
  split; [|by apply map_Forall_empty]. exists (al_live a). rewrite fmap_empty. auto.
Qed.

(** The store right after start-up on zero-filled memory. *)
Definition hash_fresh : world hashtable_t :=
  match init_kvengine (World Hash0 al_good) with Ok (_, w) => w | Err _ => World Hash0 al_good end.

Lemma hash_fresh_rep : hrep 0 false hash_fresh ∅ ∧ load_ok (w_eng hash_fresh) ∧ al_total (w_al hash_fresh).
Proof.
  destruct (init_zeroed Hash0 al_good eq_refl eq_refl) as (w' & Hrun & Hrep & Hl & Ht).
  unfold hash_fresh, init_kvengine, kvstore_hash_create. run. rewrite Hrun. auto with ga.
Qed.

(** The store with one pair in it. *)
Definition hash_one : world hashtable_t :=
  match kvs_hash_set (Some tt) (Some (str "Name")) (Some (str "SUYANG")) hash_fresh with
  | Ok (_, w) => w
  | Err _ => hash_fresh
  end.

Lemma hash_one_rep : hrep 0 false hash_one {[ str "Name" := Some (str "SUYANG") ]}.
Proof.
  destruct hash_fresh_rep as (Hrep & Hl & Ht).
  pose proof (put_correct 0 hash_fresh ∅ (str "Name") (str "SUYANG") Hrep eq_refl) as Hp.
  unfold hash_one, kvs_hash_set.
  destruct (put_kv_hashtable _ _ _ _) as [[r w]|e]; simpl in Hp; [|tauto].
  destruct Hp as [(_ & Hr & _)|(_ & [? Hk] & _)]; [exact Hr|by rewrite lookup_empty in Hk].
Qed.

Lemma store_fresh : store hash_fresh ∅.
Proof.
  destruct hash_fresh_rep as (Hrep & Hl & Ht). split; [|by apply map_Forall_empty].
  exists 0. by rewrite fmap_empty.
Qed.

Definition array_fresh : world array_t :=
  match kvstore_array_create (Some tt) (World array0 al_good) with
  | Ok (_, w) => w
  | Err _ => World array0 al_good
  end.

Lemma array_fresh_rep : arep 0 array_fresh ∅ ∧ al_total (w_al array_fresh).
Proof.
  destruct (array_create_run array0 al_good eq_refl) as (w' & Hrun & Hrep & Ht).
  unfold array_fresh. rewrite Hrun. auto with ga.
Qed.

Definition array_one : world array_t :=
  match kvstore_array_set (Some tt) (Some (str "Name")) (Some (str "SUYANG")) array_fresh with
  | Ok (_, w) => w
  | Err _ => array_fresh
  end.

Lemma array_one_rep :
  arep 0 array_one {[ str "Name" := VStr (str "SUYANG") ]} ∧ al_total (w_al array_one) ∧
  array_idx (w_eng array_one) = 1%nat.
Proof.
  destruct array_fresh_rep as (Hrep & Ht).
  destruct (array_set_fresh 0 array_fresh ∅ (str "Name") (str "SUYANG") Hrep) as (r & w' & Hrun & Ho); [done|].
  assert (array_idx (w_eng array_one) = 1%nat) as Hi by (vm_compute; reflexivity).
  revert Hi. unfold array_one. rewrite Hrun. intros Hi. split; [|split; [|done]].
  - destruct Ho as [(_ & _ & H & _)|(_ & _ & H & _)]; [exact H|]. by specialize (H Ht).
  - destruct Ho as [(_ & _ & _ & H & _)|(_ & _ & H & _)]; [by apply H|]. by specialize (H Ht).
Qed.

(** The array with two pairs. *)
Definition array_two : world array_t :=
  match kvstore_array_set (Some tt) (Some (str "Level")) (Some (str "7")) array_one with
  | Ok (_, w) => w
  | Err _ => array_one
  end.

Lemma array_two_rep :
  arep 0 array_two (<[str "Level" := VStr (str "7")]> {[ str "Name" := VStr (str "SUYANG") ]}) ∧
  al_total (w_al array_two).
Proof.
  destruct array_one_rep as (Hrep & Ht & _).
  destruct (array_set_fresh 0 array_one _ (str "Level") (str "7") Hrep) as (r & w' & Hrun & Ho);
    [by rewrite lookup_singleton_ne|].
  unfold array_two. rewrite Hrun. destruct Ho as [(_ & _ & H & H' & _)|(_ & _ & H & _)]; [by auto|].
  specialize (H Ht). rewrite map_size_singleton in H. discriminate.
Qed.

(** ** The hash engine *)

(** C1. [put_kv_hashtable], on a table of fewer than 2^29 keys, refines insertion
    into a map, whichever of its allocations fail: it returns 0 and the pair is
    stored, replacing an old value; or it returns -1 after failing to copy the
    new value of a present key, which has then lost its old value; or, for an
    absent key, it dereferences the NULL of a failed [_create_node].  The last
    two need a failed allocation.  If no allocation fails, a table at most 7/10
    full stays so; when the larger slot array cannot be allocated, the pair is
    stored in a table that is fuller. *)
Theorem hash_put_refines base w m k v :
  hrep base false w m → Z.of_nat (size m) < 2 ^ 29 →
  put_outcome base w m k v (put_kv_hashtable (Some tt) (Some k) (Some v) w).
Proof. apply put_correct. Qed.

Lemma hash_put_refines_witness :
  put_outcome 0 hash_fresh ∅ (str "Name") (str "SUYANG")
    (put_kv_hashtable (Some tt) (Some (str "Name")) (Some (str "SUYANG")) hash_fresh).
Proof. apply (hash_put_refines 0 hash_fresh ∅); [apply hash_fresh_rep|reflexivity]. Defined.

(** [get_kv_hashtable] reads the map: the value of a stored key, NULL
    otherwise; the table and the lock are as before. *)
Theorem hash_get_refines base w m k :
  hrep base false w m → get_kv_hashtable (Some tt) (Some k) w = Ok (mjoin (m !! k), w).
Proof. apply get_run. Qed.

Lemma hash_get_refines_witness :
  get_kv_hashtable (Some tt) (Some (str "Name")) hash_one = Ok (Some (str "SUYANG"), hash_one).
Proof. apply (hash_get_refines 0 hash_one _ (str "Name") hash_one_rep). Defined.

(** C2. [delete_kv_hashtable] of a stored key removes it, frees its node, key
    and value, and releases the lock. *)
Theorem hash_delete_refines base w m k :
  hrep base false w m → is_Some (m !! k) →
  ∃ w', delete_kv_hashtable (Some tt) (Some k) w = Ok (0, w') ∧ hrep base false w' (delete k m).
Proof.
  intros H Hk. destruct (delete_present base w m k H Hk) as (w' & Hr & H' & _). by exists w'.
Qed.

Lemma hash_delete_refines_witness :
  ∃ w', delete_kv_hashtable (Some tt) (Some (str "Name")) hash_one = Ok (0, w') ∧ hrep 0 false w' ∅.
Proof.
  destruct (hash_delete_refines 0 hash_one _ (str "Name") hash_one_rep) as (w' & H1 & H2); [by eexists|].
  exists w'. split; [exact H1|]. by rewrite delete_singleton_eq in H2.
Defined.

(** [delete_kv_hashtable] of a key whose slot is empty answers -1 and keeps
    the mutex: every later put, get or delete of the table deadlocks. *)
Theorem hash_delete_empty_slot_deadlocks base w m k :
  hrep base false w m → m !! k = None →
  read_slot (Z.of_nat (place (max_slots (w_eng w)) k)) w = Ok ([], w) →
  ∃ w', delete_kv_hashtable (Some tt) (Some k) w = Ok (-1, w') ∧
    ∀ k2 v2, put_kv_hashtable (Some tt) (Some k2) (Some v2) w' = Err Deadlock ∧
      get_kv_hashtable (Some tt) (Some k2) w' = Err Deadlock ∧
      delete_kv_hashtable (Some tt) (Some k2) w' = Err Deadlock.
Proof.
  intros H Hk Hs. destruct (delete_absent base w m k H Hk) as (w' & Hrun & Hor & Hl).
  exists w'. split; [done|]. intros k2 v2. specialize (Hl Hs).
  assert (max_slots (w_eng w') = max_slots (w_eng w)) as Hm by (destruct Hor as [->| ->]; done).
  destruct w' as [e a]. apply locked_stuck; [|done]. cbn [w_eng] in Hm. rewrite Hm.
  destruct H as (cs & _ & Hg & _). apply good_size_bounds in Hg. lia.
Qed.

Lemma hash_delete_empty_slot_deadlocks_witness :
  ∃ w', delete_kv_hashtable (Some tt) (Some (str "Name")) hash_fresh = Ok (-1, w') ∧
    get_kv_hashtable (Some tt) (Some (str "Name")) w' = Err Deadlock.
Proof.
  destruct (hash_delete_empty_slot_deadlocks 0 hash_fresh ∅ (str "Name")) as (w' & H1 & H2);
    [apply hash_fresh_rep|reflexivity|vm_compute; reflexivity|].
  exists w'. split; [exact H1|]. apply (H2 (str "Name") (str "Name")).
Defined.

(** [kvs_hash_modify] replaces the value of a stored key and answers 0,
    leaves the table alone and answers -1 for an absent key, and aborts on its
    [assert] when the copy of the value cannot be allocated. *)
Theorem hash_modify_refines base b w m k v :
  hrep base b w m →
  match kvs_hash_modify (Some tt) (Some k) (Some v) w with
  | Ok (ret, w') =>
      (ret = 0 ∧ is_Some (m !! k) ∧ hrep base b w' (<[k := Some v]> m)) ∨
      (ret = -1 ∧ m !! k = None ∧ w' = w)
  | Err f => f = AssertFail ∧ is_Some (m !! k) ∧ ~ al_total (w_al w)
  end.
Proof.
  intros H. pose proof (modify_correct base b w m k v H) as Hm.
  destruct (kvs_hash_modify _ _ _ _) as [[r w']|f]; [|done]. tauto.
Qed.

Lemma hash_modify_refines_witness :
  match kvs_hash_modify (Some tt) (Some (str "Name")) (Some (str "FISH")) hash_one with
  | Ok (ret, w') => ret = 0 ∨ ret = -1
  | Err f => f = AssertFail
  end.
Proof.
  pose proof (hash_modify_refines 0 false hash_one _ (str "Name") (str "FISH") hash_one_rep) as H.
  destruct (kvs_hash_modify _ _ _ _) as [[r w']|f]; tauto.
Defined.

(** [resize_hashtable] doubles the number of slots and rehashes every node
    without changing the contents, the count or the memory owned by the pairs;
    when the new array cannot be allocated the table is as before. *)
Theorem hash_resize_preserves base b w m :
  hrep base b w m → max_slots (w_eng w) < 2 ^ 30 →
  ∃ r w', resize_hashtable (Some tt) w = Ok (r, w') ∧ hrep base b w' m ∧
    count (w_eng w') = count (w_eng w) ∧
    (al_total (w_al w) → max_slots (w_eng w') = max_slots (w_eng w) * 2).
Proof.
  intros H Hm. destruct (resize_rep base b w m H Hm) as (r & w' & H1 & H2 & H3 & H4).
  exists r, w'. split_and!; try done. intros Ht. by apply H4.
Qed.

Lemma hash_resize_preserves_witness :
  ∃ r w', resize_hashtable (Some tt) hash_one = Ok (r, w') ∧
    hrep 0 false w' {[ str "Name" := Some (str "SUYANG") ]}.
Proof.
  destruct (hash_resize_preserves 0 false hash_one _ hash_one_rep) as (r & w' & H1 & H2 & _);
    [vm_compute; reflexivity|]. exists r, w'. split; [exact H1|exact H2].
Defined.

(** [init_hashtable] does not clear the array it allocates: on a block with
    stale contents the first look-up reads an indeterminate pointer. *)
Theorem hash_init_leaves_slots_unset e a k :
  al_ok a (al_calls a) = true → al_zero a (al_calls a) = false →
  ∃ w', init_hashtable (Some tt) (World e a) = Ok (0, w') ∧
    get_kv_hashtable (Some tt) (Some k) w' = Err UninitRead.
Proof. apply init_stale. Qed.

Lemma hash_init_leaves_slots_unset_witness :
  ∃ w', init_hashtable (Some tt) (World Hash0 al_stale) = Ok (0, w') ∧
    get_kv_hashtable (Some tt) (Some (str "Name")) w' = Err UninitRead.
Proof. apply (hash_init_leaves_slots_unset Hash0 al_stale (str "Name") eq_refl eq_refl). Defined.

(** [dest_hashtable] frees the array and the nodes but neither keys nor
    values: what stays allocated beyond [base] is what was live before, minus
    the array and one block per pair. *)
Theorem hash_dest_leaks base b w m :
  hrep base b w m →
  ∃ w', dest_hashtable (Some tt) w = Ok (tt, w') ∧
    al_live (w_al w') = base + (al_live (w_al w) - base - 1 - Z.of_nat (size m)).
Proof.
  intros H. destruct (dest_correct base b w m H) as (w' & H1 & _ & H2). by exists w'.
Qed.

Lemma hash_dest_leaks_witness :
  ∃ w', dest_hashtable (Some tt) hash_one = Ok (tt, w') ∧ al_live (w_al w') = 2.
Proof.
  destruct (hash_dest_leaks 0 false hash_one _ hash_one_rep) as (w' & H1 & H2).
  exists w'. split; [exact H1|]. rewrite H2, map_size_singleton. vm_compute. reflexivity.
Defined.

(** ** The array engine *)

(** C34. [kvstore_array_set] of an absent key stores the pair in the first item
    without a key, leaves every other item as it is, moves the high-water mark
    when it filled the item there, and answers 0; or it answers -1 and leaves the
    array as it is, which happens only when all 1024 items are taken or an
    allocation fails. *)
Theorem array_set_refines base w m k v :
  arep base w m → m !! k = None →
  ∃ r w', kvstore_array_set (Some tt) (Some k) (Some v) w = Ok (r, w') ∧
    ((r = 0 ∧ (size m < KVS_ARRAY_SIZE)%nat ∧ arep base w' (<[k := VStr v]> m) ∧
      filled_hole (w_eng w) (w_eng w') (Item (Some k) (VStr v))) ∨
     (r = -1 ∧ arep base w' m ∧ w_eng w' = w_eng w ∧ (al_total (w_al w) → size m = KVS_ARRAY_SIZE))).
Proof.
  intros H Hk. destruct (array_set_fresh base w m k v H Hk) as (r & w' & Hr & Ho).
  exists r, w'. split; [done|]. tauto.
Qed.

(** Two keys are stored and the first is deleted: the next one takes its
    item. *)
Definition array_hole : world array_t :=
  match kvstore_array_delete (Some tt) (Some (str "Name")) array_two with
  | Ok (_, w) => w
  | Err _ => array_two
  end.

Lemma array_hole_rep : arep 0 array_hole {[ str "Level" := VStr (str "7") ]} ∧ al_total (w_al array_hole).
Proof.
  destruct array_two_rep as [Hr Ht]. pose proof (array_delete_run 0 _ _ (str "Name") Hr) as H.
  rewrite lookup_insert_ne, lookup_singleton_eq in H by done. destruct H as (w' & Hrun & Hr' & Ht').
  unfold array_hole. rewrite Hrun. split; [|by apply Ht']. rewrite delete_insert_ne, delete_singleton_eq in Hr' by done.
  exact Hr'.
Qed.

Lemma array_set_refines_witness :
  ∃ w', kvstore_array_set (Some tt) (Some (str "Rank")) (Some (str "1")) array_hole = Ok (0, w') ∧
    filled_hole (w_eng array_hole) (w_eng w') (Item (Some (str "Rank")) (VStr (str "1"))).
Proof.
  destruct (array_set_refines 0 array_hole _ (str "Rank") (str "1") (proj1 array_hole_rep)) as (r & w' & H1 & H2).
  - vm_compute. reflexivity.
  - destruct H2 as [(-> & _ & _ & H2)|(_ & _ & _ & H2)]; [by exists w'|].
    specialize (H2 (proj2 array_hole_rep)). rewrite map_size_singleton in H2. discriminate.
Defined.

(** [kvstore_array_set] of a key that is already there, with the items
    filled without holes, answers 0 and adds a second item: look-ups still find
    the old value. *)
Theorem array_set_duplicate_is_shadowed base w m k v v0 :
  arep base w m → m !! k = Some v0 → al_total (w_al w) → (size m < KVS_ARRAY_SIZE)%nat →
  array_idx (w_eng w) = size m →
  ∃ w', kvstore_array_set (Some tt) (Some k) (Some v) w = Ok (0, w') ∧
    kvstore_array_get (Some tt) (Some k) w' = Ok (v0, w').
Proof. apply array_set_shadow. Qed.

Lemma array_set_duplicate_is_shadowed_witness :
  ∃ w', kvstore_array_set (Some tt) (Some (str "Name")) (Some (str "FISH")) array_one = Ok (0, w') ∧
    kvstore_array_get (Some tt) (Some (str "Name")) w' = Ok (VStr (str "SUYANG"), w').
Proof.
  apply (array_set_duplicate_is_shadowed 0 array_one {[ str "Name" := VStr (str "SUYANG") ]}).
  - apply array_one_rep.
  - apply lookup_singleton_eq.
  - apply array_one_rep.
  - rewrite map_size_singleton. unfold KVS_ARRAY_SIZE. lia.
  - rewrite map_size_singleton. apply array_one_rep.
Defined.

(** [kvstore_array_modify] replaces the value of a stored key, answers 1
    for an absent key, and when the copy cannot be allocated answers -1 leaving
    the freed old value in the item. *)
Theorem array_modify_refines base w m k v :
  arep base w m →
  match m !! k with
  | None => kvstore_array_modify (Some tt) (Some k) (Some v) w = Ok (1, w)
  | Some VFreed => kvstore_array_modify (Some tt) (Some k) (Some v) w = Err UseAfterFree
  | Some old => ∃ r w', kvstore_array_modify (Some tt) (Some k) (Some v) w = Ok (r, w') ∧
      ((r = 0 ∧ arep base w' (<[k := VStr v]> m)) ∨
       (r = -1 ∧ ~ al_total (w_al w) ∧
        arep base w' (<[k := match old with VNull => VNull | _ => VFreed end]> m)))
  end.
Proof.
  intros H. pose proof (array_modify_run base w m k v H) as Hm.
  destruct (m !! k) as [[| |]|]; try done; destruct Hm as (r & w' & Hr & Ho); exists r, w'; tauto.
Qed.

Lemma array_modify_refines_witness :
  ∃ r w', kvstore_array_modify (Some tt) (Some (str "Name")) (Some (str "FISH")) array_one = Ok (r, w') ∧
    (r = 0 ∨ r = -1).
Proof.
  pose proof (array_modify_refines 0 array_one _ (str "Name") (str "FISH") (proj1 array_one_rep)) as H.
  rewrite lookup_singleton_eq in H. destruct H as (r & w' & H1 & H2). exists r, w'. split; [exact H1|]. tauto.
Defined.

(** [kvstore_array_delete] clears the item of a stored key and frees its
    blocks, answers 1 for an absent key, and frees twice when the value is the
    dangling pointer a failed modification left. *)
Theorem array_delete_refines base w m k :
  arep base w m →
  match m !! k with
  | None => kvstore_array_delete (Some tt) (Some k) w = Ok (1, w)
  | Some VFreed => kvstore_array_delete (Some tt) (Some k) w = Err UseAfterFree
  | Some _ => ∃ w', kvstore_array_delete (Some tt) (Some k) w = Ok (0, w') ∧ arep base w' (delete k m)
  end.
Proof.
  intros H. pose proof (array_delete_run base w m k H) as Hm.
  destruct (m !! k) as [[| |]|]; try done; destruct Hm as (w' & Hr & Ho & _); by exists w'.
Qed.

Lemma array_delete_refines_witness :
  ∃ w', kvstore_array_delete (Some tt) (Some (str "Name")) array_one = Ok (0, w') ∧ arep 0 w' ∅.
Proof.
  pose proof (array_delete_refines 0 array_one _ (str "Name") (proj1 array_one_rep)) as H.
  rewrite lookup_singleton_eq, delete_singleton_eq in H. exact H.
Defined.

(** ** The protocol *)

(** C33. [kvstore_split_token] cuts a line into its maximal runs of bytes other
    than the blank: as many tokens as words, token [i] reading as word [i] in
    the buffer, where the blank after each word has become a NUL and nothing
    else has changed, and entries past them never written. *)
Theorem split_token_words {E} `{!KvEngine E} line rest (w : world E) :
  no_nul line → (length (words line) ≤ KVSTORE_MAX_TOKENS)%nat →
  ∃ toks,
    kvstore_split_token (line ++ 0 :: rest) w
      = Ok ((Z.of_nat (length (words line)), cut false line ++ 0 :: rest, toks), w) ∧
    ∀ i, token (cut false line ++ 0 :: rest) toks i w =
      match words line !! i with Some s => Ok (s, w) | None => Err UninitRead end.
Proof. apply split_token_run. Qed.

Lemma split_token_words_witness :
  ∃ buf toks, kvstore_split_token (str "SET Name SUYANG" ++ [0; 0]) hash_fresh
      = Ok ((3, buf, toks), hash_fresh) ∧ token buf toks 1 hash_fresh = Ok (str "Name", hash_fresh).
Proof.
  destruct (split_token_words (str "SET Name SUYANG") [0] hash_fresh) as (toks & H1 & H3);
    [apply (bool_decide_unpack _); vm_compute; reflexivity|apply (bool_decide_unpack _); vm_compute; reflexivity|].
  eexists _, toks. split; [exact H1|exact (H3 1%nat)].
Defined.

(** C6. [kvstore_request] implements the command language: for every engine
    that keeps the engine contract, a line the contract [kv_step] covers is
    answered with the reply it gives, in the write buffer as a C string, and
    leaves the store it describes. *)
Theorem request_implements_contract {E} `{!KvEngine E, !KvLaws E} item line (w : world E) m r m' :
  kv_inv w m → map_Forall (λ _ v, no_nul v) m → holds (rbuffer item) line →
  kv_step m (words line) r m' →
  ∃ item' w', kvstore_request item w = Ok ((0, item'), w') ∧ kv_inv w' m' ∧
    map_Forall (λ _ v, no_nul v) m' ∧ reply item' = Some r.
Proof. apply request_step. Qed.

(** A connection holding a line. *)
Definition holding (line : cstr) : conn_item :=
  set_rbuffer (recv_into (zeros BUFFER_LENGTH) line) conn_zero.

Lemma request_implements_contract_witness :
  ∃ item' w', kvstore_request (holding (str "SET Name SUYANG")) hash_fresh = Ok ((0, item'), w') ∧
    reply item' = Some (str "SUCCESS").
Proof.
  destruct (request_implements_contract (holding (str "SET Name SUYANG")) (str "SET Name SUYANG") hash_fresh ∅
    (str "SUCCESS") (<[str "Name" := str "SUYANG"]> ∅)) as (item' & w' & H1 & _ & _ & H2).
  - apply store_fresh.
  - apply map_Forall_empty.
  - apply whole_holds. apply (bool_decide_unpack _). vm_compute. reflexivity.
  - apply (step_set ∅ (str "Name") (str "SUYANG") []); [by left|vm_compute; reflexivity].
  - exists item', w'. split; [exact H1|exact H2].
Defined.

(** C38. Lines outside the command language stop the server: an unknown command
    fails the [assert], a command without its arguments reads token pointers
    that were never written, more than 128 words overrun the token array, and a
    buffer without a NUL is scanned past its end. *)
Theorem request_malformed_faults {E} `{!KvEngine E} item line rest (w : world E) :
  (rbuffer item = line ++ 0 :: rest → no_nul line →
     (∀ c ws, words line = c :: ws → (length (words line) ≤ KVSTORE_MAX_TOKENS)%nat →
        c ∉ commands.*2 → kvstore_request item w = Err AssertFail) ∧
     (words line = [str "SET"] ∨ words line = [str "GET"] ∨ words line = [str "DEL"] ∨
      words line = [str "MOD"] ∨ (∃ k, words line = [str "SET"; k]) ∨ (∃ k, words line = [str "MOD"; k]) →
        kvstore_request item w = Err UninitRead) ∧
     ((KVSTORE_MAX_TOKENS < length (words line))%nat → kvstore_request item w = Err OutOfBounds)) ∧
  (no_nul (rbuffer item) → kvstore_request item w = Err OutOfBounds).
Proof.
  split; [|apply request_unterminated]. intros Hb Hn. split_and!.
  - intros c ws. by eapply request_unknown.
  - intros Hw. by eapply request_missing_args.
  - by eapply request_too_many.
Qed.

Lemma request_malformed_faults_witness :
  kvstore_request (holding (str "EXISTS Name")) hash_fresh = Err AssertFail ∧
  kvstore_request (holding (str "SET Name")) hash_fresh = Err UninitRead.
Proof.
  split.
  - apply (request_malformed_faults (holding (str "EXISTS Name")) (str "EXISTS Name") (zeros 1012)) with
      (c := str "EXISTS") (ws := [str "Name"]);
      first [apply (bool_decide_unpack _); vm_compute; reflexivity|vm_compute; reflexivity].
  - apply (request_malformed_faults (holding (str "SET Name")) (str "SET Name") (zeros 1015));
      [vm_compute; reflexivity|apply (bool_decide_unpack _); vm_compute; reflexivity|].
    do 4 right. left. exists (str "Name"). vm_compute. reflexivity.
Defined.

(** ** The servers *)

(** The coroutine server over any interleaving of its connections: when
    every message is a whole request on an open connection, the readers answer
    in the order they are scheduled exactly what the contract answers when the
    requests are run one after the other, each to the connection that asked,
    and the store ends as the contract leaves it. *)
Theorem readers_linearise {E} `{!KvEngine E, !KvLaws E} (w : world E) m sched outs m' alive :
  served m sched outs m' → store w m → (∀ x, x ∈ sched → x.1.1 ∈ alive) →
  ∃ w', run_readers alive sched w = Ok (outs, w') ∧ store w' m'.
Proof. intros. by eapply run_readers_served. Qed.

(** Two connections: one stores, the other reads. *)
Definition two_clients : list (Z * recv_res * Z) :=
  [(5, RBytes (str "SET Name SUYANG"), 7); (6, RBytes (str "GET Name"), 6)].

Lemma two_clients_served :
  served (E := hashtable_t) ∅ two_clients [(5, Sent (str "SUCCESS")); (6, Sent (str "SUYANG"))]
    (<[str "Name" := str "SUYANG"]> ∅).
Proof.
  eapply served_cons; [apply (bool_decide_unpack _); vm_compute; reflexivity|done| |].
  { apply (step_set ∅ (str "Name") (str "SUYANG") []); [by left|vm_compute; reflexivity]. }
  eapply served_cons; [apply (bool_decide_unpack _); vm_compute; reflexivity|done| |constructor].
  apply (step_get_hit _ (str "Name") (str "SUYANG") []). reflexivity.
Qed.

Lemma readers_linearise_witness :
  ∃ w', run_readers {[5; 6]} two_clients hash_fresh
    = Ok ([(5, Sent (str "SUCCESS")); (6, Sent (str "SUYANG"))], w').
Proof.
  destruct (readers_linearise hash_fresh ∅ two_clients _ _ {[5; 6]} two_clients_served store_fresh)
    as (w' & H & _).
  - intros x Hx. unfold two_clients in Hx. rewrite !elem_of_cons in Hx.
    destruct Hx as [->|[->|Hx]]; [set_solver..|by apply elem_of_nil in Hx].
  - exists w'. exact H.
Defined.

(** A whole message reaches the command it names. *)
Lemma reader_iter_words {E} `{!KvEngine E} line sent (w : world E) :
  whole line → words line ≠ [] →
  ∃ item, reader_iter (RBytes line) sent w =
    match parse_words item (words line) w with
    | Ok (item', w') =>
        (n ← wbuffer_len item';
         let msg := Sent (take (Z.to_nat n) (wbuffer item')) in
         if sent =? -1 then mret ([msg; Closed], false) else mret ([msg], true)) w'
    | Err e => Err e
    end.
Proof.
  intros Hl Hne. destruct (whole_holds _ Hl) as (rest & Hb & Hn & Hw).
  pose proof (request_words (holding line) line rest w Hb Hn Hne Hw) as Hrun.
  exists (set_rbuffer (cut false line ++ 0 :: rest) (holding line)). unfold reader_iter. run.
  change (kvstore_request _ w) with (kvstore_request (holding line) w). rewrite Hrun.
  by destruct (parse_words _ _ _) as [[item' w']|e].
Qed.

(** The requests that take the lock of the hash table. *)
Definition locking (ws : list cstr) : Prop :=
  (∃ k v more, ws = str "SET" :: k :: v :: more) ∨
  (∃ k more, ws = str "GET" :: k :: more) ∨ (∃ k more, ws = str "DEL" :: k :: more).

(** C37. One [DEL] of a key whose slot is empty takes the whole server down:
    the client is answered ERROR, and from then on every SET, GET or DEL of any
    client blocks for ever on the mutex that request left locked. *)
Theorem del_absent_blocks_server base w m k line sent :
  hrep base false w m → m !! k = None →
  read_slot (Z.of_nat (place (max_slots (w_eng w)) k)) w = Ok ([], w) →
  whole line → words line = [str "DEL"; k] → sent ≠ -1 →
  ∃ w', reader_iter (RBytes line) sent w = Ok (([Sent (str "ERROR")], true), w') ∧
    ∀ line2 sent2, whole line2 → locking (words line2) →
      reader_iter (RBytes line2) sent2 w' = Err Deadlock.
Proof.
  intros H Hk Hs Hl Hw Hsent.
  destruct (reader_iter_words line sent w Hl) as (item & Hrun); [by rewrite Hw|].
  destruct (delete_absent base w m k H Hk) as (w' & Hdel & Hor & Hlk). specialize (Hlk Hs).
  assert (max_slots (w_eng w') = max_slots (w_eng w)) as Hm by (destruct Hor as [->| ->]; done).
  exists w'. split.
  - rewrite Hrun, Hw. unfold parse_words. cbn [lookup list_lookup]. rewrite find_DEL. run.
    unfold kvstore_delete. cbn [eng_delete hash_engine]. unfold kvs_hash_delete. rewrite Hdel. run.
    destruct (sent =? -1) eqn:Es; b2p; [done|]. reflexivity.
  - intros line2 sent2 Hl2 Hws.
    destruct (reader_iter_words line2 sent2 w' Hl2) as (item2 & ->).
    { by destruct Hws as [(?&?&?&->)|[(?&?&->)|(?&?&->)]]. }
    assert (0 < max_slots (w_eng w') < 2 ^ 31) as Hb.
    { destruct H as (cs & _ & Hg & _). apply good_size_bounds in Hg. lia. }
    destruct w' as [e a]. cbn [w_eng] in *.
    destruct Hws as [(k2&v2&?&->)|[(k2&?&->)|(k2&?&->)]];
      destruct (locked_stuck e a k2 k2 Hb Hlk) as (Hp & Hg & Hd);
      unfold parse_words; cbn [lookup list_lookup]; rewrite ?find_SET, ?find_GET, ?find_DEL; run;
      unfold kvstore_set, kvstore_get, kvstore_delete; cbn [eng_set eng_get eng_delete hash_engine];
      unfold kvs_hash_set, kvs_hash_get, kvs_hash_delete; run.
    + destruct (locked_stuck e a k2 v2 Hb Hlk) as (-> & _). done.
    + by rewrite Hg.
    + by rewrite Hd.
Qed.

Lemma del_absent_blocks_server_witness :
  ∃ w', reader_iter (RBytes (str "DEL Name")) 5 hash_fresh = Ok (([Sent (str "ERROR")], true), w') ∧
    reader_iter (RBytes (str "GET Name")) 5 w' = Err Deadlock.
Proof.
  destruct (del_absent_blocks_server 0 hash_fresh ∅ (str "Name") (str "DEL Name") 5) as (w' & H1 & H2).
  - apply hash_fresh_rep.
  - reflexivity.
  - vm_compute. reflexivity.
  - apply (bool_decide_unpack _). vm_compute. reflexivity.
  - vm_compute. reflexivity.
  - lia.
  - exists w'. split; [exact H1|]. apply H2.
    + apply (bool_decide_unpack _). vm_compute. reflexivity.
    + right. left. exists (str "Name"), []. vm_compute. reflexivity.
Defined.

(** The epoll server with connection 5 accepted. *)
Definition epoll_fresh : eserver hashtable_t :=
  let s := EServer (replicate BUFFER_LENGTH conn_zero) ∅ (0, 0) hash_fresh in
  match accept_cb 5 (0, 0) s with Ok (_, s') => s' | Err _ => s end.

Definition receiving (bs : cstr) : sys := Sys 0 (RBytes bs) 0 (0, 0).

(** [send] takes [n] bytes. *)
Definition sending (n : Z) : sys := Sys 0 REof n (0, 0).

(** C13. The epoll build, from start-up on: with its sockets bound and whatever
    the order in which events of its connections arrive, in batches of any
    size, as long as each line it is made to serve is one the contract covers,
    it never faults; the reply to a request is the contract's and is handed to
    [send] once, at the connection's next write event: as many of its first
    bytes go out as that call takes, none when it fails.  The requests take
    effect in the order of their events, and the store ends as the contract
    leaves it.  The line of a request is what [recv] put at the front of the
    buffer, up to the first NUL, and the buffer keeps what the tokenizer made
    of it.  [esteps] covers accepted descriptors below 1024, received bytes and
    the end of a stream, not the errors of [accept] and [recv], on which the
    server faults. *)
Theorem epoll_entry_serves {E} `{!KvEngine E, !KvLaws E} (w : world E) m socks now batches outs m' cs' :
  store w m → Forall (λ x, x.2 = 0 ∧ valid_fd x.1) socks → NoDup (fst <$> socks) →
  esteps (list_to_set (fst <$> socks)) m ∅ (concat batches) outs m' cs' →
  ∃ s', epoll_entry socks now batches (epoll_zero w) = Ok (outs, s') ∧
    erel (list_to_set (fst <$> socks)) s' m' cs'.
Proof. apply epoll_entry_run. Qed.

(** Two clients connect to port 2048 and send a request each before either is
    answered; of the second reply the kernel takes four bytes. *)
Definition epoll_session : list (list (Z * epoll_events * sys)) :=
  [[(4, EPOLLIN, Sys 14 REof 0 (1, 0))];
   [(4, EPOLLIN, Sys 15 REof 0 (1, 0)); (14, EPOLLIN, receiving (str "SET Name SUYANG"))];
   [(15, EPOLLIN, receiving (str "GET Name")); (14, EPOLLOUT, sending 7)];
   [(15, EPOLLOUT, sending 4); (14, EPOLLIN, Sys 0 REof 0 (2, 0))]].

Definition ten_sockets : list (Z * Z) := (λ i, (Z.of_nat i + 4, 0)) <$> seq 0 10.

Lemma epoll_entry_serves_witness :
  ∃ s', epoll_entry ten_sockets (1, 0) epoll_session (epoll_zero hash_fresh) =
    Ok ([(14, Sent (str "SUCCESS")); (15, Sent (str "SUYA")); (14, Closed)], s') ∧
    store (store_w s') (<[str "Name" := str "SUYANG"]> ∅).
Proof.
  destruct (epoll_entry_serves hash_fresh ∅ ten_sockets (1, 0) epoll_session
    ([] ++ [] ++ [] ++ [] ++ [(14, Sent (str "SUCCESS"))] ++ [(15, Sent (str "SUYA"))] ++ [(14, Closed)] ++ [])
    (<[str "Name" := str "SUYANG"]> ∅)
    (delete 14 (<[15 := AConn (cut false (str "GET Name") ++ 0 :: zeros (BUFFER_LENGTH - 9)) None]>
     (<[14 := AConn (cut false (str "SET Name SUYANG") ++ 0 :: zeros (BUFFER_LENGTH - 16)) None]>
     (<[15 := AConn (cut false (str "GET Name") ++ 0 :: zeros (BUFFER_LENGTH - 9)) (Some (str "SUYANG"))]>
     (<[14 := AConn (cut false (str "SET Name SUYANG") ++ 0 :: zeros (BUFFER_LENGTH - 16)) (Some (str "SUCCESS"))]>
     (<[15 := AConn (zeros BUFFER_LENGTH) None]> (<[14 := AConn (zeros BUFFER_LENGTH) None]> ∅)))))))) as (s' & H & R).
  - exact store_fresh.
  - apply (bool_decide_unpack _). vm_compute. reflexivity.
  - apply (bool_decide_unpack _). vm_compute. reflexivity.
  - cbn [epoll_session concat app].
    eapply (esteps_cons _ _ _ _ []); [apply estep_accept; apply (bool_decide_unpack _); vm_compute; reflexivity|].
    eapply (esteps_cons _ _ _ _ []); [apply estep_accept; apply (bool_decide_unpack _); vm_compute; reflexivity|].
    eapply (esteps_cons _ _ _ _ []); [eapply (estep_request _ _ _ _ _ (zeros BUFFER_LENGTH) (str "SET Name SUYANG")
        (str "SET Name SUYANG") (zeros (BUFFER_LENGTH - 16)));
      [vm_compute; reflexivity|reflexivity|vm_compute; reflexivity
      |apply (bool_decide_unpack _); vm_compute; reflexivity
      |apply (bool_decide_unpack _); vm_compute; reflexivity
      |apply (step_set ∅ (str "Name") (str "SUYANG") []); [by left|vm_compute; reflexivity]]|].
    eapply (esteps_cons _ _ _ _ []); [eapply (estep_request _ _ _ _ _ (zeros BUFFER_LENGTH) (str "GET Name")
        (str "GET Name") (zeros (BUFFER_LENGTH - 9)));
      [vm_compute; reflexivity|reflexivity|vm_compute; reflexivity
      |apply (bool_decide_unpack _); vm_compute; reflexivity
      |apply (bool_decide_unpack _); vm_compute; reflexivity
      |apply (step_get_hit _ (str "Name") (str "SUYANG") []); apply lookup_insert_eq]|].
    eapply (esteps_cons _ _ _ _ [_]); [eapply (estep_reply _ _ _ 14 (sending 7) _ (str "SUCCESS")); vm_compute; reflexivity|].
    eapply (esteps_cons _ _ _ _ [_]); [eapply (estep_reply _ _ _ 15 (sending 4) _ (str "SUYANG")); vm_compute; reflexivity|].
    eapply (esteps_cons _ _ _ _ [_]); [eapply estep_eof; [vm_compute; reflexivity|reflexivity]|apply esteps_nil].
  - exists s'. split; [exact H|exact (er_store _ _ _ _ R)].
Defined.

(** The buffer of a connection is not cleared between requests of the
    epoll build, so a shorter request is completed by the end of the previous
    one: after [SET Name SUYANG], the request [GET Na] is answered with the
    value of [Name]. *)
Theorem epoll_reuses_stale_bytes :
  match dispatch [(5, EPOLLIN, receiving (str "SET Name SUYANG")); (5, EPOLLOUT, sending 7);
                  (5, EPOLLIN, receiving (str "GET Na")); (5, EPOLLOUT, sending 6)] epoll_fresh with
  | Ok (outs, _) => outs = [(5, Sent (str "SUCCESS")); (5, Sent (str "SUYANG"))]
  | Err _ => False
  end.
Proof. vm_compute. reflexivity. Qed.

(** [recv_cb] takes the -1 of a failed [recv] for a length and serves the
    buffer again, of which the tokenizer left the command word: after any
    request, an error on the connection ends the process. *)
Theorem epoll_recv_error_faults :
  dispatch [(5, EPOLLIN, receiving (str "SET Name SUYANG")); (5, EPOLLOUT, sending 7);
            (5, EPOLLIN, Sys 0 RErr 0 (0, 0))] epoll_fresh = Err UninitRead.
Proof. vm_compute. reflexivity. Qed.

(** [accept_cb] with a descriptor below 1024 gives it cleared buffers, the
    receive and send callbacks and an [EPOLLIN] registration, and touches no
    other connection; any other descriptor, the -1 of a failed [accept] among
    them, indexes [connlist] out of bounds. *)
Theorem accept_initialises {E} (s : eserver E) fd now :
  length (connlist s) = BUFFER_LENGTH → interest s !! fd = None →
  if bool_decide (valid_fd fd)
  then ∃ s' c, accept_cb fd now s = Ok (0, s') ∧ conn_of s' fd = Some c ∧
    rbuffer c = zeros BUFFER_LENGTH ∧ wbuffer c = zeros BUFFER_LENGTH ∧
    rlen_ c = 0 ∧ wlen_ c = 0 ∧ recv_t c = Some Recv_cb ∧ send_callback c = Some Send_cb ∧
    interest s' = <[fd := EPOLLIN]> (interest s) ∧ store_w s' = store_w s ∧
    length (connlist s') = BUFFER_LENGTH ∧
    ∀ fd', 0 ≤ fd' → fd' ≠ fd → conn_of s' fd' = conn_of s fd'
  else accept_cb fd now s = Err OutOfBounds.
Proof. apply accept_cb_run. Qed.

Lemma accept_initialises_witness : accept_cb (-1) (0, 0) epoll_fresh = Err OutOfBounds.
Proof.
  apply (accept_initialises epoll_fresh (-1) (0, 0)); vm_compute; reflexivity.
Defined.

(** ** The test client *)

(** A connection to a fresh store on which every call moves whole messages. *)
Definition test_link : link hashtable_t := Link hash_fresh [] (λ _, 512) 0.

Lemma test_link_calm : calm test_link ∅.
Proof. split; [exact store_fresh|done|done]. Qed.

(** Against any engine that keeps the engine contract, every round of
    [array_testcase_10w] passes all six test cases and leaves the store as it
    was, whatever else it holds. *)
Theorem array_testcases_pass {E} `{!KvEngine E, !KvLaws E} connfd count (w : link E) m :
  0 ≤ connfd → calm w m → m !! str "Name" = None → room m →
  ∃ w', array_testcase_n connfd count w = Ok (Some true, w') ∧ calm w' m.
Proof. intros. by apply array_testcase_rounds. Qed.

Lemma array_testcases_pass_witness :
  ∃ w', array_testcase_n 3 100000 test_link = Ok (Some true, w') ∧ calm w' ∅.
Proof.
  apply (array_testcases_pass 3 100000 test_link ∅ ltac:(done) test_link_calm); vm_compute; reflexivity.
Defined.

(** [rbtree_testcase_5w_node] passes on an engine with room for its keys:
    all its SETs and DELs succeed and the store is empty again. *)
Theorem rbtree_testcases_pass {E} `{!KvEngine E, !KvLaws E} connfd (w : link E) count :
  0 ≤ connfd → calm w ∅ → Z.of_nat count ≤ kv_cap → (N.of_nat count ≤ 10 ^ 9)%N →
  ∃ w', rbtree_testcase connfd count w = Ok (Some true, w') ∧ calm w' ∅.
Proof. intros. by apply rbtree_testcase_pass. Qed.

Lemma rbtree_testcases_pass_witness :
  ∃ w', rbtree_testcase 3 50000 test_link = Ok (Some true, w') ∧ calm w' ∅.
Proof.
  apply (rbtree_testcases_pass 3 test_link 50000 ltac:(done) test_link_calm).
  - apply (bool_decide_unpack _). vm_compute. reflexivity.
  - apply (bool_decide_unpack _). vm_compute. reflexivity.
Defined.

(** C35. The test client as a program, against an empty store with room for
    50000 keys: when its options are read, the connection is made, no call of
    [send] or [recv] fails or moves less than the whole message ([calm]), and the
    clock moves by a millisecond or more in each mode that runs, it returns 0,
    all test cases of the chosen modes pass, it reports the milliseconds used
    and the rate computed from them, and the store is empty again. *)
Theorem testcase_main_passes {E} `{!KvEngine E, !KvLaws E} opts sock connect clock ip port mode (w : link E) :
  parse_opts opts [] 0 1 = Ok (Some (ip, port, mode)) → 0 ≤ sock → connect ip (u16 port) = 0 →
  calm w ∅ → 50000 ≤ kv_cap →
  mode_ok (Z.testbit mode 0) clock.1 → mode_ok (Z.testbit mode 1) clock.2 →
  ∃ w', testcase_main opts sock connect clock w =
      Ok ((0, reported (Z.testbit mode 0) (600000 * 1000) clock.1 ++
              reported (Z.testbit mode 1) (200000 * 1000) clock.2), w') ∧ calm w' ∅.
Proof. apply main_pass. Qed.

(** [./testcase -s 127.0.0.1 -p 9096 -m 3] *)
Definition test_options : list (Z * cstr) :=
  [(115, str "127.0.0.1"); (112, str "9096"); (109, str "3")].

Lemma testcase_main_passes_witness :
  ∃ w', testcase_main test_options 3 (λ _ _, 0) ((10, 0), (12, 500000), ((12, 500000), (14, 0))) test_link =
    Ok ((0, [(true, Report 2500 240000); (true, Report 1500 133333)]), w') ∧ calm w' ∅.
Proof.
  apply (testcase_main_passes test_options 3 (λ _ _, 0)
    ((10, 0), (12, 500000), ((12, 500000), (14, 0))) (str "127.0.0.1") 9096 3 test_link);
    [done|done|done|exact test_link_calm|by vm_compute| |]; by intros _.
Defined.

(** When no connection is made, the client does not notice before its first
    [send], which ends it with status 1; nothing reaches the server. *)
Theorem testcase_main_refused {E} `{!KvEngine E} opts sock connect clock ip port mode (w : link E) :
  parse_opts opts [] 0 1 = Ok (Some (ip, port, mode)) → connect ip (u16 port) ≠ 0 →
  testcase_main opts sock connect clock w =
    Ok ((if Z.testbit mode 0 || Z.testbit mode 1 then 1 else 0, []), w).
Proof. apply main_refused. Qed.

Lemma testcase_main_refused_witness :
  testcase_main test_options 3 (λ _ _, -1) ((0, 0), (0, 0), ((0, 0), (0, 0))) test_link = Ok ((1, []), test_link).
Proof. by apply (testcase_main_refused test_options 3 (λ _ _, -1) _ (str "127.0.0.1") 9096 3). Defined.

(** A test case whose [send] or [recv] fails calls [exit(1)]: the server has not
    seen the request when [send] failed, and has served it when [recv] did. *)
Theorem test_case_exits {E} `{!KvEngine E} connfd msg pattern (w : link E) :
  (l_net w (l_calls w) < 0 →
   ∃ w', test_case connfd msg pattern w = Ok (None, w') ∧ l_server w' = l_server w) ∧
  (∀ x w1, send_msg connfd msg w = Ok (Some x, w1) → l_net w1 (l_calls w1) < 0 →
   ∃ w', test_case connfd msg pattern w = Ok (None, w') ∧ l_server w' = l_server w1).
Proof. split; [apply test_case_send_fails|intros; by eapply test_case_recv_fails]. Qed.

(** The second [send] of the client takes three bytes of its request: what reaches
    the server is a command without its argument, and the server faults. *)
Theorem short_send_stops_server :
  array_testcase 3 (Link hash_fresh [] (λ n, if (n =? 2)%nat then 3 else 512) 0) = Err UninitRead.
Proof. vm_compute. reflexivity. Qed.

(** Test cases that take less than a millisecond divide by zero. *)
Theorem instant_tests_fault {E} `{!KvEngine E} cases total tv (w w' : link E) p :
  cases w = Ok (Some p, w') → i32 (TIME_SUB_MS tv.2 tv.1) = 0 →
  run_mode true cases total tv.1 tv.2 w = Err DivByZero.
Proof. apply run_mode_instant. Qed.

Lemma instant_tests_fault_witness :
  run_mode true (test_case 3 (str "GET Name") (str "NO EXIST")) 1000 (7, 100) (7, 900) test_link = Err DivByZero.
Proof.
  eapply (instant_tests_fault _ _ ((7, 100), (7, 900))); vm_compute; reflexivity.
Defined.

(** The address is copied into 16 bytes whatever its length. *)
Theorem long_address_overflows {E} `{!KvEngine E} ip opts sock connect clock (w : link E) :
  (16 ≤ length ip)%nat →
  testcase_main ((115, ip) :: opts) sock connect clock w = Err OutOfBounds.
Proof.
  intros H. unfold testcase_main. run. unfold parse_opts. cbn [Z.eqb Pos.eqb].
  by rewrite bool_decide_eq_true_2.
Qed.

Lemma long_address_overflows_witness :
  testcase_main [(115, str "192.168.243.1310")] 3 (λ _ _, 0) ((0, 0), (0, 0), ((0, 0), (0, 0))) test_link = Err OutOfBounds.
Proof. apply (long_address_overflows (str "192.168.243.1310")). simpl. lia. Defined.
