(* ===== verification/NtycoProps.v ===== *)
(** * Properties of the coroutine library and the coroutine server

    The statements about src/kv_store/Ntyco and ntyco_entry.c, each with a
    concrete instance. *)

From S2P Require Import Prelude CRuntime Hash Engine Protocol Coro Server Ntyco NtycoSocket NtycoFacts.
From S2P Require Import NtycoSleep NtycoRun NtycoServer NtycoSim NtycoSystem KvProps.

(** ** Concrete processes for the instances *)

Section demo.
Context {E : Type}.

(** A process before [ntyco_entry] with epoll instance 3, [eventfd] 4 and
    listening socket 5; [word] is what a new reader finds at the address of
    [cli_fd]. *)
Definition demo (w : world E) (clk : nat → Z) (word : bool → Z → Z) (bs : list wait_res) : nty fn (app E) :=
  Nty None ∅ 0 None None al_good
    (NSys 0 clk (λ _, 4096) bs [AVal 3; AVal 4; AVal 0; AVal 5; AVal 0; AVal 0] ∅ [])
    (App w 0 word).

Lemma demo_boot w clk word bs : boot 4 5 (demo w clk word bs).
Proof.
  constructor; try done. by eexists 3, 0, 0, 0.
Qed.
End demo.

(** ** The server *)

(** C7. The coroutine server refines the server without coroutines.  From the
    start of [ntyco_entry], over batches of events of any length, with any
    partial writes and any errors of [recv] and [send], the scheduler runs one
    round per batch without a fault: no assertion fails, no freed coroutine is
    used, no queue or tree is corrupted.  What goes out on each connection, in
    order, and what becomes of the store is what [conn_step] says, event after
    event.  Every block the library holds belongs to the scheduler, the server or
    a connection that is still open.  Assumed, by [boot]: the library's
    allocations succeed, a coroutine's stack in use fits the 128 KiB it may save,
    and the start-up calls (the epoll instance, the [eventfd] and its
    registration, the socket and its [fcntl]) succeed; of the kernel:
    [epoll_wait] fails with EINTR only, a descriptor is reported once in a batch,
    and an accepted one is new; of the compiler: a starting reader does not
    overwrite the word its argument points to, when the server ran last; of the
    events, by [serve_all]: the listening descriptor is handled last in a batch
    that accepts, [accept] fails only with EAGAIN, and the store's own code does
    not fault on the requests.  Without these the process aborts
    ([ntyco_aborts], [bad_accepts_abort]). *)
Theorem ntyco_refines {E} `{!KvEngine E} efd lst fuel f (s : nty fn (app E)) evs l v' :
  boot efd lst s → (∀ x, a_word (n_app s) true x = x) →
  delivered (y_batches (n_sys s)) = evs :: l → only_interrupts (y_batches (n_sys s)) →
  serve_all lst efd (Srv ∅ (a_store (n_app s)) (y_out (n_sys s))) (evs :: l) v' →
  (wakes (evs :: l) + 2 ≤ fuel)%nat →
  ∃ r, (_ ← on_n ntyco_start; schedule_rounds (body fuel) (S f) (length (evs :: l))) (Rt s ∅) = Ok (false, r) ∧
    y_out (n_sys (r_n r)) = v_out v' ∧ a_store (n_app (r_n r)) = v_store v' ∧
    al_live (n_al s) + 2 ≤ al_live (n_al (r_n r)) ≤ al_live (n_al s) + 4 + 2 * Z.of_nat (size (conns v')).
Proof.
  apply server_run.
Qed.

(** A connection, which a signal interrupts, then its end. *)
Definition short_run : list wait_res :=
  [Ready [Event 5 1 [AVal 6; AVal 0]]; Failed EINTR; Ready [Event 6 1 [AData []]]].

Lemma ntyco_refines_witness :
  ∃ r, (_ ← on_n ntyco_start; schedule_rounds (body 4) 1 2)
      (Rt (demo hash_fresh (λ _, 0) (λ _ v, v) short_run) ∅) = Ok (false, r) ∧
    y_out (n_sys (r_n r)) = [(6, Closed)].
Proof.
  set (s := demo hash_fresh (λ _, 0) (λ _ v, v) short_run).
  set (v1 := Srv {[6 := Reading]} hash_fresh [] : srv hashtable_t).
  set (v2 := Srv ∅ hash_fresh [(6, Closed)] : srv hashtable_t).
  destruct (ntyco_refines 4 5 4 0 s [Event 5 1 [AVal 6; AVal 0]] [[Event 6 1 [AData []]]] v2) as (r & Hr & Ho & _).
  - apply demo_boot.
  - reflexivity.
  - reflexivity.
  - repeat constructor.
  - apply (all_cons 5 4 _ _ (Some 6) v1).
    + apply NoDup_singleton.
    + apply batch_accept. by apply (accepts_intro 5 4 (Srv ∅ hash_fresh []) (Event 5 1 [AVal 6; AVal 0]) 6 [AVal 0]).
    + apply (all_cons 5 4 _ _ None v2); [apply NoDup_singleton| |constructor].
      apply (batch_cons 5 4 v1 (Event 6 1 [AData []]) v2); [|constructor].
      exact (serve_conn 5 4 v1 (Event 6 1 [AData []]) Reading None hash_fresh [Closed] ltac:(done) eq_refl eq_refl).
  - cbn. lia.
  - exists r. split; [exact Hr|exact Ho].
Defined.

(** The coroutine server keeps the protocol's contract end to end, for any
    engine: as [kv_main_serves], from the start of [ntyco_entry]. *)
Theorem ntyco_serves_contract {E} `{!KvEngine E, !KvLaws E} efd lst fuel f (s : nty fn (app E))
    m fds groups rs outs m' p' :
  boot efd lst s → (∀ x, a_word (n_app s) true x = x) → store (a_store (n_app s)) m →
  NoDup fds → fds ≠ [] → Forall (λ fd, 0 ≤ fd ∧ fd ≠ lst ∧ fd ≠ efd) fds →
  Forall (λ g, NoDup (ce_fd <$> g)) groups → Forall (λ x, ce_fd x ∈ fds) (concat groups) →
  answered m ∅ (concat groups) rs outs m' p' →
  y_batches (n_sys s) = Ready <$> (((λ fd, [accept_event lst fd]) <$> fds) ++
                                   ((λ g, rev (ce_event <$> g)) <$> groups)) →
  (length fds + length (concat groups) + 2 ≤ fuel)%nat →
  ∃ r, (_ ← on_n ntyco_start; schedule_rounds (body fuel) (S f) (length fds + length groups)) (Rt s ∅)
        = Ok (false, r) ∧
    y_out (n_sys (r_n r)) = y_out (n_sys s) ++ outs ∧ store (a_store (n_app (r_n r))) m'.
Proof. apply contract_run. Qed.

(** Two connections; on the first a pair is stored, then both ask for it in one
    batch.  Of the second reply the kernel takes four bytes, and the rest when the
    connection can be written to again. *)
Definition two_clients : list (list client_event) :=
  [[Request 6 (str "SET Name SUYANG") 100]; [Request 7 (str "GET Name") 4; Request 6 (str "GET Name") 50];
   [Writable 7 9]].

Definition two_replies : list (Z * list Z) :=
  [(6, str "SUCCESS"); (7, str "SUYANG"); (6, str "SUYANG")].
Definition two_outputs : list (Z * output) :=
  [(6, Sent (str "SUCCESS")); (7, Sent (str "SUYA")); (6, Sent (str "SUYANG")); (7, Sent (str "NG"))].

Lemma two_clients_answered :
  answered (E := hashtable_t) ∅ ∅ (concat two_clients) two_replies two_outputs {[ str "Name" := str "SUYANG" ]} ∅.
Proof.
  assert (∀ (m m' : gmap cstr cstr) (p p' : backlog) l rs outs fd r k q,
    q = after_send fd r k p → answered (E := hashtable_t) m q l rs outs m' p' →
    answered (E := hashtable_t) m (after_send fd r k p) l rs outs m' p') as Hq by (by intros; subst).
  apply (answered_request ∅ ∅ 6 (str "SET Name SUYANG") 100 (str "SUCCESS") {[ str "Name" := str "SUYANG" ]});
    [done|apply (bool_decide_unpack _); vm_compute; reflexivity
    |apply (step_set ∅ (str "Name") (str "SUYANG") []); [by left|reflexivity]|discriminate|done|].
  apply (Hq _ _ _ _ _ _ _ _ _ _ ∅); [reflexivity|].
  apply (answered_request _ ∅ 7 (str "GET Name") 4 (str "SUYANG") {[ str "Name" := str "SUYANG" ]});
    [done|apply (bool_decide_unpack _); vm_compute; reflexivity
    |by apply (step_get_hit _ (str "Name") (str "SUYANG") [])|discriminate|done|].
  apply (Hq _ _ _ _ _ _ _ _ _ _ {[ 7 := (str "SUYANG", 4%nat) ]}); [reflexivity|].
  apply (answered_request _ _ 6 (str "GET Name") 50 (str "SUYANG") {[ str "Name" := str "SUYANG" ]});
    [done|apply (bool_decide_unpack _); vm_compute; reflexivity
    |by apply (step_get_hit _ (str "Name") (str "SUYANG") [])|discriminate|done|].
  apply (Hq _ _ _ _ _ _ _ _ _ _ {[ 7 := (str "SUYANG", 4%nat) ]}); [reflexivity|].
  apply (answered_more _ _ 7 (str "SUYANG") 4 9); [reflexivity|done|].
  apply (Hq _ _ _ _ _ _ _ _ _ _ ∅); [reflexivity|constructor].
Qed.

(** The process of [demo] with the events of the two connections. *)
Definition two_demo {E} (w : world E) : nty fn (app E) :=
  demo w (λ _, 0) (λ _ v, v)
    (Ready <$> (((λ fd, [accept_event 5 fd]) <$> [6; 7]) ++ ((λ g, rev (ce_event <$> g)) <$> two_clients))).

Lemma ntyco_serves_contract_witness :
  ∃ r, (_ ← on_n ntyco_start; schedule_rounds (body 8) 1 5) (Rt (two_demo hash_fresh) ∅) = Ok (false, r) ∧
    y_out (n_sys (r_n r)) = two_outputs.
Proof.
  destruct (ntyco_serves_contract 4 5 8 0 (two_demo hash_fresh) ∅ [6; 7] two_clients two_replies two_outputs
    {[ str "Name" := str "SUYANG" ]} ∅) as (r & Hr & Ho & _).
  - apply demo_boot.
  - reflexivity.
  - exact store_fresh.
  - apply (bool_decide_unpack _). reflexivity.
  - discriminate.
  - apply (bool_decide_unpack _). reflexivity.
  - apply (bool_decide_unpack _). reflexivity.
  - apply (bool_decide_unpack _). reflexivity.
  - exact two_clients_answered.
  - reflexivity.
  - cbn. lia.
  - exists r. split; [exact Hr|exact Ho].
Defined.

(** C12. The store program, from [main] on.  After the connections [fds] are
    accepted, requests and write events arrive in batches, in any grouping and
    with any partial writes; if the contract covers each request where it is
    served, starting from the empty map, the program runs a round per batch
    without a fault, the bytes that go out on each connection are the
    contract's replies to it, whole and in order, up to what is still to be sent
    on it, and the hash engine holds the contract's map.  Assumed: the memory of
    the slot array is zero (the program does not clear it), all allocations
    succeed, start-up is as in [boot] (stacks that fit, successful system
    calls), each [recv] delivers one whole request and each [send] takes at
    least one byte, a descriptor is reported once in a batch, and a starting
    reader finds its descriptor in [cli_fd], on the stack it shares with the
    server, when the server ran last. *)
Theorem kv_main_serves efd lst fuel f (s : nty fn (app hashtable_t)) e a fds groups rs outs m' p' :
  boot efd lst s → (∀ x, a_word (n_app s) true x = x) →
  a_store (n_app s) = World e a → al_total a → al_zero a (al_calls a) = true →
  NoDup fds → fds ≠ [] → Forall (λ fd, 0 ≤ fd ∧ fd ≠ lst ∧ fd ≠ efd) fds →
  Forall (λ g, NoDup (ce_fd <$> g)) groups → Forall (λ x, ce_fd x ∈ fds) (concat groups) →
  answered (E := hashtable_t) ∅ ∅ (concat groups) rs outs m' p' →
  y_batches (n_sys s) = Ready <$> (((λ fd, [accept_event lst fd]) <$> fds) ++
                                   ((λ g, rev (ce_event <$> g)) <$> groups)) →
  (length fds + length (concat groups) + 2 ≤ fuel)%nat →
  ∃ r, kv_main_rounds fuel (S f) (length fds + length groups) (Rt s ∅) = Ok (false, r) ∧
    y_out (n_sys (r_n r)) = y_out (n_sys s) ++ outs ∧
    (∀ fd, sent_on fd outs ++ unsent fd p' = replies_on fd rs) ∧
    store (a_store (n_app (r_n r))) m'.
Proof.
  intros Hb Hw Hs Ha Hz. destruct (init_store e a Ha Hz) as (w & Hrun & Hst). intros ????? Hans ??.
  set (s1 := s <| n_app := App w (a_cli_fd (n_app s)) (a_word (n_app s)) |>).
  assert (on_n (F := fn) (on_kv init_kvengine) (Rt s ∅) = Ok (0, Rt s1 ∅)) as E.
  { rewrite on_n_run. unfold on_kv. cbn [r_n]. by rewrite Hs, Hrun. }
  destruct (contract_run efd lst fuel f s1 ∅ fds groups rs outs m' p') as (r & Hr & Ho & Hst'); try done.
  { destruct Hb. by constructor. }
  exists r. split; [unfold kv_main_rounds; rewrite bind_run, E; exact Hr|]. split; [exact Ho|].
  split; [|exact Hst']. intros fd. exact (answered_bytes _ _ _ _ _ _ _ fd Hans).
Qed.

Lemma kv_main_serves_witness :
  ∃ r, kv_main_rounds 8 1 5 (Rt (two_demo (World Hash0 al_good)) ∅) = Ok (false, r) ∧
    y_out (n_sys (r_n r)) = two_outputs ∧ sent_on 7 two_outputs = str "SUYANG".
Proof.
  destruct (kv_main_serves 4 5 8 0 (two_demo (World Hash0 al_good)) Hash0 al_good [6; 7] two_clients two_replies
    two_outputs {[ str "Name" := str "SUYANG" ]} ∅) as (r & Hr & Ho & _).
  - apply demo_boot.
  - reflexivity.
  - reflexivity.
  - auto with ga.
  - reflexivity.
  - apply (bool_decide_unpack _). reflexivity.
  - discriminate.
  - apply (bool_decide_unpack _). reflexivity.
  - apply (bool_decide_unpack _). reflexivity.
  - apply (bool_decide_unpack _). reflexivity.
  - exact two_clients_answered.
  - reflexivity.
  - cbn. lia.
  - exists r. split; [exact Hr|]. split; [exact Ho|reflexivity].
Defined.

(** Without a listening socket [main] ends: the server's coroutine returns, the
    wait of the round goes by without an event, the scheduler is freed and the
    store taken down, and no block is left. *)
Theorem kv_main_no_socket bs :
  match kv_main 2 2 (Rt (Nty None ∅ 0 None None al_good
    (NSys 0 (λ _, 0) (λ _, 4096) (Ready [] :: bs) [AVal 3; AVal 4; AVal 0; AVal (-1)] ∅ [])
    (App (World Hash0 al_good) 0 (λ _ v, v))) ∅) with
  | Ok (x, r) => x = 0 ∧ n_sched (r_n r) = None ∧ al_live (n_al (r_n r)) = 0 ∧
                 al_live (w_al (a_store (n_app (r_n r)))) = 0
  | Err _ => False
  end.
Proof. vm_compute. by split_and!. Qed.

(** ** Sleeping *)

(** C31. Going to sleep ends and keeps the tree: the coroutine is entered under
    the first free microsecond from the one it asked for, whoever sleeps
    already, and its status says so.  Dropped from the tree is only who was
    entered under the time the coroutine kept from its last sleep. *)
Theorem sleep_finds_free_time {F W} i msecs (s : nty F W) sc m c :
  n_cos s !! i = Some c → n_sched s = Some sc → tree_rep (sleeping sc) m →
  (∀ k k' j, m !! k = Some j → m !! k' = Some j → k = k') →
  let m1 := delete (sleep_usecs c) m in
  let due := u64 (since_birth s sc + u64 (msecs * 1000)) in
  (∀ k, m1 !! k ≠ Some i) → msecs ≠ 0 → due + Z.of_nat (size m) < 2 ^ 64 →
  ∃ key t s', nty_schedule_sched_sleepdown i msecs s = Ok (tt, s') ∧
    due ≤ key ∧ m1 !! key = None ∧ (∀ k, due ≤ k < key → is_Some (m1 !! k)) ∧
    tree_rep t (<[key := i]> m1) ∧ n_sched s' = Some (sc <| sleeping := t |>) ∧
    ∃ c', n_cos s' !! i = Some c' ∧ sleep_usecs c' = key ∧
      has (co_status c') NTY_COROUTINE_STATUS_SLEEPING = true.
Proof. intros. by eapply sleepdown_run. Qed.

(** A coroutine that asks for the time another one sleeps until. *)
Definition sleepers : nty unit unit :=
  Nty (Some (Schedule 0 true 0 2 3000000 None 3 4 [] 0 [] [] [(5000, 1%nat)] []))
    {[ 0%nat := Coroutine tt false 0 0 0 0 (-1) 0 0 0; 1%nat := Coroutine tt true 64 0 0 1 (-1) 0 0 5000 ]}
    2 None None al_good (NSys 0 (λ _, 0) (λ _, 4096) [] [] ∅ []) tt.

Lemma sleepers_rep : tree_rep [(5000, 1%nat)] {[ 5000 := 1%nat ]}.
Proof.
  split; [repeat constructor|]. intros k i. rewrite lookup_singleton_Some, list_elem_of_singleton. naive_solver.
Qed.

Lemma sleep_finds_free_time_witness :
  ∃ key t s', nty_schedule_sched_sleepdown 0 5 sleepers = Ok (tt, s') ∧ 5000 ≤ key ∧
    tree_rep t (<[key := 0%nat]> (delete 0 {[ 5000 := 1%nat ]})).
Proof.
  destruct (sleep_finds_free_time 0 5 sleepers
    (Schedule 0 true 0 2 3000000 None 3 4 [] 0 [] [] [(5000, 1%nat)] []) {[ 5000 := 1%nat ]}
    (Coroutine tt false 0 0 0 0 (-1) 0 0 0)) as (key & t & s' & Hr & Hk & _ & _ & Ht & _).
  - reflexivity.
  - reflexivity.
  - exact sleepers_rep.
  - intros k k' j [<- <-]%lookup_singleton_Some [<- _]%lookup_singleton_Some. reflexivity.
  - intros k [_ [_ [=]]%lookup_singleton_Some]%lookup_delete_Some.
  - discriminate.
  - rewrite map_size_singleton. vm_compute. reflexivity.
  - exists key, t, s'. split; [exact Hr|]. split; [exact Hk|exact Ht].
Defined.

(** C32. The scheduler does not oversleep: the time it is ready to wait is at most
    what is left until any sleeper is due, the default when nobody sleeps, and
    the milliseconds it gives to [epoll_wait] are no longer than that; below one
    second they are at most a millisecond shorter. *)
Theorem epoll_never_oversleeps {F W} (s : nty F W) sc m :
  n_sched s = Some sc → tree_rep (sleeping sc) m → keyed s m → 0 ≤ default_timeout sc →
  ∃ u s', nty_schedule_min_timeout s = Ok (u, s') ∧ (m = ∅ → u = default_timeout sc) ∧
    (∀ k i, m !! k = Some i → u ≤ Z.max 0 (k - since_birth s sc)) ∧
    epoll_ms (epoll_time u) * 1000 ≤ u ∧ (u < 1000000 → u < epoll_ms (epoll_time u) * 1000 + 1000).
Proof.
  intros Hs Ht Hk Hd. destruct (min_timeout_run s sc m Hs Ht Hk Hd) as (u & s' & Hr & H0 & He & Hm).
  destruct (epoll_time_bound u H0) as [H1 H2]. exists u, s'. by split_and!.
Qed.

Lemma epoll_never_oversleeps_witness :
  ∃ u s', nty_schedule_min_timeout sleepers = Ok (u, s') ∧ u ≤ 5000 ∧ epoll_ms (epoll_time u) * 1000 ≤ u.
Proof.
  destruct (epoll_never_oversleeps sleepers
    (Schedule 0 true 0 2 3000000 None 3 4 [] 0 [] [] [(5000, 1%nat)] []) {[ 5000 := 1%nat ]})
    as (u & s' & Hr & _ & Hm & Hb & _).
  - reflexivity.
  - exact sleepers_rep.
  - intros k i [<- <-]%lookup_singleton_Some. eexists. split; [reflexivity|]. split; reflexivity.
  - discriminate.
  - exists u, s'. split; [exact Hr|]. split; [|exact Hb].
    apply (Hm 5000 1%nat). reflexivity.
Defined.

(** From one second on the nanoseconds are computed from the wrong remainder:
    with 1.9 seconds to wait the scheduler waits one. *)
Lemma epoll_time_short : epoll_ms (epoll_time 1900000) = 1000.
Proof. reflexivity. Qed.

(** ** What goes wrong *)

(** How a run of the demonstration process ends. *)
Definition demo_run {E} `{!KvEngine E} (w : world E) clk word (n : nat) (bs : list wait_res) : result (list (Z * output)) :=
  match (_ ← on_n ntyco_start; schedule_rounds (body 10) 1 n) (Rt (demo w clk word bs) ∅) with
  | Ok (_, r) => Ok (y_out (n_sys (r_n r)))
  | Err e => Err e
  end.

(** Two ways to end the server from outside.  A failed [accept] starts a
    reader for descriptor -1, and the second one trips an assertion: the first
    still waits for it.  And when in the batch that brings a connection a reader
    is woken after the server, the new reader finds what that reader left on the
    shared stack in place of its descriptor: if it reads the descriptor of an
    open connection, the assertion fails too.  Both hold for any store and
    clock. *)
Theorem bad_accepts_abort {E} `{!KvEngine E} (w : world E) clk :
  Forall (λ e, demo_run w clk (λ _ v, v) 3
      [Ready [Event 5 1 [AErr e]]; Ready [Event 5 1 [AErr e]]; Ready []] = Err AssertFail)
    [ECONNABORTED; EMFILE; ENFILE] ∧
  demo_run w clk (λ own v, if own then v else 6) 3
    [Ready [accept_event 5 6]; Ready [Event 6 1 [AErr ECONNRESET]; accept_event 5 7]; Ready []] = Err AssertFail.
Proof. split; [repeat constructor|]; vm_compute; reflexivity. Qed.

(** The process of [demo] whose [i]-th allocation fails. *)
Definition demo_oom {E} `{!KvEngine E} (w : world E) clk (i : nat) : result (list (Z * output)) :=
  match (_ ← on_n ntyco_start; schedule_rounds (body 10) 1 2)
    (Rt (Nty None ∅ 0 None None (Alloc (λ n, negb (n =? i)%nat) (λ _, true) 0 0)
      (NSys 0 clk (λ _, 4096) [Ready [accept_event 5 6]; Ready []]
        [AVal 3; AVal 4; AVal 0; AVal 5; AVal 0; AVal 0] ∅ []) (App w 0 (λ _ v, v))) ∅) with
  | Ok (_, r) => Ok (y_out (n_sys (r_n r)))
  | Err e => Err e
  end.

(** What the assumptions of [ntyco_refines] exclude.  [epoll_wait] failing with
    EBADF, EFAULT or EINVAL reaches [assert(0)].  Without memory for the argument
    of the server a NULL is dereferenced; without memory for the shared stack or
    for the saved stack of the server or of a reader, an assertion fails. *)
Theorem ntyco_aborts {E} `{!KvEngine E} (w : world E) :
  (λ e, demo_run w (λ _, 0) (λ _ v, v) 1 [Failed e]) <$> [9; 14; 22] = replicate 3 (Err AssertFail) ∧
  demo_oom w (λ _, 0) <$> [0; 2; 4; 6]%nat = [Err NullDeref; Err AssertFail; Err AssertFail; Err AssertFail].
Proof. split; vm_compute; reflexivity. Qed.

(** Handled in the other order, the same two events are served. *)
Lemma accept_last_is_served {E} `{!KvEngine E} (w : world E) clk :
  demo_run w clk (λ own v, if own then v else 6) 4
    [Ready [accept_event 5 6]; Ready [accept_event 5 7; Event 6 1 [AErr ECONNRESET]]; Ready [Event 7 1 [AData []]]; Ready []]
  = Ok [(7, Closed)].
Proof. vm_compute. reflexivity. Qed.

(** An error after part of a reply went out ends the reply, not the connection:
    [send] reports the part as success. *)
Lemma send_error_truncates {E} `{!KvEngine E} (w : world E) buf sent e :
  (0 < sent)%nat → conn_step (Writing buf sent) [AErr e] w = Ok (Some Reading, w, []).
Proof. intros H. unfold conn_step. cbn. by rewrite bool_decide_eq_false_2 by lia. Qed.

(** Every error of [recv] leaves the connection open. *)
Lemma recv_error_ignored {E} `{!KvEngine E} (w : world E) e :
  conn_step Reading [AErr e] w = Ok (Some Reading, w, []).
Proof. reflexivity. Qed.

(** A coroutine that ends while it is in the tree of sleepers is freed there,
    and the scheduler follows the dangling link in the next round. *)
Lemma sleep_then_exit_faults :
  (_ ← on_n (nty_coroutine_create tt); nty_schedule_run (λ _ : unit, nty_coroutine_sleep 1) 5 5)
    (Rt (Nty None ∅ 0 None None al_good
      (NSys 0 (λ _, 0) (λ _, 4096) [] [AVal 3; AVal 4; AVal 0] ∅ []) tt) ∅) = Err UseAfterFree.
Proof. vm_compute. reflexivity. Qed.

(** Without a socket the server returns: [ntyco_entry] comes back with 0, and
    everything it allocated is freed. *)
Lemma no_socket_ends_clean {E} `{!KvEngine E} (w : world E) clk word :
  match ntyco_entry 10 10 (Rt (demo w clk word [] <| n_sys := n_sys (demo w clk word [])
      <| y_answers := [AVal 3; AVal 4; AVal 0; AErr EMFILE] |> |>) ∅) with
  | Ok (z, r) => z = 0 ∧ n_sched (r_n r) = None ∧ al_live (n_al (r_n r)) = 0 ∧
      y_out (n_sys (r_n r)) = [(3, Closed); (4, Closed)]
  | Err _ => False
  end.
Proof. vm_compute. split_and!; reflexivity. Qed.
