(* ===== verification/IkcpData.v ===== *)
(** * KCP: constants and data (src/third_party/kcp/ikcp.c, ikcp.h)

    Segments, the control block, and record updates for them.  The fields
    [user], [buffer], [congest], [logmask] and [writelog] are left out: the
    flush buffer is scratch space of [ikcp_flush], nothing in the repository
    turns logging on, and [ccops] stays the NULL [ikcp_create] stores because
    [ikcp_setcc] is never called. *)

From S2P Require Import Prelude.

(* src/third_party/kcp/ikcp.c:25-25 IKCP_RTO_NDL *)
Definition IKCP_RTO_NDL := 30.
(* src/third_party/kcp/ikcp.c:26-26 IKCP_RTO_MIN *)
Definition IKCP_RTO_MIN := 100.
(* src/third_party/kcp/ikcp.c:27-27 IKCP_RTO_DEF *)
Definition IKCP_RTO_DEF := 200.
(* src/third_party/kcp/ikcp.c:28-28 IKCP_RTO_MAX *)
Definition IKCP_RTO_MAX := 60000.
(* src/third_party/kcp/ikcp.c:29-29 IKCP_CMD_PUSH *)
Definition IKCP_CMD_PUSH := 81.
(* src/third_party/kcp/ikcp.c:30-30 IKCP_CMD_ACK *)
Definition IKCP_CMD_ACK := 82.
(* src/third_party/kcp/ikcp.c:31-31 IKCP_CMD_WASK *)
Definition IKCP_CMD_WASK := 83.
(* src/third_party/kcp/ikcp.c:32-32 IKCP_CMD_WINS *)
Definition IKCP_CMD_WINS := 84.
(* src/third_party/kcp/ikcp.c:33-33 IKCP_ASK_SEND *)
Definition IKCP_ASK_SEND := 1.
(* src/third_party/kcp/ikcp.c:34-34 IKCP_ASK_TELL *)
Definition IKCP_ASK_TELL := 2.
(* src/third_party/kcp/ikcp.c:35-35 IKCP_WND_SND *)
Definition IKCP_WND_SND := 32.
(* src/third_party/kcp/ikcp.c:36-36 IKCP_WND_RCV *)
Definition IKCP_WND_RCV := 128.
(* src/third_party/kcp/ikcp.c:37-37 IKCP_MTU_DEF *)
Definition IKCP_MTU_DEF := 1400.
(* src/third_party/kcp/ikcp.c:39-39 IKCP_INTERVAL *)
Definition IKCP_INTERVAL := 100.
(* src/third_party/kcp/ikcp.c:40-40 IKCP_OVERHEAD *)
Definition IKCP_OVERHEAD := 24.
(* src/third_party/kcp/ikcp.c:41-41 IKCP_DEADLINK *)
Definition IKCP_DEADLINK := 20.
(* src/third_party/kcp/ikcp.c:42-42 IKCP_THRESH_INIT *)
Definition IKCP_THRESH_INIT := 2.
(* src/third_party/kcp/ikcp.c:43-43 IKCP_THRESH_MIN *)
Definition IKCP_THRESH_MIN := 2.
(* src/third_party/kcp/ikcp.c:44-44 IKCP_PROBE_INIT *)
Definition IKCP_PROBE_INIT := 5000.
(* src/third_party/kcp/ikcp.c:45-45 IKCP_PROBE_LIMIT *)
Definition IKCP_PROBE_LIMIT := 120000.
(* src/third_party/kcp/ikcp.c:46-46 IKCP_FASTACK_LIMIT *)
Definition IKCP_FASTACK_LIMIT := 5.

(* src/third_party/kcp/ikcp.h:274-290 IKCPSEG *)
(** A segment; [seg_data] is the payload behind the flexible array member. *)
Record ikcpseg := Seg {
  seg_conv : Z; seg_cmd : Z; seg_frg : Z; seg_wnd : Z; seg_ts : Z; seg_sn : Z;
  seg_una : Z; seg_len : Z; seg_resendts : Z; seg_rto : Z; seg_fastack : Z; seg_xmit : Z;
  seg_data : list Z;
}.

(* src/third_party/kcp/ikcp.h:321-352 IKCPCB *)
(** The control block.  The intrusive queues are lists, head first; [acklist]
    is the malloc'ed array of (sn, ts) pairs, a cell never written being
    [None]; [output] tells whether the output callback is set. *)
Record ikcpcb := Kcp {
  conv : Z; mtu : Z; mss : Z; state : Z; snd_una : Z; snd_nxt : Z;
  rcv_nxt : Z; ts_recent : Z; ts_lastack : Z; ssthresh : Z; rx_rttval : Z; rx_srtt : Z;
  rx_rto : Z; rx_minrto : Z; snd_wnd : Z; rcv_wnd : Z; rmt_wnd : Z; cwnd : Z;
  probe : Z; current : Z; interval : Z; ts_flush : Z; xmit : Z; nrcv_buf : Z;
  nsnd_buf : Z; nrcv_que : Z; nsnd_que : Z; nodelay : Z; updated : Z; ts_probe : Z;
  probe_wait : Z; dead_link : Z; incr : Z;
  snd_queue : list ikcpseg; rcv_queue : list ikcpseg; snd_buf : list ikcpseg; rcv_buf : list ikcpseg;
  acklist : option (list (option (Z * Z)));
  ackcount : Z; ackblock : Z; ackedlen : Z; fastresend : Z; fastlimit : Z; nocwnd : Z;
  stream : Z;
  output : bool;
}.

(** ** Record updates *)

Definition ikcpseg_eta (r : ikcpseg) : ikcpseg :=
  Seg (seg_conv r) (seg_cmd r) (seg_frg r) (seg_wnd r) (seg_ts r) (seg_sn r) (seg_una r)
    (seg_len r) (seg_resendts r) (seg_rto r) (seg_fastack r) (seg_xmit r) (seg_data r).

Ltac seg_setter p := let e := eval unfold ikcpseg_eta in ikcpseg_eta in build_setter e p.

#[global] Instance set_seg_conv : Setter seg_conv.
Proof. seg_setter seg_conv. Defined.
#[global] Instance set_seg_cmd : Setter seg_cmd.
Proof. seg_setter seg_cmd. Defined.
#[global] Instance set_seg_frg : Setter seg_frg.
Proof. seg_setter seg_frg. Defined.
#[global] Instance set_seg_wnd : Setter seg_wnd.
Proof. seg_setter seg_wnd. Defined.
#[global] Instance set_seg_ts : Setter seg_ts.
Proof. seg_setter seg_ts. Defined.
#[global] Instance set_seg_sn : Setter seg_sn.
Proof. seg_setter seg_sn. Defined.
#[global] Instance set_seg_una : Setter seg_una.
Proof. seg_setter seg_una. Defined.
#[global] Instance set_seg_len : Setter seg_len.
Proof. seg_setter seg_len. Defined.
#[global] Instance set_seg_resendts : Setter seg_resendts.
Proof. seg_setter seg_resendts. Defined.
#[global] Instance set_seg_rto : Setter seg_rto.
Proof. seg_setter seg_rto. Defined.
#[global] Instance set_seg_fastack : Setter seg_fastack.
Proof. seg_setter seg_fastack. Defined.
#[global] Instance set_seg_xmit : Setter seg_xmit.
Proof. seg_setter seg_xmit. Defined.
#[global] Instance set_seg_data : Setter seg_data.
Proof. seg_setter seg_data. Defined.

(** Reduce projections of updated records. *)
Ltac sred :=
  cbn [upd set_seg_conv set_seg_cmd set_seg_frg set_seg_wnd set_seg_ts set_seg_sn set_seg_una
    set_seg_len set_seg_resendts set_seg_rto set_seg_fastack set_seg_xmit set_seg_data
    seg_conv seg_cmd seg_frg seg_wnd seg_ts seg_sn seg_una seg_len seg_resendts seg_rto
    seg_fastack seg_xmit seg_data].
Ltac sred_in H :=
  cbn [upd set_seg_conv set_seg_cmd set_seg_frg set_seg_wnd set_seg_ts set_seg_sn set_seg_una
    set_seg_len set_seg_resendts set_seg_rto set_seg_fastack set_seg_xmit set_seg_data
    seg_conv seg_cmd seg_frg seg_wnd seg_ts seg_sn seg_una seg_len seg_resendts seg_rto
    seg_fastack seg_xmit seg_data] in H.

Definition ikcpcb_eta (r : ikcpcb) : ikcpcb :=
  Kcp (conv r) (mtu r) (mss r) (state r) (snd_una r) (snd_nxt r) (rcv_nxt r) (ts_recent r)
    (ts_lastack r) (ssthresh r) (rx_rttval r) (rx_srtt r) (rx_rto r) (rx_minrto r) (snd_wnd r)
    (rcv_wnd r) (rmt_wnd r) (cwnd r) (probe r) (current r) (interval r) (ts_flush r) (xmit r)
    (nrcv_buf r) (nsnd_buf r) (nrcv_que r) (nsnd_que r) (nodelay r) (updated r) (ts_probe r)
    (probe_wait r) (dead_link r) (incr r) (snd_queue r) (rcv_queue r) (snd_buf r) (rcv_buf r)
    (acklist r) (ackcount r) (ackblock r) (ackedlen r) (fastresend r) (fastlimit r) (nocwnd r)
    (stream r) (output r).

Ltac kcp_setter p := let e := eval unfold ikcpcb_eta in ikcpcb_eta in build_setter e p.

#[global] Instance set_conv : Setter conv.
Proof. kcp_setter conv. Defined.
#[global] Instance set_mtu : Setter mtu.
Proof. kcp_setter mtu. Defined.
#[global] Instance set_mss : Setter mss.
Proof. kcp_setter mss. Defined.
#[global] Instance set_state : Setter state.
Proof. kcp_setter state. Defined.
#[global] Instance set_snd_una : Setter snd_una.
Proof. kcp_setter snd_una. Defined.
#[global] Instance set_snd_nxt : Setter snd_nxt.
Proof. kcp_setter snd_nxt. Defined.
#[global] Instance set_rcv_nxt : Setter rcv_nxt.
Proof. kcp_setter rcv_nxt. Defined.
#[global] Instance set_ts_recent : Setter ts_recent.
Proof. kcp_setter ts_recent. Defined.
#[global] Instance set_ts_lastack : Setter ts_lastack.
Proof. kcp_setter ts_lastack. Defined.
#[global] Instance set_ssthresh : Setter ssthresh.
Proof. kcp_setter ssthresh. Defined.
#[global] Instance set_rx_rttval : Setter rx_rttval.
Proof. kcp_setter rx_rttval. Defined.
#[global] Instance set_rx_srtt : Setter rx_srtt.
Proof. kcp_setter rx_srtt. Defined.
#[global] Instance set_rx_rto : Setter rx_rto.
Proof. kcp_setter rx_rto. Defined.
#[global] Instance set_rx_minrto : Setter rx_minrto.
Proof. kcp_setter rx_minrto. Defined.
#[global] Instance set_snd_wnd : Setter snd_wnd.
Proof. kcp_setter snd_wnd. Defined.
#[global] Instance set_rcv_wnd : Setter rcv_wnd.
Proof. kcp_setter rcv_wnd. Defined.
#[global] Instance set_rmt_wnd : Setter rmt_wnd.
Proof. kcp_setter rmt_wnd. Defined.
#[global] Instance set_cwnd : Setter cwnd.
Proof. kcp_setter cwnd. Defined.
#[global] Instance set_probe : Setter probe.
Proof. kcp_setter probe. Defined.
#[global] Instance set_current : Setter current.
Proof. kcp_setter current. Defined.
#[global] Instance set_interval : Setter interval.
Proof. kcp_setter interval. Defined.
#[global] Instance set_ts_flush : Setter ts_flush.
Proof. kcp_setter ts_flush. Defined.
#[global] Instance set_xmit : Setter xmit.
Proof. kcp_setter xmit. Defined.
#[global] Instance set_nrcv_buf : Setter nrcv_buf.
Proof. kcp_setter nrcv_buf. Defined.
#[global] Instance set_nsnd_buf : Setter nsnd_buf.
Proof. kcp_setter nsnd_buf. Defined.
#[global] Instance set_nrcv_que : Setter nrcv_que.
Proof. kcp_setter nrcv_que. Defined.
#[global] Instance set_nsnd_que : Setter nsnd_que.
Proof. kcp_setter nsnd_que. Defined.
#[global] Instance set_nodelay : Setter nodelay.
Proof. kcp_setter nodelay. Defined.
#[global] Instance set_updated : Setter updated.
Proof. kcp_setter updated. Defined.
#[global] Instance set_ts_probe : Setter ts_probe.
Proof. kcp_setter ts_probe. Defined.
#[global] Instance set_probe_wait : Setter probe_wait.
Proof. kcp_setter probe_wait. Defined.
#[global] Instance set_dead_link : Setter dead_link.
Proof. kcp_setter dead_link. Defined.
#[global] Instance set_incr : Setter incr.
Proof. kcp_setter incr. Defined.
#[global] Instance set_snd_queue : Setter snd_queue.
Proof. kcp_setter snd_queue. Defined.
#[global] Instance set_rcv_queue : Setter rcv_queue.
Proof. kcp_setter rcv_queue. Defined.
#[global] Instance set_snd_buf : Setter snd_buf.
Proof. kcp_setter snd_buf. Defined.
#[global] Instance set_rcv_buf : Setter rcv_buf.
Proof. kcp_setter rcv_buf. Defined.
#[global] Instance set_acklist : Setter acklist.
Proof. kcp_setter acklist. Defined.
#[global] Instance set_ackcount : Setter ackcount.
Proof. kcp_setter ackcount. Defined.
#[global] Instance set_ackblock : Setter ackblock.
Proof. kcp_setter ackblock. Defined.
#[global] Instance set_ackedlen : Setter ackedlen.
Proof. kcp_setter ackedlen. Defined.
#[global] Instance set_fastresend : Setter fastresend.
Proof. kcp_setter fastresend. Defined.
#[global] Instance set_fastlimit : Setter fastlimit.
Proof. kcp_setter fastlimit. Defined.
#[global] Instance set_nocwnd : Setter nocwnd.
Proof. kcp_setter nocwnd. Defined.
#[global] Instance set_stream : Setter stream.
Proof. kcp_setter stream. Defined.
#[global] Instance set_output : Setter output.
Proof. kcp_setter output. Defined.

(** Reduce projections of updated records. *)
Ltac kred :=
  cbn [upd set_conv set_mtu set_mss set_state set_snd_una set_snd_nxt set_rcv_nxt set_ts_recent
    set_ts_lastack set_ssthresh set_rx_rttval set_rx_srtt set_rx_rto set_rx_minrto set_snd_wnd
    set_rcv_wnd set_rmt_wnd set_cwnd set_probe set_current set_interval set_ts_flush set_xmit
    set_nrcv_buf set_nsnd_buf set_nrcv_que set_nsnd_que set_nodelay set_updated set_ts_probe
    set_probe_wait set_dead_link set_incr set_snd_queue set_rcv_queue set_snd_buf set_rcv_buf
    set_acklist set_ackcount set_ackblock set_ackedlen set_fastresend set_fastlimit set_nocwnd
    set_stream set_output conv mtu mss state snd_una snd_nxt rcv_nxt ts_recent ts_lastack
    ssthresh rx_rttval rx_srtt rx_rto rx_minrto snd_wnd rcv_wnd rmt_wnd cwnd probe current
    interval ts_flush xmit nrcv_buf nsnd_buf nrcv_que nsnd_que nodelay updated ts_probe
    probe_wait dead_link incr snd_queue rcv_queue snd_buf rcv_buf acklist ackcount ackblock
    ackedlen fastresend fastlimit nocwnd stream output].
Ltac kred_in H :=
  cbn [upd set_conv set_mtu set_mss set_state set_snd_una set_snd_nxt set_rcv_nxt set_ts_recent
    set_ts_lastack set_ssthresh set_rx_rttval set_rx_srtt set_rx_rto set_rx_minrto set_snd_wnd
    set_rcv_wnd set_rmt_wnd set_cwnd set_probe set_current set_interval set_ts_flush set_xmit
    set_nrcv_buf set_nsnd_buf set_nrcv_que set_nsnd_que set_nodelay set_updated set_ts_probe
    set_probe_wait set_dead_link set_incr set_snd_queue set_rcv_queue set_snd_buf set_rcv_buf
    set_acklist set_ackcount set_ackblock set_ackedlen set_fastresend set_fastlimit set_nocwnd
    set_stream set_output conv mtu mss state snd_una snd_nxt rcv_nxt ts_recent ts_lastack
    ssthresh rx_rttval rx_srtt rx_rto rx_minrto snd_wnd rcv_wnd rmt_wnd cwnd probe current
    interval ts_flush xmit nrcv_buf nsnd_buf nrcv_que nsnd_que nodelay updated ts_probe
    probe_wait dead_link incr snd_queue rcv_queue snd_buf rcv_buf acklist ackcount ackblock
    ackedlen fastresend fastlimit nocwnd stream output] in H.
