(* ===== verification/Ikcp.v ===== *)
(** * KCP: the operations (src/third_party/kcp/ikcp.c)

    Every function of the protocol, with [ccops == NULL] and logging off.  The
    state is the control block together with the allocator of [CRuntime]; each
    call of the output callback is one datagram of the list a flush returns.
    Pointers into buffers are the bytes still ahead of them. *)

From S2P Require Import Prelude CRuntime IkcpData.

Notation K := (prog (world ikcpcb)).

(** ** Words in a byte stream (little endian, as the [memcpy] of an x86 host) *)

(* src/third_party/kcp/ikcp.c ikcp_encode8u *)
Definition ikcp_encode8u (c : Z) : list Z := [u8 c].

(* src/third_party/kcp/ikcp.c ikcp_decode8u *)
Definition ikcp_decode8u (p : list Z) : option (Z * list Z) :=
  match p with
  | b0 :: p' => Some (u8 b0, p')
  | _ => None
  end.

(* src/third_party/kcp/ikcp.c ikcp_encode16u *)
Definition ikcp_encode16u (w : Z) : list Z := [Z.land w 255; u8 (Z.shiftr w 8)].

(* src/third_party/kcp/ikcp.c ikcp_decode16u *)
Definition ikcp_decode16u (p : list Z) : option (Z * list Z) :=
  match p with
  | b0 :: b1 :: p' => Some (u16 (b0 + Z.shiftl b1 8), p')
  | _ => None
  end.

(* src/third_party/kcp/ikcp.c ikcp_encode32u *)
Definition ikcp_encode32u (l : Z) : list Z :=
  [Z.land l 255; Z.land (Z.shiftr l 8) 255; Z.land (Z.shiftr l 16) 255; Z.land (Z.shiftr l 24) 255].

(* src/third_party/kcp/ikcp.c ikcp_decode32u *)
Definition ikcp_decode32u (p : list Z) : option (Z * list Z) :=
  match p with
  | b0 :: b1 :: b2 :: b3 :: p' =>
      let l := u32 b3 in
      let l := u32 (b2 + Z.shiftl l 8) in
      let l := u32 (b1 + Z.shiftl l 8) in
      let l := u32 (b0 + Z.shiftl l 8) in
      Some (l, p')
  | _ => None
  end.

(* src/third_party/kcp/ikcp.c _imin_ *)
Definition _imin_ (a b : Z) : Z := if a <=? b then a else b.
(* src/third_party/kcp/ikcp.c _imax_ *)
Definition _imax_ (a b : Z) : Z := if b <=? a then a else b.
(* src/third_party/kcp/ikcp.c _ibound_ *)
Definition _ibound_ (lower middle upper : Z) : Z := _imin_ (_imax_ lower middle) upper.
(* src/third_party/kcp/ikcp.c _itimediff *)
Definition _itimediff (later earlier : Z) : Z := i32 (u32 (later - earlier)).

(** ** Memory *)

(* src/third_party/kcp/ikcp.c ikcp_malloc *)
(** With no hook installed; [true] when the block was handed out. *)
Definition ikcp_malloc {E} : prog (world E) bool :=
  p ← kvstore_malloc; mret (match p with Some _ => true | None => false end).
(* src/third_party/kcp/ikcp.c ikcp_free *)
Definition ikcp_free {E} : prog (world E) unit := kvstore_free.

(** Free [n] blocks, one after the other. *)
Fixpoint free_n {E} (n : nat) : prog (world E) unit :=
  match n with
  | O => mret tt
  | S n' => _ ← ikcp_free; free_n n'
  end.

Definition get : K ikcpcb := get_eng.
Definition put (k : ikcpcb) : K unit := put_eng k.

(* src/third_party/kcp/ikcp.c ikcp_segment_new *)
(** A segment with its payload; the other fields are indeterminate until the
    caller sets them and are 0 here. *)
Definition ikcp_segment_new (data : list Z) : K (option ikcpseg) :=
  ok ← ikcp_malloc;
  mret (if ok : bool then Some (Seg 0 0 0 0 0 0 0 0 0 0 0 0 data) else None).

(* src/third_party/kcp/ikcp.c ikcp_segment_delete *)
Definition ikcp_segment_delete : K unit := ikcp_free.

(** ** Creation and release *)

(* src/third_party/kcp/ikcp.c:238-292 ikcp_create *)
(** The fields of a new control block. *)
Definition created (conv : Z) : ikcpcb :=
  {|
    conv := conv; snd_una := 0; snd_nxt := 0; rcv_nxt := 0;
    ts_recent := 0; ts_lastack := 0; ts_probe := 0; probe_wait := 0;
    snd_wnd := IKCP_WND_SND; rcv_wnd := IKCP_WND_RCV; rmt_wnd := IKCP_WND_RCV;
    cwnd := 0; incr := 0; probe := 0;
    mtu := IKCP_MTU_DEF; mss := u32 (IKCP_MTU_DEF - IKCP_OVERHEAD); stream := 0;
    snd_queue := []; rcv_queue := []; snd_buf := []; rcv_buf := [];
    nrcv_buf := 0; nsnd_buf := 0; nrcv_que := 0; nsnd_que := 0;
    state := 0; acklist := None; ackblock := 0; ackcount := 0; ackedlen := 0;
    rx_srtt := 0; rx_rttval := 0; rx_rto := IKCP_RTO_DEF; rx_minrto := IKCP_RTO_MIN;
    current := 0; interval := IKCP_INTERVAL; ts_flush := IKCP_INTERVAL;
    nodelay := 0; updated := 0; ssthresh := IKCP_THRESH_INIT;
    fastresend := 0; fastlimit := IKCP_FASTACK_LIMIT; nocwnd := 0; xmit := 0;
    dead_link := IKCP_DEADLINK; output := false |}.

(* src/third_party/kcp/ikcp.c ikcp_create *)
Definition ikcp_create {E} (conv : Z) : prog (world E) (option ikcpcb) :=
  ok ← ikcp_malloc;
  if ok : bool then
    ok2 ← ikcp_malloc;
    if ok2 : bool then
      mret (Some (created conv))
    else
      _ ← ikcp_free; mret None
  else mret None.

(* src/third_party/kcp/ikcp.c ikcp_release *)
Definition ikcp_release : K unit :=
  k ← get;
  _ ← free_n (length (snd_buf k));
  _ ← free_n (length (rcv_buf k));
  _ ← free_n (length (snd_queue k));
  _ ← free_n (length (rcv_queue k));
  _ ← ikcp_free;
  _ ← (if null (acklist k) then mret tt else ikcp_free);
  _ ← put (k <| snd_buf := [] |> <| rcv_buf := [] |> <| snd_queue := [] |> <| rcv_queue := [] |>
             <| nrcv_buf := 0 |> <| nsnd_buf := 0 |> <| nrcv_que := 0 |> <| nsnd_que := 0 |>
             <| ackcount := 0 |> <| acklist := None |>);
  ikcp_free.

(* src/third_party/kcp/ikcp.c ikcp_setoutput *)
(** A callback that is not NULL. *)
Definition ikcp_setoutput : K unit := k ← get; put (k <| output := true |>).

(** ** Receiving *)

(** Lines 462-466: the lengths up to the first segment with [frg == 0]. *)
Fixpoint peek_loop (q : list ikcpseg) (length : Z) : Z :=
  match q with
  | [] => length
  | seg :: q' =>
      let length := i32 (length + seg_len seg) in
      if seg_frg seg =? 0 then length else peek_loop q' length
  end.

(* src/third_party/kcp/ikcp.c ikcp_peeksize *)
Definition ikcp_peeksize (k : ikcpcb) : Z :=
  match rcv_queue k with
  | [] => -1
  | seg :: _ =>
      if seg_frg seg =? 0 then i32 (seg_len seg)
      else if nrcv_que k <? u32 (seg_frg seg + 1) then -1
      else peek_loop (rcv_queue k) 0
  end.

(** Lines 390-415: the bytes copied out, the number of segments visited and
    the value of [len]. *)
Fixpoint merge_loop (q : list ikcpseg) (len : Z) : list Z * nat * Z :=
  match q with
  | [] => ([], 0%nat, len)
  | seg :: q' =>
      let chunk := take (Z.to_nat (seg_len seg)) (seg_data seg) in
      let len := i32 (len + seg_len seg) in
      if seg_frg seg =? 0 then (chunk, 1%nat, len)
      else let '(bytes, n, len) := merge_loop q' len in (chunk ++ bytes, S n, len)
  end.

(* src/third_party/kcp/ikcp.c:751-763 ikcp_parse_data *)
(** The loop that moves segments from [rcv_buf] to [rcv_queue], also lines
    420-431 of [ikcp_recv]. *)
Fixpoint move_loop (buf : list ikcpseg) (k : ikcpcb) : ikcpcb :=
  match buf with
  | [] => k
  | seg :: buf' =>
      if (seg_sn seg =? rcv_nxt k) && (nrcv_que k <? rcv_wnd k) then
        move_loop buf'
          (k <| rcv_buf := buf' |> <| nrcv_buf := u32 (nrcv_buf k - 1) |>
             <| rcv_queue := rcv_queue k ++ [seg] |> <| nrcv_que := u32 (nrcv_que k + 1) |>
             <| rcv_nxt := u32 (rcv_nxt k + 1) |>)
      else k
  end.

(* src/third_party/kcp/ikcp.c ikcp_recv *)
(** The result and the bytes written to [buffer] (not NULL). *)
Definition ikcp_recv (len : Z) : K (Z * list Z) :=
  k ← get;
  let ispeek := len <? 0 in
  match rcv_queue k with
  | [] => mret (-1, [])
  | _ =>
      let len := if len <? 0 then i32 (- len) else len in
      let peeksize := ikcp_peeksize k in
      if peeksize <? 0 then mret (-2, []) else
      if len <? peeksize then mret (-3, []) else
      let recover := rcv_wnd k <=? nrcv_que k in
      let '(bytes, n, len) := merge_loop (rcv_queue k) 0 in
      _ ← (if ispeek then mret tt else free_n n);
      let k := if ispeek then k
               else k <| rcv_queue := drop n (rcv_queue k) |>
                      <| nrcv_que := u32 (nrcv_que k - Z.of_nat n) |> in
      if len =? peeksize then
        let k := move_loop (rcv_buf k) k in
        let k := if (nrcv_que k <? rcv_wnd k) && recover
                 then k <| probe := Z.lor (probe k) IKCP_ASK_TELL |> else k in
        _ ← put k;
        mret (len, bytes)
      else stop AssertFail
  end.

(** ** Sending *)

(** [memcpy(dst, buffer, n)] reading at most the bytes that are there. *)
Definition read_n (buffer : list Z) (n : Z) : K (list Z) :=
  if Z.of_nat (length buffer) <? n then stop OutOfBounds
  else mret (take (Z.to_nat n) buffer).

(* src/third_party/kcp/ikcp.c:526-547 ikcp_send *)
(** The fragmentation loop, [todo = count - i] iterations before its end;
    [None] when [ikcp_segment_new] returned NULL past the [assert]. *)
Fixpoint fragment_loop (todo : nat) (buffer : list Z) (len sent : Z) : K Z :=
  match todo with
  | O => mret sent
  | S todo' =>
      k ← get;
      let size := if i32 (mss k) <? len then i32 (mss k) else len in
      data ← (if 0 <? len then read_n buffer size else mret []);
      seg ← ikcp_segment_new data;
      match seg with
      | None => stop AssertFail
      | Some seg =>
          let seg := seg <| seg_len := u32 size |>
            <| seg_frg := if stream k =? 0 then u32 (Z.of_nat todo') else 0 |> in
          _ ← put (k <| snd_queue := snd_queue k ++ [seg] |> <| nsnd_que := u32 (nsnd_que k + 1) |>);
          fragment_loop todo' (drop (Z.to_nat size) buffer) (len - size) (sent + size)
      end
  end.

(* src/third_party/kcp/ikcp.c:484-513 ikcp_send *)
(** Streaming mode: top up the last queued segment.  The bytes it took. *)
Definition append_last (buffer : list Z) (len : Z) : K Z :=
  k ← get;
  match last (snd_queue k) with
  | None => mret 0
  | Some old =>
      if seg_len old <? mss k then
        let capacity := i32 (u32 (mss k - seg_len old)) in
        let extend := if len <? capacity then len else capacity in
        more ← read_n buffer extend;
        seg ← ikcp_segment_new (take (Z.to_nat (seg_len old)) (seg_data old) ++ more);
        match seg with
        | None => stop AssertFail
        | Some seg =>
            let seg := seg <| seg_len := u32 (seg_len old + extend) |> <| seg_frg := 0 |> in
            _ ← put (k <| snd_queue := removelast (snd_queue k) ++ [seg] |>);
            _ ← ikcp_segment_delete;
            mret extend
        end
      else mret 0
  end.

(* src/third_party/kcp/ikcp.c ikcp_send *)
Definition ikcp_send (buffer : list Z) (len : Z) : K Z :=
  k ← get;
  if mss k <=? 0 then stop AssertFail else
  if len <? 0 then mret (-1) else
  sent ← (if stream k =? 0 then mret 0 else append_last buffer len);
  let buffer := drop (Z.to_nat sent) buffer in
  let len := len - sent in
  if negb (stream k =? 0) && (len <=? 0) then mret sent else
  let count := if len <=? i32 (mss k) then 1
               else i32 (u32 (len + mss k - 1) / mss k) in
  if IKCP_WND_RCV <=? count then
    mret (if negb (stream k =? 0) && (0 <? sent) then sent else -2)
  else
    let count := if count =? 0 then 1 else count in
    fragment_loop (Z.to_nat count) buffer len sent.

(** ** Acknowledgements *)

(* src/third_party/kcp/ikcp.c ikcp_update_ack *)
Definition ikcp_update_ack (k : ikcpcb) (rtt : Z) : ikcpcb :=
  let k :=
    if rx_srtt k =? 0 then k <| rx_srtt := rtt |> <| rx_rttval := Z.quot rtt 2 |>
    else
      let delta := i32 (rtt - rx_srtt k) in
      let delta := if delta <? 0 then - delta else delta in
      let k := k <| rx_rttval := i32 (Z.quot (i32 (3 * rx_rttval k) + delta) 4) |> in
      let k := k <| rx_srtt := Z.quot (i32 (i32 (7 * rx_srtt k) + rtt)) 8 |> in
      if rx_srtt k <? 1 then k <| rx_srtt := 1 |> else k in
  let rto := i32 (u32 (rx_srtt k + _imax_ (interval k) (u32 (i32 (4 * rx_rttval k))))) in
  k <| rx_rto := i32 (_ibound_ (u32 (rx_minrto k)) (u32 rto) IKCP_RTO_MAX) |>.

(* src/third_party/kcp/ikcp.c ikcp_shrink_buf *)
Definition ikcp_shrink_buf (k : ikcpcb) : ikcpcb :=
  match snd_buf k with
  | seg :: _ => k <| snd_una := seg_sn seg |>
  | [] => k <| snd_una := snd_nxt k |>
  end.

(** Lines 595-616: the segment removed, if any, and the list without it. *)
Fixpoint ack_loop (sn : Z) (buf : list ikcpseg) : option ikcpseg * list ikcpseg :=
  match buf with
  | [] => (None, [])
  | seg :: buf' =>
      if sn =? seg_sn seg then (Some seg, buf')
      else if _itimediff sn (seg_sn seg) <? 0 then (None, buf)
      else let '(o, r) := ack_loop sn buf' in (o, seg :: r)
  end.

(* src/third_party/kcp/ikcp.c ikcp_parse_ack *)
Definition ikcp_parse_ack (sn : Z) : K unit :=
  k ← get;
  if (_itimediff sn (snd_una k) <? 0) || (0 <=? _itimediff sn (snd_nxt k)) then mret tt else
  match ack_loop sn (snd_buf k) with
  | (None, _) => mret tt
  | (Some seg, buf) =>
      _ ← ikcp_segment_delete;
      put (k <| ackedlen := u32 (ackedlen k + seg_len seg) |> <| snd_buf := buf |>
             <| nsnd_buf := u32 (nsnd_buf k - 1) |>)
  end.

(** Lines 622-637: the acknowledged front of the list and the rest. *)
Fixpoint una_loop (una : Z) (buf : list ikcpseg) : list ikcpseg * list ikcpseg :=
  match buf with
  | [] => ([], [])
  | seg :: buf' =>
      if 0 <? _itimediff una (seg_sn seg)
      then let '(a, r) := una_loop una buf' in (seg :: a, r)
      else ([], buf)
  end.

(* src/third_party/kcp/ikcp.c ikcp_parse_una *)
Definition ikcp_parse_una (una : Z) : K unit :=
  k ← get;
  let '(acked, buf) := una_loop una (snd_buf k) in
  _ ← free_n (length acked);
  put (k <| ackedlen := u32 (ackedlen k + foldr (λ s n, seg_len s + n) 0 acked) |>
         <| snd_buf := buf |> <| nsnd_buf := u32 (nsnd_buf k - Z.of_nat (length acked)) |>).

(** Lines 647-661. *)
Fixpoint fastack_loop (sn ts : Z) (buf : list ikcpseg) : list ikcpseg :=
  match buf with
  | [] => []
  | seg :: buf' =>
      if _itimediff sn (seg_sn seg) <? 0 then buf
      else if negb (sn =? seg_sn seg) && (0 <=? _itimediff ts (seg_ts seg))
      then seg <| seg_fastack := u32 (seg_fastack seg + 1) |> :: fastack_loop sn ts buf'
      else seg :: fastack_loop sn ts buf'
  end.

(* src/third_party/kcp/ikcp.c ikcp_parse_fastack *)
Definition ikcp_parse_fastack (k : ikcpcb) (sn ts : Z) : ikcpcb :=
  if (_itimediff sn (snd_una k) <? 0) || (0 <=? _itimediff sn (snd_nxt k)) then k
  else k <| snd_buf := fastack_loop sn ts (snd_buf k) |>.

(** Line 677; 32 doublings exhaust the word. *)
Fixpoint newblock_loop (fuel : nat) (newblock newsize : Z) : Z :=
  match fuel with
  | O => newblock
  | S fuel' => if newblock <? newsize then newblock_loop fuel' (u32 (Z.shiftl newblock 1)) newsize
               else newblock
  end.

(* src/third_party/kcp/ikcp.c:673-696 ikcp_ack_push *)
(** Grow the array to hold one more pair. *)
Definition grow_acklist : K unit :=
  k ← get;
  let newsize := u32 (ackcount k + 1) in
  if ackblock k <? newsize then
    let newblock := newblock_loop 32 8 newsize in
    ok ← ikcp_malloc;
    if ok : bool then
      let kept := match acklist k with Some l => take (Z.to_nat (ackcount k)) l | None => [] end in
      _ ← (if null (acklist k) then mret tt else ikcp_free);
      put (k <| acklist := Some (kept ++ replicate (Z.to_nat newblock - length kept) None) |>
             <| ackblock := newblock |>)
    else stop AssertFail
  else mret tt.

(* src/third_party/kcp/ikcp.c ikcp_ack_push *)
Definition ikcp_ack_push (sn ts : Z) : K unit :=
  _ ← grow_acklist;
  k ← get;
  match acklist k with
  | None => stop NullDeref
  | Some l =>
      if Z.of_nat (length l) <=? ackcount k then stop OutOfBounds else
      put (k <| acklist := Some (<[Z.to_nat (ackcount k) := Some (sn, ts)]> l) |>
             <| ackcount := u32 (ackcount k + 1) |>)
  end.

(* src/third_party/kcp/ikcp.c ikcp_ack_get *)
Definition ikcp_ack_get (k : ikcpcb) (p : nat) : result (Z * Z) :=
  match acklist k with
  | None => Err NullDeref
  | Some l => match l !! p with
              | None => Err OutOfBounds
              | Some None => Err UninitRead
              | Some (Some x) => Ok x
              end
  end.

(** ** Input *)

(* src/third_party/kcp/ikcp.c:726-744 ikcp_parse_data *)
(** The scan from the tail of [rcv_buf] (here the list is reversed): [None]
    for a repeated number, otherwise the list with [newseg] linked in. *)
Fixpoint insert_rev (newseg : ikcpseg) (rbuf : list ikcpseg) : option (list ikcpseg) :=
  match rbuf with
  | [] => Some [newseg]
  | seg :: rbuf' =>
      if seg_sn seg =? seg_sn newseg then None
      else if 0 <? _itimediff (seg_sn newseg) (seg_sn seg) then Some (newseg :: rbuf)
      else cons seg <$> insert_rev newseg rbuf'
  end.

(* src/third_party/kcp/ikcp.c ikcp_parse_data *)
Definition ikcp_parse_data (newseg : ikcpseg) : K unit :=
  k ← get;
  let sn := seg_sn newseg in
  if (0 <=? _itimediff sn (u32 (rcv_nxt k + rcv_wnd k))) || (_itimediff sn (rcv_nxt k) <? 0)
  then ikcp_segment_delete
  else
    k ← (match insert_rev newseg (reverse (rcv_buf k)) with
         | Some rbuf => mret (k <| rcv_buf := reverse rbuf |> <| nrcv_buf := u32 (nrcv_buf k + 1) |>)
         | None => _ ← ikcp_segment_delete; mret k
         end);
    put (move_loop (rcv_buf k) k).

(** A decoded header. *)
Record header := Header {
  h_conv : Z; h_cmd : Z; h_frg : Z; h_wnd : Z; h_ts : Z; h_sn : Z; h_una : Z; h_len : Z;
}.

(* src/third_party/kcp/ikcp.c:804-813 ikcp_input *)
Definition decode_header (data : list Z) : option (header * list Z) :=
  '(conv, data) ← ikcp_decode32u data;
  '(cmd, data) ← ikcp_decode8u data;
  '(frg, data) ← ikcp_decode8u data;
  '(wnd, data) ← ikcp_decode16u data;
  '(ts, data) ← ikcp_decode32u data;
  '(sn, data) ← ikcp_decode32u data;
  '(una, data) ← ikcp_decode32u data;
  '(len, data) ← ikcp_decode32u data;
  Some (Header conv cmd frg wnd ts sn una len, data).

(** The locals [flag], [maxack] and [latest_ts]. *)
Record acks := Acks { flag : bool; maxack : Z; latest_ts : Z }.

(* src/third_party/kcp/ikcp.c:827-849 ikcp_input *)
Definition input_ack (h : header) (a : acks) : K acks :=
  k ← get;
  let rtt := _itimediff (current k) (h_ts h) in
  _ ← put (if 0 <=? rtt then ikcp_update_ack k rtt else k);
  _ ← ikcp_parse_ack (h_sn h);
  k ← get;
  _ ← put (ikcp_shrink_buf k);
  mret (if flag a then
          if (0 <? _itimediff (h_sn h) (maxack a)) && (0 <? _itimediff (h_ts h) (latest_ts a))
          then Acks true (h_sn h) (h_ts h) else a
        else Acks true (h_sn h) (h_ts h)).

(* src/third_party/kcp/ikcp.c:857-882 ikcp_input *)
(** [payload] are the [len] bytes after the header. *)
Definition input_push (h : header) (payload : list Z) : K unit :=
  k ← get;
  if _itimediff (h_sn h) (u32 (rcv_nxt k + rcv_wnd k)) <? 0 then
    _ ← ikcp_ack_push (h_sn h) (h_ts h);
    k ← get;
    if 0 <=? _itimediff (h_sn h) (rcv_nxt k) then
      seg ← ikcp_segment_new payload;
      match seg with
      | None => stop NullDeref
      | Some seg =>
          ikcp_parse_data
            (seg <| seg_conv := h_conv h |> <| seg_cmd := h_cmd h |> <| seg_frg := h_frg h |>
                 <| seg_wnd := h_wnd h |> <| seg_ts := h_ts h |> <| seg_sn := h_sn h |>
                 <| seg_una := h_una h |> <| seg_len := h_len h |>)
      end
    else mret tt
  else mret tt.

(* src/third_party/kcp/ikcp.c:823-900 ikcp_input *)
(** The work for one segment whose header passed the checks. *)
Definition input_segment (h : header) (payload : list Z) (a : acks) : K acks :=
  k ← get;
  _ ← put (k <| rmt_wnd := h_wnd h |>);
  _ ← ikcp_parse_una (h_una h);
  k ← get;
  _ ← put (ikcp_shrink_buf k);
  if h_cmd h =? IKCP_CMD_ACK then input_ack h a
  else if h_cmd h =? IKCP_CMD_PUSH then _ ← input_push h payload; mret a
  else if h_cmd h =? IKCP_CMD_WASK then
    k ← get;
    _ ← put (k <| probe := Z.lor (probe k) IKCP_ASK_TELL |>);
    mret a
  else mret a.

(* src/third_party/kcp/ikcp.c:796-904 ikcp_input *)
(** The loop over the segments of a datagram: [inl ret] for an early return,
    [inr] the locals at the end.  Every segment takes at least
    [IKCP_OVERHEAD] bytes, so the length bounds the iterations. *)
Fixpoint input_loop (fuel : nat) (data : list Z) (a : acks) : K (Z + acks) :=
  match fuel with
  | O => mret (inr a)
  | S fuel' =>
      if Z.of_nat (length data) <? IKCP_OVERHEAD then mret (inr a) else
      match decode_header data with
      | None => stop OutOfBounds
      | Some (h, data) =>
          k ← get;
          if negb (h_conv h =? conv k) then mret (inl (-1)) else
          if (Z.of_nat (length data) <? h_len h) || (i32 (h_len h) <? 0) then mret (inl (-2)) else
          if negb (h_cmd h =? IKCP_CMD_PUSH) && negb (h_cmd h =? IKCP_CMD_ACK) &&
             negb (h_cmd h =? IKCP_CMD_WASK) && negb (h_cmd h =? IKCP_CMD_WINS)
          then mret (inl (-3)) else
          a ← input_segment h (take (Z.to_nat (h_len h)) data) a;
          input_loop fuel' (drop (Z.to_nat (h_len h)) data) a
      end
  end.

(* src/third_party/kcp/ikcp.c:918-938 ikcp_input *)
(** Growth of the congestion window after new data was acknowledged. *)
Definition grow_cwnd (k : ikcpcb) : ikcpcb :=
  if rmt_wnd k <=? cwnd k then k else
  let k :=
    if cwnd k <? ssthresh k
    then k <| cwnd := u32 (cwnd k + 1) |> <| incr := u32 (incr k + mss k) |>
    else
      let k := if incr k <? mss k then k <| incr := mss k |> else k in
      let k := k <| incr := u32 (incr k + (u32 (mss k * mss k) / incr k + mss k / 16)) |> in
      if u32 (u32 (cwnd k + 1) * mss k) <=? incr k
      then k <| cwnd := u32 (incr k + mss k - 1) / (if 0 <? mss k then mss k else 1) |>
      else k in
  if rmt_wnd k <? cwnd k
  then k <| cwnd := rmt_wnd k |> <| incr := u32 (rmt_wnd k * mss k) |>
  else k.

(* src/third_party/kcp/ikcp.c ikcp_input *)
(** [size] is the length of [data], which is not NULL. *)
Definition ikcp_input (data : list Z) : K Z :=
  k ← get;
  let prev_una := snd_una k in
  _ ← put (k <| ackedlen := 0 |>);
  if i32 (Z.of_nat (length data)) <? IKCP_OVERHEAD then mret (-1) else
  r ← input_loop (S (length data)) data (Acks false 0 0);
  match r with
  | inl ret => mret ret
  | inr a =>
      k ← get;
      let k := if flag a then ikcp_parse_fastack k (maxack a) (latest_ts a) else k in
      _ ← put (if 0 <? _itimediff (snd_una k) prev_una then grow_cwnd k else k);
      mret 0
  end.

(** ** Output *)

(* src/third_party/kcp/ikcp.c ikcp_encode_seg *)
Definition ikcp_encode_seg (seg : ikcpseg) : list Z :=
  ikcp_encode32u (seg_conv seg) ++ ikcp_encode8u (seg_cmd seg) ++ ikcp_encode8u (seg_frg seg) ++
  ikcp_encode16u (u16 (seg_wnd seg)) ++ ikcp_encode32u (seg_ts seg) ++ ikcp_encode32u (seg_sn seg) ++
  ikcp_encode32u (seg_una seg) ++ ikcp_encode32u (seg_len seg).

(* src/third_party/kcp/ikcp.c ikcp_wnd_unused *)
Definition ikcp_wnd_unused (k : ikcpcb) : Z :=
  if nrcv_que k <? rcv_wnd k then i32 (u32 (rcv_wnd k - nrcv_que k)) else 0.

(** The flush buffer from [buffer] to [ptr], and the datagrams handed to the
    callback so far. *)
Record outbuf := Out { pending : list Z; sent : list (list Z) }.

(* src/third_party/kcp/ikcp.c ikcp_output *)
(** Hand the pending bytes to the callback, which is not called for size 0. *)
Definition ikcp_output (o : outbuf) : K outbuf :=
  k ← get;
  if output k then
    mret (if (length (pending o) =? 0)%nat then o else Out [] (sent o ++ [pending o]))
  else stop AssertFail.

(* src/third_party/kcp/ikcp.c:1320-1320 ikcp_setmtu *)
(** The bytes [ikcp_create] and [ikcp_setmtu] allocate for [buffer], as a 32-bit
    product. *)
Definition buffer_size (k : ikcpcb) : Z := u32 ((mtu k + IKCP_OVERHEAD) * 3).

(* src/third_party/kcp/ikcp.c:1015-1021 ikcp_flush *)
(** Flush when [need] more bytes exceed the MTU, then append [bytes], which must
    fit the buffer; the same block is at 1051-1056, 1062-1067 and 1166-1179. *)
Definition append_seg (bytes : list Z) (need : Z) (o : outbuf) : K outbuf :=
  k ← get;
  o ← (if i32 (mtu k) <? Z.of_nat (length (pending o)) + need
       then o' ← ikcp_output o; mret (Out [] (sent o')) else mret o);
  if buffer_size k <? Z.of_nat (length (pending o) + length bytes) then stop OutOfBounds else
  mret (Out (pending o ++ bytes) (sent o)).

(* src/third_party/kcp/ikcp.c:1012-1022 ikcp_flush *)
(** Acknowledgements [i .. i + n]. *)
Fixpoint flush_acks (n i : nat) (seg : ikcpseg) (o : outbuf) : K (ikcpseg * outbuf) :=
  match n with
  | O => mret (seg, o)
  | S n' =>
      k ← get;
      match ikcp_ack_get k i with
      | Err e => stop e
      | Ok (sn, ts) =>
          let seg := seg <| seg_sn := sn |> <| seg_ts := ts |> in
          o ← append_seg (ikcp_encode_seg seg) IKCP_OVERHEAD o;
          flush_acks n' (S i) seg o
      end
  end.

(* src/third_party/kcp/ikcp.c:1026-1046 ikcp_flush *)
Definition probe_timer (k : ikcpcb) : ikcpcb :=
  if rmt_wnd k =? 0 then
    if probe_wait k =? 0 then
      k <| probe_wait := IKCP_PROBE_INIT |> <| ts_probe := u32 (current k + IKCP_PROBE_INIT) |>
    else if 0 <=? _itimediff (current k) (ts_probe k) then
      let w := if probe_wait k <? IKCP_PROBE_INIT then IKCP_PROBE_INIT else probe_wait k in
      let w := u32 (w + w / 2) in
      let w := if IKCP_PROBE_LIMIT <? w then IKCP_PROBE_LIMIT else w in
      k <| probe_wait := w |> <| ts_probe := u32 (current k + w) |>
        <| probe := Z.lor (probe k) IKCP_ASK_SEND |>
    else k
  else k <| ts_probe := 0 |> <| probe_wait := 0 |>.

(* src/third_party/kcp/ikcp.c:1048-1068 ikcp_flush *)
Definition flush_probes (seg : ikcpseg) (o : outbuf) : K outbuf :=
  k ← get;
  o ← (if Z.land (probe k) IKCP_ASK_SEND =? 0 then mret o
       else append_seg (ikcp_encode_seg (seg <| seg_cmd := IKCP_CMD_WASK |>)) IKCP_OVERHEAD o);
  if Z.land (probe k) IKCP_ASK_TELL =? 0 then mret o
  else append_seg (ikcp_encode_seg (seg <| seg_cmd := IKCP_CMD_WINS |>)) IKCP_OVERHEAD o.

(* src/third_party/kcp/ikcp.c:1073-1074 ikcp_flush *)
Definition send_window (k : ikcpcb) : Z :=
  let c := _imin_ (snd_wnd k) (rmt_wnd k) in
  if nocwnd k =? 0 then _imin_ (cwnd k) c else c.

(* src/third_party/kcp/ikcp.c:1076-1098 ikcp_flush *)
(** Number the queued segments that fit the window and move them to
    [snd_buf]. *)
Fixpoint fill_window (queue : list ikcpseg) (window wnd : Z) (k : ikcpcb) : ikcpcb :=
  match queue with
  | [] => k
  | newseg :: queue' =>
      if _itimediff (snd_nxt k) (u32 (snd_una k + window)) <? 0 then
        let newseg :=
          newseg <| seg_conv := conv k |> <| seg_cmd := IKCP_CMD_PUSH |> <| seg_wnd := wnd |>
                 <| seg_ts := current k |> <| seg_sn := snd_nxt k |> <| seg_una := rcv_nxt k |>
                 <| seg_resendts := current k |> <| seg_rto := u32 (rx_rto k) |>
                 <| seg_fastack := 0 |> <| seg_xmit := 0 |> in
        fill_window queue' window wnd
          (k <| snd_queue := queue' |> <| snd_buf := snd_buf k ++ [newseg] |>
             <| nsnd_que := u32 (nsnd_que k - 1) |> <| nsnd_buf := u32 (nsnd_buf k + 1) |>
             <| snd_nxt := u32 (snd_nxt k + 1) |>)
      else k
  end.

(** Why a segment is transmitted now. *)
Inductive reason := Not_now | First | Timeout | Fast.

(* src/third_party/kcp/ikcp.c:1119-1149 ikcp_flush *)
(** The decision for one segment, with its new timers. *)
Definition schedule_seg (k : ikcpcb) (resent rtomin : Z) (s : ikcpseg) : reason * ikcpseg :=
  let now := current k in
  if seg_xmit s =? 0 then
    (First, s <| seg_xmit := u32 (seg_xmit s + 1) |> <| seg_rto := u32 (rx_rto k) |>
              <| seg_resendts := u32 (now + u32 (rx_rto k) + rtomin) |>)
  else if 0 <=? _itimediff now (seg_resendts s) then
    let rto :=
      if nodelay k =? 0 then u32 (seg_rto s + _imax_ (seg_rto s) (u32 (rx_rto k)))
      else let step := if nodelay k <? 2 then i32 (seg_rto s) else rx_rto k in
           u32 (seg_rto s + Z.quot step 2) in
    (Timeout, s <| seg_xmit := u32 (seg_xmit s + 1) |> <| seg_rto := rto |>
                <| seg_resendts := u32 (now + rto) |>)
  else if (resent <=? seg_fastack s) &&
          ((i32 (seg_xmit s) <=? fastlimit k) || (fastlimit k <=? 0)) then
    (Fast, s <| seg_xmit := u32 (seg_xmit s + 1) |> <| seg_fastack := 0 |>
             <| seg_resendts := u32 (now + seg_rto s) |>)
  else (Not_now, s).

(** The locals [change] and [lost]. *)
Record losses := Losses { change : Z; lost : bool }.

(* src/third_party/kcp/ikcp.c:1116-1189 ikcp_flush *)
(** Transmit the segments of [snd_buf] that are due; [done] are the ones
    already visited, in order. *)
Fixpoint flush_data (todo : list ikcpseg) (resent rtomin wnd : Z)
    (done : list ikcpseg) (o : outbuf) (l : losses) : K (outbuf * losses) :=
  match todo with
  | [] => mret (o, l)
  | s :: todo' =>
      k ← get;
      let '(why, s) := schedule_seg k resent rtomin s in
      let l := Losses (match why with Fast => i32 (change l + 1) | _ => change l end)
                      (match why with Timeout => true | _ => lost l end) in
      let k := match why with Timeout => k <| xmit := u32 (xmit k + 1) |> | _ => k end in
      let s := match why with
               | Not_now => s
               | _ => s <| seg_ts := current k |> <| seg_wnd := wnd |> <| seg_una := rcv_nxt k |>
               end in
      _ ← put (k <| snd_buf := done ++ s :: todo' |>);
      o ← match why with
          | Not_now => mret o
          | _ => append_seg (ikcp_encode_seg s ++ take (Z.to_nat (seg_len s)) (seg_data s))
                   (i32 (u32 (IKCP_OVERHEAD + seg_len s))) o
          end;
      k ← get;
      _ ← put (match why with
               | Not_now => k
               | _ => if dead_link k <=? seg_xmit s then k <| state := u32 (-1) |> else k
               end);
      flush_data todo' resent rtomin wnd (done ++ [s]) o l
  end.

(* src/third_party/kcp/ikcp.c:1197-1229 ikcp_flush *)
Definition after_losses (k : ikcpcb) (l : losses) (resent prior_cwnd : Z) : ikcpcb :=
  let k :=
    if change l =? 0 then k else
    let inflight := u32 (snd_nxt k - snd_una k) in
    let th := if inflight / 2 <? IKCP_THRESH_MIN then IKCP_THRESH_MIN else inflight / 2 in
    let k := k <| ssthresh := th |> <| cwnd := u32 (th + resent) |> in
    k <| incr := u32 (cwnd k * mss k) |> in
  let k :=
    if lost l then
      let th := if prior_cwnd / 2 <? IKCP_THRESH_MIN then IKCP_THRESH_MIN else prior_cwnd / 2 in
      k <| ssthresh := th |> <| cwnd := 1 |> <| incr := mss k |>
    else k in
  if cwnd k <? 1 then k <| cwnd := 1 |> <| incr := mss k |> else k.

(* src/third_party/kcp/ikcp.c ikcp_flush *)
(** The datagrams handed to the output callback, in order. *)
Definition ikcp_flush : K (list (list Z)) :=
  k ← get;
  if updated k =? 0 then mret [] else
  let prior_cwnd := cwnd k in
  let wnd := ikcp_wnd_unused k in
  let seg := Seg (conv k) IKCP_CMD_ACK 0 (u32 wnd) 0 0 (rcv_nxt k) 0 0 0 0 0 [] in
  '(seg, o) ← flush_acks (Z.to_nat (ackcount k)) 0 seg (Out [] []);
  k ← get;
  _ ← put (probe_timer (k <| ackcount := 0 |>));
  o ← flush_probes seg o;
  k ← get;
  let k := k <| probe := 0 |> in
  let k := fill_window (snd_queue k) (send_window k) (u32 wnd) k in
  _ ← put k;
  let resent := if 0 <? fastresend k then u32 (fastresend k) else 4294967295 in
  let rtomin := if nodelay k =? 0 then Z.shiftr (rx_rto k) 3 else 0 in
  '(o, l) ← flush_data (snd_buf k) resent (u32 rtomin) (u32 wnd) [] o (Losses 0 false);
  o ← (if (length (pending o) =? 0)%nat then mret o else ikcp_output o);
  k ← get;
  _ ← put (after_losses k l resent prior_cwnd);
  mret (sent o).

(** ** Timers *)

(* src/third_party/kcp/ikcp.c ikcp_update *)
Definition ikcp_update (now : Z) : K (list (list Z)) :=
  k ← get;
  let k := k <| current := now |> in
  let k := if updated k =? 0 then k <| updated := 1 |> <| ts_flush := current k |> else k in
  let slap := _itimediff (current k) (ts_flush k) in
  let '(k, slap) :=
    if (10000 <=? slap) || (slap <? -10000) then (k <| ts_flush := current k |>, 0) else (k, slap) in
  if 0 <=? slap then
    let k := k <| ts_flush := u32 (ts_flush k + interval k) |> in
    let k := if 0 <=? _itimediff (current k) (ts_flush k)
             then k <| ts_flush := u32 (current k + interval k) |> else k in
    _ ← put k;
    ikcp_flush
  else
    _ ← put k;
    mret [].

(** Lines 1298-1305: [None] when a segment is due. *)
Fixpoint check_loop (buf : list ikcpseg) (now tm_packet : Z) : option Z :=
  match buf with
  | [] => Some tm_packet
  | seg :: buf' =>
      let diff := _itimediff (seg_resendts seg) now in
      if diff <=? 0 then None
      else check_loop buf' now (if diff <? tm_packet then diff else tm_packet)
  end.

(* src/third_party/kcp/ikcp.c ikcp_check *)
Definition ikcp_check (k : ikcpcb) (now : Z) : Z :=
  if updated k =? 0 then now else
  let ts_flush := if (10000 <=? _itimediff now (ts_flush k)) || (_itimediff now (ts_flush k) <? -10000)
                  then now else ts_flush k in
  if 0 <=? _itimediff now ts_flush then now else
  let tm_flush := _itimediff ts_flush now in
  match check_loop (snd_buf k) now 2147483647 with
  | None => now
  | Some tm_packet =>
      let minimal := u32 (if tm_packet <? tm_flush then tm_packet else tm_flush) in
      let minimal := if interval k <=? minimal then interval k else minimal in
      u32 (now + minimal)
  end.

(** ** Settings *)

(* src/third_party/kcp/ikcp.c ikcp_setmtu *)
Definition ikcp_setmtu (m : Z) : K Z :=
  if (m <? 50) || (m <? IKCP_OVERHEAD) then mret (-1) else
  ok ← ikcp_malloc;
  if ok : bool then
    k ← get;
    _ ← put (k <| mtu := m |> <| mss := u32 (m - IKCP_OVERHEAD) |>);
    _ ← ikcp_free;
    mret 0
  else mret (-2).

Definition clamp_interval (i : Z) : Z := if 5000 <? i then 5000 else if i <? 10 then 10 else i.

(* src/third_party/kcp/ikcp.c ikcp_interval *)
Definition ikcp_interval (i : Z) : K Z :=
  k ← get; _ ← put (k <| interval := clamp_interval i |>); mret 0.

(* src/third_party/kcp/ikcp.c ikcp_nodelay *)
Definition ikcp_nodelay (nd i resend nc : Z) : K Z :=
  k ← get;
  let k := if 0 <=? nd
           then k <| nodelay := nd |>
                  <| rx_minrto := if nd =? 0 then IKCP_RTO_MIN else IKCP_RTO_NDL |>
           else k in
  let k := if 0 <=? i then k <| interval := clamp_interval i |> else k in
  let k := if 0 <=? resend then k <| fastresend := resend |> else k in
  let k := if 0 <=? nc then k <| nocwnd := nc |> else k in
  _ ← put k;
  mret 0.

(* src/third_party/kcp/ikcp.c ikcp_wndsize *)
Definition ikcp_wndsize (sndwnd rcvwnd : Z) : K Z :=
  k ← get;
  let k := if 0 <? sndwnd then k <| snd_wnd := sndwnd |> else k in
  let k := if 0 <? rcvwnd then k <| rcv_wnd := _imax_ rcvwnd IKCP_WND_RCV |> else k in
  _ ← put k;
  mret 0.

(* src/third_party/kcp/ikcp.c ikcp_waitsnd *)
Definition ikcp_waitsnd (k : ikcpcb) : Z := i32 (u32 (nsnd_buf k + nsnd_que k)).

(* src/third_party/kcp/ikcp.c ikcp_getconv *)
Definition ikcp_getconv (ptr : list Z) : option Z := fst <$> ikcp_decode32u ptr.
