(* ===== verification/IkcpCodec.v ===== *)
(** * KCP: wire format and sequence arithmetic *)

From S2P Require Import Prelude CRuntime IkcpData Ikcp.

(** ** Words *)

Definition byte (b : Z) : Prop := 0 ≤ b < 256.

#[global] Instance byte_dec b : Decision (byte b).
Proof. unfold byte. apply _. Defined.

Lemma land255 z : Z.land z 255 = z mod 256.
Proof. change 255 with (Z.ones 8). by rewrite Z.land_ones by lia. Qed.

Lemma shiftr8 z n : 0 ≤ n → Z.shiftr z n = z / 2 ^ n.
Proof. intros. by rewrite Z.shiftr_div_pow2. Qed.

Lemma shiftl8 z : Z.shiftl z 8 = z * 256.
Proof. by rewrite Z.shiftl_mul_pow2 by lia. Qed.

Lemma u8_byte z : byte (u8 z).
Proof. by apply Z.mod_pos_bound. Qed.

Lemma land255_byte z : byte (Z.land z 255).
Proof. rewrite land255. by apply Z.mod_pos_bound. Qed.

Lemma encode32_bytes l : Forall byte (ikcp_encode32u l).
Proof. unfold ikcp_encode32u. repeat constructor; apply land255_byte. Qed.

Lemma encode16_bytes l : Forall byte (ikcp_encode16u l).
Proof. unfold ikcp_encode16u. repeat constructor; first [apply land255_byte|apply u8_byte]. Qed.

Lemma decode32_encode32 l p :
  ikcp_decode32u (ikcp_encode32u l ++ p) = Some (u32 l, p).
Proof.
  unfold ikcp_encode32u, ikcp_decode32u. cbn [app]. do 2 f_equal.
  rewrite !land255, !shiftl8, !shiftr8 by lia. unfold u32.
  change (2 ^ 8) with 256. change (2 ^ 16) with 65536. change (2 ^ 24) with 16777216.
  change (2 ^ 32) with 4294967296. dlia.
Qed.

Lemma decode16_encode16 l p :
  0 ≤ l < 2 ^ 16 → ikcp_decode16u (ikcp_encode16u l ++ p) = Some (l, p).
Proof.
  intros Hl. unfold ikcp_encode16u, ikcp_decode16u. cbn [app]. do 2 f_equal.
  rewrite land255, shiftl8, shiftr8 by lia. unfold u8, u16.
  change (2 ^ 8) with 256. change (2 ^ 16) with 65536 in *. dlia.
Qed.

Lemma decode8_encode8 c p : ikcp_decode8u (ikcp_encode8u c ++ p) = Some (u8 c, p).
Proof.
  unfold ikcp_encode8u, ikcp_decode8u. cbn [app]. do 2 f_equal. unfold u8.
  by rewrite Z.mod_mod.
Qed.

(** The other direction: four bytes are the encoding of what they decode to. *)
Lemma encode32_decode32 p l q :
  Forall byte p → ikcp_decode32u p = Some (l, q) → p = ikcp_encode32u l ++ q ∧ 0 ≤ l < 2 ^ 32.
Proof.
  destruct p as [|b0 [|b1 [|b2 [|b3 p]]]]; intros Hb; try done.
  repeat (apply Forall_cons in Hb as [? Hb]). unfold byte in *.
  unfold ikcp_decode32u. intros [= <- <-]. split; [|apply u32_range].
  unfold ikcp_encode32u. rewrite !land255, !shiftl8, !shiftr8 by lia. unfold u32.
  change (2 ^ 8) with 256. change (2 ^ 16) with 65536. change (2 ^ 24) with 16777216.
  change (2 ^ 32) with 4294967296. cbn [app]. repeat f_equal; dlia.
Qed.

Lemma decode32_short p : (4 ≤ length p)%nat → ∃ l, ikcp_decode32u p = Some (l, drop 4 p) ∧ 0 ≤ l < 2 ^ 32.
Proof.
  destruct p as [|b0 [|b1 [|b2 [|b3 p]]]]; simpl; intros; try lia.
  eexists. split; [done|]. apply u32_range.
Qed.

(** ** Headers *)

(** What a header carries of a segment. *)
Definition header_of (s : ikcpseg) : header :=
  Header (u32 (seg_conv s)) (u8 (seg_cmd s)) (u8 (seg_frg s)) (u16 (seg_wnd s)) (u32 (seg_ts s))
         (u32 (seg_sn s)) (u32 (seg_una s)) (u32 (seg_len s)).

Lemma encode_seg_length s : length (ikcp_encode_seg s) = 24%nat.
Proof. done. Qed.

Lemma u16_range z : 0 ≤ u16 z < 2 ^ 16.
Proof. apply Z.mod_pos_bound. lia. Qed.

Lemma decode_encode_seg s p : decode_header (ikcp_encode_seg s ++ p) = Some (header_of s, p).
Proof.
  unfold ikcp_encode_seg, decode_header. rewrite <- !app_assoc.
  rewrite decode32_encode32. cbn [mbind option_bind].
  rewrite decode8_encode8. cbn [mbind option_bind].
  rewrite decode8_encode8. cbn [mbind option_bind].
  rewrite decode16_encode16 by apply u16_range. cbn [mbind option_bind].
  do 4 (rewrite decode32_encode32; cbn [mbind option_bind]). done.
Qed.

(** Any 24 bytes decode to a header with fields in range. *)
Definition header_ok (h : header) : Prop :=
  0 ≤ h_conv h < 2 ^ 32 ∧ 0 ≤ h_cmd h < 2 ^ 8 ∧ 0 ≤ h_frg h < 2 ^ 8 ∧ 0 ≤ h_wnd h < 2 ^ 16 ∧
  0 ≤ h_ts h < 2 ^ 32 ∧ 0 ≤ h_sn h < 2 ^ 32 ∧ 0 ≤ h_una h < 2 ^ 32 ∧ 0 ≤ h_len h < 2 ^ 32.

Lemma decode_header_total p :
  (24 ≤ length p)%nat → ∃ h, decode_header p = Some (h, drop 24 p) ∧ header_ok h.
Proof.
  intros Hp. do 24 (destruct p as [|? p]; [simpl in Hp; lia|]).
  eexists. split; [unfold decode_header; cbn [mbind option_bind ikcp_decode32u ikcp_decode8u ikcp_decode16u]; reflexivity|].
  unfold header_ok. cbn [h_conv h_cmd h_frg h_wnd h_ts h_sn h_una h_len].
  split_and!; first [apply u32_range|apply u16_range|apply u8_byte|idtac].
Qed.

(** ** Sequence numbers

    Numbers are compared through a signed difference, so two of them within
    half the number space of a common origin compare like their distances
    from it. *)

Lemma u32_add_l a b : u32 (u32 a + b) = u32 (a + b).
Proof. unfold u32. by rewrite Zplus_mod_idemp_l. Qed.

Lemma u32_add_r a b : u32 (a + u32 b) = u32 (a + b).
Proof. unfold u32. by rewrite Zplus_mod_idemp_r. Qed.

Lemma u32_sub_l a b : u32 (u32 a - b) = u32 (a - b).
Proof. unfold u32. by rewrite Zminus_mod_idemp_l. Qed.

Lemma u32_sub_r a b : u32 (a - u32 b) = u32 (a - b).
Proof. unfold u32. by rewrite Zminus_mod_idemp_r. Qed.

Lemma i32_u32 z : i32 (u32 z) = i32 z.
Proof. unfold i32, u32. by rewrite Zplus_mod_idemp_l. Qed.

Lemma itimediff_exact a b : - 2 ^ 31 ≤ a - b < 2 ^ 31 → _itimediff (u32 a) (u32 b) = a - b.
Proof.
  intros H. unfold _itimediff. rewrite u32_sub_l, u32_sub_r, i32_u32. by apply i32_small.
Qed.

(** Distance ahead of an origin. *)
Definition ahead (origin x : Z) : Z := u32 (x - origin).

Lemma ahead_range o x : 0 ≤ ahead o x < 2 ^ 32.
Proof. apply u32_range. Qed.

Lemma ahead_add o x : 0 ≤ x < 2 ^ 32 → u32 (o + ahead o x) = x.
Proof.
  intros. unfold ahead. rewrite u32_add_r. replace (o + (x - o)) with x by lia. by apply u32_small.
Qed.

Lemma itimediff_ahead o x y :
  0 ≤ x < 2 ^ 32 → 0 ≤ y < 2 ^ 32 → - 2 ^ 31 ≤ ahead o x - ahead o y < 2 ^ 31 →
  _itimediff x y = ahead o x - ahead o y.
Proof.
  intros Hx Hy H. rewrite <- (ahead_add o x), <- (ahead_add o y) by done.
  rewrite itimediff_exact by lia. rewrite !ahead_add by done. lia.
Qed.

Lemma ahead_inj o x y : 0 ≤ x < 2 ^ 32 → 0 ≤ y < 2 ^ 32 → ahead o x = ahead o y → x = y.
Proof. intros Hx Hy H. by rewrite <- (ahead_add o x), <- (ahead_add o y), H. Qed.

Lemma ahead_self o : ahead o o = 0.
Proof. unfold ahead. by rewrite Z.sub_diag. Qed.

Lemma ahead_zero o x : 0 ≤ o < 2 ^ 32 → 0 ≤ x < 2 ^ 32 → ahead o x = 0 ↔ x = o.
Proof.
  intros Ho Hx. split; [|intros ->; apply ahead_self].
  intros H. apply (ahead_inj o); [done..|]. by rewrite ahead_self.
Qed.

(** Moving the origin forward by [n]. *)
Lemma ahead_shift o x n : 0 ≤ n ≤ ahead o x → ahead (u32 (o + n)) x = ahead o x - n.
Proof.
  intros H. unfold ahead in *. rewrite u32_sub_r.
  replace (x - (o + n)) with ((x - o) - n) by lia. rewrite <- u32_sub_l.
  apply u32_small. pose proof (u32_range (x - o)). lia.
Qed.

Lemma ahead_plus o n : 0 ≤ n < 2 ^ 32 → ahead o (u32 (o + n)) = n.
Proof.
  intros H. unfold ahead. rewrite u32_sub_l. replace (o + n - o) with n by lia. by apply u32_small.
Qed.

(** The signed difference from the origin is negative exactly for numbers in
    the far half. *)
Lemma itimediff_origin o x :
  0 ≤ o < 2 ^ 32 → 0 ≤ x < 2 ^ 32 →
  _itimediff x o = if bool_decide (ahead o x < 2 ^ 31) then ahead o x else ahead o x - 2 ^ 32.
Proof.
  intros Ho Hx. unfold _itimediff, ahead. pose proof (u32_range (x - o)) as Hr.
  generalize dependent (u32 (x - o)). intros d Hr. unfold i32. case_bool_decide; dlia.
Qed.
