(* ===== verification/IkcpRecv.v ===== *)
(** * KCP: the receiving half

    [rcv_state f N k]: the control block [k] has received the segments with
    indices below [N] of the stream [f] in order, and holds some later ones.
    Indices are unbounded; the 32-bit number on the wire is the index modulo
    2^32. *)

From stdpp Require Import sorting.
From S2P Require Import Prelude CRuntime IkcpData Ikcp IkcpCodec.

(** The blocks a control block owns: itself, the flush buffer, the
    acknowledgement array and one per segment. *)
Definition blocks (k : ikcpcb) : Z :=
  2 + (if null (acklist k) then 0 else 1) + Z.of_nat (length (snd_queue k)) +
  Z.of_nat (length (rcv_queue k)) + Z.of_nat (length (snd_buf k)) + Z.of_nat (length (rcv_buf k)).

Definition owns (base : Z) (w : world ikcpcb) : Prop :=
  al_live (w_al w) = base + blocks (w_eng w).

(** A segment that holds its payload. *)
Definition seg_ok (s : ikcpseg) : Prop :=
  0 ≤ seg_sn s < 2 ^ 32 ∧ 0 ≤ seg_frg s < 2 ^ 8 ∧
  seg_len s = Z.of_nat (length (seg_data s)) ∧ seg_len s < 2 ^ 31.

#[global] Instance seg_ok_dec s : Decision (seg_ok s).
Proof. unfold seg_ok. apply _. Defined.

(** What the stream sees of a segment. *)
Definition payload (s : ikcpseg) : Z * list Z := (seg_frg s, seg_data s).

Definition before (o : Z) (s t : ikcpseg) : Prop := ahead o (seg_sn s) < ahead o (seg_sn t).

(** ** Insertion into [rcv_buf] *)

Lemma insert_rev_spec o new buf :
  StronglySorted (before o) buf → Forall (λ s, seg_ok s ∧ ahead o (seg_sn s) < 2 ^ 31) buf →
  0 ≤ seg_sn new < 2 ^ 32 → ahead o (seg_sn new) < 2 ^ 31 →
  match insert_rev new (reverse buf) with
  | None => ∃ s, s ∈ buf ∧ seg_sn s = seg_sn new
  | Some r => ∃ l1 l2, buf = l1 ++ l2 ∧ reverse r = l1 ++ new :: l2 ∧
      Forall (λ s, before o s new) l1 ∧ Forall (before o new) l2
  end.
Proof.
  intros Hs Hb Hn Ho. induction buf as [|s buf IH] using rev_ind.
  { exists [], []. done. }
  rewrite reverse_snoc. cbn [insert_rev].
  apply Forall_app in Hb as [Hb [[[Hsn _] Hso] _]%Forall_cons].
  apply StronglySorted_app in Hs as (Hlt & Hs & _).
  destruct (seg_sn s =? seg_sn new) eqn:E; b2p.
  { exists s. split; [set_solver|done]. }
  pose proof (ahead_range o (seg_sn s)). pose proof (ahead_range o (seg_sn new)).
  rewrite (itimediff_ahead o) by (try done; lia).
  assert (ahead o (seg_sn s) ≠ ahead o (seg_sn new)) as Hne by (by intros ?%ahead_inj).
  destruct (0 <? _) eqn:E2; b2p.
  - exists (buf ++ [s]), []. rewrite app_nil_r, reverse_cons, reverse_cons, reverse_involutive.
    split_and!; [done|by rewrite <- app_assoc| |constructor].
    apply Forall_app. split; [|constructor; [unfold before; lia|constructor]].
    apply Forall_forall. intros x Hx. unfold before in *.
    specialize (Hlt x s Hx ltac:(set_solver)). simpl in Hlt. lia.
  - specialize (IH Hs Hb). destruct (insert_rev new (reverse buf)) as [r|]; cbn [fmap option_fmap option_map].
    + destruct IH as (l1 & l2 & -> & Hr & H1 & H2). exists l1, (l2 ++ [s]).
      rewrite reverse_cons, Hr. split_and!; [by rewrite app_assoc|by rewrite <- app_assoc|done|].
      apply Forall_app. split; [done|]. constructor; [unfold before; lia|constructor].
    + destruct IH as (x & Hx & He). exists x. split; [set_solver|done].
Qed.

Lemma sorted_insert (R : ikcpseg → ikcpseg → Prop) `{!Transitive R} l1 l2 x :
  StronglySorted R (l1 ++ l2) → Forall (λ s, R s x) l1 → Forall (R x) l2 →
  StronglySorted R (l1 ++ x :: l2).
Proof.
  intros (H12 & H1 & H2)%StronglySorted_app Hl1 Hl2. apply StronglySorted_app_2; [|done|by constructor].
  intros a b Ha [->|Hb]%elem_of_cons; [by rewrite Forall_forall in Hl1; apply Hl1|by apply H12].
Qed.

Lemma insert_rev_elem s rbuf rbuf' t : insert_rev s rbuf = Some rbuf' → t ∈ rbuf' ↔ t = s ∨ t ∈ rbuf.
Proof.
  revert rbuf'. induction rbuf as [|x rbuf IH]; intros rbuf'; cbn [insert_rev]; [intros [= <-]; set_solver|].
  destruct (_ =? _); [done|]. destruct (0 <? _); [intros [= <-]; set_solver|].
  destruct (insert_rev s rbuf) as [r|]; [|done]. intros [= <-]. specialize (IH r eq_refl). set_solver.
Qed.

(** Only the receive queues and counters of [k] changed in [k']. *)
Definition rcv_frame (k k' : ikcpcb) : Prop :=
  k' = k <| rcv_buf := rcv_buf k' |> <| nrcv_buf := nrcv_buf k' |> <| rcv_queue := rcv_queue k' |>
         <| nrcv_que := nrcv_que k' |> <| rcv_nxt := rcv_nxt k' |>.

Lemma rcv_frame_refl k : rcv_frame k k.
Proof. by destruct k. Qed.

Lemma rcv_frame_trans k1 k2 k3 : rcv_frame k1 k2 → rcv_frame k2 k3 → rcv_frame k1 k3.
Proof. unfold rcv_frame. intros H12 H23. rewrite H23, H12. done. Qed.

Lemma rcv_frame_probe k k' p : rcv_frame k k' → rcv_frame (k <| probe := p |>) (k' <| probe := p |>).
Proof. intros H. exact (f_equal (λ x, x <| probe := p |>) H). Qed.

(** ** The receive state *)

Section receiver.
(** The stream: index to fragment number and payload. *)
Variable f : Z → Z * list Z.
Implicit Types (N : Z) (k : ikcpcb) (s : ikcpseg).

(** A buffered segment: ahead of [rcv_nxt], and the one the stream has
    there. *)
Definition buffered N k s : Prop :=
  seg_ok s ∧ ahead (rcv_nxt k) (seg_sn s) < 2 ^ 31 ∧
  payload s = f (N + ahead (rcv_nxt k) (seg_sn s)).

Record rcv_state N k : Prop := {
  rs_nxt : rcv_nxt k = u32 N;
  rs_wnd : 1 ≤ rcv_wnd k < 2 ^ 31;
  rs_nque : nrcv_que k = Z.of_nat (length (rcv_queue k));
  rs_que : Z.of_nat (length (rcv_queue k)) < 2 ^ 31;
  rs_nbuf : nrcv_buf k = Z.of_nat (length (rcv_buf k));
  rs_queue : payload <$> rcv_queue k =
    f <$> seqZ (N - Z.of_nat (length (rcv_queue k))) (Z.of_nat (length (rcv_queue k)));
  rs_queue_ok : Forall seg_ok (rcv_queue k);
  rs_buf : Forall (buffered N k) (rcv_buf k);
  rs_sorted : StronglySorted (before (rcv_nxt k)) (rcv_buf k);
}.

(** No segment that could be delivered is still in [rcv_buf]. *)
Definition settled k : Prop :=
  match rcv_buf k with
  | [] => True
  | s :: _ => seg_sn s ≠ rcv_nxt k ∨ rcv_wnd k ≤ nrcv_que k
  end.

Lemma sorted_length o buf :
  StronglySorted (before o) buf → Forall (λ s, ahead o (seg_sn s) < 2 ^ 31) buf →
  Z.of_nat (length buf) ≤ 2 ^ 31.
Proof.
  intros Hs Hb.
  assert (∀ lo, 0 ≤ lo ≤ 2 ^ 31 → Forall (λ s, lo ≤ ahead o (seg_sn s)) buf →
    Z.of_nat (length buf) ≤ 2 ^ 31 - lo) as H; [|].
  { induction buf as [|s buf IH]; intros lo Hlo Hall; [simpl; lia|].
    apply StronglySorted_cons in Hs as [Hlt Hs]. apply Forall_cons in Hb as [Hs0 Hb].
    apply Forall_cons in Hall as [Hlo' _].
    specialize (IH Hs Hb (ahead o (seg_sn s) + 1) ltac:(lia)).
    cbn [length]. rewrite Nat2Z.inj_succ. etrans; [apply Z.le_succ_l, Z.lt_succ_r, Z.le_refl|].
    assert (Z.of_nat (length buf) ≤ 2 ^ 31 - (ahead o (seg_sn s) + 1)); [|lia].
    apply IH. eapply Forall_impl; [exact Hlt|]. intros t Ht. unfold before in Ht. simpl. lia. }
  specialize (H 0 ltac:(lia)). rewrite Z.sub_0_r in H. apply H.
  apply Forall_forall. intros s _. pose proof (ahead_range o (seg_sn s)). lia.
Qed.

Lemma rcv_buf_length N k : rcv_state N k → Z.of_nat (length (rcv_buf k)) ≤ 2 ^ 31.
Proof.
  intros H. eapply sorted_length; [apply (rs_sorted _ _ H)|].
  eapply Forall_impl; [apply (rs_buf _ _ H)|]. by intros s (_ & ? & _).
Qed.

(** Index [i] of the stream has arrived: it is below [N] or buffered. *)
Definition held N k (i : Z) : Prop :=
  i < N ∨ ∃ s, s ∈ rcv_buf k ∧ i = N + ahead (rcv_nxt k) (seg_sn s).

Lemma held_ext N k k' i :
  rcv_buf k' = rcv_buf k → rcv_nxt k' = rcv_nxt k → held N k i → held N k' i.
Proof. unfold held. by intros -> ->. Qed.

(** What has arrived stays so, and nothing is taken off the queue. *)
Record advanced N k N' k' : Prop := {
  adv_held : ∀ i, held N k i → held N' k' i;
  adv_read : N' - Z.of_nat (length (rcv_queue k')) = N - Z.of_nat (length (rcv_queue k));
}.

Lemma advanced_ext N k k' :
  rcv_buf k' = rcv_buf k → rcv_nxt k' = rcv_nxt k → rcv_queue k' = rcv_queue k → advanced N k N k'.
Proof. intros Hb Hn Hq. split; [|by rewrite Hq]. intros i. by apply held_ext. Qed.

Lemma advanced_trans N1 N2 N3 k1 k2 k3 :
  advanced N1 k1 N2 k2 → advanced N2 k2 N3 k3 → advanced N1 k1 N3 k3.
Proof. intros [H1 E1] [H2 E2]. split; [auto|lia]. Qed.

(** Moving the first buffered segment to the queue. *)
Lemma move_one N k s buf :
  rcv_state N k → rcv_buf k = s :: buf → seg_sn s = rcv_nxt k → nrcv_que k < rcv_wnd k →
  rcv_state (N + 1)
    (k <| rcv_buf := buf |> <| nrcv_buf := u32 (nrcv_buf k - 1) |>
       <| rcv_queue := rcv_queue k ++ [s] |> <| nrcv_que := u32 (nrcv_que k + 1) |>
       <| rcv_nxt := u32 (rcv_nxt k + 1) |>).
Proof.
  intros H Hb Hsn Hq. pose proof (rcv_buf_length N k H) as Hlen.
  destruct H as [Hn Hw Hnq Hql Hnb Hqu Hqok Hbuf Hs]. rewrite Hb in *.
  apply Forall_cons in Hbuf as [(Hsok & _ & Hsp) Hbuf].
  apply StronglySorted_cons in Hs as [Hlt Hs]. cbn [length] in *.
  assert (Hsh : Forall (λ t, ahead (u32 (rcv_nxt k + 1)) (seg_sn t) = ahead (rcv_nxt k) (seg_sn t) - 1) buf).
  { eapply Forall_impl; [exact Hlt|]. intros t Ht. unfold before in Ht.
    pose proof (ahead_range (rcv_nxt k) (seg_sn s)). simpl in *. rewrite ahead_shift; lia. }
  rewrite Hsn, ahead_self, Z.add_0_r in Hsp.
  constructor; kred; try done.
  - rewrite Hn. apply u32_add_l.
  - rewrite length_app. cbn [length]. rewrite Hnq, u32_small by lia. lia.
  - rewrite length_app. cbn [length]. lia.
  - rewrite Hnb. rewrite u32_small by lia. lia.
  - rewrite fmap_app, Hqu, length_app. cbn [length fmap list_fmap].
    rewrite Nat2Z.inj_add, seqZ_app by lia. rewrite fmap_app. f_equal.
    { f_equal. f_equal. lia. }
    rewrite Hsp. replace (N + 1 - _ + _) with N by lia. done.
  - apply Forall_app. split; [done|by apply Forall_singleton].
  - apply Forall_forall. intros t Ht. unfold buffered. kred.
    rewrite Forall_forall in Hbuf, Hsh. destruct (Hbuf t Ht) as (? & ? & Hp).
    rewrite (Hsh t Ht). split_and!; [done|lia|]. rewrite Hp. f_equal. lia.
  - clear -Hs Hsh. induction Hs as [|t buf Hs IH Hlt]; [constructor|].
    apply Forall_cons in Hsh as [Ht Hsh]. constructor; [by apply IH|].
    rewrite Forall_forall in Hlt, Hsh |- *. intros u Hu. specialize (Hlt u Hu). unfold before in *.
    rewrite Ht, (Hsh u Hu). lia.
Qed.

(** What has arrived stays so when the first buffered segment moves. *)
Lemma move_held N k k1 s buf i :
  rcv_state N k → rcv_buf k = s :: buf → seg_sn s = rcv_nxt k →
  rcv_buf k1 = buf → rcv_nxt k1 = u32 (rcv_nxt k + 1) → held N k i → held (N + 1) k1 i.
Proof.
  intros H Hb Hsn Hb1 Hn1 [Hi|(t & Ht & ->)]; [left; lia|]. unfold held. rewrite Hb1, Hn1.
  pose proof (rs_sorted _ _ H) as Hs. rewrite Hb in Ht, Hs.
  apply elem_of_cons in Ht as [->|Ht]; [left; rewrite Hsn, ahead_self; lia|].
  apply StronglySorted_cons in Hs as [Hlt _]. rewrite Forall_forall in Hlt.
  specialize (Hlt t Ht). unfold before in Hlt. pose proof (ahead_range (rcv_nxt k) (seg_sn s)).
  right. exists t. split; [done|]. rewrite ahead_shift; lia.
Qed.

Lemma move_loop_spec N k :
  rcv_state N k →
  ∃ n : nat, let k' := move_loop (rcv_buf k) k in
    rcv_state (N + Z.of_nat n) k' ∧ settled k' ∧ rcv_frame k k' ∧
    rcv_queue k' = rcv_queue k ++ take n (rcv_buf k) ∧ rcv_buf k' = drop n (rcv_buf k) ∧
    (n ≤ length (rcv_buf k))%nat ∧ (∀ i, held N k i → held (N + Z.of_nat n) k' i).
Proof.
  remember (rcv_buf k) as buf eqn:Hb. symmetry in Hb. revert N k Hb.
  induction buf as [|s buf IH]; intros N k Hb H; cbn [move_loop].
  { exists 0%nat. rewrite Z.add_0_r, app_nil_r. unfold settled. rewrite Hb.
    split_and!; try done. apply rcv_frame_refl. }
  destruct ((seg_sn s =? rcv_nxt k) && (nrcv_que k <? rcv_wnd k)) eqn:E; b2p.
  - set (k1 := k <| rcv_buf := buf |> <| nrcv_buf := _ |> <| rcv_queue := _ |>
                 <| nrcv_que := _ |> <| rcv_nxt := _ |>).
    assert (rcv_state (N + 1) k1) as Hk1 by (eapply move_one; eauto).
    destruct (IH (N + 1) k1 eq_refl Hk1) as (n & Hr & Hse & Hf & Hq & Hbu & Hn & Hh).
    exists (S n). replace (N + Z.of_nat (S n)) with (N + 1 + Z.of_nat n) by lia.
    split_and!; [done|done|by eapply rcv_frame_trans; [|exact Hf]| |done|simpl; lia|].
    + rewrite Hq. unfold k1. kred. cbn [take]. by rewrite <- app_assoc.
    + intros i Hi. apply Hh. by eapply (move_held N k).
  - exists 0%nat. rewrite Z.add_0_r. cbn [take drop]. rewrite app_nil_r.
    split_and!; try done; [|apply rcv_frame_refl|lia].
    unfold settled. rewrite Hb. apply andb_false_iff in E as [E|E]; b2p; auto.
Qed.

(** The window test: accepted exactly when less than [rcv_wnd] ahead. *)
Lemma in_window k sn :
  0 ≤ rcv_nxt k < 2 ^ 32 → 1 ≤ rcv_wnd k < 2 ^ 31 → 0 ≤ sn < 2 ^ 32 →
  (0 <=? _itimediff sn (u32 (rcv_nxt k + rcv_wnd k))) || (_itimediff sn (rcv_nxt k) <? 0) =
  negb (ahead (rcv_nxt k) sn <? rcv_wnd k).
Proof.
  intros Hn Hw Hs. pose proof (ahead_range (rcv_nxt k) sn).
  rewrite (itimediff_origin (rcv_nxt k) sn) by done. case_bool_decide.
  - rewrite (itimediff_ahead (rcv_nxt k)) by first [done|apply u32_range|rewrite ahead_plus; lia].
    rewrite ahead_plus by lia.
    destruct (ahead (rcv_nxt k) sn <? 0) eqn:E; b2p; [lia|].
    rewrite orb_false_r. destruct (0 <=? _) eqn:E1, (_ <? rcv_wnd k) eqn:E2; b2p; done || lia.
  - destruct (ahead (rcv_nxt k) sn - 2 ^ 32 <? 0) eqn:E; b2p; [|lia]. rewrite orb_true_r.
    destruct (_ <? rcv_wnd k) eqn:E2; b2p; done || lia.
Qed.

Lemma insert_state N k s buf :
  rcv_state N k → seg_ok s → ahead (rcv_nxt k) (seg_sn s) < 2 ^ 31 →
  payload s = f (N + ahead (rcv_nxt k) (seg_sn s)) →
  insert_rev s (reverse (rcv_buf k)) = Some buf →
  rcv_state N (k <| rcv_buf := reverse buf |> <| nrcv_buf := u32 (nrcv_buf k + 1) |>) ∧
  length (reverse buf) = S (length (rcv_buf k)).
Proof.
  intros H Hs Ho Hp Hi. pose proof (rcv_buf_length N k H) as Hlen.
  destruct H as [Hn Hw Hnq Hql Hnb Hqu Hqok Hbuf Hsort].
  pose proof (insert_rev_spec (rcv_nxt k) s (rcv_buf k) Hsort) as Hspec. rewrite Hi in Hspec.
  destruct Hspec as (l1 & l2 & Hl & Hr & H1 & H2);
    [eapply Forall_impl; [exact Hbuf|]; by intros ? (? & ? & _)|apply Hs|done|].
  assert (length (reverse buf) = S (length (rcv_buf k))) as Hlen'.
  { rewrite Hr, Hl, !length_app. simpl. lia. }
  split; [|done]. constructor; kred; try done.
  - rewrite Hlen', Hnb, u32_small; lia.
  - rewrite Hr. rewrite Hl in Hbuf. apply Forall_app in Hbuf as [Hb1 Hb2].
    apply Forall_app. split; [done|]. constructor; [by split_and!|done].
  - rewrite Hr. rewrite Hl in Hsort. apply sorted_insert; [|done..].
    intros x y z. unfold before. lia.
Qed.

Lemma move_blocks k k' n :
  rcv_frame k k' → rcv_queue k' = rcv_queue k ++ take n (rcv_buf k) →
  rcv_buf k' = drop n (rcv_buf k) → blocks k' = blocks k.
Proof.
  intros Hf Hq Hb. unfold blocks. rewrite Hq, Hb, length_app, length_take, length_drop.
  pose proof (f_equal acklist Hf) as ->. pose proof (f_equal snd_queue Hf) as ->.
  pose proof (f_equal snd_buf Hf) as ->. kred. lia.
Qed.

Lemma moved_nonempty k k' n :
  rcv_queue k' = rcv_queue k ++ take n (rcv_buf k) → (n ≤ length (rcv_buf k))%nat →
  0 < Z.of_nat n → rcv_queue k' ≠ [].
Proof.
  intros Hq Hn Hpos Hnil. rewrite Hnil in Hq. symmetry in Hq. apply app_nil in Hq as [_ Ht].
  apply (f_equal length) in Ht. rewrite length_take in Ht. simpl in Ht. lia.
Qed.

(** With room in the queue, the segment [rcv_nxt] waits for is delivered. *)
Lemma move_progress N k s n :
  rcv_state N k → s ∈ rcv_buf k → seg_sn s = rcv_nxt k → nrcv_que k < rcv_wnd k →
  rcv_state (N + Z.of_nat n) (move_loop (rcv_buf k) k) → settled (move_loop (rcv_buf k) k) →
  rcv_frame k (move_loop (rcv_buf k) k) →
  rcv_queue (move_loop (rcv_buf k) k) = rcv_queue k ++ take n (rcv_buf k) →
  rcv_buf (move_loop (rcv_buf k) k) = drop n (rcv_buf k) → (1 ≤ n)%nat.
Proof.
  intros H Hin Hsn Hroom H' Hset Hf Hq Hb. destruct n as [|n]; [exfalso|lia].
  unfold settled in Hset. rewrite Hb in Hset. cbn [drop] in Hset. rewrite Z.add_0_r in H'.
  rewrite (rs_nxt _ _ H'), <- (rs_nxt _ _ H) in Hset.
  rewrite (rs_nque _ _ H'), Hq, app_nil_r, <- (rs_nque _ _ H) in Hset.
  rewrite (f_equal rcv_wnd Hf) in Hset. kred_in Hset.
  pose proof (rs_sorted _ _ H) as Hs. pose proof (rs_buf _ _ H) as Hbuf.
  destruct (rcv_buf k) as [|h t]; [by apply elem_of_nil in Hin|].
  destruct Hset as [Hne|?]; [|lia]. apply Hne. apply elem_of_cons in Hin as [<-|Hin]; [done|].
  apply StronglySorted_cons in Hs as [Hlt _]. rewrite Forall_forall in Hlt.
  specialize (Hlt s Hin). unfold before in Hlt. rewrite Hsn, ahead_self in Hlt.
  pose proof (ahead_range (rcv_nxt k) (seg_sn h)). lia.
Qed.

(** [ikcp_parse_data] keeps the state of the stream: a segment in the window
    is buffered unless it is there already, and everything that became
    contiguous is delivered.  The block of a rejected segment is freed. *)
Lemma parse_data_run N k a s :
  rcv_state N k → seg_ok s →
  (ahead (rcv_nxt k) (seg_sn s) < rcv_wnd k → (∀ t, t ∈ rcv_buf k → seg_sn t ≠ seg_sn s) →
    payload s = f (N + ahead (rcv_nxt k) (seg_sn s))) →
  ∃ k' a' n, ikcp_parse_data s (World k a) = Ok (tt, World k' a') ∧
    0 ≤ n ∧ rcv_state (N + n) k' ∧ rcv_frame k k' ∧
    al_live a' - blocks k' = al_live a - blocks k - 1 ∧ (al_total a → al_total a') ∧
    (settled k → settled k') ∧
    (seg_sn s = rcv_nxt k → nrcv_que k < rcv_wnd k → 1 ≤ n) ∧
    (0 < n → rcv_queue k' ≠ []) ∧ advanced N k (N + n) k' ∧
    (ahead (rcv_nxt k) (seg_sn s) < rcv_wnd k → held (N + n) k' (N + ahead (rcv_nxt k) (seg_sn s))).
Proof.
  intros H Hs Hp. pose proof (rs_wnd _ _ H) as Hw.
  assert (0 ≤ rcv_nxt k < 2 ^ 32) as Hn by (rewrite (rs_nxt _ _ H); apply u32_range).
  unfold ikcp_parse_data, get, put, ikcp_segment_delete, ikcp_free. run.
  rewrite in_window by (try done; apply Hs).
  destruct (ahead (rcv_nxt k) (seg_sn s) <? rcv_wnd k) eqn:Ew; b2p; cbn [negb].
  2: { run. exists k, (al_dec a), 0. rewrite Z.add_0_r. 
       split_and!; [done|done|done|apply rcv_frame_refl|simpl; lia|auto with ga|done| |lia|by apply advanced_ext|lia].
       intros Hsn. rewrite Hsn, ahead_self in Ew. lia. }
  specialize (Hp Ew). destruct (insert_rev s (reverse (rcv_buf k))) as [buf|] eqn:Ei; run.
  - assert (s ∈ reverse buf ∧ ∀ t, t ∈ rcv_buf k → seg_sn t ≠ seg_sn s) as [Hin Hnd].
    { pose proof (insert_rev_spec (rcv_nxt k) s (rcv_buf k) (rs_sorted _ _ H)) as Hspec.
      rewrite Ei in Hspec. destruct Hspec as (l1 & l2 & -> & -> & H1 & H2);
        [eapply Forall_impl; [apply (rs_buf _ _ H)|]; by intros ? (? & ? & _)|apply Hs|lia|].
      split; [set_solver|]. rewrite Forall_forall in H1, H2. unfold before in *.
      intros t [Ht|Ht]%elem_of_app He; [specialize (H1 t Ht)|specialize (H2 t Ht)]; rewrite He in *; lia. }
    destruct (insert_state N k s buf H Hs ltac:(lia) (Hp Hnd) Ei) as [H1 Hlen].
    set (k1 := k <| rcv_buf := reverse buf |> <| nrcv_buf := _ |>) in *.
    destruct (move_loop_spec N k1 H1) as (n & Hr & Hse & Hf & Hq & Hb & Hle & Hh).
    assert (∀ t, t ∈ rcv_buf k → t ∈ reverse buf) as Hsub.
    { intros t Ht. apply elem_of_reverse, (insert_rev_elem _ _ _ _ Ei). right. by apply elem_of_reverse. }
    exists (move_loop (rcv_buf k1) k1), a, (Z.of_nat n).
    split_and!; [done|lia|done|by eapply rcv_frame_trans; [|exact Hf]| |done|done| |by apply (moved_nonempty k1)|..].
    + rewrite (move_blocks k1 _ n) by done. unfold blocks, k1. kred. rewrite Hlen. lia.
    + intros Hsn Hroom. enough (1 ≤ n)%nat by lia. by eapply (move_progress N k1 s).
    + split; [|rewrite Hq, length_app, length_take; unfold k1 in *; kred; kred_in Hle; lia].
      intros i [Hi|(t & Ht & ->)]; apply Hh; [by left|]. right. exists t. split; [by apply Hsub|done].
    + intros _. apply Hh. right. by exists s.
  - destruct (move_loop_spec N k H) as (n & Hr & Hse & Hf & Hq & Hb & Hle & Hh).
    pose proof (insert_rev_spec (rcv_nxt k) s (rcv_buf k) (rs_sorted _ _ H)) as Hspec.
    rewrite Ei in Hspec. destruct Hspec as (x & Hx & Hxs);
      [eapply Forall_impl; [apply (rs_buf _ _ H)|]; by intros ? (? & ? & _)|apply Hs|lia|].
    exists (move_loop (rcv_buf k) k), (al_dec a), (Z.of_nat n).
    split_and!; [done|lia|done|done| |auto with ga|done| |by apply (moved_nonempty k)|split; [done|rewrite Hq, length_app, length_take; lia]|].
    + rewrite (move_blocks k _ n) by done. simpl. lia.
    + intros Hsn Hroom. enough (1 ≤ n)%nat by lia. eapply (move_progress N k x); eauto. congruence.
    + intros _. apply Hh. right. exists x. by rewrite Hxs.
Qed.
End receiver.

(** ** Reassembly *)

(** Number of segments up to and including the first with [frg = 0]. *)
Fixpoint msg_len (q : list ikcpseg) : nat :=
  match q with
  | [] => 0
  | s :: q' => if seg_frg s =? 0 then 1 else S (msg_len q')
  end.

Definition bytes_of (q : list ikcpseg) : list Z := concat (seg_data <$> q).

Lemma i32_add_l a b : i32 (i32 a + b) = i32 (a + b).
Proof.
  unfold i32. replace ((a + 2 ^ 31) mod 2 ^ 32 - 2 ^ 31 + b + 2 ^ 31)
    with ((a + 2 ^ 31) mod 2 ^ 32 + b) by lia.
  rewrite Zplus_mod_idemp_l. f_equal. f_equal. lia.
Qed.

Lemma msg_len_le q : (msg_len q ≤ length q)%nat.
Proof. induction q as [|s q IH]; simpl; [done|]. destruct (seg_frg s =? 0); lia. Qed.

Lemma peek_merge q l : (merge_loop q l).2 = peek_loop q l.
Proof.
  revert l. induction q as [|s q IH]; intros l; simpl; [done|]. destruct (seg_frg s =? 0); [done|].
  rewrite <- IH. by destruct (merge_loop q _) as [[??]?].
Qed.

Lemma seg_chunk s : seg_ok s → take (Z.to_nat (seg_len s)) (seg_data s) = seg_data s.
Proof. intros (_ & _ & -> & _). rewrite Nat2Z.id. by apply take_ge. Qed.

Lemma merge_loop_spec q l :
  Forall seg_ok q → q ≠ [] →
  merge_loop q l = (bytes_of (take (msg_len q) q), msg_len q,
                    i32 (l + Z.of_nat (length (bytes_of (take (msg_len q) q))))).
Proof.
  unfold bytes_of. revert l. induction q as [|s q IH]; intros l Hq Hne; [done|].
  apply Forall_cons in Hq as [Hs Hq]. cbn [merge_loop msg_len]. rewrite seg_chunk by done.
  destruct (seg_frg s =? 0).
  - simpl. rewrite app_nil_r. f_equal. destruct Hs as (_ & _ & -> & _). done.
  - cbn [take fmap list_fmap concat]. destruct q as [|t q].
    { simpl. rewrite app_nil_r. f_equal. destruct Hs as (_ & _ & -> & _). done. }
    rewrite IH by done. f_equal. rewrite i32_add_l. f_equal.
    rewrite length_app, Nat2Z.inj_add. destruct Hs as (_ & _ & -> & _). lia.
Qed.

Lemma peeksize_merge k :
  rcv_queue k ≠ [] → 0 ≤ ikcp_peeksize k → ikcp_peeksize k = peek_loop (rcv_queue k) 0.
Proof.
  unfold ikcp_peeksize. destruct (rcv_queue k) as [|s q]; [done|]. intros _ H. cbn [peek_loop].
  destruct (seg_frg s =? 0); [done|]. destruct (nrcv_que k <? _); [lia|done].
Qed.

Lemma free_n_run {E} n (e : E) a :
  ∃ a', free_n n (World e a) = Ok (tt, World e a') ∧ al_live a' = al_live a - Z.of_nat n ∧
    (al_total a → al_total a').
Proof.
  revert a. induction n as [|n IH]; intros a; cbn [free_n].
  - exists a. split_and!; [done|lia|done].
  - unfold ikcp_free. run. destruct (IH (al_dec a)) as (a' & -> & Hl & Ht).
    exists a'. split_and!; [done|simpl in Hl; lia|auto with ga].
Qed.

Section reassembly.
Variable f : Z → Z * list Z.
Implicit Types (N : Z) (k : ikcpcb).

(** Taking [n] segments off the queue. *)
Lemma drop_state N k n :
  rcv_state f N k → (n ≤ length (rcv_queue k))%nat →
  rcv_state f N (k <| rcv_queue := drop n (rcv_queue k) |>
                   <| nrcv_que := u32 (nrcv_que k - Z.of_nat n) |>).
Proof.
  intros [Hn Hw Hnq Hql Hnb Hqu Hqok Hbuf Hs] Hle.
  constructor; kred; rewrite ?length_drop; try done.
  - rewrite Hnq, u32_small; lia.
  - lia.
  - rewrite fmap_drop, Hqu, <- fmap_drop. f_equal.
    replace (Z.of_nat (length (rcv_queue k)))
      with (Z.of_nat n + Z.of_nat (length (rcv_queue k) - n)) at 2 by lia.
    rewrite seqZ_app by lia. rewrite drop_app_ge, length_seqZ by (rewrite length_seqZ; lia).
    rewrite Nat2Z.id, Nat.sub_diag. cbn [drop]. apply (f_equal (λ z, seqZ z _)). lia.
  - by apply Forall_drop.
Qed.

(** What [ikcp_recv] answers when it takes a message out. *)
Definition taken k : list Z := bytes_of (take (msg_len (rcv_queue k)) (rcv_queue k)).

Lemma recv_run N k a len :
  rcv_state f N k → 0 ≤ len < 2 ^ 31 →
  match rcv_queue k with
  | [] => ikcp_recv len (World k a) = Ok ((-1, []), World k a)
  | _ =>
      if ikcp_peeksize k <? 0 then ikcp_recv len (World k a) = Ok ((-2, []), World k a)
      else if len <? ikcp_peeksize k then ikcp_recv len (World k a) = Ok ((-3, []), World k a)
      else ∃ k' a' n, ikcp_recv len (World k a) = Ok ((ikcp_peeksize k, taken k), World k' a') ∧
        ikcp_peeksize k = i32 (Z.of_nat (length (taken k))) ∧ rcv_state f (N + n) k' ∧ settled k' ∧
        0 ≤ n ∧ rcv_frame (k <| probe := probe k' |>) k' ∧
        N + n - Z.of_nat (length (rcv_queue k')) =
          N - Z.of_nat (length (rcv_queue k)) + Z.of_nat (msg_len (rcv_queue k)) ∧
        al_live a' - blocks k' = al_live a - blocks k ∧ (al_total a → al_total a') ∧
        (∀ i, held N k i → held (N + n) k' i)
  end.
Proof.
  intros H Hlen. unfold ikcp_recv, get, put. run.
  destruct (rcv_queue k) as [|s q] eqn:Eq; [done|]. rewrite <- Eq in *.
  assert (rcv_queue k ≠ []) as Hne by (by rewrite Eq).
  destruct (len <? 0) eqn:El; b2p; [lia|]. destruct (ikcp_peeksize k <? 0) eqn:Ep; b2p; [done|].
  destruct (len <? ikcp_peeksize k) eqn:E3; b2p; [done|].
  pose proof (rs_queue_ok _ _ _ H) as Hqok.
  rewrite (peeksize_merge k Hne Ep), <- peek_merge, (merge_loop_spec _ 0 Hqok Hne).
  cbn [snd]. rewrite Z.add_0_l. fold (taken k).
  destruct (free_n_run (msg_len (rcv_queue k)) k a) as (a' & Hfree & Hlive & Htot).
  rewrite bind_run, Hfree, Z.eqb_refl. run.
  set (k1 := k <| rcv_queue := _ |> <| nrcv_que := _ |>).
  assert (rcv_state f N k1) as H1 by (apply drop_state; [done|apply msg_len_le]).
  destruct (move_loop_spec f N k1 H1) as (n & Hr & Hse & Hf & Hq & Hb & Hle & Hh).
  set (k2 := move_loop (rcv_buf k1) k1) in *.
  set (k3 := if _ && _ then k2 <| probe := _ |> else k2).
  assert (∃ p, k3 = k2 <| probe := p |>) as [p Hk3].
  { unfold k3. destruct (_ && _); [by eexists|]. exists (probe k2). by destruct k2. }
  exists k3, a', (Z.of_nat n). rewrite Hk3. kred.
  split_and!; try done; [|lia|..].
  - destruct Hr. by constructor.
  - apply rcv_frame_probe. apply (rcv_frame_trans _ k1); [by destruct k|done].
  - rewrite Hq. unfold k1. kred. rewrite length_app, length_drop, length_take.
    pose proof (msg_len_le (rcv_queue k)). unfold k1 in Hle. kred_in Hle. lia.
  - transitivity (al_live a' - blocks k2); [done|]. rewrite (move_blocks k1 k2 n) by done.
    unfold blocks, k1. kred. rewrite length_drop. pose proof (msg_len_le (rcv_queue k)). lia.
Qed.

(** The size [ikcp_peeksize] announces is that of the message. *)
Lemma taken_size N k :
  rcv_state f N k → rcv_queue k ≠ [] → 0 ≤ ikcp_peeksize k → ikcp_peeksize k = i32 (Z.of_nat (length (taken k))).
Proof.
  intros H Hne Hp. rewrite (peeksize_merge k Hne Hp), <- peek_merge, (merge_loop_spec _ 0 (rs_queue_ok _ _ _ H) Hne).
  cbn [snd]. done.
Qed.

(** A negative length only looks at the next message; what can be delivered is
    still moved on. *)
Lemma recv_peek N k a len :
  rcv_state f N k → len < 0 →
  ∃ r k' n, ikcp_recv len (World k a) = Ok (r, World k' a) ∧ rcv_state f (N + n) k' ∧ 0 ≤ n ∧
    rcv_frame (k <| probe := probe k' |>) k' ∧ blocks k' = blocks k ∧
    (r.1 < 0 ∨ r = (ikcp_peeksize k, taken k)) ∧
    N + n - Z.of_nat (length (rcv_queue k')) = N - Z.of_nat (length (rcv_queue k)) ∧
    (∀ i, held N k i → held (N + n) k' i).
Proof.
  intros H Hlen. unfold ikcp_recv, get, put. run.
  assert (∀ x : Z, x < 0 → ∃ r k' n, Ok ((x, []), World k a) = Ok (r, World k' a) ∧ rcv_state f (N + n) k' ∧ 0 ≤ n ∧
    rcv_frame (k <| probe := probe k' |>) k' ∧ blocks k' = blocks k ∧
    (r.1 < 0 ∨ r = (ikcp_peeksize k, taken k)) ∧
    N + n - Z.of_nat (length (rcv_queue k')) = N - Z.of_nat (length (rcv_queue k)) ∧
    (∀ i, held N k i → held (N + n) k' i)) as Hsame.
  { intros x Hx. exists (x, []), k, 0. rewrite Z.add_0_r. split_and!; try done; [|by left]. by destruct k. }
  destruct (rcv_queue k) as [|s q] eqn:Eq; [by apply Hsame|]. rewrite <- Eq in *.
  assert (rcv_queue k ≠ []) as Hne by (by rewrite Eq).
  destruct (len <? 0) eqn:El; b2p; [|lia]. destruct (ikcp_peeksize k <? 0) eqn:Ep; b2p; [by apply Hsame|].
  destruct (_ <? ikcp_peeksize k) eqn:E3; b2p; [by apply Hsame|].
  pose proof (rs_queue_ok _ _ _ H) as Hqok.
  rewrite (peeksize_merge k Hne Ep), <- peek_merge, (merge_loop_spec _ 0 Hqok Hne).
  cbn [snd]. rewrite Z.add_0_l. fold (taken k). run. rewrite Z.eqb_refl. run.
  destruct (move_loop_spec f N k H) as (n & Hr & Hse & Hf & Hq & Hb & Hle & Hh).
  set (k2 := move_loop (rcv_buf k) k) in *.
  set (k3 := if _ && _ then k2 <| probe := _ |> else k2).
  assert (∃ p, k3 = k2 <| probe := p |>) as [p Hk3].
  { unfold k3. destruct (_ && _); [by eexists|]. exists (probe k2). by destruct k2. }
  eexists _, k3, (Z.of_nat n). rewrite Hk3. kred. split; [reflexivity|]. split_and!; [|lia|..].
  - destruct Hr. by constructor.
  - by apply rcv_frame_probe.
  - transitivity (blocks k2); [done|]. apply (move_blocks k k2 n); done.
  - by right.
  - rewrite Hq, length_app, length_take. lia.
  - exact Hh.
Qed.
End reassembly.
