(* ===== verification/IkcpSend.v ===== *)
(** * KCP: fragmentation of messages ([ikcp_send]) *)

From S2P Require Import Prelude CRuntime IkcpData Ikcp IkcpCodec IkcpRecv.

(** ** Reference: the fragments of a message *)

(** [n] chunks of at most [m] bytes, numbered down to 0 in message mode. *)
Fixpoint fragments (msg_mode : bool) (m n : nat) (buf : list Z) : list (Z * list Z) :=
  match n with
  | O => []
  | S n' => (if msg_mode then Z.of_nat n' else 0, take m buf) :: fragments msg_mode m n' (drop m buf)
  end.

Lemma fragments_length b m n buf : length (fragments b m n buf) = n.
Proof. revert buf. induction n as [|n IH]; intros buf; simpl; [done|]. by rewrite IH. Qed.

Lemma fragments_concat b m n buf :
  (length buf ≤ n * m)%nat → concat (fragments b m n buf).*2 = buf.
Proof.
  revert buf. induction n as [|n IH]; intros buf H; simpl.
  - destruct buf; [done|simpl in H; lia].
  - rewrite IH by (rewrite length_drop; lia). apply take_drop.
Qed.

Lemma fragments_size b m n buf : Forall (λ p, (length p.2 ≤ m)%nat) (fragments b m n buf).
Proof.
  revert buf. induction n as [|n IH]; intros buf; simpl; constructor; [|done].
  simpl. rewrite length_take. lia.
Qed.

Lemma fragments_frg m n buf i p :
  fragments true m n buf !! i = Some p → p.1 = Z.of_nat (n - S i).
Proof.
  revert buf i. induction n as [|n IH]; intros buf i; simpl; [done|].
  destruct i as [|i]; simpl; [intros [= <-]; simpl; lia|]. intros H. rewrite (IH _ _ H). lia.
Qed.

(** ** The send queue *)

(** A queued segment holds its payload, no longer than [mss]. *)
Definition queued (k : ikcpcb) (s : ikcpseg) : Prop :=
  seg_len s = Z.of_nat (length (seg_data s)) ∧ seg_len s ≤ mss k ∧ 0 ≤ seg_frg s < IKCP_WND_RCV.

Record snd_queue_ok (k : ikcpcb) : Prop := {
  sq_mss : 1 ≤ mss k < 2 ^ 31;
  sq_mtu : mtu k = mss k + IKCP_OVERHEAD ∧ mtu k < 2 ^ 30;
  sq_n : nsnd_que k = Z.of_nat (length (snd_queue k));
  sq_len : Z.of_nat (length (snd_queue k)) < 2 ^ 31;
  sq_segs : Forall (queued k) (snd_queue k);
}.

Lemma malloc_run {E} (e : E) a :
  al_total a → ikcp_malloc (World e a) = Ok (true, World e (al_next a 1)).
Proof. intros H. unfold ikcp_malloc. run. by rewrite malloc_total. Qed.

Lemma segment_new_run k a d :
  al_total a → ikcp_segment_new d (World k a) = Ok (Some (Seg 0 0 0 0 0 0 0 0 0 0 0 0 d), World k (al_next a 1)).
Proof. intros H. unfold ikcp_segment_new. run. by rewrite malloc_run. Qed.

Lemma read_n_run buf n w : 0 ≤ n ≤ Z.of_nat (length buf) → read_n buf n w = Ok (take (Z.to_nat n) buf, w).
Proof. intros H. unfold read_n. destruct (_ <? n) eqn:E; b2p; [lia|done]. Qed.

(** Only the send queue of [k] changed, to [q]. *)
Definition with_queue (k : ikcpcb) (q : list ikcpseg) : ikcpcb :=
  k <| snd_queue := q |> <| nsnd_que := Z.of_nat (length q) |>.

Lemma with_queue_self k : snd_queue_ok k → with_queue k (snd_queue k) = k.
Proof. intros [_ _ H _ _]. unfold with_queue. rewrite <- H. by destruct k. Qed.

Definition msg_mode (k : ikcpcb) : bool := stream k =? 0.

Lemma fragment_loop_run todo k a buf sent :
  snd_queue_ok k → al_total a → (todo < 128)%nat →
  Z.of_nat (length buf) ≤ Z.of_nat todo * mss k → Z.of_nat (length buf) < 2 ^ 31 →
  Z.of_nat (length (snd_queue k) + todo) < 2 ^ 31 →
  ∃ segs a', fragment_loop todo buf (Z.of_nat (length buf)) sent (World k a)
      = Ok (sent + Z.of_nat (length buf), World (with_queue k (snd_queue k ++ segs)) a') ∧
    payload <$> segs = fragments (msg_mode k) (Z.to_nat (mss k)) todo buf ∧
    snd_queue_ok (with_queue k (snd_queue k ++ segs)) ∧
    al_total a' ∧ al_live a' = al_live a + Z.of_nat todo.
Proof.
  revert k a buf sent. induction todo as [|todo IH]; intros k a buf sent Hk Ha Ht Hb Hb' Hq; cbn [fragment_loop].
  { exists [], a. rewrite app_nil_r, with_queue_self by done.
    split_and!; [|done|done|done|lia]. run. do 2 f_equal. lia. }
  pose proof (sq_mss _ Hk) as Hm. unfold get, put. run. rewrite i32_small by lia.
  set (size := if mss k <? Z.of_nat (length buf) then mss k else Z.of_nat (length buf)).
  assert (size = Z.min (mss k) (Z.of_nat (length buf))) as Hsize.
  { unfold size. destruct (mss k <? _) eqn:E; b2p; lia. }
  assert ((if 0 <? Z.of_nat (length buf) then read_n buf size else mret []) (World k a)
    = Ok (take (Z.to_nat (mss k)) buf, World k a)) as ->.
  { destruct (0 <? _) eqn:E; b2p; [rewrite read_n_run by lia|run]; do 2 f_equal.
    - destruct (decide (mss k ≤ Z.of_nat (length buf))); [f_equal; lia|].
      rewrite !take_ge by lia. done.
    - by destruct buf; [rewrite take_nil|simpl in *; lia]. }
  run. rewrite segment_new_run by done. run.
  set (s := _ <| seg_len := _ |> <| seg_frg := _ |>).
  set (k1 := k <| snd_queue := _ |> <| nsnd_que := _ |>).
  assert (queued k s) as Hs.
  { unfold queued, s. sred. rewrite length_take, Hsize. unfold IKCP_WND_RCV.
    rewrite u32_small by lia. split_and!; [lia|lia|..];
    destruct (stream k =? 0); rewrite ?u32_small by lia; lia. }
  assert (k1 = with_queue k (snd_queue k ++ [s])) as Hk1.
  { assert (u32 (nsnd_que k + 1) = Z.of_nat (length (snd_queue k ++ [s]))) as Hn
      by (rewrite (sq_n _ Hk), length_app, u32_small; cbn [length]; lia).
    unfold k1, with_queue. by rewrite Hn. }
  assert (snd_queue_ok k1) as Hok1.
  { rewrite Hk1. destruct Hk. constructor; unfold with_queue; kred; try done.
    - rewrite length_app in *. simpl. lia.
    - apply Forall_app. split; [done|by apply Forall_singleton]. }
  assert (Z.of_nat (length buf) - size = Z.of_nat (length (drop (Z.to_nat size) buf))) as ->
    by (rewrite length_drop; lia).
  assert (drop (Z.to_nat size) buf = drop (Z.to_nat (mss k)) buf) as ->.
  { destruct (decide (mss k ≤ Z.of_nat (length buf))); [f_equal; lia|]. by rewrite !drop_ge by lia. }
  destruct (IH k1 (al_next a 1) (drop (Z.to_nat (mss k)) buf) (sent + size)) as (segs & a' & -> & Hp & Hok & Ha' & Hl).
  { done. } { auto with ga. } { lia. }
  { rewrite length_drop. unfold k1. kred. lia. } { rewrite length_drop. lia. }
  { rewrite Hk1. unfold with_queue. kred. rewrite length_app. simpl. lia. }
  exists (s :: segs), a'. rewrite Hk1 in *. unfold with_queue in *. kred. kred_in Hok. kred_in Hp.
  rewrite <- app_assoc in *. cbn [app] in *. split_and!; [|cbn [fmap list_fmap fragments]|done|done|].
  - do 2 f_equal. rewrite length_drop. lia.
  - f_equal; [|done]. unfold payload, s, msg_mode. sred. f_equal.
    destruct (stream k =? 0); [|done]. by rewrite u32_small by lia.
  - rewrite Hl. simpl. lia.
Qed.

(** ** [ikcp_send] *)

(** Fragments needed for [len] bytes. *)
Definition frag_count (m len : Z) : Z := if len <=? m then 1 else (len + m - 1) / m.

Lemma frag_count_enough m len : 1 ≤ m → 0 ≤ len → 1 ≤ frag_count m len ∧ len ≤ frag_count m len * m.
Proof.
  intros Hm Hl. unfold frag_count. destruct (len <=? m) eqn:E; b2p; [lia|].
  pose proof (Z.div_mod (len + m - 1) m). pose proof (Z.mod_pos_bound (len + m - 1) m). nia.
Qed.

(** The fragmentation of what is left of a message, common to both modes. *)
Lemma send_rest k a buf sent :
  snd_queue_ok k → al_total a → Z.of_nat (length buf) < 2 ^ 31 →
  Z.of_nat (length (snd_queue k) + 128) < 2 ^ 31 →
  frag_count (mss k) (Z.of_nat (length buf)) < IKCP_WND_RCV →
  let n := Z.to_nat (frag_count (mss k) (Z.of_nat (length buf))) in
  ∃ segs a', fragment_loop n buf (Z.of_nat (length buf)) sent (World k a)
      = Ok (sent + Z.of_nat (length buf), World (with_queue k (snd_queue k ++ segs)) a') ∧
    payload <$> segs = fragments (msg_mode k) (Z.to_nat (mss k)) n buf ∧
    snd_queue_ok (with_queue k (snd_queue k ++ segs)) ∧
    al_total a' ∧ al_live a' = al_live a + Z.of_nat n.
Proof.
  intros Hk Ha Hb Hq Hn n. unfold IKCP_WND_RCV in Hn. pose proof (sq_mss _ Hk).
  destruct (frag_count_enough (mss k) (Z.of_nat (length buf))) as [Hc1 Hc2]; [lia|lia|].
  apply fragment_loop_run; [done|done|unfold n; lia|unfold n; lia|lia|unfold n; lia].
Qed.

Lemma send_count m len :
  1 ≤ m < 2 ^ 31 → 0 ≤ len < 2 ^ 31 →
  (if len <=? i32 m then 1 else i32 (u32 (len + m - 1) / m)) = frag_count m len.
Proof.
  intros Hm Hl. unfold frag_count. rewrite i32_small by lia.
  destruct (len <=? m) eqn:E; [done|]. b2p. rewrite u32_small by lia. apply i32_small.
  pose proof (Z.div_mod (len + m - 1) m). pose proof (Z.mod_pos_bound (len + m - 1) m). nia.
Qed.

(** Message mode: the message is queued as its fragments, or refused whole. *)
Lemma send_message k a buf :
  snd_queue_ok k → al_total a → stream k = 0 → Z.of_nat (length buf) < 2 ^ 31 →
  Z.of_nat (length (snd_queue k) + 128) < 2 ^ 31 →
  let n := frag_count (mss k) (Z.of_nat (length buf)) in
  if n <? IKCP_WND_RCV then
    ∃ segs a', ikcp_send buf (Z.of_nat (length buf)) (World k a) =
        Ok (Z.of_nat (length buf), World (with_queue k (snd_queue k ++ segs)) a') ∧
      payload <$> segs = fragments true (Z.to_nat (mss k)) (Z.to_nat n) buf ∧
      snd_queue_ok (with_queue k (snd_queue k ++ segs)) ∧
      al_total a' ∧ al_live a' = al_live a + n
  else ikcp_send buf (Z.of_nat (length buf)) (World k a) = Ok (-2, World k a).
Proof.
  intros Hk Ha Hst Hb Hq n. pose proof (sq_mss _ Hk) as Hm.
  unfold ikcp_send, get. run. rewrite Hst, Z.eqb_refl. cbn [negb andb]. run.
  destruct (mss k <=? 0) eqn:E0; b2p; [lia|]. destruct (_ <? 0) eqn:E1; b2p; [lia|]. run.
  change (Z.to_nat 0) with 0%nat. rewrite drop_0, Z.sub_0_r, send_count by lia. fold n.
  destruct (frag_count_enough (mss k) (Z.of_nat (length buf))) as [Hc1 Hc2]; [lia|lia|]. fold n in Hc1.
  destruct (n <? IKCP_WND_RCV) eqn:En; b2p.
  - destruct (IKCP_WND_RCV <=? n) eqn:E2; b2p; [lia|]. destruct (n =? 0) eqn:E3; b2p; [lia|].
    destruct (send_rest k a buf 0 Hk Ha Hb Hq En) as (segs & a' & Hrun & Hp & Hok & Ha' & Hl).
    exists segs, a'. fold n in Hrun, Hp, Hl. rewrite Hrun. unfold msg_mode in Hp. rewrite Hst in Hp.
    split_and!; try done. lia.
  - destruct (IKCP_WND_RCV <=? n) eqn:E2; b2p; [done|lia].
Qed.

(** ** Streaming mode *)

Lemma bytes_of_app q1 q2 : bytes_of (q1 ++ q2) = bytes_of q1 ++ bytes_of q2.
Proof. unfold bytes_of. by rewrite fmap_app, concat_app. Qed.

Lemma bytes_of_one s : bytes_of [s] = seg_data s.
Proof. unfold bytes_of. simpl. apply app_nil_r. Qed.

Lemma bytes_of_payload q : bytes_of q = concat (payload <$> q).*2.
Proof. unfold bytes_of. f_equal. by rewrite <- list_fmap_compose. Qed.

(** Topping up the last segment appends a prefix of the buffer. *)
Lemma append_last_run k a buf :
  snd_queue_ok k → al_total a → Z.of_nat (length buf) < 2 ^ 31 →
  ∃ q a' e, append_last buf (Z.of_nat (length buf)) (World k a) = Ok (e, World (with_queue k q) a') ∧
    0 ≤ e ≤ Z.of_nat (length buf) ∧ bytes_of q = bytes_of (snd_queue k) ++ take (Z.to_nat e) buf ∧
    length q = length (snd_queue k) ∧ snd_queue_ok (with_queue k q) ∧
    al_total a' ∧ al_live a' = al_live a.
Proof.
  intros Hk Ha Hb. pose proof (sq_mss _ Hk) as Hm. unfold append_last, get, put. run.
  assert (∃ q a' e, Ok (0, World k a) = Ok (e, World (with_queue k q) a') ∧
    0 ≤ e ≤ Z.of_nat (length buf) ∧ bytes_of q = bytes_of (snd_queue k) ++ take (Z.to_nat e) buf ∧
    length q = length (snd_queue k) ∧ snd_queue_ok (with_queue k q) ∧
    al_total a' ∧ al_live a' = al_live a) as Hsame.
  { exists (snd_queue k), a, 0. rewrite with_queue_self, take_0, app_nil_r by done.
    split_and!; done || lia. }
  destruct (last (snd_queue k)) as [old|] eqn:El; [|done].
  apply last_Some in El as [q Hq]. destruct (seg_len old <? mss k) eqn:Eo; [|done]. clear Hsame. b2p.
  pose proof (sq_segs _ Hk) as Hsegs. rewrite Hq in Hsegs.
  apply Forall_app in Hsegs as [Hq0 Hold]. apply Forall_singleton in Hold as (Ho1 & Ho2 & Ho3).
  set (e := if Z.of_nat (length buf) <? _ then _ else _).
  assert (e = Z.min (Z.of_nat (length buf)) (mss k - seg_len old)) as He.
  { unfold e. clear e. rewrite u32_small, i32_small by lia. destruct (_ <? _) eqn:E; b2p; lia. }
  run. rewrite read_n_run by lia. run. rewrite segment_new_run by done. run.
  rewrite Hq, removelast_last. unfold ikcp_segment_delete, ikcp_free. run.
  set (s := _ <| seg_len := _ |> <| seg_frg := _ |>).
  assert (queued k s) as Hs.
  { unfold queued, s. sred. rewrite length_app, !length_take, u32_small by lia.
    unfold IKCP_WND_RCV. split_and!; lia. }
  exists (q ++ [s]), (al_dec (al_next a 1)), e. split_and!; [|lia|lia|..].
  - unfold with_queue. do 3 f_equal. rewrite length_app. cbn [length].
    pose proof (sq_n _ Hk) as Hn. rewrite Hq, length_app in Hn. cbn [length] in Hn.
    rewrite <- Hn. by destruct k.
  - rewrite !bytes_of_app, !bytes_of_one, <- app_assoc. unfold s. sred.
    rewrite (take_ge (seg_data old)) by lia. done.
  - by rewrite !length_app.
  - pose proof (sq_n _ Hk). pose proof (sq_len _ Hk) as Hql. rewrite Hq, length_app in Hql.
    constructor; unfold with_queue; kred; try done; [apply (sq_mtu _ Hk)|by rewrite length_app|].
    apply Forall_app. split; [done|by apply Forall_singleton].
  - auto with ga.
  - simpl. lia.
Qed.

Lemma with_queue_twice k q q' : with_queue (with_queue k q) q' = with_queue k q'.
Proof. done. Qed.

(** Streaming mode: the bytes accepted are appended to the queue, the result
    counts them, and only a buffer of 128 or more fragments is cut short. *)
Lemma send_stream k a buf :
  snd_queue_ok k → al_total a → stream k ≠ 0 → Z.of_nat (length buf) < 2 ^ 31 →
  Z.of_nat (length (snd_queue k) + 128) < 2 ^ 31 →
  ∃ r q a', ikcp_send buf (Z.of_nat (length buf)) (World k a) = Ok (r, World (with_queue k q) a') ∧
    bytes_of q = bytes_of (snd_queue k) ++ take (Z.to_nat r) buf ∧
    (r = Z.of_nat (length buf) ∨
     IKCP_WND_RCV ≤ frag_count (mss k) (Z.of_nat (length buf)) ∧ r < Z.of_nat (length buf)) ∧
    snd_queue_ok (with_queue k q) ∧ al_total a' ∧
    al_live a' - Z.of_nat (length q) = al_live a - Z.of_nat (length (snd_queue k)) ∧
    (length q ≤ length (snd_queue k) + 127)%nat.
Proof.
  intros Hk Ha Hst Hb Hq. pose proof (sq_mss _ Hk) as Hm. apply Z.eqb_neq in Hst.
  unfold ikcp_send, get. run. rewrite Hst. cbn [negb andb].
  destruct (mss k <=? 0) eqn:E0; b2p; [lia|]. destruct (_ <? 0) eqn:E1; b2p; [lia|]. run.
  destruct (append_last_run k a buf Hk Ha Hb) as (q & a1 & e & -> & He & Hby & Hlen & Hok & Ha1 & Hl1). run.
  destruct (_ - e <=? 0) eqn:E2; b2p.
  { exists e, q, a1. split_and!; [done|done|left; lia|done|done|lia|lia]. }
  set (rest := drop (Z.to_nat e) buf).
  assert (Z.of_nat (length buf) - e = Z.of_nat (length rest)) as Hrest
    by (unfold rest; rewrite length_drop; lia).
  rewrite Hrest, send_count by (unfold rest in *; lia).
  destruct (frag_count_enough (mss k) (Z.of_nat (length rest))) as [Hc1 Hc2]; [lia|lia|].
  assert (frag_count (mss k) (Z.of_nat (length rest)) ≤ frag_count (mss k) (Z.of_nat (length buf))) as Hmono.
  { unfold frag_count. destruct (_ <=? mss k) eqn:F1, (Z.of_nat (length buf) <=? mss k) eqn:F2; b2p; try lia.
    - apply Z.div_le_lower_bound; lia.
    - apply Z.div_le_mono; lia. }
  destruct (IKCP_WND_RCV <=? _) eqn:E3; b2p.
  - run. exists (if 0 <? e then e else -2), q, a1.
    split_and!; [done| |right; destruct (0 <? e); lia|done|done|lia|lia].
    rewrite Hby. destruct (0 <? e) eqn:F; b2p; [done|]. by replace e with 0 by lia.
  - destruct (frag_count _ (Z.of_nat (length rest)) =? 0) eqn:E4; b2p; [lia|].
    destruct (send_rest (with_queue k q) a1 rest e) as (segs & a2 & Hrun & Hp & Hok2 & Ha2 & Hl2);
      [done|done|lia|unfold with_queue; kred; lia|done|].
    unfold with_queue in Hrun at 1, Hp, Hl2. kred_in Hrun. kred_in Hp. kred_in Hl2. rewrite Hrun.
    assert (length segs = Z.to_nat (frag_count (mss k) (Z.of_nat (length rest)))) as Hls.
    { rewrite <- (length_fmap payload segs), Hp. apply fragments_length. }
    exists (e + Z.of_nat (length rest)), (q ++ segs), a2.
    rewrite with_queue_twice in *. unfold with_queue in Hok2. kred_in Hok2. split_and!; try done.
    + rewrite bytes_of_app, Hby, (bytes_of_payload segs), Hp, fragments_concat by nia.
      rewrite <- app_assoc. f_equal. rewrite (take_ge buf (Z.to_nat (e + _))) by lia. apply take_drop.
    + left. lia.
    + rewrite length_app, Hls, Hl2. lia.
    + rewrite length_app, Hls. unfold IKCP_WND_RCV in *. lia.
Qed.
