(* ===== verification/IkcpAck.v ===== *)
(** * KCP: what acknowledgements do to the send buffer

    [tracked f lo hi buf]: the segments of [buf] carry strictly increasing
    indices in [lo, hi) of the stream [f]; the number on the wire is the index
    modulo 2^32. *)

From S2P Require Import Prelude CRuntime IkcpData Ikcp IkcpCodec IkcpRecv IkcpSend.

Section tracked.
Variable f : Z → Z * list Z.
Implicit Types (buf : list ikcpseg) (s : ikcpseg).

Inductive tracked : Z → Z → list ikcpseg → Prop :=
  | tr_nil lo hi : lo ≤ hi → tracked lo hi []
  | tr_cons lo hi i s buf :
      lo ≤ i < hi → seg_sn s = u32 i → payload s = f i →
      tracked (i + 1) hi buf → tracked lo hi (s :: buf).

Lemma tracked_le lo hi buf : tracked lo hi buf → lo ≤ hi.
Proof. destruct 1; lia. Qed.

Lemma tracked_lower lo lo' hi buf : lo' ≤ lo → tracked lo hi buf → tracked lo' hi buf.
Proof. intros Hlo H. destruct H as [|?? i]; [constructor; lia|]. apply (tr_cons _ _ i); done || lia. Qed.

Lemma tracked_snoc lo hi buf s :
  tracked lo hi buf → seg_sn s = u32 hi → payload s = f hi → tracked lo (hi + 1) (buf ++ [s]).
Proof.
  intros H Hs Hp. induction H as [lo hi|lo hi i t buf Hi Ht Hpt _ IH]; simpl.
  - apply (tr_cons _ _ hi); [lia|done|done|]. constructor. lia.
  - apply (tr_cons _ _ i); [lia|done|done|]. by apply IH.
Qed.

Lemma tracked_drop lo hi l1 l2 :
  tracked lo hi (l1 ++ l2) → tracked lo hi l2.
Proof.
  revert lo. induction l1 as [|s l1 IH]; intros lo H; [done|]. inversion H; subst.
  eapply tracked_lower; [|by apply IH]. lia.
Qed.

Lemma tracked_remove lo hi l1 s l2 :
  tracked lo hi (l1 ++ s :: l2) → tracked lo hi (l1 ++ l2).
Proof.
  revert lo. induction l1 as [|t l1 IH]; intros lo H; simpl in *; inversion H; subst.
  - eapply tracked_lower; [|done]. lia.
  - eapply tr_cons; eauto.
Qed.

Lemma tracked_head lo hi s buf :
  tracked lo hi (s :: buf) → ∃ i, lo ≤ i < hi ∧ seg_sn s = u32 i ∧ tracked i hi (s :: buf).
Proof.
  inversion 1 as [|?? i ?? Hi Hs Hp Hb]; subst. exists i. split; [done|]. split; [done|].
  apply (tr_cons _ _ i); done || lia.
Qed.

(** Updates that keep the number and the payload. *)
Lemma tracked_update lo hi buf buf' :
  tracked lo hi buf → Forall2 (λ s t, seg_sn t = seg_sn s ∧ payload t = payload s) buf buf' →
  tracked lo hi buf'.
Proof.
  intros H. revert buf'. induction H as [|lo hi i s buf Hi Hs Hp _ IH]; intros buf' Hf;
    inversion Hf as [|?? ?? [H1 H2] Hf']; subst; [by constructor|].
  apply (tr_cons _ _ i); [done|congruence|congruence|]. by apply IH.
Qed.

Lemma tracked_member lo hi buf s :
  tracked lo hi buf → s ∈ buf → ∃ i, lo ≤ i < hi ∧ seg_sn s = u32 i ∧ payload s = f i.
Proof.
  induction 1 as [|lo hi i t buf Hi Ht Hp H IH]; intros Hin; [by apply elem_of_nil in Hin|].
  apply elem_of_cons in Hin as [->|Hin]; [by exists i|].
  destruct (IH Hin) as (j & ? & ? & ?). exists j. split_and!; done || lia.
Qed.

Lemma tracked_length lo hi buf : tracked lo hi buf → Z.of_nat (length buf) ≤ hi - lo.
Proof. induction 1; simpl; lia. Qed.

(** ** The loops *)

Lemma una_loop_split una buf :
  ∃ acked rest, una_loop una buf = (acked, rest) ∧ buf = acked ++ rest.
Proof.
  induction buf as [|s buf IH]; simpl; [by exists [], []|].
  destruct (0 <? _); [|by exists [], (s :: buf)].
  destruct IH as (a & r & -> & ->). by exists (s :: a), r.
Qed.

(** For an [una] inside the window, exactly the segments before it go. *)
Lemma una_loop_exact A lo hi buf :
  tracked lo hi buf → lo ≤ A ≤ hi → hi - lo < 2 ^ 31 →
  ∃ acked rest, una_loop (u32 A) buf = (acked, rest) ∧ buf = acked ++ rest ∧
    tracked lo A acked ∧ tracked A hi rest.
Proof.
  intros H. revert A. induction H as [lo hi Hl|lo hi i s buf Hi Hs Hp H IH]; intros A HA Hw; simpl.
  { exists [], []. split_and!; try done; constructor; lia. }
  rewrite Hs, itimediff_exact by lia. destruct (0 <? A - i) eqn:E; b2p.
  - destruct (IH A) as (a & r & -> & -> & Ha & Hr); [lia|lia|]. exists (s :: a), r.
    split_and!; [done|done|apply (tr_cons _ _ i); done || lia|done].
  - exists [], (s :: buf). split_and!; [done|done|constructor; lia|].
    apply (tr_cons _ _ i); done || lia.
Qed.

Lemma ack_loop_split sn buf :
  match ack_loop sn buf with
  | (None, r) => r = buf
  | (Some s, r) => ∃ l1 l2, buf = l1 ++ s :: l2 ∧ r = l1 ++ l2 ∧ seg_sn s = sn
  end.
Proof.
  induction buf as [|s buf IH]; simpl; [done|].
  destruct (sn =? seg_sn s) eqn:E; b2p; [by exists [], buf|].
  destruct (_itimediff sn (seg_sn s) <? 0); [done|].
  destruct (ack_loop sn buf) as [[t|] r].
  - destruct IH as (l1 & l2 & -> & -> & Ht). by exists (s :: l1), l2.
  - by subst.
Qed.

(** Inside the window an acknowledged segment is found if it is there. *)
Lemma ack_loop_finds A lo hi buf s :
  tracked lo hi buf → lo ≤ A < hi → hi - lo < 2 ^ 31 → s ∈ buf → seg_sn s = u32 A →
  ∃ l1 l2, buf = l1 ++ s :: l2 ∧ ack_loop (u32 A) buf = (Some s, l1 ++ l2).
Proof.
  intros H. revert A. induction H as [lo hi Hl|lo hi i t buf Hi Ht Hp H IH]; intros A HA Hw Hin Hs.
  { by apply elem_of_nil in Hin. }
  cbn [ack_loop]. destruct (u32 A =? seg_sn t) eqn:E; b2p.
  - apply elem_of_cons in Hin as [->|Hin]; [by exists [], buf|]. exfalso.
    destruct (tracked_member _ _ _ _ H Hin) as (j & Hj & Hjs & _).
    assert (u32 A = u32 i) as E1 by congruence. assert (u32 A = u32 j) as E2 by congruence.
    assert (_itimediff (u32 A) (u32 i) = 0) as D1 by (rewrite E1; unfold _itimediff; by rewrite Z.sub_diag).
    assert (_itimediff (u32 A) (u32 j) = 0) as D2 by (rewrite E2; unfold _itimediff; by rewrite Z.sub_diag).
    rewrite itimediff_exact in D1, D2 by lia. lia.
  - apply elem_of_cons in Hin as [->|Hin]; [congruence|].
    destruct (tracked_member _ _ _ _ H Hin) as (j & Hj & Hjs & _).
    assert (A = j) as ->.
    { assert (u32 A = u32 j) as E2 by congruence.
      assert (_itimediff (u32 A) (u32 j) = 0) as D2 by (rewrite E2; unfold _itimediff; by rewrite Z.sub_diag).
      rewrite itimediff_exact in D2 by lia. lia. }
    rewrite Ht, itimediff_exact by lia. destruct (j - i <? 0) eqn:E3; b2p; [lia|].
    destruct (IH j) as (l1 & l2 & -> & ->); [lia|lia|done|done|]. by exists (t :: l1), l2.
Qed.

Lemma fastack_loop_same sn ts buf :
  Forall2 (λ s t, seg_sn t = seg_sn s ∧ payload t = payload s) buf (fastack_loop sn ts buf).
Proof.
  induction buf as [|s buf IH]; simpl; [constructor|].
  destruct (_ <? 0); [apply Forall_Forall2_diag; by apply Forall_true|].
  destruct (_ && _); by constructor.
Qed.
End tracked.

(** Only segments with numbers in [P] leave the send buffer. *)
Definition releases (P : Z → Prop) (k k' : ikcpcb) : Prop :=
  ∀ s, s ∈ snd_buf k → P (seg_sn s) ∨ ∃ t, t ∈ snd_buf k' ∧ seg_sn t = seg_sn s.

Lemma releases_same (P : Z → Prop) k k' : snd_buf k' = snd_buf k → releases P k k'.
Proof. intros E s Hs. right. exists s. by rewrite E. Qed.

Lemma releases_trans (P Q R : Z → Prop) k1 k2 k3 :
  releases P k1 k2 → releases Q k2 k3 → (∀ x, P x → R x) → (∀ x, Q x → R x) → releases R k1 k3.
Proof.
  intros H12 H23 HP HQ s Hs. destruct (H12 s Hs) as [?|(t & Ht & Et)]; [by left; apply HP|].
  destruct (H23 t Ht) as [?|(u & Hu & Eu)]; [left; apply HQ; by rewrite <- Et|].
  right. exists u. split; [done|congruence].
Qed.

Lemma releases_weaken (P Q : Z → Prop) k k' : releases P k k' → (∀ x, P x → Q x) → releases Q k k'.
Proof. intros H HPQ s Hs. destruct (H s Hs) as [?|?]; [left; by apply HPQ|by right]. Qed.

Lemma una_loop_acked una buf acked rest s :
  una_loop una buf = (acked, rest) → s ∈ acked → 0 < _itimediff una (seg_sn s).
Proof.
  revert acked rest. induction buf as [|t buf IH]; intros acked rest; cbn [una_loop]; [intros [= <- <-]; set_solver|].
  destruct (0 <? _) eqn:E; b2p; [|intros [= <- <-]; set_solver].
  destruct (una_loop una buf) as [a r]. intros [= <- <-] [->|Hs]%elem_of_cons; [done|]. by eapply IH.
Qed.

Lemma fastack_releases k sn ts : releases (λ _, False) k (ikcp_parse_fastack k sn ts).
Proof.
  unfold ikcp_parse_fastack. destruct (_ || _); [by apply releases_same|]. intros s Hs. right. kred.
  apply list_elem_of_lookup in Hs as [i Hi].
  destruct (Forall2_lookup_l _ _ _ _ _ (fastack_loop_same sn ts (snd_buf k)) Hi) as (t & Ht & Et & _).
  exists t. split; [by eapply list_elem_of_lookup_2|done].
Qed.

(** ** The sending half *)

(** A segment in the send buffer: numbered, and ready to be transmitted. *)
Definition pushed (k : ikcpcb) (s : ikcpseg) : Prop :=
  queued k s ∧ seg_cmd s = IKCP_CMD_PUSH ∧ seg_conv s = conv k.

Section sender.
(** The outgoing stream. *)
Variable f : Z → Z * list Z.
Implicit Types (U X : Z) (k : ikcpcb).

(** [U] is the index of [snd_una], [X] of [snd_nxt]; the queue continues the
    stream from [X].  The 16-bit remote window bounds what is in flight. *)
Record snd_state U X k : Prop := {
  ss_una : snd_una k = u32 U;
  ss_nxt : snd_nxt k = u32 X;
  ss_win : X - U < 2 ^ 16;
  ss_buf : tracked f U X (snd_buf k);
  ss_n : nsnd_buf k = Z.of_nat (length (snd_buf k));
  ss_sized : Forall (pushed k) (snd_buf k);
  ss_queue : payload <$> snd_queue k = f <$> seqZ X (Z.of_nat (length (snd_queue k)));
}.

(** [snd_una] is the first unacknowledged number. *)
Definition shrunk k : Prop :=
  snd_una k = match snd_buf k with s :: _ => seg_sn s | [] => snd_nxt k end.

Lemma snd_buf_small U X k : snd_state U X k → Z.of_nat (length (snd_buf k)) < 2 ^ 16.
Proof. intros H. pose proof (tracked_length _ _ _ _ (ss_buf _ _ _ H)). pose proof (ss_win _ _ _ H). lia. Qed.

(** Replacing the send buffer by a part of it. *)
Lemma snd_state_shorter U X k buf al :
  snd_state U X k → tracked f U X buf → buf ⊆ snd_buf k →
  snd_state U X (k <| ackedlen := al |> <| snd_buf := buf |> <| nsnd_buf := Z.of_nat (length buf) |>).
Proof.
  intros [Hu Hn Hw Hb Hnb Hs Hq] Ht Hsub. constructor; kred; try done.
  rewrite Forall_forall in *. intros s Hin. apply Hs, Hsub, Hin.
Qed.

Lemma parse_una_run U X k a una :
  snd_state U X k →
  ∃ acked buf a' al, ikcp_parse_una una (World k a) =
      Ok (tt, World (k <| ackedlen := al |> <| snd_buf := buf |> <| nsnd_buf := Z.of_nat (length buf) |>) a') ∧
    una_loop una (snd_buf k) = (acked, buf) ∧ snd_buf k = acked ++ buf ∧
    al_live a' = al_live a - Z.of_nat (length acked) ∧ (al_total a → al_total a').
Proof.
  intros H. destruct (una_loop_split una (snd_buf k)) as (acked & buf & E & Hb).
  pose proof (snd_buf_small _ _ _ H) as Hlen. rewrite Hb, length_app in Hlen.
  unfold ikcp_parse_una, get, put. run. rewrite E.
  destruct (free_n_run (length acked) k a) as (a' & Hf & Hl & Ht). run. rewrite Hf. run.
  exists acked, buf, a', (u32 (ackedlen k + foldr (λ s n, seg_len s + n) 0 acked)).
  split_and!; try done.
  assert (u32 (nsnd_buf k - Z.of_nat (length acked)) = Z.of_nat (length buf)) as ->; [|done].
  rewrite (ss_n _ _ _ H), Hb, length_app, u32_small by lia. lia.
Qed.

(** An [una] inside the window acknowledges exactly what precedes it. *)
Lemma parse_una_exact U X k a A :
  snd_state U X k → U ≤ A ≤ X →
  ∃ acked buf a' al, ikcp_parse_una (u32 A) (World k a) =
      Ok (tt, World (k <| ackedlen := al |> <| snd_buf := buf |> <| nsnd_buf := Z.of_nat (length buf) |>) a') ∧
    snd_buf k = acked ++ buf ∧ tracked f U A acked ∧ tracked f A X buf.
Proof.
  intros H HA. destruct (parse_una_run U X k a (u32 A) H) as (acked & buf & a' & al & Hr & E & Hb & _).
  destruct (una_loop_exact f A U X (snd_buf k)) as (acked' & buf' & E' & _ & H1 & H2);
    [apply (ss_buf _ _ _ H)|done|pose proof (ss_win _ _ _ H); lia|].
  rewrite E in E'. simplify_eq. by exists acked', buf', a', al.
Qed.

Lemma parse_ack_run U X k a sn :
  snd_state U X k →
  ∃ k' a', ikcp_parse_ack sn (World k a) = Ok (tt, World k' a') ∧ snd_state U X k' ∧
    k' = k <| ackedlen := ackedlen k' |> <| snd_buf := snd_buf k' |> <| nsnd_buf := nsnd_buf k' |> ∧
    al_live a' - Z.of_nat (length (snd_buf k')) = al_live a - Z.of_nat (length (snd_buf k)) ∧
    (al_total a → al_total a') ∧ releases (λ x, x = sn) k k'.
Proof.
  intros H. unfold ikcp_parse_ack, get, put. run.
  assert (∃ k' a', Ok (tt, World k a) = Ok (tt, World k' a') ∧ snd_state U X k' ∧
    k' = k <| ackedlen := ackedlen k' |> <| snd_buf := snd_buf k' |> <| nsnd_buf := nsnd_buf k' |> ∧
    al_live a' - Z.of_nat (length (snd_buf k')) = al_live a - Z.of_nat (length (snd_buf k)) ∧
    (al_total a → al_total a') ∧ releases (λ x, x = sn) k k') as Hsame.
  { exists k, a. split_and!; try done; [by destruct k|by apply releases_same]. }
  destruct (_ || _); [done|]. pose proof (ack_loop_split sn (snd_buf k)) as Hs.
  destruct (ack_loop sn (snd_buf k)) as [[s|] r]; [|done]. clear Hsame.
  destruct Hs as (l1 & l2 & Hb & -> & Hsn). unfold ikcp_segment_delete, ikcp_free. run.
  assert (u32 (nsnd_buf k - 1) = Z.of_nat (length (l1 ++ l2))) as ->.
  { pose proof (snd_buf_small _ _ _ H) as Hl.
    rewrite (ss_n _ _ _ H), Hb, !length_app in *. cbn [length] in *. rewrite u32_small; lia. }
  eexists _, _. split_and!; [reflexivity|..].
  - apply snd_state_shorter; [done| |rewrite Hb; set_solver].
    eapply tracked_remove. rewrite <- Hb. apply (ss_buf _ _ _ H).
  - done.
  - kred. rewrite Hb, !length_app. simpl. lia.
  - auto with ga.
  - intros t Ht. rewrite Hb in Ht. kred. assert (t = s ∨ t ∈ l1 ++ l2) as [->|Hin] by set_solver; [by left|].
    right. by exists t.
Qed.

Lemma shrink_run U X k :
  snd_state U X k → ∃ U', U ≤ U' ∧ snd_state U' X (ikcp_shrink_buf k) ∧ shrunk (ikcp_shrink_buf k) ∧
    ikcp_shrink_buf k = k <| snd_una := snd_una (ikcp_shrink_buf k) |>.
Proof.
  intros [Hu Hn Hw Hb Hnb Hs Hq]. unfold ikcp_shrink_buf, shrunk.
  pose proof (tracked_le _ _ _ _ Hb) as Hle. destruct (snd_buf k) as [|s buf] eqn:E.
  - exists X. split_and!; [done| |kred; by rewrite E|done].
    constructor; kred; rewrite ?E; try done; [lia|]. constructor. lia.
  - destruct (tracked_head _ _ _ _ _ Hb) as (i & Hi & Hsn & Hb').
    exists i. split_and!; [lia| |kred; by rewrite E|done].
    constructor; kred; rewrite ?E; try done. lia.
Qed.

Lemma parse_fastack_run U X k sn ts :
  snd_state U X k → snd_state U X (ikcp_parse_fastack k sn ts) ∧
    (shrunk k → shrunk (ikcp_parse_fastack k sn ts)) ∧
    length (snd_buf (ikcp_parse_fastack k sn ts)) = length (snd_buf k) ∧
    ikcp_parse_fastack k sn ts = k <| snd_buf := snd_buf (ikcp_parse_fastack k sn ts) |>.
Proof.
  intros H. unfold ikcp_parse_fastack. destruct (_ || _); [by destruct k|].
  pose proof (fastack_loop_same sn ts (snd_buf k)) as Hs.
  destruct H as [Hu Hn Hw Hb Hnb Hz Hq]. pose proof (Forall2_length _ _ _ Hs) as Hlen.
  split_and!; kred; [|unfold shrunk; kred|done|done].
  - constructor; kred; try done; [by eapply tracked_update|by rewrite <- Hlen|].
    clear -Hz. induction Hz as [|s buf Hs Hz IH]; cbn [fastack_loop]; [constructor|].
    destruct (_ <? 0); [by constructor|]. destruct (_ && _); constructor; done.
  - intros ->. destruct (snd_buf k) as [|s buf]; [done|]. cbn [fastack_loop].
    destruct (_ <? 0); [done|]. destruct (_ && _); done.
Qed.
End sender.
