(* ===== verification/IkcpInput.v ===== *)
(** * KCP: acknowledgement list and [ikcp_input]

    [ikcp_input] is run on arbitrary bytes: it never faults, keeps the
    invariant of the control block and accounts for every block. *)

From S2P Require Import Prelude CRuntime IkcpData Ikcp IkcpCodec IkcpRecv IkcpSend.
From S2P Require Import IkcpAck.

(** ** The acknowledgement list *)

(** [ps] are the pending (sn, ts) pairs, oldest first. *)
Definition ack_rep (ps : list (Z * Z)) (k : ikcpcb) : Prop :=
  ackcount k = Z.of_nat (length ps) ∧
  match acklist k with
  | None => ps = [] ∧ ackblock k = 0
  | Some l => ackblock k = Z.of_nat (length l) ∧ ∃ junk, l = (Some <$> ps) ++ junk
  end.

Lemma newblock_loop_spec fuel b n :
  1 ≤ b < 2 ^ 32 → 0 ≤ n ≤ 2 ^ 31 → n ≤ b * 2 ^ Z.of_nat fuel →
  n ≤ newblock_loop fuel b n < 2 ^ 32.
Proof.
  revert b. induction fuel as [|fuel IH]; intros b Hb Hn Hf; cbn [newblock_loop].
  - rewrite Nat2Z.inj_0, Z.pow_0_r in Hf. lia.
  - destruct (b <? n) eqn:E; b2p; [|lia]. rewrite Z.shiftl_mul_pow2, u32_small by lia.
    apply IH; [lia|done|]. rewrite Nat2Z.inj_succ, Z.pow_succ_r in Hf by lia. lia.
Qed.

(** Room for one more pair. *)
Lemma grow_acklist_run ps k a :
  ack_rep ps k → al_total a → Z.of_nat (length ps) < 2 ^ 31 →
  ∃ k1 a1 l junk, grow_acklist (World k a) = Ok (tt, World k1 a1) ∧
    k1 = k <| acklist := Some l |> <| ackblock := Z.of_nat (length l) |> ∧
    l = (Some <$> ps) ++ junk ∧ junk ≠ [] ∧ al_total a1 ∧
    al_live a1 - blocks k1 = al_live a - blocks k.
Proof.
  intros [Hc Hl] Ha Hlen. unfold grow_acklist, get, put. run. rewrite Hc, u32_small by lia.
  destruct (ackblock k <? _) eqn:E; b2p.
  - pose proof (newblock_loop_spec 32 8 (Z.of_nat (length ps) + 1) ltac:(lia) ltac:(lia) ltac:(lia)) as Hnb.
    run. rewrite malloc_run by done. run. rewrite Nat2Z.id.
    set (nb := newblock_loop 32 8 _) in *.
    set (kept := match acklist k with Some l => take _ l | None => [] end).
    assert (kept = Some <$> ps) as Hkept.
    { unfold kept. destruct (acklist k) as [l|]; [|by destruct Hl as [-> _]].
      destruct Hl as [_ [junk ->]]. by rewrite take_app_length' by (by rewrite length_fmap). }
    rewrite Hkept, length_fmap.
    assert (Z.of_nat (length ((Some <$> ps) ++ replicate (Z.to_nat nb - length ps) None)) = nb) as Hnl
      by (rewrite length_app, length_fmap, length_replicate; lia).
    assert (replicate (Z.to_nat nb - length ps) (None : option (Z * Z)) ≠ []) as Hne
      by (destruct (Z.to_nat nb - length ps)%nat eqn:E0; [lia|done]).
    destruct (null (acklist k)) eqn:En; unfold ikcp_free; run;
      (eexists _, _, ((Some <$> ps) ++ replicate (Z.to_nat nb - length ps) None), _;
       split_and!; [reflexivity|by rewrite Hnl|done|done|auto with ga|];
       unfold blocks; kred; rewrite En; simpl; lia).
  - destruct (acklist k) as [l|] eqn:El; [|lia]. destruct Hl as [Hb [junk Hl]].
    exists k, a, l, junk. split_and!; try done.
    + destruct k. simpl in *. by subst.
    + intros ->. rewrite Hl, length_app, length_fmap in Hb. simpl in Hb. lia.
Qed.

Lemma ack_push_run ps k a sn ts :
  ack_rep ps k → al_total a → Z.of_nat (length ps) < 2 ^ 31 →
  ∃ k' a', ikcp_ack_push sn ts (World k a) = Ok (tt, World k' a') ∧
    ack_rep (ps ++ [(sn, ts)]) k' ∧ al_total a' ∧
    al_live a' - blocks k' = al_live a - blocks k ∧
    k' = k <| acklist := acklist k' |> <| ackblock := ackblock k' |> <| ackcount := ackcount k' |>.
Proof.
  intros Hrep Ha Hlen. pose proof (proj1 Hrep) as Hc.
  destruct (grow_acklist_run ps k a Hrep Ha Hlen) as (k1 & a1 & l & [|j junk] & Hg & Hk1 & Hl & Hj & Ha1 & Hlive);
    [done|].
  unfold ikcp_ack_push, get, put. run. rewrite Hg. run.
  pose proof (f_equal acklist Hk1) as H1. pose proof (f_equal ackcount Hk1) as H2. kred_in H1. kred_in H2.
  assert (Z.of_nat (length l) = Z.of_nat (length ps) + 1 + Z.of_nat (length junk)) as Hll.
  { rewrite Hl, length_app, length_fmap. cbn [length]. lia. }
  rewrite H1, H2, Hc. destruct (_ <=? _) eqn:E; b2p; [lia|]. rewrite Nat2Z.id, u32_small by lia.
  eexists _, _. split; [reflexivity|]. split_and!; [|done|..].
  - unfold ack_rep. kred. rewrite length_app. cbn [length]. split; [lia|].
    rewrite length_insert. split; [by rewrite Hk1|].
    exists junk. rewrite Hl, insert_app_r_alt by (by rewrite length_fmap).
    by rewrite length_fmap, Nat.sub_diag, fmap_app, <- app_assoc.
  - rewrite <- Hlive. unfold blocks. kred. rewrite H1. done.
  - rewrite Hk1. done.
Qed.

(** ** The invariant of a control block *)

(** What each part of the invariant reads. *)
Definition snd_view (k : ikcpcb) :=
  (snd_una k, snd_nxt k, snd_buf k, nsnd_buf k, mss k, mtu k, snd_queue k, nsnd_que k, conv k).
Definition queue_view (k : ikcpcb) := (mss k, mtu k, snd_queue k, nsnd_que k).
Definition rcv_view (k : ikcpcb) :=
  (rcv_nxt k, rcv_wnd k, rcv_queue k, nrcv_que k, rcv_buf k, nrcv_buf k).
Definition ack_view (k : ikcpcb) := (acklist k, ackcount k, ackblock k).

(** Settings and timers, which only the interface calls for them change. *)
Definition cfg_view (k : ikcpcb) :=
  (conv k, snd_wnd k, rcv_wnd k, mtu k, current k, interval k, updated k, nodelay k, nocwnd k,
   fastresend k, rx_minrto k, stream k, ts_flush k, dead_link k, output k).

(** What no segment of a datagram changes. *)
Definition static_view (k : ikcpcb) := (cfg_view k, snd_queue k).

Lemma snd_state_ext f U X k k' : snd_view k' = snd_view k → snd_state f U X k → snd_state f U X k'.
Proof.
  intros [= E1 E2 E3 E4 E5 Em E6 E7 Ec] [H1 H2 H3 H4 H5 H6 H7].
  constructor; rewrite ?E1, ?E2, ?E3, ?E4, ?E6; try done. unfold pushed, queued. by rewrite E5, Ec.
Qed.

Lemma shrunk_ext k k' : snd_view k' = snd_view k → shrunk k → shrunk k'.
Proof. intros [= E1 E2 E3 E4 E5 Em E6 E7 Ec] H. unfold shrunk. by rewrite E1, E2, E3. Qed.

Lemma snd_queue_ok_ext k k' : queue_view k' = queue_view k → snd_queue_ok k → snd_queue_ok k'.
Proof.
  intros [= E5 Em E6 E7] [H1 H2 H3 H4 H5].
  constructor; rewrite ?E5, ?Em, ?E6, ?E7; try done. unfold queued. by rewrite E5.
Qed.

Lemma rcv_state_ext g N k k' : rcv_view k' = rcv_view k → rcv_state g N k → rcv_state g N k'.
Proof.
  intros [= E1 E2 E3 E4 E5 E6] [H1 H2 H3 H4 H5 H6 H7 H8 H9].
  constructor; rewrite ?E1, ?E2, ?E3, ?E4, ?E5, ?E6; try done. unfold buffered. by rewrite E1.
Qed.

Lemma ack_rep_ext ps k k' : ack_view k' = ack_view k → ack_rep ps k → ack_rep ps k'.
Proof. intros [= E1 E2 E3] H. unfold ack_rep. by rewrite E1, E2, E3. Qed.

(** [f] is the outgoing stream, [U] and [X] the indices of [snd_una] and
    [snd_nxt]; [g] the incoming one, [N] the index of [rcv_nxt]; [ps] the
    pending acknowledgements. *)
Record kcp_inv (f g : Z → Z * list Z) (U X N : Z) (ps : list (Z * Z)) (k : ikcpcb) : Prop := {
  ki_queue : snd_queue_ok k;
  ki_snd : snd_state f U X k;
  ki_rcv : rcv_state g N k;
  ki_ack : ack_rep ps k;
  ki_rmt : 0 ≤ rmt_wnd k < 2 ^ 16;
}.

Lemma kcp_inv_ext f g U X N ps k k' :
  snd_view k' = snd_view k → rcv_view k' = rcv_view k → ack_view k' = ack_view k →
  0 ≤ rmt_wnd k' < 2 ^ 16 → kcp_inv f g U X N ps k → kcp_inv f g U X N ps k'.
Proof.
  intros H1 H2 H3 H4 []. assert (queue_view k' = queue_view k) by (unfold snd_view, queue_view in *; congruence).
  constructor; eauto using snd_queue_ok_ext, snd_state_ext, rcv_state_ext, ack_rep_ext.
Qed.

Lemma update_ack_frame k rtt :
  ∃ x y z, ikcp_update_ack k rtt = k <| rx_srtt := x |> <| rx_rttval := y |> <| rx_rto := z |>.
Proof.
  unfold ikcp_update_ack.
  set (k1 := if rx_srtt k =? 0 then _ else _).
  assert (∃ x y, k1 = k <| rx_srtt := x |> <| rx_rttval := y |>) as (x & y & ->).
  { unfold k1. clear k1. destruct (rx_srtt k =? 0); [by eexists _, _|].
    generalize (i32 (rtt - rx_srtt k)) as d. intros d.
    generalize (i32 (Z.quot (i32 (3 * rx_rttval k) + (if d <? 0 then - d else d)) 4)) as y. intros y.
    cbv zeta. kred. generalize (Z.quot (i32 (i32 (7 * rx_srtt k) + rtt)) 8) as x. intros x.
    destruct (x <? 1); [by exists 1, y|by exists x, y]. }
  cbv zeta. generalize (i32 (_ibound_ (u32 (rx_minrto (k <| rx_srtt := x |> <| rx_rttval := y |>))) 
    (u32 (i32 (u32 (rx_srtt (k <| rx_srtt := x |> <| rx_rttval := y |>) +
      _imax_ (interval (k <| rx_srtt := x |> <| rx_rttval := y |>))
        (u32 (i32 (4 * rx_rttval (k <| rx_srtt := x |> <| rx_rttval := y |>)))))))) IKCP_RTO_MAX)) as z.
  intros z. by exists x, y, z.
Qed.

(** ** One segment *)

Lemma snd_blocks_rcv k k' : rcv_frame k k' → snd_view k' = snd_view k ∧ ack_view k' = ack_view k ∧
  rmt_wnd k' = rmt_wnd k ∧ (static_view k' = static_view k ∧ cwnd k' = cwnd k) ∧ rcv_wnd k' = rcv_wnd k ∧ snd_una k' = snd_una k.
Proof. intros ->. done. Qed.

Section input.
Variables (f g : Z → Z * list Z).
Implicit Types (U X N : Z) (ps : list (Z * Z)) (k : ikcpcb).

(** A pushed segment carries what the incoming stream has at its place. *)
Definition genuine N k (h : header) (pl : list Z) : Prop :=
  h_cmd h = IKCP_CMD_PUSH → ahead (rcv_nxt k) (h_sn h) < rcv_wnd k →
  (∀ t, t ∈ rcv_buf k → seg_sn t ≠ h_sn h) →
  (h_frg h, pl) = g (N + ahead (rcv_nxt k) (h_sn h)).

Lemma input_una_run U X N ps k a w una :
  kcp_inv f g U X N ps k → 0 ≤ w < 2 ^ 16 →
  ∃ k1 a1 U1 k2, ikcp_parse_una una (World (k <| rmt_wnd := w |>) a) = Ok (tt, World k1 a1) ∧
    k2 = ikcp_shrink_buf k1 ∧ kcp_inv f g U1 X N ps k2 ∧ shrunk k2 ∧ U ≤ U1 ∧
    al_live a1 - blocks k2 = al_live a - blocks k ∧ (al_total a → al_total a1) ∧
    rcv_view k2 = rcv_view k ∧ (static_view k2 = static_view k ∧ cwnd k2 = cwnd k) ∧
    releases (λ sn, 0 < _itimediff una sn) k k2.
Proof.
  intros [Hq Hs Hr Hk Hw] Hwnd. set (k0 := k <| rmt_wnd := w |>).
  assert (snd_state f U X k0) as Hs0 by (by eapply snd_state_ext; [|exact Hs]).
  destruct (parse_una_run f U X k0 a una Hs0) as (acked & buf & a1 & al & Hrun & Eu & Hb & Hl & Ht).
  set (k1 := k0 <| ackedlen := al |> <| snd_buf := buf |> <| nsnd_buf := _ |>) in *.
  assert (snd_state f U X k1) as Hs1.
  { apply snd_state_shorter; [done| |rewrite Hb; set_solver].
    eapply tracked_drop. rewrite <- Hb. apply (ss_buf _ _ _ _ Hs0). }
  destruct (shrink_run f U X k1 Hs1) as (U1 & HU & Hs2 & Hsh & Heq).
  exists k1, a1, U1, (ikcp_shrink_buf k1).
  split_and!; try done; try (rewrite Heq; done).
  - constructor.
    + eapply snd_queue_ok_ext; [|exact Hq]. rewrite Heq. done.
    + done.
    + eapply rcv_state_ext; [|exact Hr]. rewrite Heq. done.
    + eapply ack_rep_ext; [|exact Hk]. rewrite Heq. done.
    + rewrite Heq. exact Hwnd.
  - rewrite Heq. unfold blocks. kred. unfold k1, k0 in *. kred_in Hb. kred.
    rewrite Hb, length_app. lia.
  - intros s Hin. rewrite Heq. unfold k1, k0 in *. kred_in Hb. kred. rewrite Hb in Hin.
    apply elem_of_app in Hin as [Hin|Hin]; [left; by eapply una_loop_acked|right; by exists s].
Qed.

Lemma input_ack_run U X N ps k a h acc :
  kcp_inv f g U X N ps k →
  ∃ acc' k' a' U', input_ack h acc (World k a) = Ok (acc', World k' a') ∧
    kcp_inv f g U' X N ps k' ∧ shrunk k' ∧ U ≤ U' ∧
    al_live a' - blocks k' = al_live a - blocks k ∧ (al_total a → al_total a') ∧
    rcv_view k' = rcv_view k ∧ (static_view k' = static_view k ∧ cwnd k' = cwnd k) ∧
    releases (λ sn, sn = h_sn h) k k'.
Proof.
  intros Hinv. unfold input_ack, get, put. run.
  set (k0 := if 0 <=? _ then _ else k).
  assert (∃ x y z, k0 = k <| rx_srtt := x |> <| rx_rttval := y |> <| rx_rto := z |>) as (x & y & z & ->).
  { unfold k0. destruct (0 <=? _); [apply update_ack_frame|].
    exists (rx_srtt k), (rx_rttval k), (rx_rto k). by destruct k. }
  set (k0 := k <| rx_srtt := x |> <| rx_rttval := y |> <| rx_rto := z |>).
  assert (kcp_inv f g U X N ps k0) as [Hq Hs Hr Hk Hw] by (by eapply kcp_inv_ext, Hinv; [..|apply Hinv]).
  destruct (parse_ack_run f U X k0 a (h_sn h) Hs) as (k1 & a1 & Hrun & Hs1 & Hf & Hl & Ht & Hrel).
  rewrite Hrun. run.
  destruct (shrink_run f U X k1 Hs1) as (U1 & HU & Hs2 & Hsh & Heq).
  eexists _, (ikcp_shrink_buf k1), a1, U1. split; [reflexivity|].
  split_and!; try done; try (rewrite Heq, Hf; done).
  - constructor.
    + eapply snd_queue_ok_ext; [|exact Hq]. rewrite Heq, Hf. done.
    + done.
    + eapply rcv_state_ext; [|exact Hr]. rewrite Heq, Hf. done.
    + eapply ack_rep_ext; [|exact Hk]. rewrite Heq, Hf. done.
    + rewrite Heq, Hf. exact Hw.
  - rewrite Heq. unfold blocks. kred.
    rewrite (f_equal acklist Hf), (f_equal snd_queue Hf), (f_equal rcv_queue Hf), (f_equal rcv_buf Hf).
    kred. unfold k0 in *. kred. kred_in Hl. lia.
Qed.

(** The pending acknowledgements [ps'] are [ps] and perhaps one more, of a
    number that has arrived. *)
Definition recorded h ps N N' k' ps' : Prop :=
  ps' = ps ∨ ps' = ps ++ [(h_sn h, h_ts h)] ∧ h_cmd h = IKCP_CMD_PUSH ∧
    ∃ i, held N' k' i ∧ u32 i = h_sn h ∧ N - 2 ^ 31 ≤ i < N + 2 ^ 31.

Lemma wrap_below N o x : o = u32 N → 0 ≤ x < 2 ^ 32 → u32 (N + ahead o x - 2 ^ 32) = x.
Proof.
  intros -> Hx. rewrite <- (ahead_add (u32 N) x) at 2 by done. rewrite u32_add_l. unfold u32.
  by rewrite <- (Z_mod_plus_full (N + _) (-1)), <- Z.add_opp_r.
Qed.

Lemma input_push_run U X N ps k a h pl :
  kcp_inv f g U X N ps k → shrunk k → al_total a → header_ok h →
  h_cmd h = IKCP_CMD_PUSH → h_len h = Z.of_nat (length pl) → h_len h < 2 ^ 31 →
  Z.of_nat (length ps) < 2 ^ 31 → genuine N k h pl →
  ∃ k' a' N' ps', input_push h pl (World k a) = Ok (tt, World k' a') ∧
    kcp_inv f g U X N' ps' k' ∧ shrunk k' ∧ N ≤ N' ∧ (N < N' → rcv_queue k' ≠ []) ∧
    (length ps' ≤ length ps + 1)%nat ∧
    al_live a' - blocks k' = al_live a - blocks k ∧ al_total a' ∧
    (static_view k' = static_view k ∧ cwnd k' = cwnd k) ∧ rcv_wnd k' = rcv_wnd k ∧
    snd_buf k' = snd_buf k ∧ advanced N k N' k' ∧ recorded h ps N N' k' ps'.
Proof.
  intros Hinv Hsh Ha Hh Hc Hlen Hbig Hps Hgen. destruct Hh as (_ & _ & Hfrg & _ & _ & Hsn & _).
  unfold input_push, get. run. destruct (_itimediff (h_sn h) _ <? 0) eqn:Ewin; b2p.
  2: { run. exists k, a, N, ps. split_and!; try done; [lia|lia|by left]. }
  destruct Hinv as [Hq Hs Hr Hk Hw]. run.
  destruct (ack_push_run ps k a (h_sn h) (h_ts h) Hk Ha Hps) as (k1 & a1 & -> & Hk1 & Ha1 & Hl1 & Hf1). run.
  assert (Hv : snd_view k1 = snd_view k ∧ rcv_view k1 = rcv_view k ∧ queue_view k1 = queue_view k ∧
    rmt_wnd k1 = rmt_wnd k ∧ (static_view k1 = static_view k ∧ cwnd k1 = cwnd k) ∧ rcv_wnd k1 = rcv_wnd k ∧ rcv_nxt k1 = rcv_nxt k ∧
    rcv_buf k1 = rcv_buf k ∧ snd_buf k1 = snd_buf k ∧ rcv_queue k1 = rcv_queue k) by (rewrite Hf1; done).
  destruct Hv as (V1 & V2 & V3 & V4 & [V5 V5'] & V6 & V7 & V8 & V9 & V10).
  pose proof (advanced_ext N k k1 V8 V7 V10) as Hadv1.
  pose proof (rs_wnd _ _ _ Hr) as Hrw.
  assert (0 ≤ rcv_nxt k < 2 ^ 32) as Hn0 by (rewrite (rs_nxt _ _ _ Hr); apply u32_range).
  pose proof (ahead_range (rcv_nxt k) (h_sn h)) as Har.
  assert (rcv_state g N k1) as Hr1 by (by eapply rcv_state_ext).
  assert (shrunk k1) as Hsh1 by (unfold shrunk in *; rewrite Hf1; done).
  assert (length (ps ++ [(h_sn h, h_ts h)]) ≤ length ps + 1)%nat as Hpl by (rewrite length_app; simpl; lia).
  rewrite V7. destruct (0 <=? _) eqn:Eold.
  2: { run. exists k1, a1, N, (ps ++ [(h_sn h, h_ts h)]). split_and!; try done; [|lia|..].
       - constructor; [by eapply snd_queue_ok_ext|by eapply snd_state_ext|done|done|by rewrite V4].
       - b2p. rewrite itimediff_origin in Eold by done. case_bool_decide; [lia|].
         right. split_and!; [done|done|]. exists (N + ahead (rcv_nxt k) (h_sn h) - 2 ^ 32).
         split_and!; [left; lia|by apply wrap_below; [apply (rs_nxt _ _ _ Hr)|]|lia|lia]. }
  b2p.
  run. rewrite segment_new_run by done. run.
  set (s := _ <| seg_conv := _ |> <| seg_cmd := _ |> <| seg_frg := _ |> <| seg_wnd := _ |>
    <| seg_ts := _ |> <| seg_sn := _ |> <| seg_una := _ |> <| seg_len := _ |>).
  destruct (parse_data_run g N k1 (al_next a1 1) s Hr1) as (k2 & a2 & n & -> & Hn & Hr2 & Hf2 & Hl2 & Ht2 & _ & _ & Hne & Hmono & Hheld).
  { unfold seg_ok, s. sred. split_and!; done || lia. }
  { unfold s. sred. rewrite V6, V7, V8. by apply Hgen. }
  destruct (snd_blocks_rcv _ _ Hf2) as (W1 & W2 & W3 & [W4 W4'] & W5 & W6).
  exists k2, a2, (N + n), (ps ++ [(h_sn h, h_ts h)]).
  assert (snd_buf k2 = snd_buf k1) as W7 by (unfold snd_view in W1; by injection W1).
  split_and!; try done; try lia; try congruence; [..|intros ?; apply Hne; lia| | | |].
  - constructor; [| |done| |by rewrite W3, V4].
    + eapply snd_queue_ok_ext; [|exact Hq]. unfold snd_view, queue_view in *. congruence.
    + eapply snd_state_ext; [|exact Hs]. congruence.
    + by eapply ack_rep_ext.
  - by eapply shrunk_ext.
  - simpl in Hl2. lia.
  - auto with ga.
  - by eapply advanced_trans.
  - unfold s in Hheld. sred_in Hheld. rewrite V6, V7 in Hheld.
    rewrite itimediff_origin in Eold by done. case_bool_decide; [|lia].
    assert (ahead (rcv_nxt k) (h_sn h) < rcv_wnd k) as Hin.
    { rewrite (itimediff_ahead (rcv_nxt k)), ahead_plus in Ewin
        by first [done|lia|apply u32_range|rewrite ahead_plus; lia]. lia. }
    right. split_and!; [done|done|]. exists (N + ahead (rcv_nxt k) (h_sn h)).
    split_and!; [by apply Hheld| |lia|lia]. rewrite <- u32_add_l, <- (rs_nxt _ _ _ Hr). by apply ahead_add.
Qed.

(** What acknowledges number [sn]. *)
Definition acked_by (h : header) (sn : Z) : Prop :=
  0 < _itimediff (h_una h) sn ∨ h_cmd h = IKCP_CMD_ACK ∧ sn = h_sn h.

(** One segment with a valid header. *)
Lemma input_segment_run U X N ps k a h pl acc :
  kcp_inv f g U X N ps k → al_total a → header_ok h →
  h_len h = Z.of_nat (length pl) → h_len h < 2 ^ 31 → Z.of_nat (length ps) < 2 ^ 31 →
  genuine N k h pl →
  ∃ acc' k' a' U' N' ps', input_segment h pl acc (World k a) = Ok (acc', World k' a') ∧
    kcp_inv f g U' X N' ps' k' ∧ shrunk k' ∧ U ≤ U' ∧ N ≤ N' ∧ (N < N' → rcv_queue k' ≠ []) ∧
    (length ps' ≤ length ps + 1)%nat ∧
    al_live a' - blocks k' = al_live a - blocks k ∧ al_total a' ∧
    (static_view k' = static_view k ∧ cwnd k' = cwnd k) ∧ rcv_wnd k' = rcv_wnd k ∧
    advanced N k N' k' ∧ recorded h ps N N' k' ps' ∧ releases (acked_by h) k k'.
Proof.
  intros Hinv Ha Hh Hlen Hbig Hps Hgen. unfold input_segment, get, put. run.
  destruct (input_una_run U X N ps k a (h_wnd h) (h_una h) Hinv) as
    (k1 & a1 & U1 & k2 & -> & -> & Hinv2 & Hsh & HU & Hl & Ht & Hv & [Hc Hd] & Hrel); [apply Hh|]. run.
  set (k2 := ikcp_shrink_buf k1) in *.
  assert (rcv_nxt k2 = rcv_nxt k ∧ rcv_wnd k2 = rcv_wnd k ∧ rcv_buf k2 = rcv_buf k ∧
    rcv_queue k2 = rcv_queue k) as (V1 & V2 & V3 & V4)
    by (unfold rcv_view in Hv; simplify_eq; done).
  pose proof (advanced_ext N k k2 V3 V1 V4) as Hadv2.
  assert (releases (acked_by h) k k2) as Hrel2 by (eapply releases_weaken; [exact Hrel|]; by left).
  assert (genuine N k2 h pl) as Hgen2 by (unfold genuine; by rewrite V1, V2, V3).
  destruct (h_cmd h =? IKCP_CMD_ACK) eqn:Ea; b2p.
  { destruct (input_ack_run U1 X N ps k2 a1 h acc Hinv2) as
      (acc' & k3 & a3 & U3 & -> & Hinv3 & Hsh3 & HU3 & Hl3 & Ht3 & Hv3 & [Hc3 Hd3] & Hrel3).
    assert (rcv_nxt k3 = rcv_nxt k2 ∧ rcv_wnd k3 = rcv_wnd k2 ∧ rcv_buf k3 = rcv_buf k2 ∧
      rcv_queue k3 = rcv_queue k2) as (W1 & W2 & W3 & W4)
      by (unfold rcv_view in Hv3; simplify_eq; done).
    exists acc', k3, a3, U3, N, ps. split_and!; try done; try lia; try congruence; [by auto|..].
    - eapply advanced_trans; [exact Hadv2|by apply advanced_ext].
    - by left.
    - eapply releases_trans; [exact Hrel2|exact Hrel3|done|]. intros x ->. by right. }
  destruct (h_cmd h =? IKCP_CMD_PUSH) eqn:Ep; b2p.
  { run. destruct (input_push_run U1 X N ps k2 a1 h pl Hinv2 Hsh (Ht Ha) Hh) as
      (k3 & a3 & N3 & ps3 & -> & Hinv3 & Hsh3 & HN3 & Hne3 & Hps3 & Hl3 & Ht3 & [Hc3 Hd3] & Hw3 & Hb3 & Hh3 & Hrec); try done.
    exists acc, k3, a3, U1, N3, ps3. split_and!; try done; try lia; try congruence; [by eapply advanced_trans|].
    by eapply releases_trans; [exact Hrel2|apply (releases_same (λ _, False)), Hb3|..]. }
  destruct (h_cmd h =? IKCP_CMD_WASK); run.
  - exists acc, (k2 <| probe := Z.lor (probe k2) IKCP_ASK_TELL |>), a1, U1, N, ps.
    split_and!; try done; try lia; [|by auto|by apply advanced_ext|by left].
    eapply kcp_inv_ext; [..|exact Hinv2]; try done. apply Hinv2.
  - exists acc, k2, a1, U1, N, ps. split_and!; try done; try lia; [by auto|by left].
Qed.
End input.

(** ** Arbitrary datagrams *)

(** Any payload is genuine for some stream that agrees with what was received
    so far. *)
Lemma regen g N k h pl :
  rcv_state g N k → header_ok h → ∃ g', rcv_state g' N k ∧ genuine g' N k h pl.
Proof.
  intros [H1 H2 H3 H4 H5 H6 H7 H8 H9] (_ & _ & _ & _ & _ & Hsn & _).
  set (j := N + ahead (rcv_nxt k) (h_sn h)).
  destruct (decide (Forall (λ t, seg_sn t ≠ h_sn h) (rcv_buf k))) as [Hnd|Hd].
  - exists (λ i, if decide (i = j) then (h_frg h, pl) else g i). split.
    2: { intros _ _ _. by rewrite decide_True. }
    pose proof (ahead_range (rcv_nxt k) (h_sn h)).
    constructor; try done.
    + rewrite H6. apply list_fmap_ext. intros i x [-> Hx]%lookup_seqZ. by rewrite decide_False by (unfold j; lia).
    + rewrite Forall_forall in *. intros t Ht. destruct (H8 t Ht) as (Hok & Ho & Hp).
      unfold buffered. split; [done|]. split; [done|]. rewrite Hp, decide_False; [done|]. unfold j. intros He.
      apply (Hnd t Ht). apply (ahead_inj (rcv_nxt k)); [apply Hok|done|lia].
  - exists g. split; [by constructor|]. intros _ _ Hn. destruct Hd. apply Forall_forall. exact Hn.
Qed.

Lemma kcp_inv_stream f g g' U X N ps k :
  rcv_state g' N k → kcp_inv f g U X N ps k → kcp_inv f g' U X N ps k.
Proof. intros H []. by constructor. Qed.

(** Early returns of the loop. *)
Definition input_code (r : Z + acks) : Prop :=
  match r with inl ret => ret = -1 ∨ ret = -2 ∨ ret = -3 | inr _ => True end.

Lemma input_loop_safe f fuel g U X N ps k a data acc :
  kcp_inv f g U X N ps k → al_total a → Z.of_nat (length ps + length data) < 2 ^ 31 →
  ∃ r k' a' g' U' N' ps', input_loop fuel data acc (World k a) = Ok (r, World k' a') ∧
    input_code r ∧ kcp_inv f g' U' X N' ps' k' ∧ U ≤ U' ∧ N ≤ N' ∧
    (length ps' ≤ length ps + length data)%nat ∧
    al_live a' - blocks k' = al_live a - blocks k ∧ al_total a' ∧ (static_view k' = static_view k ∧ cwnd k' = cwnd k).
Proof.
  revert g U N ps k a data acc. induction fuel as [|fuel IH]; intros g U N ps k a data acc Hinv Ha Hb.
  { exists (inr acc), k, a, g, U, N, ps. cbn [input_loop]. split_and!; done || lia. }
  assert (Hstay : ∀ r, input_code r → ∃ r' k' a' g' U' N' ps', Ok (r, World k a) = Ok (r', World k' a') ∧
    input_code r' ∧ kcp_inv f g' U' X N' ps' k' ∧ U ≤ U' ∧ N ≤ N' ∧
    (length ps' ≤ length ps + length data)%nat ∧
    al_live a' - blocks k' = al_live a - blocks k ∧ al_total a' ∧ (static_view k' = static_view k ∧ cwnd k' = cwnd k)).
  { intros r Hr. exists r, k, a, g, U, N, ps. split_and!; done || lia. }
  cbn [input_loop]. destruct (_ <? IKCP_OVERHEAD) eqn:E1; b2p; [by apply Hstay|].
  unfold IKCP_OVERHEAD in E1.
  destruct (decode_header_total data) as (h & -> & Hh); [lia|]. unfold get. run.
  destruct (negb _); [apply Hstay; simpl; auto|].
  destruct ((_ <? h_len h) || _) eqn:E2; [apply Hstay; simpl; auto|]. b2p.
  destruct (_ && _); [apply Hstay; simpl; auto|].
  rewrite length_drop in *. pose proof Hh as (_ & _ & _ & _ & _ & _ & _ & Hlen).
  set (pl := take (Z.to_nat (h_len h)) (drop 24 data)).
  assert (h_len h = Z.of_nat (length pl)) as Hpl by (unfold pl; rewrite length_take, length_drop; lia).
  destruct (regen g N k h pl (ki_rcv _ _ _ _ _ _ _ Hinv) Hh) as (g1 & Hr1 & Hgen).
  run. destruct (input_segment_run f g1 U X N ps k a h pl acc) as
    (acc1 & k1 & a1 & U1 & N1 & ps1 & Hrun & Hinv1 & _ & HU1 & HN1 & _ & Hps1 & Hl1 & Ha1 & [Hc1 Hd1] & _);
    [by eapply kcp_inv_stream|done|done|done|lia|lia|done|].
  rewrite Hrun. run.
  destruct (IH g1 U1 N1 ps1 k1 a1 (drop (Z.to_nat (h_len h)) (drop 24 data)) acc1) as
    (r & k2 & a2 & g2 & U2 & N2 & ps2 & -> & Hr & Hinv2 & HU2 & HN2 & Hps2 & Hl2 & Ha2 & [Hc2 Hd2]);
    [done|done|rewrite !length_drop; lia|].
  rewrite !length_drop in Hps2.
  exists r, k2, a2, g2, U2, N2, ps2. split_and!; try done; try lia; congruence.
Qed.

(** The fuel of [ikcp_input] is never exhausted. *)
Lemma input_loop_fuel n1 n2 data acc w :
  (length data < n1)%nat → (length data < n2)%nat →
  input_loop n1 data acc w = input_loop n2 data acc w.
Proof.
  revert n2 data acc w. induction n1 as [|n1 IH]; intros [|n2] data acc w H1 H2; try lia.
  cbn [input_loop]. destruct (_ <? IKCP_OVERHEAD) eqn:E1; b2p; [done|]. unfold IKCP_OVERHEAD in E1.
  destruct (decode_header_total data) as (h & -> & Hh); [lia|]. run.
  destruct (get w) as [[k w0]|]; [|done]. destruct (negb _); [done|]. destruct (_ || _); [done|].
  destruct (_ && _); [done|]. run. destruct (input_segment _ _ _ _) as [[acc1 w1]|]; [|done].
  apply IH; rewrite !length_drop; lia.
Qed.

(** Growth of the window touches only [cwnd] and [incr]. *)
Lemma grow_cwnd_frame k :
  ∃ x y, grow_cwnd k = k <| cwnd := x |> <| incr := y |> ∧ (0 ≤ cwnd k → 0 ≤ rmt_wnd k → 0 ≤ x).
Proof.
  unfold grow_cwnd. destruct (rmt_wnd k <=? cwnd k).
  { exists (cwnd k), (incr k). by destruct k. }
  set (k1 := if cwnd k <? ssthresh k then _ else _).
  assert (∃ x y, k1 = k <| cwnd := x |> <| incr := y |> ∧ (0 ≤ cwnd k → 0 ≤ x)) as (x & y & -> & Hx).
  { unfold k1. destruct (_ <? _).
    { eexists _, _. split; [done|]. intros _. apply u32_range. }
    assert (∃ y, (if incr k <? mss k then k <| incr := mss k |> else k) = k <| incr := y |>) as [y ->].
    { destruct (_ <? _); [by eexists|]. exists (incr k). by destruct k. }
    cbv zeta. kred. generalize (u32 (y + (u32 (mss k * mss k) / y + mss k / 16))) as z. intros z.
    destruct (_ <=? z); [|by exists (cwnd k), z; destruct k].
    set (v := u32 (z + mss k - 1) / (if 0 <? mss k then mss k else 1)).
    assert (0 ≤ v) as Hv.
    { unfold v. pose proof (u32_range (z + mss k - 1)). destruct (0 <? mss k) eqn:E; b2p; apply Z.div_pos; lia. }
    clearbody v. by exists v, z. }
  cbv zeta. destruct (_ <? _); [|by exists x, y; auto].
  eexists _, _. split; [reflexivity|]. by intros _ ?.
Qed.

(** ** [ikcp_input] *)

Lemma input_safe f g U X N ps k a data :
  kcp_inv f g U X N ps k → al_total a → Z.of_nat (length ps + length data) < 2 ^ 31 →
  ∃ r k' a' g' U' N' ps', ikcp_input data (World k a) = Ok (r, World k' a') ∧
    (r = 0 ∨ r = -1 ∨ r = -2 ∨ r = -3) ∧ kcp_inv f g' U' X N' ps' k' ∧ U ≤ U' ∧ N ≤ N' ∧
    (length ps' ≤ length ps + length data)%nat ∧
    al_live a' - blocks k' = al_live a - blocks k ∧ al_total a' ∧ static_view k' = static_view k ∧ (0 ≤ cwnd k → 0 ≤ cwnd k').
Proof.
  intros Hinv Ha Hb. unfold ikcp_input, get, put. run. set (k0 := k <| ackedlen := 0 |>).
  assert (kcp_inv f g U X N ps k0) as Hinv0 by (eapply kcp_inv_ext; [..|exact Hinv]; try done; apply Hinv).
  destruct (_ <? IKCP_OVERHEAD).
  { run. exists (-1), k0, a, g, U, N, ps. split_and!; auto; try done; lia. }
  run. destruct (input_loop_safe f (S (length data)) g U X N ps k0 a data (Acks false 0 0)) as
    (r & k1 & a1 & g1 & U1 & N1 & ps1 & -> & Hr & Hinv1 & HU & HN & Hps & Hl & Ha1 & [Hc Hd]); [done|done|done|]. run.
  destruct r as [ret|acc]; simpl in Hr.
  { run. exists ret, k1, a1, g1, U1, N1, ps1. split_and!; try done; [tauto|]. by rewrite Hd. }
  run. set (k2 := if flag acc then _ else k1).
  assert (snd_state f U1 X k2 ∧ k2 = k1 <| snd_buf := snd_buf k2 |> ∧
    length (snd_buf k2) = length (snd_buf k1)) as (Hs2 & Hf2 & Hlen).
  { unfold k2. destruct (flag acc); [|split_and!; [apply Hinv1|by destruct k1|done]].
    destruct (parse_fastack_run f U1 X k1 (maxack acc) (latest_ts acc)) as (? & _ & ? & ?); [apply Hinv1|done]. }
  clearbody k2. set (k3 := if 0 <? _ then grow_cwnd k2 else k2).
  assert (∃ x y, k3 = k2 <| cwnd := x |> <| incr := y |> ∧ (0 ≤ cwnd k2 → 0 ≤ rmt_wnd k2 → 0 ≤ x))
    as (x & y & Hk3 & Hx).
  { unfold k3. destruct (0 <? _); [apply grow_cwnd_frame|]. exists (cwnd k2), (incr k2). by destruct k2. }
  clearbody k3.
  exists 0, k3, a1, g1, U1, N1, ps1. rewrite Hk3. split_and!; try done; [by auto|..].
  - destruct Hinv1 as [Q1 Q2 Q3 Q4 Q5]. constructor.
    + eapply snd_queue_ok_ext; [|exact Q1]. rewrite Hf2. done.
    + eapply snd_state_ext; [|exact Hs2]. done.
    + eapply rcv_state_ext; [|exact Q3]. rewrite Hf2. done.
    + eapply ack_rep_ext; [|exact Q4]. rewrite Hf2. done.
    + rewrite Hf2. exact Q5.
  - rewrite Hf2. unfold blocks in *. kred. rewrite Hlen. exact Hl.
  - rewrite Hf2. exact Hc.
  - kred. intros H0. rewrite Hf2 in Hx. apply Hx; kred; [by rewrite Hd|apply Hinv1].
Qed.
