(* ===== verification/IkcpFlush.v ===== *)
(** * KCP: [ikcp_flush]

    The datagrams of a flush are the encodings of acknowledgements, window
    probes and data segments, none longer than the MTU; the data segments carry
    the outgoing stream; what is in flight stays inside the window. *)

From S2P Require Import Prelude CRuntime IkcpData Ikcp IkcpCodec IkcpRecv IkcpSend.
From S2P Require Import IkcpAck IkcpInput.

(** ** Datagrams *)

Definition wire (s : ikcpseg) : list Z :=
  ikcp_encode_seg s ++ take (Z.to_nat (seg_len s)) (seg_data s).
Definition dgram (segs : list ikcpseg) : list Z := concat (wire <$> segs).

Lemma dgram_app a b : dgram (a ++ b) = dgram a ++ dgram b.
Proof. unfold dgram. by rewrite fmap_app, concat_app. Qed.

Lemma dgram_one s : dgram [s] = wire s.
Proof. unfold dgram. cbn [fmap list_fmap concat]. apply app_nil_r. Qed.

Lemma wire_length s :
  seg_len s = Z.of_nat (length (seg_data s)) → Z.of_nat (length (wire s)) = 24 + seg_len s.
Proof. intros H. unfold wire. rewrite length_app, encode_seg_length, length_take. lia. Qed.

(** The output buffer holds the encodings of [segs], cut at [m] bytes. *)
Definition out_rep (m : Z) (o : outbuf) (segs : list ikcpseg) : Prop :=
  ∃ groups cur, sent o = dgram <$> groups ∧ pending o = dgram cur ∧ concat groups ++ cur = segs ∧
    Forall (λ g, g ≠ [] ∧ Z.of_nat (length (dgram g)) ≤ m) groups ∧
    Z.of_nat (length (dgram cur)) ≤ m.

(** A segment that can be sent on its own. *)
Definition fits (m : Z) (s : ikcpseg) : Prop :=
  seg_len s = Z.of_nat (length (seg_data s)) ∧ 24 + seg_len s ≤ m.

Lemma out_empty m : 0 ≤ m → out_rep m (Out [] []) [].
Proof. intros H. exists [], []. split_and!; try done. Qed.

Lemma dgram_nil_inv g : dgram g = [] → g = [].
Proof. destruct g as [|s g]; [done|]. unfold dgram, wire. simpl. done. Qed.

Lemma output_run m k a o segs :
  output k = true → out_rep m o segs →
  ∃ o', ikcp_output o (World k a) = Ok (o', World k a) ∧
    out_rep m (Out [] (sent o')) segs ∧
    (pending o ≠ [] → pending o' = []).
Proof.
  intros Ho (groups & cur & Hs & Hp & Hc & Hg & Hm). unfold ikcp_output, get. run. rewrite Ho. run.
  destruct (length (pending o) =? 0)%nat eqn:E; eexists; (split; [reflexivity|]).
  - apply Nat.eqb_eq, nil_length_inv in E. rewrite E in Hp. symmetry in Hp. apply dgram_nil_inv in Hp as ->.
    split; [|done]. exists groups, []. rewrite Hs. split_and!; done || (simpl; lia).
  - apply Nat.eqb_neq in E. cbn [sent pending]. split; [|done].
    exists (groups ++ [cur]), []. rewrite Hs, Hp, fmap_app, concat_app. cbn [fmap list_fmap concat app].
    split_and!; try done; [by rewrite !app_nil_r|..].
    + apply Forall_app. split; [done|]. apply Forall_singleton. split; [|done].
      intros ->. by rewrite Hp in E.
    + simpl. lia.
Qed.

(** [m] is the MTU, and the buffer has room for a datagram. *)
Definition sized (m : Z) (k : ikcpcb) : Prop := i32 (mtu k) = m ∧ m ≤ buffer_size k.

Lemma sized_mtu k : 0 ≤ mtu k < 2 ^ 30 → sized (mtu k) k.
Proof.
  intros H. split; [apply i32_small; lia|]. unfold buffer_size, IKCP_OVERHEAD. rewrite u32_small; lia.
Qed.

Lemma append_seg_run m k a o segs s :
  output k = true → sized m k → out_rep m o segs → fits m s →
  ∃ o', append_seg (wire s) (24 + seg_len s) o (World k a) = Ok (o', World k a) ∧
    out_rep m o' (segs ++ [s]).
Proof.
  intros Ho [Hm Hbuf] Hr [Hs1 Hs2]. unfold append_seg, get. run. rewrite Hm.
  pose proof (wire_length s Hs1) as Hw.
  destruct (m <? _) eqn:E; b2p; run.
  - destruct (output_run m k a o segs Ho Hr) as (o' & -> & (groups & cur & H1 & H2 & H3 & H4 & H5) & _). run.
    cbn [pending length]. destruct (buffer_size k <? _) eqn:Eb; b2p; [lia|].
    eexists. split; [reflexivity|]. exists groups, (cur ++ [s]). cbn [sent pending app] in *.
    rewrite dgram_app, <- H2, dgram_one. split_and!; try done; [by rewrite app_assoc, H3|].
    cbn [app]. lia.
  - destruct Hr as (groups & cur & H1 & H2 & H3 & H4 & H5).
    destruct (buffer_size k <? _) eqn:Eb; b2p; [lia|].
    eexists. split; [reflexivity|]. exists groups, (cur ++ [s]). cbn [sent pending].
    rewrite dgram_app, <- H2, dgram_one. split_and!; try done; [by rewrite app_assoc, H3|].
    rewrite length_app. lia.
Qed.

(** ** Control segments *)

(** Acknowledgements and probes carry no data, but the number [k] waits
    for. *)
Definition control (k : ikcpcb) (s : ikcpseg) : Prop :=
  seg_len s = 0 ∧ seg_data s = [] ∧ seg_conv s = conv k ∧ seg_una s = rcv_nxt k.

Lemma wire_control k s : control k s → wire s = ikcp_encode_seg s ∧ IKCP_OVERHEAD = 24 + seg_len s.
Proof. intros (Hl & Hd & _). unfold wire. rewrite Hl, Hd, take_nil, app_nil_r. done. Qed.

Lemma control_fits m k s : control k s → 24 ≤ m → fits m s.
Proof. intros (Hl & Hd & _) Hm. split; rewrite Hl; [by rewrite Hd|lia]. Qed.

Lemma append_control m k a o segs s :
  output k = true → sized m k → 24 ≤ m → out_rep m o segs → control k s →
  ∃ o', append_seg (ikcp_encode_seg s) IKCP_OVERHEAD o (World k a) = Ok (o', World k a) ∧
    out_rep m o' (segs ++ [s]).
Proof.
  intros Ho Hm Hm24 Hr Hc. destruct (wire_control k s Hc) as [<- ->].
  apply append_seg_run; [done|done|done|by eapply control_fits].
Qed.

(** The acknowledgement of one pair. *)
Definition ack_of (seg : ikcpseg) (p : Z * Z) : ikcpseg := seg <| seg_sn := p.1 |> <| seg_ts := p.2 |>.

Section flush_control.
Variables (m : Z) (k : ikcpcb) (a : alloc) (ps : list (Z * Z)).
Hypothesis (Ho : output k = true) (Hm : sized m k) (Hm24 : 24 ≤ m) (Hps : ack_rep ps k).

Lemma ack_get_run i p : ps !! i = Some p → ikcp_ack_get k i = Ok p.
Proof.
  intros Hi. unfold ikcp_ack_get. destruct Hps as [_ Hl]. destruct (acklist k) as [l|].
  - destruct Hl as [_ [junk ->]]. rewrite lookup_app_l by (rewrite length_fmap; by eapply lookup_lt_Some).
    by rewrite list_lookup_fmap, Hi.
  - by destruct Hl as [-> _].
Qed.

Lemma flush_acks_run n i seg o segs :
  (i + n = length ps)%nat → control k seg → out_rep m o segs →
  ∃ seg' o', flush_acks n i seg o (World k a) = Ok ((seg', o'), World k a) ∧
    control k seg' ∧ out_rep m o' (segs ++ (ack_of seg <$> drop i ps)).
Proof.
  revert i seg o segs. induction n as [|n IH]; intros i seg o segs Hi Hc Hr; cbn [flush_acks].
  { exists seg, o. rewrite drop_ge, app_nil_r by lia. done. }
  destruct (lookup_lt_is_Some_2 ps i) as [p Hp]; [lia|].
  unfold get. run. rewrite (ack_get_run i p Hp). destruct p as [sn ts]. run.
  destruct (append_control m k a o segs (ack_of seg (sn, ts)) Ho Hm Hm24 Hr) as (o1 & Hrun & Hr1); [done|].
  unfold ack_of in Hrun. cbn [fst snd] in Hrun. rewrite Hrun. run.
  destruct (IH (S i) (ack_of seg (sn, ts)) o1 _ ltac:(lia) Hc Hr1) as (seg' & o' & Hrun' & Hc' & Hr').
  exists seg', o'. split_and!; [exact Hrun'|done|]. rewrite (drop_S _ _ _ Hp). cbn [fmap list_fmap].
  rewrite <- app_assoc in Hr'. done.
Qed.

Lemma flush_probes_run seg o segs :
  control k seg → out_rep m o segs →
  ∃ o' probes, flush_probes seg o (World k a) = Ok (o', World k a) ∧
    Forall (control k) probes ∧ out_rep m o' (segs ++ probes) ∧
    seg_cmd <$> probes =
      (if Z.land (probe k) IKCP_ASK_SEND =? 0 then [] else [IKCP_CMD_WASK]) ++
      (if Z.land (probe k) IKCP_ASK_TELL =? 0 then [] else [IKCP_CMD_WINS]).
Proof.
  intros Hc Hr. unfold flush_probes, get. run.
  assert (∃ o1 p1, (if Z.land (probe k) IKCP_ASK_SEND =? 0 then mret o
     else append_seg (ikcp_encode_seg (seg <| seg_cmd := IKCP_CMD_WASK |>)) IKCP_OVERHEAD o) (World k a)
     = Ok (o1, World k a) ∧ Forall (control k) p1 ∧ out_rep m o1 (segs ++ p1) ∧
     seg_cmd <$> p1 = if Z.land (probe k) IKCP_ASK_SEND =? 0 then [] else [IKCP_CMD_WASK])
    as (o1 & p1 & -> & Hp1 & Hr1 & Hc1).
  { destruct (_ =? 0); [exists o, []; rewrite app_nil_r; done|].
    destruct (append_control m k a o segs (seg <| seg_cmd := IKCP_CMD_WASK |>)) as (o1 & -> & Hr1); try done.
    exists o1, [seg <| seg_cmd := IKCP_CMD_WASK |>]. split_and!; try done. by apply Forall_singleton. }
  run. destruct (Z.land (probe k) IKCP_ASK_TELL =? 0).
  { exists o1, p1. rewrite app_nil_r. done. }
  destruct (append_control m k a o1 (segs ++ p1) (seg <| seg_cmd := IKCP_CMD_WINS |>)) as (o2 & -> & Hr2); try done.
  exists o2, (p1 ++ [seg <| seg_cmd := IKCP_CMD_WINS |>]). rewrite <- app_assoc in Hr2.
  split_and!; try done; [|by rewrite fmap_app, Hc1].
  apply Forall_app. split; [done|by apply Forall_singleton].
Qed.
End flush_control.

(** A window probe or its answer. *)
Definition window_probe (k : ikcpcb) (s : ikcpseg) : Prop :=
  control k s ∧ (seg_cmd s = IKCP_CMD_WASK ∨ seg_cmd s = IKCP_CMD_WINS).

Lemma window_probes k probes :
  Forall (control k) probes →
  seg_cmd <$> probes =
    (if Z.land (probe k) IKCP_ASK_SEND =? 0 then [] else [IKCP_CMD_WASK]) ++
    (if Z.land (probe k) IKCP_ASK_TELL =? 0 then [] else [IKCP_CMD_WINS]) →
  Forall (window_probe k) probes.
Proof.
  rewrite !Forall_forall. intros Hc He s Hs. split; [by apply Hc|].
  apply (list_elem_of_fmap_2 seg_cmd) in Hs. rewrite He in Hs. clear -Hs.
  destruct (_ =? 0), (_ =? 0); set_solver.
Qed.

(** ** Filling the window *)

Section fill.
Variable f : Z → Z * list Z.

Lemma fill_window_run queue window wnd U X k :
  snd_state f U X k → snd_queue_ok k → snd_queue k = queue → 0 ≤ window < 2 ^ 16 →
  ∃ X', snd_state f U X' (fill_window queue window wnd k) ∧ snd_queue_ok (fill_window queue window wnd k) ∧
    X ≤ X' ∧ X' ≤ Z.max X (U + window) ∧
    blocks (fill_window queue window wnd k) = blocks k ∧
    (length (snd_queue (fill_window queue window wnd k)) ≤ length (snd_queue k))%nat ∧
    (X' < U + window → snd_queue (fill_window queue window wnd k) = []) ∧
    X' + Z.of_nat (length (snd_queue (fill_window queue window wnd k))) = X + Z.of_nat (length (snd_queue k)) ∧
    seg_sn <$> snd_buf (fill_window queue window wnd k) = (seg_sn <$> snd_buf k) ++ (u32 <$> seqZ X (X' - X)) ∧
    fill_window queue window wnd k =
      k <| snd_queue := snd_queue (fill_window queue window wnd k) |>
        <| snd_buf := snd_buf (fill_window queue window wnd k) |>
        <| nsnd_que := nsnd_que (fill_window queue window wnd k) |>
        <| nsnd_buf := nsnd_buf (fill_window queue window wnd k) |>
        <| snd_nxt := snd_nxt (fill_window queue window wnd k) |>.
Proof.
  revert X k. induction queue as [|s queue IH]; intros X k Hs Hq He Hw; cbn [fill_window].
  { exists X. rewrite Z.sub_diag, app_nil_r. split_and!; try done; [lia|by destruct k]. }
  pose proof Hs as [Hu Hn Hwin Hb Hnb Hz Hqu]. pose proof (tracked_le _ _ _ _ Hb).
  rewrite Hn, Hu, u32_add_l, itimediff_exact by lia.
  destruct (X - (U + window) <? 0) eqn:E; b2p.
  2: { exists X. rewrite Z.sub_diag, app_nil_r. split_and!; try done; [lia|lia|by destruct k]. }
  rewrite <- Hn. set (s1 := s <| seg_conv := _ |> <| seg_cmd := _ |> <| seg_wnd := _ |> <| seg_ts := _ |>
    <| seg_sn := _ |> <| seg_una := _ |> <| seg_resendts := _ |> <| seg_rto := _ |>
    <| seg_fastack := _ |> <| seg_xmit := _ |>).
  set (k1 := k <| snd_queue := _ |> <| snd_buf := _ |> <| nsnd_que := _ |> <| nsnd_buf := _ |> <| snd_nxt := _ |>).
  rewrite He in Hqu. cbn [length fmap list_fmap] in Hqu.
  rewrite seqZ_cons in Hqu by lia. cbn [fmap list_fmap] in Hqu. injection Hqu as Hp Hqu.
  destruct Hq as [Q1 Q2 Q3 Q4 Q5]. rewrite He in Q3, Q4, Q5. apply Forall_cons in Q5 as [Q5 Q6].
  cbn [length] in *.
  assert (snd_state f U (X + 1) k1) as Hs1.
  { constructor; unfold k1; kred; try done.
    - rewrite Hn. apply u32_add_l.
    - lia.
    - apply tracked_snoc; done.
    - rewrite Hnb, length_app, u32_small; cbn [length]; [lia|].
      pose proof (tracked_length _ _ _ _ Hb). lia.
    - apply Forall_app. split; [done|]. by apply Forall_singleton.
    - rewrite Hqu. f_equal. f_equal; lia. }
  assert (snd_queue_ok k1) as Hq1.
  { constructor; unfold k1; kred; try done; [|lia]. rewrite Q3, u32_small by lia. lia. }
  destruct (IH (X + 1) k1 Hs1 Hq1 eq_refl Hw) as (X' & H1 & H2 & H3 & H4 & H5 & H5' & H6 & Hl & Hsn & H7).
  exists X'. generalize dependent (fill_window queue window wnd k1). intros F **.
  split_and!; try done; [lia|lia|..].
  - rewrite H5. unfold blocks, k1. kred. rewrite He, length_app. simpl. lia.
  - rewrite He. unfold k1 in H5'. kred_in H5'. etrans; [exact H5'|]. simpl. lia.
  - rewrite He, Hl. unfold k1. kred. cbn [length]. lia.
  - rewrite Hsn, (seqZ_cons X) by lia. unfold k1, s1. kred. rewrite fmap_app, <- app_assoc.
    cbn [fmap list_fmap]. sred. rewrite Hn. cbn [app]. do 4 f_equal; lia.
Qed.
End fill.

(** ** Transmitting the send buffer *)

(** A transmission changes only the timers and the header fields that are
    filled in at the last moment. *)
Definition same_seg (s t : ikcpseg) : Prop :=
  seg_sn t = seg_sn s ∧ payload t = payload s ∧ seg_cmd t = seg_cmd s ∧
  seg_conv t = seg_conv s ∧ seg_len t = seg_len s.

Lemma schedule_same k resent rtomin s : same_seg s (schedule_seg k resent rtomin s).2.
Proof.
  unfold schedule_seg. destruct (seg_xmit s =? 0); [done|].
  destruct (0 <=? _); [done|]. by destruct (_ && _).
Qed.

Lemma pushed_same k s t : pushed k s → same_seg s t → pushed k t.
Proof.
  intros [(H1 & H2 & H3) [H4 H5]] (S1 & S2 & S3 & S4 & S5). unfold payload in S2. simplify_eq.
  unfold pushed, queued. rewrite S5, S3, S4. destruct s, t; simpl in *; simplify_eq. done.
Qed.

Lemma flush_data_run m todo resent rtomin wnd done k a o l em :
  output k = true → sized m k → snd_buf k = done ++ todo →
  Forall (pushed k) todo → 24 + mss k ≤ m → m < 2 ^ 31 → out_rep m o em →
  ∃ o' l' k' todo' data, flush_data todo resent rtomin wnd done o l (World k a) = Ok ((o', l'), World k' a) ∧
    k' = k <| snd_buf := done ++ todo' |> <| xmit := xmit k' |> <| state := state k' |> ∧
    Forall2 same_seg todo todo' ∧ out_rep m o' (em ++ data) ∧ data ⊆ todo' ∧
    Forall (λ s, seg_una s = rcv_nxt k) data.
Proof.
  revert done k o l em. induction todo as [|s todo IH]; intros done k o l em Ho Hm Hb Hp Hmss Hm31 Hr;
    cbn [flush_data].
  { exists o, l, k, [], []. rewrite !app_nil_r in *. split_and!; try done. destruct k. simpl in *. by subst. }
  apply Forall_cons in Hp as [Hs Hp]. unfold get, put. run.
  pose proof (schedule_same k resent rtomin s) as Hsame.
  destruct (schedule_seg k resent rtomin s) as [why s1]. cbn [snd] in Hsame.
  set (l1 := Losses _ _).
  set (k1 := match why with Timeout => k <| xmit := _ |> | _ => k end).
  assert (∃ x, k1 = k <| xmit := x |>) as [x Hk1].
  { unfold k1. destruct why; try by eexists. all: exists (xmit k); by destruct k. }
  set (s2 := match why with Not_now => s1 | _ => _ end).
  assert (same_seg s s2) as Hs2 by (unfold s2; by destruct why).
  assert (why = Not_now ∨ seg_una s2 = rcv_nxt k) as Huna.
  { unfold s2. rewrite Hk1. destruct why; [by left|by right..]. }
  pose proof (pushed_same k s s2 Hs Hs2) as [(P1 & P2 & P3) [P4 P5]].
  clearbody s2 k1. subst k1. run.
  set (k2 := k <| xmit := x |> <| snd_buf := _ |>).
  set (emit := match why with Not_now => mret o | _ => _ end).
  assert (∃ o1 em1, emit (World k2 a) = Ok (o1, World k2 a) ∧ out_rep m o1 (em ++ em1) ∧ em1 ⊆ [s2] ∧
    Forall (λ s, seg_una s = rcv_nxt k) em1) as (o1 & em1 & -> & Hr1 & Hem1 & Hu1).
  { destruct (append_seg_run m k2 a o em s2 Ho Hm Hr) as (o1 & Hrun & Hr1); [split; [done|lia]|].
    unfold emit. rewrite u32_small, i32_small by (unfold IKCP_OVERHEAD; lia).
    destruct why; [exists o, []; rewrite app_nil_r; split_and!; [done|done|set_solver|done]|..];
      (destruct Huna as [?|?]; [done|]); exists o1, [s2]; split_and!; try done; by apply Forall_singleton. }
  run. set (k3 := match why with Not_now => k2 | _ => _ end).
  assert (∃ y, k3 = k2 <| state := y |>) as [y Hk3].
  { unfold k3. destruct why; [exists (state k2); by destruct k|..];
      (destruct (_ <=? _); [by eexists|]; exists (state k2); by destruct k). }
  clearbody k3. subst k3.
  destruct (IH (done ++ [s2]) (k2 <| state := y |>) o1 l1 (em ++ em1)) as
    (o' & l' & k' & todo' & data & -> & Hk' & Hf & Hr' & Hd & Hu'); try done.
  { unfold k2. kred. by rewrite <- app_assoc. }
  exists o', l', k', (s2 :: todo'), (em1 ++ data). rewrite <- app_assoc in *. cbn [app] in *.
  split_and!; try done; [by constructor|set_solver|by apply Forall_app].
Qed.

(** The last datagram. *)
Lemma flush_rest_run m k a o segs :
  output k = true → out_rep m o segs →
  ∃ o' groups, (if (length (pending o) =? 0)%nat then mret o else ikcp_output o) (World k a)
      = Ok (o', World k a) ∧
    sent o' = dgram <$> groups ∧ concat groups = segs ∧
    Forall (λ g, g ≠ [] ∧ Z.of_nat (length (dgram g)) ≤ m) groups.
Proof.
  intros Ho Hr. destruct (output_run m k a o segs Ho Hr) as (o' & Hrun & (groups & cur & H1 & H2 & H3 & H4 & _) & _).
  cbn [sent pending] in *. symmetry in H2. apply dgram_nil_inv in H2 as ->. rewrite app_nil_r in H3.
  destruct (length (pending o) =? 0)%nat eqn:E; [|by exists o', groups].
  exists o. destruct Hr as (groups' & cur & G1 & G2 & G3 & G4 & _). exists groups'.
  apply Nat.eqb_eq, nil_length_inv in E. rewrite E in G2. symmetry in G2. apply dgram_nil_inv in G2 as ->.
  rewrite app_nil_r in G3. done.
Qed.

(** ** Bookkeeping around the transmission *)

Lemma probe_timer_frame k :
  ∃ x y z, probe_timer k = k <| probe_wait := x |> <| ts_probe := y |> <| probe := z |>.
Proof.
  unfold probe_timer. destruct (rmt_wnd k =? 0).
  - destruct (probe_wait k =? 0); [by exists IKCP_PROBE_INIT, (u32 (current k + IKCP_PROBE_INIT)), (probe k); destruct k|].
    destruct (0 <=? _); [by eexists _, _, _|]. exists (probe_wait k), (ts_probe k), (probe k). by destruct k.
  - exists 0, 0, (probe k). by destruct k.
Qed.

(** The window never closes completely. *)
Lemma after_losses_frame k l resent prior :
  ∃ x y z, after_losses k l resent prior = k <| ssthresh := x |> <| cwnd := y |> <| incr := z |> ∧ 1 ≤ y.
Proof.
  unfold after_losses.
  set (k1 := if change l =? 0 then k else _).
  assert (∃ x y z, k1 = k <| ssthresh := x |> <| cwnd := y |> <| incr := z |>) as (x & y & z & ->).
  { unfold k1. destruct (change l =? 0); [exists (ssthresh k), (cwnd k), (incr k); by destruct k|].
    cbv zeta. by eexists _, _, _. }
  cbv zeta. set (k2 := if lost l then _ else _).
  assert (∃ x y z, k2 = k <| ssthresh := x |> <| cwnd := y |> <| incr := z |>) as (x' & y' & z' & ->).
  { unfold k2. destruct (lost l); [by eexists _, _, _|by exists x, y, z]. }
  kred. destruct (y' <? 1) eqn:E; b2p; [|by exists x', y', z'].
  eexists x', 1, _. split; [reflexivity|lia].
Qed.

(** The acknowledgement header of a flush. *)
Definition ack_seg (k : ikcpcb) : ikcpseg :=
  Seg (conv k) IKCP_CMD_ACK 0 (u32 (ikcp_wnd_unused k)) 0 0 (rcv_nxt k) 0 0 0 0 0 [].

(** A data segment on the wire: one of the stream, between [U] and [X]. *)
Definition transmitted (f : Z → Z * list Z) (U X : Z) (k : ikcpcb) (s : ikcpseg) : Prop :=
  pushed k s ∧ seg_una s = rcv_nxt k ∧ ∃ i, U ≤ i < X ∧ seg_sn s = u32 i ∧ payload s = f i.

Lemma send_window_range k :
  0 ≤ cwnd k → 0 ≤ snd_wnd k → 0 ≤ rmt_wnd k < 2 ^ 16 → 0 ≤ send_window k < 2 ^ 16.
Proof.
  intros. unfold send_window, _imin_.
  destruct (nocwnd k =? 0), (snd_wnd k <=? rmt_wnd k) eqn:E1; b2p;
    try destruct (cwnd k <=? _) eqn:E2; b2p; lia.
Qed.

Lemma ack_rep_clear ps k : ack_rep ps k → ack_rep [] (k <| ackcount := 0 |>).
Proof.
  intros [_ H]. split; [done|]. kred. destruct (acklist k) as [l|]; [|by destruct H].
  destruct H as [H _]. split; [done|]. by exists l.
Qed.

(** What the transmission of data does not touch. *)
Definition rest_view (k : ikcpcb) := (rcv_view k, cfg_view k, rmt_wnd k, ack_view k).

Lemma snd_state_updated f U X k k' buf :
  snd_state f U X k → Forall2 same_seg (snd_buf k) buf →
  k' = k <| snd_buf := buf |> <| xmit := xmit k' |> <| state := state k' |> → snd_state f U X k'.
Proof.
  intros [H1 H2 H3 H4 H5 H6 H7] Hf ->. pose proof (Forall2_length _ _ _ Hf) as Hlen.
  constructor; kred; try done.
  - eapply tracked_update; [done|]. eapply Forall2_impl; [exact Hf|]. intros s t (E1 & E2 & _). done.
  - by rewrite <- Hlen.
  - clear -H6 Hf. induction Hf as [|s t l l' Hs Hf IH]; [constructor|].
    apply Forall_cons in H6 as [Hp H6]. constructor; [by eapply (pushed_same k)|by apply IH].
Qed.

(** ** [ikcp_flush] *)

Lemma flush_run f g U X N ps k a :
  kcp_inv f g U X N ps k → output k = true → updated k ≠ 0 → 0 ≤ cwnd k → 0 ≤ snd_wnd k →
  ∃ k' X' groups probes data,
    ikcp_flush (World k a) = Ok (dgram <$> groups, World k' a) ∧
    kcp_inv f g U X' N [] k' ∧ X ≤ X' ∧ X' ≤ Z.max X (U + send_window k) ∧
    (X' < U + send_window k → snd_queue k' = []) ∧
    concat groups = (ack_of (ack_seg k) <$> ps) ++ probes ++ data ∧
    Forall (window_probe k) probes ∧ Forall (transmitted f U X' k) data ∧
    Forall (λ g, g ≠ [] ∧ Z.of_nat (length (dgram g)) ≤ mtu k) groups ∧
    blocks k' = blocks k ∧ (length (snd_queue k') ≤ length (snd_queue k))%nat ∧
    cfg_view k' = cfg_view k ∧ rcv_view k' = rcv_view k ∧ 1 ≤ cwnd k' ∧
    X' + Z.of_nat (length (snd_queue k')) = X + Z.of_nat (length (snd_queue k)) ∧
    seg_sn <$> snd_buf k' = (seg_sn <$> snd_buf k) ++ (u32 <$> seqZ X (X' - X)).
Proof.
  intros [Hq Hs Hr Hk Hw] Ho Hup Hcw Hsw. pose proof (sq_mtu _ Hq) as [Hmtu Hm31].
  pose proof (sq_mss _ Hq) as Hmss. unfold IKCP_OVERHEAD in Hmtu.
  assert (sized (mtu k) k) as Hmi by (apply sized_mtu; lia).
  apply Z.eqb_neq in Hup. unfold ikcp_flush, get, put. run. rewrite Hup. run.
  rewrite (proj1 Hk), Nat2Z.id. fold (ack_seg k).
  destruct (flush_acks_run (mtu k) k a ps Ho Hmi ltac:(lia) Hk (length ps) 0 (ack_seg k) (Out [] []) [])
    as (seg & o1 & -> & Hc1 & Hr1); [lia|done|apply out_empty; lia|]. run.
  rewrite drop_0 in Hr1. cbn [app] in Hr1.
  destruct (probe_timer_frame (k <| ackcount := 0 |>)) as (x & y & z & ->).
  set (k1 := k <| ackcount := 0 |> <| probe_wait := x |> <| ts_probe := y |> <| probe := z |>).
  destruct (flush_probes_run (mtu k) k1 a Ho Hmi ltac:(lia) seg o1 _ Hc1 Hr1)
    as (o2 & probes & -> & Hpr & Hr2 & Hcmds). run.
  set (k2 := k1 <| probe := 0 |>). change (send_window k2) with (send_window k).
  change (snd_queue k2) with (snd_queue k).
  pose proof (send_window_range k Hcw Hsw Hw) as Hwin.
  destruct (fill_window_run f (snd_queue k) (send_window k) (u32 (ikcp_wnd_unused k)) U X k2)
    as (X' & Hs3 & Hq3 & HX & HX' & Hbl & Hql & Hfull & Hlen3 & Hsn3 & Hf3);
    [by eapply snd_state_ext; [|exact Hs]|by eapply snd_queue_ok_ext; [|exact Hq]|done|done|].
  set (k3 := fill_window (snd_queue k) (send_window k) _ k2) in *. clearbody k3.
  set (resent := if 0 <? fastresend k3 then _ else _). set (rtomin := if nodelay k3 =? 0 then _ else _).
  assert (output k3 = true ∧ mtu k3 = mtu k ∧ mss k3 = mss k ∧ conv k3 = conv k ∧ rcv_nxt k3 = rcv_nxt k)
    as (E1 & E2 & E3 & E4 & E5) by (rewrite Hf3; done).
  destruct (flush_data_run (mtu k) (snd_buf k3) resent (u32 rtomin) (u32 (ikcp_wnd_unused k)) [] k3 a o2
    (Losses 0 false) ((ack_of (ack_seg k) <$> ps) ++ probes)) as (o3 & l3 & k4 & buf & data & -> & Hk4 & Hsame & Hr3 & Hd & Hun);
    [done|by unfold sized, buffer_size; rewrite E2|done|apply (ss_sized _ _ _ _ Hs3)|rewrite E3; lia|lia|done|]. run.
  cbn [app] in Hk4.
  pose proof (snd_state_updated f U X' k3 k4 buf Hs3 Hsame Hk4) as Hs4.
  assert (output k4 = true) as Ho4 by (rewrite Hk4; done).
  destruct (flush_rest_run (mtu k) k4 a o3 _ Ho4 Hr3) as (o4 & groups & -> & Hsent & Hcat & Hgr). run.
  rewrite Hsent. destruct (after_losses_frame k4 l3 resent (cwnd k)) as (x5 & y5 & z5 & -> & Hy).
  set (k5 := k4 <| ssthresh := x5 |> <| cwnd := y5 |> <| incr := z5 |>).
  assert (rest_view k3 = rest_view k2) as W3 by (rewrite Hf3; done).
  assert (rest_view k4 = rest_view k3 ∧ queue_view k4 = queue_view k3) as [W4 V5] by (rewrite Hk4; done).
  assert (rest_view k5 = rest_view (k <| ackcount := 0 |>)) as V
    by (transitivity (rest_view k4); [done|]; rewrite W4, W3; done).
  pose proof (f_equal (λ v, v.1.1.1) V : rcv_view k5 = rcv_view k) as V1.
  pose proof (f_equal (λ v, v.1.1.2) V : cfg_view k5 = cfg_view k) as V2.
  pose proof (f_equal (λ v, v.1.2) V : rmt_wnd k5 = rmt_wnd k) as V3.
  pose proof (f_equal snd V : ack_view k5 = ack_view (k <| ackcount := 0 |>)) as V4.
  assert (snd_queue k5 = snd_queue k3) as V6 by (unfold queue_view in V5; by injection V5).
  exists k5, X', groups, probes, data. split_and!; try done.
  - constructor; [by eapply snd_queue_ok_ext|by eapply snd_state_ext; [|exact Hs4]
      |by eapply rcv_state_ext|eapply ack_rep_ext; [exact V4|by eapply ack_rep_clear]|by rewrite V3].
  - by rewrite V6.
  - by rewrite <- app_assoc in Hcat.
  - by apply (window_probes k1).
  - rewrite E5, Forall_forall in Hun. rewrite Forall_forall. intros s Hin. pose proof (Hun s Hin) as Hus. apply Hd in Hin. split_and!.
    + pose proof (ss_sized _ _ _ _ Hs4) as Hp. rewrite Hk4 in Hp. unfold pushed, queued in Hp. kred_in Hp.
      rewrite E3, E4, Forall_forall in Hp. by apply Hp.
    + done.
    + pose proof (ss_buf _ _ _ _ Hs4) as Hb. rewrite Hk4 in Hb. kred_in Hb. by eapply tracked_member.
  - pose proof (Forall2_length _ _ _ Hsame) as Hlen. transitivity (blocks k3); [|done].
    unfold k5. rewrite Hk4. unfold blocks. kred. by rewrite Hlen.
  - by rewrite V6.
  - by rewrite V6.
  - change (seg_sn <$> snd_buf k) with (seg_sn <$> snd_buf k2). rewrite <- Hsn3. unfold k5. rewrite Hk4. kred. clear -Hsame.
    induction Hsame as [|s t l l' (Hs & _) _ IH]; [done|]. rewrite !fmap_cons. by f_equal.
Qed.
