(* ===== verification/IkcpTimer.v ===== *)
(** * KCP: creation, release, settings and timers *)

From S2P Require Import Prelude CRuntime IkcpData Ikcp IkcpCodec IkcpRecv IkcpSend.
From S2P Require Import IkcpAck IkcpInput IkcpFlush.

(** ** Creation and release *)

(** A fresh control block satisfies the invariant for any two streams. *)
Lemma created_inv c f g : kcp_inv f g 0 0 0 [] (created c).
Proof.
  unfold created. change (u32 (IKCP_MTU_DEF - IKCP_OVERHEAD)) with 1376.
  constructor; [constructor|constructor|constructor|split|]; kred;
    unfold IKCP_WND_RCV, IKCP_MTU_DEF, IKCP_OVERHEAD; try lia; try done; constructor; done || lia.
Qed.

(** A failed allocation leaks nothing. *)
Lemma create_run {E} (e : E) a c f g :
  match ikcp_create c (World e a) with
  | Ok (Some k, World _ a') =>
      kcp_inv f g 0 0 0 [] k ∧ conv k = c ∧ al_live a' = al_live a + blocks k ∧
      cwnd k = 0 ∧ snd_wnd k = IKCP_WND_SND ∧ rcv_wnd k = IKCP_WND_RCV ∧ updated k = 0 ∧
      output k = false ∧ snd_queue k = [] ∧ rcv_queue k = [] ∧ interval k = IKCP_INTERVAL
  | Ok (None, World _ a') => al_live a' = al_live a
  | Err _ => False
  end.
Proof.
  unfold ikcp_create, ikcp_malloc, ikcp_free. run.
  destruct (al_ok a (al_calls a)) eqn:E1.
  2: { rewrite (malloc_None e a) by done. run. simpl. lia. }
  rewrite (malloc_Some e a) by done. run.
  destruct (al_ok a (S (al_calls a))) eqn:E2.
  2: { rewrite (malloc_None e (al_next a 1)) by done. run. simpl. lia. }
  rewrite (malloc_Some e (al_next a 1)) by done. run.
  split_and!; try done; [apply created_inv|unfold blocks; simpl; lia].
Qed.

Lemma release_run base k a :
  owns base (World k a) →
  ∃ k' a', ikcp_release (World k a) = Ok (tt, World k' a') ∧ al_live a' = base ∧ (al_total a → al_total a').
Proof.
  unfold owns. cbn [w_al w_eng]. intros H. unfold ikcp_release, get, put. run.
  destruct (free_n_run (length (snd_buf k)) k a) as (a1 & -> & L1 & T1). run.
  destruct (free_n_run (length (rcv_buf k)) k a1) as (a2 & -> & L2 & T2). run.
  destruct (free_n_run (length (snd_queue k)) k a2) as (a3 & -> & L3 & T3). run.
  destruct (free_n_run (length (rcv_queue k)) k a3) as (a4 & -> & L4 & T4). run.
  unfold ikcp_free. run. unfold blocks in H.
  destruct (null (acklist k)); run; eexists _, _; (split; [reflexivity|]); (split; [simpl; lia|]);
    intros Ha; auto 10 with ga.
Qed.

(** ** Retransmission timeout *)

Lemma update_ack_rto k rtt :
  0 ≤ rx_minrto k ≤ IKCP_RTO_MAX →
  rx_minrto k ≤ rx_rto (ikcp_update_ack k rtt) ≤ IKCP_RTO_MAX.
Proof.
  intros H. unfold ikcp_update_ack.
  set (k1 := if rx_srtt k =? 0 then _ else _).
  assert (rx_minrto k1 = rx_minrto k) as Hk1.
  { unfold k1. destruct (rx_srtt k =? 0); [done|]. cbv zeta. by destruct (_ <? 1). }
  cbv zeta. kred. rewrite Hk1.
  set (r := u32 (i32 _)). clearbody r. clear k1 Hk1. unfold IKCP_RTO_MAX in *.
  rewrite (u32_small (rx_minrto k)) by lia. unfold _ibound_, _imin_, _imax_.
  destruct (r <=? rx_minrto k) eqn:E1; b2p;
    [destruct (rx_minrto k <=? 60000) eqn:E2|destruct (r <=? 60000) eqn:E2]; b2p; rewrite i32_small; lia.
Qed.

(** On ordinary round-trip times the estimator is the textbook one: the
    smoothed time moves an eighth of the way, the deviation a quarter. *)
Lemma update_ack_estimator k rtt :
  0 < rx_srtt k < 2 ^ 24 → 0 ≤ rx_rttval k < 2 ^ 24 → 0 ≤ rtt < 2 ^ 24 →
  rx_srtt (ikcp_update_ack k rtt) = Z.max 1 ((7 * rx_srtt k + rtt) / 8) ∧
  rx_rttval (ikcp_update_ack k rtt) = (3 * rx_rttval k + Z.abs (rtt - rx_srtt k)) / 4.
Proof.
  intros H1 H2 H3. unfold ikcp_update_ack.
  destruct (rx_srtt k =? 0) eqn:E; b2p; [lia|]. cbv zeta. kred.
  rewrite (i32_small (rtt - rx_srtt k)) by lia. rewrite (i32_small (3 * rx_rttval k)) by lia.
  rewrite (i32_small (7 * rx_srtt k)) by lia. rewrite (i32_small (7 * rx_srtt k + rtt)) by lia.
  assert ((if rtt - rx_srtt k <? 0 then - (rtt - rx_srtt k) else rtt - rx_srtt k) = Z.abs (rtt - rx_srtt k)) as ->.
  { destruct (_ <? 0) eqn:E1; b2p; lia. }
  rewrite !Z.quot_div_nonneg by lia. rewrite (i32_small (_ / 4)) by dlia.
  destruct (_ / 8 <? 1) eqn:E1; b2p; kred; (split; [dlia|done]).
Qed.

(** ** Settings *)

Lemma clamp_interval_range i : 10 ≤ clamp_interval i ≤ 5000.
Proof. unfold clamp_interval. destruct (5000 <? i) eqn:E1, (i <? 10) eqn:E2; b2p; lia. Qed.

(** [ikcp_nodelay] as the gateway and the clients call it. *)
Lemma nodelay_run k a nd i rs nc :
  0 ≤ nd → 0 ≤ i → 0 ≤ rs → 0 ≤ nc →
  ikcp_nodelay nd i rs nc (World k a) = Ok (0, World
    (k <| nodelay := nd |> <| rx_minrto := if nd =? 0 then IKCP_RTO_MIN else IKCP_RTO_NDL |>
       <| interval := clamp_interval i |> <| fastresend := rs |> <| nocwnd := nc |>) a).
Proof.
  intros H1 H2 H3 H4. unfold ikcp_nodelay, get, put. run.
  destruct (0 <=? nd) eqn:E1, (0 <=? i) eqn:E2, (0 <=? rs) eqn:E3, (0 <=? nc) eqn:E4; b2p; done || lia.
Qed.

(** ** [ikcp_update] *)

Lemma u32_i32 z : u32 (i32 z) = u32 z.
Proof.
  unfold u32, i32. rewrite Zminus_mod_idemp_l. f_equal. lia.
Qed.

(** A time is recovered from its signed distance to another. *)
Lemma itimediff_inv now x :
  0 ≤ x < 2 ^ 32 → x = u32 (now - _itimediff now x) ∧ - 2 ^ 31 ≤ _itimediff now x < 2 ^ 31.
Proof.
  intros Hx. split; [|apply i32_range]. unfold _itimediff.
  rewrite <- u32_sub_r, u32_i32, u32_u32, u32_sub_r.
  replace (now - (now - x)) with x by lia. by rewrite u32_small.
Qed.

Lemma itimediff_after now e :
  0 ≤ now < 2 ^ 32 → - 2 ^ 31 < e < 2 ^ 31 →
  _itimediff now (u32 (now + e)) = - e ∧ _itimediff (u32 (now + e)) now = e.
Proof.
  intros Hn He. pose proof (itimediff_exact now (now + e) ltac:(lia)) as H1.
  pose proof (itimediff_exact (now + e) now ltac:(lia)) as H2.
  rewrite (u32_small now) in H1, H2 by done. lia.
Qed.

Lemma itimediff_self x : _itimediff x x = 0.
Proof. unfold _itimediff. by rewrite Z.sub_diag. Qed.

Section update.
Variables (now : Z) (k : ikcpcb).
Hypothesis (Hnow : 0 ≤ now < 2 ^ 32) (Hint : 10 ≤ interval k ≤ 5000) (Hts : 0 ≤ ts_flush k < 2 ^ 32).

(** The distance to the next flush after one that was due [slap] ago. *)
Lemma next_flush slap :
  0 ≤ slap < 10000 →
  let ts := u32 (u32 (now - slap) + interval k) in
  let ts' := if 0 <=? _itimediff now ts then u32 (now + interval k) else ts in
  0 < _itimediff ts' now ≤ interval k ∧ 0 ≤ ts' < 2 ^ 32.
Proof.
  intros Hs ts ts'. split; [|unfold ts', ts; destruct (0 <=? _); apply u32_range].
  assert (ts = u32 (now + (interval k - slap))) as Ets by (unfold ts; rewrite u32_add_l; f_equal; lia).
  assert (_itimediff now ts = slap - interval k) as Ed.
  { rewrite Ets, (proj1 (itimediff_after now (interval k - slap) Hnow ltac:(lia))). lia. }
  unfold ts'. clear ts'. rewrite Ed. destruct (0 <=? slap - interval k) eqn:E; b2p.
  - rewrite (proj2 (itimediff_after now (interval k) Hnow ltac:(lia))). lia.
  - rewrite Ets, (proj2 (itimediff_after now (interval k - slap) Hnow ltac:(lia))). lia.
Qed.

(** The block after the timer logic, and whether it flushes.  The next
    flush is after [now]; after a flush it is at most one interval away. *)
Lemma update_run a :
  ∃ k1, k1 = k <| current := now |> <| updated := updated k1 |> <| ts_flush := ts_flush k1 |> ∧
    updated k1 ≠ 0 ∧ 0 ≤ ts_flush k1 < 2 ^ 32 ∧
    ((ikcp_update now (World k a) = ikcp_flush (World k1 a) ∧
      0 < _itimediff (ts_flush k1) now ≤ interval k) ∨
     (ikcp_update now (World k a) = Ok ([], World k1 a) ∧ updated k1 = updated k ∧
      ts_flush k1 = ts_flush k ∧ - 10000 ≤ _itimediff now (ts_flush k) < 0)).
Proof.
  unfold ikcp_update, get, put. run.
  set (k0 := if updated (k <| current := now |>) =? 0 then _ else _).
  assert (∃ u t, k0 = k <| current := now |> <| updated := u |> <| ts_flush := t |> ∧ u ≠ 0 ∧
    0 ≤ t < 2 ^ 32 ∧ (t = now ∨ u = updated k ∧ t = ts_flush k)) as (u & t & -> & Hu & Ht & Hor).
  { unfold k0. kred. destruct (updated k =? 0) eqn:E; b2p; [exists 1, now; auto|].
    exists (updated k), (ts_flush k). split; [by destruct k|]. split; [done|]. split; [done|auto]. }
  kred. destruct (itimediff_inv now t Ht) as [Et Hd]. set (d := _itimediff now t) in *.
  destruct ((10000 <=? d) || (d <? -10000)) eqn:E1.
  - kred. change (0 <=? 0) with true. cbv iota. kred. pose proof (next_flush 0 ltac:(lia)) as Hnf.
    rewrite Z.sub_0_r, (u32_small now) in Hnf by done. cbv zeta in Hnf.
    destruct (0 <=? _itimediff now (u32 (now + interval k))); run;
      (eexists; split; [|split; [|split; [|left; split; [reflexivity|]]]]; [done|exact Hu|apply Hnf..]).
  - kred. b2p. destruct (0 <=? d) eqn:E2; b2p.
    + pose proof (next_flush d ltac:(lia)) as Hnf. rewrite <- Et in Hnf. cbv zeta in Hnf.
      destruct (0 <=? _itimediff now (u32 (t + interval k))); run;
        (eexists; split; [|split; [|split; [|left; split; [reflexivity|]]]]; [done|exact Hu|apply Hnf..]).
    + run. eexists. split; [|split; [|split; [|right; split; [reflexivity|]]]]; [done|exact Hu|exact Ht|].
      kred. destruct Hor as [->|[-> ->]]; [|split_and!; try done; unfold d in *; lia].
      unfold d in *. rewrite itimediff_self in *. lia.
Qed.
End update.

(** ** [ikcp_check] *)

Lemma check_loop_min buf now tm r :
  check_loop buf now tm = Some r →
  r ≤ tm ∧ Forall (λ s, r ≤ _itimediff (seg_resendts s) now) buf ∧
  (0 < tm → 0 < r).
Proof.
  revert tm. induction buf as [|s buf IH]; intros tm; simpl.
  { intros [= ->]. split_and!; [lia|constructor|done]. }
  destruct (_ <=? 0) eqn:E; b2p; [done|]. intros H. destruct (IH _ H) as (H1 & H2 & H3).
  destruct (_itimediff (seg_resendts s) now <? tm) eqn:E2; b2p;
    (split_and!; [lia|constructor; [lia|done]|lia]).
Qed.

Lemma itimediff_shift now d x :
  - 2 ^ 31 ≤ d - _itimediff x now < 2 ^ 31 → _itimediff (u32 (now + d)) x = d - _itimediff x now.
Proof.
  intros H. unfold _itimediff at 1. rewrite u32_sub_l.
  rewrite <- (i32_small (d - _itimediff x now)) by done. rewrite i32_u32.
  rewrite <- (i32_u32 (d - _)), <- (i32_u32 (now + d - x)). f_equal.
  unfold _itimediff. rewrite <- (u32_sub_r d), u32_i32, u32_u32, u32_sub_r. f_equal. lia.
Qed.

(** [ikcp_check] gives the time of the next work: it is at most one interval
    ahead, and until then [ikcp_update] flushes nothing and no segment comes
    due for retransmission. *)
Lemma check_sound k a now d :
  0 ≤ now < 2 ^ 32 → 10 ≤ interval k ≤ 5000 → 0 ≤ ts_flush k < 2 ^ 32 →
  0 ≤ d < ahead now (ikcp_check k now) →
  ahead now (ikcp_check k now) ≤ interval k ∧
  ikcp_update (u32 (now + d)) (World k a) = Ok ([], World (k <| current := u32 (now + d) |>) a) ∧
  Forall (λ s, _itimediff (u32 (now + d)) (seg_resendts s) < 0) (snd_buf k).
Proof.
  intros Hnow Hint Hts Hd. unfold ikcp_check in *.
  destruct (updated k =? 0) eqn:Eu; b2p; [rewrite ahead_self in Hd; lia|].
  set (tsf := if _ || _ then now else ts_flush k) in *.
  destruct (0 <=? _itimediff now tsf) eqn:E1; b2p; [rewrite ahead_self in Hd; lia|].
  assert (tsf = ts_flush k ∧ - 10000 ≤ _itimediff now (ts_flush k)) as [Htsf Hlo].
  { unfold tsf in *. destruct (_ || _) eqn:E2; [rewrite itimediff_self in E1; lia|]. b2p. done. }
  rewrite Htsf in *. clear tsf Htsf.
  destruct (itimediff_inv now (ts_flush k) Hts) as [Et _]. set (D := - _itimediff now (ts_flush k)) in *.
  assert (ts_flush k = u32 (now + D)) as Et' by (rewrite Et; f_equal; unfold D; lia).
  assert (_itimediff (ts_flush k) now = D) as ED.
  { rewrite Et'. apply itimediff_after; [done|lia]. }
  rewrite ED in *. destruct (check_loop (snd_buf k) now 2147483647) as [r|] eqn:Ec;
    [|rewrite ahead_self in Hd; lia].
  destruct (check_loop_min _ _ _ _ Ec) as (Hr & Hall & Hpos). specialize (Hpos ltac:(lia)).
  rewrite (u32_small (if r <? D then r else D)) in * by (destruct (r <? D) eqn:E; b2p; lia).
  set (M := if interval k <=? _ then _ else _) in *.
  assert (0 < M ≤ interval k ∧ M ≤ D ∧ M ≤ r) as HM.
  { unfold M. clear M Hd. destruct (r <? D) eqn:E; b2p; destruct (interval k <=? _) eqn:E2; b2p; lia. }
  rewrite ahead_plus in * by lia. split; [lia|]. split.
  - unfold ikcp_update, get, put. run. kred. destruct (updated k =? 0) eqn:Eu'; b2p; [done|]. kred.
    rewrite Et', itimediff_exact by lia.
    destruct ((10000 <=? _) || (_ <? -10000)) eqn:E2.
    { apply orb_true_iff in E2 as [E2|E2]; b2p; lia. }
    destruct (0 <=? _) eqn:E3; b2p; [lia|]. run. do 3 f_equal; by destruct k.
  - eapply Forall_impl; [exact Hall|]. intros s Hs. simpl in Hs. rewrite itimediff_shift; [lia|].
    pose proof (i32_range (u32 (seg_resendts s - now))). unfold _itimediff in *. lia.
Qed.
