(* ===== verification/IkcpApi.v ===== *)
(** * KCP: sessions

    Any sequence of the calls that change a control block, with an MTU that is
    not lowered, runs without a fault and keeps the invariant, and releasing the
    control block afterwards returns every block it allocated. *)

From S2P Require Import Prelude CRuntime IkcpData Ikcp IkcpCodec IkcpRecv IkcpSend.
From S2P Require Import IkcpAck IkcpInput IkcpFlush IkcpTimer.

(** ** The outgoing stream grows with the queue *)

Lemma tracked_ext f f' lo hi buf :
  (∀ i, lo ≤ i < hi → f' i = f i) → tracked f lo hi buf → tracked f' lo hi buf.
Proof.
  intros Hf H. induction H as [|lo hi i s buf Hi Hs Hp H IH]; [by constructor|].
  apply (tr_cons _ _ _ i); [done|done|by rewrite Hf by lia|]. apply IH. intros j Hj. apply Hf. lia.
Qed.

(** A stream that continues [f] from [X] with the payloads of [q]. *)
Definition extend (f : Z → Z * list Z) (X : Z) (q : list ikcpseg) (i : Z) : Z * list Z :=
  if i <? X then f i else default (0, []) ((payload <$> q) !! Z.to_nat (i - X)).

Lemma extend_queue f X q : payload <$> q = extend f X q <$> seqZ X (Z.of_nat (length q)).
Proof.
  apply list_eq. intros i. rewrite !list_lookup_fmap. destruct (q !! i) as [s|] eqn:E.
  - rewrite lookup_seqZ_lt by (apply lookup_lt_Some in E; lia). cbn [fmap option_fmap option_map].
    unfold extend. destruct (_ <? X) eqn:E1; b2p; [lia|].
    replace (Z.to_nat (X + Z.of_nat i - X)) with i by lia. by rewrite list_lookup_fmap, E.
  - apply lookup_ge_None in E. by rewrite lookup_seqZ_ge by lia.
Qed.

Lemma with_queue_state f U X k q :
  snd_state f U X k → snd_state (extend f X q) U X (with_queue k q).
Proof.
  intros [H1 H2 H3 H4 H5 H6 H7]. constructor; unfold with_queue; kred; try done.
  - eapply tracked_ext; [|done]. intros i Hi. unfold extend. destruct (i <? X) eqn:E; b2p; [done|lia].
  - apply extend_queue.
Qed.

Lemma with_queue_inv f g U X N ps k q :
  kcp_inv f g U X N ps k → snd_queue_ok (with_queue k q) →
  kcp_inv (extend f X q) g U X N ps (with_queue k q).
Proof.
  intros [H1 H2 H3 H4 H5] Hq. constructor; [done|by apply with_queue_state|..]; try done.
  - by eapply rcv_state_ext; [|exact H3].
Qed.

(** ** Calls *)

Inductive call :=
  | CSend (buf : list Z)
  | CRecv (len : Z)
  | CInput (data : list Z)
  | CUpdate (now : Z)
  | CFlush
  | CNodelay (nd i resend nc : Z)
  | CWndsize (snd rcv : Z)
  | CInterval (i : Z)
  | CSetmtu (m : Z)
  (** [kcp->stream = x] *)
  | CStream (x : Z).

Definition exec (c : call) : K unit :=
  match c with
  | CSend buf => _ ← ikcp_send buf (Z.of_nat (length buf)); mret tt
  | CRecv len => _ ← ikcp_recv len; mret tt
  | CInput data => _ ← ikcp_input data; mret tt
  | CUpdate now => _ ← ikcp_update now; mret tt
  | CFlush => _ ← ikcp_flush; mret tt
  | CNodelay nd i resend nc => _ ← ikcp_nodelay nd i resend nc; mret tt
  | CWndsize s r => _ ← ikcp_wndsize s r; mret tt
  | CInterval i => _ ← ikcp_interval i; mret tt
  | CSetmtu m => _ ← ikcp_setmtu m; mret tt
  | CStream x => k ← get; put (k <| stream := x |>)
  end.

Fixpoint exec_all (l : list call) : K unit :=
  match l with
  | [] => mret tt
  | c :: l' => _ ← exec c; exec_all l'
  end.

(** Arguments in the range of their C types; with the MTU [m], one that
    [ikcp_setmtu] refuses or that is not lower and below 2^30. *)
Definition call_ok (m : Z) (c : call) : Prop :=
  match c with
  | CSend buf => Z.of_nat (length buf) < 2 ^ 31
  | CRecv len => - 2 ^ 31 < len < 2 ^ 31
  | CUpdate now => 0 ≤ now < 2 ^ 32
  | CWndsize s r => s < 2 ^ 31 ∧ r < 2 ^ 31
  | CSetmtu x => x < 50 ∨ m ≤ x < 2 ^ 30
  | CInput _ | CFlush | CNodelay _ _ _ _ | CInterval _ | CStream _ => True
  end.

#[global] Instance call_ok_dec m c : Decision (call_ok m c).
Proof. destruct c; simpl; apply _. Defined.

(** The MTU after a call. *)
Definition next_mtu (m : Z) (c : call) : Z :=
  match c with CSetmtu x => if x <? 50 then m else x | _ => m end.

Fixpoint calls_ok (m : Z) (l : list call) : Prop :=
  match l with
  | [] => True
  | c :: l' => call_ok m c ∧ calls_ok (next_mtu m c) l'
  end.

#[global] Instance calls_ok_dec m l : Decision (calls_ok m l).
Proof. revert m. induction l as [|c l IH]; intros m; simpl; apply _. Defined.

(** What a call may add to the send queue or to the list of pending
    acknowledgements. *)
Definition cost (c : call) : Z :=
  match c with
  | CSend _ => 128
  | CInput data => Z.of_nat (length data)
  | _ => 0
  end.

Definition total_cost (l : list call) : Z := foldr (λ c n, cost c + n) 0 l.

(** ** The session invariant *)

Definition session (base n : Z) (w : world ikcpcb) : Prop :=
  ∃ f g U X N ps, kcp_inv f g U X N ps (w_eng w) ∧ al_total (w_al w) ∧ owns base w ∧
    output (w_eng w) = true ∧ 0 ≤ cwnd (w_eng w) ∧ 0 ≤ snd_wnd (w_eng w) ∧
    10 ≤ interval (w_eng w) ≤ 5000 ∧ 0 ≤ ts_flush (w_eng w) < 2 ^ 32 ∧
    Z.of_nat (length ps) ≤ n ∧ Z.of_nat (length (snd_queue (w_eng w))) ≤ n.

Lemma session_mono base n n' w : n ≤ n' → session base n w → session base n' w.
Proof.
  intros Hn (f & g & U & X & N & ps & H). exists f, g, U, X, N, ps. intuition lia.
Qed.

Lemma send_session base n k a buf :
  session base n (World k a) → Z.of_nat (length buf) < 2 ^ 31 → n + 128 < 2 ^ 31 →
  ∃ r w', ikcp_send buf (Z.of_nat (length buf)) (World k a) = Ok (r, w') ∧ session base (n + 128) w' ∧
    mtu (w_eng w') = mtu k.
Proof.
  intros (f & g & U & X & N & ps & Hinv & Ha & Hown & Ho & Hc & Hs & Hi & Ht & Hps & Hq) Hb Hn.
  unfold owns in *. cbn [w_eng w_al] in *. pose proof (ki_queue _ _ _ _ _ _ _ Hinv) as Hok.
  assert (∀ q a', snd_queue_ok (with_queue k q) → al_total a' →
    al_live a' - Z.of_nat (length q) = al_live a - Z.of_nat (length (snd_queue k)) →
    Z.of_nat (length q) ≤ n + 128 → session base (n + 128) (World (with_queue k q) a')) as Hnew.
  { intros q a' Hq' Ha' Hl Hlen. exists (extend f X q), g, U, X, N, ps. unfold owns. cbn [w_eng w_al].
    split; [by apply with_queue_inv|]. unfold with_queue. kred. split_and!; try done; try lia.
    unfold blocks in *. kred. lia. }
  destruct (decide (stream k = 0)) as [Hst|Hst].
  - pose proof (send_message k a buf Hok Ha Hst Hb ltac:(lia)) as Hrun. cbv zeta in Hrun.
    destruct (frag_count _ _ <? _) eqn:En; b2p.
    + destruct Hrun as (segs & a' & -> & Hp & Hok' & Ha' & Hl). eexists _, _. split; [done|].
      assert (Z.of_nat (length segs) = frag_count (mss k) (Z.of_nat (length buf))) as Hlen.
      { rewrite <- (length_fmap payload segs), Hp, fragments_length.
        pose proof (sq_mss _ Hok). destruct (frag_count_enough (mss k) (Z.of_nat (length buf))); lia. }
      unfold IKCP_WND_RCV in En. split; [|done]. apply Hnew; try done; rewrite length_app; lia.
    + eexists _, _. split; [exact Hrun|]. split; [|done]. eapply (session_mono _ n); [lia|].
      exists f, g, U, X, N, ps. done.
  - destruct (send_stream k a buf Hok Ha Hst Hb ltac:(lia)) as (r & q & a' & -> & _ & _ & Hok' & Ha' & Hl & Hle).
    eexists _, _. split; [done|]. split; [|done]. apply Hnew; try done. lia.
Qed.

(** The receive half of a session moved on. *)
Lemma session_received base n k a k' a' f g U X N N' ps :
  kcp_inv f g U X N ps k → session base n (World k a) → rcv_state g N' k' →
  rcv_frame (k <| probe := probe k' |>) k' → al_live a' - blocks k' = al_live a - blocks k → al_total a' →
  Z.of_nat (length ps) ≤ n → session base n (World k' a') ∧ mtu k' = mtu k.
Proof.
  intros Hinv (f0 & g0 & U0 & X0 & N0 & ps0 & _ & Ha & Hown & Ho & Hc & Hw & Hi & Ht & _ & Hq) Hr Hf Hl Ha' Hps.
  unfold owns in *. cbn [w_eng w_al] in *.
  destruct (snd_blocks_rcv _ _ Hf) as (V1 & V2 & V3 & [V4 V4'] & _).
  injection (f_equal fst V4) as ? ? ? Em ? Ei ? ? ? ? ? ? Et ? Eo. pose proof (f_equal snd V4) as Eq'.
  cbn [static_view snd] in Eq'.
  kred_in Ei. kred_in Et. kred_in Eo. kred_in V3. kred_in V4'. kred_in Em. split; [|exact Em].
  exists f, g, U, X, N', ps. unfold owns. cbn [w_eng w_al].
  rewrite Ei, Et, Eo, Eq', V4'. split; [|split_and!; try done; try lia; auto; congruence].
  destruct Hinv as [Q1 Q2 Q3 Q4 Q5]. constructor; [| |done| |by rewrite V3].
  - eapply snd_queue_ok_ext; [|exact Q1]. unfold snd_view in V1. unfold queue_view.
    by injection V1 as _ _ _ _ -> -> -> -> _.
  - by eapply snd_state_ext; [|exact Q2].
  - by eapply ack_rep_ext; [|exact Q4].
Qed.

Lemma recv_session base n k a len :
  session base n (World k a) → len < 2 ^ 31 →
  ∃ r w', ikcp_recv len (World k a) = Ok (r, w') ∧ session base n w' ∧ mtu (w_eng w') = mtu k.
Proof.
  intros Hs Hlen. pose proof Hs as (f & g & U & X & N & ps & Hinv & Ha & _ & _ & _ & _ & _ & _ & Hps & _).
  cbn [w_eng w_al] in *. pose proof (ki_rcv _ _ _ _ _ _ _ Hinv) as Hrcv.
  destruct (Z.lt_ge_cases len 0) as [Hneg|Hpos].
  { destruct (recv_peek g N k a len Hrcv Hneg) as (r & k' & m & Hrun & Hr & _ & Hf & Hb & _ & _ & _).
    eexists _, _. split; [exact Hrun|]. apply (session_received base n k a k' a f g U X N (N + m) ps); try done. lia. }
  pose proof (recv_run g N k a len Hrcv ltac:(lia)) as Hrun.
  destruct (rcv_queue k) eqn:Eq; [by eexists _, _|].
  destruct (ikcp_peeksize k <? 0); [by eexists _, _|].
  destruct (len <? ikcp_peeksize k); [by eexists _, _|].
  destruct Hrun as (k' & a' & m & Hrun & _ & Hr & _ & _ & Hf & _ & Hl & Ha' & _).
  eexists _, _. split; [exact Hrun|]. apply (session_received base n k a k' a' f g U X N (N + m) ps); try done. by apply Ha'.
Qed.

Lemma input_session base n k a data :
  session base n (World k a) → n + Z.of_nat (length data) < 2 ^ 31 →
  ∃ r w', ikcp_input data (World k a) = Ok (r, w') ∧ session base (n + Z.of_nat (length data)) w' ∧
    mtu (w_eng w') = mtu k.
Proof.
  intros (f & g & U & X & N & ps & Hinv & Ha & Hown & Ho & Hc & Hw & Hi & Ht & Hps & Hq) Hn.
  unfold owns in *. cbn [w_eng w_al] in *.
  destruct (input_safe f g U X N ps k a data Hinv Ha ltac:(lia)) as
    (r & k' & a' & g' & U' & N' & ps' & -> & _ & Hinv' & _ & _ & Hps' & Hl & Ha' & V & Hc').
  eexists _, _. split; [done|].
  injection (f_equal fst V) as _ Es _ Em _ Ei _ _ _ _ _ _ Et _ Eo. pose proof (f_equal snd V) as Eq'.
  split; [|exact Em]. exists f, g', U', X, N', ps'. unfold owns. cbn [w_eng w_al].
  cbn [static_view snd] in Eq'. rewrite Ei, Et, Eo, Es, Eq'.
  split; [done|]. split_and!; try done; try lia; auto.
Qed.

Lemma flush_session base n k a :
  session base n (World k a) →
  ∃ r w', ikcp_flush (World k a) = Ok (r, w') ∧ session base n w' ∧ mtu (w_eng w') = mtu k.
Proof.
  intros Hs. pose proof Hs as (f & g & U & X & N & ps & Hinv & Ha & Hown & Ho & Hc & Hw & Hi & Ht & Hps & Hq).
  unfold owns in *. cbn [w_eng w_al] in *.
  destruct (decide (updated k = 0)) as [Hu|Hu].
  { eexists _, _. split; [|split; [exact Hs|done]]. unfold ikcp_flush, get. run. by rewrite Hu. }
  destruct (flush_run f g U X N ps k a Hinv Ho Hu Hc Hw) as
    (k' & X' & groups & probes & data & -> & Hinv' & _ & _ & _ & _ & _ & _ & _ & Hb & Hql & V & _ & Hc').
  eexists _, _. split; [done|]. injection V as _ Es _ Em _ Ei _ _ _ _ _ _ Et _ Eo. split; [|exact Em].
  exists f, g, U, X', N, []. unfold owns. cbn [w_eng w_al length].
  rewrite Ei, Et, Eo, Es. split; [done|]. split_and!; try done; try lia.
Qed.

(** A change of settings that keeps the session invariant. *)
Lemma session_settings base n k k' a :
  snd_view k' = snd_view k → ack_view k' = ack_view k → rmt_wnd k' = rmt_wnd k → cwnd k' = cwnd k →
  output k' = output k → rcv_view (k' <| rcv_wnd := rcv_wnd k |>) = rcv_view k → 1 ≤ rcv_wnd k' < 2 ^ 31 →
  0 ≤ snd_wnd k' → 10 ≤ interval k' ≤ 5000 → 0 ≤ ts_flush k' < 2 ^ 32 →
  session base n (World k a) → session base n (World k' a).
Proof.
  intros E1 E2 E3 E4 E5 E6 Hrw Hsw Hi Ht (f & g & U & X & N & ps & Hinv & Ha & Hown & Ho & Hc & _ & _ & _ & Hps & Hq).
  unfold owns in *. cbn [w_eng w_al] in *. exists f, g, U, X, N, ps. unfold owns. cbn [w_eng w_al].
  injection E6 as F1 F2 F3 F4 F5. injection E1 as G1 G2 G3 G4 G5 G6 G7 G8 G9. injection E2 as J1 J2 J3.
  rewrite E4, E5, G7. split; [|split_and!; try done; try lia; unfold blocks in *; rewrite J1, G7, F2, G3, F4; lia].
  destruct Hinv as [Q1 Q2 Q3 Q4 Q5]. constructor; [| | | |by rewrite E3].
  - eapply snd_queue_ok_ext; [|exact Q1]. unfold queue_view. congruence.
  - eapply snd_state_ext; [|exact Q2]. unfold snd_view. congruence.
  - destruct Q3 as [R1 R2 R3 R4 R5 R6 R7 R8 R9].
    constructor; rewrite ?F1, ?F2, ?F3, ?F4, ?F5; try done. unfold buffered. by rewrite F1.
  - eapply ack_rep_ext; [|exact Q4]. unfold ack_view. congruence.
Qed.

Lemma update_session base n k a now :
  session base n (World k a) → 0 ≤ now < 2 ^ 32 →
  ∃ r w', ikcp_update now (World k a) = Ok (r, w') ∧ session base n w' ∧ mtu (w_eng w') = mtu k.
Proof.
  intros Hs Hn. pose proof Hs as (f & g & U & X & N & ps & Hinv & _ & _ & _ & _ & Hw & Hi & Ht & _).
  cbn [w_eng w_al] in *. destruct (update_run now k Hn Hi Ht a) as (k1 & Hk1 & _ & Ht1 & Hor).
  assert (session base n (World k1 a)) as Hs1.
  { pose proof (rs_wnd _ _ _ (ki_rcv _ _ _ _ _ _ _ Hinv)) as Hrw.
    apply (session_settings base n k); try done; rewrite Hk1; kred; try done. }
  assert (mtu k1 = mtu k) as <- by (by rewrite Hk1).
  destruct Hor as [[-> _]|[-> _]]; [by apply flush_session|]. by eexists _, _.
Qed.

(** A larger MTU. *)
Lemma session_mtu base n k a m :
  session base n (World k a) → mtu k ≤ m < 2 ^ 30 →
  session base n (World (k <| mtu := m |> <| mss := u32 (m - IKCP_OVERHEAD) |>) a).
Proof.
  intros (f & g & U & X & N & ps & Hinv & Ha & Hown & Ho & Hc & Hw & Hi & Ht & Hps & Hq) Hm.
  pose proof Hinv as [Q1 Q2 Q3 Q4 Q5]. pose proof (sq_mtu _ Q1) as [Em _]. pose proof (sq_mss _ Q1) as Hmss.
  cbn [w_eng w_al] in *. unfold IKCP_OVERHEAD in *. rewrite u32_small by lia.
  set (k' := k <| mtu := m |> <| mss := m - 24 |>).
  assert (∀ s, queued k s → queued k' s) as Hqd by (intros s (H1 & H2 & H3); split_and!; try done; unfold k'; kred; lia).
  exists f, g, U, X, N, ps. split; [|done]. constructor.
  - destruct Q1 as [_ _ S3 S4 S5]. constructor; cbn [w_eng].
    { unfold k'. kred. lia. }
    { unfold k', IKCP_OVERHEAD. kred. lia. }
    { exact S3. }
    { exact S4. }
    { by eapply Forall_impl. }
  - destruct Q2 as [S1 S2 S3 S4 S5 S6 S7]. constructor; unfold k' in *; kred; try done.
    eapply Forall_impl; [exact S6|]. intros s [Hs1 Hs2]. split; [by apply Hqd|done].
  - by eapply rcv_state_ext; [|exact Q3].
  - by eapply ack_rep_ext; [|exact Q4].
  - done.
Qed.

(** Every call in range succeeds and keeps the invariant. *)
Lemma exec_safe base n w c :
  session base n w → call_ok (mtu (w_eng w)) c → n + cost c < 2 ^ 31 →
  ∃ w', exec c w = Ok (tt, w') ∧ session base (n + cost c) w' ∧ mtu (w_eng w') = next_mtu (mtu (w_eng w)) c.
Proof.
  destruct w as [k a]. intros Hs Hok Hn.
  pose proof Hs as (f & g & U & X & N & ps & Hinv & Ha & Hown & _ & _ & Hw & Hi & Ht & _). cbn [w_eng] in *.
  pose proof (rs_wnd _ _ _ (ki_rcv _ _ _ _ _ _ _ Hinv)) as Hrw.
  destruct c as [buf|len|data|now| |nd i rs nc|s r|i|m|x]; cbn [exec cost call_ok next_mtu] in *; run.
  - destruct (send_session base n k a buf Hs Hok Hn) as (x & w' & -> & Hs'). by exists w'.
  - destruct (recv_session base n k a len Hs ltac:(lia)) as (x & w' & -> & Hs'). rewrite Z.add_0_r. by exists w'.
  - destruct (input_session base n k a data Hs Hn) as (x & w' & -> & Hs'). by exists w'.
  - destruct (update_session base n k a now Hs Hok) as (x & w' & -> & Hs'). rewrite Z.add_0_r. by exists w'.
  - destruct (flush_session base n k a Hs) as (x & w' & -> & Hs'). rewrite Z.add_0_r. by exists w'.
  - rewrite Z.add_0_r. unfold ikcp_nodelay, get, put. run. eexists. split; [reflexivity|].
    pose proof (clamp_interval_range i). split; [|by destruct (0 <=? nd), (0 <=? i), (0 <=? rs), (0 <=? nc)].
    apply (session_settings base n k); destruct (0 <=? nd), (0 <=? i), (0 <=? rs), (0 <=? nc); kred; done || lia.
  - rewrite Z.add_0_r. unfold ikcp_wndsize, get, put. run. eexists. split; [reflexivity|].
    unfold _imax_, IKCP_WND_RCV. destruct Hok as [Hok1 Hok2]. split; [|by destruct (0 <? s), (0 <? r)].
    apply (session_settings base n k); destruct (0 <? s) eqn:E1, (0 <? r) eqn:E2; b2p; kred; try done; try lia;
      destruct (_ <=? r) eqn:E3; b2p; lia.
  - rewrite Z.add_0_r. unfold ikcp_interval, get, put. run. eexists. split; [reflexivity|]. split; [|done].
    pose proof (clamp_interval_range i). apply (session_settings base n k); kred; done || lia.
  - rewrite Z.add_0_r. unfold ikcp_setmtu. destruct (m <? 50) eqn:Em; b2p; cbn [orb]; [by run; eexists|].
    destruct Hok as [?|Hm]; [lia|]. rewrite (proj2 (Z.ltb_ge m IKCP_OVERHEAD)) by (unfold IKCP_OVERHEAD; lia). run.
    rewrite malloc_run by done. unfold get, put, ikcp_free. run. eexists. split; [reflexivity|]. split; [|done].
    apply (session_mtu base n k _ m) in Hs; [|done].
    destruct Hs as (f' & g' & U' & X' & N' & ps' & Hs1 & _ & Hs3 & Hs4). exists f', g', U', X', N', ps'.
    unfold owns in *. cbn [w_eng w_al] in *. split; [done|]. split; [auto with ga|]. split; [|exact Hs4].
    cbn [al_dec al_next al_live]. lia.
  - rewrite Z.add_0_r. unfold get, put. run. eexists. split; [reflexivity|]. split; [|done].
    apply (session_settings base n k); kred; done || lia.
Qed.

Lemma exec_all_safe base n w l :
  session base n w → calls_ok (mtu (w_eng w)) l → n + total_cost l < 2 ^ 31 →
  ∃ w', exec_all l w = Ok (tt, w') ∧ session base (n + total_cost l) w'.
Proof.
  revert n w. induction l as [|c l IH]; intros n w Hs Hok Hn; cbn [exec_all total_cost foldr calls_ok] in *.
  { exists w. by rewrite Z.add_0_r. }
  destruct Hok as [Hc Hok]. fold (total_cost l) in *.
  assert (0 ≤ total_cost l) by (clear; induction l as [|[] l IH]; simpl; lia).
  destruct (exec_safe base n w c Hs Hc ltac:(lia)) as (w1 & H1 & S1 & E1). rewrite <- E1 in Hok.
  destruct (IH _ w1 S1 Hok ltac:(lia)) as (w2 & H2 & S2).
  exists w2. run. rewrite H1. split; [done|]. by rewrite Z.add_assoc.
Qed.

(** ** A whole session *)

(** Create a control block, install the callback, make the calls, release. *)
Definition run_session (c : Z) (calls : list call) (a : alloc) : result alloc :=
  match ikcp_create c (World tt a) with
  | Err e => Err e
  | Ok (None, w) => Ok (w_al w)
  | Ok (Some k, w) =>
      match (_ ← ikcp_setoutput; _ ← exec_all calls; ikcp_release) (World k (w_al w)) with
      | Err e => Err e
      | Ok (_, w') => Ok (w_al w')
      end
  end.

Lemma create_session a c k a' :
  al_total a → ikcp_create c (World tt a) = Ok (Some k, World tt a') →
  session (al_live a) 0 (World (k <| output := true |>) a').
Proof.
  intros Ha Hrun. pose proof (create_run tt a c (λ _, (0, [])) (λ _, (0, []))) as Hc. rewrite Hrun in Hc.
  destruct Hc as (Hinv & _ & Hl & Hcw & Hsw & _ & _ & _ & Hsq & _ & Hi).
  assert (al_total a') as Ha'.
  { unfold ikcp_create, ikcp_malloc, ikcp_free in Hrun. run_in Hrun. rewrite malloc_total in Hrun by done.
    run_in Hrun. rewrite malloc_total in Hrun by auto with ga. run_in Hrun. injection Hrun as _ <-. auto with ga. }
  assert (ts_flush k = IKCP_INTERVAL) as Ht.
  { unfold ikcp_create, ikcp_malloc, ikcp_free in Hrun. run_in Hrun. rewrite malloc_total in Hrun by done.
    run_in Hrun. rewrite malloc_total in Hrun by auto with ga. run_in Hrun. by injection Hrun as <- _. }
  eexists _, _, 0, 0, 0, []. cbn [w_eng w_al]. kred. rewrite Hcw, Hsw, Hi, Ht, Hsq.
  split; [eapply kcp_inv_ext; [..|exact Hinv]; try done; apply Hinv|].
  split_and!; try done.
Qed.

Lemma create_mtu c (w w' : world unit) k : ikcp_create c w = Ok (Some k, w') → mtu (k <| output := true |>) = IKCP_MTU_DEF.
Proof.
  intros H. unfold ikcp_create in H. apply bind_inv in H as (b & w1 & _ & H). destruct b; [|done].
  apply bind_inv in H as (b & w2 & _ & H). destruct b; [by injection H as <- _|].
  by apply bind_inv in H as (? & ? & _ & H).
Qed.

(** Creation, any calls in range and release: no fault, and not a block more
    is allocated at the end than at the start. *)
Lemma run_session_clean c calls a :
  al_total a → calls_ok IKCP_MTU_DEF calls → total_cost calls < 2 ^ 31 →
  ∃ a', run_session c calls a = Ok a' ∧ al_live a' = al_live a.
Proof.
  intros Ha Hok Hn. unfold run_session.
  pose proof (create_run tt a c (λ _, (0, [])) (λ _, (0, []))) as Hc.
  destruct (ikcp_create c (World tt a)) as [[[k|] [[] a1]]|e] eqn:Hrun; [|by exists a1|done].
  destruct (exec_all_safe (al_live a) 0 (World (k <| output := true |>) a1) calls) as ([k2 a2] & H2 & S2);
    [by eapply create_session| |done|].
  { cbn [w_eng]. by rewrite (create_mtu c (World tt a) (World tt a1)) by done. }
  destruct S2 as (f & g & U & X & N & ps & _ & _ & Hown & _).
  destruct (release_run (al_live a) k2 a2 Hown) as (k3 & a3 & H3 & Hl3 & _).
  exists a3. cbn [w_al]. run. unfold ikcp_setoutput, get, put. run. rewrite H2. run. by rewrite H3.
Qed.
