(* ===== verification/IkcpLink.v ===== *)
(** * KCP: delivery over a lossy link

    Datagrams of one end may be lost, duplicated and reordered on the way;
    whatever arrives, the other end's receive state stays a prefix of the
    stream that was sent. *)

From S2P Require Import Prelude CRuntime IkcpData Ikcp IkcpCodec IkcpRecv IkcpSend.
From S2P Require Import IkcpAck IkcpInput IkcpFlush IkcpTimer.

(** A segment on the wire of a connection [c] whose sender has numbered the
    indices below [X] of the stream [f]. *)
Definition of_stream (f : Z → Z * list Z) (c X : Z) (s : ikcpseg) : Prop :=
  seg_conv s = c ∧ seg_len s = Z.of_nat (length (seg_data s)) ∧ seg_len s < 2 ^ 31 ∧
  ((seg_len s = 0 ∧ (seg_cmd s = IKCP_CMD_ACK ∨ seg_cmd s = IKCP_CMD_WASK ∨ seg_cmd s = IKCP_CMD_WINS)) ∨
   (seg_cmd s = IKCP_CMD_PUSH ∧ 0 ≤ seg_frg s < 2 ^ 8 ∧
    ∃ i, 0 ≤ i < X ∧ seg_sn s = u32 i ∧ payload s = f i)).

Lemma header_of_ok s : header_ok (header_of s).
Proof.
  unfold header_ok, header_of. cbn [h_conv h_cmd h_frg h_wnd h_ts h_sn h_una h_len].
  split_and!; first [apply u32_range|apply u16_range|apply u8_byte].
Qed.

(** ** What a flush sends is of the stream *)

Lemma control_of_stream f c X k s :
  control k s → conv k = c → seg_cmd s = IKCP_CMD_ACK ∨ seg_cmd s = IKCP_CMD_WASK ∨ seg_cmd s = IKCP_CMD_WINS →
  of_stream f c X s.
Proof. intros (H1 & H2 & H3 & _) <- Hc. unfold of_stream. rewrite H1, H2. split_and!; auto. done. Qed.

Lemma transmitted_of_stream f U X k s :
  0 ≤ U → mss k < 2 ^ 31 → transmitted f U X k s → of_stream f (conv k) X s.
Proof.
  intros HU Hm (((Hl & Hle & Hfrg) & Hcmd & Hconv) & _ & i & Hi & Hsn & Hp).
  unfold of_stream. split_and!; [done|done|lia|]. right. unfold IKCP_WND_RCV in Hfrg.
  split_and!; [done|lia|lia|]. exists i. split_and!; done || lia.
Qed.

(** ** What a datagram says has arrived *)

(** A number whose index has arrived. *)
Definition arrived_sn (H : Z → Prop) (sn : Z) : Prop := ∃ i, 0 ≤ i < 2 ^ 31 ∧ sn = u32 i ∧ H i.

(** What a segment acknowledges has arrived: everything before [una], and
    [sn] when it is an acknowledgement. *)
Definition truthful (H : Z → Prop) (s : ikcpseg) : Prop :=
  (∃ n, 0 ≤ n < 2 ^ 31 ∧ seg_una s = u32 n ∧ ∀ i, i < n → H i) ∧
  (seg_cmd s = IKCP_CMD_ACK → arrived_sn H (seg_sn s)).

Lemma arrived_sn_mono (H H' : Z → Prop) sn : (∀ i, H i → H' i) → arrived_sn H sn → arrived_sn H' sn.
Proof. intros HH (i & Hi & E & Hh). exists i. auto. Qed.

Lemma truthful_mono (H H' : Z → Prop) s : (∀ i, H i → H' i) → truthful H s → truthful H' s.
Proof.
  intros HH [(n & Hn & E & Hu) Ha]. split; [by exists n; auto|]. intros Hc. by eapply arrived_sn_mono, Ha.
Qed.

Lemma u32_inj_small i j : 0 ≤ i < 2 ^ 31 → 0 ≤ j < 2 ^ 31 → u32 i = u32 j → i = j.
Proof. intros Hi Hj. rewrite !u32_small by lia. done. Qed.

Lemma of_stream_u8 f c X s : of_stream f c X s → u8 (seg_cmd s) = seg_cmd s.
Proof. intros (_ & _ & _ & [[_ [-> | [-> | ->]]] | [-> _]]); done. Qed.

(** The indices a truthful segment acknowledges have arrived. *)
Lemma acked_arrived (H : Z → Prop) f c X s i :
  of_stream f c X s → truthful H s → 0 ≤ i < 2 ^ 31 → acked_by (header_of s) (u32 i) → H i.
Proof.
  intros Ho [(n & Hn & Eu & Hu) Ha] Hi. unfold acked_by, header_of. cbn [h_una h_cmd h_sn].
  rewrite (of_stream_u8 _ _ _ _ Ho). intros [Hlt|[Hc Hs]].
  - rewrite Eu, u32_u32, itimediff_exact in Hlt by lia. apply Hu. lia.
  - destruct (Ha Hc) as (j & Hj & Ej & Hh). rewrite Ej, u32_u32 in Hs. by apply u32_inj_small in Hs as ->.
Qed.

(** Every datagram of a flush is a non-empty group of segments of the stream
    numbered so far, and acknowledges only what has arrived. *)
Lemma flush_of_stream f g U X N ps k a :
  kcp_inv f g U X N ps k → output k = true → updated k ≠ 0 → 0 ≤ cwnd k → 0 ≤ snd_wnd k → 0 ≤ U →
  0 ≤ N < 2 ^ 31 → Forall (λ p, arrived_sn (held N k) p.1) ps →
  ∃ k' X' groups, ikcp_flush (World k a) = Ok (dgram <$> groups, World k' a) ∧
    kcp_inv f g U X' N [] k' ∧ X ≤ X' ∧ cfg_view k' = cfg_view k ∧ rcv_view k' = rcv_view k ∧
    1 ≤ cwnd k' ∧ blocks k' = blocks k ∧
    X' + Z.of_nat (length (snd_queue k')) = X + Z.of_nat (length (snd_queue k)) ∧
    seg_sn <$> snd_buf k' = (seg_sn <$> snd_buf k) ++ (u32 <$> seqZ X (X' - X)) ∧
    Forall (λ segs, Forall (λ s, of_stream f (conv k) X' s ∧ truthful (held N k) s) segs ∧ segs ≠ [] ∧
                    Z.of_nat (length (dgram segs)) ≤ mtu k) groups.
Proof.
  intros Hinv Ho Hu Hc Hw HU HN Hps. pose proof (ki_queue _ _ _ _ _ _ _ Hinv) as Hq.
  pose proof (rs_nxt _ _ _ (ki_rcv _ _ _ _ _ _ _ Hinv)) as Hnxt.
  pose proof (sq_mss _ Hq). pose proof (sq_mtu _ Hq) as [_ Hmtu].
  destruct (flush_run f g U X N ps k a Hinv Ho Hu Hc Hw) as
    (k' & X' & groups & probes & data & Hrun & Hinv' & HX & _ & _ & Hcat & Hpr & Hd & Hgr & Hb & _ & Hcfg & Hrv & Hc' & Hl & Hsn).
  exists k', X', groups. split_and!; try done.
  assert (∀ s, seg_una s = rcv_nxt k → (seg_cmd s = IKCP_CMD_ACK → arrived_sn (held N k) (seg_sn s)) →
    truthful (held N k) s) as Htr.
  { intros s Es Hs. split; [|done]. exists N. split_and!; [lia|lia|congruence|]. intros i Hi. by left. }
  assert (Forall (λ s, of_stream f (conv k) X' s ∧ truthful (held N k) s) (concat groups)) as Hall.
  { rewrite Hcat, !Forall_app. split_and!.
    - apply Forall_fmap. eapply Forall_impl; [exact Hps|]. intros p Hp.
      split; [apply (control_of_stream _ _ _ k); [done..|by left]|by apply Htr].
    - eapply Forall_impl; [exact Hpr|]. intros s [Hs Hcmd].
      split; [apply (control_of_stream _ _ _ k); auto|]. apply Htr; [apply Hs|].
      intros E. rewrite E in Hcmd. by destruct Hcmd.
    - eapply Forall_impl; [exact Hd|]. intros s Hs.
      split; [apply (transmitted_of_stream _ U); done || lia|]. destruct Hs as (Hpu & Hun & _).
      apply Htr; [done|]. intros E. destruct Hpu as (_ & Hcmd & _). rewrite E in Hcmd. done. }
  rewrite Forall_forall in Hall. apply Forall_forall. intros segs Hin.
  rewrite Forall_forall in Hgr. destruct (Hgr segs Hin) as [Hne Hlen]. split_and!; [|done|lia].
  apply Forall_forall. intros s Hs. apply Hall. apply list_elem_of_In, in_concat.
  exists segs. by rewrite <- !list_elem_of_In.
Qed.

Section link.
Variables (f f2 : Z → Z * list Z) (X : Z).
(** Less than half the number space is used, so old duplicates cannot be
    mistaken for new segments. *)
Hypothesis HX : X < 2 ^ 31.

Lemma of_stream_genuine N k c s pl ps U2 X2 :
  kcp_inv f2 f U2 X2 N ps k → 0 ≤ N < 2 ^ 31 → of_stream f c X s → pl = seg_data s →
  genuine f N k (header_of s) pl.
Proof.
  intros Hinv HN (_ & Hlen & _ & Hor) -> Hcmd Hwin _.
  pose proof (ki_rcv _ _ _ _ _ _ _ Hinv) as Hr.
  unfold header_of in *. cbn [h_cmd h_sn h_frg] in *.
  destruct Hor as [[_ Hc]|(_ & Hf & i & Hi & Hsn & Hp)].
  { destruct Hc as [Hc|[Hc|Hc]]; rewrite Hc in Hcmd; vm_compute in Hcmd; done. }
  rewrite Hsn, u32_u32, (u32_small i) in * by lia.
  rewrite (rs_nxt _ _ _ Hr), (u32_small N) in * by lia. pose proof (rs_wnd _ _ _ Hr).
  unfold u8. rewrite (Z.mod_small (seg_frg s)) by lia. change (payload s = f (N + ahead N i)). rewrite Hp. f_equal.
  unfold ahead, u32 in *. destruct (decide (N ≤ i)).
  - rewrite Z.mod_small by lia. lia.
  - exfalso. assert ((i - N) mod 2 ^ 32 = i - N + 2 ^ 32) as E; [|lia].
    rewrite <- (Z.mod_small (i - N + 2 ^ 32) (2 ^ 32)) by lia.
    by rewrite <- (Z_mod_plus_full (i - N) 1), Z.mul_1_l.
Qed.

(** The stream ends at [X]: no segment numbers what was not sent. *)
Hypothesis Hend : ∀ i, X ≤ i → (f i).1 < 0.

Lemma received_sent N k ps U2 X2 :
  kcp_inv f2 f U2 X2 N ps k → rcv_queue k ≠ [] → N ≤ X.
Proof.
  intros [_ _ Hr _ _] Hne. destruct (decide (N ≤ X)) as [|Hgt]; [done|exfalso].
  destruct (exists_last Hne) as (q & s & Hq). pose proof (rs_queue _ _ _ Hr) as Hp.
  pose proof (rs_queue_ok _ _ _ Hr) as Hok. rewrite Hq in Hp, Hok.
  apply Forall_app in Hok as [_ Hok]. apply Forall_singleton in Hok as (_ & Hfrg & _).
  apply (f_equal (λ l, l !! length q)) in Hp.
  rewrite !list_lookup_fmap, lookup_app_r, Nat.sub_diag, length_app in Hp by done.
  rewrite lookup_seqZ_lt in Hp by (simpl; lia). cbn in Hp. injection Hp as Hp.
  specialize (Hend (N - 1) ltac:(lia)). replace (N - _ + _) with (N - 1) in Hp by (simpl; lia).
  rewrite <- Hp in Hend. simpl in Hend. lia.
Qed.

Lemma dgram_cons s segs : dgram (s :: segs) = ikcp_encode_seg s ++ take (Z.to_nat (seg_len s)) (seg_data s) ++ dgram segs.
Proof. change (s :: segs) with ([s] ++ segs). rewrite dgram_app, dgram_one. unfold wire. by rewrite app_assoc. Qed.

Lemma of_stream_cmd c s : of_stream f c X s →
  (negb (u8 (seg_cmd s) =? IKCP_CMD_PUSH) && negb (u8 (seg_cmd s) =? IKCP_CMD_ACK) &&
   negb (u8 (seg_cmd s) =? IKCP_CMD_WASK) && negb (u8 (seg_cmd s) =? IKCP_CMD_WINS)) = false.
Proof. intros (_ & _ & _ & [[_ [-> | [-> | ->]]] | [-> _]]); done. Qed.

(** What the other end has received. *)
Variable H : Z → Prop.

(** Numbers the other end may truthfully acknowledge. *)
Definition tellable (sn : Z) : Prop := ∀ i, 0 ≤ i < 2 ^ 31 → sn = u32 i → H i.

(** The acknowledgements recorded while a segment of the stream is read are of
    what has arrived. *)
Lemma recorded_arrived c s N N' k k' ps ps' :
  of_stream f c X s → 0 ≤ N < 2 ^ 31 → (∀ i, held N k i → held N' k' i) →
  recorded (header_of s) ps N N' k' ps' →
  Forall (λ p, arrived_sn (held N k) p.1) ps → Forall (λ p, arrived_sn (held N' k') p.1) ps'.
Proof.
  intros Ho HN Hmono Hrec Hps.
  assert (Forall (λ p, arrived_sn (held N' k') p.1) ps) as Hps'.
  { eapply Forall_impl; [exact Hps|]. intros p. by apply arrived_sn_mono. }
  destruct Hrec as [->|(-> & Hcmd & i & Hi & Ei & Hr)]; [done|]. apply Forall_app. split; [done|].
  apply Forall_singleton. cbn [fst]. destruct Ho as (_ & _ & _ & [[_ Hc]|(_ & _ & j & Hj & Ej & _)]).
  { unfold header_of in Hcmd. cbn [h_cmd] in Hcmd. destruct Hc as [Hc|[Hc|Hc]]; rewrite Hc in Hcmd; done. }
  unfold header_of in *. cbn [h_sn] in *. rewrite Ej, u32_u32 in *. exists j. split_and!; [lia|lia|done|].
  assert (i = j) as <-; [|done]. rewrite (u32_small j) in Ei by lia. unfold u32 in Ei.
  pose proof (Z.div_mod i (2 ^ 32)). lia.
Qed.

(** The loop of [ikcp_input] over a genuine datagram. *)
Lemma link_loop fuel segs acc k a U2 X2 N ps :
  kcp_inv f2 f U2 X2 N ps k → al_total a → 0 ≤ conv k < 2 ^ 32 → 0 ≤ N ≤ X →
  Forall (λ s, of_stream f (conv k) X s ∧ truthful H s) segs → (length segs < fuel)%nat →
  Z.of_nat (length ps + length segs) < 2 ^ 31 → Forall (λ p, arrived_sn (held N k) p.1) ps →
  ∃ acc' k' a' U2' N' ps', input_loop fuel (dgram segs) acc (World k a) = Ok (inr acc', World k' a') ∧
    kcp_inv f2 f U2' X2 N' ps' k' ∧ al_total a' ∧ U2 ≤ U2' ∧ N ≤ N' ≤ X ∧ conv k' = conv k ∧
    (length ps' ≤ length ps + length segs)%nat ∧ advanced N k N' k' ∧
    Forall (λ p, arrived_sn (held N' k') p.1) ps' ∧ releases tellable k k' ∧
    al_live a' - blocks k' = al_live a - blocks k ∧ static_view k' = static_view k ∧ (0 ≤ cwnd k → 0 ≤ cwnd k').
Proof.
  revert fuel acc k a U2 N ps. induction segs as [|s segs IH]; intros fuel acc k a U2 N ps Hinv Ha Hc HN Hs Hf Hps Harr;
    (destruct fuel as [|fuel]; [simpl in Hf; lia|]).
  { exists acc, k, a, U2, N, ps. cbn [input_loop]. split_and!; try done; try lia; by apply releases_same. }
  apply Forall_cons in Hs as [[Hs Htr] Hss]. cbn [length] in *. cbn [input_loop].
  rewrite dgram_cons, length_app, encode_seg_length, decode_encode_seg.
  pose proof Hs as (Hconv & Hlen & Hbig & _).
  destruct (_ <? IKCP_OVERHEAD) eqn:E1; b2p; [unfold IKCP_OVERHEAD in E1; lia|]. unfold get. run.
  change (h_conv (header_of s)) with (u32 (seg_conv s)). change (h_len (header_of s)) with (u32 (seg_len s)).
  change (h_cmd (header_of s)) with (u8 (seg_cmd s)).
  rewrite (u32_small (seg_len s)), Hconv, (u32_small (conv k)), Z.eqb_refl by lia. cbn [negb].
  rewrite (take_ge (seg_data s)) by lia.
  destruct ((_ <? seg_len s) || _) eqn:E2.
  { rewrite length_app in E2. apply orb_true_iff in E2 as [E2|E2]; b2p; [lia|]. rewrite i32_small in E2; lia. }
  rewrite (of_stream_cmd _ _ Hs).
  rewrite take_app_length', drop_app_length' by lia. run.
  destruct (input_segment_run f2 f U2 X2 N ps k a (header_of s) (seg_data s) acc) as
    (acc1 & k1 & a1 & U1 & N1 & ps1 & -> & Hinv1 & _ & HU1 & HN1 & Hne1 & Hps1 & Hl1 & Ha1 & [Hc1 Hw1] & _ & Hm1 & Hrec1 & Hrel1).
  { done. } { done. } { apply header_of_ok. }
  { change (h_len (header_of s)) with (u32 (seg_len s)). rewrite u32_small; lia. }
  { change (h_len (header_of s)) with (u32 (seg_len s)). rewrite u32_small; lia. }
  { lia. } { eapply of_stream_genuine; [done|lia|done|done]. }
  run. assert (conv k1 = conv k) as Hck by (injection (f_equal fst Hc1) as E _ _ _ _ _ _ _ _ _ _ _ _ _ _; done).
  assert (N1 ≤ X) as HNX.
  { destruct (decide (N1 = N)); [lia|]. eapply received_sent; [done|]. apply Hne1. lia. }
  assert (Forall (λ p, arrived_sn (held N1 k1) p.1) ps1) as Harr1
    by (eapply (recorded_arrived _ s N N1 k k1 ps); try done; [lia|apply Hm1]).
  destruct (IH fuel acc1 k1 a1 U1 N1 ps1) as
    (acc' & k' & a' & U' & N' & ps' & -> & Hinv' & Ha' & HU' & HN' & Hc' & Hps' & Hm' & Harr' & Hrel' & Hl' & Hst' & Hw');
    rewrite ?Hck; try done; try lia.
  exists acc', k', a', U', N', ps'. split_and!; try done; try lia; [by eapply advanced_trans| |congruence].
  eapply releases_trans; [exact Hrel1|exact Hrel'| |done]. intros sn Hsn i Hi ->. by eapply acked_arrived.
Qed.

(** The part of [ikcp_input] after the loop keeps the receive half and the
    invariant. *)
Lemma input_tail U2 X2 N ps k acc prev :
  kcp_inv f2 f U2 X2 N ps k →
  let k2 := if flag acc then ikcp_parse_fastack k (maxack acc) (latest_ts acc) else k in
  let k3 := if 0 <? _itimediff (snd_una k2) prev then grow_cwnd k2 else k2 in
  kcp_inv f2 f U2 X2 N ps k3 ∧ rcv_view k3 = rcv_view k ∧ releases (λ _, False) k k3 ∧
  blocks k3 = blocks k ∧ static_view k3 = static_view k ∧ (0 ≤ cwnd k → 0 ≤ cwnd k3).
Proof.
  intros Hinv k2 k3.
  assert (snd_state f2 U2 X2 k2 ∧ k2 = k <| snd_buf := snd_buf k2 |> ∧ releases (λ _, False) k k2 ∧
    length (snd_buf k2) = length (snd_buf k)) as (Hs2 & Hf2 & Hrel & Hlen).
  { unfold k2. destruct (flag acc); [|split_and!; [apply Hinv|by destruct k|by apply releases_same|done]].
    destruct (parse_fastack_run f2 U2 X2 k (maxack acc) (latest_ts acc)) as (? & _ & ? & ?); [apply Hinv|].
    split_and!; [done|done|apply fastack_releases|done]. }
  assert (∃ x y, k3 = k2 <| cwnd := x |> <| incr := y |> ∧ (0 ≤ cwnd k → 0 ≤ x)) as (x & y & Hk3 & Hx).
  { unfold k3. destruct (0 <? _).
    - destruct (grow_cwnd_frame k2) as (x & y & E & Hx). exists x, y. split; [done|].
      rewrite Hf2 in Hx. intros ?. apply Hx; [done|apply (ki_rmt _ _ _ _ _ _ _ Hinv)].
    - exists (cwnd k2), (incr k2). split; [by destruct k2|]. by rewrite Hf2. }
  clearbody k3 k2. subst k3. destruct Hinv as [Q1 Q2 Q3 Q4 Q5].
  split_and!; [|rewrite Hf2; done|done|rewrite Hf2; unfold blocks; kred; by rewrite Hlen|rewrite Hf2; done|done].
  constructor; [eapply snd_queue_ok_ext; [|exact Q1]|by eapply snd_state_ext; [|exact Hs2]
    |eapply rcv_state_ext; [|exact Q3]|eapply ack_rep_ext; [|exact Q4]|]; rewrite Hf2; done.
Qed.

Lemma link_input segs k a U2 X2 N ps :
  kcp_inv f2 f U2 X2 N ps k → al_total a → 0 ≤ conv k < 2 ^ 32 → 0 ≤ N ≤ X →
  Forall (λ s, of_stream f (conv k) X s ∧ truthful H s) segs → segs ≠ [] →
  Z.of_nat (length (dgram segs)) < 2 ^ 31 →
  Z.of_nat (length ps + length segs) < 2 ^ 31 → Forall (λ p, arrived_sn (held N k) p.1) ps →
  ∃ k' a' U2' N' ps', ikcp_input (dgram segs) (World k a) = Ok (0, World k' a') ∧
    kcp_inv f2 f U2' X2 N' ps' k' ∧ al_total a' ∧ U2 ≤ U2' ∧ N ≤ N' ≤ X ∧
    (length ps' ≤ length ps + length segs)%nat ∧ advanced N k N' k' ∧
    Forall (λ p, arrived_sn (held N' k') p.1) ps' ∧ releases tellable k k' ∧
    al_live a' - blocks k' = al_live a - blocks k ∧ static_view k' = static_view k ∧ (0 ≤ cwnd k → 0 ≤ cwnd k').
Proof.
  intros Hinv Ha Hc HN Hs Hne Hlen Hps Harr. unfold ikcp_input, get, put. run.
  assert (length segs < S (length (dgram segs)) ∧ 24 ≤ length (dgram segs))%nat as [Hf H24].
  { destruct segs as [|s segs]; [done|]. clear. split; [|rewrite dgram_cons, length_app, encode_seg_length; lia].
    induction (s :: segs) as [|t l IH]; [simpl; lia|].
    rewrite dgram_cons, !length_app, encode_seg_length. simpl. lia. }
  rewrite (i32_small (Z.of_nat _)) by lia.
  destruct (_ <? IKCP_OVERHEAD) eqn:E; b2p; [unfold IKCP_OVERHEAD in E; lia|]. clear E. run.
  set (k0 := k <| ackedlen := 0 |>).
  assert (kcp_inv f2 f U2 X2 N ps k0) as Hinv0 by (eapply kcp_inv_ext; [..|exact Hinv]; try done; apply Hinv).
  destruct (link_loop _ segs (Acks false 0 0) k0 a U2 X2 N ps Hinv0 Ha Hc HN Hs Hf Hps Harr)
    as (acc & k1 & a1 & U1 & N1 & ps1 & -> & Hinv1 & Ha1 & HU1 & HN1 & Hc1 & Hps1 & Hm1 & Harr1 & Hrel1 & Hl1 & Hst1 & Hw1). run.
  destruct (input_tail U1 X2 N1 ps1 k1 acc (snd_una k) Hinv1) as (Hinv3 & Hv3 & Hrel3 & Hb3 & Hst3 & Hw3).
  set (k3 := if 0 <? _ then _ else _) in *.
  assert (advanced N1 k1 N1 k3) as Hm3 by (apply advanced_ext; unfold rcv_view in Hv3; by injection Hv3).
  exists k3, a1, U1, N1, ps1. split; [reflexivity|]. split_and!; try done; try lia.
  - eapply advanced_trans; [|exact Hm3]. eapply advanced_trans; [|exact Hm1]. by apply advanced_ext.
  - eapply Forall_impl; [exact Harr1|]. intros p. apply arrived_sn_mono, Hm3.
  - by eapply releases_trans; [exact Hrel1|exact Hrel3|..].
  - rewrite Hb3. exact Hl1.
  - by rewrite Hst3, Hst1.
  - intros ?. by apply Hw3, Hw1.
Qed.
End link.
