(* ===== verification/IkcpSystem.v ===== *)
(** * KCP: two ends and the network between them

    Two control blocks of one conversation, each driven by any of the calls
    [act] lists, and a network that keeps every datagram ever sent and delivers
    any of them at any time: so datagrams may be lost, repeated and reordered.
    Both ends work in message mode with the default MTU, as the gateway and the
    clients do, which call neither [ikcp_setmtu] nor set [stream]. *)

From stdpp Require Import sorting.
From S2P Require Import Prelude CRuntime IkcpData Ikcp IkcpCodec IkcpRecv IkcpSend.
From S2P Require Import IkcpAck IkcpInput IkcpFlush IkcpTimer IkcpApi IkcpLink.

(** ** The system *)

(** One end: its control block and allocator, the messages [ikcp_send]
    accepted, the messages [ikcp_recv] returned, and the datagrams it handed
    to its output callback, each in order. *)
Record peer := Peer {
  p_world : world ikcpcb;
  p_sent : list (list Z);
  p_got : list (list Z);
  p_wire : list (list Z);
}.

Definition p_kcp (p : peer) : ikcpcb := w_eng (p_world p).

Inductive act :=
  | ASend (buf : list Z)
  | ARecv (len : Z)
  | AInput (n : nat)                 (* datagram [n] of the other end arrives *)
  | AUpdate (now : Z)
  | AFlush
  | ANodelay (nd i resend nc : Z)
  | AWndsize (snd rcv : Z)
  | AInterval (i : Z).

(** One call at [p], the other end being [q]. *)
Definition act_run (q p : peer) (c : act) : result peer :=
  match c with
  | ASend buf =>
      match ikcp_send buf (Z.of_nat (length buf)) (p_world p) with
      | Ok (r, w) => Ok (Peer w (if r <? 0 then p_sent p else p_sent p ++ [buf]) (p_got p) (p_wire p))
      | Err e => Err e
      end
  | ARecv len =>
      match ikcp_recv len (p_world p) with
      | Ok ((r, bs), w) => 
          (* a negative length only looks at the message *)
          Ok (Peer w (p_sent p) (if (len <? 0) || (r <? 0) then p_got p else p_got p ++ [bs]) (p_wire p))
      | Err e => Err e
      end
  | AInput n =>
      match p_wire q !! n with
      | None => Ok p
      | Some d =>
          match ikcp_input d (p_world p) with
          | Ok (_, w) => Ok (Peer w (p_sent p) (p_got p) (p_wire p))
          | Err e => Err e
          end
      end
  | AUpdate now =>
      match ikcp_update now (p_world p) with
      | Ok (ds, w) => Ok (Peer w (p_sent p) (p_got p) (p_wire p ++ ds))
      | Err e => Err e
      end
  | AFlush =>
      match ikcp_flush (p_world p) with
      | Ok (ds, w) => Ok (Peer w (p_sent p) (p_got p) (p_wire p ++ ds))
      | Err e => Err e
      end
  | ANodelay nd i rs nc =>
      match ikcp_nodelay nd i rs nc (p_world p) with
      | Ok (_, w) => Ok (Peer w (p_sent p) (p_got p) (p_wire p))
      | Err e => Err e
      end
  | AWndsize s r =>
      match ikcp_wndsize s r (p_world p) with
      | Ok (_, w) => Ok (Peer w (p_sent p) (p_got p) (p_wire p))
      | Err e => Err e
      end
  | AInterval i =>
      match ikcp_interval i (p_world p) with
      | Ok (_, w) => Ok (Peer w (p_sent p) (p_got p) (p_wire p))
      | Err e => Err e
      end
  end.

(** A step of the system: a call at the first end ([true]) or the second. *)
Definition sys_step (x : bool * act) (s : peer * peer) : result (peer * peer) :=
  let '(p, q) := s in
  if x.1 then match act_run q p x.2 with Ok p' => Ok (p', q) | Err e => Err e end
  else match act_run p q x.2 with Ok q' => Ok (p, q') | Err e => Err e end.

Fixpoint sys_run (l : list (bool * act)) (s : peer * peer) : result (peer * peer) :=
  match l with
  | [] => Ok s
  | x :: l' => match sys_step x s with Ok s' => sys_run l' s' | Err e => Err e end
  end.

(** A new end of conversation [c]. *)
Definition new_peer (c : Z) (a : alloc) : result peer :=
  match ikcp_create c (World tt a) with
  | Err e => Err e
  | Ok (None, _) => Err NullDeref
  | Ok (Some k, w) =>
      match ikcp_setoutput (World k (w_al w)) with
      | Ok (_, w') => Ok (Peer w' [] [] [])
      | Err e => Err e
      end
  end.

(** Both ends are created, then any calls are made. *)
Definition run_link (c : Z) (a1 a2 : alloc) (l : list (bool * act)) : result (peer * peer) :=
  match new_peer c a1, new_peer c a2 with
  | Ok p, Ok q => sys_run l (p, q)
  | Err e, _ | _, Err e => Err e
  end.

(** Arguments in the range of their C types. *)
Definition act_ok (c : act) : Prop :=
  match c with
  | ASend buf => Z.of_nat (length buf) < 2 ^ 31
  | ARecv len => - 2 ^ 31 < len < 2 ^ 31
  | AUpdate now => 0 ≤ now < 2 ^ 32
  | AWndsize s r => s < 2 ^ 31 ∧ r < 2 ^ 31
  | AInput _ | AFlush | ANodelay _ _ _ _ | AInterval _ => True
  end.

#[global] Instance act_ok_dec c : Decision (act_ok c).
Proof. destruct c; simpl; apply _. Defined.

(** Segments a call may add to the stream, or to the pending
    acknowledgements. *)
Definition act_cost (c : act) : Z :=
  match c with
  | ASend _ => 128
  | AInput _ => 64
  | _ => 0
  end.

Definition acts_cost (l : list (bool * act)) : Z := foldr (λ x n, act_cost x.2 + n) 0 l.

(** ** Messages as a stream of segments *)

Definition MSS : Z := u32 (IKCP_MTU_DEF - IKCP_OVERHEAD).

(** The segments of a message, and of a sequence of messages. *)
Definition frags (m : list Z) : list (Z * list Z) :=
  fragments true (Z.to_nat MSS) (Z.to_nat (frag_count MSS (Z.of_nat (length m)))) m.
Definition stream_of (ms : list (list Z)) : list (Z * list Z) := concat (frags <$> ms).

(** A finite stream; past its end there is no fragment number. *)
Definition at_ (S : list (Z * list Z)) (i : Z) : Z * list Z :=
  if i <? 0 then (-1, []) else default (-1, []) (S !! Z.to_nat i).

Notation zlen l := (Z.of_nat (length l)).

Lemma stream_of_app l1 l2 : stream_of (l1 ++ l2) = stream_of l1 ++ stream_of l2.
Proof. unfold stream_of. by rewrite fmap_app, concat_app. Qed.

Lemma frags_pos (m : list Z) : 1 ≤ frag_count MSS (zlen m) ∧ zlen m ≤ frag_count MSS (zlen m) * MSS.
Proof. apply frag_count_enough; [done|lia]. Qed.

Lemma frags_length m : zlen (frags m) = frag_count MSS (zlen m).
Proof. unfold frags. rewrite fragments_length. pose proof (frags_pos m). lia. Qed.

Lemma frags_concat m : concat (frags m).*2 = m.
Proof.
  apply fragments_concat. pose proof (frags_pos m). change (Z.to_nat MSS) with 1376%nat.
  change MSS with 1376 in *. lia.
Qed.

Lemma at_past S i : zlen S ≤ i → (at_ S i).1 < 0.
Proof.
  intros H. unfold at_. destruct (i <? 0); [done|]. rewrite lookup_ge_None_2 by lia. done.
Qed.

Lemma at_in S i : 0 ≤ (at_ S i).1 → 0 ≤ i < zlen S.
Proof.
  unfold at_. destruct (i <? 0) eqn:E; b2p; [simpl; lia|].
  destruct (S !! Z.to_nat i) eqn:L; [|simpl; lia]. apply lookup_lt_Some in L. lia.
Qed.

Lemma at_prefix S T i : 0 ≤ i < zlen S → at_ (S ++ T) i = at_ S i.
Proof.
  intros H. unfold at_. destruct (i <? 0) eqn:E; b2p; [lia|]. by rewrite lookup_app_l by lia.
Qed.

(** A stretch of the stream. *)
Lemma at_seq S R n :
  0 ≤ R → 0 ≤ n → R + n ≤ zlen S → at_ S <$> seqZ R n = take (Z.to_nat n) (drop (Z.to_nat R) S).
Proof.
  intros HR Hn Hle. apply list_eq. intros i. rewrite list_lookup_fmap.
  destruct (decide (Z.of_nat i < n)).
  - rewrite lookup_seqZ_lt, lookup_take_lt, lookup_drop by lia. cbn [fmap option_fmap option_map].
    unfold at_. destruct (_ <? 0) eqn:E; b2p; [lia|].
    replace (Z.to_nat (R + Z.of_nat i)) with (Z.to_nat R + i)%nat by lia.
    destruct (S !! _) eqn:L; [done|]. apply lookup_ge_None in L. lia.
  - rewrite lookup_seqZ_ge by lia. symmetry. apply lookup_ge_None. rewrite length_take. lia.
Qed.

(** ** Reassembly of a message *)

Lemma msg_len_frags q n m tail :
  (1 ≤ n)%nat → payload <$> q = fragments true (Z.to_nat MSS) n m ++ tail → msg_len q = n.
Proof.
  revert q m. induction n as [|n IH]; intros q m Hn Hq; [lia|].
  destruct q as [|s q]; [done|]. rewrite fmap_cons in Hq. cbn [fragments app] in Hq. injection Hq as Hf _ Hq.
  cbn [msg_len]. rewrite Hf. destruct n as [|n]; [done|].
  destruct (Z.of_nat (S n) =? 0) eqn:E; b2p; [lia|]. f_equal. by apply (IH q (drop (Z.to_nat MSS) m)); [lia|].
Qed.

Lemma bytes_of_prefix q a b : payload <$> q = a ++ b → bytes_of (take (length a) q) = concat a.*2.
Proof.
  intros H. rewrite bytes_of_payload, fmap_take, H, take_app_length. done.
Qed.

(** The next complete message of the queue is the next message of the
    stream. *)
Lemma next_message k theirs got N :
  rcv_state (at_ (stream_of theirs)) N k → got `prefix_of` theirs → N ≤ zlen (stream_of theirs) →
  N - zlen (rcv_queue k) = zlen (stream_of got) → rcv_queue k ≠ [] → 0 ≤ ikcp_peeksize k →
  got ++ [taken k] `prefix_of` theirs ∧
  zlen (stream_of (got ++ [taken k])) = zlen (stream_of got) + Z.of_nat (msg_len (rcv_queue k)).
Proof.
  intros Hr [rest ->] HN HR Hne Hp. rewrite stream_of_app, length_app in HN.
  pose proof (rs_queue _ _ _ Hr) as Hq. rewrite at_seq in Hq; [|lia|lia|rewrite stream_of_app, length_app; lia].
  rewrite HR, !Nat2Z.id, stream_of_app, drop_app_length in Hq.
  destruct (rcv_queue k) as [|s q] eqn:Eq; [done|].
  destruct rest as [|m rest]; [by cbn in Hq|].
  assert (∃ tail, payload <$> s :: q = frags m ++ tail) as [tail Ht].
  { change (stream_of (m :: rest)) with (frags m ++ stream_of rest) in Hq.
    enough (length (frags m) ≤ length (s :: q))%nat as Hle.
    { rewrite take_app_ge in Hq by done. by eexists. }
    pose proof (frags_length m) as Hfl. pose proof (frags_pos m).
    assert (seg_frg s = zlen (frags m) - 1) as Hfrg.
    { apply (f_equal (λ l, l !! 0%nat)) in Hq. rewrite lookup_take_lt in Hq by (simpl; lia).
      rewrite lookup_app_l in Hq by lia. rewrite list_lookup_fmap in Hq. cbn [lookup list_lookup] in Hq.
      symmetry in Hq. apply fragments_frg in Hq. cbn in Hq. rewrite Hq. lia. }
    unfold ikcp_peeksize in Hp. rewrite Eq in Hp.
    destruct (seg_frg s =? 0) eqn:E0; b2p; [cbn [length]; lia|].
    destruct (nrcv_que k <? _) eqn:E1; b2p; [lia|].
    pose proof (rs_nque _ _ _ Hr) as Hn. rewrite Eq in Hn.
    pose proof (rs_queue_ok _ _ _ Hr) as Hok. rewrite Eq in Hok. apply Forall_cons in Hok as [(_ & Hf8 & _) _].
    rewrite u32_small in E1 by lia. lia. }
  pose proof (frags_length m) as Hfl. pose proof (frags_pos m) as [Hpos _].
  assert (msg_len (s :: q) = length (frags m)) as Hml.
  { unfold frags in *. rewrite fragments_length. eapply msg_len_frags; [lia|exact Ht]. }
  assert (taken k = m) as ->.
  { unfold taken. rewrite Eq, Hml, (bytes_of_prefix _ _ _ Ht). apply frags_concat. }
  split; [exists rest; by rewrite <- app_assoc|].
  rewrite stream_of_app, length_app, Hml. unfold stream_of at 2. simpl. rewrite app_nil_r. lia.
Qed.

(** ** The invariant of one end *)

Definition cfg_ok (c : Z) (k : ikcpcb) : Prop :=
  conv k = c ∧ mtu k = IKCP_MTU_DEF ∧ stream k = 0 ∧ output k = true ∧ 0 ≤ cwnd k ∧ 0 ≤ snd_wnd k ∧
  10 ≤ interval k ≤ 5000 ∧ 0 ≤ ts_flush k < 2 ^ 32.

(** The datagrams on the wire, as groups of segments: of the stream numbered
    so far, and truthful about what has arrived. *)
Definition wire_ok (f : Z → Z * list Z) (c X : Z) (H : Z → Prop) (groups : list (list ikcpseg)) : Prop :=
  Forall (λ segs, Forall (λ s, of_stream f c X s ∧ truthful H s) segs ∧ segs ≠ [] ∧
                  zlen (dgram segs) ≤ IKCP_MTU_DEF) groups.

Lemma of_stream_mono f f' c X X' s :
  (∀ i, 0 ≤ i < X → f' i = f i) → X ≤ X' → of_stream f c X s → of_stream f' c X' s.
Proof.
  intros Hf HX (H1 & H2 & H3 & H4). split_and!; try done.
  destruct H4 as [?|(H5 & H6 & i & Hi & Hs & Hp)]; [by left|]. right. split_and!; try done; try lia.
  exists i. split_and!; [lia|lia|done|]. by rewrite Hf by lia.
Qed.

Lemma wire_ok_mono f f' c X X' (H H' : Z → Prop) groups :
  (∀ i, 0 ≤ i < X → f' i = f i) → X ≤ X' → (∀ i, H i → H' i) →
  wire_ok f c X H groups → wire_ok f' c X' H' groups.
Proof.
  intros Hf HX HH Hw. eapply Forall_impl; [exact Hw|]. intros segs (Hs & ? & ?). split_and!; try done.
  eapply Forall_impl; [exact Hs|]. intros s [Ho Ht]. split; [by eapply of_stream_mono|by eapply truthful_mono].
Qed.

Record end_inv (c base n : Z) (p : peer) (theirs : list (list Z)) (U : Z) (ps : list (Z * Z))
    (groups : list (list ikcpseg)) : Prop := {
  ei_kcp : kcp_inv (at_ (stream_of (p_sent p))) (at_ (stream_of theirs)) U
             (snd_nxt (p_kcp p)) (rcv_nxt (p_kcp p)) ps (p_kcp p);
  ei_una : 0 ≤ U;
  ei_mine : snd_nxt (p_kcp p) + zlen (snd_queue (p_kcp p)) = zlen (stream_of (p_sent p));
  ei_bound : zlen (stream_of (p_sent p)) ≤ n ∧ zlen ps ≤ n;
  ei_got : p_got p `prefix_of` theirs;
  ei_read : rcv_nxt (p_kcp p) - zlen (rcv_queue (p_kcp p)) = zlen (stream_of (p_got p));
  ei_nxt : rcv_nxt (p_kcp p) ≤ zlen (stream_of theirs);
  ei_acks : Forall (λ x, arrived_sn (held (rcv_nxt (p_kcp p)) (p_kcp p)) x.1) ps;
  ei_out : p_wire p = dgram <$> groups;
  ei_wire : wire_ok (at_ (stream_of (p_sent p))) c (snd_nxt (p_kcp p))
              (held (rcv_nxt (p_kcp p)) (p_kcp p)) groups;
  ei_cfg : cfg_ok c (p_kcp p);
  ei_al : al_total (w_al (p_world p));
  ei_own : owns base (p_world p);
}.

Definition end_ok c base n p theirs : Prop := ∃ U ps groups, end_inv c base n p theirs U ps groups.

(** Index [i] of the other end's stream has arrived at [p]. *)
Definition has (p : peer) (i : Z) : Prop := held (rcv_nxt (p_kcp p)) (p_kcp p) i.

(** Whatever [p] has numbered has arrived at [q] or is still in the send
    buffer. *)
Definition covered (p q : peer) : Prop :=
  ∀ i, 0 ≤ i < snd_nxt (p_kcp p) → has q i ∨ ∃ s, s ∈ snd_buf (p_kcp p) ∧ seg_sn s = u32 i.

(** ** What changes little keeps the invariant *)

Lemma stream_of_prefix l1 l2 : l1 `prefix_of` l2 → ∃ t, stream_of l2 = stream_of l1 ++ t.
Proof. intros [l ->]. rewrite stream_of_app. by eexists. Qed.

(** A received stream may be longer than what has arrived. *)
Lemma rcv_state_grow S T N k :
  rcv_state (at_ S) N k → zlen (rcv_queue k) ≤ N ≤ zlen S → rcv_state (at_ (S ++ T)) N k.
Proof.
  intros [H1 H2 H3 H4 H5 H6 H7 H8 H9] HN. constructor; try done.
  - rewrite H6. apply list_fmap_ext. intros i x [-> Hx]%lookup_seqZ. symmetry. apply at_prefix. lia.
  - eapply Forall_impl; [exact H8|]. intros s (Hok & Ha & Hp). split_and!; [done|done|].
    rewrite Hp. symmetry. apply at_prefix, at_in. rewrite <- Hp. apply Hok.
Qed.

Lemma end_theirs_grow c base n p theirs theirs' U ps gs :
  end_inv c base n p theirs U ps gs → theirs `prefix_of` theirs' → end_inv c base n p theirs' U ps gs.
Proof.
  intros [H1 H2 H3 H4 H5 H6 H7 H8 H9 H10 H11 H12 H13] Hp.
  destruct (stream_of_prefix _ _ Hp) as [t Et].
  constructor; try done; [|by etrans|rewrite Et, length_app; lia].
  eapply kcp_inv_stream; [|exact H1]. rewrite Et. apply rcv_state_grow; [apply H1|lia].
Qed.

Lemma end_more c base n n' p theirs U ps gs :
  n ≤ n' → end_inv c base n p theirs U ps gs → end_inv c base n' p theirs U ps gs.
Proof. intros Hn []. constructor; try done. lia. Qed.

(** The relation between an end before and after a call. *)
Record stepped (c base n : Z) (q p p' : peer) : Prop := {
  st_inv : end_ok c base n p' (p_sent q);
  st_sent : p_sent p `prefix_of` p_sent p';
  st_has : ∀ i, has p i → has p' i;
  st_cov : covered p' q;
}.

Lemma stepped_refl c base n q p : end_ok c base n p (p_sent q) → covered p q → stepped c base n q p p.
Proof. by constructor. Qed.

(** ** Sending *)

Lemma mss_def c base n p theirs U ps gs : end_inv c base n p theirs U ps gs → mss (p_kcp p) = MSS.
Proof.
  intros H. destruct (sq_mtu _ (ki_queue _ _ _ _ _ _ _ (ei_kcp _ _ _ _ _ _ _ _ H))) as [E _].
  destruct (ei_cfg _ _ _ _ _ _ _ _ H) as (_ & E' & _). rewrite E' in E.
  change IKCP_MTU_DEF with 1400 in E. change IKCP_OVERHEAD with 24 in E. change MSS with 1376. lia.
Qed.

(** A queue that holds the end of the stream, with another message. *)
Lemma queue_append S F X q segs :
  0 ≤ X → X + zlen q = zlen S → payload <$> q = at_ S <$> seqZ X (zlen q) → payload <$> segs = F →
  payload <$> q ++ segs = at_ (S ++ F) <$> seqZ X (zlen (q ++ segs)).
Proof.
  intros HX Hl Hq Hs. assert (length segs = length F) as Hsl by (rewrite <- Hs; by rewrite length_fmap).
  rewrite at_seq in Hq by lia. rewrite at_seq by (rewrite ?length_app; lia).
  rewrite fmap_app, Hq, Hs, !take_ge by (rewrite length_drop, ?length_app; lia).
  by rewrite drop_app_le by lia.
Qed.

Lemma send_end c base n q p buf :
  end_ok c base n p (p_sent q) → covered p q → zlen buf < 2 ^ 31 → n + 128 < 2 ^ 31 →
  ∃ p', act_run q p (ASend buf) = Ok p' ∧ stepped c base (n + 128) q p p'.
Proof.
  intros (U & ps & gs & Hend) Hcov Hb Hn. pose proof (mss_def _ _ _ _ _ _ _ _ Hend) as Hm.
  pose proof Hend as [Hk HU Hmine [Hb1 Hb2] Hgot Hread Hnxt Hacks Hout Hwire Hcfg Hal Hown].
  destruct p as [[k a] sent got wire]. unfold p_kcp in *. cbn [p_world w_eng w_al p_sent p_got p_wire] in *.
  pose proof Hk as [Q1 Q2 Q3 Q4 Q5]. pose proof (ss_nxt _ _ _ _ Q2) as Enxt. pose proof (u32_range (snd_nxt k)) as Hsn.
  pose proof Hcfg as (_ & _ & Hst & _).
  pose proof (send_message k a buf Q1 Hal Hst Hb ltac:(lia)) as Hrun. cbv zeta in Hrun. rewrite Hm in Hrun.
  cbn [act_run p_world]. destruct (frag_count MSS (zlen buf) <? IKCP_WND_RCV) eqn:Ef; b2p.
  2: { rewrite Hrun. eexists. split; [reflexivity|]. cbn. apply stepped_refl; [|done].
       exists U, ps, gs. eapply end_more; [|exact Hend]. lia. }
  destruct Hrun as (segs & a' & -> & Hp & Hok' & Ha' & Hl'). fold (frags buf) in Hp.
  eexists. split; [reflexivity|]. destruct (zlen buf <? 0) eqn:E0; b2p; [lia|].
  assert (stream_of (sent ++ [buf]) = stream_of sent ++ frags buf) as Es.
  { rewrite stream_of_app. unfold stream_of at 2. simpl. by rewrite app_nil_r. }
  pose proof (frags_length buf) as Hfl. unfold IKCP_WND_RCV in Ef.
  assert (zlen segs = zlen (frags buf)) as Hsl by (rewrite <- Hp; by rewrite length_fmap).
  assert (∀ i, 0 ≤ i < snd_nxt k → at_ (stream_of sent ++ frags buf) i = at_ (stream_of sent) i) as Hext
    by (intros i Hi; apply at_prefix; lia).
  constructor; cbn [p_sent]; [|by eexists|done|done].
  exists U, ps, gs. constructor; unfold p_kcp, with_queue; cbn [p_world w_eng w_al p_sent p_got p_wire]; kred;
    rewrite ?Es; try done.
  - constructor; [done| |by eapply rcv_state_ext; [|exact Q3]|done|done].
    destruct Q2 as [S1 S2 S3 S4 S5 S6 S7]. constructor; kred; try done.
    + eapply tracked_ext; [|exact S4]. intros i Hi. apply Hext. lia.
    + apply queue_append; done || lia.
  - rewrite !length_app. lia.
  - rewrite length_app. lia.
  - by eapply (wire_ok_mono (at_ (stream_of sent))).
  - unfold owns, blocks in *. cbn [w_eng w_al] in *. kred. rewrite length_app. lia.
Qed.

(** ** Receiving *)

(** Only the receive half changed. *)
Lemma kcp_inv_rcv f g U X N N' ps k k' pr :
  kcp_inv f g U X N ps k → rcv_frame (k <| probe := pr |>) k' → rcv_state g N' k' →
  kcp_inv f g U X N' ps k'.
Proof.
  intros [Q1 Q2 Q3 Q4 Q5] Hf Hr. destruct (snd_blocks_rcv _ _ Hf) as (V1 & V2 & V3 & _).
  kred_in V3. constructor; [| |done| |by rewrite V3].
  - eapply snd_queue_ok_ext; [|exact Q1]. unfold snd_view in V1. unfold queue_view.
    by injection V1 as _ _ _ _ -> -> -> -> _.
  - by eapply snd_state_ext; [|exact Q2].
  - by eapply ack_rep_ext; [|exact Q4].
Qed.

Lemma rcv_nxt_small k g N : rcv_state g N k → 0 ≤ N < 2 ^ 31 → rcv_nxt k = N.
Proof. intros H HN. rewrite (rs_nxt _ _ _ H). apply u32_small. lia. Qed.

(** The receive half moved on, and [got'] is what has been read. *)
Lemma received_end c base n q k a k' a' sent got got' wire U ps gs m :
  end_inv c base n (Peer (World k a) sent got wire) (p_sent q) U ps gs → covered (Peer (World k a) sent got wire) q →
  zlen (stream_of (p_sent q)) < 2 ^ 31 → rcv_state (at_ (stream_of (p_sent q))) (rcv_nxt k + m) k' → 0 ≤ m →
  rcv_frame (k <| probe := probe k' |>) k' → got' `prefix_of` p_sent q →
  rcv_nxt k + m - zlen (rcv_queue k') = zlen (stream_of got') →
  al_live a' - blocks k' = al_live a - blocks k → al_total a' → (∀ i, held (rcv_nxt k) k i → held (rcv_nxt k + m) k' i) →
  stepped c base n q (Peer (World k a) sent got wire) (Peer (World k' a') sent got' wire).
Proof.
  intros Hend Hcov Hn Hr' Hm Hf Hpre Hrd Hl Ha' Hheld.
  pose proof Hend as [Hk HU Hmine [Hb1 Hb2] Hgot Hread Hnxt Hacks Hout Hwire Hcfg Hal Hown].
  unfold p_kcp in *. cbn [p_world w_eng w_al p_sent p_got p_wire] in *.
  pose proof (ki_rcv _ _ _ _ _ _ _ Hk) as Hr.
  destruct (snd_blocks_rcv _ _ Hf) as (V1 & V2 & V3 & [V4 V5] & V6 & V7).
  unfold snd_view in V1. injection V1 as S1 S2 S3 S4 S5 S6 S7 S8 S9. kred_in S2. kred_in S3. kred_in S7.
  pose proof (f_equal fst V4 : cfg_view k' = cfg_view _) as Vc. kred_in V5.
  unfold cfg_view in Vc. kred_in Vc.
  injection Vc as C1 C2 C3 C4 C5 C6 C7 C8 C9 C10 C11 C12 C13 C14 C15.
  pose proof (kcp_inv_rcv _ _ _ _ _ _ _ _ _ _ Hk Hf Hr') as Hk'.
  assert (rcv_nxt k + m ≤ zlen (stream_of (p_sent q))) as HN'.
  { destruct (rcv_queue k') eqn:E.
    - destruct (stream_of_prefix _ _ Hpre) as [t Et]. rewrite Et, length_app. cbn [length] in Hrd. lia.
    - eapply (received_sent _ _ _ (at_past _)); [exact Hk'|]. by rewrite E. }
  assert (0 ≤ rcv_nxt k) by (rewrite (rs_nxt _ _ _ Hr); apply u32_range).
  pose proof (rcv_nxt_small _ _ _ Hr' ltac:(lia)) as En'. rewrite <- En' in Hr', Hk', Hheld, HN', Hrd.
  constructor; unfold has, covered, p_kcp; cbn [p_sent p_world w_eng]; [|done|done|].
  2: { rewrite S2, S3. exact Hcov. }
  exists U, ps, gs. constructor; unfold p_kcp; cbn [p_world w_eng w_al p_sent p_got p_wire];
    rewrite ?S2, ?S7, ?S3; try done; try lia.
  - by eapply Forall_impl; [exact Hacks|]; intros x; apply arrived_sn_mono.
  - by eapply wire_ok_mono; [..|exact Hwire].
  - unfold cfg_ok. rewrite C1, C4, C12, C15, C2, C6, C13, V5. exact Hcfg.
  - unfold owns in *. cbn [w_eng w_al] in *. lia.
Qed.

Lemma recv_end c base n q p len :
  end_ok c base n p (p_sent q) → covered p q → len < 2 ^ 31 → zlen (stream_of (p_sent q)) < 2 ^ 31 →
  ∃ p', act_run q p (ARecv len) = Ok p' ∧ stepped c base n q p p'.
Proof.
  intros (U & ps & gs & Hend) Hcov Hlen Hn.
  destruct p as [[k a] sent got wire]. pose proof Hend as [Hk _ _ _ Hgot Hread Hnxt _ _ _ _ Hal _].
  unfold p_kcp in *. cbn [p_world w_eng w_al p_sent p_got p_wire] in *.
  pose proof (ki_rcv _ _ _ _ _ _ _ Hk) as Hr. cbn [act_run p_world].
  destruct (len <? 0) eqn:El; b2p.
  { destruct (recv_peek _ _ k a len Hr El) as ([r bs] & k' & m & -> & Hr' & Hm & Hf & Hb & _ & Hrd & Hheld).
    eexists. split; [reflexivity|]. cbn [orb p_got]. eapply received_end; try done; lia. }
  assert (∃ p', Ok (Peer (World k a) sent got wire) = Ok p' ∧
    stepped c base n q (Peer (World k a) sent got wire) p') as Hsame.
  { eexists. split; [reflexivity|]. apply stepped_refl; [|done]. by exists U, ps, gs. }
  pose proof (recv_run _ _ k a len Hr ltac:(lia)) as Hrun.
  destruct (rcv_queue k) as [|s0 q0] eqn:Eq; [rewrite Hrun; exact Hsame|].
  destruct (ikcp_peeksize k <? 0) eqn:Ep; b2p; [rewrite Hrun; exact Hsame|].
  destruct (len <? ikcp_peeksize k); [rewrite Hrun; exact Hsame|]. clear Hsame. rewrite <- Eq in *.
  destruct Hrun as (k' & a' & m & -> & Hpk & Hr' & _ & Hm & Hf & Hrd & Hl & Ha' & Hheld).
  destruct (next_message k (p_sent q) got (rcv_nxt k) Hr Hgot Hnxt Hread) as [Hpre Hms]; [by rewrite Eq|done|].
  destruct (ikcp_peeksize k <? 0) eqn:E1; b2p; [lia|]. cbn [orb p_got].
  eexists. split; [reflexivity|]. eapply received_end; try done; try lia. by apply Ha'.
Qed.

(** ** Arrivals *)

Lemma dgram_segments segs : 24 * zlen segs ≤ zlen (dgram segs).
Proof.
  induction segs as [|s segs IH]; [done|]. rewrite dgram_cons, !length_app, encode_seg_length.
  cbn [length]. lia.
Qed.

(** What an acknowledgement releases has arrived at the other end, so the two
    ends still cover the stream. *)
Lemma covered_released p p' q :
  snd_nxt (p_kcp p') = snd_nxt (p_kcp p) → snd_nxt (p_kcp p) ≤ 2 ^ 31 →
  releases (tellable (has q)) (p_kcp p) (p_kcp p') → covered p q → covered p' q.
Proof.
  intros E Hn Hrel Hcov i Hi. rewrite E in Hi. destruct (Hcov i Hi) as [?|(s & Hs & Es)]; [by left|].
  destruct (Hrel s Hs) as [Ht|(t & Ht & Et)]; [left; apply Ht; [lia|done]|].
  right. exists t. split; [done|congruence].
Qed.

Lemma input_end c base base' n q p m :
  end_ok c base n p (p_sent q) → end_ok c base' n q (p_sent p) → covered p q → 0 ≤ c < 2 ^ 32 →
  n + 64 < 2 ^ 31 → ∃ p', act_run q p (AInput m) = Ok p' ∧ stepped c base (n + 64) q p p'.
Proof.
  intros (U & ps & gs & Hend) (U2 & ps2 & gs2 & Hend2) Hcov Hc Hn.
  assert (stepped c base (n + 64) q p p) as Hsame.
  { apply stepped_refl; [|done]. exists U, ps, gs. eapply end_more; [|exact Hend]. lia. }
  cbn [act_run]. rewrite (ei_out _ _ _ _ _ _ _ _ Hend2), list_lookup_fmap.
  destruct (gs2 !! m) as [segs|] eqn:Em; [|by eexists]. cbn [fmap option_fmap option_map].
  pose proof (ei_wire _ _ _ _ _ _ _ _ Hend2) as Hw. unfold wire_ok in Hw. rewrite Forall_lookup in Hw.
  destruct (Hw m segs Em) as (Hsegs & Hne & Hlen). clear Hw Hsame. change IKCP_MTU_DEF with 1400 in Hlen.
  pose proof (dgram_segments segs) as Hsl.
  pose proof (ei_bound _ _ _ _ _ _ _ _ Hend2) as [Hb3 _]. pose proof (ei_mine _ _ _ _ _ _ _ _ Hend2) as Hm2.
  pose proof Hend as [Hk HU Hmine [Hb1 Hb2] Hgot Hread Hnxt Hacks Hout Hwire Hcfg Hal Hown].
  destruct p as [[k a] sent got wire]. unfold p_kcp in Hk, Hmine, Hread, Hnxt, Hacks, Hwire, Hcfg.
  cbn [p_world w_eng w_al p_sent p_got p_wire] in *.
  pose proof (ki_rcv _ _ _ _ _ _ _ Hk) as Hr. pose proof Hcfg as (Hconv & _).
  assert (0 ≤ rcv_nxt k) by (rewrite (rs_nxt _ _ _ Hr); apply u32_range).
  destruct (link_input (at_ (stream_of (p_sent q))) (at_ (stream_of sent)) (zlen (stream_of (p_sent q))) ltac:(lia)
    (at_past _) (has q) segs k a U (snd_nxt k) (rcv_nxt k) ps) as
    (k' & a' & U' & N' & ps' & Hrun & Hk' & Ha' & HU' & HN' & Hps' & Hadv & Hacks' & Hrel & Hl & V & Hcw); try done; try lia.
  { rewrite Hconv. eapply Forall_impl; [exact Hsegs|]. intros s [Ho Ht]. split; [|done].
    eapply of_stream_mono; [done| |exact Ho]. lia. }
  rewrite Hrun.
  pose proof (f_equal snd V : snd_queue k' = snd_queue k) as Eq. pose proof (f_equal fst V : cfg_view k' = cfg_view k) as Vc.
  unfold cfg_view in Vc. injection Vc as C1 C2 C3 C4 C5 C6 C7 C8 C9 C10 C11 C12 C13 C14 C15.
  pose proof (rcv_nxt_small _ _ _ (ki_rcv _ _ _ _ _ _ _ Hk') ltac:(lia)) as En. rewrite <- En in Hk', HN', Hadv, Hacks'.
  assert (snd_nxt k' = snd_nxt k) as Esn.
  { rewrite (ss_nxt _ _ _ _ (ki_snd _ _ _ _ _ _ _ Hk')). symmetry. apply (ss_nxt _ _ _ _ (ki_snd _ _ _ _ _ _ _ Hk)). }
  eexists. split; [reflexivity|]. constructor; cbn [p_sent]; [|done|apply Hadv|].
  2: { eapply (covered_released (Peer (World k a) sent got wire)); [| |exact Hrel|exact Hcov]; unfold p_kcp; cbn [p_world w_eng]; [done|lia]. }
  exists U', ps', gs. constructor; unfold p_kcp; cbn [p_world w_eng w_al p_sent p_got p_wire];
    rewrite ?Esn, ?Eq; try done; try lia.
  - pose proof (adv_read _ _ _ _ Hadv). lia.
  - eapply wire_ok_mono; [..|exact Hwire]; [done|done|apply Hadv].
  - unfold cfg_ok. rewrite C1, C4, C12, C15, C2, C6, C13. destruct Hcfg as (? & ? & ? & ? & ? & ? & ? & ?).
    split_and!; try done; lia.
  - unfold owns in *. cbn [w_eng w_al] in *. lia.
Qed.

(** ** Settings and timers *)

(** A change of settings keeps the invariant. *)
Lemma settings_end c base n q k k' a sent got wire :
  snd_view k' = snd_view k → ack_view k' = ack_view k → rmt_wnd k' = rmt_wnd k →
  rcv_view (k' <| rcv_wnd := rcv_wnd k |>) = rcv_view k → 1 ≤ rcv_wnd k' < 2 ^ 31 → cfg_ok c k' →
  end_ok c base n (Peer (World k a) sent got wire) (p_sent q) → covered (Peer (World k a) sent got wire) q →
  stepped c base n q (Peer (World k a) sent got wire) (Peer (World k' a) sent got wire).
Proof.
  intros E1 E2 E3 E6 Hrw Hcfg' (U & ps & gs & Hend) Hcov.
  pose proof Hend as [Hk HU Hmine Hb Hgot Hread Hnxt Hacks Hout Hwire Hcfg Hal Hown].
  unfold p_kcp in *. cbn [p_world w_eng w_al p_sent p_got p_wire] in *.
  injection E6 as F1 F2 F3 F4 F5. injection E1 as G1 G2 G3 G4 G5 G6 G7 G8 G9. injection E2 as J1 J2 J3.
  assert (∀ i, held (rcv_nxt k) k i → held (rcv_nxt k) k' i) as Hheld by (intros i; by apply held_ext).
  constructor; unfold has, covered, p_kcp; cbn [p_sent p_world w_eng]; [|done|by rewrite F1|].
  2: { rewrite G2, G3. exact Hcov. }
  exists U, ps, gs. constructor; unfold p_kcp; cbn [p_world w_eng w_al p_sent p_got p_wire];
    rewrite ?F1, ?G2, ?G7, ?F2; try done.
  - destruct Hk as [Q1 Q2 Q3 Q4 Q5]. constructor; [| | | |by rewrite E3].
    + eapply snd_queue_ok_ext; [|exact Q1]. unfold queue_view. congruence.
    + eapply snd_state_ext; [|exact Q2]. unfold snd_view. congruence.
    + destruct Q3 as [R1 R2 R3 R4 R5 R6 R7 R8 R9].
      constructor; rewrite ?F1, ?F2, ?F3, ?F4, ?F5; try done. unfold buffered. by rewrite F1.
    + eapply ack_rep_ext; [|exact Q4]. unfold ack_view. congruence.
  - eapply Forall_impl; [exact Hacks|]. intros x. by apply arrived_sn_mono.
  - by eapply wire_ok_mono; [..|exact Hwire].
  - unfold owns, blocks in *. cbn [w_eng w_al] in *. rewrite J1, G7, F2, G3, F4. lia.
Qed.

Lemma nodelay_end c base n q p nd i rs nc :
  end_ok c base n p (p_sent q) → covered p q →
  ∃ p', act_run q p (ANodelay nd i rs nc) = Ok p' ∧ stepped c base n q p p'.
Proof.
  intros Hend Hcov. destruct p as [[k a] sent got wire]. cbn [act_run p_world].
  unfold ikcp_nodelay, get, put. run. eexists. split; [reflexivity|].
  pose proof Hend as (U & ps & gs & Hinv). pose proof (ei_cfg _ _ _ _ _ _ _ _ Hinv) as Hcfg.
  pose proof (rs_wnd _ _ _ (ki_rcv _ _ _ _ _ _ _ (ei_kcp _ _ _ _ _ _ _ _ Hinv))) as Hrw.
  unfold p_kcp, cfg_ok in Hcfg, Hrw. cbn [p_world w_eng] in Hcfg, Hrw. pose proof (clamp_interval_range i).
  apply settings_end; [..|done|done]; unfold cfg_ok;
    destruct (0 <=? nd), (0 <=? i), (0 <=? rs), (0 <=? nc); kred; try done; intuition lia.
Qed.

Lemma interval_end c base n q p i :
  end_ok c base n p (p_sent q) → covered p q →
  ∃ p', act_run q p (AInterval i) = Ok p' ∧ stepped c base n q p p'.
Proof.
  intros Hend Hcov. destruct p as [[k a] sent got wire]. cbn [act_run p_world].
  unfold ikcp_interval, get, put. run. eexists. split; [reflexivity|].
  pose proof Hend as (U & ps & gs & Hinv). pose proof (ei_cfg _ _ _ _ _ _ _ _ Hinv) as Hcfg.
  pose proof (rs_wnd _ _ _ (ki_rcv _ _ _ _ _ _ _ (ei_kcp _ _ _ _ _ _ _ _ Hinv))) as Hrw.
  unfold p_kcp, cfg_ok in Hcfg, Hrw. cbn [p_world w_eng] in Hcfg, Hrw. pose proof (clamp_interval_range i).
  apply settings_end; [..|done|done]; unfold cfg_ok; kred; try done; intuition lia.
Qed.

Lemma wndsize_end c base n q p s r :
  end_ok c base n p (p_sent q) → covered p q → s < 2 ^ 31 ∧ r < 2 ^ 31 →
  ∃ p', act_run q p (AWndsize s r) = Ok p' ∧ stepped c base n q p p'.
Proof.
  intros Hend Hcov Hsr. destruct p as [[k a] sent got wire]. cbn [act_run p_world].
  unfold ikcp_wndsize, get, put. run. eexists. split; [reflexivity|].
  pose proof Hend as (U & ps & gs & Hinv). pose proof (ei_cfg _ _ _ _ _ _ _ _ Hinv) as Hcfg.
  pose proof (rs_wnd _ _ _ (ki_rcv _ _ _ _ _ _ _ (ei_kcp _ _ _ _ _ _ _ _ Hinv))) as Hrw.
  unfold p_kcp, cfg_ok in Hcfg, Hrw. cbn [p_world w_eng] in Hcfg, Hrw.
  unfold _imax_, IKCP_WND_RCV.
  apply settings_end; [..|done|done]; unfold cfg_ok;
    destruct (0 <? s) eqn:E1, (0 <? r) eqn:E2; b2p; kred; try done; try (intuition lia);
    destruct (_ <=? r) eqn:E3; b2p; lia.
Qed.

(** ** Flushing *)

(** Everything a flush numbers is in the send buffer afterwards. *)
Lemma flush_covered (H : Z → Prop) X X' (buf buf' : list ikcpseg) :
  seg_sn <$> buf' = (seg_sn <$> buf) ++ (u32 <$> seqZ X (X' - X)) →
  (∀ i, 0 ≤ i < X → H i ∨ ∃ s, s ∈ buf ∧ seg_sn s = u32 i) →
  ∀ i, 0 ≤ i < X' → H i ∨ ∃ s, s ∈ buf' ∧ seg_sn s = u32 i.
Proof.
  intros Hsn Hcov i Hi. assert (∀ x, x ∈ seg_sn <$> buf' → x = u32 i → ∃ s, s ∈ buf' ∧ seg_sn s = u32 i) as Hf.
  { intros x (s & -> & Hs)%list_elem_of_fmap Ex. by exists s. }
  destruct (decide (i < X)).
  - destruct (Hcov i ltac:(lia)) as [?|(s & Hs & Es)]; [by left|]. right. apply (Hf (seg_sn s)); [|done].
    rewrite Hsn. apply elem_of_app. left. by apply list_elem_of_fmap_2.
  - right. apply (Hf (u32 i)); [|done]. rewrite Hsn. apply elem_of_app. right.
    apply list_elem_of_fmap_2, elem_of_seqZ. lia.
Qed.

Lemma flush_end c base n q p :
  end_ok c base n p (p_sent q) → covered p q → n < 2 ^ 31 → zlen (stream_of (p_sent q)) < 2 ^ 31 →
  ∃ ds w, ikcp_flush (p_world p) = Ok (ds, w) ∧
    stepped c base n q p (Peer w (p_sent p) (p_got p) (p_wire p ++ ds)).
Proof.
  intros (U & ps & gs & Hend) Hcov Hn Hq31.
  pose proof Hend as [Hk HU Hmine [Hb1 Hb2] Hgot Hread Hnxt Hacks Hout Hwire Hcfg Hal Hown].
  destruct p as [[k a] sent got wire]. unfold p_kcp in Hk, Hmine, Hread, Hnxt, Hacks, Hwire, Hcfg.
  cbn [p_world w_eng w_al p_sent p_got p_wire] in *.
  destruct (decide (updated k = 0)) as [Hu|Hu].
  { exists [], (World k a). split; [unfold ikcp_flush, get; run; by rewrite Hu|].
    rewrite app_nil_r. apply stepped_refl; [|done]. by exists U, ps, gs. }
  pose proof (ki_rcv _ _ _ _ _ _ _ Hk) as Hr.
  assert (0 ≤ rcv_nxt k) by (rewrite (rs_nxt _ _ _ Hr); apply u32_range).
  pose proof Hcfg as (Hconv & Hmtu & _ & Ho & Hc & Hw & _).
  destruct (flush_of_stream _ _ U (snd_nxt k) (rcv_nxt k) ps k a Hk Ho Hu Hc Hw HU ltac:(lia) Hacks) as
    (k' & X' & groups & -> & Hk' & HX & Vc & Vr & Hcw & Hbl & Hlen & Hsn & Hgr).
  unfold cfg_view in Vc. injection Vc as C1 C2 C3 C4 C5 C6 C7 C8 C9 C10 C11 C12 C13 C14 C15.
  unfold rcv_view in Vr. injection Vr as R1 R2 R3 R4 R5 R6.
  assert (0 ≤ snd_nxt k) by (rewrite (ss_nxt _ _ _ _ (ki_snd _ _ _ _ _ _ _ Hk)); apply u32_range).
  assert (snd_nxt k' = X') as EX.
  { rewrite (ss_nxt _ _ _ _ (ki_snd _ _ _ _ _ _ _ Hk')). apply u32_small. lia. }
  assert (∀ i, held (rcv_nxt k) k i → held (rcv_nxt k) k' i) as Hheld by (intros i; by apply held_ext).
  eexists _, _. split; [reflexivity|].
  constructor; unfold has, covered, p_kcp; cbn [p_sent p_world w_eng]; [|done|by rewrite R1|].
  2: { rewrite EX. by eapply flush_covered. }
  exists U, [], (gs ++ groups). constructor; unfold p_kcp; cbn [p_world w_eng w_al p_sent p_got p_wire length];
    rewrite ?R1, ?EX, ?R3; try done; try lia.
  - by rewrite fmap_app, Hout.
  - apply Forall_app. split; [by eapply wire_ok_mono; [..|exact Hwire]|].
    rewrite Hconv, Hmtu in Hgr. by eapply wire_ok_mono; [..|exact Hgr].
  - unfold cfg_ok. rewrite C1, C4, C12, C15, C2, C6, C13. destruct Hcfg as (? & ? & ? & ? & ? & ? & ? & ?).
    split_and!; try done; lia.
  - unfold owns in *. cbn [w_eng w_al] in *. lia.
Qed.

Lemma stepped_trans c base n q p1 p2 p3 :
  stepped c base n q p1 p2 → stepped c base n q p2 p3 → stepped c base n q p1 p3.
Proof. intros [] []. constructor; [done|by etrans|auto|done]. Qed.

Lemma update_end c base n q p now :
  end_ok c base n p (p_sent q) → covered p q → n < 2 ^ 31 → zlen (stream_of (p_sent q)) < 2 ^ 31 →
  0 ≤ now < 2 ^ 32 → ∃ p', act_run q p (AUpdate now) = Ok p' ∧ stepped c base n q p p'.
Proof.
  intros Hend Hcov Hn Hq31 Hnow. destruct p as [[k a] sent got wire]. cbn [act_run p_world p_sent p_got p_wire].
  pose proof Hend as (U & ps & gs & Hinv). pose proof (ei_cfg _ _ _ _ _ _ _ _ Hinv) as Hcfg.
  pose proof (rs_wnd _ _ _ (ki_rcv _ _ _ _ _ _ _ (ei_kcp _ _ _ _ _ _ _ _ Hinv))) as Hrw.
  unfold p_kcp, cfg_ok in Hcfg, Hrw. cbn [p_world w_eng] in Hcfg, Hrw.
  destruct Hcfg as (D1 & D2 & D3 & D4 & D5 & D6 & D7 & D8).
  destruct (update_run now k Hnow D7 D8 a) as (k1 & Hk1 & _ & Ht1 & Hor).
  assert (stepped c base n q (Peer (World k a) sent got wire) (Peer (World k1 a) sent got wire)) as Hst.
  { apply settings_end; [..|done|done]; rewrite Hk1; done. }
  destruct Hor as [[-> _]|[-> _]].
  - destruct (flush_end c base n q (Peer (World k1 a) sent got wire)) as (ds & w & Hrun & Hst2);
      [apply Hst|apply Hst|done|done|]. cbn [p_world] in Hrun. rewrite Hrun.
    eexists. split; [reflexivity|]. by eapply stepped_trans.
  - eexists. split; [reflexivity|]. by rewrite app_nil_r.
Qed.

(** Any call in range. *)
Lemma act_end c base base' n q p x :
  end_ok c base n p (p_sent q) → end_ok c base' n q (p_sent p) → covered p q → 0 ≤ c < 2 ^ 32 →
  act_ok x → n + act_cost x < 2 ^ 31 →
  ∃ p', act_run q p x = Ok p' ∧ stepped c base (n + act_cost x) q p p'.
Proof.
  intros Hp Hq Hcov Hc Hx Hn. pose proof Hq as (U & ps & gs & Hqi). destruct (ei_bound _ _ _ _ _ _ _ _ Hqi) as [Hb _].
  destruct x as [buf|len|m|now| |nd i rs nc|s r|i]; cbn [act_cost act_ok] in *; rewrite ?Z.add_0_r in *.
  - by apply send_end.
  - apply recv_end; done || lia.
  - by eapply input_end.
  - apply update_end; done || lia.
  - cbn [act_run]. destruct (flush_end c base n q p Hp Hcov ltac:(lia) ltac:(lia)) as (ds & w & -> & Hst). by eexists.
  - by apply nodelay_end.
  - by apply wndsize_end.
  - by apply interval_end.
Qed.

(** ** The system *)

Definition sys_inv (c b1 b2 n : Z) (s : peer * peer) : Prop :=
  end_ok c b1 n s.1 (p_sent s.2) ∧ end_ok c b2 n s.2 (p_sent s.1) ∧ covered s.1 s.2 ∧ covered s.2 s.1.

(** A call at one end, seen from the other. *)
Lemma stepped_sys c b1 b2 n n' p p' q :
  n ≤ n' → end_ok c b2 n q (p_sent p) → covered q p → stepped c b1 n' q p p' →
  end_ok c b2 n' q (p_sent p') ∧ covered q p'.
Proof.
  intros Hn (U & ps & gs & Hq) Hcov [_ Hs Hh _]. split.
  - exists U, ps, gs. eapply end_more; [exact Hn|]. by eapply end_theirs_grow.
  - intros i Hi. destruct (Hcov i Hi) as [?|?]; [left; auto|by right].
Qed.

Lemma sys_step_inv c b1 b2 n s x :
  sys_inv c b1 b2 n s → 0 ≤ c < 2 ^ 32 → act_ok x.2 → n + act_cost x.2 < 2 ^ 31 →
  ∃ s', sys_step x s = Ok s' ∧ sys_inv c b1 b2 (n + act_cost x.2) s'.
Proof.
  destruct s as [p q], x as [[] x]; intros (Hp & Hq & Hpq & Hqp) Hc Hx Hn; cbn [fst snd sys_step] in *;
    assert (0 ≤ act_cost x) by (destruct x; done).
  - destruct (act_end c b1 b2 n q p x) as (p' & -> & Hst); try done.
    destruct (stepped_sys c b1 b2 n (n + act_cost x) p p' q) as [H1 H2]; try done; [lia|].
    eexists. split; [reflexivity|]. split_and!; try done; apply Hst.
  - destruct (act_end c b2 b1 n p q x) as (q' & -> & Hst); try done.
    destruct (stepped_sys c b2 b1 n (n + act_cost x) q q' p) as [H1 H2]; try done; [lia|].
    eexists. split; [reflexivity|]. split_and!; try done; apply Hst.
Qed.

Lemma acts_cost_nonneg l : 0 ≤ acts_cost l.
Proof. induction l as [|[b []] l IH]; simpl; lia. Qed.

Lemma sys_run_inv c b1 b2 l n s :
  sys_inv c b1 b2 n s → 0 ≤ c < 2 ^ 32 → Forall (λ x, act_ok x.2) l → n + acts_cost l < 2 ^ 31 →
  ∃ s', sys_run l s = Ok s' ∧ sys_inv c b1 b2 (n + acts_cost l) s'.
Proof.
  intros Hs Hc. revert n s Hs. induction l as [|x l IH]; intros n s Hs Hl Hn; cbn [sys_run acts_cost foldr] in *.
  { exists s. by rewrite Z.add_0_r. }
  fold (acts_cost l) in *. apply Forall_cons in Hl as [Hx Hl]. pose proof (acts_cost_nonneg l).
  destruct (sys_step_inv c b1 b2 n s x Hs Hc Hx ltac:(lia)) as (s1 & -> & Hs1).
  destruct (IH _ s1 Hs1 Hl ltac:(lia)) as (s2 & H2 & Hs2). exists s2. split; [done|]. by rewrite Z.add_assoc.
Qed.

Lemma new_peer_run c a theirs :
  al_total a → ∃ p, new_peer c a = Ok p ∧ p_sent p = [] ∧ snd_nxt (p_kcp p) = 0 ∧
    end_ok c (al_live a) 0 p theirs.
Proof.
  intros Ha. unfold new_peer, ikcp_create, ikcp_malloc, ikcp_free. run. rewrite malloc_total by done.
  run. rewrite malloc_total by auto with ga. run. unfold ikcp_setoutput, get, put. run.
  eexists. split; [reflexivity|]. split_and!; [done..|].
  exists 0, [], []. constructor; unfold p_kcp; cbn [p_world w_eng w_al p_sent p_got p_wire]; try done.
  - eapply kcp_inv_ext; [..|apply (created_inv c)]; done.
  - apply prefix_nil.
  - change (0 ≤ zlen (stream_of theirs)). lia.
  - by constructor.
  - auto with ga.
  - unfold owns, blocks. cbn. lia.
Qed.

(** Every run of the system reaches a state of the invariant. *)
Lemma run_link_inv c a1 a2 l :
  al_total a1 → al_total a2 → 0 ≤ c < 2 ^ 32 → Forall (λ x, act_ok x.2) l → acts_cost l < 2 ^ 31 →
  ∃ s, run_link c a1 a2 l = Ok s ∧ sys_inv c (al_live a1) (al_live a2) (acts_cost l) s.
Proof.
  intros H1 H2 Hc Hl Hn. unfold run_link.
  destruct (new_peer_run c a1 [] H1) as (p & -> & Ep & Np & Hp).
  destruct (new_peer_run c a2 [] H2) as (q & -> & Eq & Nq & Hq).
  destruct (sys_run_inv c (al_live a1) (al_live a2) l 0 (p, q)) as (s & Hs & Hi); try done; [|by exists s].
  split_and!; cbn [fst snd]; [by rewrite Eq|by rewrite Ep|..]; intros i Hi; lia.
Qed.

(** ** Nothing is lost *)

(** An increasing list of the numbers of an interval is the interval. *)
Lemma interval_sorted (l : list Z) lo hi :
  StronglySorted Z.lt l → (∀ x, x ∈ l ↔ lo ≤ x < hi) → l = seqZ lo (hi - lo).
Proof.
  intros Hs. revert lo. induction Hs as [|x l Hs IH Hlt]; intros lo Hin.
  { rewrite seqZ_nil; [done|]. destruct (decide (lo < hi)); [|lia].
    exfalso. eapply (not_elem_of_nil lo), Hin. lia. }
  rewrite Forall_forall in Hlt. assert (lo ≤ x < hi) as Hx by (apply Hin; set_solver).
  assert (x = lo) as ->.
  { assert (lo ∈ x :: l) as [->|Hlo]%elem_of_cons by (apply Hin; lia); [done|]. specialize (Hlt lo Hlo). lia. }
  rewrite seqZ_cons by lia. f_equal. replace (Z.pred (hi - lo)) with (hi - Z.succ lo) by lia. apply IH.
  intros y. split.
  - intros Hy. specialize (Hlt y Hy). assert (lo ≤ y < hi) by (apply Hin; set_solver). lia.
  - intros Hy. assert (y ∈ lo :: l) as [->|?]%elem_of_cons by (apply Hin; lia); [lia|done].
Qed.

(** When everything has arrived, the receive buffer is the rest of the
    stream. *)
Lemma buffer_complete S N k :
  rcv_state (at_ S) N k → 0 ≤ N ≤ zlen S → (∀ i, 0 ≤ i < zlen S → held N k i) →
  payload <$> rcv_buf k = at_ S <$> seqZ N (zlen S - N).
Proof.
  intros Hr HN Hall. set (idx := λ s, N + ahead (rcv_nxt k) (seg_sn s)).
  pose proof (rs_buf _ _ _ Hr) as Hbuf. rewrite Forall_forall in Hbuf.
  rewrite <- (interval_sorted (idx <$> rcv_buf k) N (zlen S)).
  - rewrite <- list_fmap_compose. apply list_fmap_ext. intros i s Hs%list_elem_of_lookup_2.
    by destruct (Hbuf s Hs) as (_ & _ & ->).
  - eapply (StronglySorted_fmap idx); [|apply (rs_sorted _ _ _ Hr)]. intros s t. unfold before, idx. lia.
  - intros x. rewrite list_elem_of_fmap. split.
    + intros (s & -> & Hs). destruct (Hbuf s Hs) as ((_ & Hf & _) & _ & Hp). fold (idx s) in Hp.
      assert (0 ≤ idx s < zlen S) by (apply at_in; rewrite <- Hp; simpl; lia).
      unfold idx in *. pose proof (ahead_range (rcv_nxt k) (seg_sn s)). lia.
    + intros Hx. destruct (Hall x ltac:(lia)) as [?|(s & Hs & ->)]; [lia|]. by exists s.
Qed.

Lemma stream_bytes ms : concat (stream_of ms).*2 = concat ms.
Proof.
  unfold stream_of. induction ms as [|m ms IH]; [done|]. cbn [fmap list_fmap concat].
  rewrite fmap_app, concat_app, IH. f_equal. apply frags_concat.
Qed.

Lemma waitsnd_empty f g U X N ps k :
  kcp_inv f g U X N ps k → ikcp_waitsnd k = 0 → snd_buf k = [] ∧ snd_queue k = [].
Proof.
  intros [Q1 Q2 _ _ _]. unfold ikcp_waitsnd. rewrite (ss_n _ _ _ _ Q2), (sq_n _ Q1).
  pose proof (snd_buf_small _ _ _ _ Q2). pose proof (sq_len _ Q1). rewrite u32_small by lia. unfold i32. intros Hz.
  assert ((zlen (snd_buf k) + zlen (snd_queue k) + 2 ^ 31) mod 2 ^ 32 = 2 ^ 31) as E by lia.
  pose proof (Z.div_mod (zlen (snd_buf k) + zlen (snd_queue k) + 2 ^ 31) (2 ^ 32)).
  split; apply nil_length_inv; lia.
Qed.

(** With nothing left to send, the other end has every byte: those it gave to
    its user, then those of its queue and of its buffer. *)
Lemma all_arrived c b1 b2 n p q :
  end_ok c b1 n p (p_sent q) → end_ok c b2 n q (p_sent p) → covered p q → n < 2 ^ 31 →
  ikcp_waitsnd (p_kcp p) = 0 →
  concat (p_sent p) = concat (p_got q) ++ bytes_of (rcv_queue (p_kcp q)) ++ bytes_of (rcv_buf (p_kcp q)).
Proof.
  intros (U & ps & gs & Hp) (U2 & ps2 & gs2 & Hq) Hcov Hn Hw.
  destruct (waitsnd_empty _ _ _ _ _ _ _ (ei_kcp _ _ _ _ _ _ _ _ Hp) Hw) as [Eb Eq].
  pose proof (ei_mine _ _ _ _ _ _ _ _ Hp) as Hmine. rewrite Eq, Z.add_0_r in Hmine.
  unfold covered in Hcov. rewrite Eb, Hmine in Hcov.
  set (S := stream_of (p_sent p)) in *. set (k := p_kcp q) in *.
  pose proof (ki_rcv _ _ _ _ _ _ _ (ei_kcp _ _ _ _ _ _ _ _ Hq)) as Hr. fold S k in Hr.
  pose proof (ei_nxt _ _ _ _ _ _ _ _ Hq) as Hnxt. pose proof (ei_read _ _ _ _ _ _ _ _ Hq) as Hread. fold S k in Hnxt, Hread.
  assert (0 ≤ rcv_nxt k) by (rewrite (rs_nxt _ _ _ Hr); apply u32_range).
  pose proof (buffer_complete S (rcv_nxt k) k Hr ltac:(lia)) as Hbuf.
  rewrite at_seq in Hbuf by lia. pose proof (rs_queue _ _ _ Hr) as Hque. rewrite at_seq in Hque by lia.
  destruct (stream_of_prefix _ _ (ei_got _ _ _ _ _ _ _ _ Hq)) as [t Et]. fold S in Et.
  rewrite <- (stream_bytes (p_sent p)), <- (stream_bytes (p_got q)). fold S.
  rewrite !bytes_of_payload, Hque, Hbuf.
  2: { intros i Hi. destruct (Hcov i Hi) as [?|(s & Hs & _)]; [done|set_solver]. }
  rewrite <- !concat_app, <- !fmap_app. do 2 f_equal. rewrite Hread, !Nat2Z.id.
  rewrite (take_ge (drop (Z.to_nat (rcv_nxt k)) S)) by (rewrite length_drop; lia).
  replace (Z.to_nat (rcv_nxt k)) with (length (stream_of (p_got q)) + length (rcv_queue k))%nat by lia.
  rewrite Et, drop_app_length, <- drop_drop, drop_app_length, take_drop. done.
Qed.
