(* ===== verification/IkcpBytes.v ===== *)
(** * KCP: bytes held by the receive half

    The receive queue and buffer never hold more bytes than were fed to
    [ikcp_input], so that the length [ikcp_recv] reports is exact: the
    programs that call it size their buffers by that. *)

From S2P Require Import Prelude CRuntime IkcpData Ikcp IkcpCodec IkcpRecv IkcpSend.
From S2P Require Import IkcpAck IkcpInput IkcpFlush IkcpTimer IkcpApi.

Definition seg_bytes (q : list ikcpseg) : nat := sum_list_with (λ s, length (seg_data s)) q.

Definition rcv_lists (k : ikcpcb) : list ikcpseg := rcv_queue k ++ rcv_buf k.

Definition rcv_bytes (k : ikcpcb) : nat := seg_bytes (rcv_lists k).

Lemma seg_bytes_app q1 q2 : seg_bytes (q1 ++ q2) = (seg_bytes q1 + seg_bytes q2)%nat.
Proof. apply sum_list_with_app. Qed.

Lemma seg_bytes_cons s q : seg_bytes (s :: q) = (length (seg_data s) + seg_bytes q)%nat.
Proof. done. Qed.

Lemma seg_bytes_perm q1 q2 : q1 ≡ₚ q2 → seg_bytes q1 = seg_bytes q2.
Proof. unfold seg_bytes. induction 1; simpl; lia. Qed.

Lemma bytes_of_length q : length (bytes_of q) = seg_bytes q.
Proof.
  unfold bytes_of, seg_bytes. induction q as [|s q IH]; [done|].
  cbn [fmap list_fmap concat sum_list_with foldr]. by rewrite length_app, IH.
Qed.

(** Moving segments to the queue changes nothing. *)
Lemma move_loop_lists buf k : rcv_buf k = buf → rcv_lists (move_loop buf k) = rcv_lists k.
Proof.
  revert k. induction buf as [|s buf IH]; intros k Hb; [done|]. cbn [move_loop].
  destruct (_ && _); [|done]. rewrite IH by done. unfold rcv_lists. kred. rewrite Hb. by rewrite <- app_assoc.
Qed.

(** ** [ikcp_input] *)

(** A successful run leaves the lists of the receive half alone. *)
Definition rcv_same {A} (m : K A) : Prop :=
  ∀ w x w', m w = Ok (x, w') → rcv_lists (w_eng w') = rcv_lists (w_eng w).

Lemma same_ret {A} (x : A) : rcv_same (mret x).
Proof. by intros w y w' [= _ <-]. Qed.

Lemma same_stop {A} e : rcv_same (stop e : K A).
Proof. by intros w y w'. Qed.

Lemma same_bind {A B} (m : K A) (f : A → K B) : rcv_same m → (∀ x, rcv_same (f x)) → rcv_same (m ≫= f).
Proof. intros Hm Hf w y w'' (x & w' & H1 & H2)%bind_inv. rewrite (Hf _ _ _ _ H2). by eapply Hm. Qed.

(** Reading the block first. *)
Lemma same_get {A} (f : ikcpcb → K A) :
  (∀ k a x w', f k (World k a) = Ok (x, w') → rcv_lists (w_eng w') = rcv_lists k) → rcv_same (k ← get; f k).
Proof. intros Hf [k a] x w' H. unfold get in H. run_in H. by eapply Hf. Qed.

Lemma same_put k k' a x w' : put k' (World k a) = Ok (x, w') → rcv_lists k' = rcv_lists k → rcv_lists (w_eng w') = rcv_lists k.
Proof. unfold put. run. by intros [= _ <-]. Qed.

Lemma same_free n : rcv_same (free_n n : K unit).
Proof. induction n as [|n IH]; [apply same_ret|]. apply same_bind; [|done]. by intros [k a] x w' [= _ <-]. Qed.

Lemma same_malloc : rcv_same (ikcp_malloc : K bool).
Proof.
  unfold ikcp_malloc. apply same_bind; [|intros; apply same_ret].
  intros [k a] x w' H. unfold kvstore_malloc in H. cbn in H. destruct (al_ok _ _); by injection H as _ <-.
Qed.

Lemma same_release : rcv_same (ikcp_free : K unit).
Proof. by intros [k a] x w' [= _ <-]. Qed.

Lemma parse_una_same una : rcv_same (ikcp_parse_una una).
Proof.
  apply same_get. intros k a x w' H. destruct (una_loop _ _) as [acked buf].
  apply bind_inv in H as (u & [k1 a1] & H1 & H2). pose proof (same_free _ _ _ _ H1) as E. cbn in E.
  unfold put in H2. run_in H2. by injection H2 as _ <-.
Qed.

Lemma shrink_lists k : rcv_lists (ikcp_shrink_buf k) = rcv_lists k.
Proof. unfold ikcp_shrink_buf. by destruct (snd_buf k). Qed.

Lemma update_ack_lists k rtt : rcv_lists (ikcp_update_ack k rtt) = rcv_lists k.
Proof.
  unfold ikcp_update_ack. cbv zeta. destruct (rx_srtt k =? 0); [done|].
  match goal with |- context [if ?b then _ <| rx_srtt := 1 |> else _] => by destruct b end.
Qed.

Lemma parse_ack_same sn : rcv_same (ikcp_parse_ack sn).
Proof.
  apply same_get. intros k a x w' H. destruct (_ || _); [by injection H as _ <-|].
  destruct (ack_loop _ _) as [[seg|] buf]; [|by injection H as _ <-].
  unfold ikcp_segment_delete, ikcp_free, put in H. run_in H. by injection H as _ <-.
Qed.

(** [put] of an updated block after [get]. *)
Lemma same_upd (f : ikcpcb → ikcpcb) :
  (∀ k, rcv_lists (f k) = rcv_lists k) → rcv_same (k ← get; put (f k)).
Proof. intros Hf. apply same_get. intros k a x w' H. by eapply same_put. Qed.

Lemma bind_assoc {A B C} (m : K A) (f : A → K B) (g : B → K C) w :
  (m ≫= λ x, f x ≫= g) w = ((m ≫= f) ≫= g) w.
Proof. unfold mbind, prog_bind. by destruct (m w) as [[x w']|e]. Qed.

Lemma same_upd_bind {A} (f : ikcpcb → ikcpcb) (m : K A) :
  (∀ k, rcv_lists (f k) = rcv_lists k) → rcv_same m → rcv_same (k ← get; _ ← put (f k); m).
Proof.
  intros Hf Hm w x w' H. rewrite bind_assoc in H.
  apply (same_bind (k ← get; put (f k)) (λ _, m)) in H; [done|by apply same_upd|done].
Qed.

Lemma input_ack_same h a : rcv_same (input_ack h a).
Proof.
  unfold input_ack. apply (same_upd_bind (λ k, if 0 <=? _itimediff (current k) (h_ts h)
    then ikcp_update_ack k (_itimediff (current k) (h_ts h)) else k)).
  - intros k. destruct (0 <=? _); [apply update_ack_lists|done].
  - apply same_bind; [apply parse_ack_same|]. intros _.
    apply same_upd_bind; [apply shrink_lists|apply same_ret].
Qed.

Lemma ack_push_same sn ts : rcv_same (ikcp_ack_push sn ts).
Proof.
  apply same_bind.
  - apply same_get. intros k a x w' H. cbv zeta in H. destruct (_ <? _); [|by injection H as _ <-].
    apply bind_inv in H as (ok & [k1 a1] & H1 & H2). pose proof (same_malloc _ _ _ H1) as E. cbn in E.
    destruct ok; [|done]. apply bind_inv in H2 as (u & [k2 a2] & H2 & H3).
    unfold put in H3. run_in H3. by injection H3 as _ <-.
  - intros _. apply same_get. intros k a x w' H. destruct (acklist k) as [l|]; [|done].
    destruct (_ <=? _); [done|]. unfold put in H. run_in H. by injection H as _ <-.
Qed.

Lemma insert_rev_perm s rbuf rbuf' : insert_rev s rbuf = Some rbuf' → rbuf' ≡ₚ s :: rbuf.
Proof.
  revert rbuf'. induction rbuf as [|t rbuf IH]; intros rbuf'; cbn [insert_rev]; [by intros [= <-]|].
  destruct (_ =? _); [done|]. destruct (0 <? _); [by intros [= <-]|].
  destruct (insert_rev s rbuf) as [r|]; [|done]. intros [= <-]. rewrite (IH r) by done. apply Permutation_swap.
Qed.

Lemma parse_data_bytes s k a x w' :
  ikcp_parse_data s (World k a) = Ok (x, w') →
  (rcv_bytes (w_eng w') ≤ rcv_bytes k + length (seg_data s))%nat.
Proof.
  unfold ikcp_parse_data, get, put. run. intros H. destruct (_ || _).
  { unfold ikcp_segment_delete, ikcp_free in H. run_in H. injection H as _ <-. cbn. lia. }
  destruct (insert_rev s (reverse (rcv_buf k))) as [rbuf|] eqn:Ei.
  - run_in H. injection H as _ <-. cbn [w_eng]. unfold rcv_bytes. rewrite move_loop_lists by done.
    apply insert_rev_perm in Ei. unfold rcv_lists. kred.
    rewrite (seg_bytes_perm _ (rcv_queue k ++ s :: rcv_buf k)).
    + rewrite !seg_bytes_app, seg_bytes_cons. lia.
    + by rewrite (reverse_Permutation rbuf), Ei, (reverse_Permutation (rcv_buf k)).
  - unfold ikcp_segment_delete, ikcp_free in H. run_in H. injection H as _ <-. cbn [w_eng].
    unfold rcv_bytes. rewrite move_loop_lists by done. lia.
Qed.

Lemma input_push_bytes h p k a x w' :
  input_push h p (World k a) = Ok (x, w') → (rcv_bytes (w_eng w') ≤ rcv_bytes k + length p)%nat.
Proof.
  unfold input_push. rewrite bind_run. cbn [get get_eng w_eng]. intros H.
  destruct (_ <? 0); [|injection H as _ <-; cbn; lia].
  apply bind_inv in H as (u & [k1 a1] & H1 & H). pose proof (ack_push_same _ _ _ _ _ H1) as E1. cbn [w_eng] in E1.
  rewrite bind_run in H. cbn [get get_eng w_eng] in H. unfold rcv_bytes at 2. rewrite <- E1. fold (rcv_bytes k1).
  destruct (0 <=? _); [|injection H as _ <-; cbn; lia].
  apply bind_inv in H as (seg & [k2 a2] & H2 & H).
  unfold ikcp_segment_new in H2. apply bind_inv in H2 as (ok & [k3 a3] & H3 & H2).
  pose proof (same_malloc _ _ _ H3) as E3. cbn [w_eng] in E3.
  destruct ok; [|by injection H2 as <- <- <-].
  injection H2 as <- -> ->. apply parse_data_bytes in H. unfold rcv_bytes in *. rewrite E3 in H. exact H.
Qed.

Lemma input_segment_bytes h p ac k a x w' :
  input_segment h p ac (World k a) = Ok (x, w') → (rcv_bytes (w_eng w') ≤ rcv_bytes k + length p)%nat.
Proof.
  unfold input_segment. rewrite bind_assoc. intros H. apply bind_inv in H as (u & w1 & H1 & H).
  apply (same_upd (λ k, k <| rmt_wnd := h_wnd h |>)) in H1; [|done]. cbn [w_eng] in H1.
  apply bind_inv in H as (u2 & w2 & H2 & H). apply parse_una_same in H2.
  rewrite bind_assoc in H. apply bind_inv in H as (u3 & [k3 a3] & H3 & H).
  apply (same_upd ikcp_shrink_buf) in H3; [|apply shrink_lists]. cbn [w_eng] in H3.
  unfold rcv_bytes at 2. rewrite <- H1, <- H2, <- H3. fold (rcv_bytes k3).
  destruct (h_cmd h =? IKCP_CMD_ACK).
  { apply input_ack_same in H. cbn [w_eng] in H. unfold rcv_bytes. rewrite H. lia. }
  destruct (h_cmd h =? IKCP_CMD_PUSH).
  { apply bind_inv in H as (u4 & w4 & H4 & H). injection H as _ <-. by apply input_push_bytes in H4. }
  destruct (h_cmd h =? IKCP_CMD_WASK).
  - rewrite bind_assoc in H. apply bind_inv in H as (u4 & w4 & H4 & H). injection H as _ <-.
    apply (same_upd (λ k, k <| probe := Z.lor (probe k) IKCP_ASK_TELL |>)) in H4; [|done].
    cbn [w_eng] in H4. unfold rcv_bytes. rewrite H4. lia.
  - injection H as _ <-. cbn. lia.
Qed.

Lemma decode8_length p v r : ikcp_decode8u p = Some (v, r) → (length r ≤ length p)%nat.
Proof. unfold ikcp_decode8u. destruct p; [done|]. intros [= <- <-]. cbn. lia. Qed.
Lemma decode16_length p v r : ikcp_decode16u p = Some (v, r) → (length r ≤ length p)%nat.
Proof. unfold ikcp_decode16u. destruct p as [|? [|? ?]]; try done. intros [= <- <-]. cbn. lia. Qed.
Lemma decode32_length p v r : ikcp_decode32u p = Some (v, r) → (length r ≤ length p)%nat.
Proof. unfold ikcp_decode32u. destruct p as [|? [|? [|? [|? ?]]]]; try done. intros [= <- <-]. cbn. lia. Qed.

Lemma decode_header_length data h rest : decode_header data = Some (h, rest) → (length rest ≤ length data)%nat.
Proof.
  unfold decode_header. intros H.
  repeat match goal with
  | H : (_ ≫= _) = Some _ |- _ => apply bind_Some in H as ([? ?] & ? & H)
  end. injection H as _ <-.
  repeat match goal with
  | H : ikcp_decode8u _ = _ |- _ => apply decode8_length in H
  | H : ikcp_decode16u _ = _ |- _ => apply decode16_length in H
  | H : ikcp_decode32u _ = _ |- _ => apply decode32_length in H
  end. lia.
Qed.

Lemma input_loop_bytes fuel data ac k a x w' :
  input_loop fuel data ac (World k a) = Ok (x, w') → (rcv_bytes (w_eng w') ≤ rcv_bytes k + length data)%nat.
Proof.
  revert data ac k a. induction fuel as [|fuel IH]; intros data ac k a; cbn [input_loop].
  { intros [= _ <-]. cbn. lia. }
  destruct (_ <? _); [intros [= _ <-]; cbn; lia|].
  destruct (decode_header data) as [[h rest]|] eqn:Ed; [|done]. apply decode_header_length in Ed.
  rewrite bind_run. cbn [get get_eng w_eng]. destruct (negb _); [intros [= _ <-]; cbn; lia|].
  destruct (_ || _); [intros [= _ <-]; cbn; lia|]. destruct (_ && _ && _ && _); [intros [= _ <-]; cbn; lia|].
  intros (ac' & [k1 a1] & H1 & H)%bind_inv. apply input_segment_bytes in H1. cbn [w_eng] in H1.
  apply IH in H. rewrite length_drop in H. rewrite length_take in H1. lia.
Qed.

Lemma lists_if (b : bool) x y z :
  rcv_lists x = z → rcv_lists y = z → rcv_lists (if b then x else y) = z.
Proof. by destruct b. Qed.

Lemma grow_cwnd_lists k : rcv_lists (grow_cwnd k) = rcv_lists k.
Proof.
  unfold grow_cwnd. cbv zeta.
  repeat first [reflexivity | apply lists_if
    | match goal with |- rcv_lists (upd _ ?x) = ?z => change (rcv_lists x = z) end].
Qed.

Lemma input_bytes data k a x w' :
  ikcp_input data (World k a) = Ok (x, w') → (rcv_bytes (w_eng w') ≤ rcv_bytes k + length data)%nat.
Proof.
  unfold ikcp_input. cbv zeta. rewrite bind_run. cbn [get get_eng w_eng]. rewrite bind_run. unfold put at 1.
  rewrite put_eng_run. destruct (_ <? _).
  { intros [= _ <-]. change (rcv_bytes k ≤ rcv_bytes k + length data)%nat. lia. }
  intros (r & [k1 a1] & H1 & H)%bind_inv. apply input_loop_bytes in H1. cbn [w_eng] in H1.
  change (rcv_bytes (k <| ackedlen := 0 |>)) with (rcv_bytes k) in H1.
  destruct r as [ret|ac]; [injection H as _ <-; exact H1|].
  rewrite bind_run in H. cbn [get get_eng w_eng] in H. unfold put in H. run_in H. injection H as _ <-. cbn [w_eng].
  assert (rcv_lists (if flag ac then ikcp_parse_fastack k1 (maxack ac) (latest_ts ac) else k1) = rcv_lists k1) as E.
  { destruct (flag ac); [|done]. unfold ikcp_parse_fastack. by destruct (_ || _). }
  unfold rcv_bytes at 1. destruct (0 <? _); rewrite ?grow_cwnd_lists, E; exact H1.
Qed.

(** ** [ikcp_recv] *)

Lemma merge_loop_pos q len : q ≠ [] → (1 ≤ (merge_loop q len).1.2)%nat.
Proof.
  destruct q as [|s q]; [done|]. intros _. cbn [merge_loop]. cbv zeta.
  destruct (_ =? _); [done|]. destruct (merge_loop q _) as [[bs n] l]. cbn. lia.
Qed.

(** A message taken off the queue takes at least one segment with it. *)
Lemma recv_lists len k a r bs w' :
  0 ≤ len → ikcp_recv len (World k a) = Ok ((r, bs), w') →
  (w' = World k a ∧ r < 0 ∧ bs = []) ∨
  (0 ≤ r ≤ len ∧ ∃ n, (1 ≤ n)%nat ∧ rcv_queue k ≠ [] ∧
     rcv_lists (w_eng w') = drop n (rcv_queue k) ++ rcv_buf k).
Proof.
  intros Hlen. unfold ikcp_recv, get, put. run. intros H.
  destruct (rcv_queue k) as [|s q] eqn:Eq; [injection H as <- <- <-; left; done|]. rewrite <- Eq in *.
  assert (rcv_queue k ≠ []) as Hne by (by rewrite Eq). cbv zeta in H.
  destruct (len <? 0) eqn:El; b2p; [lia|].
  destruct (ikcp_peeksize k <? 0) eqn:Ep; b2p; [injection H as <- <- <-; left; done|].
  destruct (len <? ikcp_peeksize k) eqn:E3; b2p; [injection H as <- <- <-; left; done|].
  pose proof (merge_loop_pos (rcv_queue k) 0 Hne) as Hn.
  destruct (merge_loop (rcv_queue k) 0) as [[bs' n] l]. cbn [fst snd] in Hn.
  apply bind_inv in H as (u & [k1 a1] & H1 & H). destruct (l =? _) eqn:E; [|done]. b2p. run_in H.
  injection H as <- <- <-. right. split; [lia|]. exists n. split; [done|]. split; [done|]. cbn [w_eng].
  match goal with |- rcv_lists (if ?b then (?x <| probe := _ |>) else _) = _ =>
    transitivity (rcv_lists x); [by destruct b|] end.
  by rewrite move_loop_lists.
Qed.

(** ** Sessions *)

Definition bsession (base n : Z) (w : world ikcpcb) : Prop :=
  session base n w ∧ Z.of_nat (rcv_bytes (w_eng w)) ≤ n.

Lemma bsession_mono base n n' w : n ≤ n' → bsession base n w → bsession base n' w.
Proof. intros Hn [H1 H2]. split; [by eapply session_mono|lia]. Qed.

(** The number of segments waiting to be read. *)
Definition pending (k : ikcpcb) : nat := length (rcv_lists k).

Lemma brecv base n k a len :
  bsession base n (World k a) → 0 ≤ len < 2 ^ 31 → n < 2 ^ 31 →
  ∃ r bs w', ikcp_recv len (World k a) = Ok ((r, bs), w') ∧ bsession base n w' ∧
    ((r < 0 ∧ bs = [] ∧ w' = World k a) ∨
     (r = Z.of_nat (length bs) ∧ r ≤ len ∧ (pending (w_eng w') < pending k)%nat)).
Proof.
  intros [Hs Hb] Hlen Hn. destruct (recv_session base n k a len Hs ltac:(lia)) as ([r bs] & w' & Hr & Hs' & _).
  exists r, bs, w'. split; [done|]. cbn [w_eng] in Hb. pose proof Hr as Hl.
  apply recv_lists in Hl as [(-> & Hr0 & ->)|(Hr0 & m & Hm & Hne & El)]; [|..|lia].
  { split; [by split|]. by left. }
  assert (pending (w_eng w') < pending k)%nat as Hp.
  { unfold pending, rcv_lists at 1. fold (rcv_lists (w_eng w')). rewrite El. unfold rcv_lists.
    rewrite !length_app, length_drop. destruct (rcv_queue k); [done|]. simpl. lia. }
  split; [split; [done|]|].
  - unfold rcv_bytes at 1. rewrite El. etrans; [|exact Hb]. unfold rcv_bytes, rcv_lists.
    rewrite !seg_bytes_app. rewrite <- (take_drop m (rcv_queue k)) at 2. rewrite seg_bytes_app. lia.
  - right. split_and!; [|lia|done].
    destruct Hs as (f & g & U & X & N & ps & Hinv & _). cbn [w_eng] in Hinv.
    pose proof (recv_run g N k a len (ki_rcv _ _ _ _ _ _ _ Hinv) Hlen) as Hrun. rewrite Hr in Hrun.
    destruct (rcv_queue k) as [|s q] eqn:Eq; [done|]. rewrite <- Eq in Hrun.
    destruct (ikcp_peeksize k <? 0); [injection Hrun as -> _; lia|].
    destruct (len <? ikcp_peeksize k); [injection Hrun as -> _; lia|].
    destruct Hrun as (k' & a' & m' & [= -> -> ->] & Hpk & _). rewrite Hpk. apply i32_small.
    assert (Z.of_nat (length (taken k)) ≤ n).
    { etrans; [|exact Hb]. unfold taken. rewrite bytes_of_length. unfold rcv_bytes, rcv_lists.
      rewrite seg_bytes_app. rewrite <- (take_drop (msg_len (rcv_queue k)) (rcv_queue k)) at 3.
      rewrite seg_bytes_app. lia. }
    lia.
Qed.

Lemma binput base n k a data :
  bsession base n (World k a) → n + Z.of_nat (length data) < 2 ^ 31 →
  ∃ r w', ikcp_input data (World k a) = Ok (r, w') ∧ bsession base (n + Z.of_nat (length data)) w'.
Proof.
  intros [Hs Hb] Hn. destruct (input_session base n k a data Hs Hn) as (r & w' & Hr & Hs' & _).
  exists r, w'. split; [done|]. split; [done|]. apply input_bytes in Hr. cbn [w_eng] in *. lia.
Qed.

Lemma bsend base n k a buf :
  bsession base n (World k a) → Z.of_nat (length buf) < 2 ^ 31 → n + 128 < 2 ^ 31 →
  ∃ r w', ikcp_send buf (Z.of_nat (length buf)) (World k a) = Ok (r, w') ∧ bsession base (n + 128) w'.
Proof.
  intros [Hs Hb] Hbuf Hn. destruct (send_session base n k a buf Hs Hbuf Hn) as (r & w' & Hr & Hs' & _).
  exists r, w'. split; [done|]. split; [done|]. cbn [w_eng] in Hb.
  enough (rcv_lists (w_eng w') = rcv_lists k) as E by (unfold rcv_bytes in *; rewrite E; lia).
  destruct Hs as (f & g & U & X & N & ps & Hinv & Ha & _ & _ & _ & _ & _ & _ & _ & Hq). cbn [w_eng w_al] in *.
  pose proof (ki_queue _ _ _ _ _ _ _ Hinv) as Hok.
  destruct (decide (stream k = 0)) as [Hst|Hst].
  - pose proof (send_message k a buf Hok Ha Hst Hbuf ltac:(lia)) as Hrun. cbv zeta in Hrun. rewrite Hr in Hrun.
    destruct (frag_count _ _ <? _); [destruct Hrun as (segs & a' & [= -> ->] & _)|injection Hrun as -> ->]; done.
  - destruct (send_stream k a buf Hok Ha Hst Hbuf ltac:(lia)) as (r' & q & a' & Hrun & _). rewrite Hr in Hrun.
    by injection Hrun as -> ->.
Qed.

Lemma bflush base n k a :
  bsession base n (World k a) →
  ∃ r w', ikcp_flush (World k a) = Ok (r, w') ∧ bsession base n w'.
Proof.
  intros [Hs Hb]. destruct (flush_session base n k a Hs) as (r & w' & Hr & Hs' & _). exists r, w'.
  split; [done|]. split; [done|]. cbn [w_eng] in Hb.
  enough (rcv_lists (w_eng w') = rcv_lists k) as E by (unfold rcv_bytes in *; rewrite E; lia).
  destruct Hs as (f & g & U & X & N & ps & Hinv & Ha & Hown & Ho & Hc & Hw & _). cbn [w_eng w_al] in *.
  destruct (decide (updated k = 0)) as [Hu|Hu].
  { unfold ikcp_flush, get in Hr. run_in Hr. rewrite Hu in Hr. by injection Hr as _ <-. }
  destruct (flush_run f g U X N ps k a Hinv Ho Hu Hc Hw) as
    (k' & X' & groups & probes & data & Hrun & _ & _ & _ & _ & _ & _ & _ & _ & _ & _ & _ & V & _).
  rewrite Hr in Hrun. injection Hrun as -> ->. cbn [w_eng]. unfold rcv_view in V. unfold rcv_lists. congruence.
Qed.

Lemma bupdate base n k a now :
  bsession base n (World k a) → 0 ≤ now < 2 ^ 32 →
  ∃ r w', ikcp_update now (World k a) = Ok (r, w') ∧ bsession base n w'.
Proof.
  intros [Hs Hb] Hn. pose proof Hs as (f & g & U & X & N & ps & Hinv & _ & _ & _ & _ & Hw & Hi & Ht & _).
  cbn [w_eng w_al] in *. destruct (update_run now k Hn Hi Ht a) as (k1 & Hk1 & _ & Ht1 & Hor).
  assert (bsession base n (World k1 a)) as Hs1.
  { pose proof (rs_wnd _ _ _ (ki_rcv _ _ _ _ _ _ _ Hinv)) as Hrw. split.
    - apply (session_settings base n k); try done; rewrite Hk1; kred; try done.
    - cbn [w_eng]. replace (rcv_bytes k1) with (rcv_bytes k); [done|]. by rewrite Hk1. }
  destruct Hor as [[-> _]|[-> _]]; [by apply bflush|]. by eexists _, _.
Qed.
