(* ===== verification/KcpProps.v ===== *)
(** * Properties of the KCP transport

    The statements about src/third_party/kcp/ikcp.c, each with a concrete
    instance. *)

From S2P Require Import Prelude CRuntime IkcpData Ikcp IkcpCodec IkcpRecv IkcpSend.
From S2P Require Import IkcpAck IkcpInput IkcpFlush IkcpTimer IkcpApi IkcpLink IkcpSystem.

(** ** Concrete blocks for the instances *)

(** A new block with its callback, after a first [ikcp_update]. *)
Definition kcp_fresh : ikcpcb := created 7 <| output := true |> <| updated := 1 |>.

Lemma fresh_inv f g : kcp_inv f g 0 0 0 [] kcp_fresh.
Proof. eapply kcp_inv_ext; [..|apply (created_inv 7)]; done. Qed.

(** The same with one message of two bytes sent and flushed. *)
Definition kcp_sent : ikcpcb :=
  match (_ ← ikcp_send [1; 2] 2; _ ← ikcp_flush; _ ← ikcp_flush; mret tt) (World kcp_fresh al_good) with
  | Ok (_, w) => w_eng w
  | Err _ => kcp_fresh
  end.

(** The stream that message makes. *)
Definition one_message (i : Z) : Z * list Z := if i =? 0 then (0, [1; 2]) else (-1, []).

Lemma sent_buf : ∃ s, snd_buf kcp_sent = [s] ∧ seg_sn s = 0 ∧ payload s = (0, [1; 2]) ∧ pushed kcp_sent s.
Proof.
  eexists. split; [vm_compute; reflexivity|]. split_and!; [reflexivity..|].
  apply (bool_decide_unpack _). vm_compute. reflexivity.
Qed.

Lemma sent_state : snd_state one_message 0 1 kcp_sent.
Proof.
  destruct sent_buf as (s & Hs & Hsn & Hp & Hpush).
  constructor; rewrite ?Hs; try (vm_compute; reflexivity).
  - apply (tr_cons _ _ _ 0); [lia|done|done|]. constructor. lia.
  - by constructor.
Qed.

(** A data segment of connection 7 as it arrives. *)
Definition arrived (sn : Z) (d : list Z) : ikcpseg :=
  Seg 7 IKCP_CMD_PUSH 0 128 0 sn 0 (Z.of_nat (length d)) 0 0 0 0 d.

(** ** Wire format and numbers *)

(** Decoding the 24 bytes [ikcp_encode_seg] writes gives back every header
    field at its width, and leaves the bytes that follow. *)
Theorem header_roundtrip s rest :
  decode_header (ikcp_encode_seg s ++ rest) = Some (header_of s, rest).
Proof. apply decode_encode_seg. Qed.

(** ** Sending *)

(** C17. In message mode, while allocations succeed, [ikcp_send] queues a message as its fragments, each at
    most [mss] bytes, numbered down to 0, and returns its length; a message of
    128 or more fragments is refused with -2 and nothing is queued. *)
Theorem send_message_fragments k a buf :
  snd_queue_ok k → al_total a → stream k = 0 → Z.of_nat (length buf) < 2 ^ 31 →
  Z.of_nat (length (snd_queue k) + 128) < 2 ^ 31 →
  let n := frag_count (mss k) (Z.of_nat (length buf)) in
  if n <? IKCP_WND_RCV then
    ∃ segs a', ikcp_send buf (Z.of_nat (length buf)) (World k a) =
        Ok (Z.of_nat (length buf), World (with_queue k (snd_queue k ++ segs)) a') ∧
      payload <$> segs = fragments true (Z.to_nat (mss k)) (Z.to_nat n) buf ∧
      concat (payload <$> segs).*2 = buf ∧
      snd_queue_ok (with_queue k (snd_queue k ++ segs)) ∧ al_live a' = al_live a + n
  else ikcp_send buf (Z.of_nat (length buf)) (World k a) = Ok (-2, World k a).
Proof.
  intros Hq Ha Hs Hb Hl n. pose proof (send_message k a buf Hq Ha Hs Hb Hl) as H. cbv zeta in H. fold n in H.
  destruct (n <? IKCP_WND_RCV); [|done]. destruct H as (segs & a' & H1 & H2 & H3 & _ & H4).
  exists segs, a'. split_and!; try done. rewrite H2. apply fragments_concat. pose proof (sq_mss _ Hq).
  destruct (frag_count_enough (mss k) (Z.of_nat (length buf))) as [Hn Hle]; [lia..|]. fold n in Hn, Hle. nia.
Qed.

Lemma send_message_fragments_witness :
  ∃ segs a', ikcp_send [1; 2; 3] 3 (World kcp_fresh al_good)
      = Ok (3, World (with_queue kcp_fresh segs) a') ∧ concat (payload <$> segs).*2 = [1; 2; 3].
Proof.
  destruct (send_message_fragments kcp_fresh al_good [1; 2; 3]) as (segs & a' & H1 & _ & H2 & _).
  - apply (ki_queue _ _ _ _ _ _ _ (fresh_inv one_message one_message)).
  - auto with ga.
  - reflexivity.
  - reflexivity.
  - reflexivity.
  - exists segs, a'. split; [exact H1|exact H2].
Defined.

(** In streaming mode [ikcp_send] appends to the bytes of the send queue the
    prefix of the buffer it accepted, topping up the last segment first, and
    returns its length; the whole buffer is accepted unless it needs 128 or
    more fragments.  Memory grows by one block per new segment. *)
Theorem send_stream_bytes k a buf :
  snd_queue_ok k → al_total a → stream k ≠ 0 → Z.of_nat (length buf) < 2 ^ 31 →
  Z.of_nat (length (snd_queue k) + 128) < 2 ^ 31 →
  ∃ r q a', ikcp_send buf (Z.of_nat (length buf)) (World k a) = Ok (r, World (with_queue k q) a') ∧
    bytes_of q = bytes_of (snd_queue k) ++ take (Z.to_nat r) buf ∧
    (r = Z.of_nat (length buf) ∨
     IKCP_WND_RCV ≤ frag_count (mss k) (Z.of_nat (length buf)) ∧ r < Z.of_nat (length buf)) ∧
    snd_queue_ok (with_queue k q) ∧
    al_live a' - Z.of_nat (length q) = al_live a - Z.of_nat (length (snd_queue k)).
Proof.
  intros Hq Ha Hs Hb Hl. destruct (send_stream k a buf Hq Ha Hs Hb Hl) as (r & q & a' & H). exists r, q, a'. tauto.
Qed.

Lemma send_stream_bytes_witness :
  ∃ r q a', ikcp_send [1; 2; 3] 3 (World (kcp_fresh <| stream := 1 |>) al_good)
      = Ok (r, World (with_queue (kcp_fresh <| stream := 1 |>) q) a') ∧ bytes_of q = take (Z.to_nat r) [1; 2; 3].
Proof.
  destruct (send_stream_bytes (kcp_fresh <| stream := 1 |>) al_good [1; 2; 3]) as (r & q & a' & H1 & H2 & _).
  - eapply (snd_queue_ok_ext kcp_fresh); [reflexivity|].
    apply (ki_queue _ _ _ _ _ _ _ (fresh_inv one_message one_message)).
  - auto with ga.
  - discriminate.
  - reflexivity.
  - reflexivity.
  - exists r, q, a'. split; [exact H1|exact H2].
Defined.

(** ** Receiving *)

(** [ikcp_parse_data] keeps [rcv_queue] the in-order prefix of the incoming
    stream, whatever the order of arrival: a segment outside the window or
    already there is freed, others are buffered, everything that became
    contiguous moves to the queue, and the segment [rcv_nxt] waits for always
    advances it when the queue has room. *)
Theorem parse_data_in_order f N k a s :
  rcv_state f N k → seg_ok s →
  (ahead (rcv_nxt k) (seg_sn s) < rcv_wnd k → (∀ t, t ∈ rcv_buf k → seg_sn t ≠ seg_sn s) →
    payload s = f (N + ahead (rcv_nxt k) (seg_sn s))) →
  ∃ k' a' n, ikcp_parse_data s (World k a) = Ok (tt, World k' a') ∧
    0 ≤ n ∧ rcv_state f (N + n) k' ∧ (settled k → settled k') ∧
    (seg_sn s = rcv_nxt k → nrcv_que k < rcv_wnd k → 1 ≤ n) ∧
    al_live a' - blocks k' = al_live a - blocks k - 1.
Proof.
  intros H1 H2 H3. destruct (parse_data_run f N k a s H1 H2 H3) as (k' & a' & n & H). exists k', a', n. tauto.
Qed.

Lemma parse_data_in_order_witness :
  ∃ k' a' n, ikcp_parse_data (arrived 0 [1; 2]) (World kcp_fresh al_good) = Ok (tt, World k' a') ∧
    1 ≤ n ∧ rcv_state one_message (0 + n) k'.
Proof.
  destruct (parse_data_in_order one_message 0 kcp_fresh al_good (arrived 0 [1; 2])) as (k' & a' & n & H1 & _ & H2 & _ & H3 & _).
  - apply (ki_rcv _ _ _ _ _ _ _ (fresh_inv one_message one_message)).
  - apply (bool_decide_unpack _). vm_compute. reflexivity.
  - intros _ _. reflexivity.
  - exists k', a', n. split; [exact H1|]. split; [|exact H2]. apply H3; vm_compute; reflexivity.
Defined.

(** C16. [ikcp_recv] answers -1 on an empty queue, -2 on an incomplete message
    and -3 when the buffer is too small, changing nothing; otherwise it returns
    the bytes of exactly one message, whose length [ikcp_peeksize] announced,
    takes its segments off the queue, frees them, and moves on what the freed
    room allows. *)
Theorem recv_reassembles f N k a len :
  rcv_state f N k → 0 ≤ len < 2 ^ 31 →
  match rcv_queue k with
  | [] => ikcp_recv len (World k a) = Ok ((-1, []), World k a)
  | _ =>
      if ikcp_peeksize k <? 0 then ikcp_recv len (World k a) = Ok ((-2, []), World k a)
      else if len <? ikcp_peeksize k then ikcp_recv len (World k a) = Ok ((-3, []), World k a)
      else ∃ k' a' n, ikcp_recv len (World k a) = Ok ((ikcp_peeksize k, taken k), World k' a') ∧
        ikcp_peeksize k = i32 (Z.of_nat (length (taken k))) ∧ rcv_state f (N + n) k' ∧ settled k' ∧
        0 ≤ n ∧
        N + n - Z.of_nat (length (rcv_queue k')) =
          N - Z.of_nat (length (rcv_queue k)) + Z.of_nat (msg_len (rcv_queue k)) ∧
        al_live a' - blocks k' = al_live a - blocks k
  end.
Proof.
  intros H Hl. pose proof (recv_run f N k a len H Hl) as Hr.
  destruct (rcv_queue k); [done|]. destruct (_ <? 0); [done|]. destruct (_ <? _); [done|].
  destruct Hr as (k' & a' & n & Hr). exists k', a', n. tauto.
Qed.

(** A block with the two-byte message of [one_message] in its receive queue. *)
Definition kcp_rcvd : ikcpcb :=
  match ikcp_parse_data (arrived 0 [1; 2]) (World kcp_fresh al_good) with
  | Ok (_, w) => w_eng w
  | Err _ => kcp_fresh
  end.

Lemma rcvd_state : rcv_state one_message 1 kcp_rcvd.
Proof.
  constructor; try (apply (bool_decide_unpack _); vm_compute; reflexivity).
  replace (rcv_buf kcp_rcvd) with (@nil ikcpseg) by (vm_compute; reflexivity). constructor.
Qed.

Lemma recv_reassembles_witness :
  ∃ k' a', ikcp_recv 100 (World kcp_rcvd al_good) = Ok ((2, [1; 2]), World k' a') ∧ settled k'.
Proof.
  destruct (recv_reassembles one_message 1 kcp_rcvd al_good 100 rcvd_state) as (k' & a' & n & H1 & _ & _ & H2 & _); [lia|].
  exists k', a'. split; [exact H1|exact H2].
Defined.

(** ** Acknowledgements *)

(** [ikcp_parse_una] with a number inside the window, 32-bit wrap-around
    included, acknowledges exactly the segments that precede it. *)
Theorem parse_una_acknowledges f U X k a A :
  snd_state f U X k → U ≤ A ≤ X →
  ∃ acked buf a' al, ikcp_parse_una (u32 A) (World k a) =
      Ok (tt, World (k <| ackedlen := al |> <| snd_buf := buf |> <| nsnd_buf := Z.of_nat (length buf) |>) a') ∧
    snd_buf k = acked ++ buf ∧ tracked f U A acked ∧ tracked f A X buf.
Proof. apply parse_una_exact. Qed.

Lemma parse_una_acknowledges_witness :
  ∃ acked buf a' al, ikcp_parse_una (u32 1) (World kcp_sent al_good) =
      Ok (tt, World (kcp_sent <| ackedlen := al |> <| snd_buf := buf |> <| nsnd_buf := Z.of_nat (length buf) |>) a') ∧
    snd_buf kcp_sent = acked ++ buf ∧ tracked one_message 0 1 acked ∧ tracked one_message 1 1 buf.
Proof. apply (parse_una_acknowledges one_message 0 1 kcp_sent al_good 1 sent_state). lia. Defined.

(** [ikcp_ack_push] appends a pair to the pending acknowledgements, growing
    the array by doubling when it is full; nothing else changes, and the array
    stays the only block the list owns. *)
Theorem ack_push_appends ps k a sn ts :
  ack_rep ps k → al_total a → Z.of_nat (length ps) < 2 ^ 31 →
  ∃ k' a', ikcp_ack_push sn ts (World k a) = Ok (tt, World k' a') ∧
    ack_rep (ps ++ [(sn, ts)]) k' ∧ al_live a' - blocks k' = al_live a - blocks k ∧
    k' = k <| acklist := acklist k' |> <| ackblock := ackblock k' |> <| ackcount := ackcount k' |>.
Proof.
  intros H1 H2 H3. destruct (ack_push_run ps k a sn ts H1 H2 H3) as (k' & a' & H). exists k', a'. tauto.
Qed.

Lemma ack_push_appends_witness :
  ∃ k' a', ikcp_ack_push 4 9 (World kcp_fresh al_good) = Ok (tt, World k' a') ∧ ack_rep [(4, 9)] k'.
Proof.
  destruct (ack_push_appends [] kcp_fresh al_good 4 9) as (k' & a' & H1 & H2 & _);
    [by split|auto with ga|reflexivity|].
  exists k', a'. split; [exact H1|exact H2].
Defined.

(** ** Whole entry points *)

(** C15. While allocations succeed, [ikcp_input] is safe on arbitrary bytes: on
    a control block in its invariant, with fewer than 2^31 pending
    acknowledgements and bytes together, it does not fault, returns 0, -1, -2 or
    -3, keeps the invariant, only advances [snd_una] and [rcv_nxt], and neither
    leaks nor loses a block.  ([input_without_memory] is the failed allocation,
    which does fault.) *)
Theorem input_any_bytes f g U X N ps k a data :
  kcp_inv f g U X N ps k → al_total a → Z.of_nat (length ps + length data) < 2 ^ 31 →
  ∃ r k' a' g' U' N' ps', ikcp_input data (World k a) = Ok (r, World k' a') ∧
    (r = 0 ∨ r = -1 ∨ r = -2 ∨ r = -3) ∧ kcp_inv f g' U' X N' ps' k' ∧ U ≤ U' ∧ N ≤ N' ∧
    al_live a' - blocks k' = al_live a - blocks k ∧ static_view k' = static_view k.
Proof.
  intros H1 H2 H3. destruct (input_safe f g U X N ps k a data H1 H2 H3) as (r & k' & a' & g' & U' & N' & ps' & H).
  exists r, k', a', g', U', N', ps'. tauto.
Qed.

Lemma input_any_bytes_witness :
  ∃ r k' a', ikcp_input (replicate 30 255) (World kcp_fresh al_good) = Ok (r, World k' a') ∧
    (r = 0 ∨ r = -1 ∨ r = -2 ∨ r = -3).
Proof.
  destruct (input_any_bytes one_message one_message 0 0 0 [] kcp_fresh al_good (replicate 30 255)) as
    (r & k' & a' & g' & U' & N' & ps' & H1 & H2 & _); [apply fresh_inv|auto with ga|reflexivity|].
  exists r, k', a'. split; [exact H1|exact H2].
Defined.

(** Without memory [ikcp_input] faults: when the array of acknowledgements
    cannot grow, the assertion of [ikcp_ack_push] fails; when it has room but
    the segment cannot be allocated, the NULL of [ikcp_segment_new] is
    dereferenced. *)
Theorem input_without_memory :
  ikcp_input (ikcp_encode_seg (arrived 0 [1; 2]) ++ [1; 2]) (World kcp_fresh al_none) = Err AssertFail ∧
  ikcp_input (ikcp_encode_seg (arrived 0 [1; 2]) ++ [1; 2])
    (World (kcp_fresh <| acklist := Some (replicate 8 None) |> <| ackblock := 8 |>) al_none) = Err NullDeref.
Proof. split; vm_compute; reflexivity. Qed.

(** C14. [ikcp_flush] sends datagrams of at most [mtu] bytes which are, in order,
    the pending acknowledgements, the window probes and data segments of the
    outgoing stream from between [snd_una] and [snd_nxt]; it numbers queued
    segments only up to the window, and as many as the window allows; the
    pending acknowledgements are cleared, the receive half is untouched and the
    congestion window stays open. *)
Theorem flush_sends f g U X N ps k a :
  kcp_inv f g U X N ps k → output k = true → updated k ≠ 0 → 0 ≤ cwnd k → 0 ≤ snd_wnd k →
  ∃ k' X' groups probes data,
    ikcp_flush (World k a) = Ok (dgram <$> groups, World k' a) ∧
    kcp_inv f g U X' N [] k' ∧ X ≤ X' ∧ X' ≤ Z.max X (U + send_window k) ∧
    (X' < U + send_window k → snd_queue k' = []) ∧
    concat groups = (ack_of (ack_seg k) <$> ps) ++ probes ++ data ∧
    Forall (window_probe k) probes ∧ Forall (transmitted f U X' k) data ∧
    Forall (λ g, g ≠ [] ∧ Z.of_nat (length (dgram g)) ≤ mtu k) groups ∧
    blocks k' = blocks k ∧ rcv_view k' = rcv_view k ∧ 1 ≤ cwnd k'.
Proof.
  intros H1 H2 H3 H4 H5.
  destruct (flush_run f g U X N ps k a H1 H2 H3 H4 H5) as (k' & X' & groups & probes & data & H).
  exists k', X', groups, probes, data. tauto.
Qed.

(** A block with an acknowledgement pending and the message of [one_message]
    queued, its congestion window open. *)
Definition kcp_busy : ikcpcb :=
  match (_ ← ikcp_send [1; 2] 2; _ ← ikcp_ack_push 5 9; mret tt) (World (kcp_fresh <| cwnd := 1 |>) al_good) with
  | Ok (_, w) => w_eng w
  | Err _ => kcp_fresh
  end.

Lemma busy_inv : kcp_inv one_message one_message 0 0 0 [(5, 9)] kcp_busy.
Proof.
  constructor; [constructor|constructor|constructor|split|];
    try (apply (bool_decide_unpack _); vm_compute; reflexivity).
  - replace (snd_buf kcp_busy) with (@nil ikcpseg) by (vm_compute; reflexivity). constructor. lia.
  - replace (rcv_buf kcp_busy) with (@nil ikcpseg) by (vm_compute; reflexivity). constructor.
  - replace (acklist kcp_busy) with (Some (Some (5, 9) :: replicate 7 None)) by (vm_compute; reflexivity).
    split; [vm_compute; reflexivity|]. by eexists.
Qed.

(** Its flush sends the acknowledgement and the message. *)
Lemma flush_sends_witness :
  ∃ k' X' groups probes data, ikcp_flush (World kcp_busy al_good) = Ok (dgram <$> groups, World k' al_good) ∧
    concat groups = [ack_of (ack_seg kcp_busy) (5, 9)] ++ probes ++ data ∧
    Forall (transmitted one_message 0 X' kcp_busy) data ∧
    length (concat (dgram <$> groups)) = 50%nat ∧ snd_nxt k' = 1.
Proof.
  destruct (flush_sends one_message one_message 0 0 0 [(5, 9)] kcp_busy al_good) as
    (k' & X' & groups & probes & data & H1 & _ & _ & _ & _ & H4 & _ & H5 & _);
    [apply busy_inv|reflexivity|discriminate|vm_compute; discriminate|vm_compute; discriminate|].
  exists k', X', groups, probes, data. split; [exact H1|]. split; [exact H4|]. split; [exact H5|].
  assert (fmap (λ r, (length (concat r.1), snd_nxt (w_eng r.2)))
    (match ikcp_flush (World kcp_busy al_good) with Ok r => Some r | Err _ => None end) = Some (50%nat, 1)) as E
    by (vm_compute; reflexivity).
  rewrite H1 in E. injection E as E1 E2. split; [exact E1|exact E2].
Defined.

(** [ikcp_update] flushes exactly when the flush time has come or lies more
    than ten seconds away, and then the next flush is after [current] and at most
    one interval ahead; otherwise it only records the time. *)
Theorem update_schedules now k a :
  0 ≤ now < 2 ^ 32 → 10 ≤ interval k ≤ 5000 → 0 ≤ ts_flush k < 2 ^ 32 →
  ∃ k1, k1 = k <| current := now |> <| updated := updated k1 |> <| ts_flush := ts_flush k1 |> ∧
    updated k1 ≠ 0 ∧
    ((ikcp_update now (World k a) = ikcp_flush (World k1 a) ∧
      0 < _itimediff (ts_flush k1) now ≤ interval k) ∨
     (ikcp_update now (World k a) = Ok ([], World k1 a) ∧ updated k1 = updated k ∧
      ts_flush k1 = ts_flush k ∧ - 10000 ≤ _itimediff now (ts_flush k) < 0)).
Proof.
  intros H1 H2 H3. destruct (update_run now k H1 H2 H3 a) as (k1 & H). exists k1. tauto.
Qed.

Lemma update_schedules_witness :
  ∃ k1, updated k1 ≠ 0 ∧
    (ikcp_update 1000 (World kcp_fresh al_good) = ikcp_flush (World k1 al_good) ∨
     ikcp_update 1000 (World kcp_fresh al_good) = Ok ([], World k1 al_good)).
Proof.
  destruct (update_schedules 1000 kcp_fresh al_good) as (k1 & _ & H1 & H2);
    [lia|apply (bool_decide_unpack _); vm_compute; reflexivity|apply (bool_decide_unpack _); vm_compute; reflexivity|].
  exists k1. split; [exact H1|]. tauto.
Defined.

(** The time [ikcp_check] gives is sound: it is at most one interval ahead,
    and at any earlier time [ikcp_update] flushes nothing and no segment in
    flight has come due. *)
Theorem check_is_sound k a now d :
  0 ≤ now < 2 ^ 32 → 10 ≤ interval k ≤ 5000 → 0 ≤ ts_flush k < 2 ^ 32 →
  0 ≤ d < ahead now (ikcp_check k now) →
  ahead now (ikcp_check k now) ≤ interval k ∧
  ikcp_update (u32 (now + d)) (World k a) = Ok ([], World (k <| current := u32 (now + d) |>) a) ∧
  Forall (λ s, _itimediff (u32 (now + d)) (seg_resendts s) < 0) (snd_buf k).
Proof. apply check_sound. Qed.

Lemma check_is_sound_witness :
  ikcp_update (u32 (60 + 20)) (World kcp_fresh al_good)
    = Ok ([], World (kcp_fresh <| current := u32 (60 + 20) |>) al_good).
Proof.
  apply (check_is_sound kcp_fresh al_good 60 20); apply (bool_decide_unpack _); vm_compute; reflexivity.
Defined.

(** [ikcp_update_ack] keeps the retransmission timeout between [rx_minrto]
    and one minute for every round-trip time, and on ordinary ones it is the
    textbook estimator: the smoothed time moves an eighth of the way, the
    deviation a quarter. *)
Theorem rto_estimator k rtt :
  0 ≤ rx_minrto k ≤ IKCP_RTO_MAX →
  rx_minrto k ≤ rx_rto (ikcp_update_ack k rtt) ≤ IKCP_RTO_MAX ∧
  (0 < rx_srtt k < 2 ^ 24 → 0 ≤ rx_rttval k < 2 ^ 24 → 0 ≤ rtt < 2 ^ 24 →
   rx_srtt (ikcp_update_ack k rtt) = Z.max 1 ((7 * rx_srtt k + rtt) / 8) ∧
   rx_rttval (ikcp_update_ack k rtt) = (3 * rx_rttval k + Z.abs (rtt - rx_srtt k)) / 4).
Proof. intros H. split; [by apply update_ack_rto|apply update_ack_estimator]. Qed.

Lemma rto_estimator_witness :
  rx_minrto kcp_fresh ≤ rx_rto (ikcp_update_ack kcp_fresh 300) ≤ IKCP_RTO_MAX.
Proof. apply (rto_estimator kcp_fresh 300). apply (bool_decide_unpack _). vm_compute. reflexivity. Defined.

(** C30. While allocations succeed a whole session is clean: [ikcp_create], any
    sequence of the calls that change a control block ([ikcp_send], [ikcp_recv]
    with any length, peeking included, [ikcp_input] of arbitrary bytes,
    [ikcp_update], [ikcp_flush], [ikcp_nodelay], [ikcp_wndsize],
    [ikcp_interval], [ikcp_setmtu], setting [stream]) with arguments in the
    range of their types, and [ikcp_release] run without a fault and give back
    every block.  It assumes that no length is INT_MIN, that no accepted
    [ikcp_setmtu] lowers the MTU ([lower_mtu_overflows] shows why) or sets it to
    2^30 or more, and that the input bytes and 128 per
    [ikcp_send] add up to less than 2^31. *)
Theorem session_clean c calls a :
  al_total a → calls_ok IKCP_MTU_DEF calls → total_cost calls < 2 ^ 31 →
  ∃ a', run_session c calls a = Ok a' ∧ al_live a' = al_live a.
Proof. apply run_session_clean. Qed.

(** Every kind of call; the datagrams are noise and a message of the peer. *)
Definition all_calls : list call :=
  [CNodelay 1 10 2 1; CInterval 20; CWndsize 64 256; CUpdate 1; CSend [1; 2; 3]; CSetmtu 20; CSetmtu 1500; CFlush;
   CInput (replicate 40 7); CInput (ikcp_encode_seg (arrived 0 [1; 2]) ++ [1; 2]); CUpdate 20; CRecv (-10); CRecv 10;
   CStream 1; CSend [4; 5]; CSend [6]; CFlush].

Lemma session_clean_witness :
  ∃ a', run_session 7 all_calls al_good = Ok a' ∧ al_live a' = 0.
Proof.
  apply (session_clean 7 all_calls al_good).
  - auto with ga.
  - apply (bool_decide_unpack _). vm_compute. reflexivity.
  - reflexivity.
Defined.

(** Lowering the MTU under a queued segment is a buffer overflow: the segment
    of 1376 bytes was cut for the old MTU, [ikcp_setmtu] replaces the buffer by
    one of (50 + 24) * 3 bytes, and the next [ikcp_flush] copies the segment
    into it. *)
Theorem lower_mtu_overflows :
  run_session 7 [CNodelay 1 10 2 1; CUpdate 1; CSend (replicate 1376 0); CSetmtu 50; CFlush] al_good = Err OutOfBounds.
Proof. vm_compute. reflexivity. Qed.

(** ** Two ends *)

(** Out of order, with a repetition: datagram 1 of the first end arrives at the
    second before datagram 0, and again after it. *)
Definition exchange : list (bool * act) :=
  [(true, ANodelay 1 10 2 1); (false, ANodelay 1 10 2 1); (true, ASend [1; 2; 3]); (true, ASend [4]);
   (true, AUpdate 0); (true, ASend [5; 6]); (true, AFlush); (false, AInput 1); (false, AInput 0);
   (false, AInput 1); (false, ARecv (-100)); (false, ARecv 100); (false, AInterval 20); (false, AUpdate 0);
   (true, AInput 0)].

(** C5. KCP delivers messages in order, whole and once, over a network that
    loses, repeats and reorders.  Two ends of one conversation, in message mode
    with the default MTU as the gateway and the clients use it, make the calls
    of [act] ([ikcp_send], [ikcp_recv] and its peek, [ikcp_update],
    [ikcp_flush], [ikcp_nodelay], [ikcp_wndsize], [ikcp_interval]) in any
    interleaving, and at any time any datagram that was ever sent arrives at the
    other end's [ikcp_input].  Assuming every allocation succeeds, arguments are
    in range, and 128 per send and 64 per arrival add up to less than 2^31: no
    call faults; the messages [ikcp_recv] has returned at one end are the first
    ones [ikcp_send] accepted at the other, in both directions; and each end
    owns exactly the blocks of its control block.  ([ikcp_setmtu] and streaming
    mode are not among these calls.) *)
Theorem kcp_delivers_in_order c a1 a2 l :
  al_total a1 → al_total a2 → 0 ≤ c < 2 ^ 32 → Forall (λ x, act_ok x.2) l → acts_cost l < 2 ^ 31 →
  ∃ p q, run_link c a1 a2 l = Ok (p, q) ∧
    p_got q `prefix_of` p_sent p ∧ p_got p `prefix_of` p_sent q ∧
    owns (al_live a1) (p_world p) ∧ owns (al_live a2) (p_world q).
Proof.
  intros H1 H2 H3 H4 H5. destruct (run_link_inv c a1 a2 l H1 H2 H3 H4 H5) as
    ([p q] & Hrun & (? & ? & ? & Hp) & (? & ? & ? & Hq) & _). cbn [fst snd] in *.
  exists p, q. split; [exact Hrun|]. destruct Hp, Hq. auto.
Qed.

Lemma kcp_delivers_in_order_witness :
  ∃ p q, run_link 7 al_good al_good exchange = Ok (p, q) ∧ p_got q `prefix_of` p_sent p ∧
    p_sent p = [[1; 2; 3]; [4]; [5; 6]] ∧ p_got q = [[1; 2; 3]].
Proof.
  destruct (kcp_delivers_in_order 7 al_good al_good exchange) as (p & q & Hrun & Hpre & _).
  - auto with ga.
  - auto with ga.
  - lia.
  - apply (bool_decide_unpack _). vm_compute. reflexivity.
  - reflexivity.
  - exists p, q. split; [exact Hrun|]. split; [exact Hpre|].
    assert (fmap (λ s, (p_sent s.1, p_got s.2)) (match run_link 7 al_good al_good exchange with Ok s => Some s | Err _ => None end)
      = Some ([[1; 2; 3]; [4]; [5; 6]], [[1; 2; 3]])) as E by (vm_compute; reflexivity).
    rewrite Hrun in E. injection E as E1 E2. split; [exact E1|exact E2].
Defined.

(** C9. KCP loses nothing it has not delivered.  In the runs and under the
    assumptions of [kcp_delivers_in_order] (message mode, default MTU, the calls
    of [act], every allocation succeeds, bounded cost): every segment one end
    has numbered has arrived in the other's [ikcp_input] or is still in its send
    buffer, so what was lost before [ikcp_input], in a full socket buffer for
    instance, is not released by any acknowledgement; and when
    [ikcp_waitsnd] of that end is 0, every byte of every message it accepted is
    at the other end: first the messages its user received, then the bytes of
    the receive queue, then those of the receive buffer, in order. *)
Theorem kcp_loses_nothing c a1 a2 l p q :
  al_total a1 → al_total a2 → 0 ≤ c < 2 ^ 32 → Forall (λ x, act_ok x.2) l → acts_cost l < 2 ^ 31 →
  run_link c a1 a2 l = Ok (p, q) →
  covered p q ∧
  (ikcp_waitsnd (p_kcp p) = 0 →
   concat (p_sent p) = concat (p_got q) ++ bytes_of (rcv_queue (p_kcp q)) ++ bytes_of (rcv_buf (p_kcp q))).
Proof.
  intros H1 H2 H3 H4 H5 Hrun. destruct (run_link_inv c a1 a2 l H1 H2 H3 H4 H5) as (s & Hrun' & Hp & Hq & Hc & _).
  rewrite Hrun in Hrun'. injection Hrun' as <-. split; [exact Hc|]. intros Hw. by eapply all_arrived.
Qed.

Lemma kcp_loses_nothing_witness :
  ∃ p q, run_link 7 al_good al_good exchange = Ok (p, q) ∧
    [1; 2; 3; 4; 5; 6] = [1; 2; 3] ++ bytes_of (rcv_queue (p_kcp q)) ++ bytes_of (rcv_buf (p_kcp q)).
Proof.
  destruct (run_link 7 al_good al_good exchange) as [[p q]|e] eqn:Hrun; [|vm_compute in Hrun; discriminate].
  exists p, q. split; [reflexivity|].
  pose proof (kcp_loses_nothing 7 al_good al_good exchange p q) as H.
  assert (fmap (λ s, (p_sent s.1, p_got s.2, ikcp_waitsnd (p_kcp s.1)))
    (match run_link 7 al_good al_good exchange with Ok s => Some s | Err _ => None end)
    = Some ([[1; 2; 3]; [4]; [5; 6]], [[1; 2; 3]], 0)) as E by (vm_compute; reflexivity).
  rewrite Hrun in E. injection E as E1 E2 E3. rewrite E1, E2 in H.
  apply H; [auto with ga|auto with ga|lia|apply (bool_decide_unpack _); vm_compute; reflexivity|reflexivity|exact Hrun|exact E3].
Defined.
