(* ===== verification/Tunnel.v ===== *)
(** * The tunnel protocol and the address helpers
    (src/common/tunnel_protocol.h, src/common/net_utils.cpp)

    Packets are byte buffers.  Writing or reading outside a buffer is a fault,
    so that what the packers assume about their callers is visible. *)

From S2P Require Import Prelude CRuntime Decimal.

(** ** Buffers *)

(** [memcpy] out of [buf], and into it. *)
Definition load (buf : list Z) (off n : nat) : result (list Z) :=
  if bool_decide (off + n ≤ length buf)%nat then Ok (take n (drop off buf)) else Err OutOfBounds.

Definition store (buf : list Z) (off : nat) (bytes : list Z) : result (list Z) :=
  if bool_decide (off + length bytes ≤ length buf)%nat
  then Ok (take off buf ++ bytes ++ drop (off + length bytes) buf) else Err OutOfBounds.

(** [buf[i]] *)
Definition byte_at (buf : list Z) (i : nat) : result Z :=
  match buf !! i with Some b => Ok b | None => Err OutOfBounds end.

(** [htons], [htonl] and back, as the bytes in memory. *)
Definition be16 (v : Z) : list Z := [v / 256 mod 256; v mod 256].
Definition be32 (v : Z) : list Z :=
  [v / 2 ^ 24 mod 256; v / 2 ^ 16 mod 256; v / 2 ^ 8 mod 256; v mod 256].
Definition of_be (bytes : list Z) : Z := foldl (λ acc b, acc * 256 + b) 0 bytes.

(** ** Packets *)

(* src/common/tunnel_protocol.h:14-14 PACKET_CONNECT *)
Definition PACKET_CONNECT : Z := 1.
(* src/common/tunnel_protocol.h:15-15 PACKET_DATA *)
Definition PACKET_DATA : Z := 2.
(* src/common/tunnel_protocol.h:16-16 PACKET_CLOSE *)
Definition PACKET_CLOSE : Z := 3.
(* src/common/tunnel_protocol.h:17-17 PACKET_REGISTER *)
Definition PACKET_REGISTER : Z := 4.
(* src/common/tunnel_protocol.h:18-18 PACKET_REGISTERED *)
Definition PACKET_REGISTERED : Z := 5.

(* src/common/tunnel_protocol.h:21-21 HEAD_LEN *)
Definition HEAD_LEN : Z := 1.
(* src/common/tunnel_protocol.h:22-22 CONNECT_HEAD_LEN *)
Definition CONNECT_HEAD_LEN : Z := 2.
(* src/common/tunnel_protocol.h:23-23 DATA_HEAD_LEN *)
Definition DATA_HEAD_LEN : Z := 3.
(* src/common/tunnel_protocol.h:24-24 ROUTE_MAX *)
Definition ROUTE_MAX : Z := 255.

(* src/common/tunnel_protocol.h:26-31 pack_connect *)
Definition pack_connect (out route : list Z) (route_len : Z) : result (Z * list Z) :=
  out ← store out 0 [PACKET_CONNECT];
  out ← store out 1 [route_len];
  r ← load route 0 (Z.to_nat route_len);
  out ← store out (Z.to_nat CONNECT_HEAD_LEN) r;
  mret (CONNECT_HEAD_LEN + route_len, out).

(* src/common/tunnel_protocol.h:33-39 pack_data *)
Definition pack_data (out data : list Z) (len : Z) : result (Z * list Z) :=
  out ← store out 0 [PACKET_DATA];
  out ← store out 1 (be16 len);
  d ← load data 0 (Z.to_nat len);
  out ← store out (Z.to_nat DATA_HEAD_LEN) d;
  mret (DATA_HEAD_LEN + len, out).

(* src/common/tunnel_protocol.h:41-44 pack_close *)
Definition pack_close (out : list Z) : result (Z * list Z) :=
  out ← store out 0 [PACKET_CLOSE]; mret (HEAD_LEN, out).

(* src/common/tunnel_protocol.h:46-49 pack_register *)
Definition pack_register (out : list Z) : result (Z * list Z) :=
  out ← store out 0 [PACKET_REGISTER]; mret (1, out).

(* src/common/tunnel_protocol.h:51-56 pack_registered *)
Definition pack_registered (out : list Z) (conv : Z) : result (Z * list Z) :=
  out ← store out 0 [PACKET_REGISTERED];
  out ← store out 1 (be32 conv);
  mret (1 + 4, out).

(* src/common/tunnel_protocol.h:58-64 read_registered *)
Definition read_registered (buf : list Z) (n : Z) : result (option Z) :=
  if n <? 1 + 4 then mret None else
  t ← byte_at buf 0;
  if negb (t =? PACKET_REGISTERED) then mret None else
  c ← load buf 1 4;
  mret (Some (of_be c)).

(* src/common/tunnel_protocol.h:67-85 parse *)
(** Type, offset of the data if there is any, and its length; [None] when the
    source returns false. *)
Definition parse (buf : list Z) (n : Z) : result (option (Z * option nat * Z)) :=
  if n <? HEAD_LEN then mret None else
  type ← byte_at buf 0;
  if type =? PACKET_DATA then
    if n <? DATA_HEAD_LEN then mret None else
    l ← load buf 1 2;
    let len := of_be l in
    if n <? DATA_HEAD_LEN + len then mret None else
    mret (Some (type, Some (Z.to_nat DATA_HEAD_LEN), len))
  else if type =? PACKET_CONNECT then
    if n <? CONNECT_HEAD_LEN then mret None else
    rl ← byte_at buf 1;
    if n <? CONNECT_HEAD_LEN + rl then mret None else mret (Some (type, None, 0))
  else mret (Some (type, None, 0)).

(* src/common/tunnel_protocol.h:87-93 read_connect_route *)
(** The returned length and what [out] holds from its start, NUL included. *)
Definition read_connect_route (buf : list Z) (cap : Z) : result (Z * list Z) :=
  b ← byte_at buf 1;
  let rl := if cap <=? b then cap - 1 else b in
  r ← load buf (Z.to_nat CONNECT_HEAD_LEN) (Z.to_nat rl);
  mret (rl, r ++ [0]).

(** ** Addresses *)

(** An IPv4 endpoint, in host byte order. *)
Record sockaddr_in := SockAddr { sin_addr : Z; sin_port : Z }.

#[global] Instance sockaddr_eq_dec : EqDecision sockaddr_in.
Proof. solve_decision. Defined.

(* src/common/net_utils.cpp:17-19 same_addr *)
Definition same_addr (a b : sockaddr_in) : bool :=
  (sin_addr a =? sin_addr b) && (sin_port a =? sin_port b).

(* src/common/net_utils.cpp:15-15 now32 *)
(** Of a reading of [now_ms]. *)
Definition now32 (ms : Z) : Z := u32 ms.

(** A [std::string] passed as a [char *]. *)
Fixpoint c_str (s : list Z) : cstr :=
  match s with
  | [] => []
  | b :: s' => if b =? 0 then [] else b :: c_str s'
  end.

(** [s.rfind(c)] *)
Fixpoint rfind (c : Z) (s : list Z) : option nat :=
  match s with
  | [] => None
  | b :: s' => match rfind c s' with
               | Some i => Some (S i)
               | None => if b =? c then Some 0%nat else None
               end
  end.

(** [inet_pton(AF_INET, ...)]: four decimal numbers up to 255 without leading
    zeros, separated by dots.  [tp] is the number being read, [done] the ones
    before it, [octets] how many were begun. *)
Fixpoint pton (src : cstr) (saw_digit : bool) (octets : nat) (done : list Z) (tp : Z) : option (list Z) :=
  match src with
  | [] => if (octets <? 4)%nat then None else Some (done ++ [tp])
  | ch :: src' =>
      if is_digit ch then
        let new := tp * 10 + (ch - 48) in
        if saw_digit && (tp =? 0) then None
        else if 255 <? new then None
        else if saw_digit then pton src' true octets done new
        else if (4 <? S octets)%nat then None else pton src' true (S octets) done new
      else if (ch =? 46) && saw_digit then
        if (octets =? 4)%nat then None else pton src' false octets (done ++ [tp]) 0
      else None
  end.

Definition inet_pton (ip : cstr) : option Z := of_be <$> pton ip false 0 [] 0.

(* src/common/net_utils.cpp:25-34 node_to_addr *)
(** [None] when the source returns false: [out] is not relied on then. *)
Definition node_to_addr (node : list Z) : option sockaddr_in :=
  match rfind 58 node with
  | None => None
  | Some colon =>
      let ip := take colon node in
      let port := u16 (strtoul (c_str (drop (S colon) node))) in
      match inet_pton (c_str ip) with
      | Some a => Some (SockAddr a port)
      | None => None
      end
  end.

(** ** Facts about buffers *)

Lemma load_run buf off n : (off + n ≤ length buf)%nat → load buf off n = Ok (take n (drop off buf)).
Proof. intros H. unfold load. by rewrite bool_decide_eq_true_2. Qed.

Lemma load_oob buf off n : (length buf < off + n)%nat → load buf off n = Err OutOfBounds.
Proof. intros H. unfold load. rewrite bool_decide_eq_false_2; [done|lia]. Qed.

Lemma load_app pre mid rest off n :
  off = length pre → n = length mid → load (pre ++ mid ++ rest) off n = Ok mid.
Proof.
  intros -> ->. rewrite load_run by (rewrite !length_app; lia). by rewrite drop_app_length, take_app_length.
Qed.

Lemma load_two t x y buf : load (t :: x :: y :: buf) 1 2 = Ok [x; y].
Proof. rewrite load_run by (cbn [length]; lia). done. Qed.

Lemma store_run pre rest bytes :
  (length bytes ≤ length rest)%nat →
  store (pre ++ rest) (length pre) bytes = Ok (pre ++ bytes ++ drop (length bytes) rest).
Proof.
  intros H. unfold store. rewrite length_app, bool_decide_eq_true_2 by lia.
  by rewrite take_app_length, drop_app_add.
Qed.

Lemma store_oob buf off bytes : (length buf < off + length bytes)%nat → store buf off bytes = Err OutOfBounds.
Proof. intros H. unfold store. rewrite bool_decide_eq_false_2; [done|lia]. Qed.

Lemma store_length buf off bytes buf' : store buf off bytes = Ok buf' → length buf' = length buf.
Proof.
  unfold store. case_bool_decide; [|done]. intros [= <-].
  rewrite !length_app, length_take, length_drop. lia.
Qed.

Lemma of_be16 v : 0 ≤ v < 65536 → of_be (be16 v) = v.
Proof. intros H. unfold of_be, be16. cbn [foldl]. dlia. Qed.

Lemma of_be32 v : 0 ≤ v < 2 ^ 32 → of_be (be32 v) = v.
Proof. intros H. unfold of_be, be32. cbn [foldl]. dlia. Qed.

Lemma of_be16_range a b : 0 ≤ a < 256 → 0 ≤ b < 256 → 0 ≤ of_be [a; b] < 65536.
Proof. unfold of_be. cbn [foldl]. lia. Qed.

(** ** Packers *)

Lemma pack_data_run out data len :
  0 ≤ len ≤ Z.of_nat (length data) → 3 + len ≤ Z.of_nat (length out) →
  pack_data out data len =
    Ok (3 + len, PACKET_DATA :: be16 len ++ take (Z.to_nat len) data ++ drop (Z.to_nat (3 + len)) out).
Proof.
  intros Hl Ho. destruct out as [|x0 [|x1 [|x2 out]]]; cbn [length] in Ho; try lia.
  unfold pack_data. change (store (x0 :: x1 :: x2 :: out) 0 [PACKET_DATA])
    with (Ok (PACKET_DATA :: x1 :: x2 :: out)). cbn [mbind result_bind].
  rewrite (store_run [PACKET_DATA] (x1 :: x2 :: out)) by (simpl; lia). cbn [mbind result_bind].
  rewrite load_run, drop_0 by lia. cbn [mbind result_bind skipn length be16].
  rewrite (store_run (PACKET_DATA :: be16 len) out) by (rewrite length_take; lia). cbn [mbind result_bind].
  rewrite length_take, Nat.min_l by lia. unfold mret, result_ret, DATA_HEAD_LEN.
  replace (Z.to_nat (3 + len)) with (S (S (S (Z.to_nat len)))) by lia. done.
Qed.

(** A packet that does not fit is written past the end of its buffer. *)
Lemma pack_data_overflow out data len :
  0 ≤ len ≤ Z.of_nat (length data) → 3 ≤ Z.of_nat (length out) < 3 + len →
  pack_data out data len = Err OutOfBounds.
Proof.
  intros Hl Ho. destruct out as [|x0 [|x1 [|x2 out]]]; cbn [length] in Ho; try lia.
  unfold pack_data. change (store (x0 :: x1 :: x2 :: out) 0 [PACKET_DATA])
    with (Ok (PACKET_DATA :: x1 :: x2 :: out)). cbn [mbind result_bind].
  rewrite (store_run [PACKET_DATA] (x1 :: x2 :: out)) by (simpl; lia). cbn [mbind result_bind].
  rewrite load_run, drop_0 by lia. cbn [mbind result_bind skipn length be16].
  rewrite store_oob; [done|]. rewrite length_take. cbn [app length be16 skipn]. rewrite drop_0. unfold DATA_HEAD_LEN. lia.
Qed.

(** A packet that was packed. *)
Lemma pack_data_inv out data len sz buf :
  0 ≤ len ≤ Z.of_nat (length data) → pack_data out data len = Ok (sz, buf) →
  sz = 3 + len ∧ take (Z.to_nat sz) buf = PACKET_DATA :: be16 len ++ take (Z.to_nat len) data.
Proof.
  intros Hl. destruct (decide (3 + len ≤ Z.of_nat (length out))) as [Ho|Ho].
  - rewrite pack_data_run by done. intros [= <- <-]. split; [done|].
    replace (Z.to_nat (3 + len)) with (S (S (S (Z.to_nat len)))) by lia. cbn [firstn be16 app]. do 3 f_equal.
    rewrite take_app_length'; [done|]. rewrite length_take. lia.
  - destruct out as [|x0 [|x1 [|x2 out]]]; [done..|]. rewrite pack_data_overflow; [done|done|cbn [length] in *; lia].
Qed.

Lemma pack_connect_run out route len :
  0 ≤ len ≤ Z.of_nat (length route) → 2 + len ≤ Z.of_nat (length out) →
  pack_connect out route len =
    Ok (2 + len, PACKET_CONNECT :: len :: take (Z.to_nat len) route ++ drop (Z.to_nat (2 + len)) out).
Proof.
  intros Hl Ho. destruct out as [|x0 [|x1 out]]; cbn [length] in Ho; try lia.
  unfold pack_connect. change (store (x0 :: x1 :: out) 0 [PACKET_CONNECT])
    with (Ok (PACKET_CONNECT :: x1 :: out)). cbn [mbind result_bind].
  rewrite (store_run [PACKET_CONNECT] (x1 :: out)) by (simpl; lia). cbn [mbind result_bind].
  rewrite load_run, drop_0 by lia. cbn [mbind result_bind skipn length app].
  rewrite (store_run [PACKET_CONNECT; len] out) by (rewrite length_take; lia). cbn [mbind result_bind].
  rewrite length_take, Nat.min_l by lia. unfold mret, result_ret, CONNECT_HEAD_LEN.
  replace (Z.to_nat (2 + len)) with (S (S (Z.to_nat len))) by lia. done.
Qed.

Lemma pack_registered_run out c :
  (5 ≤ length out)%nat → pack_registered out c = Ok (5, PACKET_REGISTERED :: be32 c ++ drop 5 out).
Proof. intros H. destruct out as [|x0 [|x1 [|x2 [|x3 [|x4 out]]]]]; cbn [length] in H; try lia. done. Qed.

(** ** The parser *)

(** It never reads outside the packet, and the data it points at lies inside. *)
Lemma parse_total buf n :
  0 ≤ n ≤ Z.of_nat (length buf) →
  ∃ r, parse buf n = Ok r ∧
    match r with
    | None => True
    | Some (t, d, len) =>
        buf !! 0%nat = Some t ∧
        ((t = PACKET_DATA ∧ d = Some 3%nat ∧ 3 ≤ n ∧ 3 + len ≤ n ∧
          ∃ x y, buf !! 1%nat = Some x ∧ buf !! 2%nat = Some y ∧ len = of_be [x; y]) ∨
         (t ≠ PACKET_DATA ∧ d = None ∧ len = 0 ∧
          (t = PACKET_CONNECT → ∃ rl, buf !! 1%nat = Some rl ∧ 2 + rl ≤ n)))
    end.
Proof.
  intros Hn. unfold parse, HEAD_LEN, DATA_HEAD_LEN, CONNECT_HEAD_LEN.
  destruct (n <? 1) eqn:E1; b2p; [by exists None|].
  destruct buf as [|t buf]; cbn [length] in Hn; [lia|]. cbn [byte_at lookup list_lookup mbind result_bind].
  destruct (t =? PACKET_DATA) eqn:Et; b2p.
  - destruct (n <? 3) eqn:E3; b2p; [by exists None|].
    destruct buf as [|x [|y buf]]; cbn [length] in Hn; try lia. rewrite load_two. cbn [mbind result_bind]. cbv zeta.
    destruct (n <? 3 + of_be [x; y]) eqn:E; b2p; [by exists None|].
    eexists. split; [done|]. cbn. split; [done|]. left. split_and!; try done. by exists x, y.
  - destruct (t =? PACKET_CONNECT) eqn:Ec; b2p.
    + destruct (n <? 2) eqn:E3; b2p; [by exists None|].
      destruct buf as [|rl buf]; cbn [length] in Hn; [lia|].
      cbn [byte_at lookup list_lookup mbind result_bind].
      destruct (n <? 2 + rl) eqn:E; b2p; [by exists None|].
      eexists. split; [done|]. cbn. split; [done|]. right. split_and!; try done. by exists rl.
    + eexists. split; [done|]. cbn. split; [done|]. right. by split_and!.
Qed.

Lemma read_route_total buf n :
  0 ≤ n ≤ Z.of_nat (length buf) → (∃ rl, buf !! 1%nat = Some rl ∧ 2 + rl ≤ n) →
  ∃ r, read_connect_route buf (ROUTE_MAX + 1) = Ok r.
Proof.
  intros Hn (rl & Hrl & Hle). unfold read_connect_route, byte_at. rewrite Hrl. cbn [mbind result_bind]. cbv zeta.
  apply lookup_lt_Some in Hrl as Hlt.
  rewrite load_run; [by eexists|]. unfold ROUTE_MAX, CONNECT_HEAD_LEN. destruct (_ <=? rl) eqn:E; b2p; lia.
Qed.

(** What a packer wrote is what the parser finds. *)
Lemma parse_pack_data data rest len :
  0 ≤ len < 65536 → Z.of_nat (length data) = len →
  parse (PACKET_DATA :: be16 len ++ data ++ rest) (3 + len) = Ok (Some (PACKET_DATA, Some 3%nat, len)) ∧
  load (PACKET_DATA :: be16 len ++ data ++ rest) 3 (Z.to_nat len) = Ok data.
Proof.
  intros Hl Hd. split.
  - unfold parse, HEAD_LEN, DATA_HEAD_LEN. destruct (3 + len <? 1) eqn:E1; b2p; [lia|].
    cbn [byte_at lookup list_lookup mbind result_bind Z.eqb PACKET_DATA Pos.eqb].
    destruct (3 + len <? 3) eqn:E2; b2p; [lia|].
    cbn [be16 app]. rewrite load_two. cbn [mbind result_bind]. fold (be16 len). rewrite of_be16 by lia. cbv zeta.
    destruct (3 + len <? 3 + len) eqn:E3; b2p; [lia|done].
  - apply (load_app (PACKET_DATA :: be16 len)); [done|lia].
Qed.

Lemma parse_pack_connect route rest len :
  0 ≤ len < 256 → Z.of_nat (length route) = len →
  parse (PACKET_CONNECT :: len :: route ++ rest) (2 + len) = Ok (Some (PACKET_CONNECT, None, 0)) ∧
  read_connect_route (PACKET_CONNECT :: len :: route ++ rest) (ROUTE_MAX + 1) = Ok (len, route ++ [0]).
Proof.
  intros Hl Hd. split.
  - unfold parse, HEAD_LEN, CONNECT_HEAD_LEN. destruct (2 + len <? 1) eqn:E1; b2p; [lia|].
    cbn [byte_at lookup list_lookup mbind result_bind Z.eqb PACKET_DATA PACKET_CONNECT Pos.eqb].
    destruct (2 + len <? 2) eqn:E2; b2p; [lia|]. destruct (2 + len <? 2 + len) eqn:E3; b2p; [lia|done].
  - unfold read_connect_route, ROUTE_MAX, CONNECT_HEAD_LEN.
    cbn [byte_at lookup list_lookup mbind result_bind]. cbv zeta.
    destruct (255 + 1 <=? len) eqn:E; b2p; [lia|].
    change (PACKET_CONNECT :: len :: route ++ rest) with ([PACKET_CONNECT; len] ++ route ++ rest).
    by rewrite load_app by (done || lia).
Qed.

Lemma read_pack_registered c rest :
  0 ≤ c < 2 ^ 32 → read_registered (PACKET_REGISTERED :: be32 c ++ rest) 5 = Ok (Some c).
Proof.
  intros Hc. unfold read_registered. change (5 <? 1 + 4) with false. cbn [byte_at lookup list_lookup mbind result_bind].
  change (negb (PACKET_REGISTERED =? PACKET_REGISTERED)) with false. cbn iota.
  change (PACKET_REGISTERED :: be32 c ++ rest) with ([PACKET_REGISTERED] ++ be32 c ++ rest).
  rewrite load_app by done. cbn [mbind result_bind]. by rewrite of_be32.
Qed.

Lemma c_str_ok s : Forall (λ b, b ≠ 0) s → ∀ rest, c_str (s ++ 0 :: rest) = s.
Proof.
  induction 1 as [|b s Hb Hs IH]; intros rest; simpl; [done|].
  rewrite (proj2 (Z.eqb_neq b 0)) by done. by rewrite IH.
Qed.

Lemma same_addr_eq a b : same_addr a b = true ↔ a = b.
Proof.
  unfold same_addr. destruct a as [x p], b as [y q]. cbn [sin_addr sin_port]. split.
  - intros H. b2p. by subst.
  - intros [= -> ->]. by rewrite !Z.eqb_refl.
Qed.

(** ** Printed addresses are read back *)

(** [a.b.c.d:port] *)
Definition show_node (a b c d port : Z) : cstr :=
  show_dec a ++ 46 :: show_dec b ++ 46 :: show_dec c ++ 46 :: show_dec d ++ 58 :: show_dec port.

Definition octet_digits (a : Z) : cstr :=
  if a <? 10 then [48 + a]
  else if a <? 100 then [48 + a / 10; 48 + a mod 10]
  else [48 + a / 100; 48 + a / 10 mod 10; 48 + a mod 10].

Lemma show_octet a : 0 ≤ a < 256 → show_dec a = octet_digits a.
Proof.
  intros Ha.
  assert (forallb (λ x, bool_decide (show_dec x = octet_digits x)) (seqZ 0 256) = true) as H
    by (vm_compute; reflexivity).
  rewrite forallb_forall in H. specialize (H a). rewrite <- list_elem_of_In, elem_of_seqZ in H.
  eapply bool_decide_eq_true_1, H. lia.
Qed.

(** One more digit of an octet. *)
Lemma pton_digit x rest saw k done' tp :
  0 ≤ x < 10 → (saw = true → 0 < tp) → (saw = false → (k < 4)%nat ∧ tp = 0) → 0 ≤ tp → tp * 10 + x ≤ 255 →
  pton (48 + x :: rest) saw k done' tp = pton rest true (if saw then k else S k) done' (tp * 10 + x).
Proof.
  intros Hx Hs1 Hs2 Htp Hv. cbn [pton]. rewrite is_digit_dec by done. cbv zeta.
  replace (tp * 10 + (48 + x - 48)) with (tp * 10 + x) by lia.
  rewrite (proj2 (Z.ltb_ge _ _) Hv). destruct saw; cbn [andb].
  - destruct (tp =? 0) eqn:E; b2p; [|done]. specialize (Hs1 eq_refl). lia.
  - destruct Hs2 as [Hk _]; [done|]. destruct (4 <? S k)%nat eqn:E; [|done]. apply Nat.ltb_lt in E. lia.
Qed.

(** Reading one octet, whatever follows it. *)
Lemma pton_octet a rest k done' :
  0 ≤ a < 256 → (k < 4)%nat →
  pton (show_dec a ++ rest) false k done' 0 = pton rest true (S k) done' a.
Proof.
  intros Ha Hk. rewrite show_octet by done. unfold octet_digits.
  destruct (a <? 10) eqn:E1; b2p; [|destruct (a <? 100) eqn:E2; b2p]; cbn [app].
  - rewrite pton_digit by (done || lia). f_equal.
  - rewrite !pton_digit by (done || dlia). f_equal. dlia.
  - rewrite !pton_digit by (done || dlia). f_equal. dlia.
Qed.

Lemma pton_dot rest k done' tp :
  (k < 4)%nat → pton (46 :: rest) true k done' tp = pton rest false k (done' ++ [tp]) 0.
Proof. intros Hk. cbn [pton is_digit]. cbn. destruct (k =? 4)%nat eqn:E; [apply Nat.eqb_eq in E; lia|done]. Qed.

Lemma inet_pton_show a b c d :
  0 ≤ a < 256 → 0 ≤ b < 256 → 0 ≤ c < 256 → 0 ≤ d < 256 →
  inet_pton (show_dec a ++ 46 :: show_dec b ++ 46 :: show_dec c ++ 46 :: show_dec d) = Some (of_be [a; b; c; d]).
Proof.
  intros Ha Hb Hc Hd. unfold inet_pton. rewrite <- (app_nil_r (show_dec d)).
  do 3 (rewrite pton_octet, pton_dot by (done || lia)). by rewrite pton_octet by (done || lia).
Qed.

(** The decimal digits of a port number. *)
Lemma show_port p : 0 ≤ p < 65536 → strtoul (show_dec p) = p.
Proof.
  intros Hp. unfold strtoul. destruct (show_dec_nonempty p) as (b & s & E & Hb). unfold digit in Hb.
  assert (skip_spaces (show_dec p) = show_dec p) as ->.
  { rewrite E. simpl. unfold is_space. destruct (_ || _) eqn:Es; [|done].
    apply orb_true_iff in Es as [Es|Es]; b2p; lia. }
  rewrite E. rewrite (proj2 (Z.eqb_neq b 45)), (proj2 (Z.eqb_neq b 43)) by lia. cbn [orb]. rewrite <- E.
  rewrite show_dec_value by lia. destruct (2 ^ 64 <=? p) eqn:E2; b2p; [lia|done].
Qed.

Lemma digit_c_str s : Forall digit s → c_str s = s ∧ rfind 58 s = None.
Proof.
  unfold digit. induction 1 as [|b s Hb Hs [IH1 IH2]]; [done|]. simpl.
  rewrite (proj2 (Z.eqb_neq b 0)), IH1, IH2, (proj2 (Z.eqb_neq b 58)) by lia. done.
Qed.

Lemma rfind_last s t : rfind 58 t = None → rfind 58 (s ++ 58 :: t) = Some (length s).
Proof. intros Ht. induction s as [|b s IH]; simpl; [by rewrite Ht|by rewrite IH]. Qed.

Lemma node_to_addr_show a b c d port :
  0 ≤ a < 256 → 0 ≤ b < 256 → 0 ≤ c < 256 → 0 ≤ d < 256 → 0 ≤ port < 65536 →
  node_to_addr (show_node a b c d port) = Some (SockAddr (of_be [a; b; c; d]) port).
Proof.
  intros Ha Hb Hc Hd Hp. unfold node_to_addr, show_node.
  set (ip := show_dec a ++ 46 :: show_dec b ++ 46 :: show_dec c ++ 46 :: show_dec d).
  replace (show_dec a ++ _) with (ip ++ 58 :: show_dec port)
    by (unfold ip; rewrite <- !app_assoc, <- !app_comm_cons, <- !app_assoc, <- !app_comm_cons, <- !app_assoc; done).
  pose proof (show_port port Hp) as Hv. destruct (digit_c_str _ (show_dec_digits port)) as [Hcs Hrf].
  rewrite rfind_last by done. rewrite take_app_length.
  replace (drop (S (length ip)) (ip ++ 58 :: show_dec port)) with (show_dec port)
    by (rewrite <- Nat.add_1_r, drop_app_add; done).
  rewrite Hcs, Hv.
  assert (c_str ip = ip) as ->.
  { assert (Forall (λ b, b ≠ 0) ip) as Hip.
    { assert (∀ x, Forall (λ b, b ≠ 0) (show_dec x)) as Hx.
      { intros x. eapply Forall_impl; [apply show_dec_digits|]. unfold digit. cbn. lia. }
      unfold ip. rewrite !Forall_app, !Forall_cons, !Forall_app, !Forall_cons, !Forall_app, !Forall_cons.
      split_and!; auto; lia. }
    clear -Hip. induction Hip as [|x l Hx Hl IH]; [done|]. simpl.
    by rewrite (proj2 (Z.eqb_neq x 0)), IH. }
  unfold ip. rewrite inet_pton_show by done. unfold u16. rewrite Z.mod_small by lia. done.
Qed.

(** Such a text is short and both begins and ends with a digit. *)
Lemma show_node_shape a b c d port :
  0 ≤ a < 256 → 0 ≤ b < 256 → 0 ≤ c < 256 → 0 ≤ d < 256 → 0 ≤ port < 65536 →
  ∃ x mid y, show_node a b c d port = x :: mid ++ [y] ∧ digit x ∧ digit y ∧
    (length (show_node a b c d port) ≤ 21)%nat.
Proof.
  intros Ha Hb Hc Hd Hp. unfold show_node.
  destruct (show_dec_nonempty a) as (x & s & Ea & Hx).
  destruct (show_dec port) as [|z t _] eqn:Ep using rev_ind.
  { by destruct (show_dec_nonempty port) as (y & t & Ep' & _); rewrite Ep in Ep'. }
  exists x, (s ++ 46 :: show_dec b ++ 46 :: show_dec c ++ 46 :: show_dec d ++ 58 :: t), z. split_and!.
  - rewrite Ea. cbn [app]. f_equal. repeat (rewrite <- app_assoc; cbn [app]). done.
  - done.
  - pose proof (show_dec_digits port) as H. rewrite Ep, Forall_app, Forall_singleton in H. apply H.
  - assert (∀ v, 0 ≤ v < 256 → (length (show_dec v) ≤ 3)%nat) as Ho.
    { intros v Hv. rewrite show_octet by done. unfold octet_digits. repeat case_match; cbn; lia. }
    assert (length (show_dec port) ≤ 5)%nat as H5 by (apply (show_dec_length port 5); lia).
    rewrite <- Ep. repeat (rewrite length_app || cbn [length]).
    pose proof (Ho a Ha). pose proof (Ho b Hb). pose proof (Ho c Hc). pose proof (Ho d Hd). lia.
Qed.
