(* ===== verification/MemPool.v ===== *)
(** * The packet pool (src/gateway/mem_pool.h)

    A free list threaded through the first word of the free blocks.  Once a
    block has been handed out its first word holds the user's bytes. *)

From S2P Require Import Prelude CRuntime.

(* src/gateway/mem_pool.h:10-10 BLOCK *)
Definition BLOCK : Z := 2048.
(* src/gateway/mem_pool.h:11-11 CAP *)
Definition CAP : Z := 4096.

(* src/gateway/mem_pool.h:38-43 MemoryPool *)
(** [storage_]: for every block, its [next] word, or [None] when user data
    lies there.  Blocks are named by their index. *)
Record MemoryPool := Pool {
  storage_ : list (option (option nat));
  free_head_ : option nat;
}.

Abbreviation pprog := (prog MemoryPool).

(** [b->next = free_head_; free_head_ = b;] *)
Definition push_block (b : nat) : pprog unit := λ p,
  match storage_ p !! b with
  | None => Err OutOfBounds
  | Some _ => Ok (tt, Pool (<[b := Some (free_head_ p)]> (storage_ p)) (Some b))
  end.

Fixpoint init_loop (todo i : nat) : pprog unit :=
  match todo with
  | O => mret tt
  | S todo' => _ ← push_block i; init_loop todo' (S i)
  end.

(* src/gateway/mem_pool.h:13-19 MemoryPool *)
(** The constructor, for [n] blocks. *)
Definition init_pool (n : nat) : result MemoryPool :=
  match init_loop n 0 (Pool (replicate n None) None) with
  | Ok (_, p) => Ok p
  | Err e => Err e
  end.

Definition new_pool : result MemoryPool := init_pool (Z.to_nat CAP).

(* src/gateway/mem_pool.h:21-29 alloc *)
Definition alloc_block : pprog (option nat) := λ p,
  match free_head_ p with
  | None => Ok (None, p)
  | Some b =>
      match storage_ p !! b with
      | None => Err OutOfBounds
      | Some None => Err UninitRead
      | Some (Some next) => Ok (Some b, Pool (storage_ p) next)
      end
  end.

(* src/gateway/mem_pool.h:31-36 free *)
Definition free_block (p : option nat) : pprog unit :=
  match p with
  | None => mret tt
  | Some b => push_block b
  end.

(** The user fills a block it was given. *)
Definition fill_block (b : nat) : pprog unit := λ p,
  match storage_ p !! b with
  | None => Err OutOfBounds
  | Some _ => Ok (tt, Pool (<[b := None]> (storage_ p)) (free_head_ p))
  end.

(** ** The free list *)

Fixpoint chain (st : list (option (option nat))) (head : option nat) (l : list nat) : Prop :=
  match l with
  | [] => head = None
  | b :: l' => head = Some b ∧ ∃ next, st !! b = Some (Some next) ∧ chain st next l'
  end.

(** The pool [p] of [n] blocks has the free blocks [l], first the next one to
    be handed out. *)
Record pool_rep (n : nat) (p : MemoryPool) (l : list nat) : Prop := {
  pr_len : length (storage_ p) = n;
  pr_chain : chain (storage_ p) (free_head_ p) l;
  pr_nodup : NoDup l;
}.

Lemma chain_insert st head l b x : b ∉ l → chain st head l → chain (<[b := x]> st) head l.
Proof.
  revert head. induction l as [|c l IH]; intros head Hb; simpl; [done|].
  apply not_elem_of_cons in Hb as [Hne Hb]. intros (-> & next & Hn & Hc). split; [done|].
  exists next. split; [by rewrite list_lookup_insert_ne|by apply IH].
Qed.

Lemma chain_bound st head l : chain st head l → Forall (λ b, (b < length st)%nat) l.
Proof.
  revert head. induction l as [|b l IH]; intros head; simpl; [constructor|].
  intros (_ & next & Hn & Hc). constructor; [by eapply lookup_lt_Some|by eapply IH].
Qed.

Lemma pool_rep_bound n p l : pool_rep n p l → Forall (λ b, (b < n)%nat) l.
Proof. intros [<- Hc _]. by eapply chain_bound. Qed.

Lemma push_run n p l b :
  pool_rep n p l → b ∉ l → (b < n)%nat → ∃ p', push_block b p = Ok (tt, p') ∧ pool_rep n p' (b :: l).
Proof.
  intros [Hn Hc Hd] Hb Hlt. unfold push_block. rewrite <- Hn in Hlt.
  destruct (lookup_lt_is_Some_2 _ _ Hlt) as [x ->]. eexists. split; [done|]. constructor; cbn.
  - by rewrite length_insert.
  - split; [done|]. exists (free_head_ p). split; [by apply list_lookup_insert_eq|by apply chain_insert].
  - by constructor.
Qed.

Lemma alloc_run n p l :
  pool_rep n p l →
  match l with
  | [] => alloc_block p = Ok (None, p)
  | b :: l' => ∃ p', alloc_block p = Ok (Some b, p') ∧ pool_rep n p' l' ∧ storage_ p' = storage_ p
  end.
Proof.
  intros [Hn Hc Hd]. unfold alloc_block. destruct l as [|b l]; simpl in Hc; [by rewrite Hc|].
  destruct Hc as (-> & next & -> & Hc). eexists. split; [done|]. split; [|done].
  apply NoDup_cons in Hd as [_ Hd]. by constructor.
Qed.

Lemma fill_run n p l b :
  pool_rep n p l → b ∉ l → (b < n)%nat → ∃ p', fill_block b p = Ok (tt, p') ∧ pool_rep n p' l.
Proof.
  intros [Hn Hc Hd] Hb Hlt. unfold fill_block. rewrite <- Hn in Hlt.
  destruct (lookup_lt_is_Some_2 _ _ Hlt) as [x ->]. eexists. split; [done|]. constructor; cbn; [|..|done].
  - by rewrite length_insert.
  - by apply chain_insert.
Qed.

Lemma init_loop_run n todo i p l :
  pool_rep n p l → (∀ b, b ∈ l → (b < i)%nat) → (i + todo ≤ n)%nat →
  ∃ p', init_loop todo i p = Ok (tt, p') ∧ pool_rep n p' (reverse (seq i todo) ++ l).
Proof.
  revert i p l. induction todo as [|todo IH]; intros i p l Hp Hl Hle; simpl.
  { exists p. split; [done|]. done. }
  destruct (push_run n p l i Hp) as (p1 & H1 & Hp1); [intros Hin; apply Hl in Hin; lia|lia|].
  run. rewrite H1. destruct (IH (S i) p1 (i :: l) Hp1) as (p2 & H2 & Hp2).
  - intros b [->|Hb]%elem_of_cons; [lia|]. apply Hl in Hb. lia.
  - lia.
  - exists p2. split; [done|]. by rewrite reverse_cons, <- app_assoc.
Qed.

(** The constructor strings up every block, the last one first. *)
Lemma new_pool_run :
  ∃ p, new_pool = Ok p ∧ pool_rep (Z.to_nat CAP) p (reverse (seq 0 (Z.to_nat CAP))).
Proof.
  unfold new_pool, init_pool. generalize (Z.to_nat CAP) as n. intros n.
  destruct (init_loop_run n n 0 (Pool (replicate n None) None) []) as (p & -> & Hp).
  - constructor; cbn; [by rewrite length_replicate|done|constructor].
  - intros b Hb. by apply elem_of_nil in Hb.
  - lia.
  - exists p. rewrite app_nil_r in Hp. done.
Qed.

(** The start-up of 4096 blocks is not to be unfolded by unification. *)
#[global] Opaque new_pool.

(** ** Clients of the pool

    A client holds blocks: it gets one, writes into one it holds, or gives one
    back. *)
Inductive pool_step : (MemoryPool * list nat) → (MemoryPool * list nat) → Prop :=
  | ps_alloc p held b p' : alloc_block p = Ok (Some b, p') → pool_step (p, held) (p', b :: held)
  | ps_exhausted p held p' : alloc_block p = Ok (None, p') → pool_step (p, held) (p', held)
  | ps_fill p held b p' : b ∈ held → fill_block b p = Ok (tt, p') → pool_step (p, held) (p', held)
  | ps_free p held1 b held2 p' :
      free_block (Some b) p = Ok (tt, p') → pool_step (p, held1 ++ b :: held2) (p', held1 ++ held2).

(** Free and held blocks make up the pool. *)
Definition pool_inv (n : nat) (c : MemoryPool * list nat) : Prop :=
  ∃ l, pool_rep n c.1 l ∧ l ++ c.2 ≡ₚ seq 0 n.

Lemma pool_inv_fresh n p l held :
  pool_rep n p l → l ++ held ≡ₚ seq 0 n → ∀ b, b ∈ held → b ∉ l ∧ (b < n)%nat.
Proof.
  intros Hp Hl b Hb. assert (NoDup (l ++ held)) as Hnd by (rewrite Hl; apply NoDup_seq).
  apply NoDup_app in Hnd as (_ & Hd & _). split; [intros Hin; by apply (Hd b)|].
  assert (b ∈ seq 0 n) as Hin by (rewrite <- Hl; set_solver). apply elem_of_seq in Hin. lia.
Qed.

Lemma pool_step_inv n c c' : pool_inv n c → pool_step c c' → pool_inv n c'.
Proof.
  intros (l & Hp & Hl) Hstep. destruct Hstep as [p held b p' Ha|p held p' Ha|p held b p' Hb Hf|p held1 b held2 p' Hf];
    cbn [fst snd] in *.
  - pose proof (alloc_run n p l Hp) as Hr. destruct l as [|b' l]; [congruence|].
    destruct Hr as (p1 & Hr & Hp1 & _). rewrite Hr in Ha. injection Ha as <- <-.
    exists l. split; [done|]. cbn. by rewrite <- Permutation_middle.
  - pose proof (alloc_run n p l Hp) as Hr. destruct l as [|b' l]; [|destruct Hr as (? & ? & _); congruence].
    rewrite Hr in Ha. injection Ha as <-. by exists [].
  - destruct (pool_inv_fresh n p l held Hp Hl b Hb) as [Hn Hlt].
    destruct (fill_run n p l b Hp Hn Hlt) as (p1 & H1 & Hp1). rewrite H1 in Hf. injection Hf as <-. by exists l.
  - destruct (pool_inv_fresh n p l _ Hp Hl b) as [Hn Hlt]; [set_solver|].
    destruct (push_run n p l b Hp Hn Hlt) as (p1 & H1 & Hp1). cbn [free_block] in Hf.
    rewrite H1 in Hf. injection Hf as <-. exists (b :: l). split; [done|]. cbn.
    rewrite <- Hl, <- Permutation_middle. by rewrite <- Permutation_middle.
Qed.

Lemma pool_reachable n c c' : pool_inv n c → rtc pool_step c c' → pool_inv n c'.
Proof. intros H Hr. revert H. induction Hr as [|c c1 c' Hs Hr IH]; intros H; [done|]. apply IH. by eapply pool_step_inv. Qed.
