(* ===== verification/KvClient.v ===== *)
(** * The gateway's key-value client (src/gateway/kv_client.cpp)

    System calls take their results from a record of outcomes, indexed by the
    number of calls made so far; nothing is assumed of them unless a lemma
    says so. *)

From S2P Require Import Prelude CRuntime Decimal Tunnel.

Record net := Net {
  nt_n : nat;
  (** [now_ms()], and the results of [socket], [connect], [send], [select] *)
  nt_clock : nat → Z;
  nt_socket : nat → Z;
  nt_connect : nat → Z;
  nt_send : nat → Z;
  nt_select : nat → Z;
  (** [recv]: the bytes, none at the end of the stream, [None] on error *)
  nt_recv : nat → option (list Z);
  (** descriptors opened and not closed, and the bytes sent *)
  nt_open : list Z;
  nt_sent : list (Z * list Z);
}.

(* src/gateway/kv_client.h:22-24 KVClient *)
Record KVClient := KvClient { fd_ : Z; ip_ : list Z; port_ : Z }.

Definition kv_init : KVClient := KvClient (-1) [] 0.

Record kvstate := KvState { kv_cl : KVClient; kv_net : net }.

Abbreviation cprog := (prog kvstate).

Definition tick (n : net) : net :=
  Net (S (nt_n n)) (nt_clock n) (nt_socket n) (nt_connect n) (nt_send n) (nt_select n) (nt_recv n)
    (nt_open n) (nt_sent n).
Definition set_open (l : list Z) (n : net) : net :=
  Net (nt_n n) (nt_clock n) (nt_socket n) (nt_connect n) (nt_send n) (nt_select n) (nt_recv n) l (nt_sent n).
Definition add_sent (fd : Z) (b : list Z) (n : net) : net :=
  Net (nt_n n) (nt_clock n) (nt_socket n) (nt_connect n) (nt_send n) (nt_select n) (nt_recv n)
    (nt_open n) (nt_sent n ++ [(fd, b)]).

(** A system call with outcome [f]. *)
Definition sys {A} (f : net → nat → A) : cprog A := λ s,
  Ok (f (kv_net s) (nt_n (kv_net s)), KvState (kv_cl s) (tick (kv_net s))).

Definition upd_net (g : net → net) : cprog unit := λ s, Ok (tt, KvState (kv_cl s) (g (kv_net s))).
Definition get_cl : cprog KVClient := λ s, Ok (kv_cl s, s).
Definition put_cl (c : KVClient) : cprog unit := λ s, Ok (tt, KvState c (kv_net s)).

(** [socket()]: a descriptor that is now open, or a negative number. *)
Definition sys_socket : cprog Z :=
  fd ← sys nt_socket;
  _ ← (if fd <? 0 then mret tt else upd_net (λ n, set_open (fd :: nt_open n) n));
  mret fd.

Definition sys_close (fd : Z) : cprog unit :=
  upd_net (λ n, set_open (filter (λ x, x ≠ fd) (nt_open n)) n).

(** [send(fd, data, ...)]: how much was taken, at most all of it. *)
Definition sys_send (fd : Z) (data : list Z) : cprog Z :=
  r ← sys nt_send;
  let r := Z.min r (Z.of_nat (length data)) in
  _ ← (if r <? 0 then mret tt else upd_net (add_sent fd (take (Z.to_nat r) data)));
  mret r.

(** [recv] into a buffer of 256 bytes. *)
Definition sys_recv : cprog (option (list Z)) :=
  r ← sys nt_recv; mret (take 256 <$> r).

(** The loop of [read_reply]: whether anything came, and the bytes. *)
Fixpoint read_loop (fuel : nat) (deadline : Z) (got : bool) (out : list Z) : cprog (bool * list Z) :=
  match fuel with
  | O => stop OutOfFuel
  | S fuel' =>
      now ← sys nt_clock;
      if now <? deadline then
        r ← sys nt_select;
        if r <? 0 then mret (got, out)
        else if r =? 0 then
          if got then mret (true, out) else read_loop fuel' deadline got out
        else
          b ← sys_recv;
          match b with
          | None | Some [] => mret (got, out)
          | Some bs => read_loop fuel' deadline true (out ++ bs)
          end
      else mret (got, out)
  end.

Section client.
(** A bound for the number of rounds of [read_reply], which ends by the clock. *)
Context (fuel : nat).

(* src/gateway/kv_client.cpp:22-44 read_reply *)
Definition read_reply : cprog (bool * list Z) :=
  t ← sys nt_clock;
  read_loop fuel (t + 1000) false [].

(* src/gateway/kv_client.cpp:54-59 disconnect *)
Definition disconnect : cprog unit :=
  c ← get_cl;
  if fd_ c <? 0 then mret tt else
  _ ← sys_close (fd_ c);
  put_cl (KvClient (-1) (ip_ c) (port_ c)).

(* src/gateway/kv_client.cpp:61-81 ensure_connected *)
Definition ensure_connected : cprog bool :=
  c ← get_cl;
  if 0 <=? fd_ c then mret true else
  if port_ c =? 0 then mret false else
  fd ← sys_socket;
  if fd <? 0 then mret false else
  match inet_pton (c_str (ip_ c)) with
  | None => _ ← sys_close fd; mret false
  | Some _ =>
      r ← sys nt_connect;
      if r <? 0 then _ ← sys_close fd; mret false else
      _ ← put_cl (KvClient fd (ip_ c) (port_ c));
      mret true
  end.

(* src/gateway/kv_client.cpp:47-52 connect *)
Definition connect (ip : list Z) (port : Z) : cprog bool :=
  _ ← disconnect;
  c ← get_cl;
  _ ← put_cl (KvClient (fd_ c) ip port);
  ensure_connected.

(* src/gateway/kv_client.cpp:83-94 request *)
(** [None]: false; [Some reply]: true. *)
Definition request (cmd : list Z) : cprog (option (list Z)) :=
  ok ← ensure_connected;
  if negb ok then mret None else
  c ← get_cl;
  r ← sys_send (fd_ c) cmd;
  if negb (r =? Z.of_nat (length cmd)) then _ ← disconnect; mret None else
  '(got, reply) ← read_reply;
  if negb got then _ ← disconnect; mret None else
  mret (Some reply).

(* src/gateway/kv_client.cpp:97-101 request_with_retry *)
Definition request_with_retry (cmd : list Z) : cprog (option (list Z)) :=
  r ← request cmd;
  match r with
  | Some reply => mret (Some reply)
  | None =>
      _ ← disconnect;
      ok ← ensure_connected;
      if (ok : bool) then request cmd else mret None
  end.

(* src/gateway/kv_client.cpp:103-107 set *)
Definition kv_set (key value : list Z) : cprog bool :=
  r ← request_with_retry (str "SET " ++ key ++ str " " ++ value);
  mret (match r with Some reply => bool_decide (reply = str "SUCCESS") | None => false end).

(** [while (!reply.empty() && (reply.back() == '\r' || ...)) reply.pop_back();] *)
Fixpoint strip_rev (s : list Z) : list Z :=
  match s with
  | b :: s' => if (b =? 13) || (b =? 10) then strip_rev s' else s
  | [] => []
  end.
Definition strip_eol (s : list Z) : list Z := reverse (strip_rev (reverse s)).

(* src/gateway/kv_client.cpp:112-115 get *)
(** What [get] makes of a reply. *)
Definition get_answer (reply : list Z) : option (list Z) :=
  if bool_decide (reply = str "NO EXIST") then None else Some (strip_eol reply).

(* src/gateway/kv_client.cpp:109-117 get *)
Definition kv_get (key : list Z) : cprog (option (list Z)) :=
  r ← request_with_retry (str "GET " ++ key);
  match r with
  | None => mret None
  | Some reply => mret (get_answer reply)
  end.

(* src/gateway/kv_client.cpp:119-123 del *)
Definition kv_del (key : list Z) : cprog bool :=
  r ← request_with_retry (str "DEL " ++ key);
  mret (match r with Some reply => bool_decide (reply = str "SUCCESS") | None => false end).
End client.

(** ** Termination

    [paced R clock]: the clock does not run backwards, and [R] system calls
    take at least a millisecond. *)

Definition paced (R : nat) (clock : nat → Z) : Prop :=
  (∀ m n, (m ≤ n)%nat → clock m ≤ clock n) ∧ ∀ m, clock m + 1 ≤ clock (m + R)%nat.

Lemma paced_far R clock m k : paced R clock → clock m + Z.of_nat k ≤ clock (m + k * R)%nat.
Proof.
  intros [_ Hr]. induction k as [|k IH]; [rewrite Nat.add_0_r; lia|].
  specialize (Hr (m + k * R)%nat). replace (m + S k * R)%nat with (m + k * R + R)%nat by lia. lia.
Qed.

Definition clock_of (s : kvstate) : nat → Z := nt_clock (kv_net s).

Lemma sys_run {A} (f : net → nat → A) c n :
  sys f (KvState c n) = Ok (f n (nt_n n), KvState c (tick n)).
Proof. done. Qed.
Lemma upd_net_run g c n : upd_net g (KvState c n) = Ok (tt, KvState c (g n)).
Proof. done. Qed.
Lemma get_cl_run c n : get_cl (KvState c n) = Ok (c, KvState c n).
Proof. done. Qed.
Lemma put_cl_run c c' n : put_cl c' (KvState c n) = Ok (tt, KvState c' n).
Proof. done. Qed.

#[export] Hint Rewrite @sys_run upd_net_run get_cl_run put_cl_run : ga_run.

(** The clock and the other outcomes never change, descriptors and bytes sent
    only by the calls that say so. *)
Definition quiet (n n' : net) : Prop :=
  nt_clock n' = nt_clock n ∧ nt_open n' = nt_open n ∧ nt_sent n' = nt_sent n ∧
  (nt_n n ≤ nt_n n')%nat ∧ nt_socket n' = nt_socket n.

Lemma quiet_refl n : quiet n n.
Proof. done. Qed.
Lemma quiet_tick n n' : quiet (tick n) n' → quiet n n'.
Proof. intros (H1 & H2 & H3 & H4 & H5). cbn in *. unfold quiet. split_and!; try done. lia. Qed.

(** The reading loop ends once the deadline has passed. *)
Lemma read_loop_ends fuel c n deadline got out :
  (∀ m, (nt_n n + 2 * fuel ≤ m)%nat → deadline ≤ nt_clock n m) →
  ∃ r n', read_loop (S fuel) deadline got out (KvState c n) = Ok (r, KvState c n') ∧ quiet n n'.
Proof.
  revert n got out. induction fuel as [|fuel IH]; intros n got out Hc; cbn [read_loop]; run.
  { specialize (Hc (nt_n n) ltac:(lia)). destruct (_ <? _) eqn:E; b2p; [lia|].
    eexists _, _. split; [done|]. apply quiet_tick, quiet_refl. }
  destruct (nt_clock n (nt_n n) <? deadline) eqn:E; [|by eexists _, _; split; [done|]; apply quiet_tick, quiet_refl].
  run. assert (∀ n1, quiet n n1 → (nt_n n + 2 ≤ nt_n n1)%nat →
    ∀ g o, ∃ r n', read_loop (S fuel) deadline g o (KvState c n1) = Ok (r, KvState c n') ∧ quiet n n') as Hnext.
  { intros n1 Hq Hle g o. destruct Hq as (Q1 & Q2 & Q3 & Q4 & Q5). destruct (IH n1 g o) as (r & n' & Hr & Hq').
    - intros m Hm. rewrite Q1. apply Hc. lia.
    - exists r, n'. split; [done|]. destruct Hq' as (P1 & P2 & P3 & P4 & P5). unfold quiet.
      rewrite P1, P2, P3, P5. split_and!; try done. lia. }
  assert (quiet n (tick (tick n))) as Hq2 by (unfold quiet; cbn; split_and!; try done; lia).
  destruct (_ <? 0); [by eexists _, _|]. destruct (_ =? 0).
  - destruct got; [by eexists _, _|]. apply Hnext; [done|]. cbn. lia.
  - unfold sys_recv. run.
    assert (quiet n (tick (tick (tick n)))) as Hq3 by (unfold quiet; cbn; split_and!; try done; lia).
    destruct (take 256 <$> _) as [[|b bs]|]; [by eexists _, _| |by eexists _, _].
    apply Hnext; [done|]. cbn. lia.
Qed.

(** Rounds enough for a clock of pace [R]. *)
Definition rounds (R : nat) : nat := S (1000 * R).

Lemma read_reply_ends R c n :
  paced R (nt_clock n) →
  ∃ r n', read_reply (rounds R) (KvState c n) = Ok (r, KvState c n') ∧ quiet n n'.
Proof.
  intros Hp. unfold read_reply, rounds. run.
  destruct (read_loop_ends (1000 * R) c (tick n) (nt_clock n (nt_n n) + 1000) false []) as (r & n' & Hr & Hq).
  - intros m Hm. cbn [nt_n tick nt_clock] in *. pose proof (paced_far R _ (nt_n n) 1000 Hp) as Hf.
    destruct Hp as [Hmono _]. specialize (Hmono (nt_n n + 1000 * R)%nat m ltac:(lia)). lia.
  - exists r, n'. split; [done|]. by apply quiet_tick.
Qed.

(** ** Descriptors

    The client holds exactly the descriptor it remembers. *)

Definition kv_owns (s : kvstate) : Prop :=
  nt_open (kv_net s) = if fd_ (kv_cl s) <? 0 then [] else [fd_ (kv_cl s)].

Definition kv_ready (R : nat) (s : kvstate) : Prop := kv_owns s ∧ paced R (clock_of s).

Section steps.
Context (R : nat).

Lemma disconnect_run c n :
  kv_ready R (KvState c n) →
  ∃ n', disconnect (KvState c n) = Ok (tt, KvState (KvClient (if fd_ c <? 0 then fd_ c else -1) (ip_ c) (port_ c)) n') ∧
    nt_open n' = [] ∧ nt_clock n' = nt_clock n ∧ nt_n n' = nt_n n ∧ nt_sent n' = nt_sent n.
Proof.
  intros [Ho _]. unfold disconnect, sys_close. unfold kv_owns in Ho. cbn [kv_net kv_cl] in Ho. run.
  destruct c as [f i p]. cbn [fd_ ip_ port_] in *. destruct (f <? 0).
  - eexists. split; [done|]. done.
  - run. eexists. split; [done|]. cbn. rewrite Ho. split_and!; try done.
    rewrite filter_cons_False; [done|]. by intros [].
Qed.

Lemma disconnect_ready s :
  kv_ready R s → ∃ s', disconnect s = Ok (tt, s') ∧ kv_ready R s' ∧ port_ (kv_cl s') = port_ (kv_cl s) ∧
    ip_ (kv_cl s') = ip_ (kv_cl s) ∧ nt_open (kv_net s') = [].
Proof.
  destruct s as [c n]. intros H. destruct (disconnect_run c n H) as (n' & -> & Ho & Hc & _).
  eexists. split; [done|]. destruct H as [_ Hp]. unfold kv_ready, kv_owns, clock_of in *. cbn. rewrite Ho, Hc.
  split_and!; try done. destruct (fd_ c <? 0) eqn:E; [by rewrite E|done].
Qed.

Lemma ensure_ready s :
  kv_ready R s → ∃ b s', ensure_connected s = Ok (b, s') ∧ kv_ready R s' ∧
    (b = true → 0 ≤ fd_ (kv_cl s')) ∧ port_ (kv_cl s') = port_ (kv_cl s).
Proof.
  destruct s as [c n]. intros H. pose proof H as [Ho Hp]. unfold ensure_connected. run.
  unfold kv_ready, kv_owns, clock_of in *. cbn [kv_cl kv_net] in *.
  destruct (0 <=? fd_ c) eqn:E; b2p; [by eexists _, _|].
  assert (fd_ c <? 0 = true) as Ef by lia. rewrite Ef in Ho.
  destruct (port_ c =? 0) eqn:E0; [by eexists _, _; rewrite ?Ef|].
  run. unfold sys_socket. run. destruct (nt_socket n (nt_n n) <? 0) eqn:Es.
  { run. rewrite Es. eexists _, _. split; [done|]. cbn. rewrite Ef. done. }
  run. rewrite Es.
  assert (filter (λ x, x ≠ nt_socket n (nt_n n)) (nt_socket n (nt_n n) :: nt_open n) = []) as Hfl.
  { rewrite Ho, filter_cons_False; [done|]. by intros []. }
  destruct (inet_pton _) as [a|].
  - run. destruct (nt_connect _ _ <? 0) eqn:Ec; run.
    + unfold sys_close. run. eexists _, _. split; [done|].
    cbn [kv_net kv_cl nt_open set_open tick fd_ nt_clock port_]. by rewrite Ef, Hfl.
    + eexists _, _. split; [done|]. cbn. rewrite Es, Ho. b2p. done.
  - unfold sys_close. run. eexists _, _. split; [done|].
    cbn [kv_net kv_cl nt_open set_open tick fd_ nt_clock port_]. by rewrite Ef, Hfl.
Qed.

Lemma request_ready s cmd :
  kv_ready R s → ∃ r s', request (rounds R) cmd s = Ok (r, s') ∧ kv_ready R s'.
Proof.
  intros H. unfold request. run. destruct (ensure_ready s H) as (b & [c n] & -> & H1 & _). run.
  destruct b; cbn [negb]; [|by eexists _, _]. run. unfold sys_send. run. cbv zeta.
  assert (∀ n1, nt_open n1 = nt_open n → nt_clock n1 = nt_clock n → kv_ready R (KvState c n1)) as Hk.
  { intros n1 Ho Hc. unfold kv_ready, kv_owns, clock_of in *. cbn in *. by rewrite Ho, Hc. }
  assert (∀ (r : Z) n1, kv_ready R (KvState c n1) → ∃ r' s',
    (if negb (r =? Z.of_nat (length cmd)) then _ ← disconnect; mret None else
     '(got, reply) ← read_reply (rounds R);
     if negb got then _ ← disconnect; mret None else mret (Some reply)) (KvState c n1) = Ok (r', s') ∧
    kv_ready R s') as Hrest.
  { intros r n1 H2. destruct (negb (r =? _)); run.
    - destruct (disconnect_ready _ H2) as (s' & -> & H3 & _). run. by eexists _, _.
    - destruct (read_reply_ends R c n1 (proj2 H2)) as ([got reply] & n2 & -> & (Q1 & Q2 & _)). run.
      assert (kv_ready R (KvState c n2)) as H3.
      { unfold kv_ready, kv_owns, clock_of in *. cbn in *. by rewrite Q1, Q2. }
      destruct got; cbn [negb]; [by eexists _, _|]. run.
      destruct (disconnect_ready _ H3) as (s' & -> & H4 & _). run. by eexists _, _. }
  destruct (_ <? 0); run; apply Hrest; by apply Hk.
Qed.

Lemma retry_ready s cmd :
  kv_ready R s → ∃ r s', request_with_retry (rounds R) cmd s = Ok (r, s') ∧ kv_ready R s'.
Proof.
  intros H. unfold request_with_retry. run. destruct (request_ready s cmd H) as (r & s1 & -> & H1). run.
  destruct r as [reply|]; [by eexists _, _|]. run.
  destruct (disconnect_ready s1 H1) as (s2 & -> & H2 & _). run.
  destruct (ensure_ready s2 H2) as (b & s3 & -> & H3 & _). run.
  destruct b; [|by eexists _, _]. by apply request_ready.
Qed.

Lemma get_ready s key : kv_ready R s → ∃ r s', kv_get (rounds R) key s = Ok (r, s') ∧ kv_ready R s'.
Proof.
  intros H. unfold kv_get. run. destruct (retry_ready s (str "GET " ++ key) H) as (r & s1 & -> & H1). run.
  destruct r as [reply|]; by eexists _, _.
Qed.

Lemma connect_ready s ip port : kv_ready R s → ∃ b s', connect ip port s = Ok (b, s') ∧ kv_ready R s'.
Proof.
  intros H. unfold connect. run. destruct (disconnect_ready s H) as ([c n] & -> & H1 & _). run.
  destruct (ensure_ready (KvState (KvClient (fd_ c) ip port) n) H1) as (b & s' & -> & H2 & _). by eexists _, _.
Qed.
End steps.

(** ** A reply that arrives *)

(** From system call [i] on, the socket delivers the chunks and then falls
    silent, all before the deadline. *)
Inductive arrives (n : net) (deadline : Z) : nat → list (list Z) → Prop :=
  | ar_silence i :
      nt_clock n i < deadline → nt_select n (S i) = 0 → arrives n deadline i []
  | ar_chunk i b bs :
      nt_clock n i < deadline → 0 < nt_select n (S i) → nt_recv n (S (S i)) = Some b →
      b ≠ [] → (length b ≤ 256)%nat → arrives n deadline (S (S (S i))) bs →
      arrives n deadline i (b :: bs).

Definition tick_n (k : nat) (n : net) : net := Nat.iter k tick n.

Lemma arrives_ext n n' deadline i bs :
  nt_clock n' = nt_clock n → nt_select n' = nt_select n → nt_recv n' = nt_recv n →
  arrives n deadline i bs → arrives n' deadline i bs.
Proof.
  intros E1 E2 E3. induction 1; [constructor; congruence|].
  econstructor; rewrite ?E1, ?E2, ?E3; eauto.
Qed.

Lemma read_loop_arrives fuel c n deadline got out bs :
  arrives n deadline (nt_n n) bs → got = true ∨ bs ≠ [] → (length bs < fuel)%nat →
  ∃ k, read_loop fuel deadline got out (KvState c n) = Ok ((true, out ++ concat bs), KvState c (tick_n k n)).
Proof.
  revert n got out bs. induction fuel as [|fuel IH]; intros n got out bs Ha Hg Hf; [lia|].
  cbn [read_loop]. run. inversion Ha as [i Hc Hs|i b bs' Hc Hs Hr Hb Hl Hrest]; subst.
  - rewrite (proj2 (Z.ltb_lt _ _) Hc). run. change (nt_select (tick n) (nt_n (tick n))) with (nt_select n (S (nt_n n))).
    rewrite Hs. cbn [Z.ltb Z.compare Z.eqb]. destruct Hg as [->|Hg]; [|done].
    exists 2%nat. by rewrite app_nil_r.
  - rewrite (proj2 (Z.ltb_lt _ _) Hc). run. change (nt_select (tick n) (nt_n (tick n))) with (nt_select n (S (nt_n n))).
    destruct (nt_select n (S (nt_n n)) <? 0) eqn:E1; b2p; [lia|].
    destruct (nt_select n (S (nt_n n)) =? 0) eqn:E2; b2p; [lia|]. unfold sys_recv. run.
    change (nt_recv (tick (tick n)) (nt_n (tick (tick n)))) with (nt_recv n (S (S (nt_n n)))). rewrite Hr.
    cbn [fmap option_fmap option_map]. rewrite take_ge by done. destruct b as [|x b]; [done|].
    destruct (IH (tick (tick (tick n))) true (out ++ x :: b) bs') as (k & Hk).
    + by eapply arrives_ext; [..|exact Hrest].
    + by left.
    + cbn in Hf. lia.
    + exists (S (S (S k))). rewrite Hk. unfold tick_n. rewrite <- app_assoc. do 3 f_equal.
      replace (S (S (S k))) with (k + 3)%nat by lia. rewrite Nat.iter_add. done.
Qed.

(** The whole exchange on an open connection. *)
Lemma request_arrives fuel c n cmd bs :
  0 ≤ fd_ c → Z.of_nat (length cmd) ≤ nt_send n (nt_n n) →
  arrives n (nt_clock n (S (nt_n n)) + 1000) (S (S (nt_n n))) bs → bs ≠ [] → (length bs < fuel)%nat →
  ∃ n', request_with_retry fuel cmd (KvState c n) = Ok (Some (concat bs), KvState c n') ∧
    nt_sent n' = nt_sent n ++ [(fd_ c, cmd)] ∧ nt_open n' = nt_open n.
Proof.
  intros Hfd Hs Ha Hb Hf. unfold request_with_retry, request, ensure_connected. run.
  rewrite (proj2 (Z.leb_le _ _) Hfd). run. cbn [negb]. run. unfold sys_send. run. cbv zeta.
  rewrite Z.min_r by done. destruct (_ <? 0) eqn:E; b2p; [lia|]. run.
  rewrite Z.eqb_refl. cbn [negb]. rewrite Nat2Z.id, take_ge by done. unfold read_reply. run.
  set (n1 := tick (add_sent (fd_ c) cmd (tick n))).
  destruct (read_loop_arrives fuel c n1 (nt_clock n (S (nt_n n)) + 1000) false [] bs) as (k & Hk);
    [|by right|done|].
  - change (nt_n n1) with (S (S (nt_n n))). by eapply arrives_ext; [..|exact Ha].
  - change (nt_clock (add_sent (fd_ c) cmd (tick n)) (nt_n (add_sent (fd_ c) cmd (tick n))))
      with (nt_clock n (S (nt_n n))). rewrite Hk. run. cbn [negb app].
    eexists. split; [done|]. clear. split.
    + induction k as [|k IH]; [done|]. exact IH.
    + induction k as [|k IH]; [done|]. exact IH.
Qed.

Lemma get_arrives fuel c n key bs :
  0 ≤ fd_ c → Z.of_nat (length (str "GET " ++ key)) ≤ nt_send n (nt_n n) →
  arrives n (nt_clock n (S (nt_n n)) + 1000) (S (S (nt_n n))) bs → bs ≠ [] → (length bs < fuel)%nat →
  ∃ n', kv_get fuel key (KvState c n) = Ok (get_answer (concat bs), KvState c n') ∧
    nt_sent n' = nt_sent n ++ [(fd_ c, str "GET " ++ key)] ∧ nt_open n' = nt_open n.
Proof.
  intros Hfd Hs Ha Hb Hf. destruct (request_arrives fuel c n _ bs Hfd Hs Ha Hb Hf) as (n' & Hr & H1 & H2).
  exists n'. split; [|done]. unfold kv_get. run. rewrite Hr. by run.
Qed.

Lemma strip_eol_id s b : b ≠ 13 → b ≠ 10 → strip_eol (s ++ [b]) = s ++ [b].
Proof.
  intros H1 H2. unfold strip_eol. rewrite reverse_snoc. cbn [strip_rev].
  rewrite (proj2 (Z.eqb_neq b 13)), (proj2 (Z.eqb_neq b 10)) by done. cbn [orb].
  by rewrite <- reverse_snoc, reverse_involutive.
Qed.
