(* ===== verification/Session.v ===== *)
(** * Relay sessions (src/gateway/session.h, session.cpp, kcp_session.cpp,
    session_manager.h, session_manager.cpp, event_loop.cpp: the timer)

    A [Session *] is the conversation number of the session: the table's nodes
    do not move, and following a pointer to an erased session is a fault.
    [unordered_map] iterates in an unspecified order; the model uses the order
    of [map_to_list], and the invariant of the table makes the one search that
    depends on it unique. *)

From S2P Require Import Prelude CRuntime IkcpData Ikcp Decimal Tunnel MemPool KvClient.

(* src/gateway/kcp_session.h:11-15 KcpSession *)
Record KcpSession := KcpSess {
  ks_kcp : option ikcpcb;
  ks_peer : sockaddr_in;
  ks_client_fd : Z;
}.

(* src/gateway/session.h:12-24 Session *)
Record Session := Sess {
  s_conv : Z;
  s_kcp : KcpSession;
  client_addr : sockaddr_in;
  target_addr : sockaddr_in;
  target_fd : Z;
  dying : bool;
  last_active : Z;
}.

(* src/gateway/session_manager.h:35-43 SessionManager *)
Record SessionManager := SessMan {
  sessions_ : gmap Z Session;
  fd_to_session_ : gmap Z Z;
  to_erase_ : list Z;
  next_conv_ : Z;
  idle_ms_ : Z;
  last_idle_sweep_ : Z;
  sm_client_fd_ : Z;
}.

(** A datagram on its way out. *)
Record dgram := Dgram { dg_fd : Z; dg_dst : sockaddr_in; dg_bytes : list Z }.

(** What the gateway sees of the system: the readings of its clock, the
    datagrams waiting on the tunnel socket and on the relay sockets, the
    descriptors the system will offer, those open and those [epoll] watches, the
    period of the timer, and the datagrams it has handed to [sendto]. *)
Record sysstate := Sys {
  os_clock : nat → Z;
  os_reads : nat;
  os_inbox : list (sockaddr_in * list Z);
  os_replies : gmap Z (list (list Z));
  os_socket : nat → Z;
  os_sockets : nat;
  os_open : gset Z;
  os_epoll : gset Z;
  os_timer : Z;
  os_sent : list dgram;
}.

(* src/gateway/gateway.h:21-26 Gateway *)
(** With the system it runs on. *)
Record gateway := Gw {
  kv_ : kvstate;
  pool_ : MemoryPool;
  client_fd_ : Z;
  sman : SessionManager;
  os : sysstate;
}.

(** ** Record updates *)

Definition session_eta (r : Session) : Session :=
  Sess (s_conv r) (s_kcp r) (client_addr r) (target_addr r) (target_fd r) (dying r) (last_active r).
Definition sman_eta (r : SessionManager) : SessionManager :=
  SessMan (sessions_ r) (fd_to_session_ r) (to_erase_ r) (next_conv_ r) (idle_ms_ r) (last_idle_sweep_ r)
    (sm_client_fd_ r).
Definition os_eta (r : sysstate) : sysstate :=
  Sys (os_clock r) (os_reads r) (os_inbox r) (os_replies r) (os_socket r) (os_sockets r) (os_open r)
    (os_epoll r) (os_timer r) (os_sent r).
Definition gw_eta (r : gateway) : gateway := Gw (kv_ r) (pool_ r) (client_fd_ r) (sman r) (os r).

Ltac eta_setter eta p := let e := eval unfold eta in eta in build_setter e p.

#[global] Instance set_s_kcp : Setter s_kcp.
Proof. eta_setter session_eta s_kcp. Defined.
#[global] Instance set_target_addr : Setter target_addr.
Proof. eta_setter session_eta target_addr. Defined.
#[global] Instance set_target_fd : Setter target_fd.
Proof. eta_setter session_eta target_fd. Defined.
#[global] Instance set_dying : Setter dying.
Proof. eta_setter session_eta dying. Defined.
#[global] Instance set_last_active : Setter last_active.
Proof. eta_setter session_eta last_active. Defined.

#[global] Instance set_sessions : Setter sessions_.
Proof. eta_setter sman_eta sessions_. Defined.
#[global] Instance set_fd_to_session : Setter fd_to_session_.
Proof. eta_setter sman_eta fd_to_session_. Defined.
#[global] Instance set_to_erase : Setter to_erase_.
Proof. eta_setter sman_eta to_erase_. Defined.
#[global] Instance set_next_conv : Setter next_conv_.
Proof. eta_setter sman_eta next_conv_. Defined.
#[global] Instance set_idle : Setter idle_ms_.
Proof. eta_setter sman_eta idle_ms_. Defined.
#[global] Instance set_last_sweep : Setter last_idle_sweep_.
Proof. eta_setter sman_eta last_idle_sweep_. Defined.

#[global] Instance set_os_reads : Setter os_reads.
Proof. eta_setter os_eta os_reads. Defined.
#[global] Instance set_os_inbox : Setter os_inbox.
Proof. eta_setter os_eta os_inbox. Defined.
#[global] Instance set_os_replies : Setter os_replies.
Proof. eta_setter os_eta os_replies. Defined.
#[global] Instance set_os_sockets : Setter os_sockets.
Proof. eta_setter os_eta os_sockets. Defined.
#[global] Instance set_os_open : Setter os_open.
Proof. eta_setter os_eta os_open. Defined.
#[global] Instance set_os_epoll : Setter os_epoll.
Proof. eta_setter os_eta os_epoll. Defined.
#[global] Instance set_os_timer : Setter os_timer.
Proof. eta_setter os_eta os_timer. Defined.
#[global] Instance set_os_sent : Setter os_sent.
Proof. eta_setter os_eta os_sent. Defined.

#[global] Instance set_kv_ : Setter kv_.
Proof. eta_setter gw_eta kv_. Defined.
#[global] Instance set_pool : Setter pool_.
Proof. eta_setter gw_eta pool_. Defined.
#[global] Instance set_client_fd : Setter client_fd_.
Proof. eta_setter gw_eta client_fd_. Defined.
#[global] Instance set_sman : Setter sman.
Proof. eta_setter gw_eta sman. Defined.
#[global] Instance set_os : Setter os.
Proof. eta_setter gw_eta os. Defined.

(** ** The gateway's monad *)

Abbreviation G := (prog (world gateway)).

Definition upd_gw (f : gateway → gateway) : G unit := g ← get_eng; put_eng (f g).
Definition upd_sm (f : SessionManager → SessionManager) : G unit := upd_gw (λ g, g <| sman := f (sman g) |>).
Definition upd_os (f : sysstate → sysstate) : G unit := upd_gw (λ g, g <| os := f (os g) |>).
Definition get_sm : G SessionManager := g ← get_eng; mret (sman g).
Definition get_os : G sysstate := g ← get_eng; mret (os g).

(** Following a [Session *]. *)
Definition deref (c : Z) : G Session :=
  m ← get_sm;
  match sessions_ m !! c with Some s => mret s | None => stop UseAfterFree end.

Definition put_session (c : Z) (s : Session) : G unit :=
  upd_sm (λ m, m <| sessions_ := <[c := s]> (sessions_ m) |>).

(** [s->f = v] *)
Definition upd_session (c : Z) (f : Session → Session) : G unit := s ← deref c; put_session c (f s).

(** A call on the pool. *)
Definition on_pool {A} (m : prog MemoryPool A) : G A := λ w,
  match m (pool_ (w_eng w)) with
  | Ok (x, p) => Ok (x, World (w_eng w <| pool_ := p |>) (w_al w))
  | Err e => Err e
  end.

(** A call on the key-value client. *)
Definition on_kv {A} (m : prog kvstate A) : G A := λ w,
  match m (kv_ (w_eng w)) with
  | Ok (x, k) => Ok (x, World (w_eng w <| kv_ := k |>) (w_al w))
  | Err e => Err e
  end.

(** ** System calls *)

(* src/common/net_utils.cpp:9-12 now_ms *)
Definition now_ms : G Z :=
  o ← get_os;
  _ ← upd_os (λ o, o <| os_reads := S (os_reads o) |>);
  mret (os_clock o (os_reads o)).

(** [sendto]: the call is recorded.  Every caller ignores the result, so the
    gateway does the same whether the kernel takes the datagram, refuses it or
    it is lost on the way; [os_sent] lists what was handed to the kernel, not
    what arrived. *)
Definition sendto (fd : Z) (bytes : list Z) (dst : sockaddr_in) : G unit :=
  upd_os (λ o, o <| os_sent := os_sent o ++ [Dgram fd dst bytes] |>).

(** [socket()], [epoll_create1()], [timerfd_create()]: a descriptor that is
    not open, or -1. *)
Definition new_socket : G Z :=
  o ← get_os;
  let fd := os_socket o (os_sockets o) in
  _ ← upd_os (λ o, o <| os_sockets := S (os_sockets o) |>);
  if (fd <? 0) || bool_decide (fd ∈ os_open o) then mret (-1) else
  _ ← upd_os (λ o, o <| os_open := {[fd]} ∪ os_open o |>);
  mret fd.

Definition close (fd : Z) : G unit := upd_os (λ o, o <| os_open := os_open o ∖ {[fd]} |>).
Definition epoll_add (fd : Z) : G unit := upd_os (λ o, o <| os_epoll := {[fd]} ∪ os_epoll o |>).
Definition epoll_del (fd : Z) : G unit := upd_os (λ o, o <| os_epoll := os_epoll o ∖ {[fd]} |>).

(* src/gateway/event_loop.cpp:18-18 KCP_TICK_MS *)
Definition KCP_TICK_MS : Z := 5.

(* src/gateway/event_loop.cpp:46-53 timer_set_period *)
Definition timer_set_period (period_ms : Z) : G unit :=
  upd_os (λ o, o <| os_timer := if 0 <? period_ms then period_ms else 0 |>).

(* src/gateway/session_manager.cpp:18-18 empty *)
Definition sm_empty (m : SessionManager) : bool := bool_decide (sessions_ m = ∅).

(* src/gateway/event_loop.cpp:56-58 sync_timer *)
Definition sync_timer : G unit :=
  m ← get_sm; timer_set_period (if sm_empty m then 0 else KCP_TICK_MS).

(** ** KCP sessions *)

(* src/gateway/kcp_session.cpp:7-12 kcp_output *)
Definition kcp_output (ks : KcpSession) (buf : list Z) : G unit := sendto (ks_client_fd ks) buf (ks_peer ks).

Fixpoint emit (ks : KcpSession) (out : list (list Z)) : G unit :=
  match out with
  | [] => mret tt
  | b :: out' => _ ← kcp_output ks b; emit ks out'
  end.

(** A call on the control block of session [c]. *)
Definition on_kcp {A} (c : Z) (m : K A) : G A := λ w,
  match sessions_ (sman (w_eng w)) !! c with
  | None => Err UseAfterFree
  | Some s =>
      match ks_kcp (s_kcp s) with
      | None => Err NullDeref
      | Some k =>
          match m (World k (w_al w)) with
          | Err e => Err e
          | Ok (x, World k' a') =>
              let s' := s <| s_kcp := KcpSess (Some k') (ks_peer (s_kcp s)) (ks_client_fd (s_kcp s)) |> in
              Ok (x, World (w_eng w <| sman := sman (w_eng w)
                       <| sessions_ := <[c := s']> (sessions_ (sman (w_eng w))) |> |>) a')
          end
      end
  end.

(** The same for calls that produce datagrams, which the callback sends. *)
Definition on_kcp_out (c : Z) (m : K (list (list Z))) : G unit :=
  out ← on_kcp c m;
  s ← deref c;
  emit (s_kcp s) out.

(* src/gateway/kcp_session.cpp:15-25 kcp_session_init *)
(** [ikcp_create] may return NULL, which [ikcp_setoutput] dereferences. *)
Definition kcp_session_init (c conv : Z) (peer : sockaddr_in) (client_fd : Z) : G unit :=
  k ← ikcp_create conv;
  _ ← upd_session c (λ s, s <| s_kcp := KcpSess k peer client_fd |>);
  _ ← on_kcp c ikcp_setoutput;
  _ ← on_kcp c (ikcp_nodelay 1 10 2 1);
  mret tt.

(* src/gateway/kcp_session.cpp:27-32 kcp_session_release *)
Definition kcp_session_release (c : Z) : G unit :=
  s ← deref c;
  match ks_kcp (s_kcp s) with
  | None => mret tt
  | Some _ =>
      _ ← on_kcp c ikcp_release;
      upd_session c (λ s, s <| s_kcp := KcpSess None (ks_peer (s_kcp s)) (ks_client_fd (s_kcp s)) |>)
  end.

(* src/gateway/session.cpp:3-4 Session *)
(** The constructor, with the default member initialisers. *)
Definition new_session (c : Z) (addr : sockaddr_in) : Session :=
  Sess c (KcpSess None (SockAddr 0 0) (-1)) addr (SockAddr 0 0) (-1) false 0.

(* src/gateway/session.cpp:7-7 ~Session *)
Definition session_destroy (c : Z) : G unit := kcp_session_release c.

(** ** The session table *)

(* src/gateway/session_manager.cpp:14-16 SessionManager *)
(** The constructor, with the default member initialisers of
    session_manager.h; [epfd_] and [sync_timer_] are the event loop's. *)
Definition new_session_manager (client_fd : Z) : SessionManager := SessMan ∅ ∅ [] 1000 30000 0 client_fd.

(* src/gateway/session_manager.cpp:26-26 set_idle_ms *)
Definition set_idle_ms (ms : Z) : G unit := upd_sm (λ m, m <| idle_ms_ := ms |>).

Fixpoint conv_loop (fuel : nat) : G Z :=
  match fuel with
  | O => stop OutOfFuel
  | S fuel' =>
      m ← get_sm;
      let c := next_conv_ m in
      _ ← upd_sm (λ m, m <| next_conv_ := u32 (c + 1) |>);
      match sessions_ m !! c with
      | None => mret c
      | Some _ => conv_loop fuel'
      end
  end.

(* src/gateway/session_manager.cpp:28-33 alloc_conv *)
Definition alloc_conv : G Z := m ← get_sm; conv_loop (S (size (sessions_ m))).

(* src/gateway/session_manager.cpp:45-49 register_client *)
Fixpoint find_pending (src : sockaddr_in) (l : list (Z * Session)) : option Z :=
  match l with
  | [] => None
  | (_, o) :: l' =>
      if dying o || (0 <=? target_fd o) then find_pending src l'
      else if same_addr (client_addr o) src then Some (s_conv o) else find_pending src l'
  end.

(* src/gateway/session_manager.cpp:39-67 register_client *)
Definition register_client (src : sockaddr_in) : G unit :=
  m ← get_sm;
  conv ← (match find_pending src (map_to_list (sessions_ m)) with
          | Some conv => mret conv
          | None =>
              conv ← alloc_conv;
              _ ← put_session conv (new_session conv src);
              _ ← kcp_session_init conv conv src (sm_client_fd_ m);
              _ ← sync_timer;
              mret conv
          end);
  '(sz, out) ← lift (pack_registered (replicate 5 0) conv);
  sendto (sm_client_fd_ m) (take (Z.to_nat sz) out) src.

(* src/gateway/session_manager.cpp:70-86 lookup *)
Definition lookup_session (src : sockaddr_in) (pkt : list Z) : G (option Z) :=
  match ikcp_getconv pkt with
  | None => stop OutOfBounds
  | Some conv =>
      m ← get_sm;
      match sessions_ m !! conv with
      | None => mret None
      | Some s => if same_addr (client_addr s) src then mret (Some conv) else mret None
      end
  end.

(* src/gateway/session_manager.cpp:89-107 open_target *)
(** [emplace] leaves an entry that is there already. *)
Definition open_target (c : Z) : G bool :=
  fd ← new_socket;
  _ ← upd_session c (λ s, s <| target_fd := fd |>);
  if fd <? 0 then mret false else
  _ ← epoll_add fd;
  _ ← upd_sm (λ m, m <| fd_to_session_ := match fd_to_session_ m !! fd with
                                            | Some _ => fd_to_session_ m
                                            | None => <[fd := c]> (fd_to_session_ m)
                                            end |>);
  mret true.

(* src/gateway/session_manager.cpp:109-112 by_fd *)
Definition by_fd (fd : Z) : G (option Z) := m ← get_sm; mret (fd_to_session_ m !! fd).

(* src/gateway/session_manager.cpp:114-117 mark_dying *)
Definition mark_dying (c : Z) : G unit :=
  s ← deref c;
  _ ← put_session c (s <| dying := true |>);
  upd_sm (λ m, m <| to_erase_ := to_erase_ m ++ [s_conv s] |>).

(* src/gateway/session_manager.cpp:119-119 teardown_pending *)
Definition teardown_pending : G bool := m ← get_sm; mret (negb (bool_decide (to_erase_ m = []))).

(* src/gateway/session_manager.cpp:123-133 flush_teardown *)
Fixpoint teardown_loop (l : list Z) : G unit :=
  match l with
  | [] => mret tt
  | conv :: l' =>
      m ← get_sm;
      match sessions_ m !! conv with
      | None => teardown_loop l'
      | Some s =>
          _ ← (if 0 <=? target_fd s then
                 _ ← epoll_del (target_fd s);
                 _ ← upd_sm (λ m, m <| fd_to_session_ := delete (target_fd s) (fd_to_session_ m) |>);
                 close (target_fd s)
               else mret tt);
          _ ← session_destroy conv;
          _ ← upd_sm (λ m, m <| sessions_ := delete conv (sessions_ m) |>);
          teardown_loop l'
      end
  end.

(* src/gateway/session_manager.cpp:122-136 flush_teardown *)
Definition flush_teardown : G unit :=
  m ← get_sm;
  _ ← teardown_loop (to_erase_ m);
  _ ← upd_sm (λ m, m <| to_erase_ := [] |>);
  sync_timer.

(* src/gateway/session_manager.cpp:143-152 sweep_idle *)
Fixpoint sweep_loop (now : Z) (l : list Z) : G unit :=
  match l with
  | [] => mret tt
  | c :: l' =>
      s ← deref c;
      m ← get_sm;
      _ ← (if dying s then mret tt
           else if idle_ms_ m <? u64 (now - last_active s) then mark_dying c
           else mret tt);
      sweep_loop now l'
  end.

(* src/gateway/session_manager.cpp:139-153 sweep_idle *)
Definition sweep_idle (now : Z) : G unit :=
  m ← get_sm;
  if u64 (now - last_idle_sweep_ m) <? 1000 then mret tt else
  _ ← upd_sm (λ m, m <| last_idle_sweep_ := now |>);
  if sm_empty m then mret tt else
  sweep_loop now (map_to_list (sessions_ m)).*1.

(* src/gateway/session_manager.cpp:20-24 for_each_active *)
Fixpoint for_each_active (fn : Z → G unit) (l : list Z) : G unit :=
  match l with
  | [] => mret tt
  | c :: l' =>
      s ← deref c;
      _ ← (if dying s then mret tt else fn c);
      for_each_active fn l'
  end.
