(* ===== verification/Gateway.v ===== *)
(** * The gateway's handlers and its event loop
    (src/gateway/gateway.cpp, src/gateway/event_loop.cpp)

    A held pool block is named by its index; the bytes in it are local values
    of the handler that holds it. *)

From S2P Require Import Prelude CRuntime IkcpData Ikcp Decimal Tunnel MemPool KvClient Session.

(** [recvfrom(client_fd_, pkt, MemoryPool::BLOCK, ...)]: the next datagram, cut
    to the block; [None] when there is none. *)
Definition recv_client : G (option (sockaddr_in * list Z)) :=
  o ← get_os;
  match os_inbox o with
  | [] => mret None
  | (src, bytes) :: rest =>
      _ ← upd_os (λ o, o <| os_inbox := rest |>);
      mret (Some (src, take (Z.to_nat BLOCK) bytes))
  end.

(** [recvfrom(fd, rply, max, ...)] on a relay socket. *)
Definition recv_target (fd max : Z) : G (option (list Z)) :=
  o ← get_os;
  match os_replies o !! fd with
  | Some (bytes :: rest) =>
      _ ← upd_os (λ o, o <| os_replies := <[fd := rest]> (os_replies o) |>);
      mret (Some (take (Z.to_nat max) bytes))
  | _ => mret None
  end.

Section gateway.
(** Rounds of [KVClient]'s reading loop. *)
Context (kv_fuel : nat).

(* src/gateway/gateway.cpp:57-76 handle_tunnel_msg *)
(** The CONNECT branch. *)
Definition handle_connect (c : Z) (buf : list Z) : G bool :=
  s ← deref c;
  if 0 <=? target_fd s then mret false else
  '(_, out) ← lift (read_connect_route buf (ROUTE_MAX + 1));
  let route := c_str out in
  node ← on_kv (kv_get kv_fuel (str "route:" ++ route));
  match node ≫= node_to_addr with
  | None => _ ← mark_dying c; mret true
  | Some a =>
      _ ← upd_session c (λ s, s <| target_addr := a |>);
      t ← now_ms;
      _ ← upd_session c (λ s, s <| last_active := t |>);
      ok ← open_target c;
      mret (negb ok)
  end.

(* src/gateway/gateway.cpp:48-101 handle_tunnel_msg *)
(** [true]: the session is gone. *)
Definition handle_tunnel_msg (c : Z) (buf : list Z) (n : Z) : G bool :=
  p ← lift (parse buf n);
  match p with
  | None => mret false
  | Some (type, data, data_len) =>
      if type =? PACKET_CONNECT then handle_connect c buf
      else if type =? PACKET_DATA then
        s ← deref c;
        if target_fd s <? 0 then mret false else
        t ← now_ms;
        _ ← upd_session c (λ s, s <| last_active := t |>);
        match data with
        | None => stop NullDeref
        | Some off =>
            d ← lift (load buf off (Z.to_nat data_len));
            _ ← sendto (target_fd s) d (target_addr s);
            mret false
        end
      else if type =? PACKET_CLOSE then _ ← mark_dying c; mret true
      else mret false
  end.

(* src/gateway/gateway.cpp:146-155 handle_tunnel_datagram *)
(** The messages KCP has put together: [true] when the session is gone. *)
Fixpoint message_loop (fuel : nat) (c : Z) : G bool :=
  match fuel with
  | O => stop OutOfFuel
  | S fuel' =>
      '(got, tmsg) ← on_kcp c (ikcp_recv BLOCK);
      if BLOCK <? Z.of_nat (length tmsg) then stop OutOfBounds else
      if got <=? 0 then mret false else
      gone ← handle_tunnel_msg c tmsg got;
      if (gone : bool) then mret true else message_loop fuel' c
  end.

(** The number of segments a session may still have to read. *)
Definition waiting (c : Z) : G nat :=
  s ← deref c;
  mret (match ks_kcp (s_kcp s) with
        | Some k => length (rcv_queue k) + length (rcv_buf k)
        | None => 0
        end)%nat.

(* src/gateway/gateway.cpp:134-157 handle_tunnel_datagram *)
(** A KCP segment from [src] in block [pkt]: [true] when the handler returns
    because the pool is empty. *)
Definition handle_segment (src : sockaddr_in) (pkt : nat) (bytes : list Z) : G bool :=
  s ← lookup_session src bytes;
  match s with
  | None => _ ← on_pool (free_block (Some pkt)); mret false
  | Some c =>
      s ← deref c;
      if dying s then _ ← on_pool (free_block (Some pkt)); mret false else
      t ← now_ms;
      _ ← upd_session c (λ s, s <| last_active := t |>);
      _ ← on_kcp c (ikcp_input bytes);
      t ← now_ms;
      _ ← on_kcp_out c (ikcp_update (now32 t));
      _ ← on_kcp_out c ikcp_flush;
      _ ← on_pool (free_block (Some pkt));
      tmsg ← on_pool alloc_block;
      match tmsg with
      | None => mret true
      | Some b =>
          _ ← on_pool (fill_block b);
          n ← waiting c;
          gone ← message_loop (S n) c;
          _ ← on_pool (free_block (Some b));
          _ ← (if (gone : bool) then mret tt else
                 t ← now_ms; upd_session c (λ s, s <| last_active := t |>));
          mret false
      end
  end.

Fixpoint datagram_loop (fuel : nat) : G unit :=
  match fuel with
  | O => stop OutOfFuel
  | S fuel' =>
      pkt ← on_pool alloc_block;
      match pkt with
      | None => mret tt
      | Some b =>
          r ← recv_client;
          match r with
          | None => on_pool (free_block (Some b))
          | Some (src, bytes) =>
              _ ← on_pool (fill_block b);
              if bool_decide (bytes = [PACKET_REGISTER]) then
                _ ← register_client src;
                _ ← on_pool (free_block (Some b));
                datagram_loop fuel'
              else if Z.of_nat (length bytes) <? 24 then
                _ ← on_pool (free_block (Some b));
                datagram_loop fuel'
              else
                stopped ← handle_segment src b bytes;
                if (stopped : bool) then mret tt else datagram_loop fuel'
          end
      end
  end.

(* src/gateway/gateway.cpp:103-159 handle_tunnel_datagram *)
Definition handle_tunnel_datagram : G unit :=
  o ← get_os; datagram_loop (S (length (os_inbox o))).

Fixpoint reply_loop (fuel : nat) (c fd : Z) : G unit :=
  match fuel with
  | O => stop OutOfFuel
  | S fuel' =>
      rply ← on_pool alloc_block;
      match rply with
      | None => mret tt
      | Some b =>
          r ← recv_target fd (BLOCK - DATA_HEAD_LEN);
          match r with
          | None => on_pool (free_block (Some b))
          | Some bytes =>
              _ ← on_pool (fill_block b);
              t ← now_ms;
              _ ← upd_session c (λ s, s <| last_active := t |>);
              tmsg ← on_pool alloc_block;
              match tmsg with
              | None => on_pool (free_block (Some b))
              | Some b2 =>
                  _ ← on_pool (fill_block b2);
                  '(sz, out) ← lift (pack_data (replicate (Z.to_nat BLOCK) 0) bytes (u16 (Z.of_nat (length bytes))));
                  t ← now_ms;
                  _ ← on_kcp_out c (ikcp_update (now32 t));
                  _ ← on_kcp c (ikcp_send (take (Z.to_nat sz) out) sz);
                  _ ← on_kcp_out c ikcp_flush;
                  _ ← on_pool (free_block (Some b2));
                  _ ← on_pool (free_block (Some b));
                  reply_loop fuel' c fd
              end
          end
      end
  end.

(* src/gateway/gateway.cpp:161-197 handle_target_reply *)
Definition handle_target_reply (c fd : Z) : G unit :=
  s ← deref c;
  if dying s then mret tt else
  o ← get_os;
  reply_loop (S (length (default [] (os_replies o !! fd)))) c fd.

(** ** The event loop *)

Inductive event :=
  | EvClient
  | EvTimer
  | EvFd (fd : Z).

(* src/gateway/event_loop.cpp:67-80 run *)
(** One entry of the array [epoll_wait] filled. *)
Definition dispatch_event (e : event) : G unit :=
  match e with
  | EvClient => handle_tunnel_datagram
  | EvTimer =>
      t ← now_ms;
      m ← get_sm;
      _ ← for_each_active (λ c, on_kcp_out c (ikcp_update (now32 t))) (map_to_list (sessions_ m)).*1;
      t ← now_ms;
      sweep_idle t
  | EvFd fd =>
      s ← by_fd fd;
      match s with
      | None => mret tt
      | Some c => handle_target_reply c fd
      end
  end.

Fixpoint dispatch_events (es : list event) : G unit :=
  match es with
  | [] => mret tt
  | e :: es' => _ ← dispatch_event e; dispatch_events es'
  end.

(* src/gateway/event_loop.cpp:62-84 run *)
(** One round of the loop, for a batch of events. *)
Definition loop_round (es : list event) : G unit :=
  _ ← dispatch_events es;
  pending ← teardown_pending;
  if (pending : bool) then flush_teardown else mret tt.
End gateway.

(** ** Starting up *)

(* src/gateway/gateway.cpp:17-17 CLIENT_BIND_IP *)
Definition CLIENT_BIND_IP : cstr := str "0.0.0.0".
(* src/gateway/gateway.cpp:18-18 CLIENT_PORT *)
Definition CLIENT_PORT : Z := 8000.
(* src/gateway/gateway.cpp:19-19 KVSTORE_IP *)
Definition KVSTORE_IP : cstr := str "127.0.0.1".
(* src/gateway/gateway.cpp:20-20 KVSTORE_PORT *)
Definition KVSTORE_PORT : Z := 9096.
(* src/gateway/gateway.cpp:21-21 SESSION_IDLE_MS *)
Definition SESSION_IDLE_MS : Z := 30000.

Section start.
(** Whether [bind] succeeds for an address; the value of GATEWAY_IDLE_MS. *)
Context (bind_ok : sockaddr_in → bool) (getenv : option cstr).

(* src/gateway/gateway.cpp:23-46 bind_tunnel_socket *)
Definition bind_tunnel_socket : G Z :=
  fd ← new_socket;
  if fd <? 0 then mret (-1) else
  if bind_ok (SockAddr (default 0 (inet_pton CLIENT_BIND_IP)) CLIENT_PORT) then mret fd
  else _ ← close fd; mret (-1).

(* src/gateway/event_loop.cpp:20-34 EventLoop *)
(** The constructor: the two descriptors it creates. *)
Definition new_event_loop (client_fd : Z) : G (Z * Z) :=
  epfd ← new_socket;
  if epfd <? 0 then mret (epfd, -1) else
  _ ← epoll_add client_fd;
  timer_fd ← new_socket;
  if timer_fd <? 0 then mret (epfd, timer_fd) else
  _ ← epoll_add timer_fd;
  mret (epfd, timer_fd).

(* src/gateway/gateway.cpp:199-221 run *)
(** Up to the event loop: [Some 1] when [run] returns 1 before it. *)
Definition gateway_start : G (option Z) :=
  p ← lift new_pool;
  _ ← upd_gw (λ g, g <| pool_ := p |>);
  fd ← bind_tunnel_socket;
  _ ← upd_gw (λ g, g <| client_fd_ := fd |>);
  if fd <? 0 then mret (Some 1) else
  _ ← on_kv (connect KVSTORE_IP KVSTORE_PORT);
  let idle_ms := match getenv with Some e => strtoul e | None => SESSION_IDLE_MS end in
  _ ← new_event_loop fd;
  _ ← upd_gw (λ g, g <| sman := new_session_manager fd |>);
  _ ← set_idle_ms idle_ms;
  mret None.
End start.
