(* ===== verification/GatewayInv.v ===== *)
(** * The invariant of the gateway's session table, and the calls that keep it

    Every session has a well-formed KCP control block; the table of relay
    descriptors is the inverse of the sessions' [target_fd]; the sessions to
    be torn down are the dying ones; an endpoint has at most one session that
    waits for its CONNECT; and no block of memory is lost. *)

From S2P Require Import Prelude CRuntime IkcpData Ikcp IkcpRecv IkcpApi IkcpBytes.
From S2P Require Import Decimal Tunnel MemPool KvClient Session Gateway.

(** ** Control blocks, whatever the allocator does meanwhile *)

Definition live_kcp (N : Z) (k : ikcpcb) : Prop :=
  ∀ a, al_total a → bsession (al_live a - blocks k) N (World k a).

Lemma bsession_live base N k a : bsession base N (World k a) → live_kcp N k.
Proof.
  intros [(f & g & U & X & M & ps & Hinv & _ & _ & H) Hb] a' Ha'. split; [|done].
  exists f, g, U, X, M, ps. cbn [w_eng w_al] in *. split; [done|]. split; [done|]. split; [|done].
  unfold owns. cbn. lia.
Qed.

Lemma bsession_owns base N k a : bsession base N (World k a) → al_live a - blocks k = base ∧ al_total a.
Proof.
  intros [(f & g & U & X & M & ps & _ & Ha & Ho & _) _]. unfold owns in Ho. cbn in *. split; [lia|done].
Qed.

Lemma live_mono N N' k : N ≤ N' → live_kcp N k → live_kcp N' k.
Proof. intros HN H a Ha. eapply bsession_mono; [done|]. by apply H. Qed.

(** ** Blocks held by the table *)

Definition sess_blocks (s : Session) : Z :=
  match ks_kcp (s_kcp s) with Some k => blocks k | None => 0 end.

Definition table_blocks (m : gmap Z Session) : Z := map_fold (λ _ s acc, sess_blocks s + acc) 0 m.

Lemma table_blocks_insert m c s :
  m !! c = None → table_blocks (<[c := s]> m) = sess_blocks s + table_blocks m.
Proof. intros H. unfold table_blocks. rewrite map_fold_insert_L; [done| |done]. intros. lia. Qed.

Lemma table_blocks_delete m c s :
  m !! c = Some s → table_blocks m = sess_blocks s + table_blocks (delete c m).
Proof. intros H. unfold table_blocks. rewrite (map_fold_delete_L _ _ c s); [done| |done]. intros. lia. Qed.

Lemma table_blocks_replace m c s s' :
  m !! c = Some s → table_blocks (<[c := s']> m) = table_blocks m - sess_blocks s + sess_blocks s'.
Proof.
  intros H. rewrite <- insert_delete_eq. rewrite table_blocks_insert by apply lookup_delete_eq.
  rewrite (table_blocks_delete m c s H). lia.
Qed.

(** ** The invariant *)

Definition pending_sess (s : Session) : Prop := dying s = false ∧ target_fd s < 0.

Record gw_inv (R : nat) (L N : Z) (l : list nat) (w : world gateway) : Prop := {
  gi_al : al_total (w_al w);
  gi_sess : ∀ c s, sessions_ (sman (w_eng w)) !! c = Some s →
    s_conv s = c ∧ 0 ≤ c < 2 ^ 32 ∧ ∃ k, ks_kcp (s_kcp s) = Some k ∧ live_kcp N k;
  gi_size : Z.of_nat (size (sessions_ (sman (w_eng w)))) ≤ N;
  gi_blocks : al_live (w_al w) = L + table_blocks (sessions_ (sman (w_eng w)));
  gi_next : 0 ≤ next_conv_ (sman (w_eng w)) < 2 ^ 32;
  gi_pool : pool_rep (Z.to_nat CAP) (pool_ (w_eng w)) l;
  gi_kv : kv_ready R (kv_ (w_eng w));
  gi_fds : ∀ fd c, fd_to_session_ (sman (w_eng w)) !! fd = Some c ↔
    0 ≤ fd ∧ ∃ s, sessions_ (sman (w_eng w)) !! c = Some s ∧ target_fd s = fd;
  gi_open : ∀ c s, sessions_ (sman (w_eng w)) !! c = Some s → 0 ≤ target_fd s →
    target_fd s ∈ os_open (os (w_eng w)) ∧ target_fd s ∈ os_epoll (os (w_eng w));
  gi_erase : ∀ c, c ∈ to_erase_ (sman (w_eng w)) ↔
    ∃ s, sessions_ (sman (w_eng w)) !! c = Some s ∧ dying s = true;
  gi_pending : ∀ c1 c2 s1 s2, sessions_ (sman (w_eng w)) !! c1 = Some s1 →
    sessions_ (sman (w_eng w)) !! c2 = Some s2 → pending_sess s1 → pending_sess s2 →
    client_addr s1 = client_addr s2 → c1 = c2;
}.

(** Session [c] replaced by [s]. *)
Definition set_sess (c : Z) (s : Session) (g : gateway) : gateway :=
  g <| sman := sman g <| sessions_ := <[c := s]> (sessions_ (sman g)) |> |>.

Lemma sess_lookup c s g c' s' :
  sessions_ (sman (set_sess c s g)) !! c' = Some s' →
  (c' = c ∧ s' = s) ∨ (c' ≠ c ∧ sessions_ (sman g) !! c' = Some s').
Proof.
  cbn. intros H. destruct (decide (c = c')) as [->|Hne].
  - rewrite lookup_insert_eq in H. left. by simplify_eq.
  - rewrite lookup_insert_ne in H by done. by right.
Qed.

Section keep.
Context (R : nat) (L : Z).
Implicit Types (g : gateway) (a : alloc) (s : Session) (k : ikcpcb) (l : list nat).

Lemma inv_mono N N' l w : N ≤ N' → gw_inv R L N l w → gw_inv R L N' l w.
Proof.
  intros HN [H1 H2 H3 H4 H5 H6 H7 H8 H9 H10 H12]. constructor; try done; [|lia].
  intros c s Hs. destruct (H2 c s Hs) as (E1 & E2 & k & E3 & E4).
  split; [done|]. split; [done|]. exists k. split; [done|]. by eapply live_mono.
Qed.

(** A change of the system's state that keeps the open descriptors. *)
Lemma inv_os N l g a o :
  gw_inv R L N l (World g a) → os_open o = os_open (os g) → os_epoll o = os_epoll (os g) →
  gw_inv R L N l (World (g <| os := o |>) a).
Proof.
  intros [H1 H2 H3 H4 H5 H6 H7 H8 H9 H10 H12] Eo Ee. constructor; try done.
  intros c s Hs Ht. cbn. rewrite Eo, Ee. by apply (H9 c).
Qed.

(** A change of session [c] that keeps its identity, its descriptor and its
    life. *)
Lemma inv_put N N' l g a a' c s s' k k' :
  gw_inv R L N l (World g a) → sessions_ (sman g) !! c = Some s →
  ks_kcp (s_kcp s) = Some k → ks_kcp (s_kcp s') = Some k' →
  s_conv s' = s_conv s → client_addr s' = client_addr s → target_fd s' = target_fd s → dying s' = dying s →
  N ≤ N' → live_kcp N' k' → al_total a' → al_live a' - blocks k' = al_live a - blocks k →
  gw_inv R L N' l (World (set_sess c s' g) a').
Proof.
  intros Hinv Hs Hk Hk' E1 E2 E3 E4 HN Hl Ha Hb.
  pose proof (inv_mono N N' l _ HN Hinv) as [H1 H2 H3 H4 H5 H6 H7 H8 H9 H10 H12].
  cbn [w_eng w_al] in *. constructor; cbn [w_eng w_al]; try done.
  - intros c' t Ht. apply sess_lookup in Ht as [[-> ->]|[_ Ht]]; [|by apply H2].
    destruct (H2 c s Hs) as (F1 & F2 & _). rewrite E1. split; [done|]. split; [done|]. by exists k'.
  - cbn. rewrite map_size_insert_Some by done. done.
  - cbn. rewrite (table_blocks_replace _ c s) by done. unfold sess_blocks. rewrite Hk, Hk'. lia.
  - intros fd c'. cbn. rewrite H8. split; intros (Hfd & t & Ht & Hf); (split; [done|]).
    + destruct (decide (c = c')) as [->|Hne]; [|exists t; by rewrite lookup_insert_ne].
      exists s'. rewrite lookup_insert_eq. split; [done|]. rewrite E3. by simplify_eq.
    + apply sess_lookup in Ht as [[-> ->]|[_ Ht]]; [|by exists t]. exists s. by rewrite <- E3.
  - intros c' t Ht Hf. apply sess_lookup in Ht as [[-> ->]|[_ Ht]]; [|by apply (H9 c')].
    rewrite E3 in *. by apply (H9 c).
  - intros c'. cbn. rewrite H10. split; intros (t & Ht & Hd).
    + destruct (decide (c = c')) as [->|Hne]; [|exists t; by rewrite lookup_insert_ne].
      exists s'. rewrite lookup_insert_eq. split; [done|]. rewrite E4. by simplify_eq.
    + apply sess_lookup in Ht as [[-> ->]|[_ Ht]]; [|by exists t]. exists s. by rewrite <- E4.
  - intros c1 c2 s1 s2 Hs1 Hs2 [P1 P1'] [P2 P2'] Ec.
    apply sess_lookup in Hs1 as [[-> ->]|[Hn1 Hs1]]; apply sess_lookup in Hs2 as [[-> ->]|[Hn2 Hs2]]; try done.
    + rewrite E2, E3, E4 in *. by apply (H12 c c2 s s2).
    + rewrite E2, E3, E4 in *. by apply (H12 c1 c s1 s).
    + by apply (H12 c1 c2 s1 s2).
Qed.
End keep.
