(* ===== verification/GatewaySafe.v ===== *)
(** * The gateway runs without a fault

    Total correctness of the handlers: each runs to the end, keeps the
    invariant, and within a batch never removes a session, so that the
    pointers the handlers hold stay valid until [flush_teardown]. *)

From S2P Require Import Prelude CRuntime IkcpData Ikcp IkcpRecv IkcpApi IkcpBytes.
From S2P Require Import Decimal Tunnel MemPool KvClient Session Gateway GatewayInv.

(** ** What a step leaves alone *)

Definition table (w : world gateway) : gmap Z Session := sessions_ (sman (w_eng w)).

Record keeps (w w' : world gateway) : Prop := {
  kp_inbox : os_inbox (os (w_eng w')) = os_inbox (os (w_eng w));
  kp_replies : os_replies (os (w_eng w')) = os_replies (os (w_eng w));
  kp_dom : ∀ c, is_Some (table w !! c) → is_Some (table w' !! c);
}.

#[global] Instance keeps_preorder : PreOrder keeps.
Proof.
  split; [done|]. intros w1 w2 w3 [A1 A2 A3] [B1 B2 B3]. constructor; [congruence..|]. auto.
Qed.

(** The control blocks of all sessions. *)
Definition kcps (w : world gateway) : gmap Z (option ikcpcb) := (λ s, ks_kcp (s_kcp s)) <$> table w.

(** ** Elementary steps *)

Lemma get_sm_run g a : get_sm (World g a) = Ok (sman g, World g a).
Proof. done. Qed.
Lemma get_os_run g a : get_os (World g a) = Ok (os g, World g a).
Proof. done. Qed.
Lemma upd_os_run f g a : upd_os f (World g a) = Ok (tt, World (g <| os := f (os g) |>) a).
Proof. done. Qed.
Lemma upd_sm_run f g a : upd_sm f (World g a) = Ok (tt, World (g <| sman := f (sman g) |>) a).
Proof. done. Qed.
Lemma put_session_run c s g a : put_session c s (World g a) = Ok (tt, World (set_sess c s g) a).
Proof. done. Qed.

#[export] Hint Rewrite get_sm_run get_os_run upd_os_run upd_sm_run put_session_run : ga_run.

Lemma deref_run g a c s : sessions_ (sman g) !! c = Some s → deref c (World g a) = Ok (s, World g a).
Proof. intros H. unfold deref. run. by rewrite H. Qed.

Lemma upd_session_run c f g a s :
  sessions_ (sman g) !! c = Some s → upd_session c f (World g a) = Ok (tt, World (set_sess c (f s) g) a).
Proof. intros H. unfold upd_session. run. by rewrite (deref_run _ _ _ _ H). Qed.

Lemma set_sess_twice c s s' g : set_sess c s (set_sess c s' g) = set_sess c s g.
Proof. unfold set_sess, upd, set_sman, set_sessions. cbn. by rewrite insert_insert_eq. Qed.

Lemma set_sess_lookup c s g : sessions_ (sman (set_sess c s g)) !! c = Some s.
Proof. apply lookup_insert_eq. Qed.

(** Session [s] with control block [k]. *)
Definition with_kcp (s : Session) (k : ikcpcb) : Session :=
  s <| s_kcp := KcpSess (Some k) (ks_peer (s_kcp s)) (ks_client_fd (s_kcp s)) |>.

Lemma on_kcp_run {A} g a c s k (m : K A) x k' a' :
  sessions_ (sman g) !! c = Some s → ks_kcp (s_kcp s) = Some k → m (World k a) = Ok (x, World k' a') →
  on_kcp c m (World g a) = Ok (x, World (set_sess c (with_kcp s k') g) a').
Proof. intros Hs Hk Hm. unfold on_kcp. cbn [w_eng w_al]. by rewrite Hs, Hk, Hm. Qed.

Section steps.
Context (R : nat) (L : Z).

Lemma deref_safe N l w c :
  gw_inv R L N l w → is_Some (table w !! c) →
  safe (deref c) w (λ s w', w' = w ∧ table w !! c = Some s ∧ s_conv s = c).
Proof.
  destruct w as [g a]. intros Hinv [s Hs]. exists s, (World g a). split; [by apply deref_run|].
  split_and!; try done. by apply (gi_sess _ _ _ _ _ Hinv c).
Qed.

(** Steps that touch only the system's counters and queues of datagrams. *)
Lemma upd_os_safe N l w f :
  gw_inv R L N l w → (∀ o, os_open (f o) = os_open o ∧ os_epoll (f o) = os_epoll o ∧
    os_inbox (f o) = os_inbox o ∧ os_replies (f o) = os_replies o) →
  safe (upd_os f) w (λ _ w', gw_inv R L N l w' ∧ keeps w w' ∧ table w' = table w).
Proof.
  destruct w as [g a]. intros Hinv Hf. destruct (Hf (os g)) as (F1 & F2 & F3 & F4).
  eexists _, _. split; [apply upd_os_run|]. split; [by apply inv_os|]. split; [|done]. by constructor.
Qed.

Lemma now_ms_safe N l w :
  gw_inv R L N l w →
  safe now_ms w (λ _ w', gw_inv R L N l w' ∧ keeps w w' ∧ table w' = table w).
Proof.
  intros Hinv. unfold now_ms. destruct w as [g a]. apply safe_bind. exists (os g), (World g a). split; [done|].
  apply safe_bind. eapply safe_mono; [by apply upd_os_safe|]. intros ? w' H. by apply safe_ret.
Qed.

Lemma sendto_safe N l w fd b dst :
  gw_inv R L N l w →
  safe (sendto fd b dst) w (λ _ w', gw_inv R L N l w' ∧ keeps w w' ∧ table w' = table w).
Proof. intros Hinv. by apply upd_os_safe. Qed.

Lemma emit_safe N l w ks out :
  gw_inv R L N l w →
  safe (emit ks out) w (λ _ w', gw_inv R L N l w' ∧ keeps w w' ∧ table w' = table w).
Proof.
  revert w. induction out as [|b out IH]; intros w Hinv; cbn [emit]; [by apply safe_ret|].
  apply safe_bind. eapply safe_mono; [by apply sendto_safe|]. intros ? w1 (H1 & K1 & T1).
  eapply safe_mono; [by apply IH|]. intros ? w2 (H2 & K2 & T2). split; [done|].
  split; [by etrans|congruence].
Qed.

(** Updates of a session that keep its identity, its descriptor, its life and
    its control block. *)
Lemma upd_session_safe N l w c f :
  gw_inv R L N l w → is_Some (table w !! c) →
  (∀ s, s_conv (f s) = s_conv s ∧ client_addr (f s) = client_addr s ∧ target_fd (f s) = target_fd s ∧
     dying (f s) = dying s ∧ s_kcp (f s) = s_kcp s) →
  safe (upd_session c f) w (λ _ w', gw_inv R L N l w' ∧ keeps w w' ∧ kcps w' = kcps w ∧
    ∃ s, table w !! c = Some s ∧ table w' = <[c := f s]> (table w)).
Proof.
  destruct w as [g a]. intros Hinv [s Hs] Hf. destruct (Hf s) as (F1 & F2 & F3 & F4 & F5).
  eexists _, _. split; [by apply upd_session_run|].
  destruct (gi_sess _ _ _ _ _ Hinv c s Hs) as (_ & _ & k & Hk & Hl).
  split_and!.
  - eapply (inv_put R L N N l g a a c s (f s) k k); try done; [by rewrite F5|apply Hinv].
  - constructor; try done. intros c' Hc'. unfold table in *. cbn in *.
    destruct (decide (c = c')) as [->|]; [by rewrite lookup_insert_eq|by rewrite lookup_insert_ne].
  - unfold kcps, table. cbn. rewrite fmap_insert, F5.
    apply insert_id. unfold table in Hs. cbn in Hs. by rewrite lookup_fmap, Hs.
  - by exists s.
Qed.

(** A call on a session's control block. *)
Lemma on_kcp_safe {A} N N' l w c (m : K A) (P : A → ikcpcb → Prop) :
  gw_inv R L N l w → is_Some (table w !! c) → N ≤ N' →
  (∀ base k a, kcps w !! c = Some (Some k) → bsession base N (World k a) →
     ∃ x k' a', m (World k a) = Ok (x, World k' a') ∧ bsession base N' (World k' a') ∧ P x k') →
  safe (on_kcp c m) w (λ x w', gw_inv R L N' l w' ∧ keeps w w' ∧
    ∃ k', kcps w' !! c = Some (Some k') ∧ P x k').
Proof.
  destruct w as [g a]. intros Hinv [s Hs] HN Hm. pose proof (gi_al _ _ _ _ _ Hinv) as Ha. cbn in Ha.
  destruct (gi_sess _ _ _ _ _ Hinv c s Hs) as (_ & _ & k & Hk & Hl).
  assert (kcps (World g a) !! c = Some (Some k)) as Hkc by (unfold kcps; by rewrite lookup_fmap, Hs; cbn; rewrite Hk).
  destruct (Hm _ k a Hkc (Hl a Ha)) as (x & k' & a' & Hrun & Hb & HP).
  unfold table in Hs. cbn in Hs. destruct (bsession_owns _ _ _ _ Hb) as [Ho Ha'].
  set (s' := with_kcp s k'). exists x, (World (set_sess c s' g) a'). split; [by eapply on_kcp_run|].
  split_and!.
  - apply (inv_put R L N N' l g a a' c s s' k k'); try done. by eapply bsession_live.
  - constructor; try done. intros c' Hc'. unfold table in *. cbn in *.
    destruct (decide (c = c')) as [->|]; [by rewrite lookup_insert_eq|by rewrite lookup_insert_ne].
  - exists k'. split; [|done]. unfold kcps, table. cbn. by rewrite lookup_fmap, lookup_insert_eq.
Qed.

Lemma on_kcp_out_safe N l w c (m : K (list (list Z))) :
  gw_inv R L N l w → is_Some (table w !! c) →
  (∀ base k a, bsession base N (World k a) →
     ∃ x w', m (World k a) = Ok (x, w') ∧ bsession base N w') →
  safe (on_kcp_out c m) w (λ _ w', gw_inv R L N l w' ∧ keeps w w').
Proof.
  intros Hinv Hc Hm. unfold on_kcp_out. apply safe_bind. eapply safe_mono.
  { apply (on_kcp_safe N N l w c m (λ _ _, True) Hinv Hc); [lia|].
    intros base k a _ Hb. destruct (Hm base k a Hb) as (x & [k' a'] & H1 & H2). by exists x, k', a'. }
  intros out w1 (H1 & K1 & _). apply safe_bind.
  eapply safe_mono; [apply (deref_safe N l w1 c H1); by apply (kp_dom _ _ K1)|].
  intros s w2 (-> & _). eapply safe_mono; [by apply emit_safe|]. intros ? w3 (H3 & K3 & _). split; [done|]. by etrans.
Qed.

(** ** The pool *)

Lemma alloc_safe N l w :
  gw_inv R L N l w →
  safe (on_pool alloc_block) w (λ p w', keeps w w' ∧ table w' = table w ∧
    match l with
    | [] => p = None ∧ w' = w
    | b :: l' => p = Some b ∧ gw_inv R L N l' w' ∧ b ∉ l' ∧ (b < Z.to_nat CAP)%nat
    end).
Proof.
  destruct w as [g a]. intros Hinv. pose proof (gi_pool _ _ _ _ _ Hinv) as Hp. cbn in Hp.
  pose proof (alloc_run _ _ _ Hp) as Hr. unfold safe, on_pool. cbn [w_eng w_al]. destruct l as [|b l].
  - rewrite Hr. eexists _, _. split; [done|]. by destruct g.
  - destruct Hr as (p' & -> & Hp' & _). eexists _, _. split; [done|]. split; [done|]. split; [done|].
    pose proof (pool_rep_bound _ _ _ Hp) as Hbd. apply Forall_cons in Hbd as [Hb _].
    pose proof (pr_nodup _ _ _ Hp) as Hnd. apply NoDup_cons in Hnd as [Hn _].
    split; [done|]. split; [|done]. destruct Hinv as [H1 H2 H3 H4 H5 H6 H7 H8 H9 H10 H12]. by constructor.
Qed.

Lemma pool_safe N l l' w (m : prog MemoryPool unit) :
  gw_inv R L N l w →
  (∀ p, pool_rep (Z.to_nat CAP) p l → ∃ p', m p = Ok (tt, p') ∧ pool_rep (Z.to_nat CAP) p' l') →
  safe (on_pool m) w (λ _ w', gw_inv R L N l' w' ∧ keeps w w' ∧ table w' = table w).
Proof.
  destruct w as [g a]. intros Hinv Hm. destruct (Hm _ (gi_pool _ _ _ _ _ Hinv)) as (p' & Hr & Hp').
  unfold safe, on_pool. cbn [w_eng w_al] in *. rewrite Hr. eexists _, _. split; [done|]. split; [|done].
  destruct Hinv as [H1 H2 H3 H4 H5 H6 H7 H8 H9 H10 H12]. by constructor.
Qed.

Lemma free_safe N l w b :
  gw_inv R L N l w → b ∉ l → (b < Z.to_nat CAP)%nat →
  safe (on_pool (free_block (Some b))) w (λ _ w', gw_inv R L N (b :: l) w' ∧ keeps w w' ∧ table w' = table w).
Proof. intros Hinv Hb Hlt. apply (pool_safe N l); [done|]. intros p Hp. by apply push_run. Qed.

Lemma fill_safe N l w b :
  gw_inv R L N l w → b ∉ l → (b < Z.to_nat CAP)%nat →
  safe (on_pool (fill_block b)) w (λ _ w', gw_inv R L N l w' ∧ keeps w w' ∧ table w' = table w).
Proof. intros Hinv Hb Hlt. apply (pool_safe N l); [done|]. intros p Hp. by apply fill_run. Qed.
End steps.

(** ** The session table *)

Section table.
Context (R : nat) (L : Z).

(** A change of session [c] and of the lists that may touch its descriptor and
    its life, given that the new state is consistent. *)
Lemma inv_change N l g g' a c s s' :
  gw_inv R L N l (World g a) → sessions_ (sman g) !! c = Some s →
  sessions_ (sman g') = <[c := s']> (sessions_ (sman g)) → kv_ g' = kv_ g → pool_ g' = pool_ g →
  next_conv_ (sman g') = next_conv_ (sman g) →
  s_conv s' = s_conv s → s_kcp s' = s_kcp s → client_addr s' = client_addr s →
  (∀ fd c', fd_to_session_ (sman g') !! fd = Some c' ↔
     0 ≤ fd ∧ ∃ t, <[c := s']> (sessions_ (sman g)) !! c' = Some t ∧ target_fd t = fd) →
  (∀ c' t, <[c := s']> (sessions_ (sman g)) !! c' = Some t → 0 ≤ target_fd t →
     target_fd t ∈ os_open (os g') ∧ target_fd t ∈ os_epoll (os g')) →
  (∀ c', c' ∈ to_erase_ (sman g') ↔ ∃ t, <[c := s']> (sessions_ (sman g)) !! c' = Some t ∧ dying t = true) →
  (pending_sess s' → pending_sess s) →
  gw_inv R L N l (World g' a).
Proof.
  intros [H1 H2 H3 H4 H5 H6 H7 H8 H9 H10 H12] Hs Es Ek Ep En E1 E2 E3 Hfd Hop Hte Hp. cbn [w_eng w_al] in *.
  constructor; cbn [w_eng w_al]; rewrite ?Es, ?Ek, ?Ep, ?En; try done.
  - intros c' t Ht. change (sessions_ (sman (set_sess c s' g)) !! c' = Some t) in Ht.
    apply sess_lookup in Ht as [[-> ->]|[_ Ht]]; [|by apply H2]. rewrite E1, E2. by apply H2.
  - by rewrite map_size_insert_Some.
  - rewrite (table_blocks_replace _ c s) by done. unfold sess_blocks. rewrite E2. lia.
  - intros c1 c2 s1 s2 Hs1 Hs2 P1 P2 Ec.
    change (sessions_ (sman (set_sess c s' g)) !! c1 = Some s1) in Hs1.
    change (sessions_ (sman (set_sess c s' g)) !! c2 = Some s2) in Hs2.
    apply sess_lookup in Hs1 as [[-> ->]|[Hn1 Hs1]]; apply sess_lookup in Hs2 as [[-> ->]|[Hn2 Hs2]]; try done.
    + apply (H12 c c2 s s2); auto. congruence.
    + apply (H12 c1 c s1 s); auto. congruence.
    + by apply (H12 c1 c2 s1 s2).
Qed.

Lemma insert_dom {A} (m : gmap Z A) c x c' : is_Some (m !! c') → is_Some (<[c := x]> m !! c').
Proof. intros H. destruct (decide (c = c')) as [->|]; [by rewrite lookup_insert_eq|by rewrite lookup_insert_ne]. Qed.

Lemma insert_kcps (m : gmap Z Session) c s s' :
  m !! c = Some s → s_kcp s' = s_kcp s →
  (λ t, ks_kcp (s_kcp t)) <$> <[c := s']> m = (λ t, ks_kcp (s_kcp t)) <$> m.
Proof. intros H E. rewrite fmap_insert, E. apply insert_id. by rewrite lookup_fmap, H. Qed.

Lemma mark_dying_safe N l w c :
  gw_inv R L N l w → is_Some (table w !! c) →
  safe (mark_dying c) w (λ _ w', gw_inv R L N l w' ∧ keeps w w' ∧ kcps w' = kcps w).
Proof.
  destruct w as [g a]. intros Hinv [s Hs]. unfold table in Hs. cbn in Hs.
  unfold safe, mark_dying. run. rewrite (deref_run _ _ _ _ Hs). run. eexists _, _. split; [done|].
  destruct (gi_sess _ _ _ _ _ Hinv c s Hs) as (Ec & _). split_and!.
  - assert (∀ c' t, <[c := s <| dying := true |>]> (sessions_ (sman g)) !! c' = Some t →
      ∃ t', sessions_ (sman g) !! c' = Some t' ∧ target_fd t' = target_fd t) as Hback.
    { intros c' t Ht. destruct (decide (c = c')) as [->|]; [rewrite lookup_insert_eq in Ht; simplify_eq; by exists s|].
      rewrite lookup_insert_ne in Ht by done. by exists t. }
    apply (inv_change N l g _ a c s (s <| dying := true |>) Hinv Hs); try reflexivity.
    + intros fd c'. cbn. rewrite (gi_fds _ _ _ _ _ Hinv fd c'). cbn. split; intros (Hfd & t & Ht & Hf); (split; [done|]).
      * destruct (decide (c = c')) as [->|]; [|exists t; by rewrite lookup_insert_ne].
        exists (s <| dying := true |>). rewrite lookup_insert_eq. split; [done|]. by simplify_eq.
      * destruct (Hback c' t Ht) as (t' & Ht' & E). exists t'. by rewrite E.
    + intros c' t Ht Hf. destruct (Hback c' t Ht) as (t' & Ht' & E). rewrite <- E in *.
      by apply (gi_open _ _ _ _ _ Hinv c').
    + intros c'. cbn. rewrite elem_of_app, (gi_erase _ _ _ _ _ Hinv c'), list_elem_of_singleton. cbn. split.
      * intros [(t & Ht & Hd)| ->].
        -- destruct (decide (c = c')) as [->|]; [|exists t; by rewrite lookup_insert_ne].
           exists (s <| dying := true |>). by rewrite lookup_insert_eq.
        -- rewrite Ec. exists (s <| dying := true |>). by rewrite lookup_insert_eq.
      * intros (t & Ht & Hd). destruct (decide (c = c')) as [->|]; [by right|].
        rewrite lookup_insert_ne in Ht by done. left. by exists t.
    + intros [Hd _]. done.
  - constructor; try done. intros c'. apply insert_dom.
  - by apply (insert_kcps _ _ s).
Qed.

Lemma open_target_safe N l w c :
  gw_inv R L N l w → (∃ s, table w !! c = Some s ∧ target_fd s < 0) →
  safe (open_target c) w (λ _ w', gw_inv R L N l w' ∧ keeps w w' ∧ kcps w' = kcps w).
Proof.
  destruct w as [g a]. intros Hinv (s & Hs & Hneg). unfold table in Hs. cbn in Hs.
  unfold open_target, new_socket. unfold safe. run.
  destruct ((os_socket (os g) (os_sockets (os g)) <? 0) || _) eqn:E.
  - run. rewrite (upd_session_run _ _ _ _ s) by done. run. change (-1 <? 0) with true. cbn iota.
    eexists _, _. split; [done|].
    set (g1 := g <| os := os g <| os_sockets := S (os_sockets (os g)) |> |>).
    assert (gw_inv R L N l (World g1 a)) as Hinv1 by (by apply inv_os).
    split_and!.
    + apply (inv_change N l g1 _ a c s (s <| target_fd := -1 |>) Hinv1 Hs); try reflexivity.
      * intros fd c'. cbn. rewrite (gi_fds _ _ _ _ _ Hinv fd c'). cbn. split; intros (Hfd & t & Ht & Hf); (split; [done|]).
        -- destruct (decide (c = c')) as [->|]; [simplify_eq; lia|exists t; by rewrite lookup_insert_ne].
        -- destruct (decide (c = c')) as [->|]; [rewrite lookup_insert_eq in Ht; simplify_eq; cbn in *; lia|].
           rewrite lookup_insert_ne in Ht by done. by exists t.
      * intros c' t Ht Hf. destruct (decide (c = c')) as [->|]; [rewrite lookup_insert_eq in Ht; simplify_eq; cbn in *; lia|].
        rewrite lookup_insert_ne in Ht by done. by apply (gi_open _ _ _ _ _ Hinv c').
      * intros c'. cbn. rewrite (gi_erase _ _ _ _ _ Hinv c'). cbn. split; intros (t & Ht & Hd).
        -- destruct (decide (c = c')) as [->|]; [|exists t; by rewrite lookup_insert_ne].
           exists (s <| target_fd := -1 |>). rewrite lookup_insert_eq. split; [done|]. by simplify_eq.
        -- destruct (decide (c = c')) as [->|]; [rewrite lookup_insert_eq in Ht; simplify_eq; by exists s|].
           rewrite lookup_insert_ne in Ht by done. by exists t.
      * intros [Hd _]. by split.
    + constructor; try done. intros c'. apply insert_dom.
    + by apply (insert_kcps _ _ s).
  - apply orb_false_iff in E as [E1 E2]. b2p. apply bool_decide_eq_false_1 in E2.
    set (fd := os_socket (os g) (os_sockets (os g))) in *.
    run. rewrite (upd_session_run _ _ _ _ s) by done. run.
    rewrite (proj2 (Z.ltb_ge fd 0)) by done. unfold epoll_add. run. eexists _, _. split; [done|].
    assert (fd_to_session_ (sman g) !! fd = None) as Hfree.
    { destruct (fd_to_session_ (sman g) !! fd) as [c'|] eqn:Ef; [|done].
      apply (gi_fds _ _ _ _ _ Hinv) in Ef as (_ & t & Ht & Hf).
      destruct (gi_open _ _ _ _ _ Hinv c' t Ht) as [Ho _]; [lia|]. cbn in Ho. congruence. }
    set (g1 := g <| os := os g <| os_sockets := S (os_sockets (os g)) |> |>).
    assert (gw_inv R L N l (World g1 a)) as Hinv1 by (by apply inv_os).
    split_and!.
    + apply (inv_change N l g1 _ a c s (s <| target_fd := fd |>) Hinv1 Hs); try reflexivity.
      * intros f c'. cbn. rewrite Hfree. split.
        -- intros Hf. destruct (decide (fd = f)) as [<-|Hne].
           ++ rewrite lookup_insert_eq in Hf. simplify_eq. split; [lia|].
              eexists. by rewrite lookup_insert_eq.
           ++ rewrite lookup_insert_ne in Hf by done. apply (gi_fds _ _ _ _ _ Hinv) in Hf as (Hf0 & t & Ht & Hf).
              cbn in Ht. split; [done|]. exists t. destruct (decide (c = c')) as [->|]; [simplify_eq; lia|].
              by rewrite lookup_insert_ne.
        -- intros (Hf0 & t & Ht & Hf). destruct (decide (c = c')) as [->|Hne].
           ++ rewrite lookup_insert_eq in Ht. simplify_eq. cbn. by rewrite lookup_insert_eq.
           ++ rewrite lookup_insert_ne in Ht by done. rewrite lookup_insert_ne.
              ** apply (gi_fds _ _ _ _ _ Hinv). split; [done|]. by exists t.
              ** intros <-. apply E2. rewrite <- Hf. apply (gi_open _ _ _ _ _ Hinv c'); [done|lia].
      * intros c' t Ht Hf. destruct (decide (c = c')) as [->|].
        -- rewrite lookup_insert_eq in Ht. simplify_eq. cbn. set_solver.
        -- rewrite lookup_insert_ne in Ht by done. pose proof (gi_open _ _ _ _ _ Hinv c' t Ht Hf) as Ho. cbn in Ho. set_solver.
      * intros c'. cbn. rewrite (gi_erase _ _ _ _ _ Hinv c'). cbn. split; intros (t & Ht & Hd).
        -- destruct (decide (c = c')) as [->|]; [|exists t; by rewrite lookup_insert_ne].
           exists (s <| target_fd := fd |>). rewrite lookup_insert_eq. split; [done|]. by simplify_eq.
        -- destruct (decide (c = c')) as [->|]; [rewrite lookup_insert_eq in Ht; simplify_eq; by exists s|].
           rewrite lookup_insert_ne in Ht by done. by exists t.
      * intros [Hd _]. by split.
    + constructor; try done. intros c'. apply insert_dom.
    + by apply (insert_kcps _ _ s).
Qed.
End table.
