(* ===== verification/GatewayRun.v ===== *)
(** * The gateway's handlers keep the invariant *)

From S2P Require Import Prelude CRuntime IkcpData Ikcp IkcpCodec IkcpRecv IkcpApi IkcpBytes.
From S2P Require Import Decimal Tunnel MemPool KvClient Session Gateway GatewayInv GatewaySafe.

(** ** A free conversation number *)

(** One of any [size m + 1] consecutive numbers is free. *)
Lemma free_conv {A} (m : gmap Z A) nx :
  0 ≤ nx → Z.of_nat (size m) < 2 ^ 32 → ∃ i, (i ≤ size m)%nat ∧ m !! u32 (nx + Z.of_nat i) = None.
Proof.
  intros Hnx Hs. set (f := λ i : nat, u32 (nx + Z.of_nat i)).
  destruct (decide (Exists (λ i, m !! f i = None) (seq 0 (S (size m))))) as [He|He].
  - apply Exists_exists in He as (i & Hi & Hm). apply elem_of_seq in Hi. exists i. split; [lia|done].
  - exfalso. apply not_Exists_Forall in He; [|apply _]. rewrite Forall_forall in He.
    assert (NoDup (f <$> seq 0 (S (size m)))) as Hnd.
    { apply NoDup_fmap_2_strong; [|apply NoDup_seq]. intros i j Hi Hj E.
      apply elem_of_seq in Hi. apply elem_of_seq in Hj. unfold f, u32 in E.
      pose proof (Z.div_mod (nx + Z.of_nat i) (2 ^ 32)). pose proof (Z.div_mod (nx + Z.of_nat j) (2 ^ 32)).
      assert ((nx + Z.of_nat i) / 2 ^ 32 = (nx + Z.of_nat j) / 2 ^ 32) by nia. lia. }
    assert (list_to_set (f <$> seq 0 (S (size m))) ⊆ dom m) as Hsub.
    { intros c Hc. apply elem_of_list_to_set, list_elem_of_fmap in Hc as (i & -> & Hi).
      apply elem_of_dom. apply He in Hi. by apply not_eq_None_Some in Hi. }
    apply subseteq_size in Hsub. rewrite size_list_to_set, length_fmap, length_seq, size_dom in Hsub by done. lia.
Qed.

Lemma conv_loop_run fuel g a :
  0 ≤ next_conv_ (sman g) < 2 ^ 32 →
  (∃ i, (i < fuel)%nat ∧ sessions_ (sman g) !! u32 (next_conv_ (sman g) + Z.of_nat i) = None) →
  ∃ c, conv_loop fuel (World g a) = Ok (c, World (g <| sman := sman g <| next_conv_ := u32 (c + 1) |> |>) a) ∧
    sessions_ (sman g) !! c = None ∧ 0 ≤ c < 2 ^ 32.
Proof.
  revert g. induction fuel as [|fuel IH]; intros g Hnx (i & Hi & Hf); [lia|].
  cbn [conv_loop]. run. cbv zeta. run.
  destruct (sessions_ (sman g) !! next_conv_ (sman g)) as [s|] eqn:E.
  - destruct i as [|i].
    { rewrite Z.add_0_r, u32_small in Hf by done. congruence. }
    destruct (IH (g <| sman := sman g <| next_conv_ := u32 (next_conv_ (sman g) + 1) |> |>)) as (c & Hc & Hfree & Hr).
    + cbn. apply u32_range.
    + exists i. split; [lia|]. cbn. rewrite <- Hf. f_equal. unfold u32. rewrite Zplus_mod_idemp_l. f_equal. lia.
    + exists c. split; [|done]. exact Hc.
  - by exists (next_conv_ (sman g)).
Qed.

(** ** Registration *)

Lemma find_pending_None src l :
  find_pending src l = None ↔ ∀ c s, (c, s) ∈ l → pending_sess s → client_addr s ≠ src.
Proof.
  unfold pending_sess. induction l as [|[c s] l IH]; cbn [find_pending].
  { split; [|done]. intros _ c s H. by apply elem_of_nil in H. }
  assert (∀ P : Prop, (∀ c' s', (c', s') ∈ (c, s) :: l → dying s' = false ∧ target_fd s' < 0 → client_addr s' ≠ src) ↔
    (dying s = false ∧ target_fd s < 0 → client_addr s ≠ src) ∧
    (∀ c' s', (c', s') ∈ l → dying s' = false ∧ target_fd s' < 0 → client_addr s' ≠ src)) as Hc.
  { intros _. split.
    - intros H. split; [apply (H c); set_solver|]. intros c' s' Hin. apply (H c'). set_solver.
    - intros [H1 H2] c' s' [[= -> ->]|Hin]%elem_of_cons; [done|by apply (H2 c')]. }
  rewrite (Hc True). clear Hc. destruct (dying s || (0 <=? target_fd s)) eqn:E.
  - rewrite IH. split; [|tauto]. intros H. split; [|done]. intros [Hd Ht].
    apply orb_true_iff in E as [E|E]; b2p; [congruence|lia].
  - apply orb_false_iff in E as [Ed Et]. b2p. destruct (same_addr (client_addr s) src) eqn:Es.
    + apply same_addr_eq in Es. split; [done|]. intros [H _]. by destruct (H (conj Ed Et)).
    + rewrite IH. split; [|tauto]. intros H. split; [|done]. intros _ Heq.
      apply same_addr_eq in Heq. congruence.
Qed.

Lemma find_pending_Some src l c :
  find_pending src l = Some c → ∃ k s, (k, s) ∈ l ∧ pending_sess s ∧ client_addr s = src ∧ s_conv s = c.
Proof.
  unfold pending_sess. induction l as [|[k s] l IH]; cbn [find_pending]; [done|].
  destruct (dying s || (0 <=? target_fd s)) eqn:E.
  - intros H. destruct (IH H) as (k' & s' & Hin & H'). exists k', s'. split; [set_solver|done].
  - apply orb_false_iff in E as [Ed Et]. b2p. destruct (same_addr (client_addr s) src) eqn:Es.
    + intros [= <-]. apply same_addr_eq in Es. exists k, s. split; [set_solver|done].
    + intros H. destruct (IH H) as (k' & s' & Hin & H'). exists k', s'. split; [set_solver|done].
Qed.

(** The control block of a new session. *)
Definition new_kcp (c : Z) : ikcpcb :=
  created c <| output := true |> <| nodelay := 1 |> <| rx_minrto := IKCP_RTO_NDL |>
    <| interval := 10 |> <| fastresend := 2 |> <| nocwnd := 1 |>.

Lemma new_kcp_live c N : 0 ≤ N → live_kcp N (new_kcp c).
Proof.
  intros HN. set (a := al_good).
  assert (session 0 0 (World (created c <| output := true |>) (al_next (al_next a 1) 1))) as Hs.
  { apply (create_session a c (created c)); [apply al_good_total|reflexivity]. }
  destruct (exec_safe 0 0 _ (CNodelay 1 10 2 1) Hs I) as (w' & Hr & Hs' & _); [done|].
  cbn [exec cost] in Hr, Hs'. unfold ikcp_nodelay, get, put in Hr. run_in Hr. injection Hr as <-.
  eapply (bsession_live 0 N _ (al_next (al_next a 1) 1)). split.
  - eapply session_mono; [|exact Hs']. lia.
  - cbn. lia.
Qed.

Lemma new_kcp_blocks c : blocks (new_kcp c) = 2.
Proof. done. Qed.

Lemma new_nodelay_run c a :
  ikcp_nodelay 1 10 2 1 (World (created c <| output := true |>) a) = Ok (0, World (new_kcp c) a).
Proof. reflexivity. Qed.

Lemma kcp_session_init_run g a c src fd s :
  al_total a → sessions_ (sman g) !! c = Some s →
  kcp_session_init c c src fd (World g a) =
    Ok (tt, World (set_sess c (s <| s_kcp := KcpSess (Some (new_kcp c)) src fd |>) g) (al_next (al_next a 1) 1)).
Proof.
  intros Ha Hs. unfold kcp_session_init, ikcp_create, ikcp_malloc. run.
  rewrite malloc_total by done. run. rewrite malloc_total by auto with ga. run.
  rewrite (upd_session_run _ _ _ _ s) by done. run.
  erewrite on_kcp_run; [|apply set_sess_lookup|reflexivity|reflexivity]. run. rewrite set_sess_twice.
  erewrite on_kcp_run; [|apply set_sess_lookup|reflexivity|apply new_nodelay_run]. run. by rewrite set_sess_twice.
Qed.

(** The session a REGISTER creates. *)
Definition registered (c : Z) (src : sockaddr_in) (fd : Z) : Session :=
  new_session c src <| s_kcp := KcpSess (Some (new_kcp c)) src fd |>.

Section register.
Context (R : nat) (L : Z).

Lemma inv_add N l g g' a a' c src fd :
  gw_inv R L N l (World g a) → sessions_ (sman g) !! c = None → 0 ≤ c < 2 ^ 32 →
  (∀ c' s, sessions_ (sman g) !! c' = Some s → pending_sess s → client_addr s ≠ src) →
  sessions_ (sman g') = <[c := registered c src fd]> (sessions_ (sman g)) → kv_ g' = kv_ g → pool_ g' = pool_ g →
  0 ≤ next_conv_ (sman g') < 2 ^ 32 → fd_to_session_ (sman g') = fd_to_session_ (sman g) →
  to_erase_ (sman g') = to_erase_ (sman g) → os_open (os g') = os_open (os g) → os_epoll (os g') = os_epoll (os g) →
  al_total a' → al_live a' = al_live a + 2 →
  gw_inv R L (N + 1) l (World g' a').
Proof.
  intros Hinv Hc Hr Hp Es Ek Epl Hn Ef Et Eo Ee Ha Hl.
  pose proof (gi_size _ _ _ _ _ Hinv) as Hsz. cbn in Hsz.
  pose proof (inv_mono R L N (N + 1) l _ ltac:(lia) Hinv) as [H1 H2 H3 H4 H5 H6 H7 H8 H9 H10 H12].
  cbn [w_eng w_al] in *.
  assert (∀ c' s, <[c := registered c src fd]> (sessions_ (sman g)) !! c' = Some s →
    (c' = c ∧ s = registered c src fd) ∨ (c' ≠ c ∧ sessions_ (sman g) !! c' = Some s)) as Hcase.
  { intros c' s H. apply (sess_lookup c (registered c src fd) g). exact H. }
  constructor; cbn [w_eng w_al]; rewrite ?Es, ?Ek, ?Epl, ?Ef, ?Et, ?Eo, ?Ee; try done.
  - intros c' s H. apply Hcase in H as [[-> ->]|[_ H]]; [|by apply H2].
    split; [done|]. split; [done|]. exists (new_kcp c). split; [done|]. apply new_kcp_live. lia.
  - rewrite map_size_insert_None by done. lia.
  - rewrite table_blocks_insert by done. change (sess_blocks (registered c src fd)) with 2. lia.
  - intros f c'. rewrite H8. split; intros (Hf & s & H & Hs); (split; [done|]).
    + exists s. rewrite lookup_insert_ne; [done|]. intros ->. congruence.
    + apply Hcase in H as [[-> ->]|[_ H]]; [cbn in Hs; lia|]. by exists s.
  - intros c' s H Hf. apply Hcase in H as [[-> ->]|[_ H]]; [cbn in Hf; lia|]. by apply (H9 c').
  - intros c'. rewrite H10. split; intros (s & H & Hd).
    + exists s. rewrite lookup_insert_ne; [done|]. intros ->. congruence.
    + apply Hcase in H as [[-> ->]|[_ H]]; [done|]. by exists s.
  - intros c1 c2 s1 s2 Hs1 Hs2 P1 P2 Ea.
    apply Hcase in Hs1 as [[-> ->]|[_ Hs1]]; apply Hcase in Hs2 as [[-> ->]|[_ Hs2]]; try done.
    + by destruct (Hp c2 s2).
    + by destruct (Hp c1 s1).
    + by apply (H12 c1 c2 s1 s2).
Qed.

(** What a REGISTER from [src] does: [c] is the number it is answered. *)
Lemma register_run N l g a src :
  gw_inv R L N l (World g a) → N < 2 ^ 31 →
  ∃ c g' a', register_client src (World g a) = Ok (tt, World g' a') ∧ gw_inv R L (N + 1) l (World g' a') ∧
    os_sent (os g') = os_sent (os g) ++
      [Dgram (sm_client_fd_ (sman g)) src (PACKET_REGISTERED :: be32 c)] ∧
    os_inbox (os g') = os_inbox (os g) ∧ os_replies (os g') = os_replies (os g) ∧
    ((∃ s, sessions_ (sman g) !! c = Some s ∧ pending_sess s ∧ client_addr s = src ∧ sman g' = sman g) ∨
     (sessions_ (sman g) !! c = None ∧ 0 ≤ c < 2 ^ 32 ∧
      (∀ c' s, sessions_ (sman g) !! c' = Some s → pending_sess s → client_addr s ≠ src) ∧
      sessions_ (sman g') = <[c := registered c src (sm_client_fd_ (sman g))]> (sessions_ (sman g)) ∧
      os_timer (os g') = KCP_TICK_MS ∧ sm_client_fd_ (sman g') = sm_client_fd_ (sman g))).
Proof.
  intros Hinv HN. unfold register_client. run.
  assert (∀ c, pack_registered (replicate 5 0) c = Ok (5, PACKET_REGISTERED :: be32 c)) as Hpack by done.
  destruct (find_pending src (map_to_list (sessions_ (sman g)))) as [c|] eqn:Ef.
  - apply find_pending_Some in Ef as (c' & s & Hin & Hp & Ha & <-). apply elem_of_map_to_list in Hin.
    destruct (gi_sess _ _ _ _ _ Hinv c' s Hin) as (Ec & _). run. unfold lift. rewrite Hpack. cbn beta iota.
    unfold sendto. run. eexists _, _, _. split; [done|]. split.
    { apply (inv_mono R L N); [lia|]. by apply inv_os. }
    split_and!; try done. left. exists s. rewrite Ec. done.
  - assert (∀ c' s, sessions_ (sman g) !! c' = Some s → pending_sess s → client_addr s ≠ src) as Hnone.
    { intros c' s Hs. apply (proj1 (find_pending_None _ _) Ef c'). by apply elem_of_map_to_list. }
    unfold alloc_conv. run.
    pose proof (gi_next _ _ _ _ _ Hinv) as Hnx. pose proof (gi_size _ _ _ _ _ Hinv) as Hsz. cbn in Hnx, Hsz.
    destruct (free_conv (sessions_ (sman g)) (next_conv_ (sman g))) as (i & Hi & Hfree); [lia|lia|].
    destruct (conv_loop_run (S (size (sessions_ (sman g)))) g a Hnx) as (c & -> & Hc & Hr).
    { exists i. split; [lia|done]. }
    run. pose proof (gi_al _ _ _ _ _ Hinv) as Hal. cbn in Hal.
    rewrite (kcp_session_init_run _ _ _ _ _ (new_session c src)) by (done || apply set_sess_lookup). run.
    rewrite set_sess_twice. fold (registered c src (sm_client_fd_ (sman g))).
    unfold sync_timer, timer_set_period. run. unfold lift. rewrite Hpack. cbn beta iota. unfold sendto. run.
    eexists _, _, _. split; [done|]. split; [|split_and!; try done].
    + apply (inv_add N l g _ a _ c src (sm_client_fd_ (sman g)) Hinv Hc Hr Hnone); try reflexivity.
      * cbn. apply u32_range.
      * auto with ga.
      * cbn. lia.
    + right. split; [done|]. split; [done|]. split; [done|]. split; [done|]. split; [|done]. cbn.
      unfold sm_empty. rewrite bool_decide_eq_false_2; [done|]. cbn. apply insert_non_empty.
Qed.
End register.

(** ** The handlers *)

Section handlers.
Context (R : nat) (L : Z).

Lemma on_kv_safe N l w key :
  gw_inv R L N l w →
  safe (on_kv (kv_get (rounds R) key)) w (λ _ w', gw_inv R L N l w' ∧ keeps w w' ∧ table w' = table w).
Proof.
  destruct w as [g a]. intros Hinv. destruct (get_ready R (kv_ g) key (gi_kv _ _ _ _ _ Hinv)) as (r & k & Hr & Hk).
  unfold safe, on_kv. cbn [w_eng w_al]. rewrite Hr. eexists _, _. split; [done|]. split; [|done].
  destruct Hinv as [H1 H2 H3 H4 H5 H6 H7 H8 H9 H10 H12]. by constructor.
Qed.

Lemma kcps_table w w' : table w' = table w → kcps w' = kcps w.
Proof. unfold kcps. by intros ->. Qed.

Lemma handle_connect_safe N l w c buf n :
  gw_inv R L N l w → is_Some (table w !! c) → 0 ≤ n ≤ Z.of_nat (length buf) →
  (∃ rl, buf !! 1%nat = Some rl ∧ 2 + rl ≤ n) →
  safe (handle_connect (rounds R) c buf) w (λ _ w', gw_inv R L N l w' ∧ keeps w w' ∧ kcps w' = kcps w).
Proof.
  intros Hinv Hc Hn Hrl. unfold handle_connect. apply safe_bind.
  eapply safe_mono; [by apply (deref_safe R L N l w c)|]. intros s ? (-> & Hs & _).
  destruct (0 <=? target_fd s) eqn:Et; [by apply safe_ret|]. b2p.
  destruct (read_route_total buf n Hn Hrl) as ([rl out] & Hread).
  apply safe_bind. eapply lift_safe; [exact Hread|]. cbn beta iota. cbv zeta. apply safe_bind.
  eapply safe_mono; [by apply (on_kv_safe N l)|]. intros node w1 (H1 & K1 & T1).
  assert (is_Some (table w1 !! c)) as Hc1 by (by rewrite T1). rewrite <- T1 in Hs.
  destruct (node ≫= node_to_addr) as [ad|].
  - apply safe_bind. eapply safe_mono; [by apply (upd_session_safe R L N l w1 c)|].
    intros ? w2 (H2 & K2 & E2 & s2 & Hs2 & T2). simplify_eq.
    apply safe_bind. eapply safe_mono; [by apply (now_ms_safe R L N l w2)|]. intros t w3 (H3 & K3 & T3).
    apply safe_bind. eapply safe_mono.
    { apply (upd_session_safe R L N l w3 c); [done| |done]. rewrite T3, T2, lookup_insert_eq. by eexists. }
    intros ? w4 (H4 & K4 & E4 & s4 & Hs4 & T4).
    apply safe_bind. eapply safe_mono.
    { apply (open_target_safe R L N l w4 c); [done|]. rewrite T4, lookup_insert_eq. eexists. split; [done|].
      rewrite T3, T2, lookup_insert_eq in Hs4. injection Hs4 as <-. cbn. lia. }
    intros ok w5 (H5 & K5 & E5). apply safe_ret. split; [done|]. split.
    + by do 4 (etrans; [eassumption|]).
    + rewrite E5, E4, (kcps_table _ _ T3), E2. by apply kcps_table.
  - apply safe_bind. eapply safe_mono; [by apply (mark_dying_safe R L N l w1 c)|].
    intros ? w2 (H2 & K2 & E2). apply safe_ret. split; [done|]. split; [by etrans|].
    rewrite E2. by apply kcps_table.
Qed.

Lemma handle_tunnel_msg_safe N l w c buf n :
  gw_inv R L N l w → is_Some (table w !! c) → 0 ≤ n ≤ Z.of_nat (length buf) →
  safe (handle_tunnel_msg (rounds R) c buf n) w (λ _ w', gw_inv R L N l w' ∧ keeps w w' ∧ kcps w' = kcps w).
Proof.
  intros Hinv Hc Hn. unfold handle_tunnel_msg. destruct (parse_total buf n Hn) as (p & Hp & Hpost).
  apply safe_bind. eapply lift_safe; [exact Hp|]. destruct p as [[[t d] len]|]; [|by apply safe_ret].
  destruct Hpost as (_ & Hcases). destruct (t =? PACKET_CONNECT) eqn:Ec; b2p.
  { destruct Hcases as [(-> & _)|(_ & _ & _ & Hrl)]; [done|]. by apply (handle_connect_safe N l w c buf n); auto. }
  destruct (t =? PACKET_DATA) eqn:Ed; b2p.
  - destruct Hcases as [(_ & -> & H3 & Hle & _)|(? & _)]; [|done].
    apply safe_bind. eapply safe_mono; [by apply (deref_safe R L N l w c)|]. intros s ? (-> & Hs & _).
    destruct (target_fd s <? 0); [by apply safe_ret|].
    apply safe_bind. eapply safe_mono; [by apply (now_ms_safe R L N l w)|]. intros t1 w1 (H1 & K1 & T1).
    apply safe_bind. eapply safe_mono; [apply (upd_session_safe R L N l w1 c); [done|by rewrite T1|done]|].
    intros ? w2 (H2 & K2 & E2 & _).
    apply safe_bind. eapply lift_safe; [apply load_run; lia|].
    apply safe_bind. eapply safe_mono; [by apply (sendto_safe R L N l)|]. intros ? w3 (H4 & K3 & T3).
    apply safe_ret. split; [done|]. split; [by do 2 (etrans; [eassumption|])|].
    rewrite (kcps_table _ _ T3), E2. by apply kcps_table.
  - destruct (t =? PACKET_CLOSE); [|by apply safe_ret].
    apply safe_bind. eapply safe_mono; [by apply (mark_dying_safe R L N l w c)|]. intros ? w1 H1. by apply safe_ret.
Qed.

Lemma message_loop_safe fuel N l w c k :
  gw_inv R L N l w → N < 2 ^ 31 → kcps w !! c = Some (Some k) → (pending k < fuel)%nat →
  safe (message_loop (rounds R) fuel c) w (λ _ w', gw_inv R L N l w' ∧ keeps w w').
Proof.
  revert w k. induction fuel as [|fuel IH]; intros w k Hinv HN Hk Hf; [lia|].
  assert (is_Some (table w !! c)) as Hc.
  { unfold kcps in Hk. rewrite lookup_fmap in Hk. destruct (table w !! c); [by eexists|done]. }
  cbn [message_loop]. apply safe_bind. eapply safe_mono.
  { apply (on_kcp_safe R L N N l w c (ikcp_recv BLOCK) (λ x k', (x.1 < 0 ∧ x.2 = []) ∨
      (x.1 = Z.of_nat (length x.2) ∧ x.1 ≤ BLOCK ∧ (pending k' < pending k)%nat)) Hinv Hc); [lia|].
    intros base k0 a Hk0 Hb. simplify_eq.
    destruct (brecv base N k a BLOCK Hb) as (r & bs & [k' a'] & Hr & Hb' & Hor); [unfold BLOCK; lia|done|].
    exists (r, bs), k', a'. split_and!; try done. cbn. tauto. }
  intros [got tmsg] w1 (H1 & K1 & k1 & Hk1 & Hor). cbn [fst snd] in Hor.
  assert (BLOCK <? Z.of_nat (length tmsg) = false) as ->.
  { apply Z.ltb_ge. destruct Hor as [[_ ->]|(-> & Hle & _)]; [done|lia]. }
  destruct (got <=? 0) eqn:Eg; b2p; [by apply safe_ret|].
  destruct Hor as [[? _]|(Hgot & Hle & Hp)]; [lia|].
  assert (is_Some (table w1 !! c)) as Hc1 by (by apply (kp_dom _ _ K1)).
  apply safe_bind. eapply safe_mono; [apply (handle_tunnel_msg_safe N l w1 c tmsg got); [done|done|lia]|].
  intros gone w2 (H2 & K2 & E2). destruct gone; [apply safe_ret; split; [done|by etrans]|].
  eapply safe_mono; [apply (IH w2 k1 H2 HN); [by rewrite E2|lia]|].
  intros ? w3 [H3 K3]. split; [done|]. by do 2 (etrans; [eassumption|]).
Qed.

Lemma lookup_session_safe N l w src bytes :
  gw_inv R L N l w → (4 ≤ length bytes)%nat →
  safe (lookup_session src bytes) w (λ r w', w' = w ∧
    match r with
    | None => True
    | Some c => ∃ s, table w !! c = Some s ∧ client_addr s = src ∧ ikcp_getconv bytes = Some c
    end).
Proof.
  intros Hinv Hl. destruct w as [g a]. unfold safe, lookup_session.
  destruct (ikcp_getconv bytes) as [c|] eqn:Ec.
  - run. destruct (sessions_ (sman g) !! c) as [s|] eqn:Es; [|by eexists _, _].
    destruct (same_addr (client_addr s) src) eqn:Ea; [|by eexists _, _].
    eexists _, _. split; [done|]. split; [done|]. exists s. apply same_addr_eq in Ea. done.
  - unfold ikcp_getconv, ikcp_decode32u in Ec.
    destruct bytes as [|b0 [|b1 [|b2 [|b3 rest]]]]; cbn in Hl; try lia; done.
Qed.

Lemma handle_segment_safe N l w src b bytes :
  gw_inv R L N l w → N + Z.of_nat (length bytes) < 2 ^ 31 → b ∉ l → (b < Z.to_nat CAP)%nat →
  (24 ≤ length bytes)%nat →
  safe (handle_segment (rounds R) src b bytes) w (λ st w', st = false ∧
    gw_inv R L (N + Z.of_nat (length bytes)) (b :: l) w' ∧ keeps w w').
Proof.
  intros Hinv HN Hb Hlt Hlen. set (N' := N + Z.of_nat (length bytes)). unfold handle_segment.
  apply safe_bind. eapply safe_mono; [apply (lookup_session_safe N l w src bytes Hinv); lia|].
  assert (safe (_ ← on_pool (free_block (Some b)); mret false) w (λ st w', st = false ∧
    gw_inv R L N' (b :: l) w' ∧ keeps w w')) as Hdrop.
  { apply safe_bind. eapply safe_mono; [by apply (free_safe R L N l w b)|]. intros ? w1 (H1 & K1 & _).
    apply safe_ret. split; [done|]. split; [|done]. eapply inv_mono; [|exact H1]. unfold N'. lia. }
  intros r ? (-> & Hr). destruct r as [c|]; [|done]. destruct Hr as (s & Hs & _).
  apply safe_bind. eapply safe_mono; [by apply (deref_safe R L N l w c)|]. intros s0 ? (-> & _).
  destruct (dying s0); [done|]. clear Hdrop.
  apply safe_bind. eapply safe_mono; [by apply (now_ms_safe R L N l w)|]. intros t1 w1 (H1 & K1 & T1).
  apply safe_bind. eapply safe_mono; [apply (upd_session_safe R L N l w1 c); [done|by rewrite T1, Hs|done]|].
  intros ? w2 (H2 & K2 & _ & _). assert (is_Some (table w2 !! c)) as C2 by (apply (kp_dom _ _ K2); by rewrite T1, Hs).
  apply safe_bind. eapply safe_mono.
  { apply (on_kcp_safe R L N N' l w2 c (ikcp_input bytes) (λ _ _, True) H2 C2); [unfold N'; lia|].
    intros base k a _ Hbs. destruct (binput base N k a bytes Hbs HN) as (r & [k' a'] & Hr & Hb').
    by exists r, k', a'. }
  intros ? w3 (H3 & K3 & _). assert (is_Some (table w3 !! c)) as C3 by (by apply (kp_dom _ _ K3)).
  apply safe_bind. eapply safe_mono; [by apply (now_ms_safe R L N' l w3)|]. intros t4 w4 (H4 & K4 & T4).
  assert (is_Some (table w4 !! c)) as C4 by (by rewrite T4).
  apply safe_bind. eapply safe_mono; [apply (on_kcp_out_safe R L N' l w4 c _ H4 C4)|].
  { intros base k a Hbs. apply bupdate; [done|]. apply u32_range. }
  intros ? w5 (H5 & K5). assert (is_Some (table w5 !! c)) as C5 by (by apply (kp_dom _ _ K5)).
  apply safe_bind. eapply safe_mono; [apply (on_kcp_out_safe R L N' l w5 c _ H5 C5)|].
  { intros base k a Hbs. by apply bflush. }
  intros ? w6 (H6 & K6). assert (is_Some (table w6 !! c)) as C6 by (by apply (kp_dom _ _ K6)).
  apply safe_bind. eapply safe_mono; [by apply (free_safe R L N' l w6 b)|]. intros ? w7 (H7 & K7 & T7).
  apply safe_bind. eapply safe_mono; [by apply (alloc_safe R L N' (b :: l) w7)|].
  intros p w8 (K8 & T8 & -> & H8 & _ & _). cbn beta iota.
  apply safe_bind. eapply safe_mono; [by apply (fill_safe R L N' l w8 b)|]. intros ? w9 (H9 & K9 & T9).
  assert (is_Some (table w9 !! c)) as C9 by (by rewrite T9, T8, T7).
  destruct C9 as [s9 Hs9]. destruct (gi_sess _ _ _ _ _ H9 c s9 Hs9) as (_ & _ & k9 & Hk9 & _).
  apply safe_bind. unfold waiting. apply safe_bind.
  eapply safe_mono; [apply (deref_safe R L N' l w9 c H9); by rewrite Hs9|]. intros s9' ? (-> & Hs9' & _).
  simplify_eq. apply safe_ret. rewrite Hk9. apply safe_bind.
  eapply safe_mono; [apply (message_loop_safe _ N' l w9 c k9 H9); [unfold N'; lia| |]|].
  { unfold kcps. by rewrite lookup_fmap, Hs9; cbn; rewrite Hk9. }
  { unfold pending, rcv_lists. rewrite length_app. lia. }
  intros gone w10 [H10 K10].
  apply safe_bind. eapply safe_mono; [by apply (free_safe R L N' l w10 b)|]. intros ? w11 (H11 & K11 & T11).
  assert (keeps w w11) as K by (by do 10 (etrans; [eassumption|])).
  destruct gone; [apply safe_bind, safe_ret, safe_ret; done|].
  apply safe_bind, safe_bind.
  eapply safe_mono; [by apply (now_ms_safe R L N' (b :: l) w11)|]. intros t12 w12 (H12 & K12 & T12).
  eapply safe_mono.
  { apply (upd_session_safe R L N' (b :: l) w12 c); [done| |done]. rewrite T12.
    rewrite T11. apply (kp_dom _ _ K10). by rewrite Hs9. }
  intros ? w13 (H13 & K13 & _). apply safe_ret. split; [done|]. split; [done|]. by do 2 (etrans; [eassumption|]).
Qed.
End handlers.
