(* ===== verification/GatewayLoop.v ===== *)
(** * Rounds of the event loop

    Any batch of events, with arbitrary datagrams from clients and game
    servers, runs without a fault and keeps the invariant. *)

From S2P Require Import Prelude CRuntime IkcpData Ikcp IkcpCodec IkcpRecv IkcpApi IkcpBytes.
From S2P Require Import IkcpTimer Decimal Tunnel MemPool KvClient Session Gateway GatewayInv GatewaySafe GatewayRun.

(** ** What the datagrams waiting may add to the queues of a session *)

Definition inbox_cost (ib : list (sockaddr_in * list Z)) : Z :=
  foldr (λ d n, Z.of_nat (length (take (Z.to_nat BLOCK) d.2)) + n) 0 ib.

Definition replies_cost (m : gmap Z (list (list Z))) : Z :=
  map_fold (λ _ rs acc, 128 * Z.of_nat (length rs) + acc) 0 m.

Definition load_of (w : world gateway) : Z :=
  inbox_cost (os_inbox (os (w_eng w))) + replies_cost (os_replies (os (w_eng w))).

Lemma inbox_cost_nonneg ib : 0 ≤ inbox_cost ib.
Proof. induction ib as [|d ib IH]; cbn [inbox_cost foldr]; [done|]. unfold inbox_cost in IH. lia. Qed.

Lemma replies_cost_insert m fd rs rs' :
  m !! fd = Some rs →
  replies_cost (<[fd := rs']> m) = replies_cost m - 128 * Z.of_nat (length rs) + 128 * Z.of_nat (length rs').
Proof.
  intros H. unfold replies_cost. rewrite <- insert_delete_eq.
  rewrite map_fold_insert_L; [|intros; lia|apply lookup_delete_eq].
  rewrite (map_fold_delete_L _ _ fd rs m) by (done || intros; lia). lia.
Qed.

Lemma replies_cost_nonneg m : 0 ≤ replies_cost m.
Proof.
  unfold replies_cost. induction m as [|fd rs m Hm IH] using map_ind; [by rewrite map_fold_empty|].
  rewrite map_fold_insert_L; [lia|intros; lia|done].
Qed.

Lemma load_nonneg w : 0 ≤ load_of w.
Proof. unfold load_of. pose proof (inbox_cost_nonneg (os_inbox (os (w_eng w)))). pose proof (replies_cost_nonneg (os_replies (os (w_eng w)))). lia. Qed.

Lemma keeps_load w w' : keeps w w' → load_of w' = load_of w.
Proof. intros [K1 K2 _]. unfold load_of. by rewrite K1, K2. Qed.

(** Sessions stay where they are. *)
Definition grows (w w' : world gateway) : Prop := ∀ c, is_Some (table w !! c) → is_Some (table w' !! c).

Lemma keeps_grows w w' : keeps w w' → grows w w'.
Proof. by intros [_ _ K]. Qed.

#[global] Instance grows_preorder : PreOrder grows.
Proof. split; [by intros w c H|]. intros w1 w2 w3 H1 H2 c Hc. auto. Qed.

Section loop.
Context (R : nat) (L : Z).

(** The invariant, with room for everything that waits to be read. *)
Definition gw_ok (B : Z) (l : list nat) (w : world gateway) : Prop :=
  ∃ N, gw_inv R L N l w ∧ N + load_of w ≤ B.

Lemma ok_keeps B l' N w w' : gw_inv R L N l' w' → keeps w w' → N + load_of w ≤ B → gw_ok B l' w'.
Proof. intros H K HB. exists N. split; [done|]. by rewrite (keeps_load w w' K). Qed.

(** ** Datagrams from clients *)

Lemma recv_client_safe N l w :
  gw_inv R L N l w →
  safe recv_client w (λ r w', gw_inv R L N l w' ∧ table w' = table w ∧
    match os_inbox (os (w_eng w)) with
    | [] => r = None ∧ w' = w
    | (src, bytes) :: rest =>
        r = Some (src, take (Z.to_nat BLOCK) bytes) ∧ os_inbox (os (w_eng w')) = rest ∧
        load_of w = load_of w' + Z.of_nat (length (take (Z.to_nat BLOCK) bytes))
    end).
Proof.
  destruct w as [g a]. intros Hinv. unfold safe, recv_client. run. cbn [w_eng].
  destruct (os_inbox (os g)) as [|[src bytes] rest] eqn:Ei; [by eexists _, _|].
  run. eexists _, _. split; [done|]. split; [by apply inv_os|]. split; [done|]. split; [done|]. split; [done|].
  unfold load_of. cbn [w_eng os_inbox os_replies upd set_os os set_os_inbox]. rewrite Ei. cbn [inbox_cost foldr snd].
  fold (inbox_cost rest). lia.
Qed.

Lemma datagram_loop_safe fuel B l w :
  gw_ok B l w → B < 2 ^ 31 → (length (os_inbox (os (w_eng w))) < fuel)%nat →
  safe (datagram_loop (rounds R) fuel) w (λ _ w', gw_ok B l w' ∧ grows w w' ∧
    (l ≠ [] → os_inbox (os (w_eng w')) = [])).
Proof.
  revert w. induction fuel as [|fuel IH]; intros w (N & Hinv & HB) HB31 Hf; [lia|]. cbn [datagram_loop].
  apply safe_bind. eapply safe_mono; [by apply (alloc_safe R L N l w)|]. intros p w1 (K1 & T1 & Hp).
  destruct l as [|b l]; [destruct Hp as [-> ->]; apply safe_ret; split; [by exists N|done]|].
  destruct Hp as (-> & H1 & Hb & Hlt). apply safe_bind.
  eapply safe_mono; [by apply (recv_client_safe N l w1)|]. intros r w2 (H2 & T2 & Hr).
  assert (grows w w2) as G2 by (intros c; by rewrite T2, T1).
  rewrite (kp_inbox _ _ K1) in Hr. rewrite <- (keeps_load _ _ K1) in HB.
  destruct (os_inbox (os (w_eng w))) as [|[src bytes] rest] eqn:Ei.
  { destruct Hr as [-> ->]. eapply safe_mono; [by apply (free_safe R L N l w1 b)|]. intros ? w3 (H3 & K3 & T3).
    split; [by eapply ok_keeps|]. split; [etrans; [exact G2|by apply keeps_grows]|].
    intros _. by rewrite (kp_inbox _ _ K3), (kp_inbox _ _ K1). }
  destruct Hr as (-> & Hrest & Hload). cbn [length] in Hf. rewrite Hload in HB.
  set (bs := take (Z.to_nat BLOCK) bytes) in *. pose proof (load_nonneg w2) as Hnn.
  apply safe_bind. eapply safe_mono; [by apply (fill_safe R L N l w2 b)|]. intros ? w3 (H3 & K3 & T3).
  rewrite <- (keeps_load _ _ K3) in HB, Hnn. rewrite <- (kp_inbox _ _ K3) in Hrest.
  assert (grows w w3) as G3 by (etrans; [exact G2|by apply keeps_grows]).
  (* what is left to do once this datagram is dealt with *)
  assert (∀ w' N', gw_inv R L N' (b :: l) w' → keeps w3 w' → N' ≤ N + Z.of_nat (length bs) →
    safe (datagram_loop (rounds R) fuel) w' (λ _ w'', gw_ok B (b :: l) w'' ∧ grows w w'' ∧
      (b :: l ≠ [] → os_inbox (os (w_eng w'')) = []))) as Hnext.
  { intros w' N' H' K' HN'. eapply safe_mono; [apply (IH w')|].
    - exists N'. split; [done|]. rewrite (keeps_load _ _ K'). lia.
    - done.
    - rewrite (kp_inbox _ _ K'), Hrest. lia.
    - intros ? w'' (O & G & I). split; [done|]. split; [|done]. do 2 (etrans; [eassumption || by apply keeps_grows|]). done. }
  destruct (bool_decide (bs = [PACKET_REGISTER])) eqn:Er.
  - apply bool_decide_eq_true_1 in Er. destruct w3 as [g3 a3].
    destruct (register_run R L N l g3 a3 src H3 ltac:(rewrite Er in HB; cbn in HB; lia)) as
      (c & g4 & a4 & Hreg & H4 & _ & Ein & Erep & Hcase).
    apply safe_bind. exists tt, (World g4 a4). split; [done|].
    assert (keeps (World g3 a3) (World g4 a4)) as K4.
    { constructor; [done|done|]. intros c' Hc'. unfold table in *. cbn [w_eng] in *.
      destruct Hcase as [(s & _ & _ & _ & ->)|(_ & _ & _ & -> & _)]; [done|by apply insert_dom]. }
    apply safe_bind. eapply safe_mono; [by apply (free_safe R L (N + 1) l _ b)|]. intros ? w5 (H5 & K5 & _).
    eapply Hnext; [exact H5|by etrans|]. rewrite Er. cbn. lia.
  - destruct (Z.of_nat (length bs) <? 24) eqn:El; b2p.
    + apply safe_bind. eapply safe_mono; [by apply (free_safe R L N l w3 b)|]. intros ? w4 (H4 & K4 & _).
      eapply Hnext; [exact H4|done|lia].
    + apply safe_bind. eapply safe_mono; [apply (handle_segment_safe R L N l w3 src b bs H3); try done; lia|].
      intros st w4 (-> & H4 & K4). eapply Hnext; [exact H4|done|lia].
Qed.

Lemma handle_tunnel_datagram_safe B l w :
  gw_ok B l w → B < 2 ^ 31 →
  safe (handle_tunnel_datagram (rounds R)) w (λ _ w', gw_ok B l w' ∧ grows w w' ∧
    (l ≠ [] → os_inbox (os (w_eng w')) = [])).
Proof.
  intros H HB. unfold handle_tunnel_datagram. destruct w as [g a]. apply safe_bind.
  exists (os g), (World g a). split; [done|]. apply datagram_loop_safe; [done|done|cbn; lia].
Qed.

(** ** Replies from game servers *)

Lemma recv_target_safe N l w fd max :
  gw_inv R L N l w →
  safe (recv_target fd max) w (λ r w', gw_inv R L N l w' ∧ table w' = table w ∧
    match default [] (os_replies (os (w_eng w)) !! fd) with
    | [] => r = None ∧ w' = w
    | bytes :: rest =>
        r = Some (take (Z.to_nat max) bytes) ∧ default [] (os_replies (os (w_eng w')) !! fd) = rest ∧
        load_of w = load_of w' + 128
    end).
Proof.
  destruct w as [g a]. intros Hinv. unfold safe, recv_target. run. cbn [w_eng].
  destruct (os_replies (os g) !! fd) as [[|bytes rest]|] eqn:Ei; [by eexists _, _| |by eexists _, _].
  run. eexists _, _. split; [done|]. split; [by apply inv_os|]. split; [done|]. cbn [default]. split; [done|].
  unfold load_of. cbn [w_eng os_inbox os_replies upd set_os os set_os_replies].
  rewrite lookup_insert_eq. split; [done|]. rewrite (replies_cost_insert _ _ _ _ Ei). cbn [length]. lia.
Qed.

Lemma reply_loop_safe fuel B l w c fd :
  gw_ok B l w → B < 2 ^ 31 → is_Some (table w !! c) →
  (length (default [] (os_replies (os (w_eng w)) !! fd)) < fuel)%nat →
  safe (reply_loop fuel c fd) w (λ _ w', gw_ok B l w' ∧ grows w w').
Proof.
  revert w. induction fuel as [|fuel IH]; intros w (N & Hinv & HB) HB31 Hc Hf; [lia|]. cbn [reply_loop].
  apply safe_bind. eapply safe_mono; [by apply (alloc_safe R L N l w)|]. intros p w1 (K1 & T1 & Hp).
  destruct l as [|b l]; [destruct Hp as [-> ->]; apply safe_ret; split; [by exists N|done]|].
  destruct Hp as (-> & H1 & Hb & Hlt). apply safe_bind.
  eapply safe_mono; [by apply (recv_target_safe N l w1 fd)|]. intros r w2 (H2 & T2 & Hr).
  assert (grows w w2) as G2 by (intros c'; by rewrite T2, T1).
  rewrite (kp_replies _ _ K1) in Hr. rewrite <- (keeps_load _ _ K1) in HB.
  destruct (default [] (os_replies (os (w_eng w)) !! fd)) as [|bytes rest] eqn:Ei.
  { destruct Hr as [-> ->]. eapply safe_mono; [by apply (free_safe R L N l w1 b)|]. intros ? w3 (H3 & K3 & T3).
    split; [by eapply ok_keeps|]. etrans; [exact G2|by apply keeps_grows]. }
  destruct Hr as (-> & Hrest & Hload). cbn [length] in Hf. rewrite Hload in HB. pose proof (load_nonneg w2) as Hnn.
  set (bs := take (Z.to_nat (BLOCK - DATA_HEAD_LEN)) bytes) in *.
  assert (Z.of_nat (length bs) ≤ 2045) as Hbs by (unfold bs, BLOCK, DATA_HEAD_LEN; rewrite length_take; lia).
  apply safe_bind. eapply safe_mono; [by apply (fill_safe R L N l w2 b)|]. intros ? w3 (H3 & K3 & T3).
  apply safe_bind. eapply safe_mono; [by apply (now_ms_safe R L N l w3)|]. intros t w4 (H4 & K4 & T4).
  apply safe_bind. eapply safe_mono; [apply (upd_session_safe R L N l w4 c); [done|by rewrite T4, T3, T2, T1|done]|].
  intros ? w5 (H5 & K5 & _ & _).
  apply safe_bind. eapply safe_mono; [by apply (alloc_safe R L N l w5)|]. intros p2 w6 (K6 & T6 & Hp2).
  assert (keeps w2 w6) as K26 by (by do 3 (etrans; [eassumption|])).
  assert (grows w w6) as G6 by (etrans; [exact G2|by apply keeps_grows]).
  destruct l as [|b2 l].
  { destruct Hp2 as [-> ->]. eapply safe_mono; [by apply (free_safe R L N [] w5 b)|]. intros ? w7 (H7 & K7 & T7).
    split; [|etrans; [exact G6|by apply keeps_grows]]. exists N. split; [done|].
    rewrite (keeps_load w2 w7); [lia|]. by etrans. }
  destruct Hp2 as (-> & H6 & Hb2 & Hlt2).
  apply safe_bind. eapply safe_mono; [by apply (fill_safe R L N l w6 b2)|]. intros ? w7 (H7 & K7 & T7).
  apply safe_bind. unfold u16. rewrite Z.mod_small by lia.
  eapply lift_safe; [apply pack_data_run; [lia|rewrite length_replicate; unfold BLOCK; lia]|]. cbn beta iota.
  apply safe_bind. eapply safe_mono; [by apply (now_ms_safe R L N l w7)|]. intros t8 w8 (H8 & K8 & T8).
  assert (is_Some (table w8 !! c)) as C8 by (rewrite T8, T7; by apply G6).
  apply safe_bind. eapply safe_mono; [apply (on_kcp_out_safe R L N l w8 c _ H8 C8)|].
  { intros base k a Hbs'. apply bupdate; [done|]. apply u32_range. }
  intros ? w9 (H9 & K9). assert (is_Some (table w9 !! c)) as C9 by (by apply (kp_dom _ _ K9)).
  set (out := PACKET_DATA :: _). set (pkt := take (Z.to_nat (3 + Z.of_nat (length bs))) out).
  assert (Z.of_nat (length pkt) = 3 + Z.of_nat (length bs)) as Hpkt.
  { unfold pkt, out. rewrite length_take. cbn [length app be16]. rewrite length_app, length_take, length_drop, length_replicate.
    unfold BLOCK. lia. }
  apply safe_bind. eapply safe_mono.
  { apply (on_kcp_safe R L N (N + 128) l w9 c (ikcp_send pkt (3 + Z.of_nat (length bs))) (λ _ _, True) H9 C9); [lia|].
    intros base k a _ Hbs'. rewrite <- Hpkt.
    destruct (bsend base N k a pkt Hbs') as (r & [k' a'] & Hr & Hb'); [lia|lia|]. by exists r, k', a'. }
  intros ? w10 (H10 & K10 & _). assert (is_Some (table w10 !! c)) as C10 by (by apply (kp_dom _ _ K10)).
  apply safe_bind. eapply safe_mono; [apply (on_kcp_out_safe R L (N + 128) l w10 c _ H10 C10)|].
  { intros base k a Hbs'. by apply bflush. }
  intros ? w11 (H11 & K11).
  apply safe_bind. eapply safe_mono; [by apply (free_safe R L (N + 128) l w11 b2)|]. intros ? w12 (H12 & K12 & _).
  apply safe_bind. eapply safe_mono; [by apply (free_safe R L (N + 128) (b2 :: l) w12 b)|]. intros ? w13 (H13 & K13 & _).
  assert (keeps w2 w13) as K by (by do 8 (etrans; [eassumption|])).
  eapply safe_mono; [apply (IH w13)|].
  - exists (N + 128). split; [done|]. rewrite (keeps_load _ _ K). lia.
  - done.
  - apply (kp_dom _ _ K). by apply G2.
  - rewrite (kp_replies _ _ K), Hrest. lia.
  - intros ? w14 [O G]. split; [done|]. etrans; [exact G2|]. etrans; [by apply keeps_grows|]. done.
Qed.
End loop.

(** ** The timer *)

Section timer.
Context (R : nat) (L : Z).

Lemma for_each_active_safe N l w cs now :
  gw_inv R L N l w → Forall (λ c, is_Some (table w !! c)) cs →
  safe (for_each_active (λ c, on_kcp_out c (ikcp_update (now32 now))) cs) w
    (λ _ w', gw_inv R L N l w' ∧ keeps w w').
Proof.
  revert w. induction cs as [|c cs IH]; intros w Hinv Hcs; cbn [for_each_active]; [by apply safe_ret|].
  apply Forall_cons in Hcs as [Hc Hcs].
  apply safe_bind. eapply safe_mono; [by apply (deref_safe R L N l w c)|]. intros s ? (-> & _).
  assert (∀ w1, gw_inv R L N l w1 → keeps w w1 →
    safe (for_each_active (λ c, on_kcp_out c (ikcp_update (now32 now))) cs) w1
      (λ _ w', gw_inv R L N l w' ∧ keeps w w')) as Hnext.
  { intros w1 H1 K1. eapply safe_mono; [apply (IH w1 H1)|].
    - eapply Forall_impl; [exact Hcs|]. intros c'. apply (kp_dom _ _ K1).
    - intros ? w2 [H2 K2]. split; [done|]. by etrans. }
  apply safe_bind. destruct (dying s); [apply safe_ret; by apply Hnext|].
  eapply safe_mono; [apply (on_kcp_out_safe R L N l w c _ Hinv Hc)|].
  { intros base k a Hb. apply bupdate; [done|]. apply u32_range. }
  intros ? w1 [H1 K1]. by apply Hnext.
Qed.

Lemma sweep_loop_safe N l w cs now :
  gw_inv R L N l w → Forall (λ c, is_Some (table w !! c)) cs →
  safe (sweep_loop now cs) w (λ _ w', gw_inv R L N l w' ∧ keeps w w').
Proof.
  revert w. induction cs as [|c cs IH]; intros w Hinv Hcs; cbn [sweep_loop]; [by apply safe_ret|].
  apply Forall_cons in Hcs as [Hc Hcs].
  apply safe_bind. eapply safe_mono; [by apply (deref_safe R L N l w c)|]. intros s ? (-> & _).
  assert (∀ w1, gw_inv R L N l w1 → keeps w w1 →
    safe (sweep_loop now cs) w1 (λ _ w', gw_inv R L N l w' ∧ keeps w w')) as Hnext.
  { intros w1 H1 K1. eapply safe_mono; [apply (IH w1 H1)|].
    - eapply Forall_impl; [exact Hcs|]. intros c'. apply (kp_dom _ _ K1).
    - intros ? w2 [H2 K2]. split; [done|]. by etrans. }
  apply safe_bind. destruct w as [g a]. exists (sman g), (World g a). split; [done|].
  apply safe_bind. destruct (dying s); [apply safe_ret; by apply Hnext|].
  destruct (_ <? _); [|apply safe_ret; by apply Hnext].
  eapply safe_mono; [by apply (mark_dying_safe R L N l _ c)|]. intros ? w1 (H1 & K1 & _). by apply Hnext.
Qed.

Lemma table_convs (m : gmap Z Session) : Forall (λ c, is_Some (m !! c)) (map_to_list m).*1.
Proof.
  apply Forall_forall. intros c Hc. apply list_elem_of_fmap in Hc as ([c' s] & -> & Hin).
  apply elem_of_map_to_list in Hin. by eexists.
Qed.

Lemma sweep_idle_safe N l w now :
  gw_inv R L N l w → safe (sweep_idle now) w (λ _ w', gw_inv R L N l w' ∧ keeps w w').
Proof.
  intros Hinv. destruct w as [g a]. unfold sweep_idle. apply safe_bind. exists (sman g), (World g a). split; [done|].
  destruct (_ <? 1000); [by apply safe_ret|]. apply safe_bind.
  exists tt, (World (g <| sman := sman g <| last_idle_sweep_ := now |> |>) a). split; [done|].
  assert (gw_inv R L N l (World (g <| sman := sman g <| last_idle_sweep_ := now |> |>) a)) as H1.
  { destruct Hinv as [H1 H2 H3 H4 H5 H6 H7 H8 H9 H10 H12]. by constructor. }
  destruct (sm_empty (sman g)); [by apply safe_ret|].
  eapply safe_mono; [apply (sweep_loop_safe N l _ _ now H1); apply table_convs|].
  intros ? w2 [H2 K2]. split; [done|]. by destruct K2 as [K1 K2 K3].
Qed.

(** ** Events *)

Lemma dispatch_event_safe B l w e :
  gw_ok R L B l w → B < 2 ^ 31 →
  safe (dispatch_event (rounds R) e) w (λ _ w', gw_ok R L B l w' ∧ grows w w').
Proof.
  intros Hok HB. destruct e as [| |fd]; cbn [dispatch_event].
  - eapply safe_mono; [by apply handle_tunnel_datagram_safe|]. intros ? w1 (H1 & G1 & _). done.
  - destruct Hok as (N & Hinv & HN). apply safe_bind.
    eapply safe_mono; [by apply (now_ms_safe R L N l w)|]. intros t [g a] (H1 & K1 & T1).
    apply safe_bind. exists (sman g), (World g a). split; [done|]. apply safe_bind.
    eapply safe_mono; [apply (for_each_active_safe N l _ _ t H1); apply table_convs|]. intros ? w2 [H2 K2].
    apply safe_bind. eapply safe_mono; [by apply (now_ms_safe R L N l w2)|]. intros t3 w3 (H3 & K3 & _).
    eapply safe_mono; [by apply (sweep_idle_safe N l w3)|]. intros ? w4 [H4 K4].
    assert (keeps w w4) as K by (by do 3 (etrans; [eassumption|])).
    split; [by eapply ok_keeps|by apply keeps_grows].
  - apply safe_bind. destruct w as [g a]. exists (fd_to_session_ (sman g) !! fd), (World g a). split; [done|].
    destruct (fd_to_session_ (sman g) !! fd) as [c|] eqn:Ef; [|by apply safe_ret].
    destruct Hok as (N & Hinv & HN). apply (gi_fds _ _ _ _ _ Hinv) in Ef as (_ & s & Hs & _). cbn in Hs.
    unfold handle_target_reply. apply safe_bind.
    eapply safe_mono; [apply (deref_safe R L N l _ c Hinv); unfold table; cbn; by rewrite Hs|].
    intros s' ? (-> & _). destruct (dying s'); [apply safe_ret; split; [by exists N|done]|].
    apply safe_bind. exists (os g), (World g a). split; [done|].
    apply reply_loop_safe; [by exists N|done|unfold table; cbn; by rewrite Hs|cbn; lia].
Qed.

Lemma dispatch_events_safe B l w es :
  gw_ok R L B l w → B < 2 ^ 31 →
  safe (dispatch_events (rounds R) es) w (λ _ w', gw_ok R L B l w' ∧ grows w w').
Proof.
  revert w. induction es as [|e es IH]; intros w Hok HB; cbn [dispatch_events]; [by apply safe_ret|].
  apply safe_bind. eapply safe_mono; [by apply dispatch_event_safe|]. intros ? w1 [H1 G1].
  eapply safe_mono; [by apply IH|]. intros ? w2 [H2 G2]. split; [done|]. by etrans.
Qed.
End timer.

(** ** Teardown *)

Section teardown.
Context (R : nat) (L : Z).

(** The gateway with another list of sessions to tear down. *)
Definition with_erase (te : list Z) (g : gateway) : gateway := g <| sman := sman g <| to_erase_ := te |> |>.

(** Removing session [c]. *)
Lemma inv_remove N l g g' a a' c s k :
  gw_inv R L N l (World g a) → sessions_ (sman g) !! c = Some s → ks_kcp (s_kcp s) = Some k →
  sessions_ (sman g') = delete c (sessions_ (sman g)) → kv_ g' = kv_ g → pool_ g' = pool_ g →
  next_conv_ (sman g') = next_conv_ (sman g) →
  fd_to_session_ (sman g') =
    (if 0 <=? target_fd s then delete (target_fd s) (fd_to_session_ (sman g)) else fd_to_session_ (sman g)) →
  to_erase_ (sman g') = filter (λ x, x ≠ c) (to_erase_ (sman g)) →
  (∀ fd, fd ≠ target_fd s → fd ∈ os_open (os g) → fd ∈ os_open (os g')) →
  (∀ fd, fd ≠ target_fd s → fd ∈ os_epoll (os g) → fd ∈ os_epoll (os g')) →
  al_total a' → al_live a' = al_live a - blocks k →
  gw_inv R L N l (World g' a').
Proof.
  intros [H1 H2 H3 H4 H5 H6 H7 H8 H9 H10 H12] Hs Hk Es Ek Ep En Ef Et Ho He Ha Hl. cbn [w_eng w_al] in *.
  assert (∀ c' t, delete c (sessions_ (sman g)) !! c' = Some t ↔ c' ≠ c ∧ sessions_ (sman g) !! c' = Some t) as Hd.
  { intros c' t. rewrite lookup_delete_Some. split; intros []; split; congruence. }
  (* descriptors of other sessions are different *)
  assert (∀ c' t, c' ≠ c → sessions_ (sman g) !! c' = Some t → 0 ≤ target_fd t → target_fd t ≠ target_fd s) as Hne.
  { intros c' t Hc Ht Hf E. assert (fd_to_session_ (sman g) !! target_fd t = Some c') as F1 by (apply H8; eauto).
    assert (fd_to_session_ (sman g) !! target_fd t = Some c) as F2 by (apply H8; eauto). congruence. }
  constructor; cbn [w_eng w_al]; rewrite ?Es, ?Ek, ?Ep, ?En; try done.
  - intros c' t Ht. apply Hd in Ht as [_ Ht]. by apply H2.
  - rewrite map_size_delete, Hs. lia.
  - rewrite (table_blocks_delete _ c s Hs) in H4. unfold sess_blocks in H4. rewrite Hk in H4. lia.
  - intros fd c'. rewrite Ef. split.
    + intros Hf. assert (fd_to_session_ (sman g) !! fd = Some c' ∧ (0 ≤ target_fd s → fd ≠ target_fd s)) as [Hf' Hfd].
      { destruct (0 <=? target_fd s) eqn:E; b2p; [|split; [done|lia]].
        apply lookup_delete_Some in Hf as [? ?]. split; [done|congruence]. }
      apply H8 in Hf' as (Hfd0 & t & Ht & Htf). split; [done|]. exists t. split; [|done]. apply Hd. split; [|done].
      intros ->. simplify_eq. by apply Hfd.
    + intros (Hfd & t & Ht & Htf). apply Hd in Ht as [Hc Ht].
      assert (fd_to_session_ (sman g) !! fd = Some c') as Hf by (apply H8; eauto).
      destruct (0 <=? target_fd s); [|done]. apply lookup_delete_Some. split; [|done].
      intros <-. apply (Hne c' t Hc Ht); [lia|done].
  - intros c' t Ht Hf. apply Hd in Ht as [Hc Ht]. destruct (H9 c' t Ht Hf) as [O1 O2].
    pose proof (Hne c' t Hc Ht Hf). auto.
  - intros c'. rewrite Et, list_elem_of_filter, H10. split.
    + intros [Hc (t & Ht & Hdy)]. exists t. split; [by apply Hd|done].
    + intros (t & Ht & Hdy). apply Hd in Ht as [Hc Ht]. split; [done|]. by exists t.
  - intros c1 c2 s1 s2 Hs1 Hs2. apply Hd in Hs1 as [_ Hs1]. apply Hd in Hs2 as [_ Hs2]. by apply H12.
Qed.

(** [~Session]: the control block goes, with everything it holds. *)
Lemma session_destroy_run N k g a c s :
  sessions_ (sman g) !! c = Some s → ks_kcp (s_kcp s) = Some k → live_kcp N k → al_total a →
  ∃ s' a', session_destroy c (World g a) = Ok (tt, World (set_sess c s' g) a') ∧
    al_total a' ∧ al_live a' = al_live a - blocks k.
Proof.
  intros Hs Hk Hl Ha. unfold session_destroy, kcp_session_release. run. rewrite (deref_run _ _ _ _ Hs). run. rewrite Hk. run.
  assert (owns (al_live a - blocks k) (World k a)) as Ho by (unfold owns; cbn; lia).
  destruct (release_run _ k a Ho) as (k' & a' & Hr & Hlive & Ht).
  rewrite (on_kcp_run _ _ _ _ _ _ _ _ _ Hs Hk Hr). run.
  rewrite (upd_session_run _ _ _ _ _ (set_sess_lookup _ _ _)). rewrite set_sess_twice.
  eexists _, a'. split; [done|]. auto.
Qed.

Lemma teardown_loop_safe N l lst g a te :
  gw_inv R L N l (World (with_erase te g) a) → (∀ c, c ∈ te → c ∈ lst) →
  ∃ g' a', teardown_loop lst (World g a) = Ok (tt, World g' a') ∧
    gw_inv R L N l (World (with_erase [] g') a') ∧ os_inbox (os g') = os_inbox (os g) ∧ os_replies (os g') = os_replies (os g) ∧
    (∀ c, c ∈ lst → sessions_ (sman g') !! c = None) ∧
    (∀ c, c ∉ lst → sessions_ (sman g') !! c = sessions_ (sman g) !! c).
Proof.
  revert g a te. induction lst as [|c lst IH]; intros g a te Hinv Hte; cbn [teardown_loop].
  { assert (te = []) as -> by (destruct te as [|x te]; [done|]; exfalso; apply (not_elem_of_nil x), Hte; set_solver).
    exists g, a. split; [done|]. split_and!; try done. set_solver. }
  run. destruct (sessions_ (sman g) !! c) as [s|] eqn:Es.
  - destruct (gi_sess _ _ _ _ _ Hinv c s Es) as (_ & _ & k & Hk & Hl).
    set (g1 := if 0 <=? target_fd s then
        g <| os := os g <| os_epoll := os_epoll (os g) ∖ {[target_fd s]} |> |>
          <| sman := sman g <| fd_to_session_ := delete (target_fd s) (fd_to_session_ (sman g)) |> |>
          <| os := os g <| os_epoll := os_epoll (os g) ∖ {[target_fd s]} |> <| os_open := os_open (os g) ∖ {[target_fd s]} |> |>
      else g).
    assert ((if 0 <=? target_fd s then
               _ ← epoll_del (target_fd s);
               _ ← upd_sm (λ m, m <| fd_to_session_ := delete (target_fd s) (fd_to_session_ m) |>);
               close (target_fd s)
             else mret tt) (World g a) = Ok (tt, World g1 a)) as Hfd.
    { unfold g1, epoll_del, close. by destruct (0 <=? target_fd s); run. }
    rewrite (bind_Ok _ _ _ _ _ Hfd). clear Hfd.
    assert (sessions_ (sman g1) = sessions_ (sman g)) as Es1 by (unfold g1; by destruct (0 <=? target_fd s)).
    destruct (session_destroy_run N k g1 a c s) as (s' & a' & Hdes & Ha' & Hl'); [by rewrite Es1|done|done|apply Hinv|].
    rewrite (bind_Ok _ _ _ _ _ Hdes). clear Hdes. run.
    set (g2 := set_sess c s' g1 <| sman := sman (set_sess c s' g1)
      <| sessions_ := delete c (sessions_ (sman (set_sess c s' g1))) |> |>).
    destruct (IH g2 a' (filter (λ x, x ≠ c) te)) as (g3 & a3 & Hrun & Hinv3 & Ein & Erep & Hgone & Hstay).
    + eapply (inv_remove N l (with_erase te g) _ a a' c s k Hinv Es Hk); try done.
      * cbn. rewrite delete_insert_eq. by rewrite Es1.
      * cbn. unfold g1. by destruct (0 <=? target_fd s).
      * cbn. unfold g1. by destruct (0 <=? target_fd s).
      * cbn. unfold g1. by destruct (0 <=? target_fd s).
      * cbn. unfold g1. by destruct (0 <=? target_fd s).
      * cbn. unfold g1. intros fd Hfd Hin. destruct (0 <=? target_fd s); cbn; set_solver.
      * cbn. unfold g1. intros fd Hfd Hin. destruct (0 <=? target_fd s); cbn; set_solver.
    + intros x Hx. apply list_elem_of_filter in Hx as [Hne Hx]. apply Hte in Hx. set_solver.
    + exists g3, a3. split; [exact Hrun|]. split; [done|].
      assert (∀ c', c' ≠ c → sessions_ (sman g2) !! c' = sessions_ (sman g) !! c') as E2.
      { intros c' Hne. cbn. rewrite delete_insert_eq, Es1. by rewrite lookup_delete_ne. }
      split_and!.
      * rewrite Ein. cbn. unfold g1. by destruct (0 <=? target_fd s).
      * rewrite Erep. cbn. unfold g1. by destruct (0 <=? target_fd s).
      * intros c' [->|Hc']%elem_of_cons; [|by apply Hgone].
        destruct (decide (c ∈ lst)) as [Hin|Hin]; [by apply Hgone|]. rewrite Hstay by done.
        cbn. apply lookup_delete_eq.
      * intros c' Hc'. apply not_elem_of_cons in Hc' as [Hne Hc']. by rewrite Hstay, E2.
  - destruct (IH g a te Hinv) as (g3 & a3 & Hrun & Hinv3 & Ein & Erep & Hgone & Hstay).
    + intros x Hx. pose proof (Hte x Hx) as Hx'. apply elem_of_cons in Hx' as [->|]; [|done].
      exfalso. apply (gi_erase _ _ _ _ _ Hinv) in Hx as (s & Hs & _). cbn in Hs. congruence.
    + exists g3, a3. split_and!; try done.
      * intros c' [->|Hc']%elem_of_cons; [|by apply Hgone].
        destruct (decide (c ∈ lst)) as [Hin|Hin]; [by apply Hgone|]. by rewrite Hstay.
      * intros c' Hc'. apply not_elem_of_cons in Hc' as [Hne Hc']. by rewrite Hstay.
Qed.

(** After a teardown no dying session is left, and the timer runs exactly when
    there are sessions. *)
Lemma flush_teardown_safe N l g a :
  gw_inv R L N l (World g a) →
  ∃ g' a', flush_teardown (World g a) = Ok (tt, World g' a') ∧ gw_inv R L N l (World g' a') ∧
    to_erase_ (sman g') = [] ∧ os_inbox (os g') = os_inbox (os g) ∧ os_replies (os g') = os_replies (os g) ∧
    os_timer (os g') = (if sm_empty (sman g') then 0 else KCP_TICK_MS) ∧
    (∀ c, sessions_ (sman g') !! c =
      match sessions_ (sman g) !! c with Some s => if dying s then None else Some s | None => None end).
Proof.
  intros Hinv. unfold flush_teardown. run.
  destruct (teardown_loop_safe N l (to_erase_ (sman g)) g a (to_erase_ (sman g))) as
    (g' & a' & -> & Hinv' & Ein & Erep & Hgone & Hstay); [by destruct Hinv; constructor|done|].
  run. unfold sync_timer, timer_set_period. run. eexists _, _. split; [done|].
  split; [by apply (inv_os R L N l (with_erase [] g'))|]. split_and!; try done.
  - cbn. unfold sm_empty. cbn. by case_bool_decide.
  - intros c. cbn. destruct (decide (c ∈ to_erase_ (sman g))) as [Hin|Hin].
    + rewrite Hgone by done. apply (gi_erase _ _ _ _ _ Hinv) in Hin as (s & Hs & Hd). cbn in Hs. by rewrite Hs, Hd.
    + rewrite Hstay by done. destruct (sessions_ (sman g) !! c) as [s|] eqn:E; [|done].
      destruct (dying s) eqn:Ed; [|done]. exfalso. apply Hin, (gi_erase _ _ _ _ _ Hinv). by exists s.
Qed.

(** ** A round of the loop *)

Lemma loop_round_safe B l w es :
  gw_ok R L B l w → B < 2 ^ 31 →
  safe (loop_round (rounds R) es) w (λ _ w', gw_ok R L B l w' ∧ to_erase_ (sman (w_eng w')) = []).
Proof.
  intros Hok HB. unfold loop_round. apply safe_bind.
  eapply safe_mono; [by apply (dispatch_events_safe R L B l w es)|]. intros ? [g a] [(N & Hinv & HN) _].
  apply safe_bind. exists (negb (bool_decide (to_erase_ (sman g) = []))), (World g a). split; [done|].
  destruct (negb (bool_decide (to_erase_ (sman g) = []))) eqn:E.
  - destruct (flush_teardown_safe N l g a Hinv) as (g' & a' & Hr & Hinv' & Ht & Ein & Erep & _).
    exists tt, (World g' a'). split; [done|]. split; [|done]. exists N. split; [done|].
    unfold load_of in *. cbn [w_eng] in *. by rewrite Ein, Erep.
  - apply negb_false_iff, bool_decide_eq_true_1 in E. apply safe_ret. split; [by exists N|done].
Qed.
End teardown.
