(* ===== verification/GatewaySystem.v ===== *)
(** * The gateway from its start

    Start-up establishes the invariant; arrivals and rounds of the event loop
    keep it.  Then what single steps do: idle sessions, foreign datagrams, the
    relaying of data. *)

From S2P Require Import Prelude CRuntime IkcpData Ikcp IkcpCodec IkcpRecv IkcpApi IkcpBytes.
From S2P Require Import IkcpTimer Decimal Tunnel MemPool KvClient Session Gateway.
From S2P Require Import GatewayInv GatewaySafe GatewayRun GatewayLoop.

(** ** Start-up *)

(** A state that differs in the system's, without a change of the clock and
    the queues. *)
Definition os_only (w w' : world gateway) : Prop :=
  ∃ o, w' = World (w_eng w <| os := o |>) (w_al w) ∧ os_inbox o = os_inbox (os (w_eng w)) ∧
    os_replies o = os_replies (os (w_eng w)).

#[global] Instance os_only_preorder : PreOrder os_only.
Proof.
  split.
  - intros [[? ? ? ? o] a]. by exists o.
  - intros w1 w2 w3 (o1 & -> & E1 & F1) (o2 & -> & E2 & F2). exists o2. cbn in *. rewrite E2, F2. by destruct w1 as [[]].
Qed.

Lemma upd_os_only f w :
  (∀ o, os_inbox (f o) = os_inbox o ∧ os_replies (f o) = os_replies o) → safe (upd_os f) w (λ _, os_only w).
Proof. intros H. destruct w as [g a]. eexists _, _. split; [apply upd_os_run|]. exists (f (os g)). split; [done|]. apply H. Qed.

Lemma new_socket_only w : safe new_socket w (λ _, os_only w).
Proof.
  unfold new_socket. apply safe_bind. destruct w as [g a]. exists (os g), (World g a). split; [done|]. cbv zeta.
  apply safe_bind. eapply safe_mono; [by apply upd_os_only|]. intros ? w1 H1. destruct (_ || _); [by apply safe_ret|].
  apply safe_bind. eapply safe_mono; [by apply upd_os_only|]. intros ? w2 H2. apply safe_ret. by etrans; [exact H1|].
Qed.

Lemma bind_socket_only bind_ok w : safe (bind_tunnel_socket bind_ok) w (λ _, os_only w).
Proof.
  unfold bind_tunnel_socket. apply safe_bind. eapply safe_mono; [apply new_socket_only|]. intros fd w1 H1.
  destruct (fd <? 0); [by apply safe_ret|]. destruct (bind_ok _); [by apply safe_ret|]. apply safe_bind.
  eapply safe_mono; [by apply upd_os_only|]. intros ? w2 H2. apply safe_ret. by etrans; [exact H1|].
Qed.

Lemma event_loop_only fd w : safe (new_event_loop fd) w (λ _, os_only w).
Proof.
  unfold new_event_loop. apply safe_bind. eapply safe_mono; [apply new_socket_only|]. intros ep w1 H1.
  destruct (ep <? 0); [by apply safe_ret|]. apply safe_bind.
  eapply safe_mono; [by apply upd_os_only|]. intros ? w2 H2. apply safe_bind.
  eapply safe_mono; [apply new_socket_only|]. intros t w3 H3.
  destruct (t <? 0); [apply safe_ret; etrans; [exact H1|]; by etrans; [exact H2|]|]. apply safe_bind.
  eapply safe_mono; [by apply upd_os_only|]. intros ? w4 H4. apply safe_ret.
  etrans; [exact H1|]. etrans; [exact H2|]. by etrans; [exact H3|].
Qed.

Lemma on_kv_run {A} (m : prog kvstate A) g a x k :
  m (kv_ g) = Ok (x, k) → on_kv m (World g a) = Ok (x, World (g <| kv_ := k |>) a).
Proof. intros H. unfold on_kv. cbn [w_eng w_al]. by rewrite H. Qed.

(** The free blocks of a pool nobody uses. *)
Definition all_free : list nat := reverse (seq 0 (Z.to_nat CAP)).
#[global] Opaque all_free.

Lemma start_inv R bind_ok getenv g a :
  al_total a → kv_ready R (kv_ g) →
  safe (gateway_start bind_ok getenv) (World g a) (λ r w',
    match r with
    | Some e => e = 1 ∧ al_live (w_al w') = al_live a
    | None => gw_inv R (al_live a) 0 all_free w' ∧ table w' = ∅ ∧
        os_inbox (os (w_eng w')) = os_inbox (os g) ∧ os_replies (os (w_eng w')) = os_replies (os g) ∧
        idle_ms_ (sman (w_eng w')) = match getenv with Some e => strtoul e | None => SESSION_IDLE_MS end
    end).
Proof.
  intros Ha Hkv. unfold gateway_start. apply safe_bind. destruct new_pool_run as (p & Hp & Hrep).
  change (reverse (seq 0 (Z.to_nat CAP))) with all_free in Hrep. eapply lift_safe; [exact Hp|]. clear Hp. apply safe_bind. eexists _, _. split; [reflexivity|]. cbn [w_eng w_al].
  apply safe_bind. eapply safe_mono; [apply bind_socket_only|]. intros fd w1 (o1 & -> & I1 & F1).
  apply safe_bind. eexists _, _. split; [reflexivity|]. cbn [w_eng w_al].
  destruct (fd <? 0); [by apply safe_ret|]. apply safe_bind.
  destruct (connect_ready R (kv_ g) KVSTORE_IP KVSTORE_PORT Hkv) as (b & k & Hk & Hkr).
  eexists b, _. split; [apply on_kv_run; exact Hk|]. cbv zeta.
  apply safe_bind. eapply safe_mono; [apply event_loop_only|]. intros ? w2 (o2 & -> & I2 & F2).
  apply safe_bind. eexists _, _. split; [reflexivity|]. apply safe_bind. eexists _, _. split; [reflexivity|].
  apply safe_ret. cbn in *. split; [|split_and!; congruence || done].
  constructor; cbn; try done; try set_solver; try lia.
  unfold table_blocks. rewrite map_fold_empty. lia.
Qed.

(** ** Arrivals and rounds *)

Section steps.
Context (R : nat).

Definition dgram_cost (bytes : list Z) : Z := Z.of_nat (length (take (Z.to_nat BLOCK) bytes)).

(** [gw_steps w0 B w]: from [w0] to [w] by datagrams arriving from clients and
    game servers and by rounds of the loop, with [B] bounding what arrived. *)
Inductive gw_steps (w0 : world gateway) : Z → world gateway → Prop :=
  | gs_start : gw_steps w0 0 w0
  | gs_client B g a src bytes :
      gw_steps w0 B (World g a) →
      gw_steps w0 (B + dgram_cost bytes) (World (g <| os := os g <| os_inbox := os_inbox (os g) ++ [(src, bytes)] |> |>) a)
  | gs_server B g a fd bytes :
      gw_steps w0 B (World g a) →
      gw_steps w0 (B + 128) (World (g <| os := os g <| os_replies :=
        <[fd := default [] (os_replies (os g) !! fd) ++ [bytes]]> (os_replies (os g)) |> |>) a)
  | gs_round B w es w' :
      gw_steps w0 B w → loop_round (rounds R) es w = Ok (tt, w') → gw_steps w0 B w'.

Lemma steps_nonneg w0 B w : gw_steps w0 B w → 0 ≤ B.
Proof. induction 1; unfold dgram_cost in *; lia. Qed.

Lemma inbox_cost_app ib src bytes : inbox_cost (ib ++ [(src, bytes)]) = inbox_cost ib + dgram_cost bytes.
Proof. unfold inbox_cost, dgram_cost. induction ib as [|d ib IH]; cbn [app foldr snd]; lia. Qed.

Lemma steps_ok L B0 l w0 B w :
  gw_ok R L B0 l w0 → gw_steps w0 B w → B0 + B < 2 ^ 31 → gw_ok R L (B0 + B) l w.
Proof.
  intros H0 Hs. induction Hs as [|B g a src bytes Hs IH|B g a fd bytes Hs IH|B w es w' Hs IH Hr]; intros HB.
  - by rewrite Z.add_0_r.
  - destruct IH as (N & Hinv & HN); [unfold dgram_cost in *; lia|]. exists N. split; [by apply inv_os|].
    unfold load_of in *. cbn [w_eng os upd] in *. cbn in *. rewrite inbox_cost_app. lia.
  - destruct IH as (N & Hinv & HN); [lia|]. exists N. split; [by apply inv_os|].
    unfold load_of in *. cbn in *. unfold id. destruct (os_replies (os g) !! fd) as [rs|] eqn:E; cbn [default].
    + rewrite (replies_cost_insert _ _ rs) by done. rewrite length_app. cbn. fold (inbox_cost (os_inbox (os g))). lia.
    + unfold replies_cost in *. rewrite map_fold_insert_L; [cbn; fold (inbox_cost (os_inbox (os g))); lia|intros; lia|done].
  - destruct (loop_round_safe R L (B0 + B) l w es (IH HB) HB) as (x & w1 & Hr1 & Hok & _).
    rewrite Hr1 in Hr. by injection Hr as _ <-.
Qed.
End steps.
