(* ===== verification/GatewaySteps.v ===== *)
(** * What the gateway's steps do

    The effect of single handlers, exactly: idle sessions, datagrams of
    strangers, data on its way to the game server, route look-ups, and
    messages larger than a pool block. *)

From S2P Require Import Prelude CRuntime IkcpData Ikcp IkcpRecv Decimal Tunnel MemPool KvClient Session Gateway.
From S2P Require Import GatewayInv GatewaySafe GatewayRun GatewayLoop.

(** ** Idle sessions *)

(** The sessions a sweep at [now] takes for idle, and what it makes of one. *)
Definition idle_session (idle now : Z) (s : Session) : bool :=
  negb (dying s) && (idle <? u64 (now - last_active s)).

Definition swept (idle now : Z) (s : Session) : Session :=
  if idle_session idle now s then s <| dying := true |> else s.

(** The state after the sessions of [m] were looked at, [new] being the
    conversations to erase. *)
Definition sweep_state (m : gmap Z Session) (new : list Z) (g : gateway) : gateway :=
  g <| sman := sman g <| sessions_ := m |> <| to_erase_ := to_erase_ (sman g) ++ new |> |>.

(** The conversations of the idle sessions among [l]. *)
Definition idle_convs (idle now : Z) (l : list Session) : list Z :=
  s_conv <$> filter (λ s, idle_session idle now s = true) l.

Lemma idle_convs_cons idle now s l : idle_convs idle now (s :: l) = idle_convs idle now [s] ++ idle_convs idle now l.
Proof. unfold idle_convs. by rewrite <- fmap_app, <- filter_app. Qed.

Lemma sweep_state_twice m m' x y g : sweep_state m y (sweep_state m' x g) = sweep_state m (x ++ y) g.
Proof. unfold sweep_state. cbn. by rewrite <- app_assoc. Qed.

Lemma sweep_one now g a c s :
  sessions_ (sman g) !! c = Some s →
  (if dying s then mret tt else if idle_ms_ (sman g) <? u64 (now - last_active s) then mark_dying c else mret tt) (World g a) =
  Ok (tt, World (sweep_state (<[c := swept (idle_ms_ (sman g)) now s]> (sessions_ (sman g)))
                   (idle_convs (idle_ms_ (sman g)) now [s]) g) a).
Proof.
  intros Hs. unfold idle_convs, swept. rewrite filter_cons, filter_nil.
  assert (sweep_state (<[c := s]> (sessions_ (sman g))) [] g = g) as Hsame.
  { rewrite insert_id by done. unfold sweep_state. rewrite app_nil_r. by destruct g as [? ? ? [] ?]. }
  destruct (decide _) as [Hi|Hi]; [rewrite Hi|apply not_true_is_false in Hi as Hi'; rewrite Hi'; cbn [fmap list_fmap]; rewrite Hsame].
  - unfold idle_session in Hi. apply andb_true_iff in Hi as [Hd Hi]. apply negb_true_iff in Hd. rewrite Hd, Hi.
    unfold mark_dying. run. rewrite (deref_run _ _ _ _ Hs). by run.
  - unfold idle_session in Hi'. destruct (dying s); [done|]. cbn [negb andb] in Hi'. by rewrite Hi'.
Qed.

Lemma sweep_loop_run now (l : list (Z * Session)) g a :
  NoDup l.*1 → Forall (λ x, sessions_ (sman g) !! x.1 = Some x.2) l →
  ∃ m, sweep_loop now l.*1 (World g a) = Ok (tt, World (sweep_state m (idle_convs (idle_ms_ (sman g)) now l.*2) g) a) ∧
    (∀ c, c ∉ l.*1 → m !! c = sessions_ (sman g) !! c) ∧
    (∀ c, c ∈ l.*1 → m !! c = swept (idle_ms_ (sman g)) now <$> sessions_ (sman g) !! c).
Proof.
  revert g. induction l as [|[c s] l IH]; intros g Hnd Hl; rewrite ?fmap_cons in *; cbn [sweep_loop fst snd] in *.
  { exists (sessions_ (sman g)). split; [|split; [done|by intros c ?%elem_of_nil]].
    unfold sweep_state. cbn. rewrite app_nil_r. by destruct g as [? ? ? [] ?]. }
  apply NoDup_cons in Hnd as [Hc Hnd]. apply Forall_cons in Hl as [Hs Hl]. cbn [fst snd] in Hs.
  run. rewrite (deref_run _ _ _ _ Hs). run. rewrite (sweep_one now g a c s Hs).
  set (g1 := sweep_state _ _ g). destruct (IH g1 Hnd) as (m & H2 & F3 & F4).
  { apply Forall_forall. intros [c' s'] Hin. rewrite Forall_forall in Hl. specialize (Hl _ Hin). cbn [fst snd] in *.
    cbn. rewrite lookup_insert_ne; [done|]. intros ->. apply Hc. apply list_elem_of_fmap. by exists (c', s'). }
  exists m. split; [|split].
  - rewrite H2. unfold g1. rewrite sweep_state_twice.
    by rewrite (idle_convs_cons _ _ s l.*2).
  - intros c' [Hne Hn]%not_elem_of_cons. rewrite F3 by done. cbn. by rewrite lookup_insert_ne.
  - intros c' Hc'. destruct (decide (c' = c)) as [->|Hne].
    + rewrite F3 by done. cbn. by rewrite lookup_insert_eq, Hs.
    + rewrite F4 by set_solver. cbn. by rewrite lookup_insert_ne.
Qed.

(** The whole state after a sweep. *)
Definition sweep_result (now : Z) (g : gateway) : gateway :=
  g <| sman := sman g <| last_idle_sweep_ := now |>
         <| sessions_ := swept (idle_ms_ (sman g)) now <$> sessions_ (sman g) |>
         <| to_erase_ := to_erase_ (sman g) ++
              idle_convs (idle_ms_ (sman g)) now (map_to_list (sessions_ (sman g))).*2 |> |>.

Lemma sweep_idle_run now g a :
  sweep_idle now (World g a) =
  Ok (tt, World (if u64 (now - last_idle_sweep_ (sman g)) <? 1000 then g else sweep_result now g) a).
Proof.
  unfold sweep_idle. run. destruct (_ <? 1000); [done|]. run.
  set (g1 := g <| sman := sman g <| last_idle_sweep_ := now |> |>).
  destruct (sm_empty (sman g)) eqn:Ee.
  { unfold sm_empty in Ee. apply bool_decide_eq_true_1 in Ee. unfold sweep_result, g1, idle_convs.
    rewrite Ee, fmap_empty, map_to_list_empty. cbn. rewrite app_nil_r. destruct g as [? ? ? [] ?]. cbn in *. by rewrite Ee. }
  destruct (sweep_loop_run now (map_to_list (sessions_ (sman g))) g1 a) as (m & Hrun & E2 & E3).
  - apply NoDup_fst_map_to_list.
  - apply Forall_forall. intros [c s] Hin. by apply elem_of_map_to_list in Hin.
  - enough (m = swept (idle_ms_ (sman g)) now <$> sessions_ (sman g)) as Em by (rewrite Hrun, Em; done).
    apply map_eq. intros c. rewrite lookup_fmap.
    destruct (decide (c ∈ (map_to_list (sessions_ (sman g))).*1)) as [Hin|Hin]; [by rewrite E3|].
    rewrite E2 by done. change (sessions_ (sman g1)) with (sessions_ (sman g)).
    destruct (sessions_ (sman g) !! c) as [s|] eqn:Es; [|done]. destruct Hin.
    apply list_elem_of_fmap. exists (c, s). split; [done|]. by apply elem_of_map_to_list.
Qed.

(** No conversation is marked twice. *)
Lemma idle_convs_nodup idle now (m : gmap Z Session) :
  (∀ c s, m !! c = Some s → s_conv s = c) → NoDup (idle_convs idle now (map_to_list m).*2).
Proof.
  intros Hm. unfold idle_convs.
  assert (s_conv <$> (map_to_list m).*2 = (map_to_list m).*1) as E.
  { rewrite <- list_fmap_compose. apply list_fmap_ext. intros i [c s] Hi%list_elem_of_lookup_2.
    apply elem_of_map_to_list in Hi. by apply Hm. }
  eapply sublist_NoDup; [apply (NoDup_fst_map_to_list m)|]. rewrite <- E. apply fmap_sublist, sublist_filter.
Qed.

(** A conversation is marked exactly when its session is idle. *)
Lemma idle_convs_spec idle now (m : gmap Z Session) c :
  (∀ c s, m !! c = Some s → s_conv s = c) →
  c ∈ idle_convs idle now (map_to_list m).*2 ↔ ∃ s, m !! c = Some s ∧ idle_session idle now s = true.
Proof.
  intros Hm. unfold idle_convs. rewrite list_elem_of_fmap. split.
  - intros (s & -> & Hin). apply list_elem_of_filter in Hin as [Hi Hin].
    apply list_elem_of_fmap in Hin as ([c' s'] & -> & Hin). apply elem_of_map_to_list in Hin. cbn [snd] in *.
    exists s'. by rewrite (Hm _ _ Hin).
  - intros (s & Hs & Hi). exists s. split; [symmetry; by apply Hm|]. apply list_elem_of_filter. split; [done|].
    apply list_elem_of_fmap. exists (c, s). split; [done|]. by apply elem_of_map_to_list.
Qed.

(** ** Datagrams of strangers *)

(** Nobody at [src] owns the conversation the datagram names. *)
Definition foreign (g : gateway) (src : sockaddr_in) (bytes : list Z) : Prop :=
  ∀ c s, ikcp_getconv bytes = Some c → sessions_ (sman g) !! c = Some s → client_addr s ≠ src.

Lemma on_pool_run {A} (m : prog MemoryPool A) g a x p :
  m (pool_ g) = Ok (x, p) → on_pool m (World g a) = Ok (x, World (g <| pool_ := p |>) a).
Proof. intros H. unfold on_pool. cbn [w_eng w_al]. by rewrite H. Qed.

Lemma getconv_some bytes : (4 ≤ length bytes)%nat → is_Some (ikcp_getconv bytes).
Proof.
  intros H. destruct bytes as [|b0 [|b1 [|b2 [|b3 bytes]]]]; cbn [length] in H; try lia. by eexists.
Qed.

(** A datagram the gateway has no use for: not a REGISTER, and too short or
    foreign. *)
Definition ignorable (g : gateway) (d : sockaddr_in * list Z) : Prop :=
  let pkt := take (Z.to_nat BLOCK) d.2 in
  pkt ≠ [PACKET_REGISTER] ∧ ((length pkt < 24)%nat ∨ foreign g d.1 pkt).

Section ignored.
Context (kv_fuel : nat).

(** The state with the pool [p] and the datagrams [ib] left. *)
Definition drained (p : MemoryPool) (ib : list (sockaddr_in * list Z)) (g : gateway) : gateway :=
  g <| pool_ := p |> <| os := os g <| os_inbox := ib |> |>.

Lemma foreign_segment g a src b pkt p :
  (24 ≤ length pkt)%nat → foreign g src pkt → free_block (Some b) (pool_ g) = Ok (tt, p) →
  handle_segment kv_fuel src b pkt (World g a) = Ok (false, World (g <| pool_ := p |>) a).
Proof.
  intros Hlen Hf Hp. unfold handle_segment, lookup_session.
  destruct (getconv_some pkt ltac:(lia)) as [c Hc]. rewrite Hc. run.
  assert ((match sessions_ (sman g) !! c with
           | None => mret None
           | Some s => if same_addr (client_addr s) src then mret (Some c) else mret None
           end : G (option Z)) (World g a) = Ok (None, World g a)) as ->.
  { destruct (sessions_ (sman g) !! c) as [s|] eqn:Es; [|done].
    destruct (same_addr _ _) eqn:E; [|done]. apply same_addr_eq in E. by destruct (Hf c s Hc Es). }
  run. by rewrite (on_pool_run _ _ _ _ _ Hp).
Qed.

Lemma loop_ignores fuel g a src bytes rest b l :
  pool_rep (Z.to_nat CAP) (pool_ g) (b :: l) → os_inbox (os g) = (src, bytes) :: rest → ignorable g (src, bytes) →
  ∃ p, datagram_loop kv_fuel (S fuel) (World g a) = datagram_loop kv_fuel fuel (World (drained p rest g) a) ∧
    pool_rep (Z.to_nat CAP) p (b :: l).
Proof.
  intros Hp Hi [Hreg Hign]. cbn [fst snd] in *. set (pkt := take (Z.to_nat BLOCK) bytes) in *.
  destruct (alloc_run _ _ _ Hp) as (p1 & H1 & Hp1 & _).
  pose proof (pr_nodup _ _ _ Hp) as Hnd. apply NoDup_cons in Hnd as [Hb _].
  pose proof (pool_rep_bound _ _ _ Hp) as Hbd. apply Forall_cons in Hbd as [Hlt _].
  destruct (fill_run _ _ _ b Hp1 Hb Hlt) as (p2 & H2 & Hp2).
  destruct (push_run _ _ _ b Hp2 Hb Hlt) as (p3 & H3 & Hp3).
  exists p3. split; [|done]. cbn [datagram_loop]. rewrite bind_run, (on_pool_run _ _ _ _ _ H1). cbn beta iota.
  rewrite bind_run. unfold recv_client at 1. rewrite bind_run, get_os_run.
  change (os_inbox (os (g <| pool_ := p1 |>))) with (os_inbox (os g)). rewrite Hi. cbn beta iota.
  rewrite bind_run, upd_os_run, ret_run. cbn beta iota. fold pkt.
  rewrite bind_run. rewrite (on_pool_run (fill_block b) _ _ tt p2) by exact H2. cbn beta iota.
  rewrite bool_decide_eq_false_2 by done.
  set (g2 := g <| pool_ := p1 |> <| os := os (g <| pool_ := p1 |>) <| os_inbox := rest |> |> <| pool_ := p2 |>).
  assert (g2 <| pool_ := p3 |> = drained p3 rest g) as Eg by done.
  destruct (Z.of_nat (length pkt) <? 24) eqn:El; b2p.
  - rewrite bind_run, (on_pool_run _ g2 a tt p3) by exact H3. by rewrite Eg.
  - destruct Hign as [|Hf]; [lia|].
    rewrite bind_run, (foreign_segment g2 a src b pkt p3); [by rewrite Eg|lia|exact Hf|exact H3].
Qed.

Lemma loop_empty fuel g a b l :
  pool_rep (Z.to_nat CAP) (pool_ g) (b :: l) → os_inbox (os g) = [] →
  ∃ p, datagram_loop kv_fuel (S fuel) (World g a) = Ok (tt, World (drained p [] g) a) ∧
    pool_rep (Z.to_nat CAP) p (b :: l).
Proof.
  intros Hp Hi. destruct (alloc_run _ _ _ Hp) as (p1 & H1 & Hp1 & _).
  pose proof (pr_nodup _ _ _ Hp) as Hnd. apply NoDup_cons in Hnd as [Hb _].
  pose proof (pool_rep_bound _ _ _ Hp) as Hbd. apply Forall_cons in Hbd as [Hlt _].
  destruct (push_run _ _ _ b Hp1 Hb Hlt) as (p2 & H2 & Hp2). exists p2. split; [|done].
  cbn [datagram_loop]. rewrite bind_run, (on_pool_run _ _ _ _ _ H1). cbn beta iota.
  rewrite bind_run. unfold recv_client at 1. rewrite bind_run, get_os_run.
  change (os_inbox (os (g <| pool_ := p1 |>))) with (os_inbox (os g)). rewrite Hi, ret_run. cbn beta iota.
  rewrite (on_pool_run _ _ a tt p2) by exact H2. unfold drained. destruct g as [k p c m []]. cbn in *. by subst.
Qed.

(** A batch of such datagrams is drained and has no effect. *)
Lemma ignored_run g a b l :
  pool_rep (Z.to_nat CAP) (pool_ g) (b :: l) → Forall (ignorable g) (os_inbox (os g)) →
  ∃ p, handle_tunnel_datagram kv_fuel (World g a) = Ok (tt, World (drained p [] g) a) ∧
    pool_rep (Z.to_nat CAP) p (b :: l).
Proof.
  intros Hp Hf. unfold handle_tunnel_datagram. rewrite bind_run, get_os_run.
  remember (os_inbox (os g)) as ib eqn:Ei. symmetry in Ei. revert g Hp Ei Hf.
  induction ib as [|[src bytes] ib IH]; intros g Hp Ei Hf; [by eapply loop_empty|].
  apply Forall_cons in Hf as [H1 Hf]. cbn [length].
  destruct (loop_ignores (S (length ib)) g a src bytes ib b l Hp Ei H1) as (p & -> & Hp1).
  destruct (IH (drained p ib g)) as (p2 & -> & Hp2); [done|done| |by exists p2].
  eapply Forall_impl; [exact Hf|]. by intros [].
Qed.
End ignored.

(** ** Data on its way to the game server *)

Section messages.
Context (kv_fuel : nat).

(** The state after a reading of the clock, with session [c] active then. *)
Definition active (c : Z) (s : Session) (g : gateway) : gateway :=
  set_sess c (s <| last_active := os_clock (os g) (os_reads (os g)) |>)
    (g <| os := os g <| os_reads := S (os_reads (os g)) |> |>).

Lemma active_run c s g a (f : unit → G bool) :
  sessions_ (sman g) !! c = Some s →
  (t ← now_ms; u ← upd_session c (λ s, s <| last_active := t |>); f u) (World g a) = f tt (World (active c s g) a).
Proof. intros Hs. unfold now_ms. run. rewrite (upd_session_run _ _ _ _ s) by done. done. Qed.

(** [data] handed to [sendto] for the game server of session [c], [s]. *)
Definition relayed (c : Z) (s : Session) (data : list Z) (g : gateway) : gateway :=
  active c s g <| os := os (active c s g)
    <| os_sent := os_sent (os g) ++ [Dgram (target_fd s) (target_addr s) data] |> |>.

Lemma data_run g a c s data :
  sessions_ (sman g) !! c = Some s → 0 ≤ target_fd s → Z.of_nat (length data) < 65536 →
  handle_tunnel_msg kv_fuel c (PACKET_DATA :: be16 (Z.of_nat (length data)) ++ data) (3 + Z.of_nat (length data))
    (World g a) = Ok (false, World (relayed c s data g) a).
Proof.
  intros Hs Hfd Hlen. unfold handle_tunnel_msg.
  destruct (parse_pack_data data [] (Z.of_nat (length data)) ltac:(lia) eq_refl) as [Hp Hl].
  rewrite app_nil_r in Hp, Hl. rewrite bind_run. unfold lift at 1. rewrite Hp. cbn beta iota.
  change (PACKET_DATA =? PACKET_CONNECT) with false. rewrite Z.eqb_refl. cbn iota.
  rewrite bind_run, (deref_run _ _ _ _ Hs). cbn beta iota. rewrite (proj2 (Z.ltb_ge _ _) Hfd). cbn iota.
  rewrite (active_run c s g a) by done. rewrite bind_run. unfold lift. rewrite Hl. cbn beta iota.
  unfold sendto. run. done.
Qed.

Lemma active_set c s g : active c s (set_sess c s g) = active c s g.
Proof. unfold active, set_sess. cbn. by rewrite insert_insert_eq. Qed.

(** One round of the reading loop, on a DATA message. *)
Lemma data_round fuel g a c s k k' a' data :
  sessions_ (sman g) !! c = Some s → ks_kcp (s_kcp s) = Some k → 0 ≤ target_fd s → 3 + Z.of_nat (length data) ≤ BLOCK →
  ikcp_recv BLOCK (World k a) =
    Ok ((3 + Z.of_nat (length data), PACKET_DATA :: be16 (Z.of_nat (length data)) ++ data), World k' a') →
  message_loop kv_fuel (S fuel) c (World g a) =
  message_loop kv_fuel fuel c (World (relayed c (with_kcp s k') data g) a').
Proof.
  intros Hs Hk Hfd Hlen Hr. cbn [message_loop]. rewrite bind_run, (on_kcp_run _ _ _ _ _ _ _ _ _ Hs Hk Hr).
  cbn beta iota. unfold BLOCK in Hlen |- *.
  rewrite (proj2 (Z.ltb_ge _ _)) by (cbn [length]; rewrite length_app; cbn [be16 length]; lia).
  rewrite (proj2 (Z.leb_gt _ _)) by lia.
  rewrite bind_run, (data_run _ a' c (with_kcp s k') data) by (apply set_sess_lookup || done || lia).
  cbn beta iota. unfold relayed. rewrite active_set. done.
Qed.

(** ** Routes *)

(** What CONNECT leaves behind: a relay socket [fd] to [addr]. *)
Definition connected (c : Z) (s : Session) (k : kvstate) (addr : sockaddr_in) (fd : Z) (g : gateway) : Prop :=
  ∃ s', sessions_ (sman g) !! c = Some s' ∧ target_addr s' = addr ∧ target_fd s' = fd ∧ dying s' = dying s ∧
    s_kcp s' = s_kcp s ∧ client_addr s' = client_addr s ∧ fd_to_session_ (sman g) !! fd = Some c ∧
    fd ∈ os_open (os g) ∧ fd ∈ os_epoll (os g) ∧ kv_ g = k.

Lemma open_target_run g a c s fd :
  sessions_ (sman g) !! c = Some s → os_socket (os g) (os_sockets (os g)) = fd → 0 ≤ fd → fd ∉ os_open (os g) →
  fd_to_session_ (sman g) !! fd = None →
  ∃ g', open_target c (World g a) = Ok (true, World g' a) ∧ kv_ g' = kv_ g ∧
    sessions_ (sman g') = <[c := s <| target_fd := fd |>]> (sessions_ (sman g)) ∧
    fd_to_session_ (sman g') = <[fd := c]> (fd_to_session_ (sman g)) ∧
    fd ∈ os_open (os g') ∧ fd ∈ os_epoll (os g').
Proof.
  intros Hs Hfd Hpos Hnew Hnone. unfold open_target, new_socket. run. rewrite Hfd.
  rewrite (proj2 (Z.ltb_ge _ _) Hpos), bool_decide_eq_false_2 by done. cbn [orb]. run.
  rewrite (upd_session_run _ _ _ _ s) by done. run. rewrite (proj2 (Z.ltb_ge _ _) Hpos). unfold epoll_add. run.
  eexists. split; [reflexivity|]. cbn. rewrite Hnone. split_and!; try done; set_solver.
Qed.

Lemma connect_run g a c s route k a1 a2 a3 a4 port fd :
  sessions_ (sman g) !! c = Some s → target_fd s < 0 →
  Forall (λ b, b ≠ 0) route → (length route < 256)%nat →
  0 ≤ a1 < 256 → 0 ≤ a2 < 256 → 0 ≤ a3 < 256 → 0 ≤ a4 < 256 → 0 ≤ port < 65536 →
  kv_get kv_fuel (str "route:" ++ route) (kv_ g) = Ok (Some (show_node a1 a2 a3 a4 port), k) →
  os_socket (os g) (os_sockets (os g)) = fd → 0 ≤ fd → fd ∉ os_open (os g) → fd_to_session_ (sman g) !! fd = None →
  ∃ g', handle_tunnel_msg kv_fuel c (PACKET_CONNECT :: Z.of_nat (length route) :: route)
      (2 + Z.of_nat (length route)) (World g a) = Ok (false, World g' a) ∧
    connected c s k (SockAddr (of_be [a1; a2; a3; a4]) port) fd g'.
Proof.
  intros Hs Hneg Hr Hlen R1 R2 R3 R4 Rp Hkv Hsock Hpos Hnew Hnone. unfold handle_tunnel_msg.
  destruct (parse_pack_connect route [] (Z.of_nat (length route)) ltac:(lia) eq_refl) as [Hp Hrd].
  rewrite app_nil_r in Hp, Hrd. rewrite bind_run. unfold lift at 1. rewrite Hp. cbn beta iota.
  rewrite Z.eqb_refl. cbn iota. unfold handle_connect. rewrite bind_run, (deref_run _ _ _ _ Hs). cbn beta iota.
  rewrite (proj2 (Z.leb_gt _ _)) by lia. cbn iota. rewrite bind_run. unfold lift at 1. rewrite Hrd. cbn beta iota zeta.
  rewrite c_str_ok by done. rewrite bind_run.
  assert (on_kv (kv_get kv_fuel (str "route:" ++ route)) (World g a) =
    Ok (Some (show_node a1 a2 a3 a4 port), World (g <| kv_ := k |>) a)) as ->
    by (unfold on_kv; cbn [w_eng w_al]; by rewrite Hkv).
  cbn beta iota. cbn [mbind option_bind]. rewrite node_to_addr_show by done. cbn beta iota.
  set (addr := SockAddr (of_be [a1; a2; a3; a4]) port).
  rewrite bind_run, (upd_session_run _ _ _ _ s) by done. cbn beta iota.
  set (s1 := s <| target_addr := addr |>).
  rewrite (active_run c s1) by apply set_sess_lookup.
  set (g1 := active c s1 _). set (s2 := s1 <| last_active := os_clock (os g) (os_reads (os g)) |>).
  destruct (open_target_run g1 a c s2 fd) as (g' & Hrun & E1 & E2 & E3 & E4 & E5); try done.
  { cbn. apply lookup_insert_eq. }
  rewrite bind_run, Hrun. exists g'. split; [done|]. exists (s2 <| target_fd := fd |>).
  rewrite E2, E3, E1, lookup_insert_eq, lookup_insert_eq. by split_and!.
Qed.

(** ** Messages larger than a pool block *)

Lemma recv_too_small len k a :
  0 ≤ len → len < ikcp_peeksize k → ikcp_recv len (World k a) = Ok ((-3, []), World k a).
Proof.
  intros Hl Hp. unfold ikcp_recv, get. run. destruct (rcv_queue k) as [|x q] eqn:Eq.
  { unfold ikcp_peeksize in Hp. rewrite Eq in Hp. lia. }
  rewrite (proj2 (Z.ltb_ge _ _) Hl). cbv zeta. rewrite (proj2 (Z.ltb_ge _ _)) by lia.
  by rewrite (proj2 (Z.ltb_lt _ _) Hp).
Qed.

Lemma peek_loop_app q q2 n :
  Exists (λ seg, seg_frg seg = 0) q → peek_loop (q ++ q2) n = peek_loop q n.
Proof.
  revert n. induction q as [|s q IH]; intros n H; [by apply Exists_nil in H|]. cbn [app peek_loop]. cbv zeta.
  destruct (seg_frg s =? 0) eqn:E; [done|]. apply IH. apply Exists_cons in H as [H|H]; [b2p; lia|done].
Qed.

(** A complete message at the head stays the next one, whatever follows. *)
Lemma peeksize_app k k' q2 :
  Exists (λ seg, seg_frg seg = 0) (rcv_queue k) → rcv_queue k' = rcv_queue k ++ q2 → nrcv_que k ≤ nrcv_que k' →
  0 ≤ ikcp_peeksize k → ikcp_peeksize k' = ikcp_peeksize k.
Proof.
  intros He Hq Hn. unfold ikcp_peeksize. rewrite Hq. destruct (rcv_queue k) as [|s q] eqn:Eq; [by apply Exists_nil in He|].
  cbn [app]. destruct (seg_frg s =? 0); [done|].
  destruct (nrcv_que k <? _) eqn:E1; b2p; [lia|]. intros _. rewrite (proj2 (Z.ltb_ge _ _)) by lia.
  by rewrite <- (peek_loop_app (s :: q) q2).
Qed.

Lemma message_loop_wedged fuel g a c s k :
  sessions_ (sman g) !! c = Some s → ks_kcp (s_kcp s) = Some k → BLOCK < ikcp_peeksize k →
  message_loop kv_fuel (S fuel) c (World g a) = Ok (false, World g a).
Proof.
  intros Hs Hk Hp. cbn [message_loop]. rewrite bind_run.
  rewrite (on_kcp_run _ _ _ _ _ _ _ _ _ Hs Hk (recv_too_small BLOCK k a ltac:(done) Hp)). cbn. do 3 f_equal.
  assert (with_kcp s k = s) as ->.
  { unfold with_kcp. destruct s as [x [ks p f] c1 c2 c3 c4 c5]. cbn in *. by subst. }
  unfold set_sess. destruct g as [k0 p0 c0 [ss fs te nc im ls cf] o0]. cbn in *. by rewrite insert_id.
Qed.
End messages.
