(* ===== verification/GatewayProps.v ===== *)
(** * Properties of the gateway and of what it talks to *)

From S2P Require Import Prelude CRuntime Hash HashFacts Engine Protocol Server KvProps.
From S2P Require Import IkcpData Ikcp IkcpCodec IkcpRecv IkcpApi IkcpBytes IkcpTimer.
From S2P Require Import Decimal Tunnel MemPool KvClient Session Gateway.
From S2P Require Import GatewayInv GatewaySafe GatewayRun GatewayLoop GatewaySystem GatewaySteps.

(** ** A concrete system, for the examples

    The clock ticks once per call, no connection to the store succeeds, and
    the descriptors offered are 4, 5, 6, ... *)
Definition net0 : net :=
  Net 0 Z.of_nat (λ _, 3) (λ _, -1) (λ _, 0) (λ _, 0) (λ _, None) [] [].

Definition os0 : sysstate := Sys Z.of_nat 0 [] ∅ (λ n, 4 + Z.of_nat n) 0 ∅ ∅ 0 [].

Definition gateway0 : gateway := Gw (KvState kv_init net0) (Pool [] None) (-1) (new_session_manager (-1)) os0.

(** The state a program leaves, [d] after a fault. *)
Definition state_of {A} (d : world gateway) (m : result (A * world gateway)) : world gateway :=
  match m with Ok (_, w) => w | Err _ => d end.

Definition started : world gateway :=
  state_of (World gateway0 al_good) (gateway_start (λ _, true) None (World gateway0 al_good)).

Lemma kv0_ready : kv_ready 1 (kv_ gateway0).
Proof. split; [done|]. split; cbn; lia. Qed.

(** A start that gets to the event loop, by evaluation. *)
Lemma start_evaluates (m : result (option Z * world gateway)) d :
  match m with Ok (None, _) => true | _ => false end = true →
  m = Ok (None, state_of d m).
Proof. by destruct m as [[[e|] w]|e]. Qed.

Lemma started_run : gateway_start (λ _, true) None (World gateway0 al_good) = Ok (None, started).
Proof.
  exact (start_evaluates (gateway_start (λ _, true) None (World gateway0 al_good)) (World gateway0 al_good)
    ltac:(vm_compute; reflexivity)).
Qed.
#[global] Opaque started.

Lemma started_inv : gw_inv 1 0 0 all_free started ∧ table started = ∅.
Proof.
  destruct (start_inv 1 (λ _, true) None gateway0 al_good al_good_total kv0_ready) as (r & w & Hr & H).
  rewrite started_run in Hr. apply Ok_inj in Hr as [Er Ew]. rewrite <- Er, <- Ew in H. clear Er Ew.
  split; [exact (proj1 H)|exact (proj1 (proj2 H))].
Qed.

(** ** The whole gateway *)





(** ** Registration *)

(** Without memory a REGISTER crashes the gateway: [kcp_session_init] does not
    check [ikcp_create], and [ikcp_setoutput] dereferences its NULL. *)
Theorem register_without_memory :
  register_client (SockAddr 1 2) (World (w_eng started) al_none) = Err NullDeref.
Proof. vm_compute. reflexivity. Qed.

(** C24. REGISTER is idempotent: an endpoint that registers twice gets the same
    number twice, in a REGISTERED packet to itself; the second time the session
    table is as the first left it, where the number belongs to a session of that
    endpoint which waits for its CONNECT. *)
Theorem register_idempotent R L N l g a src :
  gw_inv R L N l (World g a) → N < 2 ^ 30 →
  ∃ c g1 a1 g2 a2 s, register_client src (World g a) = Ok (tt, World g1 a1) ∧
    register_client src (World g1 a1) = Ok (tt, World g2 a2) ∧ sman g2 = sman g1 ∧
    sessions_ (sman g1) !! c = Some s ∧ pending_sess s ∧ client_addr s = src ∧
    os_sent (os g2) = os_sent (os g) ++ replicate 2 (Dgram (sm_client_fd_ (sman g)) src (PACKET_REGISTERED :: be32 c)).
Proof.
  intros Hinv HN. destruct (register_run R L N l g a src Hinv ltac:(lia)) as (c & g1 & a1 & H1 & Hi1 & Es1 & _ & _ & Hc).
  assert (∃ s, sessions_ (sman g1) !! c = Some s ∧ pending_sess s ∧ client_addr s = src ∧
    sm_client_fd_ (sman g1) = sm_client_fd_ (sman g)) as (s & Hs & Hp & Ha & Hfd).
  { destruct Hc as [(s & Hs & Hp & Ha & ->)|(Hn & Hr & _ & E & _ & Ef)]; [by exists s|].
    exists (registered c src (sm_client_fd_ (sman g))). rewrite E, lookup_insert_eq. by split_and!. }
  destruct (register_run R L (N + 1) l g1 a1 src Hi1 ltac:(lia)) as (c2 & g2 & a2 & H2 & _ & Es2 & _ & _ & Hc2).
  destruct Hc2 as [(s2 & Hs2 & Hp2 & Ha2 & E2)|(_ & _ & Hnone & _)]; [|by destruct (Hnone c s Hs Hp)].
  assert (c2 = c) as -> by (apply (gi_pending _ _ _ _ _ Hi1 c2 c s2 s); try done; congruence).
  exists c, g1, a1, g2, a2, s. split_and!; try done. by rewrite Es2, Es1, Hfd, <- app_assoc.
Qed.

Lemma register_idempotent_witness :
  ∃ c g1 a1 g2 a2, register_client (SockAddr 1 2) (World (w_eng started) (w_al started)) = Ok (tt, World g1 a1) ∧
    register_client (SockAddr 1 2) (World g1 a1) = Ok (tt, World g2 a2) ∧ sman g2 = sman g1 ∧
    is_Some (sessions_ (sman g1) !! c).
Proof.
  destruct (register_idempotent 1 0 0 all_free (w_eng started) (w_al started) (SockAddr 1 2)) as
    (c & g1 & a1 & g2 & a2 & s & H1 & H2 & H3 & H4 & _).
  - destruct started_inv as [H _]. destruct started as [g a]. exact H.
  - reflexivity.
  - exists c, g1, a1, g2, a2. split; [exact H1|]. split; [exact H2|]. split; [exact H3|]. exists s. exact H4.
Defined.

(** ** Messages of a session *)

(** A table with the one session [s]. *)
Definition with_session (s : Session) (g : gateway) : gateway := set_sess (s_conv s) s g.

(** A session of client 1:2 connected to game server 10:20 on descriptor 9. *)
Definition relay_session : Session :=
  registered 1000 (SockAddr 1 2) 4 <| target_addr := SockAddr 10 20 |> <| target_fd := 9 |>.

(** C19. DATA is relayed unchanged.  When the next complete message in the
    control block of a session with a relay socket is what [pack_data] makes of [data], at
    most 2045 bytes, so that the message fits a pool block (a longer one is
    never handed over, [oversize_message_wedges]), one round of the gateway's
    reading loop takes exactly that message off the receive queue and calls
    [sendto] once, on the session's socket and target, with exactly [data];
    beyond that only the control block, the session's time of last activity and
    the count of clock readings change.  What becomes of the datagram after
    [sendto], whose result the gateway ignores, is not part of the claim. *)
Theorem data_relayed kv_fuel fuel g a c s k f N out data sz buf :
  sessions_ (sman g) !! c = Some s → ks_kcp (s_kcp s) = Some k → 0 ≤ target_fd s →
  rcv_state f N k → 0 ≤ ikcp_peeksize k →
  Z.of_nat (length data) ≤ 2045 → pack_data out data (Z.of_nat (length data)) = Ok (sz, buf) →
  taken k = take (Z.to_nat sz) buf →
  ∃ k' a' n, message_loop kv_fuel (S fuel) c (World g a) =
      message_loop kv_fuel fuel c (World (relayed c (with_kcp s k') data g) a') ∧
    rcv_state f (N + n) k' ∧
    N + n - Z.of_nat (length (rcv_queue k')) =
      N - Z.of_nat (length (rcv_queue k)) + Z.of_nat (msg_len (rcv_queue k)).
Proof.
  intros Hs Hk Hfd Hr Hp Hl Hpk Ht. destruct (pack_data_inv out data (Z.of_nat (length data)) sz buf ltac:(lia) Hpk) as [-> Hb].
  rewrite Hb, Nat2Z.id, firstn_all in Ht. pose proof (recv_run f N k a BLOCK Hr ltac:(done)) as Hrun.
  assert (rcv_queue k ≠ []) as Hne by (intros E; unfold ikcp_peeksize in Hp; rewrite E in Hp; lia).
  destruct (rcv_queue k) as [|s0 q0] eqn:Eq; [done|]. rewrite <- Eq in *.
  rewrite (proj2 (Z.ltb_ge _ _) Hp) in Hrun.
  pose proof (taken_size f N k Hr Hne Hp) as Hsz. rewrite Ht in Hsz. cbn [length] in Hsz.
  rewrite length_app in Hsz. change (length (be16 (Z.of_nat (length data)))) with 2%nat in Hsz.
  rewrite i32_small in Hsz by lia.
  rewrite (proj2 (Z.ltb_ge _ _)) in Hrun by (unfold BLOCK; lia).
  destruct Hrun as (k' & a' & n & Hrun & _ & Hr' & _ & _ & _ & Hq & _). rewrite Ht in Hrun.
  exists k', a', n. split; [|done]. apply (data_round kv_fuel fuel g a c s k); try done; [unfold BLOCK; lia|].
  rewrite Hrun. do 3 f_equal. lia.
Qed.

(** A control block with the message for "hello" in its receive queue. *)
Definition hello_kcp : ikcpcb :=
  new_kcp 1000 <| rcv_queue := [Seg 1000 IKCP_CMD_PUSH 0 0 0 0 0 8 0 0 0 0 ([2; 0; 5] ++ str "hello")] |>
    <| nrcv_que := 1 |> <| rcv_nxt := 1 |>.

Lemma hello_state : rcv_state (λ _, (0, [2; 0; 5] ++ str "hello")) 1 hello_kcp.
Proof.
  constructor; try (apply (bool_decide_unpack _); vm_compute; reflexivity).
  replace (rcv_buf hello_kcp) with (@nil ikcpseg) by (vm_compute; reflexivity). constructor.
Qed.

Lemma data_relayed_witness :
  ∃ k' a' g', message_loop 1 2 1000 (World (with_session (with_kcp relay_session hello_kcp) gateway0) al_good) =
      message_loop 1 1 1000 (World g' a') ∧ ks_kcp <$> (s_kcp <$> sessions_ (sman g') !! 1000) = Some (Some k') ∧
    os_sent (os g') = [Dgram 9 (SockAddr 10 20) (str "hello")].
Proof.
  destruct (data_relayed 1 1 (with_session (with_kcp relay_session hello_kcp) gateway0) al_good 1000
    (with_kcp relay_session hello_kcp) hello_kcp (λ _, (0, [2; 0; 5] ++ str "hello")) 1 (replicate 8 0) (str "hello") 8
    ([2; 0; 5] ++ str "hello")) as (k' & a' & n & H & _).
  - reflexivity.
  - reflexivity.
  - cbn. lia.
  - exact hello_state.
  - vm_compute. discriminate.
  - vm_compute. discriminate.
  - vm_compute. reflexivity.
  - vm_compute. reflexivity.
  - eexists k', a', _. split; [exact H|]. split; reflexivity.
Defined.

(** The gateway's request for a route, as the server reads it. *)
Lemma route_request route :
  Forall (λ b, b ≠ 0) route → Forall (λ b, b ≠ SPACE) route → (length route < 256)%nat →
  words (str "GET route:" ++ route) = [str "GET"; str "route:" ++ route] ∧ whole (str "GET route:" ++ route).
Proof.
  intros Hnul Hsp Hlen.
  assert (words (str "GET route:" ++ route) = [str "GET"; str "route:" ++ route]) as Hw.
  { change (str "GET route:" ++ route) with (str "GET" ++ SPACE :: (str "route:" ++ route)).
    rewrite words_more by (apply (bool_decide_unpack _); vm_compute; reflexivity). f_equal.
    apply words_last. split; [done|]. apply Forall_app. split; [|done].
    apply (bool_decide_unpack _). vm_compute. reflexivity. }
  split; [done|]. split_and!.
  - rewrite length_app. change (length (str "GET route:")) with 10%nat. unfold BUFFER_LENGTH. lia.
  - apply Forall_app. split; [|done]. apply (bool_decide_unpack _). vm_compute. reflexivity.
  - rewrite Hw. unfold KVSTORE_MAX_TOKENS. cbn. lia.
Qed.

(** The gateway takes such a reply as it is. *)
Lemma get_answer_node x mid y : digit x → digit y → get_answer (x :: mid ++ [y]) = Some (x :: mid ++ [y]).
Proof.
  unfold digit. intros Hx Hy. unfold get_answer. rewrite bool_decide_eq_false_2.
  - f_equal. apply (strip_eol_id (x :: mid)); lia.
  - intros E. injection E as E _. vm_compute in E. lia.
Qed.

(** C11. CONNECT resolves a route end to end.  The store holds the text of an
    address under "route:" and the route's name: the server's reader answers the
    gateway's GET with that text, and keeps the store; and when that text arrives
    at the gateway, in any chunks before the deadline, CONNECT sends exactly that
    GET, opens a relay socket, registers it, and makes the address the session's
    target. *)
Theorem route_resolution {E} `{!KvEngine E, !KvLaws E} (ws : world E) m route a1 a2 a3 a4 port sent
    kv_fuel g a c s n cl chunks fd :
  Server.store ws m → m !! (str "route:" ++ route) = Some (show_node a1 a2 a3 a4 port) →
  Forall (λ b, b ≠ 0) route → Forall (λ b, b ≠ SPACE) route → (length route < 256)%nat →
  0 ≤ a1 < 256 → 0 ≤ a2 < 256 → 0 ≤ a3 < 256 → 0 ≤ a4 < 256 → 0 ≤ port < 65536 → sent ≠ -1 →
  sessions_ (sman g) !! c = Some s → target_fd s < 0 → kv_ g = KvState cl n → 0 ≤ fd_ cl →
  266 ≤ nt_send n (nt_n n) → concat chunks = show_node a1 a2 a3 a4 port →
  arrives n (nt_clock n (S (nt_n n)) + 1000) (S (S (nt_n n))) chunks → (length chunks < kv_fuel)%nat →
  os_socket (os g) (os_sockets (os g)) = fd → 0 ≤ fd → fd ∉ os_open (os g) → fd_to_session_ (sman g) !! fd = None →
  (∃ ws', reader_iter (RBytes (str "GET route:" ++ route)) sent ws =
     Ok (([Sent (show_node a1 a2 a3 a4 port)], true), ws') ∧ Server.store ws' m) ∧
  (∃ g' n', handle_tunnel_msg kv_fuel c (PACKET_CONNECT :: Z.of_nat (length route) :: route)
      (2 + Z.of_nat (length route)) (World g a) = Ok (false, World g' a) ∧
    nt_sent n' = nt_sent n ++ [(fd_ cl, str "GET route:" ++ route)] ∧
    connected c s (KvState cl n') (SockAddr (of_be [a1; a2; a3; a4]) port) fd g').
Proof.
  intros Hst Hm Hnul Hsp Hlen R1 R2 R3 R4 Rp Hsent Hs Hneg Hkv Hfd Hsend Hch Harr Hfuel Hsock Hpos Hnew Hnone.
  set (node := show_node a1 a2 a3 a4 port) in *.
  destruct (show_node_shape a1 a2 a3 a4 port) as (x & mid & y & En & Hx & Hy & Hshort); [done..|].
  fold node in En, Hshort. destruct (route_request route) as [Hw Hwhole]; [done..|]. split.
  - destruct (reader_iter_step ws m (str "GET route:" ++ route) (take (BUFFER_LENGTH - 1) node) m sent) as (ws' & Hrun & Hst').
    { done. } { done. } { rewrite Hw. by apply step_get_hit. }
    apply Z.eqb_neq in Hsent. rewrite Hsent, take_ge in Hrun by (unfold BUFFER_LENGTH; lia). by exists ws'.
  - destruct (get_arrives kv_fuel cl n (str "route:" ++ route) chunks Hfd) as (n' & Hget & Esent & _); [|done| |done|].
    { rewrite !length_app. change (length (str "GET ")) with 4%nat. change (length (str "route:")) with 6%nat. lia. }
    { intros ->. by rewrite En in Hch. }
    rewrite Hch, En, get_answer_node, <- En, <- Hkv in Hget by done.
    destruct (connect_run kv_fuel g a c s route (KvState cl n') a1 a2 a3 a4 port fd) as (g' & H1 & H2); try done.
    exists g', n'. split; [done|]. done.
Qed.

(** A store that holds the route "r", a client connected to it on descriptor 7
    which receives the reply in two chunks, and a session that waits for its
    CONNECT. *)
Definition routes : gmap cstr cstr := <[str "route:r" := show_node 10 0 0 7 9000]> ∅.

Definition kv_net1 : net :=
  Net 0 (λ _, 0) (λ _, 7) (λ _, 0) (λ _, 512) (λ n, if bool_decide (n < 9)%nat then 1 else 0)
    (λ n, Some (if bool_decide (n < 5)%nat then str "10.0.0." else str "7:9000")) [7] [].

Definition waiting_gateway : gateway :=
  with_session (registered 1000 (SockAddr 1 2) 4)
    (gateway0 <| kv_ := KvState (KvClient 7 (str "127.0.0.1") 9096) kv_net1 |>).

Lemma route_store : ∃ ws : world hashtable_t, Server.store ws routes.
Proof.
  destruct (reader_iter_step hash_fresh ∅ (str "SET route:r 10.0.0.7:9000") (str "SUCCESS") routes 5) as (ws & _ & H).
  - apply store_fresh.
  - apply (bool_decide_unpack _). vm_compute. reflexivity.
  - apply (step_set ∅ (str "route:r") (show_node 10 0 0 7 9000) []); [by left|vm_compute; reflexivity].
  - by exists ws.
Qed.

Lemma route_arrives :
  arrives kv_net1 (nt_clock kv_net1 1 + 1000) 2 [str "10.0.0."; str "7:9000"].
Proof.
  apply ar_chunk; [reflexivity..|done|cbn; lia|]. apply ar_chunk; [reflexivity..|done|cbn; lia|].
  apply ar_silence; reflexivity.
Qed.

Lemma route_resolution_witness :
  ∃ g' n', handle_tunnel_msg 3 1000 [1; 1; 114] 3 (World waiting_gateway al_good) = Ok (false, World g' al_good) ∧
    connected 1000 (registered 1000 (SockAddr 1 2) 4) (KvState (KvClient 7 (str "127.0.0.1") 9096) n')
      (SockAddr (of_be [10; 0; 0; 7]) 9000) 4 g'.
Proof.
  destruct route_store as (ws & Hst).
  destruct (route_resolution ws routes (str "r") 10 0 0 7 9000 8 3 waiting_gateway al_good 1000
    (registered 1000 (SockAddr 1 2) 4) kv_net1 (KvClient 7 (str "127.0.0.1") 9096)
    [str "10.0.0."; str "7:9000"] 4) as [_ (g' & n' & H1 & _ & H2)].
  - exact Hst.
  - reflexivity.
  - apply (bool_decide_unpack _). vm_compute. reflexivity.
  - apply (bool_decide_unpack _). vm_compute. reflexivity.
  - cbn. lia.
  - lia.
  - lia.
  - lia.
  - lia.
  - lia.
  - lia.
  - reflexivity.
  - reflexivity.
  - reflexivity.
  - cbn. lia.
  - cbn. lia.
  - reflexivity.
  - exact route_arrives.
  - cbn. lia.
  - reflexivity.
  - lia.
  - apply not_elem_of_empty.
  - reflexivity.
  - exists g', n'. split; [exact H1|exact H2].
Defined.

(** ** Datagrams of strangers *)

(** C20. A datagram changes nothing unless it comes from the owner of a session:
    a batch of datagrams that are not REGISTER and that are shorter than a KCP
    header, name no session, or name a session of another endpoint is read and
    dropped; sessions, timers, descriptors, allocations and what was sent are as
    before, and the pool has its blocks back. *)
Theorem strangers_ignored kv_fuel g a b l :
  pool_rep (Z.to_nat CAP) (pool_ g) (b :: l) → Forall (ignorable g) (os_inbox (os g)) →
  ∃ p, handle_tunnel_datagram kv_fuel (World g a) = Ok (tt, World (drained p [] g) a) ∧
    pool_rep (Z.to_nat CAP) p (b :: l).
Proof. apply ignored_run. Qed.

(** A pool of 4096 blocks. *)
Definition pool1 : MemoryPool :=
  Pool (replicate (Z.to_nat CAP) (Some None)) (Some 0%nat).

Lemma pool1_rep : pool_rep (Z.to_nat CAP) pool1 [0%nat].
Proof.
  constructor.
  - apply length_replicate.
  - split; [done|]. exists None. split; [|done]. apply lookup_replicate. split; [done|]. unfold CAP. lia.
  - apply NoDup_singleton.
Qed.

(** A segment of conversation 1000, which is the session of 1:2, sent from 1:3. *)
Definition spoofed : gateway :=
  with_session relay_session gateway0 <| pool_ := pool1 |>
    <| os := os0 <| os_inbox := [(SockAddr 1 3, [232; 3; 0; 0] ++ replicate 20 0)] |> |>.

Lemma strangers_ignored_witness :
  ∃ p, handle_tunnel_datagram 1 (World spoofed al_good) = Ok (tt, World (drained p [] spoofed) al_good).
Proof.
  destruct (strangers_ignored 1 spoofed al_good 0 []) as (p & H & _).
  - exact pool1_rep.
  - apply Forall_singleton. split; [discriminate|]. right. intros c s Hc Hs. vm_compute in Hc. injection Hc as <-.
    assert (s = relay_session) as -> by (symmetry; apply (f_equal (default relay_session)) in Hs; exact Hs).
    discriminate.
  - exists p. exact H.
Defined.

(** ** The life of a session *)

(** A gateway with one registered session. *)
Definition with_client : world gateway :=
  state_of started (register_client (SockAddr 1 2) started).

Lemma with_client_inv : ∃ c s, gw_inv 1 0 1 all_free (World (w_eng with_client) (w_al with_client)) ∧
  sessions_ (sman (w_eng with_client)) !! c = Some s ∧ dying s = false ∧ last_active s = 0.
Proof.
  destruct started_inv as [Hinv Ht]. unfold table in Ht. unfold with_client. destruct started as [g a]. cbn [w_eng] in Ht.
  destruct (register_run 1 0 0 all_free g a (SockAddr 1 2) Hinv ltac:(lia)) as (c & g1 & a1 & H1 & H2 & _ & _ & _ & Hc).
  rewrite H1. cbn [state_of w_eng w_al]. destruct Hc as [(s & Hs & _)|(_ & _ & _ & E & _)].
  { rewrite Ht in Hs. by apply lookup_empty_Some in Hs. }
  eexists c, _. split; [exact H2|]. rewrite E, lookup_insert_eq. done.
Qed.

(** Forty seconds later its session is taken for an idle one. *)
Definition with_dying : world gateway := state_of with_client (sweep_idle 40000 with_client).

Lemma with_dying_inv : ∃ c s, gw_inv 1 0 1 all_free (World (w_eng with_dying) (w_al with_dying)) ∧
  sessions_ (sman (w_eng with_dying)) !! c = Some s ∧ dying s = true.
Proof.
  destruct with_client_inv as (c & s & Hinv & Hs & Hd & Hl). unfold with_dying.
  assert (last_idle_sweep_ (sman (w_eng with_client)) = 0 ∧ idle_ms_ (sman (w_eng with_client)) = 30000) as [E1 E2]
    by (split; vm_compute; reflexivity).
  destruct with_client as [g a]. cbn [w_eng w_al] in *.
  destruct (sweep_idle_safe 1 0 1 all_free (World g a) 40000 Hinv) as ([] & w' & H1 & H2 & _). pose proof (sweep_idle_run 40000 g a) as H3.
  rewrite H1 in H3. rewrite H1. cbn [state_of]. rewrite E1 in H3. injection H3 as H3. rewrite H3 in *. cbn [w_eng w_al].
  eexists c, _. split; [exact H2|]. cbn. rewrite lookup_fmap, Hs. split; [reflexivity|].
  unfold swept, idle_session. rewrite Hd, Hl, E2. reflexivity.
Qed.

(** C25. [flush_teardown] removes exactly the dying sessions: the others keep
    their state, the list of sessions to erase is empty, the invariant holds with
    every block of the removed sessions freed, and the timer runs when sessions
    are left and is stopped when there are none. *)
Theorem teardown_exact R L N l g a :
  gw_inv R L N l (World g a) →
  ∃ g' a', flush_teardown (World g a) = Ok (tt, World g' a') ∧ gw_inv R L N l (World g' a') ∧
    to_erase_ (sman g') = [] ∧ os_timer (os g') = (if sm_empty (sman g') then 0 else KCP_TICK_MS) ∧
    (∀ c, sessions_ (sman g') !! c =
      match sessions_ (sman g) !! c with Some s => if dying s then None else Some s | None => None end).
Proof.
  intros Hinv. destruct (flush_teardown_safe R L N l g a Hinv) as (g' & a' & H1 & H2 & H3 & _ & _ & H4 & H5).
  by exists g', a'.
Qed.

Lemma teardown_exact_witness :
  ∃ c g' a', is_Some (sessions_ (sman (w_eng with_dying)) !! c) ∧
    flush_teardown (World (w_eng with_dying) (w_al with_dying)) = Ok (tt, World g' a') ∧
    to_erase_ (sman g') = [] ∧ sessions_ (sman g') !! c = None.
Proof.
  destruct with_dying_inv as (c & s & Hinv & Hs & Hd).
  destruct (teardown_exact 1 0 1 all_free (w_eng with_dying) (w_al with_dying) Hinv) as (g' & a' & H1 & _ & H2 & _ & H3).
  exists c, g', a'. split; [exists s; exact Hs|]. split; [exact H1|]. split; [exact H2|].
  rewrite H3, Hs, Hd. reflexivity.
Defined.

(** C26. [sweep_idle] does what it says, and the whole state after it is given.
    Less than a second after the last sweep nothing changes.  Otherwise
    [last_idle_sweep_] becomes [now]; exactly the sessions that are not dying
    and whose last activity, as a 64-bit difference, is more than [idle_ms_] ago
    become dying; their conversations, and no others, are appended to
    [to_erase_]; and everything else, the other sessions and fields, the
    descriptors, the pool, the store's client and the system, is as before.
    The invariant of the gateway is assumed, for the keys of the table. *)
Theorem sweep_exact R L N l now g a :
  gw_inv R L N l (World g a) →
  if u64 (now - last_idle_sweep_ (sman g)) <? 1000
  then sweep_idle now (World g a) = Ok (tt, World g a)
  else ∃ marked,
    sweep_idle now (World g a) =
      Ok (tt, World (g <| sman := sman g <| last_idle_sweep_ := now |>
                            <| sessions_ := swept (idle_ms_ (sman g)) now <$> sessions_ (sman g) |>
                            <| to_erase_ := to_erase_ (sman g) ++ marked |> |>) a) ∧
    NoDup marked ∧
    ∀ c, c ∈ marked ↔ ∃ s, sessions_ (sman g) !! c = Some s ∧ dying s = false ∧
                           idle_ms_ (sman g) < u64 (now - last_active s).
Proof.
  intros Hinv. rewrite (sweep_idle_run now g a). destruct (_ <? 1000); [done|].
  assert (∀ c s, sessions_ (sman g) !! c = Some s → s_conv s = c) as Hc by (intros c s Hs; by apply (gi_sess _ _ _ _ _ Hinv)).
  exists (idle_convs (idle_ms_ (sman g)) now (map_to_list (sessions_ (sman g))).*2). split; [done|].
  split; [by apply idle_convs_nodup|]. intros c. rewrite (idle_convs_spec _ _ _ _ Hc). unfold idle_session.
  split; intros (s & Hs & Hi); exists s; (split; [done|]); [|destruct Hi as [-> Hi]; by apply Z.ltb_lt].
  apply andb_true_iff in Hi as [Hd Hi]. apply negb_true_iff in Hd. by apply Z.ltb_lt in Hi.
Qed.

(** Forty seconds later its session is swept. *)
Lemma sweep_exact_witness :
  ∃ c g', sweep_idle 40000 (World (w_eng with_client) (w_al with_client)) = Ok (tt, World g' (w_al with_client)) ∧
    last_idle_sweep_ (sman g') = 40000 ∧ c ∈ to_erase_ (sman g').
Proof.
  destruct with_client_inv as (c & s & Hinv & Hs & Hd & Hl).
  pose proof (sweep_exact 1 0 1 all_free 40000 (w_eng with_client) (w_al with_client) Hinv) as H.
  replace (_ <? 1000) with false in H by (vm_compute; reflexivity). destruct H as (marked & H1 & _ & H2).
  eexists c, _. split; [exact H1|]. split; [reflexivity|]. cbn. apply elem_of_app. right. apply H2.
  exists s. split; [exact Hs|]. split; [exact Hd|]. rewrite Hl. vm_compute. reflexivity.
Defined.

(** The settings a registration on the started gateway leaves. *)
Lemma started_registers :
  match register_client (SockAddr 1 2) (World (w_eng started) (w_al started)) with
  | Ok r => idle_ms_ (sman (w_eng r.2)) = 30000 ∧ last_idle_sweep_ (sman (w_eng r.2)) = 0
  | Err _ => False
  end.
Proof. vm_compute. split; reflexivity. Qed.

(** C39. A session is not active when it is created: [last_active] starts at 0,
    so the first sweep of a host that has been up for longer than the idle time
    takes a session that registered a moment ago for an idle one, before its
    client could send anything. *)
Theorem fresh_session_reaped R L N l g a src now :
  gw_inv R L N l (World g a) → N < 2 ^ 31 →
  (∀ c s, sessions_ (sman g) !! c = Some s → client_addr s ≠ src) →
  ∃ c g1 a1, register_client src (World g a) = Ok (tt, World g1 a1) ∧ sessions_ (sman g) !! c = None ∧
    (0 ≤ now < 2 ^ 64 → idle_ms_ (sman g1) < now → 1000 ≤ u64 (now - last_idle_sweep_ (sman g1)) →
     ∃ g2 s, sweep_idle now (World g1 a1) = Ok (tt, World g2 a1) ∧ sessions_ (sman g2) !! c = Some s ∧ dying s = true).
Proof.
  intros Hinv HN Hno. destruct (register_run R L N l g a src Hinv HN) as (c & g1 & a1 & H1 & _ & _ & _ & _ & Hc).
  destruct Hc as [(s & Hs & _ & Ha & _)|(Hn & _ & _ & E & _)]; [by destruct (Hno c s Hs)|].
  exists c, g1, a1. split; [done|]. split; [done|]. intros Hnow Hidle Hsweep.
  pose proof (sweep_idle_run now g1 a1) as H2. rewrite (proj2 (Z.ltb_ge _ _) Hsweep) in H2.
  eexists _, _. split; [exact H2|]. cbn. rewrite lookup_fmap, E, lookup_insert_eq. split; [done|].
  unfold swept, idle_session. change (dying (registered c src (sm_client_fd_ (sman g)))) with false.
  change (last_active (registered c src (sm_client_fd_ (sman g)))) with 0.
  rewrite Z.sub_0_r. unfold u64. rewrite Z.mod_small by lia. by rewrite (proj2 (Z.ltb_lt _ _) Hidle).
Qed.

Lemma fresh_session_reaped_witness :
  ∃ c g1 a1 g2 s, register_client (SockAddr 1 2) (World (w_eng started) (w_al started)) = Ok (tt, World g1 a1) ∧
    sessions_ (sman (w_eng started)) !! c = None ∧
    sweep_idle 40000 (World g1 a1) = Ok (tt, World g2 a1) ∧ sessions_ (sman g2) !! c = Some s ∧ dying s = true.
Proof.
  destruct (fresh_session_reaped 1 0 0 all_free (w_eng started) (w_al started) (SockAddr 1 2) 40000) as
    (c & g1 & a1 & H1 & H2 & H3).
  - destruct started_inv as [H _]. destruct started as [g a]. exact H.
  - reflexivity.
  - destruct started_inv as [_ H]. unfold table in H. intros c s Hs. rewrite H in Hs.
    destruct (lookup_empty_Some _ _ Hs).
  - pose proof started_registers as E. rewrite H1 in E. cbn [snd w_eng] in E. destruct E as [E1 E2].
    destruct H3 as (g2 & s & H3 & H4 & H5); [lia|rewrite E1; lia|rewrite E2; vm_compute; discriminate|].
    exists c, g1, a1, g2, s. split; [exact H1|]. split; [exact H2|]. split; [exact H3|]. split; [exact H4|exact H5].
Defined.

(** ** Large messages *)

(** C40. A message larger than a pool block blocks its session for good.  While
    the next complete message has more than 2048 bytes, the handler's reading
    loop gives up without taking anything from the queue ("dropped" in its log),
    whatever segments have arrived behind it. *)
Theorem oversize_message_wedges kv_fuel fuel g a c s k k' q2 :
  sessions_ (sman g) !! c = Some s → ks_kcp (s_kcp s) = Some k' →
  BLOCK < ikcp_peeksize k → Exists (λ seg, seg_frg seg = 0) (rcv_queue k) →
  rcv_queue k' = rcv_queue k ++ q2 → nrcv_que k ≤ nrcv_que k' →
  message_loop kv_fuel (S fuel) c (World g a) = Ok (false, World g a).
Proof.
  intros Hs Hk Hp He Hq Hn. eapply message_loop_wedged; [done..|].
  rewrite (peeksize_app k k' q2); try done. unfold BLOCK in Hp. lia.
Qed.

(** A message of 2100 bytes in two fragments, and a small one behind it. *)
Definition segment (frg sn : Z) (data : list Z) : ikcpseg :=
  {| seg_conv := 1000; seg_cmd := IKCP_CMD_PUSH; seg_frg := frg; seg_wnd := 0; seg_ts := 0; seg_sn := sn;
     seg_una := 0; seg_len := Z.of_nat (length data); seg_resendts := 0; seg_rto := 0; seg_fastack := 0;
     seg_xmit := 0; seg_data := data |}.

Definition wedged_kcp : ikcpcb :=
  new_kcp 1000 <| rcv_queue := [segment 1 0 (replicate 1100 0); segment 0 1 (replicate 1000 0); segment 0 2 [2; 0; 0]] |>
    <| nrcv_que := 3 |>.

Lemma oversize_message_wedges_witness :
  message_loop 1 5 1000 (World (with_session (with_kcp relay_session wedged_kcp) gateway0) al_good) =
    Ok (false, World (with_session (with_kcp relay_session wedged_kcp) gateway0) al_good).
Proof.
  apply (oversize_message_wedges 1 4 _ al_good 1000 (with_kcp relay_session wedged_kcp)
    (wedged_kcp <| rcv_queue := [segment 1 0 (replicate 1100 0); segment 0 1 (replicate 1000 0)] |> <| nrcv_que := 2 |>)
    wedged_kcp [segment 0 2 [2; 0; 0]]).
  - reflexivity.
  - reflexivity.
  - vm_compute. reflexivity.
  - right. left. reflexivity.
  - reflexivity.
  - cbn. lia.
Defined.

(** ** The pool *)

(** C27. The packet pool keeps its books: after any sequence of getting blocks,
    filling blocks that are held and giving held blocks back, from the fresh
    pool, the free list and the held blocks together are the 4096 blocks, each
    exactly once.  So no block is handed out twice, none is lost, and [alloc]
    fails only when all are held. *)
Theorem pool_discipline p p' held :
  new_pool = Ok p → rtc pool_step (p, []) (p', held) →
  ∃ l, pool_rep (Z.to_nat CAP) p' l ∧ l ++ held ≡ₚ seq 0 (Z.to_nat CAP) ∧
    (alloc_block p' = Ok (None, p') ↔ length held = Z.to_nat CAP).
Proof.
  intros Hp Hs. destruct new_pool_run as (p0 & Hp0 & Hrep). rewrite Hp in Hp0. injection Hp0 as <-.
  destruct (pool_reachable (Z.to_nat CAP) (p, []) (p', held)) as (l & Hl & Hperm); [|done|].
  { exists (reverse (seq 0 (Z.to_nat CAP))). split; [exact Hrep|]. cbn [snd]. rewrite app_nil_r. apply reverse_Permutation. }
  exists l. split; [exact Hl|]. split; [exact Hperm|]. cbn [fst snd] in *.
  pose proof (alloc_run _ _ _ Hl) as Hr. apply Permutation_length in Hperm. rewrite length_app, length_seq in Hperm.
  destruct l as [|b l]; cbn [length] in Hperm.
  - split; [intros _; exact Hperm|intros _; exact Hr].
  - destruct Hr as (p1 & Hr & _). rewrite Hr. split; [discriminate|]. intros E. exfalso. lia.
Qed.

Lemma pool_discipline_witness :
  ∃ p p' b, new_pool = Ok p ∧ alloc_block p = Ok (Some b, p') ∧
    ∃ l, pool_rep (Z.to_nat CAP) p' l ∧ l ++ [b] ≡ₚ seq 0 (Z.to_nat CAP).
Proof.
  destruct new_pool_run as (p & Hp & Hrep). pose proof (alloc_run _ _ _ Hrep) as Hr.
  destruct (reverse (seq 0 (Z.to_nat CAP))) as [|b l] eqn:E.
  - exfalso. apply (f_equal length) in E. rewrite length_reverse, length_seq in E. discriminate E.
  - destruct Hr as (p' & Hr & _).
    destruct (pool_discipline p p' [b] Hp) as (l' & H1 & H2 & _).
    + eapply rtc_l; [apply ps_alloc; exact Hr|apply rtc_refl].
    + exists p, p', b. split; [exact Hp|]. split; [exact Hr|]. exists l'. split; [exact H1|exact H2].
Defined.

(** ** The tunnel protocol *)

(** C28. Packing and parsing are inverse: a DATA packet of at most 65532 bytes
    in a 65535-byte buffer, a CONNECT packet with a route of at most 255 bytes
    and a REGISTERED packet are read back as what was packed. *)
Theorem tunnel_roundtrip out data route c :
  Z.of_nat (length out) = 65535 → Z.of_nat (length data) ≤ 65532 → (length route < 256)%nat → 0 ≤ c < 2 ^ 32 →
  (∃ sz buf, pack_data out data (Z.of_nat (length data)) = Ok (sz, buf) ∧
     parse buf sz = Ok (Some (PACKET_DATA, Some 3%nat, Z.of_nat (length data))) ∧
     load buf 3 (length data) = Ok data) ∧
  (∃ sz buf, pack_connect out route (Z.of_nat (length route)) = Ok (sz, buf) ∧
     parse buf sz = Ok (Some (PACKET_CONNECT, None, 0)) ∧
     read_connect_route buf (ROUTE_MAX + 1) = Ok (Z.of_nat (length route), route ++ [0])) ∧
  (∃ sz buf, pack_registered out c = Ok (sz, buf) ∧ read_registered buf sz = Ok (Some c)).
Proof.
  intros Ho Hd Hr Hc. split_and!.
  - rewrite pack_data_run by lia. eexists _, _. split; [reflexivity|]. rewrite Nat2Z.id, firstn_all.
    destruct (parse_pack_data data (drop (Z.to_nat (3 + Z.of_nat (length data))) out) (Z.of_nat (length data)))
      as [H1 H2]; [lia|done|]. rewrite Nat2Z.id in H2. by split.
  - rewrite pack_connect_run by lia. eexists _, _. split; [reflexivity|]. rewrite Nat2Z.id, firstn_all.
    by apply parse_pack_connect; [lia|].
  - rewrite pack_registered_run by lia. eexists _, _. split; [reflexivity|]. by apply read_pack_registered.
Qed.

Lemma tunnel_roundtrip_witness :
  ∃ sz buf, pack_registered (replicate (Z.to_nat 65535) 0) 1000 = Ok (sz, buf) ∧ read_registered buf sz = Ok (Some 1000).
Proof.
  destruct (tunnel_roundtrip (replicate (Z.to_nat 65535) 0) (str "hello") (str "r") 1000) as (_ & _ & H).
  - rewrite length_replicate. apply Z2Nat.id. lia.
  - cbn. lia.
  - cbn. lia.
  - lia.
  - exact H.
Defined.

(** [parse] is total on arbitrary packets and never reads past them: for
    any [n] bytes it answers, and what it reports as data lies inside. *)
Theorem parse_in_bounds buf n :
  0 ≤ n ≤ Z.of_nat (length buf) → Forall (λ b, 0 ≤ b < 256) buf →
  ∃ r, parse buf n = Ok r ∧
    match r with
    | Some (t, Some off, len) => t = PACKET_DATA ∧ 0 ≤ len ∧ Z.of_nat off + len ≤ n
    | Some (t, None, len) => t ≠ PACKET_DATA ∧ len = 0
    | None => True
    end.
Proof.
  intros Hn Hb. destruct (parse_total buf n Hn) as (r & H1 & H2). exists r. split; [done|].
  destruct r as [[[t d] len]|]; [|done]. destruct H2 as [_ [(-> & -> & _ & Hl & x & y & Hx & Hy & ->)|(Ht & -> & -> & _)]].
  - split; [done|]. pose proof (of_be16_range x y (Forall_lookup_1 _ _ _ _ Hb Hx) (Forall_lookup_1 _ _ _ _ Hb Hy)). lia.
  - done.
Qed.

Lemma parse_in_bounds_witness : ∃ r, parse [2; 0; 9; 1; 2] 5 = Ok r.
Proof.
  destruct (parse_in_bounds [2; 0; 9; 1; 2] 5) as (r & H & _);
    [cbn; lia|apply (bool_decide_unpack _); vm_compute; reflexivity|]. exists r. exact H.
Defined.

(** The address text of a route is read back: [node_to_addr] of the
    dotted decimal text of an address and a port gives that endpoint. *)
Theorem node_roundtrip a b c d port :
  0 ≤ a < 256 → 0 ≤ b < 256 → 0 ≤ c < 256 → 0 ≤ d < 256 → 0 ≤ port < 65536 →
  node_to_addr (show_node a b c d port) = Some (SockAddr (of_be [a; b; c; d]) port).
Proof. apply node_to_addr_show. Qed.

Lemma node_roundtrip_witness : node_to_addr (str "127.0.0.1:9096") = Some (SockAddr 2130706433 9096).
Proof. apply (node_roundtrip 127 0 0 1 9096); lia. Defined.

(** ** The key-value client *)

(** C29. A look-up in the store ends whatever the network does: with a clock
    that advances by a millisecond every [R] system calls, [KVClient::get]
    returns within [1000 * R + 1] rounds of each of its reading loops, and at
    every return the client holds exactly the descriptor it remembers. *)
Theorem kv_get_terminates R s key :
  kv_owns s → paced R (clock_of s) →
  ∃ r s', kv_get (rounds R) key s = Ok (r, s') ∧ kv_owns s' ∧ paced R (clock_of s').
Proof.
  intros Ho Hp. destruct (get_ready R s key (conj Ho Hp)) as (r & s' & H & Ho' & Hp'). by exists r, s'.
Qed.

Lemma kv_get_terminates_witness :
  ∃ r s', kv_get (rounds 1) (str "route:r") (KvState (KvClient (-1) (str "127.0.0.1") 9096) net0) = Ok (r, s') ∧ kv_owns s'.
Proof.
  destruct (kv_get_terminates 1 (KvState (KvClient (-1) (str "127.0.0.1") 9096) net0) (str "route:r"))
    as (r & s' & H1 & H2 & _); [reflexivity|split; cbn; lia|]. exists r, s'. split; [exact H1|exact H2].
Defined.
