(* ===== verification/Client.v ===== *)
(** * The tunnel client (src/client/tunnel_client.cpp, src/client/main.cpp)

    The state of a [TunnelClient], the system it runs on, and the program that
    uses it for one message.  The output callback of KCP sends every datagram
    to the gateway. *)

From S2P Require Import Prelude CRuntime IkcpData Ikcp Decimal Tunnel.

(** What the client sees of the system: outcomes indexed by the number of
    calls made so far, the descriptors open, and the datagrams sent. *)
Record csys := CSys {
  cs_n : nat;
  cs_clock : nat → Z;
  cs_socket : nat → Z;
  (** the result of [select] on the socket *)
  cs_select : nat → Z;
  (** [recvfrom]: the sender and the datagram, [None] on error *)
  cs_recv : nat → option (sockaddr_in * list Z);
  cs_open : list Z;
  cs_sent : list (sockaddr_in * list Z);
}.

(* src/client/tunnel_client.h:30-34 TunnelClient *)
Record TunnelClient := TClient {
  tc_fd : Z;
  tc_kcp : option ikcpcb;
  tc_gw : sockaddr_in;
  tc_conv : Z;
  tc_wbuf : list Z;
  tc_sys : csys;
}.

(* src/client/tunnel_client.h:34-34 wbuf_ *)
Definition WBUF : Z := 65535.

(* src/client/tunnel_client.h:14-14 TunnelClient *)
(** The default member initialisers; the bytes of [wbuf_] are indeterminate. *)
Definition new_client (junk : list Z) (o : csys) : TunnelClient :=
  TClient (-1) None (SockAddr 0 0) 0 junk o.

(** ** Record updates *)

Definition client_eta (r : TunnelClient) : TunnelClient :=
  TClient (tc_fd r) (tc_kcp r) (tc_gw r) (tc_conv r) (tc_wbuf r) (tc_sys r).
Definition csys_eta (r : csys) : csys :=
  CSys (cs_n r) (cs_clock r) (cs_socket r) (cs_select r) (cs_recv r) (cs_open r) (cs_sent r).

Ltac client_setter eta p := let e := eval unfold eta in eta in build_setter e p.

#[global] Instance set_tc_fd : Setter tc_fd.
Proof. client_setter client_eta tc_fd. Defined.
#[global] Instance set_tc_kcp : Setter tc_kcp.
Proof. client_setter client_eta tc_kcp. Defined.
#[global] Instance set_tc_gw : Setter tc_gw.
Proof. client_setter client_eta tc_gw. Defined.
#[global] Instance set_tc_conv : Setter tc_conv.
Proof. client_setter client_eta tc_conv. Defined.
#[global] Instance set_tc_wbuf : Setter tc_wbuf.
Proof. client_setter client_eta tc_wbuf. Defined.
#[global] Instance set_tc_sys : Setter tc_sys.
Proof. client_setter client_eta tc_sys. Defined.
#[global] Instance set_cs_n : Setter cs_n.
Proof. client_setter csys_eta cs_n. Defined.
#[global] Instance set_cs_open : Setter cs_open.
Proof. client_setter csys_eta cs_open. Defined.
#[global] Instance set_cs_sent : Setter cs_sent.
Proof. client_setter csys_eta cs_sent. Defined.

(** ** The client's monad and its system calls *)

Abbreviation T := (prog (world TunnelClient)).

Definition upd_tc (f : TunnelClient → TunnelClient) : T unit := c ← get_eng; put_eng (f c).
Definition upd_cs (f : csys → csys) : T unit := upd_tc (λ c, c <| tc_sys := f (tc_sys c) |>).

Definition csyscall {A} (f : csys → nat → A) : T A :=
  c ← get_eng;
  _ ← upd_cs (λ o, o <| cs_n := S (cs_n o) |>);
  mret (f (tc_sys c) (cs_n (tc_sys c))).

Definition csocket : T Z :=
  fd ← csyscall cs_socket;
  _ ← (if fd <? 0 then mret tt else upd_cs (λ o, o <| cs_open := fd :: cs_open o |>));
  mret fd.

Definition cclose (fd : Z) : T unit := upd_cs (λ o, o <| cs_open := filter (λ x, x ≠ fd) (cs_open o) |>).

(** [sendto(fd_, buf, len, 0, &gw_, ...)], whose result no caller looks at:
    [cs_sent] lists the calls, not what arrived. *)
Definition csend (buf : list Z) : T unit :=
  c ← get_eng; upd_cs (λ o, o <| cs_sent := cs_sent o ++ [(tc_gw c, buf)] |>).

(** ** KCP calls *)

(* src/client/tunnel_client.cpp:15-20 kcp_output *)
(** For every datagram of a call, in order. *)
Fixpoint tc_output (out : list (list Z)) : T unit :=
  match out with
  | [] => mret tt
  | b :: out' => _ ← csend b; tc_output out'
  end.

(** A call on [kcp_]. *)
Definition with_kcp_ {A} (m : K A) : T A := λ w,
  match tc_kcp (w_eng w) with
  | None => Err NullDeref
  | Some k =>
      match m (World k (w_al w)) with
      | Err e => Err e
      | Ok (x, World k' a') => Ok (x, World (w_eng w <| tc_kcp := Some k' |>) a')
      end
  end.

(* src/client/tunnel_client.cpp:22-25 kcp_pump *)
Definition kcp_pump : T unit :=
  t ← csyscall cs_clock;
  out ← with_kcp_ (ikcp_update (now32 t));
  _ ← tc_output out;
  out ← with_kcp_ ikcp_flush;
  tc_output out.

(* src/client/tunnel_client.cpp:27-31 send_tun *)
Definition send_tun (pkt : list Z) (n : Z) : T unit :=
  t ← csyscall cs_clock;
  out ← with_kcp_ (ikcp_update (now32 t));
  _ ← tc_output out;
  _ ← with_kcp_ (ikcp_send (take (Z.to_nat n) pkt) n);
  out ← with_kcp_ ikcp_flush;
  tc_output out.

(** ** Registration *)

(* src/client/tunnel_client.cpp:39-62 register_with_gateway *)
Fixpoint register_loop (attempts : nat) (reg : list Z) : T (option Z) :=
  match attempts with
  | O => mret None
  | S attempts' =>
      _ ← csend reg;
      r ← csyscall cs_select;
      if r <=? 0 then register_loop attempts' reg else
      d ← csyscall cs_recv;
      match d with
      | None => register_loop attempts' reg
      | Some (from, bytes) =>
          let buf := take 16 bytes in
          let n := Z.of_nat (length buf) in
          if n <=? 0 then register_loop attempts' reg else
          c ← get_eng;
          if negb (sin_addr from =? sin_addr (tc_gw c)) || negb (sin_port from =? sin_port (tc_gw c))
          then register_loop attempts' reg else
          conv ← lift (read_registered buf n);
          match conv with
          | Some conv => mret (Some conv)
          | None => register_loop attempts' reg
          end
      end
  end.

(* src/client/tunnel_client.cpp:34-65 register_with_gateway *)
(** [Some conv]: true, with [*out_conv]. *)
Definition register_with_gateway : T (option Z) :=
  '(reg_len, reg) ← lift (pack_register (replicate (Z.to_nat HEAD_LEN) 0));
  register_loop 5 (take (Z.to_nat reg_len) reg).

(* src/client/tunnel_client.cpp:67-88 connect *)
(** [inet_pton] leaves the address alone when it cannot read it; [ikcp_create]
    may return NULL, which [ikcp_setoutput] dereferences. *)
Definition tc_connect (ip : cstr) (port : Z) : T bool :=
  fd ← csocket;
  _ ← upd_tc (λ c, c <| tc_fd := fd |>);
  if fd <? 0 then mret false else
  _ ← upd_tc (λ c, c <| tc_gw := SockAddr (default (sin_addr (tc_gw c)) (inet_pton ip)) port |>);
  conv ← register_with_gateway;
  match conv with
  | None =>
      _ ← cclose fd;
      _ ← upd_tc (λ c, c <| tc_fd := -1 |>);
      mret false
  | Some conv =>
      _ ← upd_tc (λ c, c <| tc_conv := conv |>);
      k ← ikcp_create conv;
      _ ← upd_tc (λ c, c <| tc_kcp := k |>);
      _ ← with_kcp_ ikcp_setoutput;
      _ ← with_kcp_ (ikcp_nodelay 1 10 2 1);
      mret true
  end.

(** ** Messages *)

(** A packer writes [wbuf_], and the result goes out. *)
Definition pack_and_send (pack : list Z → result (Z * list Z)) : T unit :=
  c ← get_eng;
  '(sz, buf) ← lift (pack (tc_wbuf c));
  _ ← upd_tc (λ c, c <| tc_wbuf := buf |>);
  send_tun buf sz.

(* src/client/tunnel_client.cpp:90-98 open_route *)
Definition open_route (route : cstr) : T bool :=
  if ROUTE_MAX <? strlen route then mret false else
  _ ← pack_and_send (λ out, pack_connect out route (u8 (strlen route)));
  mret true.

(* src/client/tunnel_client.cpp:100-103 send_data *)
Definition send_data (text : list Z) (len : Z) : T unit :=
  pack_and_send (λ out, pack_data out text len).

(* src/client/tunnel_client.cpp:107-130 wait_reply *)
Fixpoint wait_loop (fuel : nat) (start timeout_ms : Z) : T (option (list Z)) :=
  match fuel with
  | O => stop OutOfFuel
  | S fuel' =>
      _ ← kcp_pump;
      '(got, out) ← with_kcp_ (ikcp_recv 65535);
      if 0 <? got then mret (Some out) else
      t ← csyscall cs_clock;
      let rem := timeout_ms - i64 (t - start) in
      if rem <=? 0 then mret None else
      s ← csyscall cs_select;
      _ ← (if 0 <? s then
             d ← csyscall cs_recv;
             match d with
             | Some (_, b :: bs) =>
                 _ ← with_kcp_ (ikcp_input (take (Z.to_nat 65535) (b :: bs)));
                 kcp_pump
             | _ => mret tt
             end
           else mret tt);
      wait_loop fuel' start timeout_ms
  end.

(* src/client/tunnel_client.cpp:105-131 wait_reply *)
(** [Some out]: true, with the bytes at [out]. *)
Definition wait_reply (fuel : nat) (timeout_ms : Z) : T (option (list Z)) :=
  start ← csyscall cs_clock;
  wait_loop fuel start timeout_ms.

(* src/client/tunnel_client.cpp:133-138 send_close *)
Definition send_close : T unit :=
  _ ← pack_and_send pack_close;
  kcp_pump.

(* src/client/tunnel_client.cpp:140-143 disconnect *)
Definition tc_disconnect : T unit :=
  c ← get_eng;
  _ ← (match tc_kcp c with
       | Some _ => _ ← with_kcp_ ikcp_release; upd_tc (λ c, c <| tc_kcp := None |>)
       | None => mret tt
       end);
  if tc_fd c <? 0 then mret tt else
  _ ← cclose (tc_fd c);
  upd_tc (λ c, c <| tc_fd := -1 |>).

(** ** The program *)

Inductive echo := Malformed | Echo (text : list Z) | Unexpected (type : Z).

(* src/client/main.cpp:16-34 print_echo *)
(** What is printed; [memcpy] fills at most 4096 bytes of [tmp]. *)
Definition print_echo (buf : list Z) (n : Z) : result echo :=
  p ← parse buf n;
  match p with
  | None => mret Malformed
  | Some (type, data, len) =>
      if type =? PACKET_DATA then
        match data with
        | None => Err NullDeref
        | Some off =>
            let show := if len <? 4096 then len else 4096 in
            tmp ← load buf off (Z.to_nat show);
            mret (Echo (c_str tmp))
        end
      else mret (Unexpected type)
  end.

(* src/client/main.cpp:53-64 roundtrip *)
Definition roundtrip (fuel : nat) (text : cstr) : T (option echo) :=
  _ ← send_data text (u16 (strlen text));
  r ← wait_reply fuel 3000;
  match r with
  | Some rbuf => e ← lift (print_echo rbuf (Z.of_nat (length rbuf))); mret (Some e)
  | None => mret None
  end.

(** The lines of standard input, without their line ends, until [quit]. *)
Fixpoint interactive (fuel : nat) (lines : list cstr) : T (list (option echo)) :=
  match lines with
  | [] => mret []
  | line :: lines' =>
      if bool_decide (line = []) then interactive fuel lines'
      else if strcmp line (str "quit") =? 0 then mret []
      else e ← roundtrip fuel line; es ← interactive fuel lines'; mret (e :: es)
  end.

(* src/client/main.cpp:36-83 main *)
(** With a route, and a message or the lines of standard input: the exit
    status and what was printed.  The destructor runs at every return. *)
Definition client_main (fuel : nat) (route : cstr) (input : cstr + list cstr) : T (Z * list (option echo)) :=
  if ROUTE_MAX <? strlen route then mret (1, []) else
  ok ← tc_connect (str "127.0.0.1") 8000;
  if negb ok then _ ← tc_disconnect; mret (1, []) else
  ok ← open_route route;
  if negb ok then _ ← tc_disconnect; mret (1, []) else
  es ← (match input with
        | inl text => e ← roundtrip fuel text; mret [e]
        | inr lines => interactive fuel lines
        end);
  _ ← send_close;
  _ ← tc_disconnect;
  mret (0, es).
