(* ===== verification/Echo.v ===== *)
(** * The echo server (src/test_server/udp_echo_server.cpp)

    The server the gateway relays to in its tests: every datagram goes back to
    its sender.  What arrives is a list of results of [recvfrom]. *)

From S2P Require Import Prelude CRuntime Decimal Tunnel.

(* src/test_server/udp_echo_server.cpp:11-11 BUF_SIZE *)
Definition BUF_SIZE : Z := 65535.

(** What the server has sent, and what it printed of each datagram. *)
Record echo_srv := Srv {
  es_sent : list (sockaddr_in * list Z);
  es_log : list (sockaddr_in * cstr);
}.

(* src/test_server/udp_echo_server.cpp:32-43 main *)
(** One iteration with the buffer as the last one left it; [None] is a failed
    [recvfrom], after which the loop goes on. *)
Definition echo_iter (arrival : option (sockaddr_in * list Z)) (buf : list Z) (s : echo_srv) :
    result (list Z * echo_srv) :=
  match arrival with
  | None => mret (buf, s)
  | Some (peer, bytes) =>
      let bytes := take (Z.to_nat BUF_SIZE) bytes in
      let n := length bytes in
      buf ← store buf 0 bytes;
      buf ← store buf n [0];
      out ← load buf 0 n;
      mret (buf, Srv (es_sent s ++ [(peer, out)]) (es_log s ++ [(peer, c_str buf)]))
  end.

(* src/test_server/udp_echo_server.cpp:31-44 main *)
Fixpoint echo_loop (arrivals : list (option (sockaddr_in * list Z))) (buf : list Z) (s : echo_srv) :
    result echo_srv :=
  match arrivals with
  | [] => mret s
  | a :: arrivals' => '(buf, s) ← echo_iter a buf s; echo_loop arrivals' buf s
  end.

(* src/test_server/udp_echo_server.cpp:13-48 main *)
(** [fd] and [bound] are the results of [socket] and [bind]; an exit status
    when the server does not come up, otherwise its port and what it did with
    the arrivals. *)
Definition echo_main (argv : list cstr) (fd : Z) (bound : bool) (junk : list Z)
    (arrivals : list (option (sockaddr_in * list Z))) : result (Z + Z * echo_srv) :=
  let port := match argv !! 1%nat with Some a => atoi a | None => 9000 end in
  if fd <? 0 then mret (inl 1) else
  if negb bound then mret (inl 1) else
  s ← echo_loop arrivals junk (Srv [] []);
  mret (inr (u16 port, s)).

(** ** Every datagram goes back *)

(** The datagrams that arrived. *)
Definition arrived_dgrams : list (option (sockaddr_in * list Z)) → list (sockaddr_in * list Z) := omap id.

Lemma echo_iter_run peer bytes buf s :
  Z.of_nat (length buf) = BUF_SIZE → Z.of_nat (length bytes) < BUF_SIZE →
  ∃ buf' log, echo_iter (Some (peer, bytes)) buf s =
      Ok (buf', Srv (es_sent s ++ [(peer, bytes)]) (es_log s ++ [log])) ∧
    Z.of_nat (length buf') = BUF_SIZE.
Proof.
  intros Hb Hn. unfold echo_iter. rewrite take_ge by lia. cbv zeta.
  pose proof (store_run [] buf bytes) as H1. cbn [app length] in H1. rewrite H1 by lia. cbn [mbind result_bind].
  rewrite store_run by (rewrite length_drop; cbn [length]; lia). cbn [mbind result_bind].
  rewrite load_run by (rewrite length_app; lia). cbn [mbind result_bind]. rewrite drop_0, take_app_length.
  eexists _, _. split; [reflexivity|]. rewrite !length_app, !length_drop. cbn [length]. lia.
Qed.

Lemma echo_loop_run arrivals buf s :
  Z.of_nat (length buf) = BUF_SIZE →
  Forall (λ x, Z.of_nat (length x.2) < BUF_SIZE) (arrived_dgrams arrivals) →
  ∃ s', echo_loop arrivals buf s = Ok s' ∧ es_sent s' = es_sent s ++ arrived_dgrams arrivals.
Proof.
  revert buf s. induction arrivals as [|[[peer bytes]|] arrivals IH]; intros buf s Hb Ha; cbn [echo_loop].
  - exists s. by rewrite app_nil_r.
  - change (arrived_dgrams (Some (peer, bytes) :: arrivals)) with ((peer, bytes) :: arrived_dgrams arrivals) in *.
    apply Forall_cons in Ha as [Hn Ha]. destruct (echo_iter_run peer bytes buf s Hb Hn) as (buf' & log & -> & Hb').
    cbn [mbind result_bind]. destruct (IH buf' (Srv (es_sent s ++ [(peer, bytes)]) (es_log s ++ [log])) Hb' Ha) as (s' & -> & Hs). exists s'. split; [done|].
    rewrite Hs. cbn [es_sent]. by rewrite <- app_assoc.
  - cbn [echo_iter mbind result_bind mret result_ret]. by apply IH.
Qed.
