(* ===== verification/LoadTest.v ===== *)
(** * The load test (src/client/load_test.cpp)

    The sessions of the test as a vector of [Ctx], the system they run on, and
    the two modes of the program.  What the test prints is part of the results;
    rates and the buffer sizes of its sockets are left out. *)

From S2P Require Import Prelude CRuntime IkcpData Ikcp Decimal Tunnel.

(* src/client/load_test.cpp:26-27 GW_IP *)
Definition GW : sockaddr_in := SockAddr 2130706433 8000.
(* src/client/load_test.cpp:28-28 g_buf *)
Definition G_BUF : Z := 65535.

(* src/client/load_test.cpp:31-42 Ctx *)
Record Ctx := MkCtx {
  c_fd : Z;
  c_kcp : option ikcpcb;
  c_gw : sockaddr_in;
  c_conv : Z;
  c_reg_ok : bool;
  c_total : Z;
  c_sent : Z;
  c_echo_ok : Z;
  c_echo_bad : Z;
  c_payload : list Z;
}.

(** The sessions, and the system: outcomes of calls indexed by the number of
    calls made so far, the descriptors open and the datagrams sent. *)
Record ltest := LTest {
  l_ctxs : list Ctx;
  (** [sendbuf] of [run_relay] *)
  l_sendbuf : list Z;
  l_n : nat;
  l_clock : nat → Z;
  (** descriptors from [socket] and [epoll_create1], or -1 *)
  l_socket : nat → Z;
  (** [poll]: its result, the entries with events, and whether a failure was
      an interruption *)
  l_poll : nat → Z * list bool * bool;
  (** [recvfrom], [None] on error *)
  l_recv : nat → option (list Z);
  (** [epoll_wait]: the sessions that are ready *)
  l_ready : nat → list nat;
  l_open : list Z;
  l_sent : list (Z * sockaddr_in * list Z);
}.

(** ** Record updates *)

Definition ctx_eta (r : Ctx) : Ctx :=
  MkCtx (c_fd r) (c_kcp r) (c_gw r) (c_conv r) (c_reg_ok r) (c_total r) (c_sent r) (c_echo_ok r)
    (c_echo_bad r) (c_payload r).
Definition load_eta (r : ltest) : ltest :=
  LTest (l_ctxs r) (l_sendbuf r) (l_n r) (l_clock r) (l_socket r) (l_poll r) (l_recv r) (l_ready r) (l_open r) (l_sent r).

Ltac load_setter eta p := let e := eval unfold eta in eta in build_setter e p.

#[global] Instance set_c_kcp : Setter c_kcp.
Proof. load_setter ctx_eta c_kcp. Defined.
#[global] Instance set_c_conv : Setter c_conv.
Proof. load_setter ctx_eta c_conv. Defined.
#[global] Instance set_c_reg_ok : Setter c_reg_ok.
Proof. load_setter ctx_eta c_reg_ok. Defined.
#[global] Instance set_c_total : Setter c_total.
Proof. load_setter ctx_eta c_total. Defined.
#[global] Instance set_c_sent : Setter c_sent.
Proof. load_setter ctx_eta c_sent. Defined.
#[global] Instance set_c_echo_ok : Setter c_echo_ok.
Proof. load_setter ctx_eta c_echo_ok. Defined.
#[global] Instance set_c_echo_bad : Setter c_echo_bad.
Proof. load_setter ctx_eta c_echo_bad. Defined.
#[global] Instance set_l_ctxs : Setter l_ctxs.
Proof. load_setter load_eta l_ctxs. Defined.
#[global] Instance set_l_sendbuf : Setter l_sendbuf.
Proof. load_setter load_eta l_sendbuf. Defined.
#[global] Instance set_l_n : Setter l_n.
Proof. load_setter load_eta l_n. Defined.
#[global] Instance set_l_open : Setter l_open.
Proof. load_setter load_eta l_open. Defined.
#[global] Instance set_l_sent : Setter l_sent.
Proof. load_setter load_eta l_sent. Defined.

(** ** The monad, system calls and the vector *)

Abbreviation LT := (prog (world ltest)).

Definition upd_load (f : ltest → ltest) : LT unit := s ← get_eng; put_eng (f s).

Definition lcall {A} (f : ltest → nat → A) : LT A :=
  s ← get_eng;
  _ ← upd_load (λ s, s <| l_n := S (l_n s) |>);
  mret (f s (l_n s)).

(** [sendto], whose result no caller looks at: the calls are recorded, not what
    arrives.  A descriptor that is not one sends nothing. *)
Definition lsend (fd : Z) (gw : sockaddr_in) (buf : list Z) : LT unit :=
  if fd <? 0 then mret tt else upd_load (λ s, s <| l_sent := l_sent s ++ [(fd, gw, buf)] |>).

Definition lclose (fd : Z) : LT unit := upd_load (λ s, s <| l_open := filter (λ x, x ≠ fd) (l_open s) |>).

(** [v[i]], and writing through it. *)
Definition ctx_at (i : nat) : LT Ctx :=
  s ← get_eng;
  match l_ctxs s !! i with Some c => mret c | None => stop OutOfBounds end.
Definition upd_ctx (i : nat) (f : Ctx → Ctx) : LT unit :=
  c ← ctx_at i; upd_load (λ s, s <| l_ctxs := <[i := f c]> (l_ctxs s) |>).

(** [for (auto &c : v)]: the body for the sessions [i ..]. *)
Fixpoint for_ctxs (n i : nat) (body : nat → LT unit) : LT unit :=
  match n with
  | O => mret tt
  | S n' => _ ← body i; for_ctxs n' (S i) body
  end.
Definition for_all (body : nat → LT unit) : LT unit :=
  s ← get_eng; for_ctxs (length (l_ctxs s)) 0 body.

(** A call on the control block of session [i]. *)
Definition kcp_call {A} (i : nat) (m : K A) : LT A :=
  c ← ctx_at i;
  match c_kcp c with
  | None => stop NullDeref
  | Some k => λ w,
      match m (World k (w_al w)) with
      | Err e => Err e
      | Ok (x, World k' a') =>
          match upd_ctx i (λ c, c <| c_kcp := Some k' |>) (World (w_eng w) a') with
          | Ok (_, w') => Ok (x, w')
          | Err e => Err e
          end
      end
  end.

(* src/client/load_test.cpp:45-49 out_cb *)
(** For every datagram of a call. *)
Fixpoint out_cb (i : nat) (out : list (list Z)) : LT unit :=
  match out with
  | [] => mret tt
  | b :: out' => c ← ctx_at i; _ ← lsend (c_fd c) (c_gw c) b; out_cb i out'
  end.

(** [ikcp_update(c.kcp, now); ikcp_flush(c.kcp);] *)
Definition pump (i : nat) (now : Z) : LT unit :=
  out ← kcp_call i (ikcp_update now);
  _ ← out_cb i out;
  out ← kcp_call i ikcp_flush;
  out_cb i out.

(* src/client/load_test.cpp:51-63 make_sock *)
Definition make_sock : LT (Z * sockaddr_in) :=
  fd ← lcall l_socket;
  _ ← (if fd <? 0 then mret tt else upd_load (λ s, s <| l_open := fd :: l_open s |>));
  mret (fd, GW).

(** ** Registration *)

(* src/client/load_test.cpp:73-80 register_chunk *)
(** [fire]: REGISTER from every session of the chunk without an answer. *)
Definition fire (reg : list Z) (lo n : nat) : LT unit :=
  for_ctxs n lo (λ k, c ← ctx_at k; if c_reg_ok c then mret tt else lsend (c_fd c) (c_gw c) reg).

(* src/client/load_test.cpp:91-102 register_chunk *)
(** The entries of the chunk with events; the number of new registrations is
    added to [done]. *)
Fixpoint scan (flags : list bool) (k : nat) (done : Z) : LT Z :=
  match flags with
  | [] => mret done
  | flag :: flags' =>
      if negb flag then scan flags' (S k) done else
      c ← ctx_at k;
      if c_reg_ok c then scan flags' (S k) done else
      d ← lcall l_recv;
      match d with
      | None => scan flags' (S k) done
      | Some bytes =>
          let g_buf := take (Z.to_nat G_BUF) bytes in
          let g := Z.of_nat (length g_buf) in
          if g <=? 0 then scan flags' (S k) done else
          conv ← lift (read_registered g_buf g);
          match conv with
          | Some conv =>
              _ ← upd_ctx k (λ c, c <| c_conv := conv |> <| c_reg_ok := true |>);
              scan flags' (S k) (done + 1)
          | None => scan flags' (S k) done
          end
      end
  end.

(* src/client/load_test.cpp:84-103 register_chunk *)
Fixpoint chunk_loop (fuel : nat) (reg : list Z) (lo n : nat) (deadline done : Z) : LT Z :=
  match fuel with
  | O => stop OutOfFuel
  | S fuel' =>
      if Z.of_nat n <=? done then mret done else
      t ← lcall l_clock;
      let rem := i64 (deadline - t) in
      if rem <=? 0 then mret done else
      '(r, flags, eintr) ← lcall l_poll;
      if r <? 0 then if eintr : bool then chunk_loop fuel' reg lo n deadline done else mret done
      else if r =? 0 then _ ← fire reg lo n; chunk_loop fuel' reg lo n deadline done
      else done ← scan (take n flags) lo done; chunk_loop fuel' reg lo n deadline done
  end.

(* src/client/load_test.cpp:66-105 register_chunk *)
Definition register_chunk (fuel lo hi : nat) (deadline : Z) : LT Z :=
  '(rl, reg) ← lift (pack_register [0]);
  let reg := take (Z.to_nat rl) reg in
  _ ← fire reg lo (hi - lo);
  chunk_loop fuel reg lo (hi - lo) deadline 0.

(** ** Draining a session *)

(* src/client/load_test.cpp:110-119 drain_ctx *)
(** Whether any segment came in. *)
Fixpoint input_all (fuel i : nat) (got : bool) : LT bool :=
  match fuel with
  | O => stop OutOfFuel
  | S fuel' =>
      d ← lcall l_recv;
      match d with
      | None => mret got
      | Some bytes =>
          let g_buf := take (Z.to_nat G_BUF) bytes in
          if Z.of_nat (length g_buf) <? 24 then input_all fuel' i got else
          _ ← kcp_call i (ikcp_input g_buf);
          input_all fuel' i true
      end
  end.

(** [memcmp(data, payload, n) == 0] *)
Definition same_bytes (buf : list Z) (off : nat) (payload : list Z) (n : Z) : result bool :=
  x ← load buf off (Z.to_nat n); y ← load payload 0 (Z.to_nat n); mret (bool_decide (x = y)).

(* src/client/load_test.cpp:124-131 drain_ctx *)
(** One message: how it counts. *)
Definition count_echo (buf : list Z) (c : Ctx) : result Ctx :=
  p ← parse buf (Z.of_nat (length buf));
  match p with
  | None => mret c
  | Some (type, data, dlen) =>
      if negb (type =? PACKET_DATA) then mret c else
      ok ← (if dlen =? u16 (Z.of_nat (length (c_payload c))) then
              match data with
              | None => Err NullDeref
              | Some off => same_bytes buf off (c_payload c) dlen
              end
            else mret false);
      mret (if ok : bool then c <| c_echo_ok := u64 (c_echo_ok c + 1) |>
            else c <| c_echo_bad := u64 (c_echo_bad c + 1) |>)
  end.

(* src/client/load_test.cpp:122-132 drain_ctx *)
Fixpoint recv_all (fuel i : nat) : LT unit :=
  match fuel with
  | O => stop OutOfFuel
  | S fuel' =>
      '(gotm, bytes) ← kcp_call i (ikcp_recv G_BUF);
      if gotm <=? 0 then mret tt else
      c ← ctx_at i;
      c' ← lift (count_echo bytes c);
      _ ← upd_ctx i (λ _, c');
      recv_all fuel' i
  end.

(** The segments a session has received; every message takes at least one. *)
Definition waiting (c : Ctx) : nat :=
  match c_kcp c with Some k => (length (rcv_queue k) + length (rcv_buf k))%nat | None => 0%nat end.

(* src/client/load_test.cpp:108-133 drain_ctx *)
Definition drain_ctx (fuel i : nat) : LT unit :=
  got ← input_all fuel i false;
  _ ← (if got : bool then t ← lcall l_clock; pump i (now32 t) else mret tt);
  c ← ctx_at i;
  recv_all (S (waiting c)) i.

(** Every session that is ready. *)
Fixpoint drain_each (fuel : nat) (ready : list nat) : LT unit :=
  match ready with
  | [] => mret tt
  | i :: ready' => _ ← drain_ctx fuel i; drain_each fuel ready'
  end.

(** ** reg *)

(** [v.push_back] of [n] new sessions from index [i]; [payload i] is the
    payload of session [i]. *)
Fixpoint push_ctxs (n i : nat) (payload : nat → list Z) : LT unit :=
  match n with
  | O => mret tt
  | S n' =>
      '(fd, gw) ← make_sock;
      _ ← upd_load (λ s, s <| l_ctxs := l_ctxs s ++ [MkCtx fd None gw 0 false 0 0 0 0 (payload i)] |>);
      push_ctxs n' (S i) payload
  end.

(* src/client/load_test.cpp:146-161 run_reg *)
(** The waves from [lo] on: the sessions registered. *)
Fixpoint reg_waves (waves fuel lo count : nat) (g_deadline_ms cum : Z) : LT Z :=
  match waves with
  | O => stop OutOfFuel
  | S waves' =>
      if (count <=? lo)%nat then mret cum else
      let hi := Nat.min count (lo + 500) in
      tb ← lcall l_clock;
      done ← register_chunk fuel lo hi (u64 (tb + g_deadline_ms));
      _ ← lcall l_clock;
      if done <? Z.of_nat (hi - lo) then mret (cum + done)
      else reg_waves waves' fuel (lo + 500) count g_deadline_ms (cum + done)
  end.

(** The numbers of the registered sessions, each once. *)
Definition convs (v : list Ctx) : gset Z := list_to_set (c_conv <$> filter (λ c, c_reg_ok c) v).

Definition close_all : LT unit := for_all (λ i, c ← ctx_at i; lclose (c_fd c)).

(* src/client/load_test.cpp:136-171 run_reg *)
(** The sessions registered and the distinct numbers among them. *)
Definition run_reg (fuel count : nat) (g_deadline_ms : Z) : LT (Z * Z) :=
  _ ← lcall l_clock;
  _ ← push_ctxs count 0 (λ _, []);
  _ ← lcall l_clock;
  cum ← reg_waves (S count) fuel 0 count g_deadline_ms 0;
  _ ← lcall l_clock;
  s ← get_eng;
  let unique := Z.of_nat (size (convs (l_ctxs s))) in
  _ ← close_all;
  mret (cum, unique).

(** ** relay *)

(* src/client/load_test.cpp:184-185 run_relay *)
Definition relay_payload (plen : Z) (i : nat) : list Z :=
  let p := replicate (Z.to_nat plen) (65 + Z.of_nat i mod 26) in
  if 2 <=? plen then <[1%nat := u8 (Z.shiftr (Z.of_nat i) 8)]> (<[0%nat := u8 (Z.of_nat i)]> p) else p.

(* src/client/load_test.cpp:191-194 run_relay *)
Fixpoint relay_waves (waves fuel lo sessions : nat) (g_deadline_ms reg_ok : Z) : LT Z :=
  match waves with
  | O => stop OutOfFuel
  | S waves' =>
      if (sessions <=? lo)%nat then mret reg_ok else
      let hi := Nat.min sessions (lo + 500) in
      t ← lcall l_clock;
      done ← register_chunk fuel lo hi (u64 (t + g_deadline_ms));
      relay_waves waves' fuel (lo + 500) sessions g_deadline_ms (reg_ok + done)
  end.

(* src/client/load_test.cpp:202-210 run_relay *)
(** [ikcp_create] may return NULL, which [ikcp_setoutput] dereferences. *)
Definition open_kcp (each cap : Z) (i : nat) : LT unit :=
  c ← ctx_at i;
  k ← ikcp_create (c_conv c);
  _ ← upd_ctx i (λ c, c <| c_kcp := k |>);
  _ ← kcp_call i ikcp_setoutput;
  _ ← kcp_call i (ikcp_nodelay 1 10 2 1);
  _ ← kcp_call i (ikcp_wndsize (i32 cap) (i32 cap));
  upd_ctx i (λ c, c <| c_total := each |>).

(** A packer writes [sendbuf], and the result goes to [ikcp_send]. *)
Definition send_packed (i : nat) (pack : list Z → result (Z * list Z)) : LT Z :=
  s ← get_eng;
  '(sz, buf) ← lift (pack (l_sendbuf s));
  _ ← upd_load (λ s, s <| l_sendbuf := buf |>);
  kcp_call i (ikcp_send (take (Z.to_nat sz) buf) sz).

(* src/client/load_test.cpp:214-218 run_relay *)
Definition send_connect (route : cstr) (i : nat) : LT unit :=
  _ ← send_packed i (λ out, pack_connect out route (u8 (strlen route)));
  t ← lcall l_clock;
  pump i (now32 t).

(* src/client/load_test.cpp:229-236 run_relay *)
Fixpoint delay_loop (fuel : nat) (endt : Z) : LT unit :=
  match fuel with
  | O => stop OutOfFuel
  | S fuel' =>
      t ← lcall l_clock;
      if endt <=? t then mret tt else
      kn2 ← lcall l_clock;
      _ ← for_all (λ i, pump i (now32 kn2));
      ready ← lcall l_ready;
      _ ← drain_each fuel (take 512 ready);
      delay_loop fuel' endt
  end.

(* src/client/load_test.cpp:253-259 run_relay *)
(** Messages until [cap] are on their way: at most [cap] iterations. *)
Fixpoint fill (fuel i : nat) (cap : Z) : LT unit :=
  match fuel with
  | O => stop OutOfFuel
  | S fuel' =>
      c ← ctx_at i;
      if negb ((c_sent c <? c_total c) && (u64 (c_sent c - c_echo_ok c) <? cap)) then mret tt else
      rc ← send_packed i (λ out, pack_data out (c_payload c) (u16 (Z.of_nat (length (c_payload c)))));
      if rc <? 0 then mret tt else
      _ ← upd_ctx i (λ c, c <| c_sent := u64 (c_sent c + 1) |>);
      fill fuel' i cap
  end.

(** Sums over the sessions, in 64 bits. *)
Definition total_of (f : Ctx → Z) (v : list Ctx) : Z := foldl (λ n c, u64 (n + f c)) 0 v.

(** The locals of the loop. *)
Record relay := Relay { last_prog : Z; prev_delivered : Z; last_hb : Z }.

Inductive verdict := Go_on (r : relay) | All_done | Stalled.

(* src/client/load_test.cpp:270-292 run_relay *)
(** The end of a round: progress, the report that reads [v[0]] and [v[1]], and
    whether the loop ends. *)
Definition round_end (sessions each : Z) (r : relay) : LT verdict :=
  nowt ← lcall l_clock;
  s ← get_eng;
  let deli := total_of c_echo_ok (l_ctxs s) in
  let r := if deli =? prev_delivered r then r else Relay nowt deli (last_hb r) in
  r ← (if 2000 <=? u64 (nowt - last_hb r) then
         _ ← ctx_at 0; _ ← ctx_at 1; mret (Relay (last_prog r) (prev_delivered r) nowt)
       else mret r);
  if u64 (sessions * each - deli) =? 0 then mret All_done
  else if 15000 <? u64 (nowt - last_prog r) then mret Stalled
  else mret (Go_on r).

(* src/client/load_test.cpp:249-268 run_relay *)
(** The part of a round before its end: feed, update and drain. *)
Definition round_body (fuel : nat) (cap : Z) : LT unit :=
  kn ← lcall l_clock;
  _ ← for_all (λ i,
        c ← ctx_at i;
        _ ← (if c_sent c <? c_total c then fill (S (Z.to_nat cap)) i cap else mret tt);
        pump i (now32 kn));
  ready ← lcall l_ready;
  drain_each fuel (take 512 ready).

(* src/client/load_test.cpp:246-293 run_relay *)
Fixpoint relay_loop (rounds fuel : nat) (sessions each cap : Z) (r : relay) : LT bool :=
  match rounds with
  | O => stop OutOfFuel
  | S rounds' =>
      _ ← round_body fuel cap;
      v ← round_end sessions each r;
      match v with
      | Go_on r => relay_loop rounds' fuel sessions each cap r
      | All_done => mret true
      | Stalled => mret false
      end
  end.

(** What [relay] reports: registrations that failed, or the messages
    delivered, expected and wrong. *)
Inductive report := Unregistered (reg_ok : Z) | Delivered (deli expected bad : Z).

(* src/client/load_test.cpp:311-314 run_relay *)
Definition close_ctx (i : nat) : LT unit :=
  c ← ctx_at i;
  _ ← (match c_kcp c with Some _ => kcp_call i ikcp_release | None => mret tt end);
  lclose (c_fd c).

(* src/client/load_test.cpp:174-315 run_relay *)
Definition run_relay (fuel sessions : nat) (each plen : Z) (route : cstr) (cap g_deadline_ms : Z)
    (delay : option Z) (junk : list Z) : LT report :=
  let cap := if cap =? 0 then 64 else cap in
  let plen := if 1400 <? plen then 1400 else plen in
  _ ← lcall l_clock;
  _ ← push_ctxs sessions 0 (relay_payload plen);
  reg_ok ← relay_waves (S sessions) fuel 0 sessions g_deadline_ms 0;
  _ ← lcall l_clock;
  if negb (reg_ok =? Z.of_nat sessions) then _ ← close_all; mret (Unregistered reg_ok) else
  ep ← lcall l_socket;
  _ ← (if ep <? 0 then mret tt else upd_load (λ s, s <| l_open := ep :: l_open s |>));
  _ ← for_all (open_kcp each cap);
  _ ← upd_load (λ s, s <| l_sendbuf := junk |>);
  _ ← for_all (send_connect route);
  _ ← (match delay with
       | None => mret tt
       | Some d => if 0 <? d then t ← lcall l_clock; delay_loop fuel (u64 (t + d)) else mret tt
       end);
  t_start ← lcall l_clock;
  _ ← relay_loop fuel fuel (Z.of_nat sessions) each cap (Relay t_start 0 t_start);
  _ ← lcall l_clock;
  s ← get_eng;
  let deli := total_of c_echo_ok (l_ctxs s) in
  let bad := total_of c_echo_bad (l_ctxs s) in
  _ ← lclose ep;
  _ ← for_all close_ctx;
  mret (Delivered deli (u64 (Z.of_nat sessions * each)) bad).

(** ** The program *)

Inductive outcome := Usage | Reg (r : Z * Z) | RelayReport (r : report).

(** [argv[i]], NULL at [argc]. *)
Definition arg (argv : list cstr) (i : nat) : result cstr :=
  match argv !! i with Some s => Ok s | None => Err NullDeref end.

(* src/client/load_test.cpp:322-340 main *)
(** The exit status and what was done; [env] and [delay] are
    [LOAD_DEADLINE_MS] and [CONNECT_DELAY_MS]. *)
Definition load_main (fuel : nat) (argv : list cstr) (env delay : option cstr) (junk : list Z) : LT (Z * outcome) :=
  if (length argv <? 3)%nat then mret (1, Usage) else
  let g_deadline_ms := match env with Some e => strtoul e | None => 120000 end in
  mode ← lift (arg argv 1);
  if strcmp mode (str "reg") =? 0 then
    count ← lift (arg argv 2);
    r ← run_reg fuel (Z.to_nat (strtoul count)) g_deadline_ms;
    mret (0, Reg r)
  else if strcmp mode (str "relay") =? 0 then
    sessions ← lift (arg argv 2);
    each ← lift (arg argv 3);
    let opt i d := match argv !! i with Some a => strtoul a | None => d end in
    let route := match argv !! 5%nat with Some a => a | None => str "test.com" end in
    r ← run_relay fuel (Z.to_nat (strtoul sessions)) (strtoul each) (opt 4%nat 32) route (opt 6%nat 64)
          g_deadline_ms (strtoul <$> delay) junk;
    mret (0, RelayReport r)
  else mret (1, Usage).
