(* ===== verification/LoadProps.v ===== *)
(** * Properties of the load test and of the echo server *)

From S2P Require Import Prelude CRuntime IkcpData Ikcp IkcpCodec IkcpRecv IkcpSend IkcpAck IkcpInput IkcpTimer IkcpApi.
From S2P Require Import Decimal Tunnel Echo LoadTest.

(** ** The vector *)

Lemma ctx_at_run i s a c : l_ctxs s !! i = Some c → ctx_at i (World s a) = Ok (c, World s a).
Proof. intros H. unfold ctx_at. run. by rewrite H. Qed.

Lemma upd_ctx_run i f s a c :
  l_ctxs s !! i = Some c →
  upd_ctx i f (World s a) = Ok (tt, World (s <| l_ctxs := <[i := f c]> (l_ctxs s) |>) a).
Proof. intros H. unfold upd_ctx. run. rewrite (ctx_at_run i s a c H). run. reflexivity. Qed.

Lemma kcp_call_run {A} i (m : K A) s a c k x k' a' :
  l_ctxs s !! i = Some c → c_kcp c = Some k → m (World k a) = Ok (x, World k' a') →
  kcp_call i m (World s a) =
    Ok (x, World (s <| l_ctxs := <[i := c <| c_kcp := Some k' |>]> (l_ctxs s) |>) a').
Proof.
  intros Hc Hk Hm. unfold kcp_call, mbind, prog_bind. rewrite (ctx_at_run i s a c Hc), Hk.
  cbn [w_al w_eng]. by rewrite Hm, (upd_ctx_run i _ s a' c Hc).
Qed.

(** ** Filling the window of a session *)

(** The messages a round may add: up to [cap] on their way, up to [total]
    altogether. *)
Definition room (c : Ctx) (cap : Z) : nat :=
  Z.to_nat (Z.min (c_total c - c_sent c) (cap - (c_sent c - c_echo_ok c))).

(** A session that is in the middle of its run. *)
Record running (cap : Z) (c : Ctx) (k : ikcpcb) : Prop := {
  ru_kcp : c_kcp c = Some k;
  ru_queue : snd_queue_ok k;
  ru_mode : stream k = 0 ∧ mss k = 1376;
  ru_count : 0 ≤ c_echo_ok c ≤ c_sent c ∧ c_sent c ≤ c_total c < 2 ^ 64;
  ru_payload : Z.of_nat (length (c_payload c)) ≤ 1400;
}.

(** The message of a session, and its fragments. *)
Definition data_msg (c : Ctx) : list Z :=
  PACKET_DATA :: be16 (Z.of_nat (length (c_payload c))) ++ c_payload c.
Definition data_frags (c : Ctx) : list (Z * list Z) :=
  fragments true (Z.to_nat 1376) (Z.to_nat (frag_count 1376 (3 + Z.of_nat (length (c_payload c))))) (data_msg c).

(** One message. *)
Lemma send_data_msg i s a c k cap :
  l_ctxs s !! i = Some c → running cap c k → al_total a → length (l_sendbuf s) = 1403%nat →
  Z.of_nat (length (snd_queue k) + 128) < 2 ^ 31 →
  ∃ segs buf a',
    send_packed i (λ out, pack_data out (c_payload c) (u16 (Z.of_nat (length (c_payload c))))) (World s a) =
      Ok (3 + Z.of_nat (length (c_payload c)),
          World (s <| l_sendbuf := buf |>
                   <| l_ctxs := <[i := c <| c_kcp := Some (with_queue k (snd_queue k ++ segs)) |>]> (l_ctxs s) |>) a') ∧
    payload <$> segs = data_frags c ∧ snd_queue_ok (with_queue k (snd_queue k ++ segs)) ∧
    length buf = 1403%nat ∧ al_total a' ∧ al_live a' = al_live a + Z.of_nat (length segs).
Proof.
  intros Hc [Hk Hq [Hst Hm] Hcnt Hp] Ha Hb Hlen. unfold send_packed. run.
  assert (u16 (Z.of_nat (length (c_payload c))) = Z.of_nat (length (c_payload c))) as Eu.
  { unfold u16. apply Z.mod_small. lia. }
  set (n := Z.of_nat (length (c_payload c))) in *.
  assert (∃ buf, pack_data (l_sendbuf s) (c_payload c) n = Ok (3 + n, buf) ∧
    take (Z.to_nat (3 + n)) buf = data_msg c ∧ length buf = 1403%nat) as (buf & Epack & Et & El).
  { rewrite pack_data_run by lia. eexists. split; [reflexivity|]. split.
    - replace (Z.to_nat (3 + n)) with (S (S (S (Z.to_nat n)))) by lia. cbn [take be16 app]. unfold data_msg, be16, n.
      rewrite Nat2Z.id, firstn_all, take_app_length. done.
    - cbn [length be16 app]. rewrite length_app, length_take, length_drop. lia. }
  rewrite Eu. unfold lift. rewrite Epack. cbn beta iota. run. rewrite Et.
  assert (3 + n = Z.of_nat (length (data_msg c))) as Emsg by (unfold data_msg; cbn [length be16 app]; lia).
  pose proof (send_message k a (data_msg c) Hq Ha Hst ltac:(lia) Hlen) as Hrun. cbv zeta in Hrun.
  rewrite Hm, <- Emsg in Hrun.
  assert (frag_count 1376 (3 + n) <? IKCP_WND_RCV = true) as Ef.
  { apply Z.ltb_lt. unfold frag_count, IKCP_WND_RCV. destruct (_ <=? _) eqn:E; b2p; [lia|].
    apply Z.div_lt_upper_bound; lia. }
  rewrite Ef in Hrun. destruct Hrun as (segs & a' & Hrun & Hpay & Hok & Ha' & Hl).
  exists segs, buf, a'. split; [|split_and!; try done].
  - unfold upd_load. run. by erewrite kcp_call_run; [|exact Hc|exact Hk|exact Hrun].
  - rewrite Hl. do 2 f_equal. rewrite <- (length_fmap payload segs), Hpay, fragments_length.
    assert (1 ≤ frag_count 1376 (3 + n)) by (apply frag_count_enough; lia). lia.
Qed.

(** ** Filling *)

Lemma fill_cap_run m i s a c k cap :
  l_ctxs s !! i = Some c → running cap c k → al_total a → length (l_sendbuf s) = 1403%nat →
  room c cap = m → 0 ≤ cap < 2 ^ 64 → Z.of_nat (length (snd_queue k)) + 128 * (Z.of_nat m + 1) < 2 ^ 31 →
  ∃ segs buf a',
    fill (S m) i cap (World s a) =
      Ok (tt, World (s <| l_sendbuf := buf |>
        <| l_ctxs := <[i := c <| c_kcp := Some (with_queue k (snd_queue k ++ segs)) |>
                              <| c_sent := c_sent c + Z.of_nat m |>]> (l_ctxs s) |>) a') ∧
    payload <$> segs = concat (replicate m (data_frags c)) ∧
    al_total a' ∧ al_live a' = al_live a + Z.of_nat (length segs).
Proof.
  revert s a c k. induction m as [|m IH]; intros s a c k Hc Hr Ha Hb Hm Hcap Hq.
  - exists [], (l_sendbuf s), a. cbn [fill]. rewrite bind_run, (ctx_at_run i s a c Hc). cbn beta iota.
    pose proof Hr as [Hk Hok _ Hcnt _]. unfold room in Hm. unfold u64.
    destruct ((c_sent c <? c_total c) && _) eqn:E; b2p; [rewrite Z.mod_small in * by lia; lia|].
    cbn [negb]. run. rewrite app_nil_r, (with_queue_self k Hok), Z.add_0_r. split_and!; [|done|done|simpl; lia].
    assert (c <| c_kcp := Some k |> <| c_sent := c_sent c |> = c) as -> by (rewrite <- Hk; by destruct c).
    rewrite list_insert_id by done. by destruct s.
  - pose proof Hr as [Hk Hok Hmode Hcnt Hp]. unfold room in Hm. cbn [fill].
    rewrite bind_run, (ctx_at_run i s a c Hc). cbn beta iota. unfold u64 at 1. rewrite Z.mod_small by lia.
    destruct (_ && _) eqn:E; b2p; [|apply andb_false_iff in E as [E|E]; b2p; lia]. cbn [negb].
    destruct (send_data_msg i s a c k cap Hc Hr Ha Hb ltac:(lia)) as (segs & buf & a1 & Hrun & Hpay & Hok' & Hb' & Ha1 & Hl1).
    rewrite bind_run, Hrun. cbn beta iota. destruct (_ <? 0) eqn:E0; b2p; [lia|]. clear E0.
    set (c1 := c <| c_kcp := Some (with_queue k (snd_queue k ++ segs)) |>) in *.
    set (s1 := s <| l_sendbuf := buf |> <| l_ctxs := <[i := c1]> (l_ctxs s) |>) in *.
    assert (l_ctxs s1 !! i = Some c1) as Hc1 by (apply list_lookup_insert_eq; by eapply lookup_lt_Some).
    rewrite bind_run, (upd_ctx_run i _ s1 a1 c1 Hc1). cbn beta iota.
    assert (u64 (c_sent c1 + 1) = c_sent c + 1) as Es by (unfold u64, c1; cbn [c_sent]; apply Z.mod_small; cbn; lia).
    rewrite Es. set (c2 := c1 <| c_sent := c_sent c + 1 |>).
    set (s2 := s1 <| l_ctxs := <[i := c2]> (l_ctxs s1) |>).
    assert (Z.of_nat (length segs) ≤ 127) as Hsl.
    { rewrite <- (length_fmap payload segs), Hpay. unfold data_frags. rewrite fragments_length.
      assert (frag_count 1376 (3 + Z.of_nat (length (c_payload c))) < 128); [|lia].
      unfold frag_count. destruct (_ <=? _) eqn:E1; b2p; [lia|]. apply Z.div_lt_upper_bound; lia. }
    destruct (IH s2 a1 c2 (with_queue k (snd_queue k ++ segs))) as (segs2 & buf2 & a2 & Hrun2 & Hpay2 & Ha2 & Hl2).
    + apply list_lookup_insert_eq. by eapply lookup_lt_Some.
    + constructor; cbn; try done. lia.
    + done.
    + done.
    + unfold room. cbn. lia.
    + done.
    + unfold with_queue. kred. rewrite length_app. lia.
    + exists (segs ++ segs2), buf2, a2. cbn [fill] in Hrun2. split_and!.
      * etrans; [exact Hrun2|]. change (l_ctxs s2) with (<[i:=c2]> (<[i:=c1]> (l_ctxs s))).
        rewrite !list_insert_insert_eq. unfold with_queue. kred. rewrite <- (app_assoc (snd_queue k)).
        replace (c_sent c2 + Z.of_nat m) with (c_sent c + Z.of_nat (S m)) by (unfold c2; cbn; lia). done.
      * by rewrite fmap_app, Hpay, Hpay2.
      * done.
      * rewrite length_app. lia.
Qed.

(** A session with three messages to send, none of them sent, over a new
    control block. *)
Definition ctx0 : Ctx := MkCtx 3 (Some (created 7)) GW 7 true 3 0 0 0 (relay_payload 32 0).
Definition load0 (v : list Ctx) : ltest :=
  LTest v (replicate 1403 0) 0 Z.of_nat (λ _, 3) (λ _, (0, [], false)) (λ _, None) (λ _, []) [3] [].

Lemma created_running cap : running cap ctx0 (created 7).
Proof.
  constructor; [done|apply (ki_queue _ _ _ _ _ _ _ (created_inv 7 (λ _, (0, [])) (λ _, (0, []))))|done| |done].
  cbn. lia.
Qed.

(** A round of the load test keeps at most [cap] messages of a session on
    their way and never sends more than [total]: [fill] queues exactly as many
    copies of the session's DATA message as both limits leave room for, counts
    them, and changes no other session. *)
Theorem fill_respects_cap i s a c k cap :
  l_ctxs s !! i = Some c → running cap c k → al_total a → length (l_sendbuf s) = 1403%nat →
  0 ≤ cap < 2 ^ 64 → Z.of_nat (length (snd_queue k)) + 128 * (Z.of_nat (room c cap) + 1) < 2 ^ 31 →
  ∃ segs c' s' a', fill (S (room c cap)) i cap (World s a) = Ok (tt, World s' a') ∧
    l_ctxs s' = <[i := c']> (l_ctxs s) ∧ c_kcp c' = Some (with_queue k (snd_queue k ++ segs)) ∧
    payload <$> segs = concat (replicate (room c cap) (data_frags c)) ∧
    c_sent c' = c_sent c + Z.of_nat (room c cap) ∧ c_sent c' ≤ c_total c' ∧
    c_sent c' - c_echo_ok c' ≤ Z.max cap (c_sent c - c_echo_ok c).
Proof.
  intros Hc Hr Ha Hb Hcap Hq.
  destruct (fill_cap_run (room c cap) i s a c k cap Hc Hr Ha Hb eq_refl Hcap Hq) as (segs & buf & a' & Hrun & Hp & _).
  pose proof (ru_count _ _ _ Hr) as Hcnt.
  assert (Z.of_nat (room c cap) = Z.max 0 (Z.min (c_total c - c_sent c) (cap - (c_sent c - c_echo_ok c)))) as Hm
    by (unfold room; lia).
  set (c' := c <| c_kcp := _ |> <| c_sent := _ |>) in Hrun.
  eexists segs, c', _, a'. split; [exact Hrun|]. split_and!; try done.
  - change (c_sent c + Z.of_nat (room c cap) ≤ c_total c). lia.
  - change (c_sent c + Z.of_nat (room c cap) - c_echo_ok c ≤ Z.max cap (c_sent c - c_echo_ok c)). lia.
Qed.

Lemma fill_respects_cap_witness :
  ∃ segs c' s' a', fill 3 0 2 (World (load0 [ctx0]) al_good) = Ok (tt, World s' a') ∧
    payload <$> segs = concat (replicate 2 (data_frags ctx0)) ∧ c_sent c' = 2 ∧ l_ctxs s' = [c'].
Proof.
  destruct (fill_respects_cap 0 (load0 [ctx0]) al_good ctx0 (created 7) 2) as
    (segs & c' & s' & a' & H1 & H2 & _ & H3 & H4 & _).
  - reflexivity.
  - apply created_running.
  - auto with ga.
  - reflexivity.
  - lia.
  - reflexivity.
  - exists segs, c', s', a'. split; [exact H1|]. split; [exact H3|]. split; [exact H4|exact H2].
Defined.

(** ** Counting echoes *)

(** How a message counts: as an echo when it begins with the session's DATA
    packet, as a wrong one when it is another DATA packet, not at all when it is
    something else. *)
Definition tally (r : option (Z * option nat * Z)) (buf : list Z) (c : Ctx) : Ctx :=
  match r with
  | Some (type, _, _) =>
      if type =? PACKET_DATA then
        if bool_decide (data_msg c `prefix_of` buf) then c <| c_echo_ok := u64 (c_echo_ok c + 1) |>
        else c <| c_echo_bad := u64 (c_echo_bad c + 1) |>
      else c
  | None => c
  end.

Lemma be16_inj x y n : byte x → byte y → 0 ≤ n < 65536 → of_be [x; y] = n ↔ [x; y] = be16 n.
Proof.
  intros Hx Hy Hn. split; [|intros ->; by apply of_be16]. unfold of_be, be16, byte in *. cbn [foldl]. intros <-.
  f_equal; [|f_equal]; dlia.
Qed.

(** What comes back is judged right: a message counts as an echo exactly
    when it begins with the DATA packet the session sends, another DATA packet
    counts as a mismatch, and nothing else counts; no message makes
    [drain_ctx] read outside it. *)
Theorem echo_judged buf c :
  Forall byte buf → Z.of_nat (length (c_payload c)) ≤ 1400 →
  ∃ r, parse buf (Z.of_nat (length buf)) = Ok r ∧ count_echo buf c = Ok (tally r buf c).
Proof.
  intros Hby Hp. destruct (parse_total buf (Z.of_nat (length buf))) as (r & Hr & Hspec); [lia|].
  exists r. split; [done|]. unfold count_echo, tally. rewrite Hr. cbn [mbind result_bind].
  destruct r as [[[t d] len]|]; [|done]. destruct Hspec as [Ht Hspec].
  destruct Hspec as [(-> & -> & H3 & Hle & x & y & Hx & Hy & ->)|(Hne & -> & -> & _)].
  2: { apply Z.eqb_neq in Hne. by rewrite Hne. }
  rewrite Z.eqb_refl. cbn [negb]. destruct buf as [|b0 [|b1 [|b2 rest]]]; try done. cbn in Ht, Hx, Hy. simplify_eq.
  apply Forall_cons in Hby as [_ Hby]. apply Forall_cons in Hby as [Hbx Hby]. apply Forall_cons in Hby as [Hby' _].
  set (n := Z.of_nat (length (c_payload c))) in *.
  assert (u16 n = n) as -> by (unfold u16; apply Z.mod_small; lia). cbn [length] in Hle.
  assert (data_msg c `prefix_of` PACKET_DATA :: x :: y :: rest ↔
    of_be [x; y] = n ∧ take (Z.to_nat n) rest = c_payload c) as Hiff.
  { rewrite (be16_inj x y n) by (done || lia). unfold data_msg, be16. fold n. cbn [app]. split.
    - intros [l El]. cbn [app] in El. injection El as E1 E2 E3. split; [by rewrite <- E1, <- E2|].
      unfold n. by rewrite Nat2Z.id, E3, take_app_length.
    - intros [E1 E2]. injection E1 as -> ->. exists (drop (Z.to_nat n) rest). cbn [app]. do 3 f_equal.
      rewrite <- (take_drop (Z.to_nat n) rest) at 1. by rewrite E2. }
  destruct (of_be [x; y] =? n) eqn:E; b2p.
  - unfold same_bytes. rewrite E. rewrite (load_run (c_payload c)) by (unfold n; lia).
    rewrite load_run by (cbn [length]; lia). cbn [mbind result_bind mret result_ret drop].
    rewrite (take_ge (c_payload c)) by (unfold n; lia).
    rewrite (bool_decide_ext _ _ Hiff). rewrite drop_0. case_bool_decide as Hd; case_bool_decide as Hd'; try done; naive_solver.
  - cbn [mbind result_bind mret result_ret]. rewrite bool_decide_eq_false_2 by naive_solver. done.
Qed.

(** An echo, and a wrong one. *)
Lemma echo_judged_witness :
  count_echo (data_msg ctx0) ctx0 = Ok (ctx0 <| c_echo_ok := 1 |>) ∧
  count_echo [PACKET_DATA; 0; 1; 9] ctx0 = Ok (ctx0 <| c_echo_bad := 1 |>).
Proof.
  split.
  - destruct (echo_judged (data_msg ctx0) ctx0) as (r & Hr & H);
      [apply (bool_decide_unpack _); vm_compute; reflexivity|vm_compute; discriminate|].
    vm_compute in Hr. injection Hr as <-. exact H.
  - destruct (echo_judged [PACKET_DATA; 0; 1; 9] ctx0) as (r & Hr & H);
      [apply (bool_decide_unpack _); vm_compute; reflexivity|vm_compute; discriminate|].
    vm_compute in Hr. injection Hr as <-. exact H.
Defined.

(** ** Defects of the load test *)

(** The report of a round reads [v[1]]: with a single session, the first round
    that ends two seconds after the last report reads past the vector. *)
Theorem single_session_report_faults s a c sessions each r :
  l_ctxs s = [c] → 2000 ≤ u64 (l_clock s (l_n s) - last_hb r) →
  round_end sessions each r (World s a) = Err OutOfBounds.
Proof.
  intros Hc Ht. destruct s as [v sb n clk sk pl rv rd op snt]. cbn in Hc, Ht. subst v.
  unfold round_end, lcall, upd_load. run. cbn [l_ctxs l_clock l_n].
  set (r' := if _ =? _ then r else _).
  assert (last_hb r' = last_hb r) as -> by (unfold r'; by destruct (_ =? _)).
  apply Z.leb_le in Ht. rewrite Ht. reflexivity.
Qed.

Lemma single_session_report_faults_witness :
  round_end 1 3 (Relay 0 0 0) (World (load0 [ctx0] <| l_n := 2000%nat |>) al_good) = Err OutOfBounds.
Proof. apply (single_session_report_faults _ _ ctx0); [reflexivity|vm_compute; discriminate]. Defined.

(** The limit of 1400 bytes does not keep a message in one KCP segment: from
    1374 bytes of payload on it takes two. *)
Theorem payload_limit_fragments c :
  Z.of_nat (length (c_payload c)) ≤ 1400 →
  length (data_frags c) = if Z.of_nat (length (c_payload c)) <=? 1373 then 1%nat else 2%nat.
Proof.
  intros H. unfold data_frags. rewrite fragments_length. unfold frag_count.
  destruct (_ <=? 1376) eqn:E1, (_ <=? 1373) eqn:E2; b2p; try lia.
  replace ((_ + 1376 - 1) / 1376) with 2; [done|]. apply Z.div_unique with (3 + Z.of_nat (length (c_payload c)) - 1377); lia.
Qed.

Lemma payload_limit_fragments_witness :
  length (data_frags (MkCtx 3 None GW 7 true 3 0 0 0 (relay_payload 1400 0))) = 2%nat.
Proof.
  rewrite payload_limit_fragments; [vm_compute; reflexivity|vm_compute; discriminate].
Defined.

(** [load_test relay <sessions>] without a message count passes NULL to
    [strtoull]. *)
Theorem relay_needs_each fuel argv0 sessions env delay junk w :
  load_main fuel [argv0; str "relay"; sessions] env delay junk w = Err NullDeref.
Proof. reflexivity. Qed.

(** ** The echo server *)

(** C36. The echo server returns everything: for any arrivals and failed calls,
    each datagram of less than 65535 bytes is sent back to its sender
    unchanged, in the order of arrival, and nothing else is sent. *)
Theorem echo_returns_everything argv fd junk arrivals :
  0 ≤ fd → Z.of_nat (length junk) = BUF_SIZE →
  Forall (λ x, Z.of_nat (length x.2) < BUF_SIZE) (arrived_dgrams arrivals) →
  ∃ port s, echo_main argv fd true junk arrivals = Ok (inr (port, s)) ∧ es_sent s = arrived_dgrams arrivals.
Proof.
  intros Hfd Hj Ha. unfold echo_main. destruct (fd <? 0) eqn:E; b2p; [lia|]. cbn [negb].
  destruct (echo_loop_run arrivals junk (Srv [] []) Hj Ha) as (s & -> & Hs). eexists _, s. split; [reflexivity|done].
Qed.

Lemma echo_returns_everything_witness :
  ∃ port s, echo_main [] 3 true (replicate (Z.to_nat BUF_SIZE) 0)
      [Some (SockAddr 1 2, [1; 0; 3]); None; Some (SockAddr 4 5, [])] = Ok (inr (port, s)) ∧
    es_sent s = [(SockAddr 1 2, [1; 0; 3]); (SockAddr 4 5, [])].
Proof.
  apply (echo_returns_everything [] 3 (replicate (Z.to_nat BUF_SIZE) 0)
    [Some (SockAddr 1 2, [1; 0; 3]); None; Some (SockAddr 4 5, [])]).
  - lia.
  - rewrite length_replicate. apply Z2Nat.id. unfold BUF_SIZE. lia.
  - apply (bool_decide_unpack _). vm_compute. reflexivity.
Defined.
