(* ===== verification/ClientFacts.v ===== *)
(** * The client runs without a fault, ends, and leaves nothing behind *)

From S2P Require Import Prelude CRuntime IkcpData Ikcp IkcpRecv IkcpApi IkcpBytes IkcpTimer.
From S2P Require Import Decimal Tunnel MemPool KvClient Session Gateway GatewayInv GatewayRun Client.

(** The bytes of the datagrams the first [n] calls may have delivered. *)
Definition delivered (recv : nat → option (sockaddr_in * list Z)) (n : nat) : Z :=
  Z.of_nat (sum_list_with (λ i, match recv i with Some (_, b) => length b | None => 0%nat end) (seq 0 n)).

Lemma delivered_S recv n :
  delivered recv (S n) = delivered recv n + Z.of_nat (match recv n with Some (_, b) => length b | None => 0%nat end).
Proof.
  unfold delivered. rewrite seq_S, sum_list_with_app. cbn [sum_list_with foldr]. rewrite Nat.add_0_l.
  destruct (recv n) as [[? b]|]; lia.
Qed.

Lemma delivered_mono recv m n : (m ≤ n)%nat → delivered recv m ≤ delivered recv n.
Proof. induction 1 as [|n _ IH]; [lia|]. rewrite delivered_S. lia. Qed.

(** The clock does not run backwards, and two readings in a row are not ages
    apart. *)
Definition steady (clock : nat → Z) : Prop :=
  (∀ m n, (m ≤ n)%nat → clock m ≤ clock n) ∧ ∀ m, clock (S m) ≤ clock m + 2 ^ 59.

Lemma steady_far clock m n : steady clock → (m ≤ n ≤ m + 4)%nat → clock n ≤ clock m + 2 ^ 61.
Proof.
  intros [Hm Hg] Hn. pose proof (Hm n (S (S (S (S m)))) ltac:(lia)).
  pose proof (Hg m). pose proof (Hg (S m)). pose proof (Hg (S (S m))). pose proof (Hg (S (S (S m)))). lia.
Qed.

Section client.
Context (clock : nat → Z) (select : nat → Z) (recv : nat → option (sockaddr_in * list Z)).
Context (base : Z).

Definition calls (w : world TunnelClient) : nat := cs_n (tc_sys (w_eng w)).

(** A client on that system with descriptor [fd], whose buffer is whole. *)
Record tc_base (fd : Z) (w : world TunnelClient) : Prop := {
  tb_clock : cs_clock (tc_sys (w_eng w)) = clock;
  tb_select : cs_select (tc_sys (w_eng w)) = select;
  tb_recv : cs_recv (tc_sys (w_eng w)) = recv;
  tb_wbuf : Z.of_nat (length (tc_wbuf (w_eng w))) = WBUF;
  tb_fd : tc_fd (w_eng w) = fd ∧ 0 ≤ fd;
  tb_open : cs_open (tc_sys (w_eng w)) = [fd];
}.

(** A connected client: [N] bounds what was sent and what the network may
    have put in. *)
Definition tc_ok (fd N : Z) (w : world TunnelClient) : Prop :=
  tc_base fd w ∧ ∃ k, tc_kcp (w_eng w) = Some k ∧
    bsession base (N + delivered recv (calls w)) (World k (w_al w)).

(** ** System calls *)

Lemma csyscall_run {A} (f : csys → nat → A) c a :
  csyscall f (World c a) =
    Ok (f (tc_sys c) (cs_n (tc_sys c)), World (c <| tc_sys := tc_sys c <| cs_n := S (cs_n (tc_sys c)) |> |>) a).
Proof. done. Qed.

Lemma tick_base {A} (f : csys → nat → A) fd w :
  tc_base fd w → safe (csyscall f) w (λ x w', tc_base fd w' ∧ x = f (tc_sys (w_eng w)) (calls w) ∧
    calls w' = S (calls w) ∧ tc_kcp (w_eng w') = tc_kcp (w_eng w) ∧ w_al w' = w_al w ∧
    tc_gw (w_eng w') = tc_gw (w_eng w) ∧ cs_sent (tc_sys (w_eng w')) = cs_sent (tc_sys (w_eng w))).
Proof.
  destruct w as [c a]. intros [H1 H2 H3 H4 H5 H6]. eexists _, _. split; [apply csyscall_run|].
  split; [by constructor|done].
Qed.

(** A call counts, and nothing else changes. *)
Lemma csyscall_ok {A} (f : csys → nat → A) fd N w :
  tc_ok fd N w → safe (csyscall f) w (λ x w', tc_ok fd N w' ∧ x = f (tc_sys (w_eng w)) (calls w) ∧
    calls w' = S (calls w)).
Proof.
  intros (Hb & k & Hk & Hs). eapply safe_mono; [by apply tick_base|].
  intros x w' (Hb' & -> & Hc & Ek & Ea & _). split; [|done]. split; [done|]. exists k. rewrite Ek, Ea.
  split; [done|]. eapply bsession_mono; [|exact Hs]. rewrite Hc, delivered_S. lia.
Qed.

Lemma csend_ok fd N w b : tc_ok fd N w → safe (csend b) w (λ _ w', tc_ok fd N w' ∧ calls w' = calls w).
Proof.
  destruct w as [c a]. intros ([H1 H2 H3 H4 H5 H6] & k & Hk & Hs). eexists _, _. split; [reflexivity|].
  split; [|done]. split; [by constructor|]. by exists k.
Qed.

Lemma output_ok fd N w out : tc_ok fd N w → safe (tc_output out) w (λ _ w', tc_ok fd N w' ∧ calls w' = calls w).
Proof.
  revert w. induction out as [|b out IH]; intros w Hok; cbn [tc_output]; [by apply safe_ret|].
  apply safe_bind. eapply safe_mono; [by apply csend_ok|]. intros ? w1 [H1 E1].
  eapply safe_mono; [by apply IH|]. intros ? w2 [H2 E2]. split; [done|congruence].
Qed.

(** ** KCP calls *)

Lemma with_kcp_ok {A} (m : K A) fd N d w (Q : A → Prop) :
  tc_ok fd N w →
  (∀ k a n, n = N + delivered recv (calls w) → bsession base n (World k a) →
     ∃ x w', m (World k a) = Ok (x, w') ∧ bsession base (n + d) w' ∧ Q x) →
  safe (with_kcp_ m) w (λ x w', tc_ok fd (N + d) w' ∧ calls w' = calls w ∧ Q x).
Proof.
  destruct w as [c a]. intros ([H1 H2 H3 H4 H5 H6] & k & Hk & Hs) Hm. cbn [w_eng w_al] in *.
  destruct (Hm k a _ eq_refl Hs) as (x & [k' a'] & Hr & Hs' & HQ).
  unfold safe, with_kcp_. cbn [w_eng w_al]. rewrite Hk, Hr. eexists _, _. split; [reflexivity|].
  split; [|done]. split; [by constructor|]. exists k'. split; [done|].
  eapply bsession_mono; [|exact Hs']. unfold calls. cbn. lia.
Qed.

(** Calls that hand out datagrams. *)
Lemma kcp_out_ok (m : K (list (list Z))) fd N w :
  tc_ok fd N w →
  (∀ k a n, bsession base n (World k a) → ∃ x w', m (World k a) = Ok (x, w') ∧ bsession base n w') →
  safe (out ← with_kcp_ m; tc_output out) w (λ _ w', tc_ok fd N w' ∧ calls w' = calls w).
Proof.
  intros Hok Hm. apply safe_bind. eapply safe_mono; [eapply (with_kcp_ok m fd N 0 w (λ _, True)); [done|]|].
  - intros k a n _ Hs. destruct (Hm k a n Hs) as (x & w' & Hr & Hs'). exists x, w'. by rewrite Z.add_0_r.
  - intros out w1 (H1 & E1 & _). rewrite Z.add_0_r in H1.
    eapply safe_mono; [by apply (output_ok fd N)|]. intros ? w2 [H2 E2]. split; [done|congruence].
Qed.

(** The start of [kcp_pump] and [send_tun]. *)
Lemma update_ok {A} (rest : T A) fd N w Q :
  tc_ok fd N w →
  (∀ w', tc_ok fd N w' → calls w' = S (calls w) → safe rest w' Q) →
  safe (t ← csyscall cs_clock; out ← with_kcp_ (ikcp_update (now32 t)); _ ← tc_output out; rest) w Q.
Proof.
  intros Hok Hrest. apply safe_bind. eapply safe_mono; [by apply (csyscall_ok cs_clock fd N)|].
  intros t w1 (H1 & _ & E1).
  assert (safe (out ← with_kcp_ (ikcp_update (now32 t)); tc_output out) w1
    (λ _ w', tc_ok fd N w' ∧ calls w' = calls w1)) as (u & w2 & Hr & H2 & E2).
  { apply kcp_out_ok; [done|]. intros k a n Hs. apply bupdate; [done|]. unfold now32, u32. by apply Z.mod_pos_bound. }
  destruct (Hrest w2 H2 ltac:(lia)) as (x & w3 & H3 & HQ). exists x, w3. split; [|done].
  unfold mbind, prog_bind in *. destruct (with_kcp_ _ w1) as [[out w1']|]; [|done]. rewrite Hr. exact H3.
Qed.

Lemma pump_ok fd N w : tc_ok fd N w → safe kcp_pump w (λ _ w', tc_ok fd N w' ∧ calls w' = S (calls w)).
Proof.
  intros Hok. unfold kcp_pump. apply (update_ok _ fd N w); [done|]. intros w1 H1 E1.
  eapply safe_mono; [apply (kcp_out_ok _ fd N w1 H1); intros k a n Hs; by apply bflush|].
  intros ? w2 [H2 E2]. split; [done|congruence].
Qed.

Context (D : Z) (HD : ∀ n, delivered recv n ≤ D).

Lemma send_tun_ok fd N w pkt n :
  tc_ok fd N w → 0 ≤ n ≤ Z.of_nat (length pkt) → n < 2 ^ 31 → N + D + 128 < 2 ^ 31 →
  safe (send_tun pkt n) w (λ _ w', tc_ok fd (N + 128) w' ∧ calls w' = S (calls w)).
Proof.
  intros Hok Hn Hn2 HN. unfold send_tun. apply (update_ok _ fd N w); [done|]. intros w1 H1 E1.
  apply safe_bind. eapply safe_mono; [eapply (with_kcp_ok _ fd N 128 w1 (λ _, True)); [done|]|].
  - intros k a m -> Hs. pose proof (HD (calls w1)).
    assert (Z.of_nat (length (take (Z.to_nat n) pkt)) = n) as El by (rewrite length_take; lia).
    destruct (bsend base _ k a (take (Z.to_nat n) pkt) Hs) as (r & w' & Hr & Hs'); [lia..|].
    rewrite El in Hr. by exists r, w'.
  - intros ? w2 (H2 & E2 & _).
    eapply safe_mono; [apply (kcp_out_ok _ fd _ w2 H2); intros k a m Hs; by apply bflush|].
    intros ? w3 [H3 E3]. split; [done|congruence].
Qed.

(** Packing into the whole buffer and sending. *)
Lemma pack_and_send_ok pack fd N w sz :
  tc_ok fd N w → 0 ≤ sz ≤ WBUF → N + D + 128 < 2 ^ 31 →
  (∀ out, Z.of_nat (length out) = WBUF → ∃ buf, pack out = Ok (sz, buf) ∧ length buf = length out) →
  safe (pack_and_send pack) w (λ _ w', tc_ok fd (N + 128) w' ∧ calls w' = S (calls w)).
Proof.
  destruct w as [c a]. intros Hok Hsz HN Hp. unfold pack_and_send. apply safe_bind.
  exists c, (World c a). split; [done|]. destruct (Hp (tc_wbuf c) (tb_wbuf _ _ (proj1 Hok))) as (buf & Hr & Hl).
  apply safe_bind. eapply lift_safe; [exact Hr|]. cbn beta iota. apply safe_bind. eexists _, _. split; [reflexivity|].
  assert (tc_ok fd N (World (c <| tc_wbuf := buf |>) a)) as Hok'.
  { destruct Hok as ([H1 H2 H3 H4 H5 H6] & k & Hk & Hs). cbn [w_eng w_al] in *. split; [|by exists k].
    constructor; try done. cbn. by rewrite Hl. }
  pose proof (tb_wbuf _ _ (proj1 Hok')) as Hb. cbn in Hb. unfold WBUF in *.
  eapply safe_mono; [apply (send_tun_ok fd N (World (c <| tc_wbuf := buf |>) a) buf sz); [done|lia..]|].
  intros ? w' [H1 E1]. split; [done|]. exact E1.
Qed.

Lemma open_route_ok fd N w route :
  tc_ok fd N w → strlen route ≤ ROUTE_MAX → N + D + 128 < 2 ^ 31 →
  safe (open_route route) w (λ b w', b = true ∧ tc_ok fd (N + 128) w').
Proof.
  intros Hok Hr HN. unfold open_route. rewrite (proj2 (Z.ltb_ge _ _) Hr). unfold strlen, ROUTE_MAX in *.
  apply safe_bind. unfold u8. rewrite Z.mod_small by lia.
  eapply safe_mono; [apply (pack_and_send_ok _ fd N w (2 + Z.of_nat (length route)) Hok); [unfold WBUF; lia|done|]|].
  - intros out Ho. unfold WBUF in Ho. rewrite pack_connect_run by lia. eexists. split; [reflexivity|].
    cbn [length]. rewrite length_app, length_take, length_drop. lia.
  - intros ? w1 [H1 _]. by apply safe_ret.
Qed.

Lemma send_data_ok fd N w text :
  tc_ok fd N w → strlen text ≤ WBUF - 3 → N + D + 128 < 2 ^ 31 →
  safe (send_data text (u16 (strlen text))) w (λ _ w', tc_ok fd (N + 128) w').
Proof.
  intros Hok Ht HN. unfold send_data, strlen, WBUF in *. unfold u16. rewrite Z.mod_small by lia.
  eapply safe_mono; [apply (pack_and_send_ok _ fd N w (3 + Z.of_nat (length text)) Hok); [unfold WBUF; lia|done|]|].
  - intros out Ho. unfold WBUF in Ho. rewrite pack_data_run by lia. eexists. split; [reflexivity|].
    cbn [length be16 app]. rewrite length_app, length_take, length_drop. lia.
  - by intros ? w1 [H1 _].
Qed.

Lemma send_close_ok fd N w :
  tc_ok fd N w → N + D + 128 < 2 ^ 31 → safe send_close w (λ _ w', tc_ok fd (N + 128) w').
Proof.
  intros Hok HN. unfold send_close. apply safe_bind.
  eapply safe_mono; [apply (pack_and_send_ok _ fd N w 1 Hok); [unfold WBUF; lia|done|]|].
  - intros [|x out] Ho; [done|]. by exists (PACKET_CLOSE :: out).
  - intros ? w1 [H1 _]. eapply safe_mono; [by apply (pump_ok fd (N + 128) w1)|]. by intros ? w2 [H2 _].
Qed.

(** ** Waiting for a reply *)

(** A datagram that arrives is put into the session. *)
Lemma receive_ok fd N w :
  tc_ok fd N w → N + D < 2 ^ 31 →
  safe (d ← csyscall cs_recv;
        match d with
        | Some (_, b :: bs) => _ ← with_kcp_ (ikcp_input (take (Z.to_nat 65535) (b :: bs))); kcp_pump
        | _ => mret tt
        end) w (λ _ w', tc_ok fd N w' ∧ (calls w ≤ calls w' ≤ calls w + 2)%nat).
Proof.
  intros (Hb & k & Hk & Hs) HN. apply safe_bind. eapply safe_mono; [by apply (tick_base cs_recv fd w)|].
  intros d w1 (Hb1 & Ed & Hc & Ek & Ea & _). rewrite (tb_recv _ _ Hb) in Ed.
  assert (N + delivered recv (calls w) ≤ N + delivered recv (calls w1)) as Hle by (rewrite Hc, delivered_S; lia).
  assert (tc_ok fd N w1) as H1.
  { split; [done|]. exists k. rewrite Ek, Ea. split; [done|]. by eapply bsession_mono. }
  destruct d as [[from [|b bs]]|]; try (apply safe_ret; split; [done|lia]).
  set (data := take (Z.to_nat 65535) (b :: bs)).
  assert (Z.of_nat (length data) ≤ delivered recv (calls w1) - delivered recv (calls w)) as Hd.
  { rewrite Hc, delivered_S, <- Ed. unfold data. rewrite length_take. lia. }
  destruct w1 as [c1 a1]. cbn [w_eng w_al] in *.
  pose proof (HD (calls (World c1 a1))).
  destruct (binput base (N + delivered recv (calls w)) k a1 data) as (r & [k2 a2] & Hr & Hs2);
    [by rewrite Ea|lia|].
  apply safe_bind. exists r, (World (c1 <| tc_kcp := Some k2 |>) a2). split.
  { unfold with_kcp_. cbn [w_eng w_al]. rewrite Ek, Hk, Hr. done. }
  assert (tc_ok fd N (World (c1 <| tc_kcp := Some k2 |>) a2)) as H2.
  { split; [by destruct Hb1; constructor|]. exists k2. split; [done|].
    eapply bsession_mono; [|exact Hs2]. unfold calls in *. cbn in *. lia. }
  eapply safe_mono; [by apply (pump_ok fd N)|]. intros ? w3 [H3 E3]. split; [done|].
  unfold calls in *. cbn in *. lia.
Qed.

(** [wait_loop] ends by the clock. *)
Lemma wait_loop_ok fuel fd N w start timeout :
  tc_ok fd N w → 0 ≤ timeout → N + D < 2 ^ 31 →
  (∀ m, (calls w + fuel ≤ m)%nat → start + timeout ≤ clock m) →
  steady clock → start ≤ clock (calls w) < start + timeout + 2 ^ 61 → timeout < 2 ^ 61 →
  safe (wait_loop (S fuel) start timeout) w (λ r w', tc_ok fd N w' ∧
    match r with Some out => 0 < Z.of_nat (length out) ≤ 65535 | None => True end).
Proof.
  intros Hok Ht HN Hend [Hmono Hgap] Hrange Hto. revert w Hok Hend Hrange. induction fuel as [|fuel IH]; intros w Hok Hend Hrange;
    cbn [wait_loop]; apply safe_bind; (eapply safe_mono; [by apply (pump_ok fd N)|]); intros ? w1 [H1 E1].
  all: apply safe_bind; (eapply safe_mono;
    [eapply (with_kcp_ok (ikcp_recv 65535) fd N 0 w1
       (λ x, x.1 ≤ 0 ∨ 0 < Z.of_nat (length x.2) ≤ 65535)); [done|]|]).
  1, 3: intros k a n -> Hs; pose proof (HD (calls w1));
    destruct (brecv base _ k a 65535 Hs) as (r & bs & w' & Hr & Hs' & Hcase); [lia..|];
    rewrite Z.add_0_r; exists (r, bs), w'; (split; [done|]); (split; [done|]); cbn; lia.
  all: intros [got out] w2 (H2 & E2 & Hg); cbn [fst snd] in Hg; rewrite Z.add_0_r in H2.
  all: destruct (0 <? got) eqn:Eg; b2p; [apply safe_ret; split; [done|lia]|].
  all: apply safe_bind; (eapply safe_mono; [by apply (csyscall_ok cs_clock fd N)|]); intros t w3 (H3 & -> & E3).
  all: rewrite (tb_clock _ _ (proj1 H2)); cbv zeta.
  all: assert (i64 (clock (calls w2) - start) = clock (calls w2) - start) as ->
    by (pose proof (Hmono (calls w) (calls w2) ltac:(lia)); pose proof (Hgap (calls w));
        replace (calls w2) with (S (calls w)) in * by lia; unfold i64; rewrite Z.mod_small; lia).
  - specialize (Hend (calls w2) ltac:(lia)). rewrite (proj2 (Z.leb_le _ _)) by lia. by apply safe_ret.
  - destruct (_ <=? 0) eqn:Erem; b2p; [by apply safe_ret|]. apply safe_bind.
    eapply safe_mono; [by apply (csyscall_ok cs_select fd N)|]. intros s w4 (H4 & _ & E4). apply safe_bind.
    assert (∀ w5, tc_ok fd N w5 ∧ (calls w4 ≤ calls w5 ≤ calls w4 + 2)%nat → safe (wait_loop (S fuel) start timeout) w5
      (λ r w', tc_ok fd N w' ∧ match r with Some out => 0 < Z.of_nat (length out) ≤ 65535 | None => True end)) as Hnext.
    { intros w5 [H5 E5]. apply IH; [done|intros m Hm; apply Hend; lia|].
      pose proof (Hmono (calls w) (calls w5) ltac:(lia)).
      pose proof (steady_far clock (calls w2) (calls w5) (conj Hmono Hgap) ltac:(lia)). lia. }
    destruct (0 <? s); [|apply safe_ret; apply Hnext; split; [done|lia]].
    eapply safe_mono; [by apply (receive_ok fd N)|]. intros ? w5 H5. by apply Hnext.
Qed.

(** ** One message *)

Lemma print_echo_ok buf : ∃ e, print_echo buf (Z.of_nat (length buf)) = Ok e.
Proof.
  unfold print_echo. destruct (parse_total buf (Z.of_nat (length buf)) ltac:(lia)) as (r & -> & Hr).
  cbn [mbind result_bind]. destruct r as [[[t d] len]|]; [|by eexists].
  destruct Hr as [_ [(-> & -> & H3 & Hl & _)|(Ht & _)]].
  - cbn [Z.eqb PACKET_DATA Pos.eqb]. cbv zeta. rewrite load_run; [by eexists|]. destruct (_ <? _) eqn:E; b2p; lia.
  - rewrite (proj2 (Z.eqb_neq _ _) Ht). by eexists.
Qed.

Context (R : nat) (Hpaced : paced R clock) (Hsteady : steady clock).

Lemma roundtrip_ok fd N w text :
  tc_ok fd N w → strlen text ≤ WBUF - 3 → N + D + 128 < 2 ^ 31 →
  safe (roundtrip (S (3000 * R)) text) w (λ _ w', tc_ok fd (N + 128) w').
Proof.
  intros Hok Ht HN. unfold roundtrip. apply safe_bind. eapply safe_mono; [by apply (send_data_ok fd N)|].
  intros ? w1 H1. apply safe_bind. unfold wait_reply. apply safe_bind.
  eapply safe_mono; [by apply (csyscall_ok cs_clock fd (N + 128))|]. intros t w2 (H2 & -> & E2).
  rewrite (tb_clock _ _ (proj1 H1)).
  eapply safe_mono; [apply (wait_loop_ok (3000 * R) fd (N + 128) w2 (clock (calls w1)) 3000 H2); try done; try lia|].
  - intros m Hm. pose proof (paced_far R clock (calls w1) 3000 Hpaced).
    destruct Hpaced as [Hmono _]. specialize (Hmono (calls w1 + 3000 * R)%nat m ltac:(lia)). lia.
  - rewrite E2. pose proof (steady_far clock (calls w1) (S (calls w1)) Hsteady ltac:(lia)).
    destruct Hsteady as [Hmono _]. specialize (Hmono (calls w1) (S (calls w1)) ltac:(lia)). lia.
  - intros [rbuf|] w3 [H3 _]; [|by apply safe_ret]. apply safe_bind.
    destruct (print_echo_ok rbuf) as (e & He). eapply lift_safe; [exact He|]. by apply safe_ret.
Qed.

(** ** Registration *)

Lemma register_loop_ok n fd w reg :
  tc_base fd w →
  safe (register_loop n reg) w (λ r w', tc_base fd w' ∧ tc_kcp (w_eng w') = tc_kcp (w_eng w) ∧ w_al w' = w_al w ∧
    tc_gw (w_eng w') = tc_gw (w_eng w) ∧
    (∃ j, (j ≤ n)%nat ∧ (r = None → j = n) ∧
      cs_sent (tc_sys (w_eng w')) = cs_sent (tc_sys (w_eng w)) ++ replicate j (tc_gw (w_eng w), reg)) ∧
    (∀ conv, r = Some conv → ∃ i bytes, recv i = Some (tc_gw (w_eng w), bytes) ∧
       read_registered (take 16 bytes) (Z.of_nat (length (take 16 bytes))) = Ok (Some conv))).
Proof.
  revert w. induction n as [|n IH]; intros w Hb; cbn [register_loop].
  { apply safe_ret. split_and!; try done. exists 0%nat. split_and!; try done. by rewrite app_nil_r. }
  destruct w as [c a]. apply safe_bind. set (o1 := tc_sys c <| cs_sent := cs_sent (tc_sys c) ++ [(tc_gw c, reg)] |>).
  exists tt, (World (c <| tc_sys := o1 |>) a). split; [done|].
  assert (tc_base fd (World (c <| tc_sys := o1 |>) a)) as H1 by (by destruct Hb; constructor).
  (* another attempt *)
  assert (∀ w1, tc_base fd w1 → tc_kcp (w_eng w1) = tc_kcp c → w_al w1 = a → tc_gw (w_eng w1) = tc_gw c →
    cs_sent (tc_sys (w_eng w1)) = cs_sent (tc_sys c) ++ [(tc_gw c, reg)] →
    safe (register_loop n reg) w1 (λ r w', tc_base fd w' ∧ tc_kcp (w_eng w') = tc_kcp c ∧ w_al w' = a ∧
    tc_gw (w_eng w') = tc_gw c ∧
    (∃ j, (j ≤ S n)%nat ∧ (r = None → j = S n) ∧
      cs_sent (tc_sys (w_eng w')) = cs_sent (tc_sys c) ++ replicate j (tc_gw c, reg)) ∧
    (∀ conv, r = Some conv → ∃ i bytes, recv i = Some (tc_gw c, bytes) ∧
       read_registered (take 16 bytes) (Z.of_nat (length (take 16 bytes))) = Ok (Some conv)))) as Hnext.
  { intros w1 Hb1 Ek Ea Eg Es. eapply safe_mono; [by apply IH|].
    intros r w2 (Hb2 & Ek2 & Ea2 & Eg2 & (j & Hj & Hjn & Ej) & Hr). split_and!; try congruence; try done.
    - exists (S j). split; [lia|]. split; [intros Hn; by rewrite Hjn|]. rewrite Ej, Es, Eg, <- app_assoc. reflexivity.
    - by rewrite Eg in Hr. }
  apply safe_bind. eapply safe_mono; [by apply (tick_base cs_select fd)|].
  intros s w2 (H2 & _ & E2 & K2 & A2 & G2 & S2). destruct (_ <=? 0); [by apply Hnext|].
  apply safe_bind. eapply safe_mono; [by apply (tick_base cs_recv fd)|].
  intros d w3 (H3 & Ed & E3 & K3 & A3 & G3 & S3). rewrite (tb_recv _ _ H2) in Ed.
  assert (tc_kcp (w_eng w3) = tc_kcp c ∧ w_al w3 = a ∧ tc_gw (w_eng w3) = tc_gw c ∧
    cs_sent (tc_sys (w_eng w3)) = cs_sent (tc_sys c) ++ [(tc_gw c, reg)]) as (K & A & G3' & S3')
    by (split_and!; etrans; eassumption).
  destruct d as [[from bytes]|]; [|by apply Hnext]. cbv zeta. destruct (_ <=? 0); [by apply Hnext|].
  apply safe_bind. exists (w_eng w3), w3. split; [done|]. destruct (_ || _) eqn:Ef; [by apply Hnext|].
  assert (from = tc_gw c) as ->.
  { apply orb_false_iff in Ef as [F1 F2]. apply negb_false_iff in F1, F2. rewrite G3' in *.
    apply same_addr_eq. unfold same_addr. by rewrite F1, F2. }
  apply safe_bind. assert (∃ r, read_registered (take 16 bytes) (Z.of_nat (length (take 16 bytes))) = Ok r) as (r & Hr).
  { unfold read_registered. destruct (_ <? _) eqn:El; b2p; [by eexists|].
    destruct (take 16 bytes) as [|b0 bs]; cbn [length] in El; [lia|]. cbn [byte_at lookup list_lookup mbind result_bind].
    destruct (negb _); [by eexists|]. rewrite load_run by (cbn [length]; lia). by eexists. }
  eapply lift_safe; [exact Hr|]. destruct r as [conv|]; [|by apply Hnext]. apply safe_ret.
  split_and!; try done.
  - exists 1%nat. split; [lia|]. split; [done|]. exact S3'.
  - intros conv' [= <-]. by eexists _, bytes.
Qed.

(** ** Connecting and disconnecting *)

(** A client with nothing open and nothing allocated. *)
Definition tc_clean (w : world TunnelClient) : Prop :=
  tc_kcp (w_eng w) = None ∧ tc_fd (w_eng w) < 0 ∧ cs_open (tc_sys (w_eng w)) = [] ∧ al_live (w_al w) = base.

Lemma created_ok fd c conv a :
  al_total a → al_live a = base → tc_base fd (World c a) → tc_kcp c = None → 0 ≤ delivered recv (cs_n (tc_sys c)) →
  safe (k ← ikcp_create conv;
        _ ← upd_tc (λ c, c <| tc_kcp := k |>);
        _ ← with_kcp_ ikcp_setoutput;
        _ ← with_kcp_ (ikcp_nodelay 1 10 2 1);
        mret true) (World c a)
    (λ b w', b = true ∧ tc_ok fd 0 w' ∧ w' = World (c <| tc_kcp := Some (new_kcp conv) |>) (al_next (al_next a 1) 1)).
Proof.
  intros Ha Hl Hb Hk Hd. unfold ikcp_create, ikcp_malloc.
  exists true, (World (c <| tc_kcp := Some (new_kcp conv) |>) (al_next (al_next a 1) 1)). split.
  { run. rewrite malloc_total by done. run. rewrite malloc_total by auto with ga. run. reflexivity. }
  split; [done|]. split; [|done]. split; [by destruct Hb; constructor|]. exists (new_kcp conv). split; [done|].
  pose proof (new_kcp_live conv _ Hd (al_next (al_next a 1) 1) ltac:(auto with ga)) as H.
  rewrite new_kcp_blocks in H. cbn [al_live al_next] in H. replace (al_live a + 1 + 1 - 2) with base in H by lia.
  exact H.
Qed.

Lemma connect_ok ip port junk o a :
  cs_clock o = clock → cs_select o = select → cs_recv o = recv → cs_open o = [] →
  Z.of_nat (length junk) = WBUF → al_total a → al_live a = base →
  safe (tc_connect ip port) (World (new_client junk o) a)
    (λ b w', if (b : bool) then ∃ fd, tc_ok fd 0 w' else tc_clean w').
Proof.
  intros E1 E2 E3 E4 Hj Ha Hl. unfold tc_connect, csocket. apply safe_bind. apply safe_bind.
  eexists _, _. split; [apply csyscall_run|]. cbn [new_client tc_sys]. set (fd := cs_socket o (cs_n o)).
  destruct (fd <? 0) eqn:Ef; b2p.
  { apply safe_bind, safe_ret, safe_ret, safe_bind. eexists _, _. split; [reflexivity|].
    rewrite (proj2 (Z.ltb_lt _ _) Ef). apply safe_ret. by split_and!. }
  apply safe_bind. eexists _, _. split; [reflexivity|]. apply safe_ret, safe_bind. eexists _, _. split; [reflexivity|].
  rewrite (proj2 (Z.ltb_ge _ _)) by lia. apply safe_bind. eexists _, _. split; [reflexivity|]. apply safe_bind.
  unfold register_with_gateway. apply safe_bind. eapply lift_safe; [reflexivity|]. cbn beta iota.
  eapply safe_mono; [apply (register_loop_ok 5 fd)|].
  { constructor; try done. cbn. by rewrite E4. }
  intros r [c1 a1] (Hb & Ek & Ea & _). cbn [w_eng w_al] in *. subst a1. destruct r as [conv|].
  - apply safe_bind. eexists _, _. split; [reflexivity|].
    eapply safe_mono; [apply (created_ok fd (c1 <| tc_conv := conv |>) conv a)|]; try done.
    + by destruct Hb; constructor.
    + unfold delivered. lia.
    + intros b w' (-> & H & _). by exists fd.
  - apply safe_bind. eexists _, _. split; [reflexivity|]. apply safe_bind. eexists _, _. split; [reflexivity|].
    apply safe_ret. split_and!; try done. cbn. pose proof (tb_open _ _ Hb) as Ho. cbn in Ho. rewrite Ho.
    rewrite filter_cons_False; [done|]. by intros [].
Qed.

Lemma disconnect_ok fd N w : tc_ok fd N w → safe tc_disconnect w (λ _ w', tc_clean w').
Proof.
  destruct w as [c a]. intros ([H1 H2 H3 H4 [H5 H5'] H6] & k & Hk & Hs). cbn [w_eng w_al] in *.
  apply bsession_owns in Hs as [Hb Ha].
  destruct (release_run (al_live a - blocks k) k a) as (k' & a' & Hr & Hlive & _); [unfold owns; cbn; lia|].
  unfold tc_disconnect. apply safe_bind. exists c, (World c a). split; [done|]. rewrite Hk. apply safe_bind.
  apply safe_bind. exists tt, (World (c <| tc_kcp := Some k' |>) a'). split.
  { unfold with_kcp_. cbn [w_eng w_al]. by rewrite Hk, Hr. }
  eexists _, _. split; [reflexivity|]. rewrite H5. rewrite (proj2 (Z.ltb_ge _ _)) by lia. apply safe_bind.
  eexists _, _. split; [reflexivity|]. eexists _, _. split; [reflexivity|]. unfold tc_clean. cbn. rewrite H6.
  split_and!; try done; [|congruence]. rewrite filter_cons_False; [done|]. by intros [].
Qed.

(** A failed [connect] leaves nothing for the destructor. *)
Lemma clean_disconnect w : tc_clean w → safe tc_disconnect w (λ _ w', tc_clean w').
Proof.
  destruct w as [c a]. intros (Hk & Hf & Ho & Hl). cbn [w_eng w_al] in *. unfold tc_disconnect. apply safe_bind.
  exists c, (World c a). split; [done|]. rewrite Hk. apply safe_bind, safe_ret.
  rewrite (proj2 (Z.ltb_lt _ _) Hf). by apply safe_ret.
Qed.

(** ** The whole program *)

(** The messages a run may send. *)
Definition messages (input : cstr + list cstr) : list cstr := match input with inl text => [text] | inr lines => lines end.

Lemma tc_ok_mono fd N N' w : N ≤ N' → tc_ok fd N w → tc_ok fd N' w.
Proof. intros HN (Hb & k & Hk & Hs). split; [done|]. exists k. split; [done|]. eapply bsession_mono; [|exact Hs]. lia. Qed.

Lemma interactive_ok fd lines N w :
  tc_ok fd N w → Forall (λ l, strlen l ≤ WBUF - 3) lines → N + D + 128 * Z.of_nat (length lines) < 2 ^ 31 →
  safe (interactive (S (3000 * R)) lines) w (λ _ w', tc_ok fd (N + 128 * Z.of_nat (length lines)) w').
Proof.
  revert N w. induction lines as [|line lines IH]; intros N w Hok Hl HN; cbn [interactive length] in *.
  { apply safe_ret. by rewrite Z.add_0_r. }
  apply Forall_cons in Hl as [Hline Hl]. destruct (bool_decide _).
  { eapply safe_mono; [apply (IH N w Hok Hl); lia|]. intros ? w1 H1. eapply tc_ok_mono; [|exact H1]. lia. }
  destruct (_ =? 0); [apply safe_ret; eapply tc_ok_mono; [|exact Hok]; lia|]. apply safe_bind.
  eapply safe_mono; [apply (roundtrip_ok fd N w line Hok Hline); lia|]. intros e w1 H1. apply safe_bind.
  eapply safe_mono; [apply (IH (N + 128) w1 H1 Hl); lia|]. intros es w2 H2. apply safe_ret.
  eapply tc_ok_mono; [|exact H2]. lia.
Qed.

Lemma main_ok route input junk o a :
  cs_clock o = clock → cs_select o = select → cs_recv o = recv → cs_open o = [] →
  Z.of_nat (length junk) = WBUF → al_total a → al_live a = base →
  D + 128 * (2 + Z.of_nat (length (messages input))) < 2 ^ 31 → Forall (λ l, strlen l ≤ WBUF - 3) (messages input) →
  safe (client_main (S (3000 * R)) route input) (World (new_client junk o) a) (λ _ w', tc_clean w').
Proof.
  intros E1 E2 E3 E4 Hj Ha Hl HDb Ht. unfold client_main.
  destruct (_ <? _) eqn:Er; b2p; [by apply safe_ret|]. apply safe_bind.
  eapply safe_mono; [by apply connect_ok|]. intros b w1 H1.
  destruct b; cbn [negb].
  2: { apply safe_bind. eapply safe_mono; [by apply clean_disconnect|]. intros ? w2 H2. by apply safe_ret. }
  destruct H1 as (fd & H1). apply safe_bind. eapply safe_mono; [apply (open_route_ok fd 0 w1 route H1); lia|].
  intros b w2 (-> & H2). cbn [negb]. apply safe_bind.
  eapply (safe_mono _ _ (λ _ w, tc_ok fd (0 + 128 + 128 * Z.of_nat (length (messages input))) w)).
  - destruct input as [text|lines]; cbn [messages length] in *.
    + apply Forall_cons in Ht as [Ht _]. apply safe_bind.
      eapply safe_mono; [apply (roundtrip_ok fd (0 + 128) w2 text H2 Ht); lia|]. intros e w3 H3. by apply safe_ret.
    + apply (interactive_ok fd lines (0 + 128) w2 H2 Ht). lia.
  - intros e w3 H3. apply safe_bind.
    eapply safe_mono; [apply (send_close_ok fd _ w3 H3); lia|]. intros ? w4 H4. apply safe_bind.
    eapply safe_mono; [eapply (disconnect_ok fd); exact H4|]. intros ? w5 H5. by apply safe_ret.
Qed.
End client.
