(* ===== verification/ClientProps.v ===== *)
(** * Properties of the tunnel client, alone and with the gateway *)

From S2P Require Import Prelude CRuntime IkcpData Ikcp IkcpCodec IkcpRecv IkcpApi IkcpBytes IkcpTimer.
From S2P Require Import Decimal Tunnel MemPool KvClient Session Gateway.
From S2P Require Import GatewayInv GatewaySafe GatewayRun GatewayLoop GatewaySystem GatewayProps Client ClientFacts.

(** ** Registration, both ends *)

(** The endpoint a client takes for the gateway. *)
Definition gateway_addr (ip : cstr) (port : Z) : sockaddr_in := SockAddr (default 0 (inet_pton ip)) port.

Lemma register_answered n tc a reg c :
  0 < cs_select (tc_sys tc) (cs_n (tc_sys tc)) → 0 ≤ c < 2 ^ 32 →
  cs_recv (tc_sys tc) (S (cs_n (tc_sys tc))) = Some (tc_gw tc, PACKET_REGISTERED :: be32 c) →
  ∃ o', register_loop (S n) reg (World tc a) = Ok (Some c, World (tc <| tc_sys := o' |>) a) ∧
    cs_sent o' = cs_sent (tc_sys tc) ++ [(tc_gw tc, reg)].
Proof.
  intros Hsel Hc Hrecv. cbn [register_loop]. generalize (register_loop n reg) as rest. intros rest.
  set (o1 := tc_sys tc <| cs_sent := cs_sent (tc_sys tc) ++ [(tc_gw tc, reg)] |>).
  rewrite bind_run. change (csend reg (World tc a)) with (Ok (tt, World (tc <| tc_sys := o1 |>) a)). cbn beta iota.
  rewrite bind_run, csyscall_run. cbn beta iota.
  change (cs_select (tc_sys (tc <| tc_sys := o1 |>)) (cs_n (tc_sys (tc <| tc_sys := o1 |>))))
    with (cs_select (tc_sys tc) (cs_n (tc_sys tc))).
  rewrite (proj2 (Z.leb_gt _ _) Hsel), bind_run, csyscall_run. cbn beta iota.
  match goal with |- context [cs_recv ?s ?n] => change (cs_recv s n) with (cs_recv (tc_sys tc) (S (cs_n (tc_sys tc)))) end.
  rewrite Hrecv. cbn beta iota zeta. change (take 16 (PACKET_REGISTERED :: be32 c)) with (PACKET_REGISTERED :: be32 c).
  change (Z.of_nat (length (PACKET_REGISTERED :: be32 c))) with 5. change (5 <=? 0) with false. cbn iota.
  rewrite bind_run, get_eng_run. cbn beta iota.
  match goal with |- context [tc_gw ?s] => change (tc_gw s) with (tc_gw tc) end. rewrite !Z.eqb_refl. cbn [negb orb].
  rewrite bind_run. unfold lift. pose proof (read_pack_registered c [] Hc) as Hr. rewrite app_nil_r in Hr. rewrite Hr.
  eexists. split; [reflexivity|]. reflexivity.
Qed.

(** A client whose first REGISTER is answered. *)
Lemma connect_answered ip port junk o a c :
  0 ≤ cs_socket o (cs_n o) → 0 < cs_select o (S (cs_n o)) → 0 ≤ c < 2 ^ 32 → al_total a →
  cs_recv o (S (S (cs_n o))) = Some (gateway_addr ip port, PACKET_REGISTERED :: be32 c) →
  ∃ tc a', tc_connect ip port (World (new_client junk o) a) = Ok (true, World tc a') ∧ tc_conv tc = c ∧
    tc_kcp tc = Some (new_kcp c) ∧ cs_sent (tc_sys tc) = cs_sent o ++ [(gateway_addr ip port, [PACKET_REGISTER])].
Proof.
  intros Hfd Hsel Hc Ha Hrecv. unfold tc_connect, csocket. run. rewrite csyscall_run. cbn [new_client tc_sys].
  rewrite (proj2 (Z.ltb_ge _ _) Hfd). unfold upd_cs, upd_tc. run. rewrite (proj2 (Z.ltb_ge _ _) Hfd). run.
  unfold register_with_gateway. rewrite bind_run. unfold lift at 1.
  change (pack_register (replicate (Z.to_nat HEAD_LEN) 0)) with (Ok (A := Z * list Z) (1, [PACKET_REGISTER])).
  cbn beta iota. match goal with |- context [register_loop 5 ?r (World ?t a)] =>
    destruct (register_answered 4 t a r c) as (o' & Hrun & Hsent); [exact Hsel|exact Hc|exact Hrecv|] end.
  rewrite Hrun. run. unfold ikcp_create, ikcp_malloc. run. rewrite malloc_total by done. run.
  rewrite malloc_total by auto with ga. run. eexists _, _. split; [reflexivity|]. split_and!; [done..|]. exact Hsent.
Qed.

(** C21. The registration handshake agrees.  A REGISTER from a new endpoint
    makes the gateway create a session with a number [c] nobody has, and sends
    [c] back; a client that gets that very packet from the gateway as the answer
    to its first REGISTER connects with conversation [c], and both ends then have
    the same fresh KCP control block. *)
Theorem registration_handshake R L N l g a src ip port junk o ac :
  gw_inv R L N l (World g a) → N < 2 ^ 31 →
  (∀ c s, sessions_ (sman g) !! c = Some s → client_addr s ≠ src) →
  0 ≤ cs_socket o (cs_n o) → 0 < cs_select o (S (cs_n o)) → al_total ac →
  ∃ c g' a' pkt, register_client src (World g a) = Ok (tt, World g' a') ∧ sessions_ (sman g) !! c = None ∧
    sessions_ (sman g') = <[c := registered c src (sm_client_fd_ (sman g))]> (sessions_ (sman g)) ∧
    os_sent (os g') = os_sent (os g) ++ [Dgram (sm_client_fd_ (sman g)) src pkt] ∧
    (cs_recv o (S (S (cs_n o))) = Some (gateway_addr ip port, pkt) →
     ∃ tc ac', tc_connect ip port (World (new_client junk o) ac) = Ok (true, World tc ac') ∧ tc_conv tc = c ∧
       tc_kcp tc = ks_kcp (s_kcp (registered c src (sm_client_fd_ (sman g))))).
Proof.
  intros Hinv HN Hno Hfd Hsel Ha.
  destruct (register_run R L N l g a src Hinv HN) as (c & g' & a' & H1 & _ & Es & _ & _ & Hc).
  destruct Hc as [(s & Hs & _ & E & _)|(Hn & Hr & _ & E & _)]; [by destruct (Hno c s Hs)|].
  eexists c, g', a', _. split_and!; [done..|]. intros Hrecv.
  destruct (connect_answered ip port junk o ac c Hfd Hsel Hr Ha Hrecv) as (tc & ac' & H2 & E1 & E2 & _).
  by exists tc, ac'.
Qed.

(** A system that offers descriptor 3, is always readable, and on which the
    gateway's answer for conversation 1000 is waiting. *)
Definition csys0 : csys :=
  CSys 0 Z.of_nat (λ _, 3) (λ _, 1) (λ _, Some (SockAddr 2130706433 8000, PACKET_REGISTERED :: be32 1000)) [] [].

(** The first conversation of a gateway that has started is 1000. *)
Lemma started_answer :
  match register_client (SockAddr 1 2) (World (w_eng started) (w_al started)) with
  | Ok r => dg_bytes <$> last (os_sent (os (w_eng r.2)))
  | Err _ => None
  end = Some (PACKET_REGISTERED :: be32 1000).
Proof. vm_compute. reflexivity. Qed.

Lemma registration_handshake_witness :
  ∃ c g' a' tc ac', register_client (SockAddr 1 2) (World (w_eng started) (w_al started)) = Ok (tt, World g' a') ∧
    sessions_ (sman g') = <[c := registered c (SockAddr 1 2) (sm_client_fd_ (sman (w_eng started)))]>
      (sessions_ (sman (w_eng started))) ∧
    tc_connect (str "127.0.0.1") 8000 (World (new_client [] csys0) al_good) = Ok (true, World tc ac') ∧ tc_conv tc = c.
Proof.
  destruct (registration_handshake 1 0 0 all_free (w_eng started) (w_al started) (SockAddr 1 2) (str "127.0.0.1") 8000
    [] csys0 al_good) as (c & g' & a' & pkt & H1 & _ & H2 & H3 & H4).
  - destruct started_inv as [H _]. destruct started as [g a]. exact H.
  - reflexivity.
  - destruct started_inv as [_ H]. unfold table in H. intros c s Hs. rewrite H in Hs. destruct (lookup_empty_Some _ _ Hs).
  - cbn. lia.
  - cbn. lia.
  - apply al_good_total.
  - destruct H4 as (tc & ac' & H4 & H5 & _).
    + cbn [cs_recv csys0].
      pose proof started_answer as E. rewrite H1 in E. cbn [snd w_eng] in E. rewrite H3, last_snoc in E.
      injection E as E. rewrite E. reflexivity.
    + exists c, g', a', tc, ac'. split; [exact H1|]. split; [exact H2|]. split; [exact H4|exact H5].
Defined.

(** ** The client program *)

(** C22. The client program ends and cleans up, with a message on the command
    line and with the lines of standard input.  Assume that every allocation
    succeeds, that no message is longer than 65532 bytes, that the clock does
    not run backwards, that [R] system calls take at least a millisecond and two
    readings in a row are at most 2^59 ms apart, and that all datagrams the
    network may ever deliver, with 128 for every message and 256 more, have less
    than 2^31 bytes.  Then, whatever those datagrams are and whatever the other
    calls return, one run of [main] returns; afterwards every block it allocated
    is freed and its socket is closed. *)
Theorem client_ends_clean R D route input junk o a :
  al_total a → Z.of_nat (length junk) = WBUF → cs_open o = [] → paced R (cs_clock o) → steady (cs_clock o) →
  (∀ n, delivered (cs_recv o) n ≤ D) → D + 128 * (2 + Z.of_nat (length (messages input))) < 2 ^ 31 →
  Forall (λ m, strlen m ≤ WBUF - 3) (messages input) →
  ∃ x tc a', client_main (S (3000 * R)) route input (World (new_client junk o) a) = Ok (x, World tc a') ∧
    al_live a' = al_live a ∧ cs_open (tc_sys tc) = [].
Proof.
  intros Ha Hj Ho Hp Hs HD HDb Ht.
  destruct (main_ok (cs_clock o) (cs_select o) (cs_recv o) (al_live a) D HD R Hp Hs route input junk o a) as
    (x & [tc a'] & H & _ & _ & H2 & H3); try done. by exists x, tc, a'.
Qed.

(** A network that delivers nothing. *)
Definition csys_silent : csys := CSys 0 Z.of_nat (λ _, 3) (λ _, 0) (λ _, None) [] [].

(** A network on which the gateway answers the REGISTER and then falls
    silent. *)
Definition csys_once : csys :=
  CSys 0 Z.of_nat (λ _, 3) (λ n, if (n =? 1)%nat then 1 else 0)
    (λ n, if (n =? 2)%nat then Some (SockAddr 2130706433 8000, PACKET_REGISTERED :: be32 1000) else None) [] [].

Lemma once_delivered n : delivered (cs_recv csys_once) n ≤ 5.
Proof.
  enough (delivered (cs_recv csys_once) n = if (n <=? 2)%nat then 0 else 5) as -> by (destruct (_ <=? _)%nat; lia).
  induction n as [|n IH]; [reflexivity|]. rewrite delivered_S, IH. cbn [cs_recv csys_once].
  destruct n as [|[|[|n]]]; reflexivity.
Qed.

(** The client registers, sends the two lines, gives up on both replies after
    three seconds each, closes and returns 0. *)
Lemma client_ends_clean_witness :
  ∃ x tc a', client_main 3001 (str "test.com") (inr [str "hello"; []; str "again"; str "quit"])
      (World (new_client (replicate (Z.to_nat WBUF) 0) csys_once) al_good) = Ok (x, World tc a') ∧
    al_live a' = 0 ∧ cs_open (tc_sys tc) = [].
Proof.
  apply (client_ends_clean 1 5 (str "test.com") (inr [str "hello"; []; str "again"; str "quit"])
    (replicate (Z.to_nat WBUF) 0) csys_once al_good).
  - apply al_good_total.
  - rewrite length_replicate. apply Z2Nat.id. unfold WBUF. lia.
  - reflexivity.
  - split; cbn [cs_clock csys_once]; intros; lia.
  - split; cbn [cs_clock csys_once]; intros; lia.
  - exact once_delivered.
  - reflexivity.
  - apply (bool_decide_unpack _). vm_compute. reflexivity.
Defined.

(** The client does not check [ikcp_create] either: without memory a
    registration that succeeds ends in a NULL dereference. *)
Theorem connect_without_memory :
  tc_connect (str "127.0.0.1") 8000 (World (new_client [] csys_once) al_none) = Err NullDeref.
Proof. vm_compute. reflexivity. Qed.

(** The client's packet buffer is three bytes too small for the lines it
    reads: a message of 65533 or 65534 bytes, which [fgets] can return, is
    packed past the end of [wbuf_]. *)
Theorem send_data_overflows c a text :
  Z.of_nat (length (tc_wbuf c)) = WBUF → WBUF - 3 < strlen text < 65536 →
  send_data text (u16 (strlen text)) (World c a) = Err OutOfBounds.
Proof.
  intros Hb Ht. unfold strlen, WBUF in *. unfold send_data, pack_and_send, u16. rewrite Z.mod_small by lia.
  rewrite bind_run, get_eng_run, bind_run. unfold lift. by rewrite pack_data_overflow by lia.
Qed.

Lemma send_data_overflows_witness :
  send_data (replicate (Z.to_nat 65534) 65) (u16 (strlen (replicate (Z.to_nat 65534) 65)))
    (World (new_client (replicate (Z.to_nat WBUF) 0) csys_silent) al_good) = Err OutOfBounds.
Proof.
  apply send_data_overflows.
  - cbn [new_client tc_wbuf]. rewrite length_replicate. apply Z2Nat.id. unfold WBUF. lia.
  - unfold strlen, WBUF. rewrite length_replicate, Z2Nat.id; lia.
Defined.
